(* ===== verification/_CoqProject ===== *)
-Q . S2P
Prelude.v
PyDecimal.v
PyFloat.v
PyValue.v
PyText.v
Settings.v
Domain.v
Access.v
Workloads.v
Quota.v
Compute.v
Admission.v
Approval.v
Guard.v
Idempotency.v
Jobs.v
Plans.v
Policy.v
Scheduling.v
PlanDocument.v
Optimizer.v
Highs.v
Energy.v
Tariffs.v
AuditLog.v
Versions.v
Store.v
Topology.v
Registry.v
Forecast.v
Mpc.v
MpcRepository.v
Landing.v
TimeSeries.v
Ingestion.v
Simulator.v
Engine.v
Operations.v
Platform.v
Sites.v
Insight.v
Evaluation.v
Scenarios.v
Api.v
Governance.v
Actions.v
Sessions.v
Worker.v
Certification.v
Lifecycle.v
Attestation.v
Evidence.v
Material.v
Release.v
Readiness.v
Publication.v
Connectors.v
Synchronization.v
Requests.v
Administration.v
Routes.v
Runs.v
Artifacts.v
Web.v
Import.v
