(* ===== verification/Prelude.v ===== *)
(** * ComputeWeaver: a verification of the control plane for AI compute and energy

    ComputeWeaver plans AI workloads on GPU sites together with their energy: it ingests signals, keeps
    inventory and topology, admits jobs against quotas, schedules or optimizes them against prices and power,
    runs plans through a rolling-horizon controller, and lets an action reach a provider only through policy,
    approval, an action guard and an idempotent execution store.  State lives in a versioned resource store, in
    tables of PostgreSQL or, for tests and single processes, in dicts under a lock; an audit log and a
    certification repository are hash chains.  HTTP handlers authenticate a request, parse its body and compose these
    components; workers run durable jobs.  The development models the Python packages under [src/packages], the
    settings, and the API, worker, store and simulator under [src/apps] as executable definitions, with the names of
    the source.

    ** How the code is modelled

    A function that may raise returns [result] (a value or a Python exception, [exn]); a method that changes its
    object is a computation of the state monad [M], which keeps the state reached when an exception escapes, as
    the object does.  A [with tenant_connection] block is one transaction: the runner [txn] is an argument, and
    the class [Transactional] says that it commits on a normal end and rolls back on an exception.  A component
    with two backends has [mem_] definitions (dicts under a lock) and [pg_] definitions (each SQL statement as
    its effect on the finite map that is the table).  Where callers interleave between transactions, the
    phases are steps of an inductive relation and the theorems are about every reachable configuration.

    Code outside the repository is an argument of the definitions that use it: SHA-256 digests, the clock, the
    HTTP and gateway clients, the JWT library, the time-zone database, the HiGHS solver (with a contract, [highs_law]), [datetime.fromisoformat], the round trip of
    a document through a [jsonb] column ([reload]), the text of a container ([str_container]) and the choice
    among equal rows of an ORDER BY ([pick]).

    ** Files

    - Prelude: exceptions, the two monads, transactions, Python's stable [sorted] with key comparisons, ordered
      dicts, duplicates, cycles in relations, tactics.  PyDecimal: [decimal.Decimal] with its 28-digit context
      and the theory of its rounding.  PyFloat: the conversions to binary64.  PyValue, PyText: dynamic values,
      numbers as text, documents.
    - Settings: [config/settings.py].  Access: [packages/iam], and the request contexts, route roles and error
      responses of [apps/api/main.py].  Domain: [packages/domain].
    - Workloads, Quota, Compute, Admission: [packages/workloads], [compute], [admission]; Admission is proved against
      the interface [QuotaService] that both ledgers discharge.
    - Approval: [packages/risk], [approval].  Guard, Idempotency: [packages/execution].  Jobs: [packages/jobs].
      Plans: [packages/plans/lifecycle.py].  Policy: [packages/policy], [constraints].
    - Scheduling, PlanDocument: [packages/scheduling], [plans/diff.py].  Optimizer, Highs: [packages/optimization].
      Insight, Evaluation: [packages/whatif], [explain], [benchmark], [reports], [evaluator], [replay].
      Mpc, MpcRepository: [packages/mpc]; the repository is proved against the interface [StoreLaws].
    - Energy, Tariffs, Sites: [packages/energy], [resilience], [island], [carbon], [tariffs], [chargeback], [budgets],
      [multisite], [sovereignty], [region_packs].
    - AuditLog: [packages/observability/audit.py].  Versions, Store: [apps/api/store.py].  Topology, Import:
      [packages/topology].  Registry, Forecast: [packages/forecasting].
    - Landing, TimeSeries, Ingestion: [packages/ingestion], [contracts/events.py], [connectors/offsets.py],
      [connectors/base.py], [timeseries], [data_quality], [apps/worker/ingestion.py].  Operations:
      [packages/persistence/operations.py].  Platform: [packages/admin], [notifications], [dr/service.py],
      [apps/simulator/snapshots.py].
    - Api, Governance, Actions: the handlers of [apps/api/main.py] that write resources, govern plans and approvals,
      and execute actions, against the interfaces [StoreLaws] and [ApprovalLaws], which both backends of the store and
      of the workflow discharge.  Requests: [packages/scheduling/serialization.py] and the handlers that keep no state.
      Administration: the quota, admission, topology, model and policy routes.  Routes: the routes of tariffs,
      simulations, controllers, recovery plans, studies, views and the audit log.  Runs: the routes and the job that
      solve with HiGHS.  Artifacts: [packages/objectstore] and the artifact routes.  Web: [apps/web/main.py].  Worker: [apps/worker/main.py].
    - Connectors: [packages/secrets], [packages/connectors].  Synchronization: the connector routes of the API, over
      Landing, TimeSeries and the offsets.
    - Certification, Lifecycle, Attestation, Evidence, Material, Release, Readiness: [packages/certification], that is
      [service.py], [signing.py], [lifecycle.py], [attestations.py], [evidence.py], [requests.py], [readiness.py].
      Publication: the certification routes of the API over them.
    - Simulator: [apps/simulator].  Engine, Scenarios, Sessions: [packages/simulation], [scenarios], [faults]; the
      sessions are proved against [StoreLaws].

    ** What is proved

    - The two backends of a component are refinements of one specification or answer alike (Approval, Store,
      Topology, Registry, Landing, TimeSeries), or each satisfies the component's contract (Quota, AuditLog,
      Idempotency).
    - Safety of execution: four eyes on approvals, an action guard that allows exactly what it should, provider
      writes only behind the gate, at most one successful run per idempotency key under any interleaving,
      all-or-nothing transactions with compensation, dispatch once per slot, live plans only when governed.
    - Composition: under any interleaving of requests the plans the API stores follow the plan life cycle and are
      approved only with the votes their approval demands (Governance); an action reaches an executor only through the
      guard and at most once per key (Actions); a retried operation or job has its effect and its audit record once
      (Api, Worker); a production request is served only for a verified identity with a role of the route, under
      settings that fail closed (Access, Settings); a batch that is ingested again changes nothing (Ingestion), and a
      meter that is synchronised again after a failure at any point stores each interval once (Synchronization).  Registries of quotas, models, policies and topology change only
      for those whose role allows it (Administration); a published tariff keeps its terms (Routes); the baseline
      route answers with plans the validator accepts or with an error response (Requests); an artifact is read as it was
      stored, whatever others upload (Artifacts); the console serves its build, its configuration and the API, and
      nothing else of the file system (Web).
    - Release: a release is certified from evidence only when tests, contracts, containers and source are backed by
      hashed files of that release and the attestations by the unexpired, signed word of independent people the trust
      policy names, and a release that the API has published was backed so when an administrator ran its
      certification (Publication); certificates, their repository and tokens; issued attestations verify; evidence files and requests
      cannot be changed unnoticed.
    - Simulation: a compiled scenario runs to its end, one event per step with the faults of its schedule, and a run
      that is interrupted, restored and resumed gives the same events; stored sessions are linear under interleaving.
    - Optimality: the branch-and-bound search returns a cheapest feasible plan or proves that there is none, when
      its clock does not expire and prices are not negative; the greedy strategies return plans the validator
      accepts; the binary program for HiGHS has exactly the feasible assignments within the power limits as its solutions, so
      that the backend is as good as its solver, and no answer makes it return a plan that is not feasible (Highs, Runs);
      the validator accepts exactly the plans the specification allows; what-if studies and price
      counterfactuals are right for the changed request, and dearer energy never lowers the optimal cost.
    - Invariants of histories: the job queue, quota accounting, the audit chain and its tamper evidence, one
      production model per name, the certification life cycle, the simulated cluster.
    - Termination: dependency and topology graph checks, breadth-first descendants, interval splitting,
      resampling, scenario runs; and the simulated cluster drains.
    - Arithmetic: tiered energy, chargeback, state of charge, forecasts, migration savings, evaluations, in decimals
      with their rounding; money is typed by its currency.
    - Round trips: plans, controller states, simulators and evidence requests as documents, numbers as text, release tokens,
      configuration rollbacks, evidence files.

    ** Bounds and fuel

    A loop that is not structural runs on fuel that the model computes, and a theorem shows that it is enough:
    [split_loop] and [resample_loop] get one round more than the length of the interval over the step, rounded
    up; [visit] one more than the number of jobs, since a path without repetition is no longer; [kahn] the number of assets,
    each of which enters the queue at most once; [bfs] twice the number of relationships, since each enters
    the queue at most once as an edge of the root and once when its parent is reached; [run_loop] of the engine
    the steps that are left; [node_pages] one round for each page the cluster serves; [ndigits] and the digits of a number the logarithm of its
    value; [strip_zeros] the digits a quotient was extended by.  Integers are unbounded, as Python's are; the
    ranges of SQL columns are not modelled.

    ** Not modelled

    The API handlers that list and query time series; polling loops and sockets; telemetry; the objectives
    that go through the text of a float; container images, the gate suite, load tests, rehearsals and scripts (subprocesses and the network). *)
From stdpp Require Export base gmap list strings sorting numbers relations.
From Stdlib Require Export ZArith Lia.

#[global] Open Scope Z_scope.

(** ** Python exceptions and fallible computations *)

(** The exceptions the modelled code raises, with the message where the source
    gives a constant one.  [AuthenticationError] is the subclass of [PermissionError] that
    [packages/iam/authentication.py] defines.  [InvalidOperation] is [decimal.InvalidOperation]: it
    derives from [ArithmeticError] and is not a [ValueError]. *)
Inductive exn : Type :=
| ValueError (msg : string)
| PermissionError (msg : string)
| AuthenticationError (msg : string)
| ConnectionError (msg : string)
| RuntimeError (msg : string)
| KeyError (key : string)
| IndexError
| TypeError
| LookupError (msg : string)
| ZeroDivisionError (msg : string)
| InvalidOperation
| StopIteration
| OtherError (tag : string).

#[global] Instance exn_eq_dec : EqDecision exn.
Proof. solve_decision. Defined.

Inductive result (A : Type) : Type :=
| Ok (a : A)
| Err (e : exn).
Arguments Ok {A} a.
Arguments Err {A} e.

#[global] Instance result_eq_dec `{EqDecision A} : EqDecision (result A).
Proof. solve_decision. Defined.

#[global] Instance result_ret : MRet result := λ A a, Ok a.
#[global] Instance result_bind : MBind result := λ A B f m,
  match m with Ok a => f a | Err e => Err e end.
#[global] Instance result_fmap : FMap result := λ A B f m,
  match m with Ok a => Ok (f a) | Err e => Err e end.

(** [if b: raise e] *)
Definition raise_if (b : bool) (e : exn) : result unit :=
  if b then Err e else Ok tt.

Definition of_option {A} (e : exn) (o : option A) : result A :=
  match o with Some a => Ok a | None => Err e end.

Definition is_ok {A} (r : result A) : bool :=
  match r with Ok _ => true | Err _ => false end.

(** ** Stateful computations

    A Python method that mutates its object and may raise: the state reached is
    kept when an exception escapes, exactly as the object keeps its mutations. *)
Definition M (S A : Type) : Type := S → S * result A.

#[global] Instance M_ret {S} : MRet (M S) := λ A a s, (s, Ok a).
#[global] Instance M_bind {S} : MBind (M S) := λ A B f m s,
  match m s with
  | (s', Ok a) => f a s'
  | (s', Err e) => (s', Err e)
  end.

Definition mget {S} : M S S := λ s, (s, Ok s).
Definition mput {S} (s' : S) : M S unit := λ _, (s', Ok tt).
Definition mraise {S A} (e : exn) : M S A := λ s, (s, Err e).
Definition mlift {S A} (r : result A) : M S A := λ s, (s, r).
Definition mguard {S} (b : bool) (e : exn) : M S unit := λ s, (s, raise_if b e).

(** A list comprehension whose body may raise. *)
Fixpoint mapM_result {A B} (f : A → result B) (l : list A) : result (list B) :=
  match l with
  | [] => Ok []
  | x :: l' =>
      match f x with
      | Err e => Err e
      | Ok y => match mapM_result f l' with Err e => Err e | Ok ys => Ok (y :: ys) end
      end
  end.

(** A [for] loop that updates local state and may raise. *)
Fixpoint foldM_result {A B} (f : B → A → result B) (l : list A) (b : B) : result B :=
  match l with
  | [] => Ok b
  | x :: l' => match f b x with Err e => Err e | Ok b' => foldM_result f l' b' end
  end.

(** ** Transactions

    What [PostgresRuntime.tenant_connection] relies on: the block of the [with]
    statement is one transaction, committed when the block ends normally (also by
    [return]) and rolled back when an exception leaves it.  The pool and the
    driver are third-party code, so the runner is an operation of this class and
    its documented behaviour the two laws. *)
Class Transactional (txn : ∀ S A, M S A → M S A) : Prop := {
  txn_commit : ∀ S A (m : M S A) s s' a, m s = (s', Ok a) → txn S A m s = (s', Ok a);
  txn_rollback : ∀ S A (m : M S A) s s' e, m s = (s', Err e) → txn S A m s = (s, Err e)
}.

Definition atomically {S A} (m : M S A) : M S A := λ s,
  match m s with
  | (s', Ok a) => (s', Ok a)
  | (_, Err e) => (s, Err e)
  end.

#[global] Instance atomically_transactional : Transactional (@atomically).
Proof. split; intros; unfold atomically; by rewrite H. Qed.

Lemma txn_atomically `{Transactional txn} {S A} (m : M S A) s :
  txn S A m s = atomically m s.
Proof.
  unfold atomically. destruct (m s) as [s' [a|e]] eqn:E.
  - by apply txn_commit.
  - by eapply txn_rollback.
Qed.

(** ** Comparison keys and Python's stable [sorted]

    A sort key is modelled by the three-way comparison it induces; a tuple key is
    the lexicographic composition [cmp_then] of its components. *)
Class CmpOrder {A} (cmp : A → A → comparison) : Prop := {
  cmp_flip : ∀ x y, cmp y x = CompOpp (cmp x y);
  cmp_le_trans : ∀ x y z, cmp x y ≠ Gt → cmp y z ≠ Gt → cmp x z ≠ Gt
}.

Arguments cmp_flip {A} cmp {_} x y.
Arguments cmp_le_trans {A} cmp {_} x y z.

Definition cmp_leb {A} (cmp : A → A → comparison) (x y : A) : bool :=
  match cmp x y with Gt => false | _ => true end.

Definition cmp_then {A} (c1 c2 : A → A → comparison) (x y : A) : comparison :=
  match c1 x y with Eq => c2 x y | c => c end.

Definition cmp_on {A B} (f : A → B) (cmp : B → B → comparison) (x y : A) : comparison :=
  cmp (f x) (f y).

Definition bool_compare (a b : bool) : comparison :=
  match a, b with
  | false, true => Lt
  | true, false => Gt
  | _, _ => Eq
  end.

Fixpoint sort_insert {A} (cmp : A → A → comparison) (x : A) (l : list A) : list A :=
  match l with
  | [] => [x]
  | y :: l' => if cmp_leb cmp x y then x :: l else y :: sort_insert cmp x l'
  end.

(** [sorted(l, key=...)]: equal keys keep their input order. *)
Definition py_sorted {A} (cmp : A → A → comparison) (l : list A) : list A :=
  foldr (sort_insert cmp) [] l.

Section cmp_order.
Context {A : Type} (cmp : A → A → comparison) `{!CmpOrder cmp}.

Lemma cmp_refl x : cmp x x = Eq.
Proof. pose proof (cmp_flip cmp x x). by destruct (cmp x x). Qed.

Lemma cmp_leb_refl x : cmp_leb cmp x x = true.
Proof. unfold cmp_leb. by rewrite cmp_refl. Qed.

Lemma cmp_leb_total x y : cmp_leb cmp x y = false → cmp_leb cmp y x = true.
Proof. unfold cmp_leb. rewrite (cmp_flip cmp x y). by destruct (cmp x y). Qed.

Lemma cmp_leb_trans x y z :
  cmp_leb cmp x y = true → cmp_leb cmp y z = true → cmp_leb cmp x z = true.
Proof.
  unfold cmp_leb. intros Hxy Hyz.
  pose proof (cmp_le_trans cmp x y z) as Ht.
  destruct (cmp x y), (cmp y z), (cmp x z); try done; exfalso; by apply Ht.
Qed.

Lemma cmp_eq_lt_trans x y z : cmp x y = Eq → cmp y z = Lt → cmp x z = Lt.
Proof.
  intros H1 H2.
  pose proof (cmp_le_trans cmp x y z) as Ha. pose proof (cmp_le_trans cmp z x y) as Hb.
  rewrite (cmp_flip cmp y z), (cmp_flip cmp x z), H1, H2 in Hb. rewrite H1, H2 in Ha.
  destruct (cmp x z); simpl in *; try done; exfalso; [apply Hb|apply Ha]; done.
Qed.

Lemma cmp_lt_eq_trans x y z : cmp x y = Lt → cmp y z = Eq → cmp x z = Lt.
Proof.
  intros H1 H2.
  pose proof (cmp_le_trans cmp x y z) as Ha. pose proof (cmp_le_trans cmp y z x) as Hb.
  rewrite (cmp_flip cmp x z), (cmp_flip cmp x y), H1, H2 in Hb. rewrite H1, H2 in Ha.
  destruct (cmp x z); simpl in *; try done; exfalso; [apply Hb|apply Ha]; done.
Qed.

Lemma cmp_lt_trans x y z : cmp x y = Lt → cmp y z = Lt → cmp x z = Lt.
Proof.
  intros H1 H2.
  pose proof (cmp_le_trans cmp x y z) as Ha. rewrite H1, H2 in Ha.
  destruct (cmp x z) eqn:E; [|done|by exfalso; apply Ha].
  assert (cmp z x = Eq) as E' by (rewrite (cmp_flip cmp x z), E; done).
  pose proof (cmp_eq_lt_trans z x y E' H1) as H3.
  rewrite (cmp_flip cmp y z), H2 in H3. done.
Qed.

Lemma cmp_eq_trans x y z : cmp x y = Eq → cmp y z = Eq → cmp x z = Eq.
Proof.
  intros H1 H2.
  pose proof (cmp_le_trans cmp x y z) as Ha. pose proof (cmp_le_trans cmp z y x) as Hb.
  rewrite (cmp_flip cmp y z), (cmp_flip cmp x y), (cmp_flip cmp x z), H1, H2 in Hb.
  rewrite H1, H2 in Ha.
  destruct (cmp x z); simpl in *; try done; exfalso; [apply Hb|apply Ha]; done.
Qed.

(** [x] comes no later than [y] in key order *)
Definition key_le (x y : A) : Prop := cmp_leb cmp x y = true.

#[global] Instance key_le_trans : Transitive key_le.
Proof. intros x y z. apply cmp_leb_trans. Qed.

Lemma sort_insert_perm x l : sort_insert cmp x l ≡ₚ x :: l.
Proof.
  induction l as [|y l IH]; simpl; [done|].
  destruct (cmp_leb cmp x y); [done|]. rewrite IH. apply Permutation_swap.
Qed.

Lemma py_sorted_perm l : py_sorted cmp l ≡ₚ l.
Proof. induction l as [|x l IH]; simpl; [done|]. by rewrite sort_insert_perm, IH. Qed.

Lemma sort_insert_sorted x l :
  StronglySorted key_le l → StronglySorted key_le (sort_insert cmp x l).
Proof.
  induction 1 as [|y l Hs IH Hy]; simpl; [by repeat constructor|].
  destruct (cmp_leb cmp x y) eqn:E.
  - constructor; [by constructor|]. constructor; [done|].
    eapply Forall_impl; [exact Hy|]. intros z Hz. by eapply cmp_leb_trans.
  - constructor; [done|]. rewrite sort_insert_perm. constructor; [|done].
    by apply cmp_leb_total.
Qed.

Lemma py_sorted_sorted l : StronglySorted key_le (py_sorted cmp l).
Proof. induction l; simpl; [constructor|]. by apply sort_insert_sorted. Qed.

(** Two sorted arrangements of the same elements are equal when no two of them have equal keys. *)
Lemma sorted_unique l : ∀ k, StronglySorted key_le l → StronglySorted key_le k → l ≡ₚ k →
  (∀ x y, x ∈ l → y ∈ l → cmp x y = Eq → x = y) → l = k.
Proof.
  induction l as [|x l IH]; intros k Hl Hk Hp Hinj; [by apply Permutation_nil in Hp|].
  destruct k as [|y k]; [by symmetry in Hp; apply Permutation_nil in Hp|].
  apply StronglySorted_inv in Hl as [Hl Hx], Hk as [Hk Hy]. rewrite Forall_forall in Hx. rewrite Forall_forall in Hy.
  assert (x = y) as <-.
  { assert (x ∈ y :: k) as Hxk by (rewrite <- Hp; left). assert (y ∈ x :: l) as Hyl by (rewrite Hp; left).
    apply elem_of_cons in Hxk as [?|Hxk]; [done|]. apply elem_of_cons in Hyl as [?|Hyl]; [done|].
    apply Hinj; [left|by right|]. pose proof (Hx y Hyl) as H1. pose proof (Hy x Hxk) as H2. unfold key_le, cmp_leb in *.
    rewrite (cmp_flip cmp x y) in H2. by destruct (cmp x y). }
  f_equal. apply IH; [done..| |].
  - by apply Permutation_cons_inv in Hp.
  - intros a b Ha Hb. apply Hinj; by right.
Qed.

Lemma elem_of_py_sorted x l : x ∈ py_sorted cmp l ↔ x ∈ l.
Proof. by rewrite py_sorted_perm. Qed.

Lemma length_py_sorted l : length (py_sorted cmp l) = length l.
Proof. by rewrite py_sorted_perm. Qed.

(** Sorting a list that is already in key order leaves it as it is. *)
Lemma py_sorted_id l : StronglySorted key_le l → py_sorted cmp l = l.
Proof.
  induction 1 as [|x l Hs IH Hx]; simpl; [done|]. rewrite IH.
  destruct l as [|y l]; simpl; [done|].
  apply Forall_cons in Hx as [Hxy _]. unfold key_le in Hxy. by rewrite Hxy.
Qed.
End cmp_order.

#[global] Instance Z_compare_order : CmpOrder Z.compare.
Proof.
  split; [intros x y; apply Z.compare_antisym|].
  intros x y z. rewrite !Z.compare_gt_iff. lia.
Qed.

#[global] Instance bool_compare_order : CmpOrder bool_compare.
Proof. split; [by intros [] []|by intros [] [] []]. Qed.

Lemma string_compare_lt_trans s1 s2 s3 :
  String.compare s1 s2 = Lt → String.compare s2 s3 = Lt → String.compare s1 s3 = Lt.
Proof.
  revert s2 s3. induction s1 as [|a s1 IH]; intros [|b s2] [|c s3]; simpl; try done.
  unfold Ascii.compare.
  destruct (N.compare_spec (Ascii.N_of_ascii a) (Ascii.N_of_ascii b)) as [Hab|Hab|Hab]; try done;
  destruct (N.compare_spec (Ascii.N_of_ascii b) (Ascii.N_of_ascii c)) as [Hbc|Hbc|Hbc]; try done;
  destruct (N.compare_spec (Ascii.N_of_ascii a) (Ascii.N_of_ascii c)) as [Hac|Hac|Hac]; try done;
    try lia; eauto.
Qed.

#[global] Instance string_compare_order : CmpOrder String.compare.
Proof.
  split; [intros x y; apply String.compare_antisym|].
  intros x y z Hxy Hyz Hxz.
  destruct (String.compare x y) eqn:E1; [|..|done];
    destruct (String.compare y z) eqn:E2; try done.
  - apply String.compare_eq_iff in E1. subst. congruence.
  - apply String.compare_eq_iff in E1. subst. congruence.
  - apply String.compare_eq_iff in E2. subst. congruence.
  - rewrite (string_compare_lt_trans x y z) in Hxz by done. done.
Qed.

#[global] Instance cmp_on_order {A B} (f : A → B) cmp : CmpOrder cmp → CmpOrder (cmp_on f cmp).
Proof. intros [Hf Ht]. split; unfold cmp_on; eauto. Qed.

#[global] Instance cmp_then_order {A} (c1 c2 : A → A → comparison) :
  CmpOrder c1 → CmpOrder c2 → CmpOrder (cmp_then c1 c2).
Proof.
  intros H1 H2. split; unfold cmp_then.
  - intros x y. rewrite (cmp_flip c1 x y), (cmp_flip c2 x y).
    by destruct (c1 x y).
  - intros x y z.
    destruct (c1 x y) eqn:E1; [| |done]; destruct (c1 y z) eqn:E2; try done; intros Ha Hb.
    + rewrite (cmp_eq_trans c1 x y z) by done. by apply (cmp_le_trans c2 x y z).
    + by rewrite (cmp_eq_lt_trans c1 x y z).
    + by rewrite (cmp_lt_eq_trans c1 x y z).
    + by rewrite (cmp_lt_trans c1 x y z).
Qed.

(** ** Insertion-ordered dictionaries

    A Python [dict] whose iteration order is observable: an association list in
    insertion order, where assigning to a present key keeps its position. *)
Section odict.
Context {K V : Type} `{EqDecision K}.

Fixpoint od_get (k : K) (d : list (K * V)) : option V :=
  match d with
  | [] => None
  | (k', v) :: d' => if decide (k = k') then Some v else od_get k d'
  end.

Fixpoint od_set (k : K) (v : V) (d : list (K * V)) : list (K * V) :=
  match d with
  | [] => [(k, v)]
  | (k', v') :: d' => if decide (k = k') then (k', v) :: d' else (k', v') :: od_set k v d'
  end.

Lemma od_get_set_eq k v d : od_get k (od_set k v d) = Some v.
Proof. induction d as [|[k' v'] d IH]; simpl; repeat (case_decide; simpl); naive_solver. Qed.

Lemma od_get_set_ne k k' v d : k ≠ k' → od_get k' (od_set k v d) = od_get k' d.
Proof.
  intros. induction d as [|[k1 v1] d IH]; simpl; repeat (case_decide; simpl); naive_solver.
Qed.

Lemma od_get_elem_of k v d : od_get k d = Some v → (k, v) ∈ d.
Proof.
  induction d as [|[k' v'] d IH]; simpl; [done|]. case_decide; intros ?; simplify_eq.
  - left.
  - right. auto.
Qed.

Lemma od_get_None k d : od_get k d = None ↔ k ∉ d.*1.
Proof.
  induction d as [|[k' v'] d IH]; simpl; [split; [intros _; apply not_elem_of_nil|done]|].
  rewrite not_elem_of_cons. case_decide; naive_solver.
Qed.

Lemma od_set_keys k v d : (od_set k v d).*1 = if decide (k ∈ d.*1) then d.*1 else d.*1 ++ [k].
Proof.
  induction d as [|[k' v'] d IH]; simpl; [done|].
  destruct (decide (k = k')) as [<-|Hk]; csimpl.
  - by rewrite decide_True by left.
  - rewrite IH. destruct (decide (k ∈ d.*1)).
    + by rewrite decide_True by set_solver.
    + by rewrite decide_False by set_solver.
Qed.

Lemma od_set_NoDup k v d : NoDup d.*1 → NoDup (od_set k v d).*1.
Proof.
  intros Hd. rewrite od_set_keys. case_decide; [done|].
  apply NoDup_app. split_and!; [done| |apply NoDup_singleton]. set_solver.
Qed.

Lemma elem_of_od_get k v d : NoDup d.*1 → (k, v) ∈ d → od_get k d = Some v.
Proof.
  induction d as [|[k' v'] d IH]; simpl; [set_solver|].
  rewrite NoDup_cons, elem_of_cons. intros [Hni Hnd] [?|Hin]; simplify_eq/=.
  - by rewrite decide_True.
  - rewrite decide_False; [eauto|]. intros ->. apply Hni.
    apply list_elem_of_fmap. by exists (k', v).
Qed.

Lemma elem_of_od_set k v d kv :
  NoDup d.*1 → kv ∈ od_set k v d → kv = (k, v) ∨ (kv ∈ d ∧ kv.1 ≠ k).
Proof.
  induction d as [|[k' v'] d IH]; simpl; [set_solver|].
  rewrite NoDup_cons. intros [Hni Hnd]. case_decide; simplify_eq/=.
  - rewrite !elem_of_cons. intros [->|Hin]; [by left|right]. split; [by right|].
    intros <-. apply Hni, list_elem_of_fmap. by exists kv.
  - rewrite !elem_of_cons. intros [->|Hin]; [naive_solver|]. naive_solver.
Qed.
End odict.

(** ** Python sequences *)

(** [len(set(l)) != len(l)], the duplicate test the code uses. *)
Definition has_duplicates `{Countable A} (l : list A) : bool :=
  negb (size (list_to_set l : gset A) =? length l)%nat.

Lemma size_list_to_set_le `{Countable A} (l : list A) :
  (size (list_to_set l : gset A) ≤ length l)%nat.
Proof.
  induction l as [|x l IH]; simpl; [done|].
  rewrite size_union_alt. rewrite size_singleton.
  pose proof (subseteq_size (list_to_set l ∖ {[x]} : gset A) (list_to_set l)). set_solver by lia.
Qed.

Lemma has_duplicates_false `{Countable A} (l : list A) :
  has_duplicates l = false ↔ NoDup l.
Proof.
  unfold has_duplicates. rewrite negb_false_iff, Nat.eqb_eq. split.
  - induction l as [|x l IH]; intros Hs; [constructor|]. simpl in Hs.
    pose proof (size_list_to_set_le l) as Hle.
    destruct (decide (x ∈ l)) as [Hx|Hx].
    + exfalso. rewrite subseteq_union_1_L in Hs by set_solver. lia.
    + constructor; [done|]. apply IH.
      rewrite size_union, size_singleton in Hs by set_solver. lia.
  - apply size_list_to_set.
Qed.

Lemma size_gt_1 `{Countable A} (X : gset A) : (1 < size X)%nat ↔ ∃ x y, x ∈ X ∧ y ∈ X ∧ x ≠ y.
Proof.
  split.
  - intros Hs. destruct (set_choose_or_empty X) as [[x Hx]|He%leibniz_equiv].
    + destruct (set_choose_or_empty (X ∖ {[x]})) as [[y Hy]|He].
      * exists x, y. set_solver.
      * assert (X ⊆ {[x]}) as Hsub by (intros z Hz; destruct (decide (z = x)); set_solver).
        apply subseteq_size in Hsub. rewrite size_singleton in Hsub. lia.
    + subst X. rewrite size_empty in Hs. lia.
  - intros (x & y & Hx & Hy & Hne).
    assert (size ({[x; y]} : gset A) ≤ size X)%nat as Hle by (apply subseteq_size; set_solver).
    rewrite size_union, !size_singleton in Hle by set_solver. lia.
Qed.

(** [x in xs] on a tuple or list *)
Definition mem `{EqDecision A} (x : A) (l : list A) : bool := bool_decide (x ∈ l).

Lemma mem_true `{EqDecision A} (x : A) l : mem x l = true ↔ x ∈ l.
Proof. apply bool_decide_eq_true. Qed.

Lemma mem_false `{EqDecision A} (x : A) l : mem x l = false ↔ x ∉ l.
Proof. apply bool_decide_eq_false. Qed.

(** [any(f(x) for x in l)] *)
Lemma existsb_false {A} (f : A → bool) l : existsb f l = false ↔ Forall (λ x, f x = false) l.
Proof.
  induction l as [|x l IH]; simpl; [split; [constructor|done]|].
  rewrite orb_false_iff, Forall_cons, IH. done.
Qed.

Lemma Forall2_zip {A B} (P : A → B → Prop) l k : Forall2 P l k → Forall (λ xy, P xy.1 xy.2) (zip l k).
Proof. induction 1; simpl; by constructor. Qed.

(** ** Sets closed under a relation that carry no cycle *)
Section closed_sets.
Context `{Countable A} (R : A → A → Prop).

Definition closed_no_cycle (V : gset A) : Prop :=
  (∀ a b, a ∈ V → R a b → b ∈ V) ∧ (∀ a, a ∈ V → ¬ tc R a a).

Lemma closed_tc V a b : closed_no_cycle V → a ∈ V → tc R a b → b ∈ V.
Proof. intros (Hc & _) Ha Ht. revert Ha. induction Ht; eauto. Qed.

Lemma closed_no_cycle_add V a :
  closed_no_cycle V → a ∉ V → (∀ b, R a b → b ∈ V) → closed_no_cycle ({[a]} ∪ V).
Proof.
  intros HV Ha Hd. pose proof HV as (H2 & H3). split.
  - intros x y Hx Hxy. apply elem_of_union in Hx as [->%elem_of_singleton|Hx]; set_solver.
  - intros x Hx Ht. apply elem_of_union in Hx as [->%elem_of_singleton|Hx]; [|by eapply H3].
    apply Ha. inversion Ht as [? ? Hr|? y ? Hr Ht']; subst; [auto|].
    by eapply closed_tc; [done|apply Hd|].
Qed.

(** In a finite set in which every element has a successor, a walk runs into a cycle. *)
Lemma walk_cycle (X : gset A) n : (∀ a, a ∈ X → ∃ b, b ∈ X ∧ R a b) → ∀ visited a, a ∈ X →
  (∀ v, v ∈ visited → tc R v a) → (size (X ∖ visited) <= n)%nat → ∃ x, tc R x x.
Proof.
  intros Hs. induction n as [|n IH]; intros visited a Ha Hv Hn.
  - exists a. apply Hv. destruct (decide (a ∈ visited)); [done|]. exfalso.
    assert (size (X ∖ visited) ≠ 0%nat); [|lia]. apply size_non_empty_iff. set_solver.
  - destruct (decide (a ∈ visited)) as [Hin|Hin]; [exists a; by apply Hv|].
    destruct (Hs a Ha) as (b & Hb & Hab). apply (IH ({[a]} ∪ visited) b Hb).
    + intros v [->%elem_of_singleton|Hv']%elem_of_union; [by apply tc_once|].
      eapply tc_transitive; [by apply Hv|by apply tc_once].
    + assert (X ∖ visited ≡ {[a]} ∪ X ∖ ({[a]} ∪ visited)) as E.
      { intros x. destruct (decide (x = a)); set_solver. }
      rewrite E, size_union, size_singleton in Hn by set_solver. lia.
Qed.

Lemma successors_cycle (X : gset A) : X ≢ ∅ → (∀ a, a ∈ X → ∃ b, b ∈ X ∧ R a b) → ∃ x, tc R x x.
Proof.
  intros Hne Hs. destruct (set_choose X) as [a Ha]; [done|]. by apply (walk_cycle X (size (X ∖ ∅)) Hs ∅ a Ha).
Qed.
End closed_sets.

Lemma NoDup_length_le {A} (l k : list A) : NoDup l → (∀ x, x ∈ l → x ∈ k) → (length l <= length k)%nat.
Proof. intros Hl Hs. by apply submseteq_length, NoDup_submseteq. Qed.

(** In a list without duplicate keys, the key determines the element. *)
Lemma NoDup_map_elem {A B} (f : A → B) l x y : NoDup (map f l) → x ∈ l → y ∈ l → f x = f y → x = y.
Proof.
  induction l as [|z l IH]; simpl; [by intros _ ?%elem_of_nil|]. rewrite NoDup_cons, !elem_of_cons.
  intros [Hz Hnd] [->|Hx] [->|Hy] Hf; [done| | |by apply IH].
  - destruct Hz. rewrite Hf. by apply list_elem_of_fmap_2.
  - destruct Hz. rewrite <- Hf. by apply list_elem_of_fmap_2.
Qed.

Lemma filter_all {A} (P : A → Prop) `{∀ x, Decision (P x)} l : Forall P l → base.filter P l = l.
Proof. induction 1 as [|x l Hx Hl IH]; [done|]. by rewrite filter_cons_True, IH. Qed.

Lemma forallb_true_iff {A} (f : A → bool) l : forallb f l = true ↔ Forall (λ x, f x = true) l.
Proof. induction l as [|x l IH]; simpl; [done|]. by rewrite andb_true_iff, IH, Forall_cons. Qed.

Lemma existsb_true {A} (f : A → bool) l : existsb f l = true ↔ ∃ x, x ∈ l ∧ f x = true.
Proof. rewrite existsb_exists. by setoid_rewrite <- list_elem_of_In. Qed.

(** [max(items, key=...)]: the first item of greatest key. *)
Fixpoint py_max_from {A} (cmp : A → A → comparison) (best : A) (l : list A) : A :=
  match l with
  | [] => best
  | x :: l' => py_max_from cmp (match cmp best x with Lt => x | _ => best end) l'
  end.

Lemma py_max_from_spec {A} (cmp : A → A → comparison) `{!CmpOrder cmp} best l :
  py_max_from cmp best l ∈ best :: l ∧ Forall (λ x, cmp x (py_max_from cmp best l) ≠ Gt) (best :: l).
Proof.
  revert best. induction l as [|x l IH]; intros best; simpl.
  - split; [left|]. repeat constructor. by rewrite cmp_refl.
  - destruct (cmp best x) eqn:E.
    + destruct (IH best) as [Hin [Hb Hl]%Forall_cons]. split; [set_solver|].
      constructor; [done|]. constructor; [|done].
      apply (cmp_le_trans cmp x best); [|done]. rewrite (cmp_flip cmp best x), E. done.
    + destruct (IH x) as [Hin [Hb Hl]%Forall_cons]. split; [set_solver|].
      constructor; [|by constructor]. apply (cmp_le_trans cmp best x); [|done]. by rewrite E.
    + destruct (IH best) as [Hin [Hb Hl]%Forall_cons]. split; [set_solver|].
      constructor; [done|]. constructor; [|done].
      apply (cmp_le_trans cmp x best); [|done]. rewrite (cmp_flip cmp best x), E. done.
Qed.

Lemma cmp_reverse_order {A} (cmp : A → A → comparison) : CmpOrder cmp → CmpOrder (λ x y, cmp y x).
Proof. intros H. split; [intros x y; apply (cmp_flip cmp)|]. intros x y z H1 H2. by apply (cmp_le_trans cmp z y x). Qed.

(** [min(l, key=...)]: the first of the smallest elements *)
Definition py_min_from {A} (cmp : A → A → comparison) : A → list A → A := py_max_from (λ x y, cmp y x).

Lemma py_min_from_spec {A} (cmp : A → A → comparison) `{!CmpOrder cmp} best l :
  py_min_from cmp best l ∈ best :: l ∧ Forall (λ x, cmp (py_min_from cmp best l) x ≠ Gt) (best :: l).
Proof. pose proof (cmp_reverse_order cmp _). apply (py_max_from_spec (λ x y, cmp y x)). Qed.

(** Sequence indexing [l[i]]: negative indices count from the end. *)
Definition py_index {A} (l : list A) (i : Z) : option A :=
  if 0 <=? i then l !! Z.to_nat i
  else if 0 <=? i + Z.of_nat (length l) then l !! Z.to_nat (i + Z.of_nat (length l))
  else None.

Lemma bind_ok {A B} (m : result A) (f : A → result B) y : (x ← m; f x) = Ok y → ∃ x, m = Ok x ∧ f x = Ok y.
Proof. unfold mbind, result_bind. destruct m; [by eauto|done]. Qed.

Lemma foldM_result_app {A B} (f : B → A → result B) l1 l2 b :
  foldM_result f (l1 ++ l2) b =
  match foldM_result f l1 b with Ok b' => foldM_result f l2 b' | Err e => Err e end.
Proof.
  revert b. induction l1 as [|x l1 IH]; intros b; simpl; [done|]. by destruct (f b x).
Qed.

(** Loop invariant of a [for] loop that ran to its end. *)
Lemma foldM_result_inv {A B} (f : B → A → result B) (I : B → Prop) l b b' :
  (∀ b x b', x ∈ l → I b → f b x = Ok b' → I b') →
  I b → foldM_result f l b = Ok b' → I b'.
Proof.
  revert b. induction l as [|x l IH]; intros b Hstep Hb; simpl; [naive_solver|].
  destruct (f b x) as [b1|] eqn:E; [|done]. apply IH.
  - intros ???? . apply Hstep. by right.
  - eapply Hstep; [left|..]; done.
Qed.

Lemma mapM_result_Forall2 {A B} (f : A → result B) l k :
  mapM_result f l = Ok k ↔ Forall2 (λ x y, f x = Ok y) l k.
Proof.
  revert k. induction l as [|x l IH]; intros k; simpl.
  - split; [by intros [= <-]|by inversion 1].
  - split.
    + destruct (f x) eqn:E; [|done]. destruct (mapM_result f l) eqn:E'; [|done].
      intros [= <-]. constructor; [done|]. by apply IH.
    + inversion 1 as [|?? ? ? Hx Hl]; subst. rewrite Hx. by rewrite (proj2 (IH _) Hl).
Qed.

Lemma sublist_map {A B} (f : A → B) (l k : list A) : l `sublist_of` k → map f l `sublist_of` map f k.
Proof. induction 1; simpl; by constructor. Qed.

Lemma sublist_of_filter {A} (P : A → Prop) `{∀ x, Decision (P x)} (l : list A) :
  base.filter P l `sublist_of` l.
Proof.
  induction l as [|x l IH]; [constructor|]. rewrite filter_cons. by case_decide; constructor.
Qed.

(** ** Sums over dictionaries and tables *)

Section map_sum.
Context `{Countable K} {V B : Type} (R : relation B) `{!Equivalence R}.
Context (plus : B → B → B) (zero : B) `{!Proper (R ==> R ==> R) plus}.
Context (Hcomm : ∀ a b, R (plus a b) (plus b a)).
Context (Hassoc : ∀ a b c, R (plus a (plus b c)) (plus (plus a b) c)).

Definition map_sum (w : K → V → B) (m : gmap K V) : B :=
  map_fold (λ k v acc, plus (w k v) acc) zero m.

Lemma map_sum_insert w m k v : m !! k = None →
  R (map_sum w (<[k:=v]> m)) (plus (w k v) (map_sum w m)).
Proof using Equivalence0 Proper0 Hcomm Hassoc.
  intros Hk. unfold map_sum. apply (map_fold_insert R (λ k v acc, plus (w k v) acc)); [..|done].
  - intros j z a b Hab. by rewrite Hab.
  - intros j1 j2 z1 z2 y _ _ _. by rewrite !Hassoc, (Hcomm (w j1 z1)).
Qed.

Lemma map_sum_delete w m k v : m !! k = Some v →
  R (map_sum w m) (plus (w k v) (map_sum w (delete k m))).
Proof using Equivalence0 Proper0 Hcomm Hassoc.
  intros Hk. rewrite <- (insert_delete_id m k v) at 1 by done.
  apply map_sum_insert, lookup_delete_eq.
Qed.

Lemma map_sum_update w m k v v' : m !! k = Some v →
  R (map_sum w (<[k:=v']> m)) (plus (w k v') (map_sum w (delete k m))).
Proof using Equivalence0 Proper0 Hcomm Hassoc.
  intros Hk. rewrite <- insert_delete_eq. apply map_sum_insert, lookup_delete_eq.
Qed.
End map_sum.

Lemma map_sum_insert_Z `{Countable K} {V} (w : K → V → Z) (m : gmap K V) k v : m !! k = None →
  map_sum Z.add 0 w (<[k:=v]> m) = w k v + map_sum Z.add 0 w m.
Proof. apply (map_sum_insert eq Z.add 0 Z.add_comm Z.add_assoc). Qed.

(** ** Proof automation *)

(** Unfold the monads and split every branch of the running operation. *)
Ltac munfold :=
  unfold mbind, mret, M_bind, M_ret, result_bind, result_ret, mget, mput, mraise, mlift,
    mguard, raise_if, of_option in *; simpl in *.
Ltac msolve_step :=
  match goal with
  | H : (_, _) = (_, _) |- _ => injection H as ? ?; subst
  | H : Ok _ = Ok _ |- _ => injection H as ?; subst
  | H : Err _ = Err _ |- _ => injection H as ?; subst
  | H : Ok _ = Err _ |- _ => discriminate H
  | H : Err _ = Ok _ |- _ => discriminate H
  | H : Some _ = Some _ |- _ => injection H as ?; subst
  | H : Some _ = None |- _ => discriminate H
  | H : None = Some _ |- _ => discriminate H
  end.
Ltac mcases := munfold; repeat (case_match || msolve_step); simplify_eq/=.

(** Split on the next guard [if b: raise e] of the goal. *)
Tactic Notation "guard_case" "as" ident(E) :=
  match goal with
  | |- context [if ?b then Err _ else Ok tt] => destruct b eqn:E; simpl
  end.

(** All the guards of the goal; a guard that raises must close its case. *)
Ltac guards :=
  repeat match goal with
  | |- context [if ?b then Err _ else Ok tt] => let E := fresh "Eg" in destruct b eqn:E; cbv beta iota; [done|]
  end.

(** Split on a boolean test of the goal. *)
Tactic Notation "if_case" "as" ident(E) :=
  match goal with
  | |- context [if ?b then _ else _] =>
      lazymatch type of b with bool => destruct b eqn:E; simpl end
  end.

(** Boolean tests of the source turned into propositions. *)
Ltac bprop :=
  repeat match goal with
  | H : context [bool_decide _ = true] |- _ => rewrite bool_decide_eq_true in H
  | H : context [bool_decide _ = false] |- _ => rewrite bool_decide_eq_false in H
  | H : (_ && _) = true |- _ => apply andb_true_iff in H as [? ?]
  | H : (_ || _) = false |- _ => apply orb_false_iff in H as [? ?]
  | H : (_ || _) = true |- _ => apply orb_true_iff in H
  | H : (_ && _) = false |- _ => apply andb_false_iff in H
  | H : negb _ = true |- _ => apply negb_true_iff in H
  | H : negb _ = false |- _ => apply negb_false_iff in H
  | H : (_ <=? _) = true |- _ => apply Z.leb_le in H
  | H : (_ <=? _) = false |- _ => apply Z.leb_gt in H
  | H : (_ <? _) = true |- _ => apply Z.ltb_lt in H
  | H : (_ <? _) = false |- _ => apply Z.ltb_ge in H
  | H : (_ =? _) = true |- _ => apply Z.eqb_eq in H
  | H : (_ =? _) = false |- _ => apply Z.eqb_neq in H
  end.
