(* ===== verification/PyDecimal.v ===== *)
(** * Python's [decimal.Decimal]

    Every money, power, energy, price and duration of the program is a
    [decimal.Decimal].  This file models the finite decimals and the arithmetic the
    source uses: [+], [-], [*], [/] under a context of [prec] significant digits
    with ROUND_HALF_EVEN (the default context has [prec = 28]), the exact numeric
    comparisons, [abs], [min]/[max], [quantize], [to_integral_value] and [int()].
    A decimal is [coef * 10 ^ dexp]; the numeric value of every result is the one
    CPython computes.  Not modelled: NaN and infinities, the sign of zero and the
    exponent limits of the context (999999).

    Definitions first, then the theory through the value [dval : dec -> Q]:
    rounding is exact on representable values, monotone, sign preserving and
    within half a unit of the last place. *)
From S2P Require Import Prelude.
From Stdlib Require Import QArith Qpower Qabs Lqa.

Local Open Scope Z_scope.

Record dec := Dec { coef : Z; dexp : Z }.

#[global] Instance dec_eq_dec : EqDecision dec.
Proof. solve_decision. Defined.

(** ** Digits and rounding *)

Fixpoint ndigits_aux (fuel : nat) (z : Z) : Z :=
  match fuel with
  | O => 1
  | S f => if z <? 10 then 1 else 1 + ndigits_aux f (z / 10)
  end.

(** [len(str(abs(z)))]; [log2] is enough fuel. *)
Definition ndigits (z : Z) : Z := ndigits_aux (Z.to_nat (Z.log2 (Z.abs z))) (Z.abs z).

(** Round [m / q] ([q > 0]) to an integer, ties to even. *)
Definition half_even (m q : Z) : Z :=
  let d := m / q in
  match Z.compare (2 * (m mod q)) q with
  | Lt => d
  | Gt => d + 1
  | Eq => if Z.even d then d else d + 1
  end.

(** [_fix]: round the coefficient to [prec] digits. *)
Definition dfix (prec : Z) (d : dec) : dec :=
  let n := ndigits (coef d) in
  if n <=? prec then d
  else
    let k := n - prec in
    let c := half_even (coef d) (10 ^ k) in
    if ndigits c <=? prec then Dec c (dexp d + k) else Dec (c / 10) (dexp d + k + 1).

(** ** Arithmetic under a context of [prec] digits *)

Definition align (d : dec) (e : Z) : Z := coef d * 10 ^ (dexp d - e).

Definition dadd_ctx (prec : Z) (a b : dec) : dec :=
  let e := Z.min (dexp a) (dexp b) in dfix prec (Dec (align a e + align b e) e).

Definition dopp (a : dec) : dec := Dec (- coef a) (dexp a).
Definition dsub_ctx (prec : Z) (a b : dec) : dec := dadd_ctx prec a (dopp b).

Definition dmul_ctx (prec : Z) (a b : dec) : dec :=
  dfix prec (Dec (coef a * coef b) (dexp a + dexp b)).

(** Division: the integer quotient carries at least [prec + 1] digits, a sticky
    digit records a non-zero remainder, an exact quotient loses trailing zeros
    down to the ideal exponent, and [_fix] rounds once. *)
Fixpoint strip_zeros (fuel : nat) (ideal : Z) (d : dec) : dec :=
  match fuel with
  | O => d
  | S fuel' => if (dexp d <? ideal) && (coef d mod 10 =? 0) then strip_zeros fuel' ideal (Dec (coef d / 10) (dexp d + 1)) else d
  end.

Definition ddiv_ctx (prec : Z) (a b : dec) : result dec :=
  if coef b =? 0 then
    Err (if coef a =? 0 then InvalidOperation else ZeroDivisionError "division by zero")
  else if coef a =? 0 then Ok (Dec 0 (dexp a - dexp b))
  else
    let shift := ndigits (coef b) - ndigits (coef a) + prec + 1 in
    let num := if 0 <=? shift then Z.abs (coef a) * 10 ^ shift else Z.abs (coef a) in
    let den := if 0 <=? shift then Z.abs (coef b) else Z.abs (coef b) * 10 ^ (- shift) in
    let q := num / den in
    let q' := if num mod den =? 0 then q else if q mod 5 =? 0 then q + 1 else q in
    let d := Dec (Z.sgn (coef a) * Z.sgn (coef b) * q') (dexp a - dexp b - shift) in
    Ok (dfix prec (if num mod den =? 0 then strip_zeros (Z.to_nat shift) (dexp a - dexp b) d else d)).

(** The default context. *)
Definition dadd := dadd_ctx 28.
Definition dsub := dsub_ctx 28.
Definition dmul := dmul_ctx 28.
Definition ddiv := ddiv_ctx 28.

(** The addition of SQL's unconstrained [numeric] type: exact. *)
Definition nadd (a b : dec) : dec :=
  let e := Z.min (dexp a) (dexp b) in Dec (align a e + align b e) e.
Definition nsub (a b : dec) : dec := nadd a (dopp b).

Definition dsum (l : list dec) : dec := foldl dadd (Dec 0 0) l.

(** [Decimal(n)] for an integer: exact *)
Definition dint (n : Z) : dec := Dec n 0.

(** ** Comparisons: exact, whatever the context *)

Definition dcompare (a b : dec) : comparison :=
  let e := Z.min (dexp a) (dexp b) in Z.compare (align a e) (align b e).
Definition dleb (a b : dec) : bool := match dcompare a b with Gt => false | _ => true end.
Definition dltb (a b : dec) : bool := match dcompare a b with Lt => true | _ => false end.
Definition deqb (a b : dec) : bool := match dcompare a b with Eq => true | _ => false end.

Declare Scope dec_scope.
Delimit Scope dec_scope with dec.
Bind Scope dec_scope with dec.
Infix "+" := dadd : dec_scope.
Infix "-" := dsub : dec_scope.
Infix "*" := dmul : dec_scope.
Infix "<=?" := dleb : dec_scope.
Infix "<?" := dltb : dec_scope.
Infix "=?" := deqb : dec_scope.

(** [min(a, b)] and [max(a, b)] return the first argument on equal values. *)
Definition dmin (a b : dec) : dec := if (b <? a)%dec then b else a.
Definition dmax (a b : dec) : dec := if (a <? b)%dec then b else a.

(** [abs(a)]: rounds in the context. *)
Definition dabs (a : dec) : dec := dfix 28 (Dec (Z.abs (coef a)) (dexp a)).

(** Truth value of a decimal. *)
Definition dbool (a : dec) : bool := negb (coef a =? 0).

(** ** [quantize], [to_integral_value] and [int()] *)

(** Rescale to exponent [e], rounding half to even. *)
Definition rescale_half_even (a : dec) (e : Z) : Z :=
  if e <=? dexp a then align a e else half_even (coef a) (10 ^ (e - dexp a)).

(** [a.quantize(Decimal(1).scaleb(e), rounding=ROUND_HALF_EVEN)] *)
Definition dquantize (a : dec) (e : Z) : result dec :=
  let c := rescale_half_even a e in
  if 28 <? ndigits c then Err InvalidOperation else Ok (Dec c e).

(** [int(a.to_integral_value(rounding=ROUND_CEILING))] *)
Definition dceil (a : dec) : Z :=
  if 0 <=? dexp a then align a 0 else - ((- coef a) / 10 ^ (- dexp a)).

(** [int(a)]: truncation toward zero *)
Definition dtrunc (a : dec) : Z :=
  if 0 <=? dexp a then align a 0 else Z.quot (coef a) (10 ^ (- dexp a)).

(** ** Digits *)

Lemma pow10_pos k : 0 <= k → 0 < 10 ^ k.
Proof. intros. by apply Z.pow_pos_nonneg. Qed.

Lemma pow10_succ k : 0 <= k → 10 ^ (1 + k) = 10 * 10 ^ k.
Proof. intros. by rewrite Z.pow_add_r by lia. Qed.

Lemma ndigits_aux_spec fuel z :
  0 < z → z < 2 ^ (Z.of_nat fuel + 1) →
  1 <= ndigits_aux fuel z ∧ 10 ^ (ndigits_aux fuel z - 1) <= z < 10 ^ ndigits_aux fuel z.
Proof.
  revert z. induction fuel as [|f IH]; intros z Hz Hlt; cbn [ndigits_aux].
  - replace (Z.of_nat 0 + 1) with 1 in Hlt by lia. simpl in *. lia.
  - destruct (Z.ltb_spec z 10); [simpl; lia|].
    assert (0 < z / 10) by (apply Z.div_str_pos; lia).
    assert (z / 10 < 2 ^ (Z.of_nat f + 1)) as Hf.
    { apply Z.div_lt_upper_bound; [lia|]. rewrite Nat2Z.inj_succ in Hlt.
      replace (Z.succ (Z.of_nat f) + 1) with (1 + (Z.of_nat f + 1)) in Hlt by lia.
      rewrite (Z.pow_add_r 2 1) in Hlt by lia. lia. }
    destruct (IH (z / 10)) as (Hn & Hlo & Hhi); [done..|].
    set (n := ndigits_aux f (z / 10)) in *.
    pose proof (Z.div_mod z 10 ltac:(lia)). pose proof (Z.mod_pos_bound z 10 ltac:(lia)).
    replace (1 + n - 1) with (1 + (n - 1)) by lia.
    rewrite !pow10_succ by lia. lia.
Qed.

Lemma ndigits_pos z : 1 <= ndigits z.
Proof.
  unfold ndigits. destruct (Z.eq_dec z 0) as [->|Hz]; [done|].
  apply ndigits_aux_spec; [lia|]. rewrite Z2Nat.id by apply Z.log2_nonneg.
  apply Z.log2_spec. lia.
Qed.

Lemma ndigits_spec z : z ≠ 0 → 10 ^ (ndigits z - 1) <= Z.abs z < 10 ^ ndigits z.
Proof.
  intros Hz. unfold ndigits. apply ndigits_aux_spec; [lia|].
  rewrite Z2Nat.id by apply Z.log2_nonneg. apply Z.log2_spec. lia.
Qed.

Lemma ndigits_le z n : 1 <= n → ndigits z <= n ↔ Z.abs z < 10 ^ n.
Proof.
  intros Hn. destruct (Z.eq_dec z 0) as [->|Hz].
  { change (ndigits 0) with 1. pose proof (pow10_pos n). simpl. lia. }
  pose proof (ndigits_spec z Hz) as [Hlo Hhi]. pose proof (ndigits_pos z). split; intros H'.
  - eapply Z.lt_le_trans; [exact Hhi|]. apply Z.pow_le_mono_r; lia.
  - apply Z.nlt_ge. intros Hlt.
    assert (10 ^ n <= 10 ^ (ndigits z - 1)) by (apply Z.pow_le_mono_r; lia). lia.
Qed.

Lemma ndigits_opp z : ndigits (- z) = ndigits z.
Proof. unfold ndigits. by rewrite Z.abs_opp. Qed.

(** ** Rounding half to even *)

Lemma half_even_spec m q :
  0 < q → 2 * Z.abs (m - q * half_even m q) <= q ∧
          (2 * Z.abs (m - q * half_even m q) = q → Z.even (half_even m q) = true).
Proof.
  intros Hq. unfold half_even.
  pose proof (Z.div_mod m q ltac:(lia)) as Hdm. pose proof (Z.mod_pos_bound m q Hq).
  set (d := m / q) in *. set (r := m mod q) in *.
  destruct (Z.compare_spec (2 * r) q) as [Heq|Hlt|Hgt].
  - destruct (Z.even d) eqn:Ed; (split; [lia|]); intros _; [done|].
    rewrite Z.even_add, Ed. done.
  - split; lia.
  - split; lia.
Qed.

(** Rounding is monotone, across different denominators. *)
Lemma half_even_mono m1 q1 m2 q2 :
  0 < q1 → 0 < q2 → m1 * q2 <= m2 * q1 → half_even m1 q1 <= half_even m2 q2.
Proof.
  intros Hq1 Hq2 Hle.
  destruct (half_even_spec m1 q1 Hq1) as [Ha1 Hb1].
  destruct (half_even_spec m2 q2 Hq2) as [Ha2 Hb2].
  set (h1 := half_even m1 q1) in *. set (h2 := half_even m2 q2) in *.
  apply Z.nlt_ge. intros Hlt.
  assert (2 * m1 * q2 >= (2 * h1 - 1) * q1 * q2) by nia.
  assert (2 * m2 * q1 <= (2 * h2 + 1) * q1 * q2) by nia.
  assert (0 < q1 * q2) by nia.
  assert (h1 = h2 + 1) as Hh by nia.
  assert (2 * (q1 * h1 - m1) = q1) by nia.
  assert (2 * (m2 - q2 * h2) = q2) by nia.
  assert (Z.even h1 = true) as E by (apply Hb1; lia).
  rewrite Hh, Z.even_add, Hb2 in E by lia. discriminate E.
Qed.

Lemma half_even_exact n q : 0 < q → half_even (n * q) q = n.
Proof.
  intros Hq. unfold half_even. rewrite Z.div_mul, Z.mod_mul, Z.mul_0_r by lia.
  destruct (Z.compare_spec 0 q); [lia|done|lia].
Qed.

Lemma half_even_opp m q : 0 < q → half_even (- m) q = - half_even m q.
Proof.
  intros Hq.
  destruct (half_even_spec m q Hq) as [Ha Hb].
  destruct (half_even_spec (- m) q Hq) as [Ha' Hb'].
  set (h := half_even m q) in *. set (h' := half_even (- m) q) in *.
  assert (h' + h = 0 ∨ h' + h = 1 ∨ h' + h = -1) as [?|[Hs|Hs]] by nia; [lia|exfalso..].
  - assert (Z.even h = true) as E1 by (apply Hb; nia).
    assert (Z.even h' = true) as E2 by (apply Hb'; nia).
    assert (Z.even (h' + h) = true) as E by (rewrite Z.even_add, E1, E2; done).
    rewrite Hs in E. done.
  - assert (Z.even h = true) as E1 by (apply Hb; nia).
    assert (Z.even h' = true) as E2 by (apply Hb'; nia).
    assert (Z.even (h' + h) = true) as E by (rewrite Z.even_add, E1, E2; done).
    rewrite Hs in E. done.
Qed.

(** ** Values *)

Definition p10 (e : Z) : Q := Qpower 10 e.
Definition dval (d : dec) : Q := inject_Z (coef d) * p10 (dexp d).

#[global] Instance Qle_transitive : Transitive Qle.
Proof. exact Qle_trans. Qed.

Create HintDb decdb.

Section p10.
Local Open Scope Q_scope.

Lemma p10_pos e : 0 < p10 e.
Proof. apply Qpower_0_lt. done. Qed.

Lemma p10_add a b : p10 (a + b) == p10 a * p10 b.
Proof. apply Qpower_plus. done. Qed.

Lemma p10_Z k : (0 <= k)%Z → p10 k == inject_Z (10 ^ k).
Proof. intros Hk. unfold p10. by rewrite Zpower_Qpower. Qed.

Lemma p10_split k e : (e <= k)%Z → p10 k == inject_Z (10 ^ (k - e)) * p10 e.
Proof. intros H. rewrite <- p10_Z, <- p10_add by lia. by replace (k - e + e)%Z with k by lia. Qed.

Lemma p10_le a b : (a <= b)%Z → p10 a <= p10 b.
Proof.
  intros H. rewrite (p10_split b a) by done.
  pose proof (p10_pos a). assert (1 <= inject_Z (10 ^ (b - a))).
  { change 1 with (inject_Z 1). rewrite <- Zle_Qle. pose proof (pow10_pos (b - a)). lia. }
  nra.
Qed.

Lemma p10_lt_inv a b : p10 a < p10 b → (a < b)%Z.
Proof. intros H. apply Z.nle_gt. intros Hle. pose proof (p10_le _ _ Hle). lra. Qed.

Lemma dval_align d e : (e <= dexp d)%Z → dval d == inject_Z (align d e) * p10 e.
Proof.
  intros H. unfold dval, align. rewrite (p10_split (dexp d) e) by done.
  rewrite inject_Z_mult. ring.
Qed.

Lemma inject_scale_le m n e : inject_Z m * p10 e <= inject_Z n * p10 e ↔ (m <= n)%Z.
Proof. rewrite Qmult_le_r by apply p10_pos. by rewrite <- Zle_Qle. Qed.

Lemma inject_scale_lt m n e : inject_Z m * p10 e < inject_Z n * p10 e ↔ (m < n)%Z.
Proof. rewrite Qmult_lt_r by apply p10_pos. by rewrite <- Zlt_Qlt. Qed.

Lemma dcompare_spec a b : dcompare a b = (dval a ?= dval b).
Proof.
  unfold dcompare. set (e := Z.min (dexp a) (dexp b)).
  rewrite (dval_align a e), (dval_align b e) by lia.
  destruct (Z.compare_spec (align a e) (align b e)) as [Heq|Hlt|Hgt]; symmetry.
  - rewrite Heq. by apply Qeq_alt.
  - apply Qlt_alt. by apply inject_scale_lt.
  - apply Qgt_alt. by apply inject_scale_lt.
Qed.

Lemma dleb_true a b : (a <=? b)%dec = true ↔ dval a <= dval b.
Proof. unfold dleb. rewrite dcompare_spec, Qle_alt. destruct (dval a ?= dval b); naive_solver. Qed.
Lemma dleb_false a b : (a <=? b)%dec = false ↔ dval b < dval a.
Proof. unfold dleb. rewrite dcompare_spec, Qgt_alt. destruct (dval a ?= dval b); naive_solver. Qed.
Lemma dltb_true a b : (a <? b)%dec = true ↔ dval a < dval b.
Proof. unfold dltb. rewrite dcompare_spec, Qlt_alt. destruct (dval a ?= dval b); naive_solver. Qed.
Lemma dltb_false a b : (a <? b)%dec = false ↔ dval b <= dval a.
Proof. unfold dltb. rewrite dcompare_spec, Qge_alt. destruct (dval a ?= dval b); naive_solver. Qed.
Lemma deqb_true a b : (a =? b)%dec = true ↔ dval a == dval b.
Proof. unfold deqb. rewrite dcompare_spec, Qeq_alt. destruct (dval a ?= dval b); naive_solver. Qed.
Lemma deqb_false a b : (a =? b)%dec = false ↔ ¬ dval a == dval b.
Proof. rewrite <- deqb_true. by destruct (a =? b)%dec. Qed.

Lemma dval_0 e : dval (Dec 0 e) == 0.
Proof. unfold dval. simpl. ring. Qed.

Lemma dval_dint n : dval (dint n) == inject_Z n.
Proof. unfold dval, p10. simpl. ring. Qed.

Lemma dval_opp a : dval (dopp a) == - dval a.
Proof. unfold dval, dopp. simpl. rewrite inject_Z_opp. ring. Qed.

Lemma dval_sign a : (0 <= dval a ↔ (0 <= coef a)%Z).
Proof.
  unfold dval. rewrite <- (inject_scale_le 0 (coef a) (dexp a)).
  change (inject_Z 0) with 0. rewrite Qmult_0_l. done.
Qed.

Lemma dval_zero_iff a : dval a == 0 ↔ coef a = 0%Z.
Proof.
  unfold dval. split.
  - intros [H|H]%Qmult_integral.
    + by apply (inject_Z_injective (coef a) 0).
    + pose proof (p10_pos (dexp a)). lra.
  - intros ->. ring.
Qed.
End p10.

#[global] Instance dcompare_order : CmpOrder dcompare.
Proof.
  split; intros; rewrite !dcompare_spec in *.
  - by rewrite Qcompare_antisym.
  - rewrite <- Qle_alt in *. by eapply Qle_trans.
Qed.

(** Numeric equality, the coarser equality Python's [==] decides. *)
#[global] Instance dec_equiv : Equiv dec := λ a b, Qeq (dval a) (dval b).
#[global] Instance dec_equivalence : Equivalence (≡@{dec}).
Proof.
  split; unfold equiv, dec_equiv.
  - intros a. apply Qeq_refl.
  - intros a b. apply Qeq_sym.
  - intros a b c. apply Qeq_trans.
Qed.
#[global] Instance dval_proper : Proper ((≡) ==> Qeq) dval.
Proof. by intros a b. Qed.
#[global] Instance dcompare_proper : Proper ((≡) ==> (≡) ==> (=)) dcompare.
Proof. intros a b Hab c d Hcd. rewrite !dcompare_spec. by rewrite Hab, Hcd. Qed.
#[global] Instance dleb_proper : Proper ((≡) ==> (≡) ==> (=)) dleb.
Proof. intros a b Hab c d Hcd. unfold dleb. by rewrite Hab, Hcd. Qed.
#[global] Instance dltb_proper : Proper ((≡) ==> (≡) ==> (=)) dltb.
Proof. intros a b Hab c d Hcd. unfold dltb. by rewrite Hab, Hcd. Qed.

(** ** Rescaling and [_fix] *)

Section rounding.
Local Open Scope Q_scope.

(** [rescale_half_even a u] rounds a fraction whose value is [dval a / 10^u]. *)
Lemma rescale_fraction a u :
  ∃ m q, (0 < q)%Z ∧ rescale_half_even a u = half_even m q ∧
         dval a * inject_Z q == inject_Z m * p10 u.
Proof.
  unfold rescale_half_even. destruct (Z.leb_spec u (dexp a)) as [Hle|Hgt].
  - exists (align a u), 1%Z. split_and!; [done| |].
    + rewrite <- (Z.mul_1_r (align a u)) at 2. by rewrite half_even_exact.
    + rewrite (dval_align a u) by done. change (inject_Z 1) with 1. ring.
  - exists (coef a), (10 ^ (u - dexp a))%Z. split_and!; [apply pow10_pos; lia|done|].
    unfold dval. rewrite (p10_split u (dexp a)) by lia. ring.
Qed.

Lemma rescale_mono a b u : dval a <= dval b → (rescale_half_even a u <= rescale_half_even b u)%Z.
Proof.
  destruct (rescale_fraction a u) as (m1 & q1 & Hq1 & -> & H1).
  destruct (rescale_fraction b u) as (m2 & q2 & Hq2 & -> & H2).
  intros Hle. apply half_even_mono; [done..|].
  apply (inject_scale_le _ _ u). rewrite !inject_Z_mult.
  assert (0 < inject_Z q1) by (change 0 with (inject_Z 0); by rewrite <- Zlt_Qlt).
  assert (0 < inject_Z q2) by (change 0 with (inject_Z 0); by rewrite <- Zlt_Qlt).
  assert (inject_Z m1 * inject_Z q2 * p10 u == dval a * inject_Z q1 * inject_Z q2) as ->
    by (rewrite H1; ring).
  assert (inject_Z m2 * inject_Z q1 * p10 u == dval b * inject_Z q1 * inject_Z q2) as ->
    by (transitivity (inject_Z q1 * (inject_Z m2 * p10 u)); [ring|rewrite <- H2; ring]).
  rewrite <- !Qmult_assoc. apply Qmult_le_compat_r; [done|]. nra.
Qed.

Lemma rescale_exact a u n : dval a == inject_Z n * p10 u → rescale_half_even a u = n.
Proof.
  intros H. destruct (rescale_fraction a u) as (m & q & Hq & -> & Hm).
  assert (m = n * q)%Z as ->; [|by apply half_even_exact].
  rewrite H in Hm. apply inject_Z_injective. symmetry.
  rewrite inject_Z_mult. pose proof (p10_pos u).
  apply (Qmult_inj_r _ _ (p10 u)); [lra|]. rewrite <- Hm. ring.
Qed.

Lemma rescale_opp a u : rescale_half_even (dopp a) u = (- rescale_half_even a u)%Z.
Proof.
  unfold rescale_half_even, align. simpl. destruct (u <=? dexp a)%Z eqn:E; [lia|].
  apply half_even_opp, pow10_pos. apply Z.leb_gt in E. lia.
Qed.

(** Rescaling moves a value by at most half a unit of the new last place. *)
Lemma rescale_error a u :
  2 * Qabs (dval a - inject_Z (rescale_half_even a u) * p10 u) <= p10 u.
Proof.
  destruct (rescale_fraction a u) as (m & q & Hq & -> & Hm).
  destruct (half_even_spec m q Hq) as [Hs _]. set (h := half_even m q) in *.
  assert (0 < inject_Z q) as Hq' by (change 0 with (inject_Z 0); by rewrite <- Zlt_Qlt).
  pose proof (p10_pos u) as Hp.
  assert (2 * Qabs ((dval a - inject_Z h * p10 u) * inject_Z q) <= p10 u * inject_Z q) as Hk.
  { assert ((dval a - inject_Z h * p10 u) * inject_Z q == inject_Z (m - q * h) * p10 u) as ->.
    { unfold Zminus. rewrite inject_Z_plus, inject_Z_opp, inject_Z_mult.
      transitivity (dval a * inject_Z q - inject_Z h * p10 u * inject_Z q); [ring|].
      rewrite Hm. ring. }
    rewrite Qabs_Qmult, (Qabs_pos (p10 u)) by lra.
    change (Qabs (inject_Z (m - q * h))) with (inject_Z (Z.abs (m - q * h))).
    rewrite Qmult_assoc. change 2 with (inject_Z 2). rewrite <- inject_Z_mult.
    rewrite (Qmult_comm (p10 u)). apply Qmult_le_compat_r; [by rewrite <- Zle_Qle|lra]. }
  rewrite Qabs_Qmult, (Qabs_pos (inject_Z q)) in Hk by lra.
  apply (Qmult_le_r _ _ (inject_Z q)); [done|]. lra.
Qed.

(** Adjusted exponent: [10^(adj-1) <= |value| < 10^adj] for a non-zero value. *)
Definition adj (d : dec) : Z := (ndigits (coef d) + dexp d)%Z.

Lemma adj_spec d : (0 < coef d)%Z → p10 (adj d - 1) <= dval d ∧ dval d < p10 (adj d).
Proof.
  intros Hc. destruct (ndigits_spec (coef d)) as [Hlo Hhi]; [lia|].
  pose proof (ndigits_pos (coef d)). rewrite Z.abs_eq in Hlo, Hhi by lia. unfold adj, dval.
  replace (ndigits (coef d) + dexp d - 1)%Z with (ndigits (coef d) - 1 + dexp d)%Z by lia.
  rewrite !p10_add, (p10_Z (ndigits (coef d) - 1)), (p10_Z (ndigits (coef d))) by lia. split; [by apply inject_scale_le|by apply inject_scale_lt].
Qed.

Lemma adj_opp d : adj (dopp d) = adj d.
Proof. unfold adj. simpl. by rewrite ndigits_opp. Qed.

(** Rounding away [n - prec] digits of an [n]-digit coefficient gives at most
    [10^prec]: one carry out of the leading digit. *)
Lemma round_carry prec c : (1 <= prec)%Z → (prec < ndigits c)%Z →
  (Z.abs (half_even c (10 ^ (ndigits c - prec))) <= 10 ^ prec)%Z.
Proof.
  intros Hp Hn. set (n := ndigits c). set (k := (n - prec)%Z).
  assert (∀ m, (Z.abs m < 10 ^ n)%Z → (half_even m (10 ^ k) <= 10 ^ prec)%Z) as Hm.
  { intros m Hm. rewrite <- (half_even_exact (10 ^ prec) (10 ^ k)) by (apply pow10_pos; lia).
    apply half_even_mono; [apply pow10_pos; lia..|].
    rewrite <- Z.pow_add_r by lia. replace (prec + k)%Z with n by lia.
    pose proof (pow10_pos k ltac:(lia)). nia. }
  pose proof (proj1 (ndigits_le c n (ndigits_pos _)) (Z.le_refl _)) as Hd.
  pose proof (Hm c Hd). pose proof (Hm (- c)%Z ltac:(lia)) as Ho.
  rewrite half_even_opp in Ho by (apply pow10_pos; lia). lia.
Qed.

(** [_fix] is rescaling to the [prec] leading digits. *)
Lemma dfix_rescale prec d :
  (1 <= prec)%Z →
  dval (dfix prec d) == inject_Z (rescale_half_even d (adj d - prec)) * p10 (adj d - prec).
Proof.
  intros Hp. unfold dfix. set (n := ndigits (coef d)).
  destruct (Z.leb_spec n prec) as [Hle|Hgt].
  { unfold rescale_half_even. unfold adj. fold n.
    destruct (Z.leb_spec (n + dexp d - prec) (dexp d)); [|lia]. by apply dval_align. }
  set (k := (n - prec)%Z). set (c := half_even (coef d) (10 ^ k)).
  assert (rescale_half_even d (adj d - prec) = c) as ->.
  { unfold rescale_half_even, adj. fold n. destruct (Z.leb_spec (n + dexp d - prec) (dexp d)); [lia|].
    unfold c. do 2 f_equal. lia. }
  replace (adj d - prec)%Z with (dexp d + k)%Z by (unfold adj, k; fold n; lia).
  destruct (ndigits c <=? prec)%Z eqn:E; [done|].
  (* a carry out of the leading digit: c = +-10^prec *)
  pose proof (round_carry prec (coef d) Hp Hgt) as Hc. fold n k c in Hc.
  apply Z.leb_gt in E.
  assert (¬ (Z.abs c < 10 ^ prec)%Z) by (rewrite <- ndigits_le by lia; lia).
  assert (c = 10 ^ prec ∨ c = - 10 ^ prec)%Z as Hc' by lia.
  assert (c = c / 10 * 10)%Z as Hdiv.
  { assert (10 ^ prec = 10 ^ (prec - 1) * 10)%Z as E10.
    { rewrite <- (Z.pow_1_r 10) at 3. rewrite <- Z.pow_add_r by lia. f_equal. lia. }
    destruct Hc' as [->| ->]; rewrite E10; [by rewrite Z.div_mul|].
    rewrite <- Z.mul_opp_l. by rewrite Z.div_mul. }
  unfold dval. simpl. rewrite Hdiv at 2. rewrite inject_Z_mult, (p10_add (dexp d + k) 1).
  change (p10 1) with (inject_Z 10). ring.
Qed.

Lemma dfix_opp prec a : (1 <= prec)%Z → dval (dfix prec (dopp a)) == - dval (dfix prec a).
Proof. intros. rewrite !dfix_rescale, adj_opp, rescale_opp, inject_Z_opp by done. ring. Qed.
End rounding.

Section fix_facts.
Local Open Scope Q_scope.
Context (prec : Z) (Hprec : (1 <= prec)%Z).

(** A decimal whose coefficient fits the context is not changed. *)
Lemma dfix_id d : (Z.abs (coef d) < 10 ^ prec)%Z → dfix prec d = d.
Proof.
  intros H. unfold dfix. apply ndigits_le in H; [|done]. by rewrite (proj2 (Z.leb_le _ _) H).
Qed.

Lemma dfix_nonneg d : 0 <= dval d → 0 <= dval (dfix prec d).
Proof.
  intros H. rewrite dfix_rescale by done. set (u := (adj d - prec)%Z).
  assert (0 <= rescale_half_even d u)%Z as Hr.
  { rewrite <- (rescale_exact (Dec 0 0) u 0) by (rewrite dval_0; simpl; ring).
    apply rescale_mono. by rewrite dval_0. }
  pose proof (p10_pos u). assert (0 <= inject_Z (rescale_half_even d u)).
  { change 0 with (inject_Z 0). by rewrite <- Zle_Qle. } nra.
Qed.

Lemma dfix_binade d : (0 < coef d)%Z →
  p10 (adj d - 1) <= dval (dfix prec d) ∧ dval (dfix prec d) <= p10 (adj d).
Proof.
  intros Hc. destruct (adj_spec d Hc) as [Hlo Hhi]. rewrite dfix_rescale by done.
  set (u := (adj d - prec)%Z).
  assert (∀ k, (0 <= k)%Z → p10 (u + k) == inject_Z (10 ^ k) * p10 u) as Hk.
  { intros k Hk. rewrite (p10_split (u + k) u) by lia. do 3 f_equiv. lia. }
  assert (∀ k, (0 <= k)%Z → rescale_half_even (Dec 1 (u + k)) u = 10 ^ k)%Z as Hr.
  { intros k Hk'. apply rescale_exact. rewrite <- Hk by done. unfold dval. simpl.
    change (inject_Z 1) with 1. ring. }
  assert (∀ k, dval (Dec 1 (u + k)) == p10 (u + k)) as Hd.
  { intros k. unfold dval. simpl. change (inject_Z 1) with 1. ring. }
  replace (adj d - 1)%Z with (u + (prec - 1))%Z in * by (unfold u; lia).
  replace (adj d) with (u + prec)%Z in Hhi |- * by (unfold u; lia).
  rewrite !Hk by lia. rewrite <- !Hr by lia.
  split; apply inject_scale_le, rescale_mono; rewrite Hd; lra.
Qed.

Lemma dfix_pos d : 0 < dval d → 0 < dval (dfix prec d).
Proof.
  intros H. assert (0 < coef d)%Z as Hc.
  { unfold dval in H. apply (inject_scale_lt 0 (coef d) (dexp d)).
    change (inject_Z 0) with 0. rewrite Qmult_0_l. done. }
  destruct (dfix_binade d Hc) as [Hlo _]. pose proof (p10_pos (adj d - 1)). lra.
Qed.

Lemma coef_pos d : 0 < dval d → (0 < coef d)%Z.
Proof.
  intros H. apply (inject_scale_lt 0 (coef d) (dexp d)).
  change (inject_Z 0) with 0. rewrite Qmult_0_l. done.
Qed.

Lemma dfix_mono_pos a b : 0 < dval a → dval a <= dval b → dval (dfix prec a) <= dval (dfix prec b).
Proof.
  intros Ha Hab. pose proof (coef_pos a Ha) as Hca.
  assert (0 < coef b)%Z as Hcb by (apply coef_pos; lra).
  destruct (adj_spec a Hca) as [Hla Hha]. destruct (adj_spec b Hcb) as [Hlb Hhb].
  assert (adj a - 1 < adj b)%Z as Hadj by (apply p10_lt_inv; lra).
  destruct (Z.eq_dec (adj a) (adj b)) as [E|E].
  - rewrite !dfix_rescale, E by done. by apply inject_scale_le, rescale_mono.
  - destruct (dfix_binade a Hca) as [_ H1]. destruct (dfix_binade b Hcb) as [H2 _].
    pose proof (p10_le (adj a) (adj b - 1) ltac:(lia)). lra.
Qed.

(** Rounding to the context is monotone. *)
Lemma dfix_mono a b : dval a <= dval b → dval (dfix prec a) <= dval (dfix prec b).
Proof.
  intros Hab. destruct (Qlt_le_dec 0 (dval a)) as [Ha|Ha]; [by apply dfix_mono_pos|].
  destruct (Qlt_le_dec (dval b) 0) as [Hb|Hb].
  - assert (dval (dfix prec (dopp b)) <= dval (dfix prec (dopp a))) as H.
    { apply dfix_mono_pos; rewrite !dval_opp; lra. }
    rewrite !dfix_opp in H by done. lra.
  - pose proof (dfix_nonneg b Hb) as H1.
    assert (0 <= dval (dfix prec (dopp a))) as H2 by (apply dfix_nonneg; rewrite dval_opp; lra).
    rewrite dfix_opp in H2 by done. lra.
Qed.

(** [x] has a decimal of at most [prec] digits. *)
Definition fits (x : Q) : Prop := ∃ d, (Z.abs (coef d) < 10 ^ prec)%Z ∧ dval d == x.

Lemma dfix_fits d : fits (dval d) → dval (dfix prec d) == dval d.
Proof.
  intros (r & Hr & Hd).
  pose proof (dfix_mono d r ltac:(lra)) as H1. pose proof (dfix_mono r d ltac:(lra)) as H2.
  rewrite (dfix_id r) in * by done. lra.
Qed.

Lemma dfix_le_fits d x : fits x → dval d <= x → dval (dfix prec d) <= x.
Proof.
  intros (r & Hr & Hd) H. rewrite <- Hd, <- (dfix_id r) by done. apply dfix_mono. lra.
Qed.

Lemma dfix_ge_fits d x : fits x → x <= dval d → x <= dval (dfix prec d).
Proof.
  intros (r & Hr & Hd) H. rewrite <- Hd, <- (dfix_id r) by done. apply dfix_mono. lra.
Qed.

Lemma fits_dec d : (Z.abs (coef d) < 10 ^ prec)%Z → fits (dval d).
Proof. intros. by exists d. Qed.

Lemma fits_proper x y : x == y → fits x → fits y.
Proof. intros Hxy (r & Hr & Hd). exists r. split; [done|]. by rewrite Hd. Qed.

Lemma fits_0 : fits 0.
Proof. exists (Dec 0 0). split; [by apply pow10_pos; lia|]. apply dval_0. Qed.

(** The result of [_fix] fits the context. *)
Lemma dfix_fits_res d : fits (dval (dfix prec d)).
Proof.
  unfold dfix. set (n := ndigits (coef d)).
  destruct (Z.leb_spec n prec) as [Hle|Hgt]; [by apply fits_dec, ndigits_le|].
  set (k := (n - prec)%Z). set (c := half_even (coef d) (10 ^ k)).
  destruct (Z.leb_spec (ndigits c) prec) as [Hle|Hgt']; [by apply fits_dec, ndigits_le|].
  apply fits_dec. simpl.
  pose proof (round_carry prec (coef d) Hprec Hgt) as Hc. fold n k c in Hc.
  pose proof (pow10_pos (prec - 1) ltac:(lia)).
  assert (10 ^ prec = 10 * 10 ^ (prec - 1))%Z as E.
  { rewrite <- pow10_succ by lia. f_equal. lia. }
  assert (c / 10 <= 10 ^ (prec - 1))%Z by (apply Z.div_le_upper_bound; lia).
  assert (- 10 ^ (prec - 1) <= c / 10)%Z by (apply Z.div_le_lower_bound; lia). lia.
Qed.

(** Relative error: at most half a unit in the last of [prec] digits. *)
Lemma dfix_error d : (0 < coef d)%Z →
  2 * Qabs (dval d - dval (dfix prec d)) <= p10 (1 - prec) * dval d.
Proof.
  intros Hc. rewrite dfix_rescale by done.
  pose proof (rescale_error d (adj d - prec)) as He.
  destruct (adj_spec d Hc) as [Hlo _].
  assert (p10 (adj d - prec) == p10 (1 - prec) * p10 (adj d - 1)) as E.
  { rewrite <- p10_add. f_equiv. lia. }
  pose proof (p10_pos (1 - prec)). nra.
Qed.
End fix_facts.

(** ** The context operations on values *)

Section op_facts.
Local Open Scope Q_scope.
Context (prec : Z) (Hprec : (1 <= prec)%Z).

Lemma dadd_spec a b :
  ∃ s, dadd_ctx prec a b = dfix prec s ∧ dval s == dval a + dval b.
Proof.
  eexists. split; [done|]. set (e := Z.min (dexp a) (dexp b)).
  rewrite (dval_align a e), (dval_align b e) by lia. unfold dval. simpl.
  rewrite inject_Z_plus. ring.
Qed.

Lemma dsub_spec a b :
  ∃ s, dsub_ctx prec a b = dfix prec s ∧ dval s == dval a - dval b.
Proof.
  destruct (dadd_spec a (dopp b)) as (s & ? & Hs). exists s. split; [done|].
  rewrite Hs, dval_opp. ring.
Qed.

Lemma dmul_spec a b :
  ∃ s, dmul_ctx prec a b = dfix prec s ∧ dval s == dval a * dval b.
Proof.
  eexists. split; [done|]. unfold dval. simpl. rewrite inject_Z_mult, p10_add. ring.
Qed.

Lemma dval_nadd a b : dval (nadd a b) == dval a + dval b.
Proof.
  unfold nadd. set (e := Z.min (dexp a) (dexp b)).
  rewrite (dval_align a e), (dval_align b e) by lia. unfold dval. simpl.
  rewrite inject_Z_plus. ring.
Qed.

Lemma dval_nsub a b : dval (nsub a b) == dval a - dval b.
Proof. unfold nsub. rewrite dval_nadd, dval_opp. ring. Qed.

Lemma dfix_proper a b : dval a == dval b → dval (dfix prec a) == dval (dfix prec b).
Proof.
  intros H. pose proof (dfix_mono prec Hprec a b ltac:(lra)).
  pose proof (dfix_mono prec Hprec b a ltac:(lra)). lra.
Qed.

Lemma dadd_mono a b a' b' : dval a <= dval a' → dval b <= dval b' →
  dval (dadd_ctx prec a b) <= dval (dadd_ctx prec a' b').
Proof.
  intros. destruct (dadd_spec a b) as (s & -> & Hs). destruct (dadd_spec a' b') as (t & -> & Ht).
  apply dfix_mono; [done|]. lra.
Qed.

Lemma dsub_mono a b a' b' : dval a <= dval a' → dval b' <= dval b →
  dval (dsub_ctx prec a b) <= dval (dsub_ctx prec a' b').
Proof.
  intros. destruct (dsub_spec a b) as (s & -> & Hs). destruct (dsub_spec a' b') as (t & -> & Ht).
  apply dfix_mono; [done|]. lra.
Qed.

Lemma dmul_mono a b a' b' : 0 <= dval a → 0 <= dval b → dval a <= dval a' → dval b <= dval b' →
  dval (dmul_ctx prec a b) <= dval (dmul_ctx prec a' b').
Proof.
  intros. destruct (dmul_spec a b) as (s & -> & Hs). destruct (dmul_spec a' b') as (t & -> & Ht).
  apply dfix_mono; [done|]. rewrite Hs, Ht. nra.
Qed.

Lemma dadd_nonneg a b : 0 <= dval a → 0 <= dval b → 0 <= dval (dadd_ctx prec a b).
Proof.
  intros. destruct (dadd_spec a b) as (s & -> & Hs). apply dfix_nonneg; [done|]. lra.
Qed.

Lemma dmul_nonneg a b : 0 <= dval a → 0 <= dval b → 0 <= dval (dmul_ctx prec a b).
Proof.
  intros. destruct (dmul_spec a b) as (s & -> & Hs). apply dfix_nonneg; [done|].
  rewrite Hs. nra.
Qed.

Lemma dadd_exact a b : fits prec (dval a + dval b) → dval (dadd_ctx prec a b) == dval a + dval b.
Proof.
  intros Hf. destruct (dadd_spec a b) as (s & -> & Hs). rewrite <- Hs.
  apply dfix_fits; [done|]. by eapply fits_proper.
Qed.

Lemma dsub_exact a b : fits prec (dval a - dval b) → dval (dsub_ctx prec a b) == dval a - dval b.
Proof.
  intros Hf. destruct (dsub_spec a b) as (s & -> & Hs). rewrite <- Hs.
  apply dfix_fits; [done|]. by eapply fits_proper.
Qed.

Lemma dmul_exact a b : fits prec (dval a * dval b) → dval (dmul_ctx prec a b) == dval a * dval b.
Proof.
  intros Hf. destruct (dmul_spec a b) as (s & -> & Hs). rewrite <- Hs.
  apply dfix_fits; [done|]. by eapply fits_proper.
Qed.

(** Adding a non-negative amount to a value of the context never decreases it. *)
Lemma dadd_increases a b : fits prec (dval a) → 0 <= dval b → dval a <= dval (dadd_ctx prec a b).
Proof.
  intros Hf Hb. destruct (dadd_spec a b) as (s & -> & Hs).
  apply dfix_ge_fits; [done..|]. lra.
Qed.

Lemma dsub_decreases a b : fits prec (dval a) → 0 <= dval b → dval (dsub_ctx prec a b) <= dval a.
Proof.
  intros Hf Hb. destruct (dsub_spec a b) as (s & -> & Hs).
  apply dfix_le_fits; [done..|]. lra.
Qed.

Lemma dsub_nonneg a b : dval b <= dval a → 0 <= dval (dsub_ctx prec a b).
Proof.
  intros H. destruct (dsub_spec a b) as (s & -> & Hs). apply dfix_nonneg; [done|]. lra.
Qed.

(** The integer quotient with its sticky digit lies between the floor and the
    ceiling of the exact quotient. *)
Lemma sticky_bounds num den (q' : Z) :
  (0 < den)%Z →
  q' = (if num mod den =? 0 then num / den
        else if (num / den) mod 5 =? 0 then num / den + 1 else num / den)%Z →
  ∀ n, (num <= n * den → q' <= n)%Z ∧ (n * den <= num → n <= q')%Z.
Proof.
  intros Hd Hq n. pose proof (Z.div_mod num den ltac:(lia)) as Hdm.
  pose proof (Z.mod_pos_bound num den Hd). set (q := (num / den)%Z) in *. set (r := (num mod den)%Z) in *.
  assert (r = 0 ∧ q' = q ∨ 0 < r ∧ q <= q' <= q + 1)%Z as Hc.
  { rewrite Hq. destruct (Z.eqb_spec r 0); [by left|right].
    destruct (q mod 5 =? 0)%Z; lia. }
  clear Hq. split; intros Hn; nia.
Qed.
End op_facts.

#[global] Instance dadd_proper : Proper ((≡) ==> (≡) ==> (≡)) dadd.
Proof.
  intros a b Hab c d Hcd. unfold dadd, equiv, dec_equiv in *.
  destruct (dadd_spec 28 a c) as (s & -> & Hs). destruct (dadd_spec 28 b d) as (t & -> & Ht).
  apply dfix_proper; [done|]. by rewrite Hs, Ht, Hab, Hcd.
Qed.
#[global] Instance dmul_proper : Proper ((≡) ==> (≡) ==> (≡)) dmul.
Proof.
  intros a b Hab c d Hcd. unfold dmul, equiv, dec_equiv in *.
  destruct (dmul_spec 28 a c) as (s & -> & Hs). destruct (dmul_spec 28 b d) as (t & -> & Ht).
  apply dfix_proper; [done|]. by rewrite Hs, Ht, Hab, Hcd.
Qed.

(** ** Division *)

Section div_facts.
Local Open Scope Q_scope.
Context (prec : Z) (Hprec : (1 <= prec)%Z).

Lemma strip_zeros_val fuel ideal d : dval (strip_zeros fuel ideal d) == dval d.
Proof.
  revert d. induction fuel as [|fuel IH]; intros d; simpl; [done|].
  destruct (_ && _) eqn:E; [|done]. apply andb_true_iff in E as [_ E%Z.eqb_eq].
  rewrite IH. unfold dval. simpl. rewrite p10_add, (p10_Z 1) by lia.
  rewrite (Z.div_mod (coef d) 10) at 2 by lia. rewrite E, Z.add_0_r, inject_Z_mult. change (10 ^ 1)%Z with 10%Z. ring.
Qed.

Lemma strip_if_val (c : bool) fuel ideal d : dval (if c then strip_zeros fuel ideal d else d) == dval d.
Proof. destruct c; [apply strip_zeros_val|done]. Qed.

Lemma ddiv_zero_num a b : coef a = 0%Z → coef b ≠ 0%Z →
  ddiv_ctx prec a b = Ok (Dec 0 (dexp a - dexp b)).
Proof.
  intros Ha Hb. unfold ddiv_ctx. apply Z.eqb_neq in Hb. by rewrite Hb, Ha.
Qed.

(** The rounded decimal a positive quotient comes from: an integer numerator and
    denominator with more than [prec] digits of quotient. *)
Lemma ddiv_pos_shape a b : (0 < coef a)%Z → (0 < coef b)%Z →
  ∃ num den q' e, (0 < den)%Z ∧ (∃ r, ddiv_ctx prec a b = Ok r ∧ dval r == dval (dfix prec (Dec q' e))) ∧
    dval a * inject_Z den == inject_Z num * p10 e * dval b ∧
    (10 ^ prec * den <= num)%Z ∧
    ∀ n, (num <= n * den → q' <= n)%Z ∧ (n * den <= num → n <= q')%Z.
Proof.
  intros Ha Hb. unfold ddiv_ctx.
  rewrite (proj2 (Z.eqb_neq (coef b) 0)), (proj2 (Z.eqb_neq (coef a) 0)) by lia.
  rewrite !Z.abs_eq, !Z.sgn_pos by lia.
  set (shift := (ndigits (coef b) - ndigits (coef a) + prec + 1)%Z).
  set (num := (if 0 <=? shift then coef a * 10 ^ shift else coef a)%Z).
  set (den := (if 0 <=? shift then coef b else coef b * 10 ^ (- shift))%Z).
  eexists num, den, _, (dexp a - dexp b - shift)%Z.
  assert (0 < den)%Z as Hden.
  { unfold den. destruct (Z.leb_spec 0 shift); [done|]. pose proof (pow10_pos (- shift)). nia. }
  split_and!; [done| | | |by apply sticky_bounds].
  { eexists. split; [done|]. apply dfix_proper; [done|]. by rewrite strip_if_val, !Z.mul_1_l. }
  - assert (p10 (dexp a) == p10 (dexp a - dexp b - shift) * p10 shift * p10 (dexp b)) as E.
    { rewrite <- !p10_add. f_equiv. lia. }
    unfold dval, num, den. destruct (Z.leb_spec 0 shift).
    + rewrite E, (p10_Z shift), inject_Z_mult by done. ring.
    + rewrite inject_Z_mult, <- (p10_Z (- shift)), E by lia.
      assert (p10 (- shift) * p10 shift == 1) as E1.
      { rewrite <- p10_add. by replace (- shift + shift)%Z with 0%Z by lia. }
      transitivity (inject_Z (coef a) * p10 (dexp a - dexp b - shift) * inject_Z (coef b) *
        p10 (dexp b) * (p10 (- shift) * p10 shift)); [ring|]. rewrite E1. ring.
  - destruct (ndigits_spec (coef a)) as [Hla _]; [lia|].
    destruct (ndigits_spec (coef b)) as [_ Hhb]; [lia|].
    rewrite Z.abs_eq in Hla, Hhb by lia.
    pose proof (ndigits_pos (coef a)). pose proof (ndigits_pos (coef b)).
    unfold num, den. destruct (Z.leb_spec 0 shift).
    + assert (10 ^ prec * 10 ^ ndigits (coef b) = 10 ^ (ndigits (coef a) - 1) * 10 ^ shift)%Z as E.
      { rewrite <- !Z.pow_add_r by lia. f_equal. lia. }
      pose proof (pow10_pos prec ltac:(lia)). pose proof (pow10_pos shift ltac:(lia)). nia.
    + assert (10 ^ prec * (10 ^ ndigits (coef b) * 10 ^ (- shift)) = 10 ^ (ndigits (coef a) - 1))%Z as E.
      { rewrite <- !Z.pow_add_r by lia. f_equal. lia. }
      pose proof (pow10_pos prec ltac:(lia)). pose proof (pow10_pos (- shift) ltac:(lia)). nia.
Qed.

Lemma fits_unit r e : (Z.abs (coef r) < 10 ^ prec)%Z → p10 (prec + e) <= dval r → (e <= dexp r)%Z.
Proof.
  intros Hr Hv. apply Z.nlt_ge. intros Hlt.
  assert (dval r < p10 (prec + dexp r)) as Hc.
  { rewrite p10_add, p10_Z by lia. unfold dval. apply inject_scale_lt. lia. }
  pose proof (p10_le (prec + dexp r) (prec + e) ltac:(lia)). lra.
Qed.

(** A quotient is rounded correctly with respect to every bound of the context. *)
Lemma ddiv_le a b q x : (0 < coef b)%Z → 0 <= dval a → fits prec x → 
  ddiv_ctx prec a b = Ok q → dval a <= x * dval b → dval q <= x.
Proof.
  intros Hb Ha Hf Hq Hx. assert (0 < dval b) as Hvb.
  { unfold dval. pose proof (p10_pos (dexp b)).
    assert (0 < inject_Z (coef b)) by (change 0 with (inject_Z 0); by rewrite <- Zlt_Qlt). nra. }
  destruct (Z.eq_dec (coef a) 0) as [Hz|Hz].
  { rewrite ddiv_zero_num in Hq by lia. injection Hq as <-. rewrite dval_0.
    apply Qmult_le_r with (dval b); [done|]. rewrite Qmult_0_l. lra. }
  assert (0 < coef a)%Z as Hca by (apply dval_sign in Ha; lia).
  destruct (ddiv_pos_shape a b Hca Hb) as (num & den & q' & e & Hden & (r0 & Hq' & Hr0) & Hval & Hbig & Hst).
  rewrite Hq' in Hq. injection Hq as <-. rewrite Hr0.
  assert (0 < inject_Z den) as Hd by (change 0 with (inject_Z 0); by rewrite <- Zlt_Qlt).
  assert (inject_Z num * p10 e <= x * inject_Z den) as Hnx.
  { apply Qmult_le_r with (dval b); [done|]. rewrite <- Hval.
    transitivity (x * dval b * inject_Z den); [|lra]. apply Qmult_le_compat_r; lra. }
  destruct Hf as (r & Hr & Hrx).
  assert (p10 (prec + e) <= x) as Hxe.
  { apply Qmult_le_r with (inject_Z den); [done|]. transitivity (inject_Z num * p10 e); [|done].
    rewrite p10_add, p10_Z by lia.
    transitivity (inject_Z (10 ^ prec * den) * p10 e); [rewrite inject_Z_mult; lra|].
    by apply inject_scale_le. }
  assert (e <= dexp r)%Z as He by (apply fits_unit; [done|by rewrite Hrx]).
  apply dfix_le_fits; [done|by exists r|].
  rewrite <- Hrx, (dval_align r e) in Hnx |- * by done. unfold dval at 1. simpl.
  apply inject_scale_le, Hst. apply (inject_scale_le _ _ e). rewrite inject_Z_mult. lra.
Qed.

Lemma ddiv_ge a b q x : (0 < coef b)%Z → 0 <= dval a → fits prec x →
  ddiv_ctx prec a b = Ok q → x * dval b <= dval a → x <= dval q.
Proof.
  intros Hb Ha Hf Hq Hx. assert (0 < dval b) as Hvb.
  { unfold dval. pose proof (p10_pos (dexp b)).
    assert (0 < inject_Z (coef b)) by (change 0 with (inject_Z 0); by rewrite <- Zlt_Qlt). nra. }
  destruct (Z.eq_dec (coef a) 0) as [Hz|Hz].
  { rewrite ddiv_zero_num in Hq by lia. injection Hq as <-. rewrite dval_0.
    apply dval_zero_iff in Hz. apply Qmult_le_r with (dval b); [done|]. rewrite Qmult_0_l. lra. }
  assert (0 < coef a)%Z as Hca by (apply dval_sign in Ha; lia).
  destruct (ddiv_pos_shape a b Hca Hb) as (num & den & q' & e & Hden & (r0 & Hq' & Hr0) & Hval & Hbig & Hst).
  rewrite Hq' in Hq. injection Hq as <-. rewrite Hr0.
  assert (0 < inject_Z den) as Hd by (change 0 with (inject_Z 0); by rewrite <- Zlt_Qlt).
  assert (x * inject_Z den <= inject_Z num * p10 e) as Hnx.
  { apply Qmult_le_r with (dval b); [done|]. rewrite <- Hval.
    transitivity (x * dval b * inject_Z den); [lra|]. apply Qmult_le_compat_r; lra. }
  assert (10 ^ prec <= q')%Z as Hq10 by by apply Hst.
  destruct Hf as (r & Hr & Hrx). apply dfix_ge_fits; [done|by exists r|].
  unfold dval. simpl. destruct (Z.le_gt_cases e (dexp r)) as [He|He].
  - rewrite <- Hrx, (dval_align r e) in Hnx |- * by done.
    apply inject_scale_le, Hst. apply (inject_scale_le _ _ e). rewrite inject_Z_mult. lra.
  - rewrite <- Hrx. transitivity (inject_Z (10 ^ prec) * p10 e); [|by apply inject_scale_le].
    pose proof (p10_le (prec + dexp r) (prec + e) ltac:(lia)) as Hp.
    rewrite (p10_add prec e), (p10_Z prec) in Hp by lia.
    assert (dval r <= p10 (prec + dexp r)); [|lra].
    rewrite p10_add, p10_Z by lia. unfold dval. apply inject_scale_le. lia.
Qed.

Lemma ddiv_ok a b : coef b ≠ 0%Z → ∃ q, ddiv_ctx prec a b = Ok q.
Proof.
  intros Hb. unfold ddiv_ctx. rewrite (proj2 (Z.eqb_neq _ _) Hb).
  destruct (coef a =? 0)%Z; eauto.
Qed.
End div_facts.

(** Division commutes with negation, so an exactly representable quotient is
    returned whatever the signs. *)
Section div_exact.
Local Open Scope Q_scope.
Context (prec : Z) (Hprec : (1 <= prec)%Z).

Lemma ddiv_opp_l a b q : ddiv_ctx prec a b = Ok q →
  ∃ q', ddiv_ctx prec (dopp a) b = Ok q' ∧ dval q' == - dval q.
Proof.
  unfold ddiv_ctx, dopp. simpl. rewrite Z.abs_opp, ndigits_opp, Z.sgn_opp.
  destruct (coef b =? 0)%Z; [done|].
  assert ((- coef a =? 0) = (coef a =? 0))%Z as -> by (destruct (Z.eqb_spec (coef a) 0); lia).
  destruct (coef a =? 0)%Z; intros [= <-]; eexists; (split; [done|]).
  - rewrite !dval_0. ring.
  - rewrite <- dfix_opp by done. apply dfix_proper; [done|].
    rewrite dval_opp, !strip_if_val, <- dval_opp. unfold dopp. simpl. by rewrite !Z.mul_opp_l.
Qed.

Lemma ddiv_opp_r a b q : ddiv_ctx prec a b = Ok q →
  ∃ q', ddiv_ctx prec a (dopp b) = Ok q' ∧ dval q' == - dval q.
Proof.
  unfold ddiv_ctx, dopp. simpl. rewrite Z.abs_opp, ndigits_opp, Z.sgn_opp.
  assert ((- coef b =? 0) = (coef b =? 0))%Z as -> by (destruct (Z.eqb_spec (coef b) 0); lia).
  destruct (coef b =? 0)%Z; [done|].
  destruct (coef a =? 0)%Z; intros [= <-]; eexists; (split; [done|]).
  - rewrite !dval_0. ring.
  - rewrite <- dfix_opp by done. apply dfix_proper; [done|].
    rewrite dval_opp, !strip_if_val, <- dval_opp. unfold dopp. simpl. by rewrite Z.mul_opp_r, !Z.mul_opp_l.
Qed.

Lemma fits_opp x : fits prec x → fits prec (- x).
Proof.
  intros (r & Hr & Hx). exists (dopp r). split; [simpl; lia|]. by rewrite dval_opp, Hx.
Qed.

Lemma ddiv_exact_pos a b q x : (0 < coef b)%Z → 0 <= dval a → fits prec x →
  ddiv_ctx prec a b = Ok q → dval a == x * dval b → dval q == x.
Proof.
  intros ???? Hx. apply Qle_antisym.
  - eapply ddiv_le; eauto. lra.
  - eapply ddiv_ge; eauto. lra.
Qed.

Lemma ddiv_exact_r a b q x : (0 < coef b)%Z → fits prec x →
  ddiv_ctx prec a b = Ok q → dval a == x * dval b → dval q == x.
Proof.
  intros Hb Hf Hq Hx. destruct (Qlt_le_dec (dval a) 0) as [Ha|Ha].
  - destruct (ddiv_opp_l a b q Hq) as (q' & Hq' & Hv).
    assert (dval q' == - x) as E.
    { eapply ddiv_exact_pos; eauto using fits_opp; rewrite dval_opp; [lra|rewrite Hx; ring]. }
    lra.
  - by eapply ddiv_exact_pos.
Qed.

Lemma ddiv_exact a b q x : fits prec x →
  ddiv_ctx prec a b = Ok q → dval a == x * dval b → dval q == x.
Proof.
  intros Hf Hq Hx. destruct (Z.lt_trichotomy (coef b) 0) as [Hb|[Hb|Hb]].
  - destruct (ddiv_opp_r a b q Hq) as (q' & Hq' & Hv).
    assert (dval q' == - x) as E; [|lra].
    eapply ddiv_exact_r; [..|exact Hq'|]; [simpl; lia|by apply fits_opp|].
    rewrite dval_opp, Hx. ring.
  - unfold ddiv_ctx in Hq. rewrite Hb in Hq. done.
  - by eapply ddiv_exact_r.
Qed.
End div_exact.

(** ** [quantize] and integer conversion *)

Section quantize_facts.
Local Open Scope Q_scope.

Lemma dquantize_error a e q : dquantize a e = Ok q →
  dexp q = e ∧ 2 * Qabs (dval a - dval q) <= p10 e.
Proof.
  unfold dquantize. destruct (28 <? _)%Z; [done|]. intros [= <-].
  split; [done|]. apply rescale_error.
Qed.

Lemma dquantize_mono a b e p q : dquantize a e = Ok p → dquantize b e = Ok q →
  dval a <= dval b → dval p <= dval q.
Proof.
  unfold dquantize. do 2 (destruct (28 <? _)%Z; [done|]). intros [= <-] [= <-] H.
  apply inject_scale_le. by apply rescale_mono.
Qed.

(** [dceil] is the least integer above the value. *)
Lemma dceil_spec a n : (dceil a <= n)%Z ↔ dval a <= inject_Z n.
Proof.
  unfold dceil. destruct (Z.leb_spec 0 (dexp a)) as [H|H].
  - rewrite (dval_align a 0) by done. change (p10 0) with 1. rewrite Qmult_1_r. by rewrite <- Zle_Qle.
  - set (k := (10 ^ (- dexp a))%Z). assert (0 < k)%Z as Hk by (apply pow10_pos; lia).
    assert (dval a * inject_Z k == inject_Z (coef a)) as Hv.
    { unfold dval, k. rewrite <- p10_Z by lia. rewrite <- Qmult_assoc, <- p10_add.
      replace (dexp a + - dexp a)%Z with 0%Z by lia. change (p10 0) with 1. ring. }
    assert (0 < inject_Z k) as Hk' by (change 0 with (inject_Z 0); by rewrite <- Zlt_Qlt).
    rewrite <- (Qmult_le_r _ _ (inject_Z k)), Hv, <- inject_Z_mult, <- Zle_Qle by done.
    pose proof (Z.div_mod (- coef a) k ltac:(lia)). pose proof (Z.mod_pos_bound (- coef a) k Hk). nia.
Qed.
End quantize_facts.

Section sign_facts.
Local Open Scope Q_scope.

Lemma dadd_decreases a b : fits 28 (dval a) → dval b <= 0 → dval (dadd a b) <= dval a.
Proof.
  intros Hf Hb. destruct (dadd_spec 28 a b) as (s & Hs & Hv). unfold dadd. rewrite Hs.
  apply dfix_le_fits; [lia|done|]. lra.
Qed.

Lemma dsub_nonpos a b : dval a <= dval b → dval (dsub a b) <= 0.
Proof.
  intros H. destruct (dsub_spec 28 a b) as (s & Hs & Hv). unfold dsub. rewrite Hs.
  apply dfix_le_fits; [lia|by apply fits_0|]. lra.
Qed.

Lemma ddiv_nonneg a b q : (0 < coef b)%Z → 0 <= dval a → ddiv a b = Ok q → 0 <= dval q.
Proof.
  intros Hb Ha Hq. eapply (ddiv_ge 28 ltac:(lia) a b q 0 Hb Ha); [by apply fits_0|exact Hq|lra].
Qed.

Lemma ddiv_nonpos a b q : (0 < coef b)%Z → dval a <= 0 → ddiv a b = Ok q → dval q <= 0.
Proof.
  intros Hb Ha Hq. destruct (ddiv_opp_l 28 ltac:(lia) a b q Hq) as (q' & Hq' & Hv).
  assert (0 <= dval q') as H; [|lra]. eapply (ddiv_nonneg (dopp a) b q' Hb); [|exact Hq']. rewrite dval_opp. lra.
Qed.

Lemma dmul_zero_l a b : dval a == 0 → dval (dmul a b) == 0.
Proof.
  intros Ha. unfold dmul. rewrite dmul_exact; [rewrite Ha; ring|lia|].
  eapply fits_proper; [|by apply fits_0]. rewrite Ha. ring.
Qed.

Lemma dmin_val a b : dval (dmin a b) <= dval a ∧ dval (dmin a b) <= dval b ∧
  (dval (dmin a b) == dval a ∨ dval (dmin a b) == dval b).
Proof.
  unfold dmin. destruct (b <? a)%dec eqn:E; [apply dltb_true in E|apply dltb_false in E]; split_and!; lra.
Qed.

Lemma dmax_val a b : dval a <= dval (dmax a b) ∧ dval b <= dval (dmax a b) ∧
  (dval (dmax a b) == dval a ∨ dval (dmax a b) == dval b).
Proof.
  unfold dmax. destruct (a <? b)%dec eqn:E; [apply dltb_true in E|apply dltb_false in E]; split_and!; lra.
Qed.
End sign_facts.

(** ** Exact arithmetic on a grid

    [on_grid k N x]: [x] is a multiple of [10 ^ -k] of at most [N] units.  Sums and products of such
    values are exact in the default context as long as the bounds stay below 28 digits. *)
Definition on_grid (k N : Z) (x : Q) : Prop := ∃ n, (x == inject_Z n * p10 (- k))%Q ∧ Z.abs n <= N.

Section grid.
Local Open Scope Q_scope.

#[global] Instance on_grid_proper k N : Proper (Qeq ==> iff) (on_grid k N).
Proof. intros x y Hxy. unfold on_grid. by setoid_rewrite Hxy. Qed.

Lemma on_grid_weaken k N M x : (N <= M)%Z → on_grid k N x → on_grid k M x.
Proof. intros H (n & Hn & Hb). exists n. split; [done|lia]. Qed.

Lemma on_grid_fits k N x : (N < 10 ^ 28)%Z → on_grid k N x → fits 28 x.
Proof. intros HN (n & Hn & Hb). exists (Dec n (- k)). simpl. split; [lia|]. unfold dval. simpl. by rewrite Hn. Qed.

Lemma on_grid_add k N M x y : on_grid k N x → on_grid k M y → on_grid k (N + M) (x + y).
Proof. intros (n & Hn & ?) (m & Hm & ?). exists (n + m)%Z. rewrite Hn, Hm, inject_Z_plus. split; [ring|lia]. Qed.

Lemma on_grid_opp k N x : on_grid k N x → on_grid k N (- x).
Proof. intros (n & Hn & ?). exists (- n)%Z. rewrite Hn, inject_Z_opp. split; [ring|lia]. Qed.

Lemma on_grid_sub k N M x y : on_grid k N x → on_grid k M y → on_grid k (N + M) (x - y).
Proof. intros. apply on_grid_add; [done|]. by apply on_grid_opp. Qed.

Lemma on_grid_mul k l N M x y : on_grid k N x → on_grid l M y → on_grid (k + l) (N * M) (x * y).
Proof.
  intros (n & Hn & ?) (m & Hm & ?). exists (n * m)%Z. rewrite Hn, Hm, inject_Z_mult. split.
  - replace (- (k + l))%Z with (- k + - l)%Z by lia. rewrite p10_add. ring.
  - rewrite Z.abs_mul. nia.
Qed.

Lemma on_grid_0 k N : (0 <= N)%Z → on_grid k N 0.
Proof. intros. exists 0%Z. split; [change (inject_Z 0) with 0; ring|simpl; lia]. Qed.

(** The bound of a larger value of the grid holds for a smaller one. *)
Lemma on_grid_between k N M x y : on_grid k N x → on_grid k M y → 0 <= x → x <= y → on_grid k M x.
Proof.
  intros (n & Hn & Hbn) (m & Hm & Hbm) H0 Hxy. exists n. split; [done|]. rewrite Hn in H0, Hxy. rewrite Hm in Hxy.
  apply inject_scale_le in Hxy. assert (0 <= n)%Z; [|lia]. apply (inject_scale_le _ _ (- k)).
  change (inject_Z 0) with 0. lra.
Qed.

Lemma dadd_grid k N M a b : on_grid k N (dval a) → on_grid k M (dval b) → (N + M < 10 ^ 28)%Z →
  dval (dadd a b) == dval a + dval b.
Proof. intros. unfold dadd. apply dadd_exact; [lia|]. by eapply on_grid_fits, on_grid_add. Qed.

Lemma dsub_grid k N M a b : on_grid k N (dval a) → on_grid k M (dval b) → (N + M < 10 ^ 28)%Z →
  dval (dsub a b) == dval a - dval b.
Proof. intros. unfold dsub. apply dsub_exact; [lia|]. by eapply on_grid_fits, on_grid_sub. Qed.

Lemma dmul_grid k l N M a b : on_grid k N (dval a) → on_grid l M (dval b) → (N * M < 10 ^ 28)%Z →
  dval (dmul a b) == dval a * dval b.
Proof. intros. unfold dmul. apply dmul_exact; [lia|]. by eapply on_grid_fits, on_grid_mul. Qed.

(** [quantize] succeeds on values that are not too large. *)
Lemma dquantize_ok a e n : Qabs (dval a) <= inject_Z n * p10 e → (n < 10 ^ 28)%Z → ∃ q, dquantize a e = Ok q.
Proof.
  intros [Hl Hu]%Qabs_Qle_condition Hn. unfold dquantize.
  assert (rescale_half_even (Dec n e) e = n) as E1 by by apply rescale_exact.
  assert (rescale_half_even (Dec (- n) e) e = (- n)%Z) as E2 by by apply rescale_exact.
  pose proof (rescale_mono a (Dec n e) e Hu) as H1. rewrite E1 in H1.
  pose proof (rescale_mono (Dec (- n) e) a e) as H2. rewrite E2 in H2.
  assert (- n <= rescale_half_even a e)%Z as H3.
  { apply H2. etransitivity; [|exact Hl]. unfold dval. simpl. rewrite inject_Z_opp. lra. }
  assert (ndigits (rescale_half_even a e) <= 28)%Z as Hd by (apply ndigits_le; lia).
  rewrite (proj2 (Z.ltb_ge _ _)) by lia. eauto.
Qed.
End grid.

Lemma dsum_nonneg_from l : Forall (λ d, (0 <= dval d)%Q) l → ∀ a, (0 <= dval a)%Q → (0 <= dval (foldl dadd a l))%Q.
Proof. induction 1 as [|d l Hd Hl IH]; intros a Ha; simpl; [done|]. apply IH. apply dadd_nonneg; [lia|done|done]. Qed.

#[export] Hint Resolve dadd_nonneg dmul_nonneg dfix_nonneg dsub_nonneg : decdb.

(** Turn the decimal tests of the context into inequalities over [Q]. *)
Ltac dprop :=
  repeat match goal with
  | H : dleb _ _ = true |- _ => apply dleb_true in H
  | H : dleb _ _ = false |- _ => apply dleb_false in H
  | H : dltb _ _ = true |- _ => apply dltb_true in H
  | H : dltb _ _ = false |- _ => apply dltb_false in H
  | H : deqb _ _ = true |- _ => apply deqb_true in H
  | H : deqb _ _ = false |- _ => apply deqb_false in H
  | |- dleb _ _ = true => apply dleb_true
  | |- dleb _ _ = false => apply dleb_false
  | |- dltb _ _ = true => apply dltb_true
  | |- dltb _ _ = false => apply dltb_false
  | |- deqb _ _ = true => apply deqb_true
  | |- deqb _ _ = false => apply deqb_false
  end.
