(* ===== verification/PyFloat.v ===== *)
(** * Binary64 conversions

    The few places where the code turns a [Decimal] into a [float]: correctly rounded
    conversion (round half to even on a 53-bit significand) and
    [timedelta(hours=float)], which splits the float into its whole and fractional
    parts and rounds the microseconds half to even.  The exponent range of binary64
    (overflow, subnormals) and of [timedelta] is not modelled. *)
From S2P Require Import Prelude PyDecimal.
Local Open Scope Z_scope.

(** [bman * 2^bexp] *)
Record bin := Bin { bman : Z; bexp : Z }.

(** The double nearest to [n / d], for [n >= 0] and [d > 0]. *)
Definition f64_pos (n d : Z) : bin :=
  if n =? 0 then Bin 0 0
  else
    let e0 := Z.log2 n - Z.log2 d - 52 in
    let scaled e := (n * 2 ^ Z.max 0 (- e), d * 2 ^ Z.max 0 e) in
    let '(n0, d0) := scaled e0 in
    let e := if n0 <? 2 ^ 52 * d0 then e0 - 1 else e0 in
    let '(n1, d1) := scaled e in
    Bin (half_even n1 d1) e.

Definition f64_q (n d : Z) : bin :=
  if n <? 0 then let b := f64_pos (- n) d in Bin (- bman b) (bexp b) else f64_pos n d.

(** [float(Decimal)] *)
Definition f64_of_dec (a : dec) : bin :=
  f64_q (coef a * 10 ^ Z.max 0 (dexp a)) (10 ^ Z.max 0 (- dexp a)).

(** [modf]: whole part (toward zero) and the fraction as numerator over [2^k]. *)
Definition bin_den (b : bin) : Z := 2 ^ Z.max 0 (- bexp b).
Definition bin_num (b : bin) : Z := bman b * 2 ^ Z.max 0 (bexp b).
Definition bin_trunc (b : bin) : Z := Z.quot (bin_num b) (bin_den b).
Definition bin_frac_num (b : bin) : Z := Z.rem (bin_num b) (bin_den b).

(** [timedelta(hours=f)] in microseconds *)
Definition timedelta_hours (f : bin) : Z :=
  let us_per_hour := 3600000000 in
  let part := f64_q (us_per_hour * bin_frac_num f) (bin_den f) in
  us_per_hour * bin_trunc f + bin_trunc part
    + (let x := bin_frac_num part in
       if x <? 0 then - half_even (- x) (bin_den part) else half_even x (bin_den part)).

Example hours_quarter : timedelta_hours (f64_of_dec (Dec 125 (-2))) = 4500000000.
Proof. by vm_compute. Qed.
Example hours_tenth : timedelta_hours (f64_of_dec (Dec 1 (-1))) = 360000000.
Proof. by vm_compute. Qed.
Example hours_third : timedelta_hours (f64_of_dec (Dec 3333333333 (-10))) = 1200000000.
Proof. by vm_compute. Qed.

(** The double nearest to [n / d] is at most twice it. *)
Lemma f64_pos_bound n d : 0 <= n → 0 < d →
  0 <= bin_num (f64_pos n d) ∧ bin_num (f64_pos n d) * d <= 2 * n * bin_den (f64_pos n d).
Proof.
  intros Hn Hd. unfold f64_pos. destruct (Z.eqb_spec n 0) as [->|Hnz]; [unfold bin_num, bin_den; simpl; lia|].
  set (e0 := Z.log2 n - Z.log2 d - 52). cbv zeta.
  set (e := if n * 2 ^ Z.max 0 (- e0) <? 2 ^ 52 * (d * 2 ^ Z.max 0 e0) then e0 - 1 else e0).
  assert (e <= e0) as He by (unfold e; destruct (_ <? _); lia). clearbody e. unfold bin_num, bin_den. simpl.
  set (p := 2 ^ Z.max 0 e). set (q := 2 ^ Z.max 0 (- e)).
  assert (0 < p) as Hp by (apply Z.pow_pos_nonneg; lia). assert (0 < q) as Hq by (apply Z.pow_pos_nonneg; lia).
  assert (d * p <= n * q) as Hdn.
  { destruct (Z.log2_spec n ltac:(lia)) as [Hl _]. destruct (Z.log2_spec d Hd) as [_ Hu].
    assert (2 ^ (Z.log2 d + 1) * p <= 2 ^ Z.log2 n * q) as H; [|nia].
    unfold p, q. pose proof (Z.log2_nonneg n). pose proof (Z.log2_nonneg d). rewrite <- !Z.pow_add_r by lia.
    apply Z.pow_le_mono_r; lia. }
  destruct (half_even_spec (n * q) (d * p) ltac:(nia)) as [Hh _]. set (h := half_even (n * q) (d * p)) in *.
  assert (0 <= h) by nia. split; nia.
Qed.

Lemma bin_trunc_bound n d m : 0 <= n → 0 < d → 2 * n <= m * d → 0 <= bin_trunc (f64_q n d) <= m.
Proof.
  intros Hn Hd Hm. unfold f64_q. destruct (Z.ltb_spec n 0); [lia|]. destruct (f64_pos_bound n d Hn Hd) as [H0 H1]. unfold bin_trunc.
  assert (0 < bin_den (f64_pos n d)) as Hb by (apply Z.pow_pos_nonneg; lia). rewrite Z.quot_div_nonneg by lia.
  split; [apply Z.div_pos; lia|]. apply Z.div_le_upper_bound; [done|]. nia.
Qed.
