(* ===== verification/PyValue.v ===== *)
(** * Dynamic Python values

    The [Any] values the code receives from JSON documents (policy rules and facts,
    action parameters, event payloads): equality, ordering and membership as Python
    defines them on these types, [str]-then-[Decimal] conversion, and timezone-aware
    or naive datetimes.

    A float is carried by its exact binary value (a finite decimal) and by its
    [repr], the text [str] gives; NaN and infinite floats are not modelled. *)
From S2P Require Import Prelude PyDecimal.
Local Open Scope Z_scope.

Inductive pyval : Type :=
| VNone
| VBool (b : bool)
| VInt (z : Z)
| VDec (d : dec)
| VFloat (exact : dec) (repr : string)
| VStr (s : string)
| VList (l : list pyval)
| VDict (kvs : list (string * pyval)).

(** The numeric value of [bool], [int], [float] and [Decimal] objects, which all
    compare with one another by exact value. *)
Definition num_of (v : pyval) : option dec :=
  match v with
  | VBool b => Some (dint (if b then 1 else 0))
  | VInt z => Some (dint z)
  | VDec d => Some d
  | VFloat d _ => Some d
  | _ => None
  end.

(** [a == b] *)
Fixpoint py_eq (a b : pyval) {struct a} : bool :=
  let fix list_eq (l k : list pyval) {struct l} : bool :=
    match l, k with
    | [], [] => true
    | x :: l', y :: k' => py_eq x y && list_eq l' k'
    | _, _ => false
    end in
  let fix dict_sub (l : list (string * pyval)) (k : list (string * pyval)) {struct l} : bool :=
    match l with
    | [] => true
    | (n, x) :: l' =>
        match od_get n k with Some y => py_eq x y && dict_sub l' k | None => false end
    end in
  match num_of a, num_of b with
  | Some x, Some y => deqb x y
  | _, _ =>
    match a, b with
    | VNone, VNone => true
    | VStr s, VStr t => bool_decide (s = t)
    | VList l, VList k => list_eq l k
    | VDict l, VDict k => Nat.eqb (length l) (length k) && dict_sub l k
    | _, _ => false
    end
  end.

Lemma py_eq_str v s : py_eq v (VStr s) = true ↔ v = VStr s.
Proof.
  split; [|intros ->; simpl; by apply bool_decide_eq_true]. destruct v; simpl; try done. intros H%bool_decide_eq_true. by f_equal.
Qed.

(** Three-way order of [<], [<=], [>], [>=]: defined between numbers, between
    strings, and between lists by their first differing elements; [TypeError]
    otherwise. *)
Fixpoint py_compare (a b : pyval) {struct a} : result comparison :=
  let fix list_cmp (l k : list pyval) {struct l} : result comparison :=
    match l, k with
    | [], [] => Ok Eq
    | [], _ :: _ => Ok Lt
    | _ :: _, [] => Ok Gt
    | x :: l', y :: k' => if py_eq x y then list_cmp l' k' else py_compare x y
    end in
  match num_of a, num_of b with
  | Some x, Some y => Ok (dcompare x y)
  | _, _ =>
    match a, b with
    | VStr s, VStr t => Ok (String.compare s t)
    | VList l, VList k => list_cmp l k
    | _, _ => Err TypeError
    end
  end.

(** Substring test [s in t] *)
Fixpoint str_in (s t : string) : bool :=
  if String.prefix s t then true
  else match t with EmptyString => false | String _ t' => str_in s t' end.

(** [item in container] *)
Definition py_in (item container : pyval) : result bool :=
  match container with
  | VList l => Ok (existsb (λ x, py_eq x item) l)
  | VStr t => match item with VStr s => Ok (str_in s t) | _ => Err TypeError end
  | VDict kvs =>
      match item with
      | VStr k => Ok (existsb (λ kv, bool_decide (kv.1 = k)) kvs)
      | VList _ | VDict _ => Err TypeError
      | _ => Ok false
      end
  | _ => Err TypeError
  end.

(** Truth value *)
Definition py_bool (v : pyval) : bool :=
  match v with
  | VNone => false
  | VBool b => b
  | VInt z => negb (z =? 0)
  | VDec d | VFloat d _ => dbool d
  | VStr s => negb (bool_decide (s = ""))
  | VList l => negb (bool_decide (length l = 0%nat))
  | VDict l => negb (bool_decide (length l = 0%nat))
  end.

(** ** [Decimal(text)] *)

(** The result of converting text: a finite decimal or one of the special values. *)
Inductive pynum : Type :=
| Finite (d : dec)
| Infinite (neg : bool)
| NaN.

Definition chr (n : Z) : Ascii.ascii := Ascii.ascii_of_N (Z.to_N n).
Definition ord (c : Ascii.ascii) : Z := Z.of_N (Ascii.N_of_ascii c).
Definition is_digit (c : Ascii.ascii) : bool := (48 <=? ord c) && (ord c <=? 57).
Definition is_space (c : Ascii.ascii) : bool := (ord c =? 32) || ((9 <=? ord c) && (ord c <=? 13)).
Definition to_lower (c : Ascii.ascii) : Ascii.ascii :=
  if (65 <=? ord c) && (ord c <=? 90) then chr (ord c + 32) else c.

Fixpoint drop_while {A} (p : A → bool) (l : list A) : list A :=
  match l with [] => [] | x :: l' => if p x then drop_while p l' else l end.

(** [str.strip()] *)
Definition py_strip (s : string) : string :=
  String.string_of_list_ascii (rev (drop_while is_space (rev (drop_while is_space (String.list_ascii_of_string s))))).

Fixpoint take_digits (l : list Ascii.ascii) : list Ascii.ascii * list Ascii.ascii :=
  match l with
  | c :: l' => if is_digit c then let '(d, r) := take_digits l' in (c :: d, r) else ([], l)
  | [] => ([], [])
  end.

Definition digits_value (l : list Ascii.ascii) : Z := foldl (λ acc c, acc * 10 + (ord c - 48)) 0 l.

Definition take_sign (l : list Ascii.ascii) : bool * list Ascii.ascii :=
  match l with
  | c :: l' => if ord c =? 45 then (true, l') else if ord c =? 43 then (false, l') else (false, l)
  | [] => (false, [])
  end.

Definition parse_exponent (l : list Ascii.ascii) : option Z :=
  match l with
  | [] => Some 0
  | c :: l' =>
      if ord (to_lower c) =? 101 then
        let '(neg, l1) := take_sign l' in
        let '(ds, rest) := take_digits l1 in
        match ds, rest with
        | _ :: _, [] => Some (if neg then - digits_value ds else digits_value ds)
        | _, _ => None
        end
      else None
  end.

Definition parse_finite (neg : bool) (l : list Ascii.ascii) : option pynum :=
  let '(ip, l1) := take_digits l in
  let '(fp, l2) :=
    match l1 with c :: r => if ord c =? 46 then take_digits r else ([], l1) | [] => ([], []) end in
  if bool_decide (length (ip ++ fp) = 0%nat) then None
  else match parse_exponent l2 with
       | None => None
       | Some e =>
           let c := digits_value (ip ++ fp) in
           Some (Finite (Dec (if neg then - c else c) (e - Z.of_nat (length fp))))
       end.

(** [Decimal(s)]: surrounding whitespace and underscores are ignored; a syntax
    error is [decimal.InvalidOperation]. *)
Definition decimal_of_str (s : string) : result pynum :=
  let l := drop_while is_space (String.list_ascii_of_string s) in
  let l := rev (drop_while is_space (rev l)) in
  let l := base.filter (λ c, ord c ≠ 95) l in
  let '(neg, body) := take_sign l in
  let word := String.string_of_list_ascii (map to_lower body) in
  if bool_decide (word = "inf") || bool_decide (word = "infinity") then Ok (Infinite neg)
  else if String.prefix "nan" word || String.prefix "snan" word then
    (let '(_, rest) := take_digits (if String.prefix "nan" word then skipn 3 body else skipn 4 body) in
     match rest with [] => Ok NaN | _ => Err InvalidOperation end)
  else of_option InvalidOperation (parse_finite neg body).

(** [Decimal(str(v))] for the values of a parameter document.  The text of a
    container, [None] or a bool is never a numeral. *)
Definition decimal_of_val (v : pyval) : result pynum :=
  match v with
  | VInt z => Ok (Finite (dint z))
  | VDec d => Ok (Finite d)
  | VFloat _ r => decimal_of_str r
  | VStr s => decimal_of_str s
  | _ => Err InvalidOperation
  end.

(** Ordering comparisons with a NaN raise [decimal.InvalidOperation]. *)
Definition pynum_leb (a b : pynum) : result bool :=
  match a, b with
  | NaN, _ | _, NaN => Err InvalidOperation
  | Finite x, Finite y => Ok (dleb x y)
  | Infinite n, Infinite m => Ok (n || negb m)
  | Infinite n, Finite _ => Ok n
  | Finite _, Infinite m => Ok (negb m)
  end.
