(* ===== verification/PyText.v ===== *)
(** * Numbers as text, and documents

    [str] and [int] of the dynamic values, [str(Decimal)], and the access to the JSON documents the
    code stores and parses: [d[k]], iteration, and the round trip [json.loads(json.dumps(v,
    default=str))], which keeps JSON values and replaces a decimal by its text.  The text of a list
    or dict is a parameter ([str_container]).  Printed numbers parse back to themselves: integers
    through [int], decimals, exponent included, through [Decimal]. *)
From S2P Require Import Prelude PyDecimal PyValue.
Local Open Scope Z_scope.

(** ** Printing *)

Fixpoint digits_aux (fuel : nat) (z : Z) (acc : list Ascii.ascii) : list Ascii.ascii :=
  match fuel with
  | O => acc
  | S fuel' =>
      let acc' := chr (48 + z mod 10) :: acc in
      if z <? 10 then acc' else digits_aux fuel' (z / 10) acc'
  end.

(** the decimal digits of [z >= 0], most significant first *)
Definition digits (z : Z) : list Ascii.ascii := digits_aux (S (Z.to_nat (Z.log2 z))) z [].

Definition minus : Ascii.ascii := chr 45.
Definition signed (neg : bool) (l : list Ascii.ascii) : string :=
  String.string_of_list_ascii (if neg then minus :: l else l).

(** [str(z)] of an [int] *)
Definition int_str (z : Z) : string := signed (z <? 0) (digits (Z.abs z)).

(** [Decimal.__str__]: the place of the point among the [n] digits of a coefficient with exponent
    [e] (plain notation when the exponent is not positive and the leading digit is within six places
    of the point, one digit before the point otherwise), ... *)
Definition dotplace (n e : Z) : Z := if (e <=? 0) && (-6 <? e + n) then e + n else 1.

(** ... the digits with the point, ... *)
Definition mantissa (ds : list Ascii.ascii) (dot : Z) : list Ascii.ascii :=
  let n := Z.of_nat (length ds) in
  if dot <=? 0 then chr 48 :: chr 46 :: replicate (Z.to_nat (- dot)) (chr 48) ++ ds
  else if n <=? dot then ds ++ replicate (Z.to_nat (dot - n)) (chr 48)
  else take (Z.to_nat dot) ds ++ chr 46 :: drop (Z.to_nat dot) ds.

(** ... and the exponent that is left. *)
Definition exponent_chars (e : Z) : list Ascii.ascii :=
  if e =? 0 then [] else chr 69 :: (if e <? 0 then chr 45 else chr 43) :: digits (Z.abs e).

Definition dec_chars (d : dec) : list Ascii.ascii :=
  let ds := digits (Z.abs (coef d)) in
  let n := Z.of_nat (length ds) in
  let dot := dotplace n (dexp d) in
  mantissa ds dot ++ exponent_chars (dexp d + n - dot).

Definition dec_str (d : dec) : string := signed (coef d <? 0) (dec_chars d).

(** ** Parsing and converting *)

(** Digits with single underscores between them; the digits alone. *)
Fixpoint int_digits (l : list Ascii.ascii) : option (list Ascii.ascii) :=
  match l with
  | [] => None
  | c :: l' =>
      if is_digit c then
        match l' with
        | [] => Some [c]
        | u :: l'' => cons c <$> int_digits (if ord u =? 95 then l'' else l')
        end
      else None
  end.

(** [int(v)] *)
Definition py_int (v : pyval) : result Z :=
  match v with
  | VInt z => Ok z
  | VBool b => Ok (if b then 1 else 0)
  | VDec d | VFloat d _ => Ok (dtrunc d)
  | VStr s =>
      let l := drop_while is_space (String.list_ascii_of_string s) in
      let l := rev (drop_while is_space (rev l)) in
      let '(neg, l1) := take_sign l in
      match int_digits l1 with
      | Some ds => Ok (if neg then - digits_value ds else digits_value ds)
      | None => Err (ValueError "invalid literal for int()")
      end
  | _ => Err TypeError
  end.

(** [d[k]] *)
Definition item (k : string) (d : list (string * pyval)) : result pyval := of_option (KeyError k) (od_get k d).

(** [v[k]] for a text key *)
Definition py_item (k : string) (v : pyval) : result pyval :=
  match v with VDict d => item k d | _ => Err TypeError end.

(** [for x in v] *)
Definition py_iter (v : pyval) : result (list pyval) :=
  match v with
  | VList l => Ok l
  | VStr s => Ok (map (λ c, VStr (String.String c EmptyString)) (String.list_ascii_of_string s))
  | VDict kvs => Ok (map (λ kv, VStr kv.1) kvs)
  | _ => Err TypeError
  end.

(** [json.loads(json.dumps(v, default=str))] *)
Fixpoint json_safe_val (v : pyval) : pyval :=
  match v with
  | VDec d => VStr (dec_str d)
  | VList l => VList (map json_safe_val l)
  | VDict kvs => VDict (map (λ kv, (kv.1, json_safe_val kv.2)) kvs)
  | _ => v
  end.

Section str.
Context (str_container : pyval → string).

(** [str(v)] *)
Definition py_str (v : pyval) : string :=
  match v with
  | VStr s => s
  | VNone => "None"
  | VBool b => if b then "True" else "False"
  | VInt z => int_str z
  | VDec d => dec_str d
  | VFloat _ r => r
  | VList _ | VDict _ => str_container v
  end.

(** [Decimal(str(v))], which must be finite *)
Definition py_decimal (v : pyval) : result dec :=
  n ← decimal_of_str (py_str v);
  match n with Finite d => Ok d | _ => Err (OtherError "not a finite number") end.
End str.

Example int_str_sample : int_str (-120) = "-120".
Proof. reflexivity. Qed.
Example dec_str_samples :
  map dec_str [Dec 12345 (-3); Dec (-5) (-2); Dec 1 (-7); Dec 12 3; Dec 0 (-2); Dec 0 4; Dec 7 0; Dec 123 (-10)]
  = ["12.345"; "-0.05"; "1E-7"; "1.2E+4"; "0.00"; "0E+4"; "7"; "1.23E-8"].
Proof. vm_compute. reflexivity. Qed.

(** ** Digits *)

Lemma ord_chr n : 0 <= n < 256 → ord (chr n) = n.
Proof. intros H. unfold ord, chr. rewrite Ascii.N_ascii_embedding by lia. lia. Qed.

Abbreviation all_digits := (Forall (λ c, is_digit c = true)).

Lemma digits_value_app l k : digits_value (l ++ k) = digits_value l * 10 ^ Z.of_nat (length k) + digits_value k.
Proof.
  unfold digits_value. induction k as [|c k IH] using rev_ind; [rewrite app_nil_r; simpl; lia|].
  rewrite app_assoc, (foldl_app _ (l ++ k)), (foldl_app _ k). simpl. rewrite IH, length_app, Nat2Z.inj_add, Z.pow_add_r by lia. simpl. lia.
Qed.

Lemma digit_chr n : 0 <= n < 10 → is_digit (chr (48 + n)) = true ∧ ord (chr (48 + n)) - 48 = n.
Proof. intros H. unfold is_digit. rewrite ord_chr by lia. rewrite andb_true_iff, !Z.leb_le. lia. Qed.

Lemma digits_aux_spec fuel : ∀ z acc, 0 <= z < 2 ^ Z.of_nat fuel → (0 < fuel)%nat →
  ∃ l, digits_aux fuel z acc = l ++ acc ∧ l ≠ [] ∧ all_digits l ∧ digits_value l = z.
Proof.
  induction fuel as [|fuel IH]; intros z acc Hz Hf; [lia|]. simpl.
  destruct (digit_chr (z mod 10)) as [Hd Hv]; [apply Z.mod_pos_bound; lia|]. destruct (Z.ltb_spec z 10).
  - exists [chr (48 + z mod 10)]. split_and!; [done..|by repeat constructor|].
    unfold digits_value. simpl. rewrite Hv. apply Z.mod_small. lia.
  - assert (0 <= z / 10 < 2 ^ Z.of_nat fuel) as Hq.
    { rewrite Nat2Z.inj_succ, Z.pow_succ_r in Hz by lia. split; [apply Z.div_pos; lia|]. apply Z.div_lt_upper_bound; lia. }
    destruct (IH (z / 10) (chr (48 + z mod 10) :: acc)) as (l & E & Hne & Hl & Hval); [done| |].
    { destruct fuel; [|lia]. assert (1 <= z / 10); [|simpl in Hq; lia]. apply Z.div_le_lower_bound; lia. }
    exists (l ++ [chr (48 + z mod 10)]). rewrite E, <- app_assoc. split_and!; [done|by destruct l| |].
    + apply Forall_app. split; [done|by repeat constructor].
    + rewrite digits_value_app. unfold digits_value at 2. simpl. rewrite Hv, Hval. pose proof (Z.div_mod z 10). lia.
Qed.

Lemma digits_spec z : 0 <= z → digits z ≠ [] ∧ all_digits (digits z) ∧ digits_value (digits z) = z.
Proof.
  intros Hz. unfold digits. destruct (digits_aux_spec (S (Z.to_nat (Z.log2 z))) z []) as (l & -> & ? & ? & ?); [|lia|].
  - split; [done|]. rewrite Nat2Z.inj_succ, Z2Nat.id by apply Z.log2_nonneg.
    destruct (decide (z = 0)) as [->|]; [done|]. apply Z.log2_spec. lia.
  - rewrite app_nil_r. done.
Qed.

(** Characters that neither whitespace stripping nor underscore removal touches. *)
Definition plain (c : Ascii.ascii) : bool := negb (is_space c) && negb (ord c =? 95).

Lemma digit_plain c : is_digit c = true → plain c = true.
Proof. unfold is_digit, plain, is_space. intros H. bprop. rewrite andb_true_iff, !negb_true_iff, orb_false_iff, andb_false_iff, !Z.eqb_neq, !Z.leb_gt. lia. Qed.

Lemma drop_spaces l : Forall (λ c, plain c = true) l → drop_while is_space l = l.
Proof. destruct 1 as [|c l Hc Hl]; simpl; [done|]. unfold plain in Hc. bprop. by rewrite H. Qed.

Lemma strip_plain l : Forall (λ c, plain c = true) l →
  rev (drop_while is_space (rev (drop_while is_space l))) = l.
Proof.
  intros Hl. rewrite (drop_spaces l), (drop_spaces (rev l)) by (done || by apply Forall_rev). apply rev_involutive.
Qed.

Lemma plain_no_underscore l : Forall (λ c, plain c = true) l → base.filter (λ c, ord c ≠ 95) l = l.
Proof. intros Hl. apply filter_all. eapply Forall_impl; [exact Hl|]. intros c Hc. unfold plain in Hc. bprop. lia. Qed.

Lemma take_digits_app l r : all_digits l → match r with c :: _ => is_digit c = false | [] => True end →
  take_digits (l ++ r) = (l, r).
Proof.
  induction 1 as [|c l Hc Hl IH]; intros Hr; simpl.
  - destruct r as [|c r]; simpl; [done|]. by rewrite Hr.
  - by rewrite Hc, IH.
Qed.

Lemma take_sign_digit c l : is_digit c = true → take_sign (c :: l) = (false, c :: l).
Proof. unfold is_digit, take_sign. intros H. bprop. rewrite !(proj2 (Z.eqb_neq _ _)) by lia. done. Qed.

Lemma take_sign_signed (neg : bool) l : (∃ c l', l = c :: l' ∧ is_digit c = true) →
  take_sign (if neg then minus :: l else l) = (neg, l).
Proof. intros (c & l' & -> & Hc). destruct neg; [done|]. by apply take_sign_digit. Qed.

Lemma signed_plain (neg : bool) l : Forall (λ c, plain c = true) l → Forall (λ c, plain c = true) (if neg then minus :: l else l).
Proof. destruct neg; [by constructor|done]. Qed.

Lemma all_digits_plain l : all_digits l → Forall (λ c, plain c = true) l.
Proof. intros H. eapply Forall_impl; [exact H|]. apply digit_plain. Qed.

Lemma int_digits_all l : l ≠ [] → all_digits l → int_digits l = Some l.
Proof.
  intros Hne Hl. induction Hl as [|c l Hc Hl IH]; [done|]. simpl. rewrite Hc. destruct l as [|u l]; [done|].
  apply Forall_cons in Hl as [Hu Hl]. pose proof (digit_plain u Hu) as Hp. unfold plain in Hp. bprop.
  rewrite (proj2 (Z.eqb_neq _ _)) by done. by rewrite IH.
Qed.

(** [int(str(z)) = z] *)
Lemma int_of_int_str z : py_int (VStr (int_str z)) = Ok z.
Proof.
  destruct (digits_spec (Z.abs z)) as (Hne & Hd & Hv); [lia|]. unfold py_int, int_str, signed.
  rewrite String.list_ascii_of_string_of_list_ascii.
  rewrite strip_plain by by apply signed_plain, all_digits_plain. rewrite take_sign_signed.
  - rewrite int_digits_all by done. rewrite Hv. destruct (Z.ltb_spec z 0); f_equal; lia.
  - destruct (digits (Z.abs z)) as [|c l]; [done|]. apply Forall_cons in Hd as [? _]. eauto.
Qed.

(** ** Decimals *)

Lemma mantissa_spec ds e : ds ≠ [] → all_digits ds →
  let n := Z.of_nat (length ds) in
  ∃ ip fp, ip ≠ [] ∧ all_digits ip ∧ all_digits fp ∧
    mantissa ds (dotplace n e) = ip ++ match fp with [] => [] | _ => chr 46 :: fp end ∧
    digits_value (ip ++ fp) = digits_value ds ∧ Z.of_nat (length fp) = n - dotplace n e.
Proof.
  intros Hne Hd n. assert (1 <= n) as Hn by (destruct ds; [done|simpl in n; unfold n; simpl; lia]).
  unfold mantissa. fold n. set (dot := dotplace n e).
  assert (dot <= 0 ∨ dot = n ∨ 0 < dot < n) as Hdot.
  { unfold dot, dotplace. if_case as E; bprop; lia. }
  destruct Hdot as [Hdot|[Hdot|Hdot]].
  - rewrite (proj2 (Z.leb_le _ _)) by done. set (z := replicate (Z.to_nat (- dot)) (chr 48)).
    exists [chr 48], (z ++ ds). split_and!; [done|by repeat constructor| | | |].
    + apply Forall_app. split; [|done]. by apply Forall_replicate.
    + simpl. destruct z; [by destruct ds|done].
    + rewrite app_assoc, digits_value_app. assert (digits_value ([chr 48] ++ z) = 0) as ->; [|lia]. simpl. unfold digits_value. simpl.
      unfold z. induction (Z.to_nat (- dot)) as [|k IH]; [done|]. simpl. done.
    + unfold z. rewrite length_app, length_replicate. unfold n. lia.
  - rewrite (proj2 (Z.leb_gt _ _)), (proj2 (Z.leb_le _ _)) by lia. exists ds, []. rewrite Hdot, Z.sub_diag. simpl.
    rewrite !app_nil_r. split_and!; [done|done|constructor|done..|]. lia.
  - rewrite !(proj2 (Z.leb_gt _ _)) by lia. exists (take (Z.to_nat dot) ds), (drop (Z.to_nat dot) ds).
    assert (length (drop (Z.to_nat dot) ds) ≠ 0%nat) as Hl by (rewrite length_drop; unfold n in *; lia).
    split_and!.
    + intros E. apply (f_equal length) in E. rewrite length_take in E. simpl in E. unfold n in *. lia.
    + by apply Forall_take.
    + by apply Forall_drop.
    + by destruct (drop (Z.to_nat dot) ds).
    + by rewrite take_drop.
    + rewrite length_drop. unfold n. lia.
Qed.

Lemma parse_exponent_chars e : parse_exponent (exponent_chars e) = Some e.
Proof.
  unfold exponent_chars. destruct (Z.eqb_spec e 0) as [->|He]; [done|].
  destruct (digits_spec (Z.abs e)) as (Hne & Hd & Hv); [lia|].
  unfold parse_exponent. replace (ord (to_lower (chr 69)) =? 101) with true by reflexivity.
  assert (take_sign ((if e <? 0 then chr 45 else chr 43) :: digits (Z.abs e)) = (e <? 0, digits (Z.abs e))) as ->
    by by destruct (e <? 0).
  rewrite <- (app_nil_r (digits (Z.abs e))), take_digits_app by done.
  destruct (digits (Z.abs e)) as [|c l]; [done|]. rewrite Hv. destruct (Z.ltb_spec e 0); f_equal; lia.
Qed.

Lemma exponent_chars_head e : match exponent_chars e with c :: _ => is_digit c = false ∧ ord c ≠ 46 | [] => True end.
Proof. unfold exponent_chars. by destruct (e =? 0). Qed.

Lemma parse_finite_chars neg ip fp e : ip ≠ [] → all_digits ip → all_digits fp →
  parse_finite neg ((ip ++ match fp with [] => [] | _ => chr 46 :: fp end) ++ exponent_chars e) =
  Some (Finite (Dec (if neg then - digits_value (ip ++ fp) else digits_value (ip ++ fp)) (e - Z.of_nat (length fp)))).
Proof.
  intros Hne Hi Hf. pose proof (exponent_chars_head e) as He. unfold parse_finite. rewrite <- app_assoc, take_digits_app; [|done|].
  - assert ((match (match fp with [] => [] | _ => chr 46 :: fp end) ++ exponent_chars e with
             | c :: r => if ord c =? 46 then take_digits r else ([], (match fp with [] => [] | _ => chr 46 :: fp end) ++ exponent_chars e)
             | [] => ([], []) end) = (fp, exponent_chars e)) as E.
    { destruct fp as [|c fp]; simpl.
      - destruct (exponent_chars e) as [|c r]; [done|]. destruct He as [_ He]. by rewrite (proj2 (Z.eqb_neq _ _)).
      - apply (take_digits_app (c :: fp)); [done|]. destruct (exponent_chars e); naive_solver. }
    rewrite E. rewrite bool_decide_eq_false_2 by (rewrite length_app; destruct ip; simpl; [done|lia]).
    by rewrite parse_exponent_chars.
  - destruct fp; [|done]. simpl. destruct (exponent_chars e); naive_solver.
Qed.

Lemma mantissa_plain ip fp e : all_digits ip → all_digits fp →
  Forall (λ c, plain c = true) ((ip ++ match fp with [] => [] | _ => chr 46 :: fp end) ++ exponent_chars e).
Proof.
  intros Hi Hf. rewrite !Forall_app. split_and!.
  - by apply all_digits_plain.
  - destruct fp; [done|]. constructor; [done|]. by apply all_digits_plain.
  - unfold exponent_chars. destruct (e =? 0); [done|]. destruct (digits_spec (Z.abs e)) as (_ & Hd & _); [lia|].
    repeat constructor; [by destruct (e <? 0)|]. by apply all_digits_plain.
Qed.

Lemma prefix_head a c s t : a ≠ c → String.prefix (String.String a s) (String.String c t) = false.
Proof. intros. cbn [String.prefix]. by destruct (Ascii.ascii_dec a c). Qed.

(** A text that starts with a digit is not one of the special values. *)
Lemma digit_word body : (∃ c l, body = c :: l ∧ is_digit c = true) →
  let word := String.string_of_list_ascii (map to_lower body) in
  bool_decide (word = "inf") = false ∧ bool_decide (word = "infinity") = false ∧
  String.prefix "nan" word = false ∧ String.prefix "snan" word = false.
Proof.
  intros (c & l & -> & Hc). assert (to_lower c = c) as Hl.
  { unfold to_lower. unfold is_digit in Hc. bprop. destruct (Z.leb_spec 65 (ord c)); [lia|done]. }
  cbn [map String.string_of_list_ascii]. rewrite Hl. unfold is_digit in Hc. bprop.
  assert (∀ a, is_digit a = false → c ≠ a) as Hne.
  { intros a Ha ->. unfold is_digit in Ha. bprop. lia. }
  split_and!.
  1-2: apply bool_decide_eq_false_2; intros Hw; apply (f_equal (String.get 0)) in Hw; simpl in Hw; injection Hw as Hw;
    by apply Hne in Hw.
  all: apply prefix_head; intros Hw; symmetry in Hw; by apply Hne in Hw.
Qed.

(** [Decimal(str(d))] is [d], with its exponent. *)
Lemma decimal_of_dec_str d : decimal_of_str (dec_str d) = Ok (Finite d).
Proof.
  destruct (digits_spec (Z.abs (coef d))) as (Hne & Hd & Hv); [lia|]. unfold decimal_of_str, dec_str, signed, dec_chars.
  rewrite String.list_ascii_of_string_of_list_ascii. set (ds := digits (Z.abs (coef d))) in *.
  set (n := Z.of_nat (length ds)). destruct (mantissa_spec ds (dexp d) Hne Hd) as (ip & fp & Hip & Hi & Hf & Hm & Hval & Hlen).
  fold n in Hm, Hlen. rewrite Hm. set (e := dexp d + n - dotplace n (dexp d)).
  pose proof (mantissa_plain ip fp e Hi Hf) as Hpl. pose proof (signed_plain (coef d <? 0) _ Hpl) as Hpl'.
  assert (∃ c l, (ip ++ match fp with [] => [] | _ => chr 46 :: fp end) ++ exponent_chars e = c :: l ∧ is_digit c = true) as Hhead.
  { destruct ip as [|c ip]; [done|]. apply Forall_cons in Hi as [? _]. simpl. eauto. }
  rewrite strip_plain, plain_no_underscore, take_sign_signed by done.
  destruct (digit_word _ Hhead) as (-> & -> & -> & ->). simpl (false || false). cbn match.
  rewrite parse_finite_chars by done. simpl of_option. do 2 f_equal.
  rewrite Hval, Hv. destruct d as [co ex]. simpl in *. f_equal; [|unfold e; lia]. destruct (Z.ltb_spec co 0); lia.
Qed.

Lemma py_decimal_dec str_container d : py_decimal str_container (VDec d) = Ok d.
Proof. unfold py_decimal. munfold. by rewrite decimal_of_dec_str. Qed.

Lemma py_decimal_str str_container d : py_decimal str_container (VStr (dec_str d)) = Ok d.
Proof. unfold py_decimal. munfold. by rewrite decimal_of_dec_str. Qed.
