(* ===== verification/Domain.v ===== *)
(** * Domain types: [packages/domain]

    [identity.py]: identifiers and tenant scope; [time.py]: aware datetimes and
    half-open intervals; [units.py]: the physical and monetary quantities.
    A [datetime] is its instant in microseconds (UTC for an aware one) and whether
    it carries a timezone.  Not modelled: [TimeInterval.duration] (a float
    division), [in_timezone] (the tz database) and [NewType] aliases. *)
From S2P Require Import Prelude PyDecimal PyValue.
From Stdlib Require Import QArith Qabs Lqa.
Local Open Scope Z_scope.

(** ** identity.py *)

Definition is_lower (c : Ascii.ascii) : bool := (97 <=? ord c) && (ord c <=? 122).
Definition is_id_char (c : Ascii.ascii) : bool :=
  is_lower c || is_digit c || (ord c =? 95) || (ord c =? 45).

(** [_ID.fullmatch], the pattern [^[a-z][a-z0-9_-]{2,63}$] *)
Definition id_matches (value : string) : bool :=
  match String.list_ascii_of_string value with
  | [] => false
  | c :: rest =>
      is_lower c && forallb is_id_char rest &&
      (2 <=? Z.of_nat (length rest)) && (Z.of_nat (length rest) <=? 63)
  end.

Definition validate_id (value : string) : result string :=
  if negb (id_matches value)
  then Err (ValueError "identifier must be 3-64 lowercase alphanumeric, '_' or '-'")
  else Ok value.

(** [new_id(prefix)]; [hex] is [uuid.uuid4().hex]. *)
Definition new_id (hex : string) (prefix : string) : result string :=
  validate_id prefix;; Ok (prefix +:+ "-" +:+ String.substring 0 16 hex).

Definition assert_scope (expected_tenant actual_tenant : string) (site : option string) : result unit :=
  if negb (bool_decide (expected_tenant = actual_tenant))
  then Err (PermissionError "cross-tenant access denied")
  else match site with None => Ok tt | Some s => validate_id s;; Ok tt end.

(** ** time.py *)

Record datetime := DT { us : Z; aware : bool }.
#[global] Instance datetime_eq_dec : EqDecision datetime.
Proof. solve_decision. Defined.

(** [a < b], [a <= b]: naive and aware datetimes do not compare. *)
Definition dt_ltb (a b : datetime) : result bool :=
  if Bool.eqb (aware a) (aware b) then Ok (us a <? us b) else Err TypeError.
Definition dt_leb (a b : datetime) : result bool :=
  if Bool.eqb (aware a) (aware b) then Ok (us a <=? us b) else Err TypeError.
(** [a - b], a timedelta in microseconds *)
Definition dt_sub (a b : datetime) : result Z :=
  if Bool.eqb (aware a) (aware b) then Ok (us a - us b) else Err TypeError.
Definition dt_add (a : datetime) (delta : Z) : datetime := DT (us a + delta) (aware a).

Definition ensure_aware (value : datetime) : result datetime :=
  if aware value then Ok value else Err (ValueError "datetime must be timezone-aware").

Record TimeInterval := MkTimeInterval { start : datetime; end_ : datetime }.

(** The constructor with its [__post_init__] *)
Definition time_interval (s e : datetime) : result TimeInterval :=
  ensure_aware s;; ensure_aware e;;
  bad ← dt_leb e s;
  if (bad : bool) then Err (ValueError "interval must be half-open with end > start")
  else Ok (MkTimeInterval s e).

Definition interval_contains (i : TimeInterval) (moment : datetime) : result bool :=
  ensure_aware moment;;
  lo ← dt_leb (start i) moment;
  if (lo : bool) then dt_ltb moment (end_ i) else Ok false.

Definition interval_overlaps (i other : TimeInterval) : result bool :=
  lo ← dt_ltb (start i) (end_ other);
  if (lo : bool) then dt_ltb (start other) (end_ i) else Ok false.

(** The [while current < self.end] loop of [split]; [fuel] bounds the rounds. *)
Fixpoint split_loop (fuel : nat) (e : datetime) (step : Z) (current : datetime)
    : result (list TimeInterval) :=
  match fuel with
  | O => Err (OtherError "out of fuel")
  | S fuel' =>
      more ← dt_ltb current e;
      if (more : bool) then
        let following := if us e <? us current + step then e else dt_add current step in
        piece ← time_interval current following;
        rest ← split_loop fuel' e step following;
        Ok (piece :: rest)
      else Ok []
  end.

(** [step] is a timedelta in microseconds. *)
Definition interval_split (i : TimeInterval) (step : Z) : result (list TimeInterval) :=
  if step <=? 0 then Err (ValueError "step must be positive")
  else
    let rounds := (us (end_ i) - us (start i) + step - 1) / step in
    split_loop (S (Z.to_nat rounds)) (end_ i) step (start i).

(** ** units.py *)

(** The values [_decimal] accepts; a non-finite literal has no quantity here. *)
Definition py_decimal (v : pyval) : result dec :=
  n ← decimal_of_val v;
  match n with Finite d => Ok d | _ => Err InvalidOperation end.

Record Duration := MkDuration { hours : dec }.
Definition duration (h : dec) : result Duration :=
  if dltb h (dint 0) then Err (ValueError "duration cannot be negative") else Ok (MkDuration h).
(** [Duration.minutes] *)
Definition duration_minutes (v : dec) : result Duration :=
  h ← ddiv v (dint 60); duration h.

Record Power := MkPower { kw : dec }.
Record Energy := MkEnergy { kwh : dec }.

Definition power_add (a b : Power) : Power := MkPower (dadd (kw a) (kw b)).
Definition power_sub (a b : Power) : Power := MkPower (dsub (kw a) (kw b)).
Definition energy_add (a b : Energy) : Energy := MkEnergy (dadd (kwh a) (kwh b)).
Definition energy_sub (a b : Energy) : Energy := MkEnergy (dsub (kwh a) (kwh b)).

(** [context.prec = max(50, digits + digits)] *)
Definition wide_prec (a b : dec) : Z := Z.max 50 (ndigits (coef a) + ndigits (coef b)).

Definition energy_for (p : Power) (d : Duration) : Energy :=
  MkEnergy (dmul_ctx (wide_prec (kw p) (hours d)) (kw p) (hours d)).

Definition average_power (e : Energy) (d : Duration) : result Power :=
  if deqb (hours d) (dint 0) then Err (ZeroDivisionError "zero-duration interval")
  else q ← ddiv_ctx (wide_prec (kwh e) (hours d)) (kwh e) (hours d); Ok (MkPower q).

Definition to_upper (c : Ascii.ascii) : Ascii.ascii :=
  if is_lower c then chr (ord c - 32) else c.
Definition is_alpha (c : Ascii.ascii) : bool :=
  is_lower c || ((65 <=? ord c) && (ord c <=? 90)).
Definition str_upper (s : string) : string :=
  String.string_of_list_ascii (map to_upper (String.list_ascii_of_string s)).

Record Money := MkMoney { amount : dec; currency : string }.
Definition money (a : dec) (cur : string) : result Money :=
  let normalized := str_upper cur in
  if negb (String.length normalized =? 3)%nat ||
     negb (forallb is_alpha (String.list_ascii_of_string normalized))
  then Err (ValueError "currency must be an ISO-like three-letter code")
  else Ok (MkMoney a normalized).
Definition money_compatible (a b : Money) : result unit :=
  if negb (bool_decide (currency a = currency b)) then Err (ValueError "currency mismatch") else Ok tt.
Definition money_add (a b : Money) : result Money :=
  money_compatible a b;; money (dadd (amount a) (amount b)) (currency a).
Definition money_sub (a b : Money) : result Money :=
  money_compatible a b;; money (dsub (amount a) (amount b)) (currency a).
Definition money_rounded (m : Money) (places : Z) : result Money :=
  q ← dquantize (amount m) (- places); money q (currency m).

Record Carbon := MkCarbon { kg_co2e : dec }.
Definition carbon (v : dec) : result Carbon :=
  if dltb v (dint 0) then Err (ValueError "carbon cannot be negative") else Ok (MkCarbon v).

Record Percentage := MkPercentage { ratio : dec }.
Definition percentage (v : dec) : result Percentage :=
  if negb (dleb (dint 0) v && dleb v (dint 1))
  then Err (ValueError "percentage ratio must be in [0, 1]") else Ok (MkPercentage v).

(** ** Splitting tiles the interval *)

(** The pieces of [l] lie end to end from [s] to [e], each non-empty. *)
Fixpoint tiles (s : Z) (l : list TimeInterval) (e : Z) : Prop :=
  match l with
  | [] => s = e
  | i :: l' => us (start i) = s ∧ s < us (end_ i) ∧ tiles (us (end_ i)) l' e
  end.

Definition valid_interval (i : TimeInterval) : Prop :=
  aware (start i) = true ∧ aware (end_ i) = true ∧ us (start i) < us (end_ i).

Lemma time_interval_ok s e i :
  time_interval s e = Ok i ↔ i = MkTimeInterval s e ∧ valid_interval i.
Proof.
  unfold time_interval, valid_interval, ensure_aware, dt_leb. munfold.
  destruct (aware s) eqn:Es, (aware e) eqn:Ee; simpl;
    try (split; [done|]; intros [-> (?&?&?)]; simpl in *; congruence).
  destruct (Z.leb_spec (us e) (us s)); split; intros; destruct_and?; simplify_eq/=; try done; lia.
Qed.

Lemma tiles_le s l e : tiles s l e → s <= e.
Proof.
  revert s. induction l as [|i l IH]; intros s; simpl; [lia|].
  intros (_ & ? & Ht). specialize (IH _ Ht). lia.
Qed.

Lemma tiles_bounds s l e i : tiles s l e → i ∈ l → s <= us (start i) ∧ us (end_ i) <= e.
Proof.
  revert s. induction l as [|j l IH]; intros s; simpl; [set_solver|].
  intros (Hs & Hlt & Ht) [->|Hi]%elem_of_cons.
  - split; [lia|]. by apply tiles_le in Ht.
  - destruct (IH _ Ht Hi). lia.
Qed.

Lemma tiles_cover s l e m : tiles s l e → s <= m < e →
  ∃ i, i ∈ l ∧ us (start i) <= m < us (end_ i) ∧
       ∀ j, j ∈ l → us (start j) <= m < us (end_ j) → j = i.
Proof.
  revert s. induction l as [|i l IH]; intros s; simpl; [lia|].
  intros (Hs & Hlt & Ht) Hm.
  destruct (Z.lt_ge_cases m (us (end_ i))) as [Hmi|Hmi].
  - exists i. split_and!; [set_solver|lia..|]. intros j [->|Hj]%elem_of_cons ?; [done|].
    destruct (tiles_bounds _ _ _ _ Ht Hj). lia.
  - destruct (IH _ Ht ltac:(lia)) as (k & Hk & Hkm & Hu).
    exists k. split_and!; [set_solver|lia..|]. intros j [->|Hj]%elem_of_cons ?; [lia|auto].
Qed.

Lemma split_loop_tiles fuel e step cur :
  0 < step → aware cur = true → aware e = true → us cur <= us e →
  us e - us cur <= Z.of_nat fuel * step →
  ∃ l, split_loop (S fuel) e step cur = Ok l ∧ tiles (us cur) l (us e) ∧
    Forall (λ i, valid_interval i ∧ us (end_ i) - us (start i) <= step) l ∧
    Z.of_nat (length l) = (us e - us cur + step - 1) / step.
Proof.
  intros Hstep. revert cur. induction fuel as [|fuel IH]; intros cur Hc He Hle Hf.
  - exists []. cbn. unfold dt_ltb. munfold. rewrite Hc, He. simpl.
    destruct (Z.ltb_spec (us cur) (us e)); [lia|]. split_and!; [done|lia|done|].
    symmetry. apply Z.div_small. lia.
  - change (split_loop (S (S fuel)) e step cur) with
      (more ← dt_ltb cur e;
       if (more : bool) then
         let following := if us e <? us cur + step then e else dt_add cur step in
         piece ← time_interval cur following;
         rest ← split_loop (S fuel) e step following; Ok (piece :: rest)
       else Ok []).
    unfold dt_ltb. rewrite Hc, He. munfold. destruct (Z.ltb_spec (us cur) (us e)) as [Hlt|Hge].
    2:{ exists []. split_and!; [done|simpl; lia|done|]. symmetry. apply Z.div_small. lia. }
    set (f := if us e <? us cur + step then e else dt_add cur step).
    assert (aware f = true ∧ us cur < us f ∧ us f <= us e ∧ us f = Z.min (us e) (us cur + step))
      as (Hfa & Hf1 & Hf2 & Hf3).
    { unfold f. destruct (Z.ltb_spec (us e) (us cur + step)); simpl; split_and!; done || lia. }
    assert (time_interval cur f = Ok (MkTimeInterval cur f)) as ->.
    { apply time_interval_ok. done. }
    destruct (IH f Hfa He Hf2) as (l & Hl & Ht & Hall & Hlen); [nia|].
    exists (MkTimeInterval cur f :: l). rewrite Hl. split_and!; [done|done| |].
    + constructor; [|done]. split; [done|]. simpl. lia.
    + cbn [length]. rewrite Nat2Z.inj_succ, Hlen.
      destruct (Z.le_gt_cases (us e) (us cur + step)).
      * replace (us e - us f + step - 1) with (step - 1) by lia.
        rewrite (Z.div_small (step - 1)) by lia. apply Z.div_unique with (us e - us cur - 1); lia.
      * replace (us e - us cur + step - 1) with ((us e - us f + step - 1) + 1 * step) by lia.
        rewrite Z.div_add by lia. lia.
Qed.

(** for a valid interval and a positive step, [split] returns; its pieces lie
    end to end from the interval's start to its end, each is a valid interval no
    longer than the step, their number is the rounded-up quotient, and every
    moment of the interval lies in exactly one piece. *)
Theorem split_partitions (i : TimeInterval) (step : Z) :
  valid_interval i → 0 < step →
  ∃ l, interval_split i step = Ok l ∧ tiles (us (start i)) l (us (end_ i)) ∧
    Forall (λ p, valid_interval p ∧ us (end_ p) - us (start p) <= step) l ∧
    Z.of_nat (length l) = (us (end_ i) - us (start i) + step - 1) / step ∧
    ∀ m, us (start i) <= m < us (end_ i) →
      ∃ p, p ∈ l ∧ us (start p) <= m < us (end_ p) ∧
           ∀ q, q ∈ l → us (start q) <= m < us (end_ q) → q = p.
Proof.
  intros (Hs & He & Hlt) Hstep. unfold interval_split.
  destruct (Z.leb_spec step 0); [lia|].
  set (n := (us (end_ i) - us (start i) + step - 1) / step).
  assert (us (end_ i) - us (start i) <= n * step) as Hn.
  { pose proof (Z.div_mod (us (end_ i) - us (start i) + step - 1) step ltac:(lia)).
    pose proof (Z.mod_pos_bound (us (end_ i) - us (start i) + step - 1) step Hstep). nia. }
  destruct (split_loop_tiles (Z.to_nat n) (end_ i) step (start i)) as (l & Hl & Ht & Hall & Hlen);
    [done..|lia|rewrite Z2Nat.id; [lia|apply Z.div_pos; lia]|].
  exists l. split_and!; [done..|]. intros m Hm. by eapply tiles_cover.
Qed.

Lemma split_partitions_witness :
  ∃ l, interval_split (MkTimeInterval (DT 0 true) (DT 10 true)) 4 = Ok l ∧ length l = 3%nat.
Proof.
  destruct (split_partitions (MkTimeInterval (DT 0 true) (DT 10 true)) 4) as (l & Hl & _ & _ & Hn & _).
  - vm_compute. done.
  - lia.
  - exists l. split; [exact Hl|]. change (Z.of_nat (length l) = 3) in Hn. lia.
Defined.

(** ** Quantities *)

Lemma ndigits_mul_bound a b : Z.abs (a * b) < 10 ^ (ndigits a + ndigits b).
Proof.
  pose proof (ndigits_pos a). pose proof (ndigits_pos b).
  pose proof (proj1 (ndigits_le a _ (ndigits_pos a)) (Z.le_refl _)).
  pose proof (proj1 (ndigits_le b _ (ndigits_pos b)) (Z.le_refl _)).
  rewrite Z.abs_mul, Z.pow_add_r by lia. nia.
Qed.

Lemma wide_prec_pos a b : 1 <= wide_prec a b.
Proof. unfold wide_prec. lia. Qed.

Lemma energy_for_exact p d : (dval (kwh (energy_for p d)) == dval (kw p) * dval (hours d))%Q.
Proof.
  unfold energy_for. simpl. set (n := wide_prec (kw p) (hours d)).
  destruct (dmul_spec n (kw p) (hours d)) as (s & Hs & Hv).
  unfold dmul_ctx. rewrite dfix_id.
  - unfold dval. simpl. rewrite inject_Z_mult, p10_add. ring.
  - apply wide_prec_pos.
  - simpl. eapply Z.lt_le_trans; [apply ndigits_mul_bound|].
    apply Z.pow_le_mono_r; [lia|]. unfold n, wide_prec. lia.
Qed.

(** integrating a power over a duration and averaging back gives the same
    power, whatever the number of digits: the widened context makes the product
    exact and the quotient exactly representable.  (With the default 28-digit
    context both steps would round.) *)
Theorem average_power_energy_for (p : Power) (d : Duration) :
  coef (hours d) ≠ 0 →
  (dval (kwh (energy_for p d)) == dval (kw p) * dval (hours d))%Q ∧
  ∃ p', average_power (energy_for p d) d = Ok p' ∧ kw p' ≡ kw p.
Proof.
  intros Hd. split; [apply energy_for_exact|]. unfold average_power.
  assert (deqb (hours d) (dint 0) = false) as ->.
  { dprop. rewrite dval_dint. change (inject_Z 0) with 0%Q. by rewrite dval_zero_iff. }
  set (n := wide_prec (kwh (energy_for p d)) (hours d)).
  destruct (ddiv_ok n (kwh (energy_for p d)) (hours d) Hd) as [q Hq].
  rewrite Hq. exists (MkPower q). split; [done|]. unfold equiv, dec_equiv. simpl.
  assert (1 <= n) as Hn by apply wide_prec_pos.
  assert (coef (kwh (energy_for p d)) = coef (kw p) * coef (hours d)) as Hk.
  { unfold energy_for, dmul_ctx. simpl. rewrite dfix_id; [done|apply wide_prec_pos|]. simpl.
    eapply Z.lt_le_trans; [apply ndigits_mul_bound|]. apply Z.pow_le_mono_r; [lia|].
    unfold wide_prec. lia. }
  eapply ddiv_exact; [exact Hn| |exact Hq|apply energy_for_exact].
  apply fits_dec.
  assert (Z.abs (coef (kw p)) <= Z.abs (coef (kw p) * coef (hours d))) by (rewrite Z.abs_mul; nia).
  rewrite <- Hk in *. set (c := coef (kwh (energy_for p d))) in *.
  pose proof (proj1 (ndigits_le c _ (ndigits_pos c)) (Z.le_refl _)).
  assert (10 ^ ndigits c <= 10 ^ n).
  { apply Z.pow_le_mono_r; [lia|]. unfold n, wide_prec. fold c. pose proof (ndigits_pos (coef (hours d))). lia. }
  lia.
Qed.

Lemma average_power_energy_for_witness :
  ∃ p', average_power (energy_for (MkPower (Dec (-12345) (-2))) (MkDuration (Dec 25 (-2))))
          (MkDuration (Dec 25 (-2))) = Ok p' ∧ kw p' ≡ Dec (-12345) (-2).
Proof.
  exact (proj2 (average_power_energy_for (MkPower (Dec (-12345) (-2))) (MkDuration (Dec 25 (-2)))
    ltac:(vm_compute; discriminate))).
Defined.

Lemma str_upper_length s : String.length (str_upper s) = String.length s.
Proof.
  unfold str_upper. induction s as [|c s IH]; simpl; [done|]. by rewrite IH.
Qed.

Lemma to_upper_idem c : to_upper (to_upper c) = to_upper c.
Proof. destruct c as [[] [] [] [] [] [] [] []]; reflexivity. Qed.

Lemma str_upper_idem s : str_upper (str_upper s) = str_upper s.
Proof.
  unfold str_upper. rewrite String.list_ascii_of_string_of_list_ascii, map_map.
  f_equal. apply map_ext. apply to_upper_idem.
Qed.

(** A money value the constructor accepts: three upper-case letters of currency. *)
Definition money_wf (m : Money) : Prop := money (amount m) (currency m) = Ok m.

Lemma money_wf_ok a cur m : money a cur = Ok m → money_wf m ∧ amount m = a ∧ currency m = str_upper cur.
Proof.
  unfold money_wf, money. case_match eqn:E; [done|]. intros [= <-]. simpl.
  rewrite str_upper_idem, E. done.
Qed.

Lemma money_wf_with a m : money_wf m → money a (currency m) = Ok (MkMoney a (currency m)).
Proof.
  unfold money_wf, money. case_match; [done|]. intros H'. f_equal.
  destruct m as [? c]. simpl in *. congruence.
Qed.

Lemma dquantize_idem a e q : dquantize a e = Ok q → dquantize q e = Ok q.
Proof.
  unfold dquantize. case_match eqn:E; [done|]. intros [= <-].
  assert (rescale_half_even (Dec (rescale_half_even a e) e) e = rescale_half_even a e) as ->.
  { by apply rescale_exact. }
  by rewrite E.
Qed.

(** rounding a money value to [places] keeps its currency, moves the amount by
    at most half a unit of the last place, gives an amount on the grid of that
    unit, and rounding again changes nothing; it fails only when the rounded
    coefficient needs more than 28 digits. *)
Theorem money_rounded_spec (m : Money) (places : Z) :
  money_wf m →
  match money_rounded m places with
  | Ok r => currency r = currency m ∧ dexp (amount r) = - places ∧
            (2 * Qabs (dval (amount m) - dval (amount r)) <= p10 (- places))%Q ∧
            money_rounded r places = Ok r
  | Err e => e = InvalidOperation ∧ 28 < ndigits (rescale_half_even (amount m) (- places))
  end.
Proof.
  intros Hw. unfold money_rounded. munfold.
  destruct (dquantize (amount m) (- places)) as [q|e] eqn:Hq.
  - rewrite money_wf_with by done. simpl.
    destruct (dquantize_error _ _ _ Hq) as [He Herr]. apply dquantize_idem in Hq as ->.
    split_and!; [done..|]. by apply money_wf_with.
  - unfold dquantize in Hq. case_match eqn:E; simplify_eq. by bprop.
Qed.

Lemma money_rounded_spec_witness :
  money_wf (MkMoney (Dec 12345 (-3)) "USD") ∧
  (2 * Qabs (dval (Dec 12345 (-3)) - dval (Dec 1234 (-2))) <= p10 (- 2))%Q ∧
  money_rounded (MkMoney (Dec 1234 (-2)) "USD") 2 = Ok (MkMoney (Dec 1234 (-2)) "USD").
Proof.
  assert (money_wf (MkMoney (Dec 12345 (-3)) "USD")) as Hw by reflexivity.
  split; [exact Hw|].
  exact (proj2 (proj2 (money_rounded_spec (MkMoney (Dec 12345 (-3)) "USD") 2 Hw))).
Defined.

(** ** Amounts of money in one currency *)

(** Programs over money: the constructor and the operations of [Money], composed *)
Inductive money_expr :=
| Lit (a : dec) (cur : string)
| Plus (e1 e2 : money_expr)
| Minus (e1 e2 : money_expr)
| Rounded (e : money_expr) (places : Z).

Fixpoint money_eval (e : money_expr) : result Money :=
  match e with
  | Lit a cur => money a cur
  | Plus e1 e2 => a ← money_eval e1; b ← money_eval e2; money_add a b
  | Minus e1 e2 => a ← money_eval e1; b ← money_eval e2; money_sub a b
  | Rounded e places => m ← money_eval e; money_rounded m places
  end.

(** The currency of such a program, when it has one *)
Inductive in_currency : money_expr → string → Prop :=
| ic_lit a cur : String.length cur = 3%nat → Forall (λ c, is_alpha c = true) (String.list_ascii_of_string cur) →
    in_currency (Lit a cur) (str_upper cur)
| ic_plus e1 e2 c : in_currency e1 c → in_currency e2 c → in_currency (Plus e1 e2) c
| ic_minus e1 e2 c : in_currency e1 c → in_currency e2 c → in_currency (Minus e1 e2) c
| ic_rounded e places c : in_currency e c → in_currency (Rounded e places) c.

Lemma is_alpha_upper c : is_alpha (to_upper c) = is_alpha c.
Proof. destruct c as [[] [] [] [] [] [] [] []]; reflexivity. Qed.

Lemma str_upper_alpha s : forallb is_alpha (String.list_ascii_of_string (str_upper s)) = forallb is_alpha (String.list_ascii_of_string s).
Proof.
  unfold str_upper. rewrite String.list_ascii_of_string_of_list_ascii. induction (String.list_ascii_of_string s) as [|c l IH]; [done|].
  cbn. by rewrite is_alpha_upper, IH.
Qed.

Lemma money_lit a cur : match money a cur with
  | Ok m => m = MkMoney a (str_upper cur) ∧ String.length cur = 3%nat ∧ Forall (λ c, is_alpha c = true) (String.list_ascii_of_string cur)
  | Err e => ¬ (String.length cur = 3%nat ∧ Forall (λ c, is_alpha c = true) (String.list_ascii_of_string cur)) ∧ e ≠ InvalidOperation
  end.
Proof.
  unfold money. rewrite str_upper_length, str_upper_alpha.
  destruct (Nat.eqb_spec (String.length cur) 3), (forallb _ _) eqn:E; cbn;
    (split_and!; [done|done|by apply forallb_true_iff]) || (split; [intros [? H%forallb_true_iff]; congruence|done]).
Qed.

Lemma money_join f a b : money_wf a → money_wf b →
  (money_compatible a b;; money (f (amount a) (amount b)) (currency a)) =
  if bool_decide (currency a = currency b) then Ok (MkMoney (f (amount a) (amount b)) (currency a)) else Err (ValueError "currency mismatch").
Proof. intros Ha Hb. unfold money_compatible. case_bool_decide; [|done]. cbn. by apply money_wf_with. Qed.

Definition sound_at (e : money_expr) : Prop := ∀ m, money_eval e = Ok m → money_wf m ∧ in_currency e (currency m).
Definition complete_at (e : money_expr) : Prop :=
  ∀ c, in_currency e c → (∃ m, money_eval e = Ok m ∧ currency m = c) ∨ money_eval e = Err InvalidOperation.
Definition join_eval (f : dec → dec → dec) (e1 e2 : money_expr) : result Money :=
  a ← money_eval e1; b ← money_eval e2; money_compatible a b;; money (f (amount a) (amount b)) (currency a).

Lemma join_sound f e1 e2 m : sound_at e1 → sound_at e2 → join_eval f e1 e2 = Ok m →
  money_wf m ∧ in_currency e1 (currency m) ∧ in_currency e2 (currency m).
Proof.
  unfold join_eval, sound_at. intros H1 H2. destruct (money_eval e1) as [a|]; [|done]. cbn. destruct (money_eval e2) as [b|]; [|done]. cbn.
  destruct (H1 a eq_refl) as [Wa Ca], (H2 b eq_refl) as [Wb Cb]. pose proof (money_join f a b Wa Wb) as Hj. cbn in Hj. rewrite Hj.
  case_bool_decide as Hc; [|done]. intros [= <-]. cbn. split_and!; [by apply (money_wf_with _ a)|done|by rewrite Hc].
Qed.

Lemma join_complete f e1 e2 c : sound_at e1 → sound_at e2 → complete_at e1 → complete_at e2 → in_currency e1 c → in_currency e2 c →
  (∃ m, join_eval f e1 e2 = Ok m ∧ currency m = c) ∨ join_eval f e1 e2 = Err InvalidOperation.
Proof.
  unfold join_eval. intros S1 S2 C1 C2 H1 H2. destruct (C1 c H1) as [(a & Ea & Ha)|Ea]; [|right; by rewrite Ea].
  destruct (C2 c H2) as [(b & Eb & Hb)|Eb]; [|right; by rewrite Ea, Eb]. destruct (S1 a Ea) as [Wa _], (S2 b Eb) as [Wb _].
  left. rewrite Ea, Eb. pose proof (money_join f a b Wa Wb) as Hj. cbn in *. rewrite Hj, bool_decide_true by congruence. by eexists.
Qed.

Lemma money_eval_sound e : sound_at e.
Proof.
  induction e as [a cur|e1 IH1 e2 IH2|e1 IH1 e2 IH2|e IH places]; intros m Hm; cbn in Hm.
  - pose proof (money_lit a cur) as H. rewrite Hm in H. destruct H as (-> & ? & ?). split; [by eapply money_wf_ok|by constructor].
  - apply (join_sound dadd e1 e2) in Hm as (? & ? & ?); [|done..]. split; [done|by constructor].
  - apply (join_sound dsub e1 e2) in Hm as (? & ? & ?); [|done..]. split; [done|by constructor].
  - unfold sound_at in IH. destruct (money_eval e) as [a|]; [|done]. destruct (IH a eq_refl) as [Wa Ca]. cbn in Hm. unfold money_rounded in Hm.
    destruct (dquantize _ _) as [q|]; [|done]. cbn in Hm. rewrite money_wf_with in Hm by done. injection Hm as <-.
    split; [by apply (money_wf_with _ a)|by constructor].
Qed.

Lemma money_eval_complete e : complete_at e.
Proof.
  induction e as [a cur|e1 IH1 e2 IH2|e1 IH1 e2 IH2|e IH places]; intros c Hc; inversion Hc; subst.
  - left. pose proof (money_lit a cur) as H. cbn. destruct (money a cur) as [m|]; [|naive_solver]. destruct H as (-> & _). by eexists.
  - by apply (join_complete dadd e1 e2); try apply money_eval_sound.
  - by apply (join_complete dsub e1 e2); try apply money_eval_sound.
  - cbn. destruct (IH c) as [(m & Em & Hm)|Em]; [done| |right; by rewrite Em]. destruct (money_eval_sound e m Em) as [Wm _].
    rewrite Em. cbn. unfold money_rounded, dquantize. if_case as E; [by right|left]. cbn. rewrite money_wf_with by done. by eexists.
Qed.

(** C35: Money is typed by its currency.  What any composition of the constructor, addition, subtraction and rounding
    returns is a well-formed amount, and all the literals that entered it are of its currency.  Conversely, a program
    whose literals are three-letter codes of one currency does return an amount of that currency, unless a rounding
    needs more than 28 digits. *)
Theorem money_currency_typed (e : money_expr) :
  (∀ m, money_eval e = Ok m → money_wf m ∧ in_currency e (currency m)) ∧
  (∀ c, in_currency e c → (∃ m, money_eval e = Ok m ∧ currency m = c) ∨ money_eval e = Err InvalidOperation).
Proof. split; [apply money_eval_sound|apply money_eval_complete]. Qed.
