(* ===== verification/Access.v ===== *)
(** * Identity and access

    [packages/iam/service.py]: the claims of a token and the authorization of an action;
    [packages/iam/authentication.py]: the cache of signing keys and the authentication of a request;
    [apps/api/main.py]: the request contexts, the roles a route needs, and the HTTP status of an exception.

    The JWT library, the HTTP client and the clocks are arguments.  A fetch that fails with [httpx.HTTPError] is
    [OtherError "HTTPError"] and any [jwt.PyJWTError] is [OtherError "PyJWTError"].  The range of [datetime] is
    not modelled. *)
From S2P Require Import Prelude PyDecimal PyFloat PyValue PyText Domain Settings.
Local Open Scope Z_scope.

Abbreviation document := (list (string * pyval)).

(** ** service.py *)

Record Identity := MkIdentity {
  subject : string; identity_tenant : string; roles : gset string; attributes : gmap string string;
  token_expires_at : datetime; service_account : bool
}.
Record Policy := MkPolicy {
  policy_action : string; allowed_roles : gset string; required_attributes : list (string * string);
  allow_service_accounts : bool
}.

Definition attribute_check (i : Identity) (required : string * string) : result unit :=
  raise_if (negb (bool_decide (attributes i !! required.1 = Some required.2)))
    (PermissionError ("attribute " +:+ required.1 +:+ " does not satisfy policy")).

Definition authorize (i : Identity) (p : Policy) (resource_tenant : string) (now : datetime) : result bool :=
  expired ← dt_leb (token_expires_at i) now;
  raise_if expired (PermissionError "identity token expired");;
  raise_if (negb (bool_decide (identity_tenant i = resource_tenant))) (PermissionError "cross-tenant access denied");;
  raise_if (service_account i && negb (allow_service_accounts p)) (PermissionError "service account is not allowed");;
  raise_if (bool_decide (roles i ∩ allowed_roles p = ∅)) (PermissionError "role is not authorized");;
  foldM_result (λ _ r, attribute_check i r) (required_attributes p) tt;;
  Ok true.

(** [float(v)] of a text, an int or a float *)
Inductive pyfloat := FFinite (b : bin) | FInfinite | FNaN.

(** Underscores stand only between digits. *)
Fixpoint underscores_ok (after_digit : bool) (l : list Ascii.ascii) : bool :=
  match l with
  | [] => true
  | c :: l' =>
      if ord c =? 95 then after_digit && match l' with d :: _ => is_digit d | [] => false end && underscores_ok false l'
      else underscores_ok (is_digit c) l'
  end.

Definition float_of_val (v : pyval) : result pyfloat :=
  match v with
  | VInt z => Ok (FFinite (f64_q z 1))
  | VBool b => Ok (FFinite (f64_q (if b then 1 else 0) 1))
  | VFloat d _ => Ok (FFinite (f64_of_dec d))
  | VStr s =>
      if underscores_ok false (String.list_ascii_of_string s) then
        match decimal_of_str s with
        | Ok (Finite d) => Ok (FFinite (f64_of_dec d))
        | Ok (Infinite _) => Ok FInfinite
        | Ok NaN => Ok FNaN
        | Err _ => Err (ValueError "could not convert string to float")
        end
      else Err (ValueError "could not convert string to float")
  | _ => Err TypeError
  end.

(** [datetime.fromtimestamp(f, tz=UTC)]: the fraction becomes microseconds, rounded half to even. *)
Definition timestamp_us (b : bin) : Z :=
  let part := f64_q (1000000 * bin_frac_num b) (bin_den b) in
  1000000 * bin_trunc b
  + (let x := bin_num part in if x <? 0 then - half_even (- x) (bin_den part) else half_even x (bin_den part)).
Definition fromtimestamp (f : pyfloat) : result datetime :=
  match f with
  | FFinite b => Ok (DT (timestamp_us b) true)
  | FInfinite => Err (OtherError "OverflowError")
  | FNaN => Err (ValueError "cannot convert float NaN to integer")
  end.

Section claims.
Context (str_container : pyval → string).

Definition get (k : string) (d : document) : pyval := default VNone (od_get k d).

(** [token_audience == audience or (isinstance(token_audience, (list, tuple)) and audience in token_audience)] *)
Definition audience_matches (token_audience : pyval) (audience : string) : bool :=
  py_eq token_audience (VStr audience)
  || match token_audience with VList l => existsb (λ x, py_eq x (VStr audience)) l | _ => false end.

Definition required_claims : list string := ["sub"; "tenant_id"; "roles"; "exp"].

Definition validate_sso_claims (claims : document) (issuer audience : string) : result Identity :=
  raise_if (negb (py_eq (get "iss" claims) (VStr issuer)) || negb (audience_matches (get "aud" claims) audience))
    (PermissionError "OIDC issuer or audience mismatch");;
  raise_if (existsb (λ k, bool_decide (od_get k claims = None)) required_claims)
    (PermissionError "missing identity claims");;
  role_items ← match get "roles" claims with
               | VList l => Ok l
               | _ => Err (PermissionError "roles claim must be a collection")
               end;
  attribute_items ← match default (VDict []) (od_get "attributes" claims) with
                    | VDict kvs => Ok kvs
                    | _ => Err (PermissionError "attributes claim must be an object")
                    end;
  raise_if (match get "exp" claims with VStr _ | VInt _ | VBool _ | VFloat _ _ => false | _ => true end)
    (PermissionError "exp claim must be numeric");;
  f ← float_of_val (get "exp" claims);
  expires_at ← fromtimestamp f;
  Ok (MkIdentity (py_str str_container (get "sub" claims)) (py_str str_container (get "tenant_id" claims))
        (list_to_set (map (py_str str_container) role_items))
        (foldl (λ m kv, <[kv.1 := py_str str_container kv.2]> m) ∅ attribute_items) expires_at
        (py_bool (default (VBool false) (od_get "service_account" claims)))).
End claims.

(** ** authentication.py *)

Definition ALGORITHMS : list string := ["RS256"; "RS384"; "RS512"; "ES256"; "ES384"].

(** [hmac.compare_digest] of two texts, which must be ASCII *)
Definition is_ascii (s : string) : bool := forallb (λ c, ord c <? 128) (String.list_ascii_of_string s).
Definition compare_digest (a b : string) : result bool :=
  if is_ascii a && is_ascii b then Ok (bool_decide (a = b)) else Err TypeError.

Definition forwarded_peer_certificate (direct_hash forwarded_hash supplied_proxy_secret configured_proxy_secret : option string)
    : result (option string) :=
  if given direct_hash then Ok direct_hash
  else if negb (given forwarded_hash) || negb (given supplied_proxy_secret) || negb (given configured_proxy_secret) then Ok None
  else
    same ← compare_digest (default "" supplied_proxy_secret) (default "" configured_proxy_secret);
    Ok (if (same : bool) then forwarded_hash else None).

(** [s.split(",")] *)
Fixpoint split_commas (l acc : list Ascii.ascii) : list string :=
  match l with
  | [] => [String.string_of_list_ascii (rev acc)]
  | c :: l' => if ord c =? 44 then String.string_of_list_ascii (rev acc) :: split_commas l' [] else split_commas l' (c :: acc)
  end.
Definition header_roles (s : string) : gset string :=
  list_to_set (base.filter (λ r, r ≠ "") (map py_strip (split_commas (String.list_ascii_of_string s) []))).

Definition trusted_identity (now : Z) (tenant_id actor_id role_names : option string) : result Identity :=
  match tenant_id, actor_id, role_names with
  | Some t, Some a, Some r =>
      raise_if (bool_decide (t = "") || bool_decide (a = "")) (AuthenticationError "test identity headers are incomplete");;
      Ok (MkIdentity a t (header_roles r) ∅ (DT (now + 300000000) true) false)
  | _, _, _ => Err (AuthenticationError "test identity headers are incomplete")
  end.

Section authentication.
Context {Key : Type} (jwk_from_dict : document → result Key) (algorithm_name : Key → string).
Context (get_unverified_header : string → result document).
(** [jwt.decode] with its token, key, algorithm, audience and issuer *)
Context (jwt_decode : string → Key → string → option string → option string → result document).
Context (str_container : pyval → string).

Record jwks_entry := MkJwksEntry { expires_at : Z; keys : gmap string Key }.

(** One round of the loop over the fetched keys *)
Definition add_key (found : gmap string Key) (raw : pyval) : result (gmap string Key) :=
  match raw with
  | VDict d =>
      match od_get "kid" d with
      | Some (VStr kid) =>
          parsed ← jwk_from_dict d;
          Ok (if mem (algorithm_name parsed) ALGORITHMS then <[kid := parsed]> found else found)
      | _ => Ok found
      end
  | _ => Ok found
  end.

(** [fetched]: the JSON document that the endpoint answers, or the exception of the request; clocks count
    microseconds *)
Definition jwks_refresh (ttl now : Z) (fetched : result pyval) : result jwks_entry :=
  doc ← match fetched with
        | Err (ValueError _) => Err (AuthenticationError "OIDC JWKS endpoint is unavailable")
        | Err (OtherError tag) =>
            if bool_decide (tag = "HTTPError") then Err (AuthenticationError "OIDC JWKS endpoint is unavailable")
            else Err (OtherError tag)
        | r => r
        end;
  raw_keys ← match doc with
             | VDict d => match od_get "keys" d with Some (VList l) => Ok l | _ => Err (AuthenticationError "OIDC JWKS document is invalid") end
             | _ => Err (AuthenticationError "OIDC JWKS document is invalid")
             end;
  found ← foldM_result add_key raw_keys ∅;
  raise_if (bool_decide (found = ∅)) (AuthenticationError "OIDC JWKS contains no allowed signing keys");;
  Ok (MkJwksEntry (now + 1000000 * ttl) found).

Definition entry_usable (now : Z) (kid : string) (e : option jwks_entry) : bool :=
  match e with Some e => (now <? expires_at e) && negb (bool_decide (keys e !! kid = None)) | None => false end.

Definition jwks_get (ttl now : Z) (fetched : result pyval) (kid : string) : M (option jwks_entry) Key :=
  e ← mget;
  (if entry_usable now kid e then mret tt
   else e' ← mlift (jwks_refresh ttl now fetched); mput (Some e'));;
  e ← mget;
  mlift (of_option (AuthenticationError "JWT signing key is not trusted") (e ≫= λ e, keys e !! kid)).

(** [Authenticator.__init__]: whether there is a key cache *)
Definition jwks_configured (s : Settings) : result bool :=
  if bool_decide (auth_mode s = "oidc") && given (oidc_jwks_url s) then
    raise_if (negb (https (oidc_jwks_url s))) (ValueError "OIDC JWKS URL must use HTTPS");; Ok true
  else Ok false.

(** What the request and its surroundings are *)
Record auth_request := MkAuthRequest {
  authorization : option string; tenant_header : option string; actor_header : option string; roles_header : option string;
  peer_certificate : option string;
  (** the answer of the key endpoint if asked, the monotonic and the real clock in microseconds *)
  jwks_answer : result pyval; monotonic : Z; utc_now : Z
}.

Definition bearer_token (a : option string) : result string :=
  match a with
  | Some h =>
      raise_if (negb (String.prefix "Bearer " h)) (AuthenticationError "Bearer token is required");;
      let token := py_strip (String.substring 7 (String.length h - 7) h) in
      raise_if (bool_decide (token = "")
          || negb (bool_decide (length (base.filter (λ c, ord c = 46) (String.list_ascii_of_string token)) = 2%nat)))
        (AuthenticationError "Bearer token is malformed");;
      Ok token
  | None => Err (AuthenticationError "Bearer token is required")
  end.

(** The algorithm and the key id of a header whose signing method is trusted *)
Definition signing_method (header : document) (has_jwks : bool) : result (string * string) :=
  match get "alg" header, get "kid" header with
  | VList _, _ | VDict _, _ => Err TypeError
  | VStr alg, VStr kid =>
      raise_if (negb (mem alg ALGORITHMS) || negb has_jwks) (AuthenticationError "Bearer token signing method is not trusted");;
      Ok (alg, kid)
  | _, _ => Err (AuthenticationError "Bearer token signing method is not trusted")
  end.

(** [except (jwt.PyJWTError, PermissionError, ValueError)] *)
Definition invalid_token (e : exn) : bool :=
  match e with
  | PermissionError _ | AuthenticationError _ | ValueError _ => true
  | OtherError tag => bool_decide (tag = "PyJWTError")
  | _ => false
  end.

Definition verified_claims (s : Settings) (token : string) (key : Key) (alg : string) : result (document * Identity) :=
  match (claims ← jwt_decode token key alg (oidc_audience s) (oidc_issuer s);
         identity ← validate_sso_claims str_container claims (default "" (oidc_issuer s)) (default "" (oidc_audience s));
         Ok (claims, identity)) with
  | Err e => Err (if invalid_token e then AuthenticationError "Bearer token validation failed" else e)
  | r => r
  end.

(** The binding of a service account's token to the certificate of the peer *)
Definition certificate_binding (claims : document) (i : Identity) (peer : option string) : result unit :=
  if service_account i then
    match get "mtls_sha256" claims with
    | VStr bound =>
        raise_if (negb (given peer)) (AuthenticationError "service account token requires mTLS certificate binding");;
        same ← compare_digest (str_lower bound) (str_lower (default "" peer));
        raise_if (negb same) (AuthenticationError "service account certificate binding mismatch")
    | _ => Err (AuthenticationError "service account token requires mTLS certificate binding")
    end
  else Ok tt.

Definition authenticate (s : Settings) (has_jwks : bool) (q : auth_request) : M (option jwks_entry) Identity :=
  if bool_decide (auth_mode s = "trusted_headers") then
    mlift (trusted_identity (utc_now q) (tenant_header q) (actor_header q) (roles_header q))
  else
    token ← mlift (bearer_token (authorization q));
    header ← mlift (match get_unverified_header token with
                    | Err (OtherError tag) =>
                        if bool_decide (tag = "PyJWTError") then Err (AuthenticationError "Bearer token header is invalid")
                        else Err (OtherError tag)
                    | r => r
                    end);
    method ← mlift (signing_method header has_jwks);
    key ← jwks_get (oidc_jwks_ttl_seconds s) (monotonic q) (jwks_answer q) method.2;
    mguard (negb (bool_decide (algorithm_name key = method.1)))
      (AuthenticationError "Bearer token algorithm does not match signing key");;
    verified ← mlift (verified_claims s token key method.1);
    mlift (certificate_binding verified.1 verified.2 (peer_certificate q));;
    mret verified.2.

(** ** Request contexts: [apps/api/main.py] *)

Record ApiContext := MkContext {
  ctx_tenant : string; ctx_actor : string; ctx_roles : gset string; ctx_correlation : string;
  ctx_key : option string; ctx_if_match : option string
}.

Definition str_suffix (suffix s : string) : bool :=
  String.prefix (String.string_of_list_ascii (rev (String.list_ascii_of_string suffix)))
    (String.string_of_list_ascii (rev (String.list_ascii_of_string s))).

Definition admin_paths : list string := ["/v1/admin"; "/v1/tenants"; "/v1/users"; "/v1/roles"].
Definition route_roles (method path : string) : gset string :=
  if existsb (λ p, String.prefix p path) admin_paths then {["admin"; "tenant_admin"]}
  else if str_suffix "/execute" path then {["admin"; "operator"; "executor"]}
  else if mem method ["POST"; "PUT"; "PATCH"; "DELETE"] then
    {["admin"; "tenant_admin"; "operator"; "planner"; "model_admin"; "safety_admin"]}
  else {["admin"; "tenant_admin"; "operator"; "viewer"; "auditor"; "planner"; "model_admin"; "safety_admin"]}.

Definition authorize_request (method path : string) (rs : gset string) : result unit :=
  raise_if (bool_decide (rs = ∅)) (PermissionError "identity has no assigned role");;
  raise_if (bool_decide (rs ∩ route_roles method path = ∅)) (PermissionError "role is not authorized for this operation").

(** A request as [read_context] sees it; [uuid] is the identifier drawn when none is given *)
Record http_request := MkHttp {
  method : string; path : string; direct_certificate : option string; forwarded_certificate : option string;
  proxy_secret : option string; auth : option string; x_tenant_id : option string; x_actor_id : option string;
  x_roles : option string; x_correlation_id : option string; uuid : string;
  jwks_document : result pyval; clock_monotonic : Z; clock_utc : Z
}.

Definition read_context (s : Settings) (has_jwks : bool) (r : http_request) : M (option jwks_entry) ApiContext :=
  certificate ← mlift (forwarded_peer_certificate (direct_certificate r) (forwarded_certificate r) (proxy_secret r)
    (trusted_proxy_secret s));
  i ← authenticate s has_jwks (MkAuthRequest (auth r) (x_tenant_id r) (x_actor_id r) (x_roles r) certificate
    (jwks_document r) (clock_monotonic r) (clock_utc r));
  mguard (given (x_tenant_id r) && negb (bool_decide (x_tenant_id r = Some (identity_tenant i))))
    (PermissionError "tenant header does not match authenticated identity");;
  mlift (authorize_request (method r) (path r) (roles i));;
  mret (MkContext (identity_tenant i) (subject i) (roles i)
    (if given (x_correlation_id r) then default "" (x_correlation_id r) else uuid r) None None).

(** The [Idempotency-Key] header is required, with at least 8 characters. *)
Definition write_context (s : Settings) (has_jwks : bool) (r : http_request) (key if_match : option string)
    : M (option jwks_entry) ApiContext :=
  c ← read_context s has_jwks r;
  mguard (match key with Some k => (String.length k <? 8)%nat | None => true end) (OtherError "RequestValidationError");;
  mret (MkContext (ctx_tenant c) (ctx_actor c) (ctx_roles c) (ctx_correlation c) key if_match).
End authentication.

(** ** The status of an exception: the [exception_handler]s *)

Definition error_response (e : exn) : Z * string :=
  match e with
  | AuthenticationError _ => (401, "UNAUTHENTICATED")
  | PermissionError _ => (403, "FORBIDDEN")
  | KeyError _ => (404, "NOT_FOUND")
  | ValueError _ => (422, "VALIDATION_ERROR")
  | RuntimeError _ => (409, "CONFLICT")
  | _ => (500, "Internal Server Error")
  end.
Definition retryable (status : Z) : bool := 500 <=? status.

(** ** Authorization *)

Lemma dt_leb_ok a b r : dt_leb a b = Ok r ↔ aware a = aware b ∧ r = (us a <=? us b).
Proof. unfold dt_leb. destruct (aware a), (aware b); simpl; naive_solver. Qed.

(** Everything [authorize] asks of an identity *)
Definition authorized (i : Identity) (p : Policy) (resource_tenant : string) (now : datetime) : Prop :=
  us now < us (token_expires_at i) ∧ identity_tenant i = resource_tenant ∧
  (service_account i = true → allow_service_accounts p = true) ∧ roles i ∩ allowed_roles p ≠ ∅ ∧
  Forall (λ r, attributes i !! r.1 = Some r.2) (required_attributes p).

Lemma attribute_checks i l : foldM_result (λ _ r, attribute_check i r) l tt = Ok tt ↔ Forall (λ r, attributes i !! r.1 = Some r.2) l.
Proof.
  induction l as [|r l IH]; simpl; [done|]. rewrite Forall_cons, <- IH. unfold attribute_check, raise_if.
  case_bool_decide; simpl; naive_solver.
Qed.

Lemma attribute_denial i l e : foldM_result (λ _ r, attribute_check i r) l tt = Err e → ∃ msg, e = PermissionError msg.
Proof.
  induction l as [|r l IH]; simpl; [done|]. unfold attribute_check at 1, raise_if. case_bool_decide; simpl; [done|].
  intros [= <-]. eauto.
Qed.

(** Authorization decides exactly.  For times that compare, [authorize] returns true when the token has not
    expired, the resource belongs to the identity's tenant, a service account is welcome, some role of the
    identity is allowed and every required attribute has its value; otherwise it raises [PermissionError]. *)
Theorem authorize_exact (i : Identity) (p : Policy) (resource_tenant : string) (now : datetime)
    (Haware : aware (token_expires_at i) = aware now) :
  (authorize i p resource_tenant now = Ok true ∧ authorized i p resource_tenant now) ∨
  (∃ msg, authorize i p resource_tenant now = Err (PermissionError msg)) ∧ ¬ authorized i p resource_tenant now.
Proof.
  unfold authorize, authorized, raise_if, mbind, result_bind. rewrite (proj2 (dt_leb_ok _ _ _) (conj Haware eq_refl)).
  destruct (Z.leb_spec (us (token_expires_at i)) (us now)); [right; split; [eauto|lia]|].
  case_bool_decide; simpl; [|right; split; [eauto|tauto]].
  destruct (service_account i && negb (allow_service_accounts p)) eqn:Es.
  { right. split; [eauto|]. bprop. intros (_ & _ & Hsa & _). rewrite Hsa in *; done. }
  case_bool_decide; [right; split; [eauto|tauto]|]. pose proof (attribute_checks i (required_attributes p)) as Ha.
  destruct (foldM_result _ _ _) as [[]|e] eqn:Ef.
  - left. split; [done|]. split_and!; [done..| |done|tauto]. intros Hs. rewrite Hs in Es. by destruct (allow_service_accounts p).
  - right. destruct (attribute_denial _ _ _ Ef) as [msg ->]. split; [eauto|]. intros (_ & _ & _ & _ & Hf). by apply Ha in Hf.
Qed.

Lemma authorize_exact_witness :
  let i := MkIdentity "bob" "acme" {["operator"]} {["site" := "s1"]} (DT 100 true) false in
  authorize i (MkPolicy "plan" {["operator"; "admin"]} [("site", "s1")] false) "acme" (DT 99 true) = Ok true ∧
  ∃ msg, authorize i (MkPolicy "plan" {["operator"; "admin"]} [("site", "s2")] false) "acme" (DT 99 true) = Err (PermissionError msg).
Proof.
  intros i. split.
  - by destruct (authorize_exact i (MkPolicy "plan" {["operator"; "admin"]} [("site", "s1")] false) "acme" (DT 99 true) eq_refl)
      as [[H _]|[[msg H] _]]; [exact H|vm_compute in H].
  - destruct (authorize_exact i (MkPolicy "plan" {["operator"; "admin"]} [("site", "s2")] false) "acme" (DT 99 true) eq_refl)
      as [[H _]|[H _]]; [by vm_compute in H|exact H].
Defined.

(** ** The key cache *)

Section cache_facts.
Context {Key : Type} (jwk_from_dict : document → result Key) (algorithm_name : Key → string).

#[local] Abbreviation entry := (@jwks_entry Key).
#[local] Abbreviation get_key := (jwks_get jwk_from_dict algorithm_name).

(** [k] is a key of the fetched document, under [kid], with a trusted algorithm. *)
Definition published (doc : pyval) (kid : string) (k : Key) : Prop :=
  ∃ d l raw, doc = VDict d ∧ od_get "keys" d = Some (VList l) ∧ VDict raw ∈ l ∧ od_get "kid" raw = Some (VStr kid) ∧
    jwk_from_dict raw = Ok k ∧ algorithm_name k ∈ ALGORITHMS.

Lemma add_keys_published l found0 found : foldM_result (add_key jwk_from_dict algorithm_name) l found0 = Ok found →
  ∀ kid k, found !! kid = Some k → found0 !! kid = Some k ∨
    ∃ raw, VDict raw ∈ l ∧ od_get "kid" raw = Some (VStr kid) ∧ jwk_from_dict raw = Ok k ∧ algorithm_name k ∈ ALGORITHMS.
Proof.
  revert found0. induction l as [|raw l IH]; intros found0; simpl; [intros [= ->]; auto|].
  destruct (add_key _ _ found0 raw) as [found1|] eqn:Ea; [|done]. intros Hf kid k Hk.
  destruct (IH _ Hf kid k Hk) as [H1|(raw' & Hin & H)]; [|right; exists raw'; split; [by right|done]].
  unfold add_key in Ea. destruct raw as [| | | | | | |d]; try (injection Ea as <-; auto).
  destruct (od_get "kid" d) as [[| | | | |kid'| |]|] eqn:Ek; try (injection Ea as <-; auto).
  unfold mbind, result_bind in Ea. destruct (jwk_from_dict d) as [parsed|] eqn:Ep; [|done].
  destruct (mem (algorithm_name parsed) ALGORITHMS) eqn:Em; injection Ea as <-; [|by left].
  apply lookup_insert_Some in H1 as [[-> ->]|[_ H1]]; [|by left]. right. exists d.
  apply mem_true in Em. split_and!; [by left|done..].
Qed.

Lemma refresh_published ttl now fetched e : jwks_refresh jwk_from_dict algorithm_name ttl now fetched = Ok e →
  ∃ doc, fetched = Ok doc ∧ expires_at e = now + 1000000 * ttl ∧ ∀ kid k, keys e !! kid = Some k → published doc kid k.
Proof.
  unfold jwks_refresh, mbind, result_bind. destruct fetched as [doc|[]]; try done; [|by case_bool_decide].
  destruct doc as [| | | | | | |d]; try done. destruct (od_get "keys" d) as [[| | | | | |l|]|] eqn:Ek; try done.
  destruct (foldM_result _ l ∅) as [found|] eqn:Ef; [|done]. unfold raise_if. case_bool_decide; [done|]. intros [= <-].
  exists (VDict d). split_and!; [done..|]. simpl. intros kid k Hk.
  destruct (add_keys_published _ _ _ Ef kid k Hk) as [?|(raw & ? & ? & ? & ?)]; [by rewrite lookup_empty in H0|].
  by exists d, l, raw.
Qed.

(** A cache whose entry was fetched at most [ttl] before it expires, from a document of [fetches] *)
Definition cache_ok (ttl : Z) (fetches : list (Z * pyval)) (c : option entry) : Prop :=
  match c with
  | None => True
  | Some e => ∃ at_ doc, (at_, doc) ∈ fetches ∧ expires_at e = at_ + 1000000 * ttl ∧ ∀ kid k, keys e !! kid = Some k → published doc kid k
  end.

(** One lookup: the key it returns was published by a document fetched less than [ttl] seconds before (or just now). *)
Lemma jwks_get_fresh ttl now fetched kid c fetches : 0 < ttl → cache_ok ttl fetches c →
  ∃ fetches', (fetches' = fetches ∨ ∃ doc, fetched = Ok doc ∧ fetches' = fetches ++ [(now, doc)]) ∧
    cache_ok ttl fetches' (get_key ttl now fetched kid c).1 ∧
    ∀ k, (get_key ttl now fetched kid c).2 = Ok k →
      ∃ at_ doc, (at_, doc) ∈ fetches' ∧ now < at_ + 1000000 * ttl ∧ published doc kid k.
Proof.
  intros Httl Hc. unfold jwks_get, mbind, M_bind, mget. destruct (entry_usable now kid c) eqn:Eu.
  - exists fetches. split; [by left|]. split; [done|]. simpl. destruct c as [e|]; [|done]. simpl. intros k Hk.
    destruct (keys e !! kid) as [k'|] eqn:El; [|done]. injection Hk as <-. destruct Hc as (at_ & doc & Hin & He & Hp).
    exists at_, doc. split; [done|]. simpl in Eu. bprop. split; [lia|]. by apply Hp.
  - unfold mlift at 1. destruct (jwks_refresh _ _ ttl now fetched) as [e|err] eqn:Er; [|by exists fetches; split; [left|]].
    destruct (refresh_published _ _ _ _ Er) as (doc & -> & He & Hp). exists (fetches ++ [(now, doc)]). split; [right; by exists doc|].
    assert ((now, doc) ∈ fetches ++ [(now, doc)]) as Hin by set_solver.
    split; [by exists now, doc|]. simpl. intros k Hk. destruct (keys e !! kid) as [k'|] eqn:El; [|done]. injection Hk as <-.
    exists now, doc. split; [done|]. split; [lia|]. by apply Hp.
Qed.
End cache_facts.

Section lookups.
Context {Key : Type} (jwk_from_dict : document → result Key) (algorithm_name : Key → string) (ttl : Z).

(** A lookup: the clock, the answer of the endpoint if asked, the key id *)
Abbreviation lookup := (Z * result pyval * string)%type.

(** The cache after lookups one after the other *)
Definition cache_after (l : list lookup) : option (@jwks_entry Key) :=
  foldl (λ c q, (jwks_get jwk_from_dict algorithm_name ttl q.1.1 q.1.2 q.2 c).1) None l.

Lemma cache_after_ok l : 0 < ttl → ∃ fetches, cache_ok jwk_from_dict algorithm_name ttl fetches (cache_after l) ∧
  ∀ at_ doc, (at_, doc) ∈ fetches → ∃ kid, (at_, Ok doc, kid) ∈ l.
Proof.
  intros Httl. unfold cache_after. induction l as [|[[now fetched] kid] l IH] using rev_ind.
  { exists []. split; [done|]. by intros ? ? ?%elem_of_nil. }
  destruct IH as (fs & Hc & Hfs). rewrite foldl_snoc. simpl.
  destruct (jwks_get_fresh jwk_from_dict algorithm_name ttl now fetched kid _ fs Httl Hc) as (fs' & Hcase & Hc' & _).
  exists fs'. split; [done|]. intros at_ doc Hin. destruct Hcase as [->|(d & -> & ->)].
  - destruct (Hfs _ _ Hin) as [k Hk]. exists k. set_solver.
  - apply elem_of_app in Hin as [Hin|[= -> ->]%list_elem_of_singleton]; [|exists kid; set_solver].
    destruct (Hfs _ _ Hin) as [k Hk]. exists k. set_solver.
Qed.
End lookups.

(** Signing keys are current and of trusted algorithms.  Whatever lookups the key cache has served, a key
    returned for a key id was published under that id, with an asymmetric algorithm of the list, in a document
    that the endpoint answered to one of these lookups less than the time to live before. *)
Theorem jwks_keys_current {Key : Type} (jwk_from_dict : document → result Key) (algorithm_name : Key → string) (ttl : Z)
    (Httl : 0 < ttl) (earlier : list (Z * result pyval * string)) (now : Z) (fetched : result pyval) (kid : string) (key : Key)
    (Hkey : (jwks_get jwk_from_dict algorithm_name ttl now fetched kid (cache_after jwk_from_dict algorithm_name ttl earlier)).2 = Ok key) :
  ∃ at_ doc kid', (at_, Ok doc, kid') ∈ earlier ++ [(now, fetched, kid)] ∧ now < at_ + 1000000 * ttl ∧
    published jwk_from_dict algorithm_name doc kid key.
Proof.
  destruct (cache_after_ok jwk_from_dict algorithm_name ttl earlier Httl) as (fs & Hc & Hfs).
  destruct (jwks_get_fresh jwk_from_dict algorithm_name ttl now fetched kid _ fs Httl Hc) as (fs' & Hcase & _ & Hk).
  destruct (Hk key Hkey) as (at_ & doc & Hin & Hnow & Hp). destruct Hcase as [->|(d & -> & ->)].
  - destruct (Hfs _ _ Hin) as [k ?]. exists at_, doc, k. split; [set_solver|done].
  - apply elem_of_app in Hin as [Hin|[= -> ->]%list_elem_of_singleton].
    + destruct (Hfs _ _ Hin) as [k ?]. exists at_, doc, k. split; [set_solver|done].
    + exists now, d, kid. split; [set_solver|done].
Qed.

(** A toy library: a key is the text of its algorithm *)
Definition toy_jwk (d : document) : result string :=
  match get "alg" d with VStr a => Ok a | _ => Err (OtherError "PyJWTError") end.
Definition toy_document (alg : string) : pyval := VDict [("keys", VList [VDict [("kid", VStr "k1"); ("alg", VStr alg)]; VDict [("kid", VStr "k2"); ("alg", VStr "HS256")]])].

Lemma jwks_keys_current_witness :
  let earlier := [(0, Ok (toy_document "ES256"), "k1")] in
  (jwks_get toy_jwk id 300 5 (Err (OtherError "HTTPError")) "k1" (cache_after toy_jwk id 300 earlier)).2 = Ok "ES256" ∧
  ∃ at_ doc kid', (at_, Ok doc, kid') ∈ earlier ++ [(5, Err (OtherError "HTTPError"), "k1")] ∧ 5 < at_ + 1000000 * 300 ∧
    published toy_jwk id doc "k1" "ES256".
Proof.
  intros earlier.
  assert ((jwks_get toy_jwk id 300 5 (Err (OtherError "HTTPError")) "k1" (cache_after toy_jwk id 300 earlier)).2 = Ok "ES256") as H by by vm_compute.
  split; [exact H|]. apply (jwks_keys_current toy_jwk id 300 ltac:(lia) earlier 5 (Err (OtherError "HTTPError")) "k1" "ES256" H).
Defined.

(** A symmetric key is never trusted, and an expired document is fetched again. *)
Example jwks_samples :
  (jwks_get toy_jwk id 300 5 (Ok (toy_document "ES256")) "k2" None).2 = Err (AuthenticationError "JWT signing key is not trusted") ∧
  (jwks_get toy_jwk id 300 300000000 (Err (OtherError "HTTPError")) "k1" (cache_after toy_jwk id 300 [(0, Ok (toy_document "ES256"), "k1")])).2
    = Err (AuthenticationError "OIDC JWKS endpoint is unavailable").
Proof. by vm_compute. Qed.

(** ** What a request context rests on *)

Lemma authorize_request_ok m p rs : authorize_request m p rs = Ok tt ↔ rs ∩ route_roles m p ≠ ∅.
Proof.
  unfold authorize_request. rewrite guard_passed, guard_last, !bool_decide_eq_false. split; [tauto|]. intros H. split; [|done].
  intros ->. apply H. set_solver.
Qed.

Section context_facts.
Context {Key : Type} (jwk_from_dict : document → result Key) (algorithm_name : Key → string).
Context (get_unverified_header : string → result document).
Context (jwt_decode : string → Key → string → option string → option string → result document).
Context (str_container : pyval → string).

#[local] Abbreviation context_of := (read_context jwk_from_dict algorithm_name get_unverified_header jwt_decode str_container).

(** The identity [i] is backed by a verified token of the request. *)
Record verified (s : Settings) (r : http_request) (cache : option (@jwks_entry Key)) (i : Identity) : Prop := {
  v_proof : ∃ token key alg kid claims,
    bearer_token (auth r) = Ok token ∧ alg ∈ ALGORITHMS ∧ algorithm_name key = alg ∧
    (jwks_get jwk_from_dict algorithm_name (oidc_jwks_ttl_seconds s) (clock_monotonic r) (jwks_document r) kid cache).2 = Ok key ∧
    jwt_decode token key alg (oidc_audience s) (oidc_issuer s) = Ok claims ∧
    py_eq (get "iss" claims) (VStr (default "" (oidc_issuer s))) = true ∧
    audience_matches (get "aud" claims) (default "" (oidc_audience s)) = true ∧
    identity_tenant i = py_str str_container (get "tenant_id" claims) ∧ subject i = py_str str_container (get "sub" claims) ∧
    (service_account i = true → ∃ bound cert, get "mtls_sha256" claims = VStr bound ∧ str_lower bound = str_lower cert ∧
       (direct_certificate r = Some cert ∨ forwarded_certificate r = Some cert ∧ proxy_secret r = trusted_proxy_secret s ∧ given (proxy_secret r) = true))
}.

Lemma given_eq o : given o = true → ∃ x, o = Some x ∧ x ≠ "".
Proof. destruct o as [x|]; [|done]. simpl. intros H%negb_true_iff%bool_decide_eq_false. eauto. Qed.

Lemma forwarded_spec direct fwd supplied configured cert :
  forwarded_peer_certificate direct fwd supplied configured = Ok (Some cert) →
  direct = Some cert ∨ fwd = Some cert ∧ supplied = configured ∧ given supplied = true.
Proof.
  unfold forwarded_peer_certificate, mbind, result_bind. destruct (given direct) eqn:Ed; [intros [= ->]; by left|].
  destruct (given fwd) eqn:Ef; [|done]. destruct (given supplied) eqn:Es; [|done]. destruct (given configured) eqn:Ec; [|done]. simpl.
  unfold compare_digest. destruct (_ && _); [|done]. case_bool_decide as Hs; [|done]. intros [= ->]. right. split_and!; try done.
  destruct (given_eq _ Es) as (x & -> & _), (given_eq _ Ec) as (y & -> & _). simpl in Hs. congruence.
Qed.

Lemma claims_spec claims issuer audience i : validate_sso_claims str_container claims issuer audience = Ok i →
  py_eq (get "iss" claims) (VStr issuer) = true ∧ audience_matches (get "aud" claims) audience = true ∧
  identity_tenant i = py_str str_container (get "tenant_id" claims) ∧ subject i = py_str str_container (get "sub" claims).
Proof.
  unfold validate_sso_claims, raise_if, mbind, result_bind. guards. bprop.
  destruct (get "roles" claims); try done. destruct (default (VDict []) _); try done. guards.
  destruct (float_of_val _) as [f|]; [|done]. destruct (fromtimestamp f); [|done]. intros [= <-]. done.
Qed.

Lemma binding_spec claims i peer : certificate_binding claims i peer = Ok tt → service_account i = true →
  ∃ bound cert, peer = Some cert ∧ get "mtls_sha256" claims = VStr bound ∧ str_lower bound = str_lower cert.
Proof.
  unfold certificate_binding, raise_if, mbind, result_bind. intros H Hs. rewrite Hs in H. destruct (get "mtls_sha256" claims); try done.
  destruct (given peer) eqn:Ep; [|done]. simpl in H. unfold compare_digest in H. destruct (_ && _); [|done].
  case_bool_decide as Hb; [|done]. destruct (given_eq _ Ep) as (x & -> & _). eauto.
Qed.

Lemma oidc_authenticated s hj q cache cache' i : auth_mode s = "oidc" →
  authenticate jwk_from_dict algorithm_name get_unverified_header jwt_decode str_container s hj q cache = (cache', Ok i) →
  ∃ token key alg kid claims,
    bearer_token (authorization q) = Ok token ∧ alg ∈ ALGORITHMS ∧ algorithm_name key = alg ∧
    (jwks_get jwk_from_dict algorithm_name (oidc_jwks_ttl_seconds s) (monotonic q) (jwks_answer q) kid cache).2 = Ok key ∧
    jwt_decode token key alg (oidc_audience s) (oidc_issuer s) = Ok claims ∧
    validate_sso_claims str_container claims (default "" (oidc_issuer s)) (default "" (oidc_audience s)) = Ok i ∧
    certificate_binding claims i (peer_certificate q) = Ok tt.
Proof.
  intros Hm. unfold authenticate, mlift, mguard, raise_if, mbind, M_bind. rewrite bool_decide_false by (rewrite Hm; done).
  destruct (bearer_token (authorization q)) as [token|]; [|done].
  set (h := match get_unverified_header token with Ok _ => _ | Err _ => _ end). destruct h as [header|]; [|done].
  destruct (signing_method header hj) as [[alg kid]|] eqn:Em; [|done]. simpl.
  destruct (jwks_get _ _ _ _ _ kid cache) as [cache1 [key|]] eqn:Ek; [|done]. case_bool_decide as Ha; [|done]. simpl.
  destruct (verified_claims _ _ s token key alg) as [[claims i']|] eqn:Ev; [|done]. simpl.
  destruct (certificate_binding claims i' _) as [[]|] eqn:Eb; [|done]. intros [= _ <-].
  unfold verified_claims, mbind, result_bind in Ev. destruct (jwt_decode token key alg _ _) as [claims'|] eqn:Ed; [|done].
  destruct (validate_sso_claims _ claims' _ _) as [i''|] eqn:Es; [|done]. injection Ev as -> ->.
  exists token, key, alg, kid, claims. rewrite Ek. split_and!; try done.
  unfold signing_method, raise_if, mbind, result_bind in Em. destruct (get "alg" header); try done; destruct (get "kid" header); try done.
  destruct (mem s0 ALGORITHMS) eqn:E; [|done]. simpl in Em. destruct hj; [|done]. injection Em as <- _. by apply mem_true.
Qed.

End context_facts.

(** A toy JWT library: every token has the same header, and decodes under an ES256 key to these claims *)
Definition toy_header (token : string) : result document := Ok [("alg", VStr "ES256"); ("kid", VStr "k1")].
Definition toy_decode (token key alg : string) (audience issuer : option string) : result document :=
  if bool_decide (token = "a.b.c" ∧ key = "ES256" ∧ alg = "ES256") then
    Ok [("iss", VStr (default "" issuer)); ("aud", VList [VStr (default "" audience)]); ("sub", VStr "robot"); ("tenant_id", VStr "acme");
        ("roles", VList [VStr "operator"]); ("exp", VFloat (Dec 17 (-1)) "1.7"); ("service_account", VBool true); ("mtls_sha256", VStr "AB12")]
  else Err (OtherError "PyJWTError").
Definition toy_request (token secret : string) : http_request :=
  MkHttp "POST" "/v1/plans" None (Some "ab12") (Some secret) (Some ("Bearer " +:+ token)) (Some "acme") None None None "uuid-1"
    (Ok (toy_document "ES256")) 0 0.
Definition toy_settings : Settings :=
  match from_env (<["COMPUTEWEAVER_TRUSTED_PROXY_SECRET" := "shared"]> sample_env) with
  | Ok s => s
  | Err _ => MkSettings "" "" "" None None None None "" "" None None None 0 None 0 0 0 false None "" None None None
      (TlsFlag true) None None None None "" None None None false "" None ""
  end.
Definition toy_context (token secret : string) : result ApiContext :=
  (read_context toy_jwk id toy_header toy_decode (λ _, "") toy_settings true (toy_request token secret) None).2.


(** A certificate that an unknown proxy forwards is not taken, and the expiry keeps its fraction of a second. *)
Example context_samples :
  toy_context "a.b.c" "guess" = Err (AuthenticationError "service account token requires mTLS certificate binding") ∧
  toy_context "a.b" "shared" = Err (AuthenticationError "Bearer token is malformed") ∧
  token_expires_at <$> (claims ← toy_decode "a.b.c" "ES256" "ES256" (Some "aud") (Some "iss");
    validate_sso_claims (λ _, "") claims "iss" "aud") = Ok (DT 1700000 true).
Proof. by vm_compute. Qed.

(** ** Routes *)

Definition mutating : list string := ["POST"; "PUT"; "PATCH"; "DELETE"].

(** The roles a route needs.  A request passes the role check exactly when the identity has a role that the
    route allows; and then an administration path needs an administrator, an execution path a role that may
    execute, and a mutating request elsewhere a role that may write, which viewers and auditors are not. *)
Theorem route_roles_enforced (m p : string) (rs : gset string) :
  (authorize_request m p rs = Ok tt ↔ rs ∩ route_roles m p ≠ ∅) ∧
  (∀ e, authorize_request m p rs = Err e → ∃ msg, e = PermissionError msg) ∧
  (authorize_request m p rs = Ok tt → existsb (λ a, String.prefix a p) admin_paths = true →
     "admin" ∈ rs ∨ "tenant_admin" ∈ rs) ∧
  (authorize_request m p rs = Ok tt → m ∈ mutating → ¬ rs ⊆ {["viewer"; "auditor"]}).
Proof.
  split; [apply authorize_request_ok|]. split.
  { intros e. unfold authorize_request, raise_if, mbind, result_bind. repeat case_bool_decide; naive_solver. }
  split; intros H%authorize_request_ok; apply set_choose_L in H as [x Hx]; unfold route_roles in Hx.
  - intros Ha. rewrite Ha in Hx. set_solver.
  - intros Hm Hsub. apply mem_true in Hm. unfold mutating in Hm. rewrite Hm in Hx.
    destruct (existsb _ admin_paths); [set_solver|]. destruct (str_suffix _ _); set_solver.
Qed.

(** The execution roles apply to every path that ends in [/execute], not only to actions: an executor, who may
    not write artifacts, may write those whose key ends so, and a planner, who may, may not. *)
Theorem execute_suffix_widens :
  authorize_request "PUT" "/v1/artifacts/report" {["executor"]} = Err (PermissionError "role is not authorized for this operation") ∧
  authorize_request "PUT" "/v1/artifacts/report/execute" {["executor"]} = Ok tt ∧
  authorize_request "PUT" "/v1/artifacts/report" {["planner"]} = Ok tt ∧
  authorize_request "PUT" "/v1/artifacts/report/execute" {["planner"]} = Err (PermissionError "role is not authorized for this operation").
Proof. by vm_compute. Qed.

(** One key of an unsupported kind in the fetched document stops authentication with every key. *)
Theorem unsupported_key_blocks_all {Key : Type} (jwk_from_dict : document → result Key) (algorithm_name : Key → string)
    (ttl now : Z) (kid : string) (raw : document) (before after : list pyval) (e : exn)
    (Hkid : ∃ k, od_get "kid" raw = Some (VStr k)) (Hbad : jwk_from_dict raw = Err e)
    (Hbefore : is_ok (foldM_result (add_key jwk_from_dict algorithm_name) before ∅) = true) :
  (jwks_get jwk_from_dict algorithm_name ttl now (Ok (VDict [("keys", VList (before ++ VDict raw :: after))])) kid None).2 = Err e.
Proof.
  destruct Hkid as [k Hk]. unfold jwks_get, jwks_refresh, mbind, M_bind, result_bind, mget, mlift. simpl.
  rewrite foldM_result_app. destruct (foldM_result _ before ∅) as [found|]; [|done]. simpl. rewrite Hk.
  unfold mbind, result_bind. by rewrite Hbad.
Qed.

Lemma unsupported_key_blocks_all_witness :
  (jwks_get toy_jwk id 300 0 (Ok (VDict [("keys", VList ([VDict [("kid", VStr "k1"); ("alg", VStr "ES256")]] ++ VDict [("kid", VStr "k9")] :: []))])) "k1" None).2
  = Err (OtherError "PyJWTError").
Proof. apply unsupported_key_blocks_all; [by exists "k9"|reflexivity|reflexivity]. Defined.
