(* ===== verification/Workloads.v ===== *)
(** * Workloads: [packages/workloads]

    [models.py]: jobs, their resource requests and SLAs; [state_machine.py]: the job
    lifecycle and the dependency-graph check; [sla.py]: SLA evaluation.  A
    [frozenset] whose iteration order is visible (the dependencies walked by the
    graph check) is any enumeration of its elements. *)
From S2P Require Import Prelude PyDecimal Domain.
Local Open Scope Z_scope.

(** ** models.py *)

Inductive WorkloadClass : Type :=
| TRAINING | FINE_TUNING | RL | BATCH_INFERENCE | ONLINE_INFERENCE | PREPROCESSING | EVALUATION.
#[global] Instance WorkloadClass_eq_dec : EqDecision WorkloadClass.
Proof. solve_decision. Defined.

Record ResourceRequest := MkResourceRequest {
  gpu_count : Z;
  gpu_model : option string;
  cpu_cores : Z;
  memory_gb : dec;
  estimated_hours : dec;
  power_kw_per_gpu : dec
}.

(** The constructor's [__post_init__] check *)
Definition resource_request_check (r : ResourceRequest) : result ResourceRequest :=
  if (gpu_count r <? 0) || (cpu_cores r <? 0) then Err (ValueError "resource counts cannot be negative")
  else if dleb (estimated_hours r) (dint 0) then Err (ValueError "estimated runtime must be positive")
  else Ok r.

Record Sla := MkSla {
  deadline : datetime;
  priority : Z;
  max_latency_ms : option Z;
  availability_target : option dec
}.

Definition sla_check (s : Sla) : result Sla :=
  if negb ((0 <=? priority s) && (priority s <=? 100)) then Err (ValueError "priority must be in [0, 100]")
  else Ok s.

Record Job := MkJob {
  job_id : string;
  job_tenant_id : string;
  project_id : string;
  workload_class : WorkloadClass;
  request : ResourceRequest;
  sla : Sla;
  submitted_at : datetime;
  allowed_sites : gset string;
  data_regions : gset string;
  dependencies : list string;
  checkpointable : bool;
  labels : list (string * string)
}.

(** ** state_machine.py *)

Inductive JobState : Type :=
| SUBMITTED | ADMITTED | REJECTED | QUEUED | RUNNING | PAUSED
| CANCELLING | CANCELLED | SUCCEEDED | FAILED | COMPENSATING.
#[global] Instance JobState_eq_dec : EqDecision JobState.
Proof. solve_decision. Defined.

Definition TRANSITIONS (s : JobState) : list JobState :=
  match s with
  | SUBMITTED => [ADMITTED; REJECTED; CANCELLED]
  | ADMITTED => [QUEUED; CANCELLED]
  | REJECTED => []
  | QUEUED => [RUNNING; CANCELLED; FAILED]
  | RUNNING => [PAUSED; CANCELLING; SUCCEEDED; FAILED]
  | PAUSED => [RUNNING; CANCELLED; FAILED]
  | CANCELLING => [CANCELLED; COMPENSATING]
  | COMPENSATING => [CANCELLED; FAILED]
  | CANCELLED | SUCCEEDED | FAILED => []
  end.

Definition transition (current target : JobState) : result JobState :=
  if negb (mem target (TRANSITIONS current)) then Err (ValueError "invalid job transition")
  else Ok target.

(** [by_id = {job.id: job for job in jobs}], keeping the dependencies. *)
Definition deps_by_id (jobs : list (string * list string)) : list (string * list string) :=
  foldl (λ d job, od_set job.1 job.2 d) [] jobs.

(** The recursive [visit] with its sets [visiting] and [visited]; [fuel] bounds the
    recursion depth. *)
Fixpoint visit (fuel : nat) (by_id : list (string * list string))
    (st : gset string * gset string) (job : string) : result (gset string * gset string) :=
  match fuel with
  | O => Err (OtherError "recursion depth")
  | S fuel' =>
      let '(visiting, visited) := st in
      if bool_decide (job ∈ visiting) then Err (ValueError "job dependency cycle")
      else if bool_decide (job ∈ visited) then Ok st
      else match od_get job by_id with
           | None => Err (ValueError ("unknown dependency " +:+ job))
           | Some deps =>
               st' ← foldM_result (visit fuel' by_id) deps ({[job]} ∪ visiting, visited);
               Ok (st'.1 ∖ {[job]}, {[job]} ∪ st'.2)
           end
  end.

Definition validate_dependency_graph (jobs : list (string * list string)) : result unit :=
  let by_id := deps_by_id jobs in
  foldM_result (visit (S (length by_id)) by_id) (by_id.*1) (∅, ∅);; Ok tt.

(** ** sla.py *)

Record SlaObservation := MkSlaObservation {
  observed_at : datetime;
  completed_at : option datetime;
  latency_ms : option Z;
  availability : option dec
}.

Record SlaEvaluation := MkSlaEvaluation { met : bool; violations : list string; at_risk : bool }.

Definition evaluate_sla (s : Sla) (o : SlaObservation) (risk_window_seconds : Z) : result SlaEvaluation :=
  if negb (aware (observed_at o)) || negb (aware (deadline s))
  then Err (ValueError "SLA timestamps must be timezone-aware")
  else if risk_window_seconds <? 0 then Err (ValueError "risk window cannot be negative")
  else
    missed ← match completed_at o with None => Ok false | Some c => dt_ltb (deadline s) c end;
    let v1 := if (missed : bool) then ["DEADLINE_MISSED"] else [] in
    let v2 := match max_latency_ms s, latency_ms o with
              | Some m, Some l => if m <? l then ["LATENCY_EXCEEDED"] else []
              | _, _ => []
              end in
    let risk := match completed_at o with
                | None => us (deadline s) - us (observed_at o) <=? risk_window_seconds * 1000000
                | Some _ => false
                end in
    Ok (MkSlaEvaluation (bool_decide (v1 ++ v2 = [])) (v1 ++ v2) risk).

(** ** The job lifecycle *)

Definition job_step (s t : JobState) : Prop := transition s t = Ok t.
Definition terminal (s : JobState) : bool := bool_decide (TRANSITIONS s = []).

#[global] Instance job_step_dec s t : Decision (job_step s t).
Proof. unfold job_step. apply _. Defined.

(** A history: the states a job went through, oldest first. *)
Fixpoint history_ok (s : JobState) (l : list JobState) : Prop :=
  match l with [] => True | t :: l' => job_step s t ∧ history_ok t l' end.

Lemma terminal_no_step s t : terminal s = true → ¬ job_step s t.
Proof. destruct s, t; by vm_compute. Qed.

Lemma reaches_terminal s : ∃ t, terminal t = true ∧ rtc job_step s t.
Proof.
  assert (∀ a b, job_step a b → rtc job_step a b) as H1 by apply rtc_once.
  destruct s; try (eexists; split; [|apply rtc_refl]; reflexivity);
    exists CANCELLED; (split; [reflexivity|]);
    solve [apply H1; reflexivity
          |apply rtc_l with CANCELLING; [reflexivity|apply H1; reflexivity]].
Qed.

Lemma history_terminal s l : terminal s = true → history_ok s l → l = [].
Proof. destruct l as [|t l]; [done|]. intros Hs [Ht _]. by apply terminal_no_step in Ht. Qed.

(** Once running, a job has been admitted and queued. *)
Lemma history_running l : history_ok SUBMITTED l → RUNNING ∈ l → ADMITTED ∈ l ∧ QUEUED ∈ l.
Proof.
  destruct l as [|t l]; [set_solver|]. intros [Ht H] Hin.
  destruct t; try discriminate Ht;
    try (apply history_terminal in H; [|reflexivity]; subst; set_solver).
  destruct l as [|t l]; [set_solver|]. destruct H as [Ht2 H].
  destruct t; try discriminate Ht2;
    try (apply history_terminal in H; [|reflexivity]; subst; set_solver).
  set_solver.
Qed.

Lemma history_app s l1 t l2 : history_ok s (l1 ++ t :: l2) → history_ok t l2 ∧
  job_step (default s (last l1)) t.
Proof.
  revert s. induction l1 as [|u l1 IH]; intros s; simpl; [naive_solver|].
  intros [Hu H]. specialize (IH _ H) as [? IH]. split; [done|].
  rewrite last_cons. by destruct (last l1).
Qed.

Lemma history_not_submitted s l : history_ok s l → SUBMITTED ∉ l.
Proof.
  revert s. induction l as [|t l IH]; intros s; simpl; [set_solver|].
  intros [Ht H] [<-|Hin]%elem_of_cons; [by destruct s|by eapply IH].
Qed.

(** the job lifecycle.  A terminal state (rejected, cancelled, succeeded,
    failed) refuses every transition; from every state some terminal state can be
    reached; and in any history from submission a job that runs was admitted and
    queued before, succeeds only out of [RUNNING], and is rejected only directly
    at submission. *)
Theorem job_lifecycle :
  (∀ s t, terminal s = true → transition s t = Err (ValueError "invalid job transition")) ∧
  (∀ s, ∃ t, terminal t = true ∧ rtc job_step s t) ∧
  (∀ l, history_ok SUBMITTED l →
    (∀ l1 l2, l = l1 ++ RUNNING :: l2 → ADMITTED ∈ l1 ∧ QUEUED ∈ l1) ∧
    (∀ l1 l2, l = l1 ++ SUCCEEDED :: l2 → last l1 = Some RUNNING ∧ l2 = []) ∧
    (∀ l1 l2, l = l1 ++ REJECTED :: l2 → l1 = [] ∧ l2 = [])).
Proof.
  split_and!; [by intros [] []|apply reaches_terminal|].
  intros l Hl. split_and!; intros l1 l2 ->.
  - assert (history_ok SUBMITTED (l1 ++ [RUNNING])) as H.
    { clear -Hl. revert Hl. generalize SUBMITTED. induction l1; simpl; naive_solver. }
    apply history_running in H; [|set_solver]. set_solver.
  - apply history_app in Hl as [H Hs]. apply history_terminal in H; [|reflexivity].
    split; [|done]. destruct (last l1) as [[]|]; vm_compute in Hs; congruence.
  - pose proof Hl as Hl0. apply history_app in Hl as [H Hs]. apply history_terminal in H; [|reflexivity].
    split; [|done]. destruct (last l1) as [[]|] eqn:E; try discriminate Hs.
    + exfalso. apply last_Some_elem_of in E. eapply (history_not_submitted SUBMITTED); [exact Hl0|].
      set_solver.
    + by apply last_None.
Qed.

(** ** The dependency graph check *)

Section dependency_graph.
Context (by_id : list (string * list string)).

Definition known (a : string) : Prop := a ∈ by_id.*1.
Definition depends (a b : string) : Prop := ∃ deps, od_get a by_id = Some deps ∧ b ∈ deps.

(** Every dependency names a job and no job depends on itself, directly or not. *)
Definition graph_ok : Prop :=
  (∀ a b, depends a b → known b) ∧ (∀ a, ¬ tc depends a a).

Definition known_set : gset string := list_to_set by_id.*1.

Lemma known_get a : known a ↔ ∃ deps, od_get a by_id = Some deps.
Proof.
  unfold known. pose proof (od_get_None a by_id) as Hn.
  destruct (od_get a by_id) as [deps|] eqn:E.
  - split; [eauto|]. intros _. destruct (decide (a ∈ by_id.*1)) as [|n]; [done|].
    apply Hn in n. done.
  - split; [tauto|]. by intros [? ?].
Qed.

(** A set of jobs whose dependencies stay in it and which carries no cycle. *)
Definition closed_acyclic (V : gset string) : Prop := (∀ a, a ∈ V → known a) ∧ closed_no_cycle depends V.

Lemma closed_acyclic_add V a :
  closed_acyclic V → known a → a ∉ V → (∀ b, depends a b → b ∈ V) → closed_acyclic ({[a]} ∪ V).
Proof. intros [H1 H2] Hk Ha Hd. split; [set_solver|]. by apply closed_no_cycle_add. Qed.

(** What one successful [visit] guarantees of the state it is given. *)
Definition visit_post (st st' : gset string * gset string) : Prop :=
  st'.1 = st.1 ∧ st.2 ⊆ st'.2 ∧ (closed_acyclic st.2 → closed_acyclic st'.2) ∧
  (∀ x, x ∈ st'.2 → x ∈ st.2 ∨ x ∉ st.1).

Lemma visit_fold_sound (f : gset string * gset string → string → result (gset string * gset string)) l st st' :
  (∀ st x st', f st x = Ok st' → visit_post st st' ∧ x ∈ st'.2) →
  foldM_result f l st = Ok st' → visit_post st st' ∧ ∀ x, x ∈ l → x ∈ st'.2.
Proof.
  intros Hf. revert st. induction l as [|x l IH]; intros st; simpl.
  - intros [= <-]. split; [|set_solver]. unfold visit_post; split_and!; auto.
  - destruct (f st x) as [st1|] eqn:E; [|done]. intros H.
    apply Hf in E as [(E1 & E2 & E3 & E4) Hx]. apply IH in H as [(F1 & F2 & F3 & F4) Hl].
    split; [|set_solver]. split_and!; [congruence|set_solver|auto|].
    intros y Hy. destruct (F4 y Hy) as [Hy'|Hy']; [naive_solver|]. rewrite E1 in Hy'. naive_solver.
Qed.

Lemma visit_sound fuel st job st' :
  visit fuel by_id st job = Ok st' → visit_post st st' ∧ job ∈ st'.2.
Proof.
  revert st job st'. induction fuel as [|fuel IH]; intros [visiting visited] job st'; simpl; [done|].
  case_bool_decide as Hv; [done|]. case_bool_decide as Hd.
  { intros [= <-]. split; [|done]. unfold visit_post; split_and!; auto. }
  destruct (od_get job by_id) as [deps|] eqn:Ed; [|done]. munfold.
  destruct (foldM_result _ _ _) as [[vg vd]|] eqn:Ef; [|done]. intros [= <-].
  apply visit_fold_sound in Ef as [(F1 & F2 & F3 & F4) Hl]; [|exact IH]. simpl in *.
  assert (job ∉ vd) as Hnj by (intros Hj; destruct (F4 job Hj); set_solver).
  split; [|set_solver]. unfold visit_post. simpl. split_and!.
  - rewrite F1. set_solver.
  - set_solver.
  - intros HV. apply closed_acyclic_add; [auto| |done|].
    + apply known_get. eauto.
    + intros b (deps' & Hd' & Hb). simplify_eq. auto.
  - intros x Hx. apply elem_of_union in Hx as [->%elem_of_singleton|Hx]; [by right|].
    destruct (F4 x Hx); set_solver.
Qed.

(** With a sound graph, [visit] succeeds when the jobs being visited are
    ancestors of the job and the remaining depth covers the unvisited ones. *)
Lemma visit_complete fuel st job :
  graph_ok → known job → st.1 ⊆ known_set → (∀ a, a ∈ st.1 → tc depends a job) →
  (size known_set < fuel + size st.1)%nat →
  ∃ st', visit fuel by_id st job = Ok st'.
Proof.
  intros [Hcl Hac]. revert st job. induction fuel as [|fuel IH]; intros [visiting visited] job Hk Hsub Hanc Hsz;
    simpl in *.
  { apply subseteq_size in Hsub. lia. }
  case_bool_decide as Hv. { exfalso. eapply Hac, Hanc, Hv. }
  case_bool_decide as Hd; [eauto|].
  pose proof Hk as [deps Ed]%known_get. rewrite Ed. munfold.
  assert (∀ l st, (∀ b, b ∈ l → depends job b) → st.1 = {[job]} ∪ visiting →
            ∃ st', foldM_result (visit fuel by_id) l st = Ok st') as Hfold.
  { induction l as [|b l IHl]; intros st Hl Hst; simpl; [eauto|].
    assert (depends job b) as Hb by (apply Hl; left).
    destruct (IH st b) as [st1 E1].
    - by eapply Hcl.
    - rewrite Hst. unfold known_set, known in *. set_solver.
    - intros a. rewrite Hst. intros [->%elem_of_singleton|Ha]%elem_of_union; [by apply tc_once|].
      eapply tc_r; [by apply Hanc|done].
    - rewrite Hst, size_union, size_singleton by set_solver. lia.
    - rewrite E1. apply IHl; [intros; apply Hl; by right|].
      apply visit_sound in E1 as [(-> & _) _]. done. }
  destruct (Hfold deps ({[job]} ∪ visiting, visited)) as [st' ->]; [|done|eauto].
  intros b Hb. by exists deps.
Qed.

(** The depth bound is never the reason of a failure. *)
Lemma visit_error fuel st job e :
  st.1 ⊆ known_set → (size known_set < fuel + size st.1)%nat →
  visit fuel by_id st job = Err e → ∃ msg, e = ValueError msg.
Proof.
  revert st job e. induction fuel as [|fuel IH]; intros [visiting visited] job e Hsub Hsz; simpl in *.
  { apply subseteq_size in Hsub. lia. }
  case_bool_decide as Hv; [naive_solver|]. case_bool_decide as Hd; [done|].
  destruct (od_get job by_id) as [deps|] eqn:Ed; [|naive_solver]. munfold.
  assert (∀ l st e, st.1 = {[job]} ∪ visiting →
            foldM_result (visit fuel by_id) l st = Err e → ∃ msg, e = ValueError msg) as Hfold.
  { induction l as [|b l IHl]; intros st e' Hst; simpl; [done|].
    destruct (visit fuel by_id st b) as [st1|e1] eqn:E1.
    - apply IHl. apply visit_sound in E1 as [(-> & _) _]. done.
    - intros [= <-]. eapply (IH st b); [| |exact E1]; rewrite Hst.
      + assert (known job) by (apply known_get; eauto). unfold known_set, known in *. set_solver.
      + rewrite size_union, size_singleton by set_solver. lia. }
  destruct (foldM_result _ _ _) as [?|e'] eqn:Ef; [done|]. intros [= <-].
  by eapply Hfold; [|exact Ef].
Qed.

Lemma size_known_set : NoDup by_id.*1 → size known_set = length by_id.
Proof. intros Hnd. unfold known_set. rewrite size_list_to_set by done. apply length_fmap. Qed.
End dependency_graph.

Lemma deps_by_id_NoDup jobs : NoDup (deps_by_id jobs).*1.
Proof.
  unfold deps_by_id. assert (∀ l d, NoDup d.*1 →
    NoDup (foldl (λ d (job : string * list string), od_set job.1 job.2 d) d l).*1) as H.
  { induction l as [|x l IH]; intros d Hd; simpl; [done|]. by apply IH, od_set_NoDup. }
  apply H. constructor.
Qed.

(** C39: the dependency check accepts a set of jobs exactly when every dependency
    names one of the jobs and the dependency graph has no cycle; it always
    returns, and what it raises is a [ValueError]. *)
Theorem validate_dependency_graph_correct (jobs : list (string * list string)) :
  (validate_dependency_graph jobs = Ok tt ↔ graph_ok (deps_by_id jobs)) ∧
  (∀ e, validate_dependency_graph jobs = Err e → ∃ msg, e = ValueError msg).
Proof.
  pose proof (deps_by_id_NoDup jobs) as Hnd.
  unfold validate_dependency_graph. set (g := deps_by_id jobs) in *.
  remember (S (length g)) as n eqn:Hn. munfold. split; [split|].
  - destruct (foldM_result _ _ _) as [st|] eqn:E; [|done]. intros _.
    apply (visit_fold_sound g) in E as [(_ & _ & HV & _) Hall]; [|apply visit_sound].
    destruct HV as (H1 & H2 & H3); [repeat split; set_solver|].
    assert (∀ a b, depends g a b → known g a) as Hka.
    { intros a b (deps & Hd & _). apply known_get. eauto. }
    split.
    + intros a b Hab. eapply H1, H2; [|done]. apply Hall. by eapply Hka.
    + intros a Ht. eapply H3; [|exact Ht]. apply Hall.
      inversion Ht; subst; by eapply Hka.
  - intros Hg.
    assert (∀ l st, (∀ b, b ∈ l → known g b) → st.1 = ∅ →
      ∃ st', foldM_result (visit n g) l st = Ok st') as Hfold.
    { induction l as [|b l IHl]; intros st Hl Hst; simpl foldM_result; [eauto|].
      destruct (visit_complete g n st b) as [st1 E1]; [done|apply Hl; left|..].
      - rewrite Hst. set_solver.
      - rewrite Hst. set_solver.
      - rewrite Hst, size_known_set by done. simpl. lia.
      - rewrite E1. apply IHl; [intros; apply Hl; by right|].
        apply visit_sound in E1 as [(-> & _) _]. done. }
    destruct (Hfold (g.*1) (∅, ∅)) as [st' ->]; done.
  - intros e.
    assert (∀ l st, st.1 = ∅ → foldM_result (visit n g) l st = Err e →
      ∃ msg, e = ValueError msg) as Hfold.
    { induction l as [|b l IHl]; intros st Hst; simpl foldM_result; [done|].
      destruct (visit n g st b) as [st1|e1] eqn:E1.
      - apply IHl. apply visit_sound in E1 as [(-> & _) _]. done.
      - intros [= <-]. eapply (visit_error g); [| |exact E1]; rewrite Hst; [set_solver|].
        rewrite size_known_set by done. simpl. lia. }
    destruct (foldM_result _ _ _) as [?|e'] eqn:Ef; [done|]. intros [= <-].
    by eapply Hfold; [|exact Ef].
Qed.

Example dependency_cycle_rejected :
  validate_dependency_graph [("a", ["b"]); ("b", ["a"])] = Err (ValueError "job dependency cycle").
Proof. reflexivity. Qed.
Example dependency_dag_accepted :
  validate_dependency_graph [("a", ["b"; "c"]); ("b", ["c"]); ("c", [])] = Ok tt.
Proof. reflexivity. Qed.
