(* ===== verification/Quota.v ===== *)
(** * Quota ledger: [packages/workloads/quota.py]

    [QuotaLedger] has two backends.  The [mem_] definitions are the in-process one
    (three dicts under a lock), the [pg_] ones the PostgreSQL one: its tables
    [quota_ledgers] and [quota_reservations] are finite maps, each SQL statement is
    its effect on them, and a [with tenant_connection] block runs as one
    transaction ([Transactional]).  SQL [numeric] addition is exact; Python's
    [Decimal] addition rounds to 28 digits.  The range of SQL [integer] (a query
    error beyond 2^31) is not modelled.

    The typeclass [QuotaService] is what the admission service relies on; both
    backends discharge it. *)
From S2P Require Import Prelude PyDecimal Domain.
From Stdlib Require Import QArith Lqa.
Local Open Scope Z_scope.
#[local] Arguments Qeq : simpl never.
#[local] Arguments Qplus : simpl never.
#[local] Arguments Qle : simpl never.

Record Quota := MkQuota { max_gpus : Z; max_gpu_hours : dec; max_concurrent_jobs : Z }.

(** [min(quota.max_gpus, quota.max_concurrent_jobs) < 0 or quota.max_gpu_hours < 0] *)
Definition quota_negative (q : Quota) : bool :=
  (Z.min (max_gpus q) (max_concurrent_jobs q) <? 0) || dltb (max_gpu_hours q) (dint 0).

Definition usage_row : Type := Z * dec * Z.
Definition no_usage : usage_row := (0, dint 0, 0).

(** [if reservation_key]: [None] and the empty string are false. *)
Definition truthy (key : option string) : option string :=
  match key with Some k => if bool_decide (k = "") then None else Some k | None => None end.

(** Whether a demand equals a recorded one. *)
Definition same_demand (r : Z * dec) (gpus : Z) (gpu_hours : dec) : bool :=
  (r.1 =? gpus) && deqb r.2 gpu_hours.

(** ** The in-process backend *)

Record mem_ledger := MemLedger {
  mem_quotas : gmap string Quota;
  mem_used : gmap string usage_row;
  mem_reservations : gmap (string * string) (Z * dec)
}.
Definition mem_init : mem_ledger := MemLedger ∅ ∅ ∅.

Definition mem_usage (s : mem_ledger) (tenant : string) : usage_row := default no_usage (mem_used s !! tenant).

Definition mem_configure (tenant : string) (q : Quota) : M mem_ledger unit :=
  mguard (quota_negative q) (ValueError "quota limits cannot be negative");;
  s ← mget;
  let '(g, h, j) := mem_usage s tenant in
  mguard ((max_gpus q <? g) || dltb (max_gpu_hours q) h || (max_concurrent_jobs q <? j))
    (RuntimeError "quota limits cannot be reduced below current usage");;
  mput (MemLedger (<[tenant := q]> (mem_quotas s)) (mem_used s) (mem_reservations s)).

Definition mem_reserve (tenant : string) (gpus : Z) (gpu_hours : dec) (key : option string) : M mem_ledger bool :=
  mguard ((gpus <? 0) || dltb gpu_hours (dint 0)) (ValueError "quota reservation cannot be negative");;
  s ← mget;
  match k ← truthy key; mem_reservations s !! (tenant, k) with
  | Some existing =>
      mguard (negb (same_demand existing gpus gpu_hours))
        (ValueError "quota reservation key reused with different demand");;
      mret true
  | None =>
      match mem_quotas s !! tenant with
      | None => mret false
      | Some q =>
          let '(g, h, j) := mem_usage s tenant in
          if (max_gpus q <? g + gpus) || dltb (max_gpu_hours q) (dadd h gpu_hours)
             || (max_concurrent_jobs q <? j + 1)
          then mret false
          else
            mput (MemLedger (mem_quotas s)
              (<[tenant := (g + gpus, dadd h gpu_hours, j + 1)]> (mem_used s))
              (match truthy key with
               | Some k => <[(tenant, k) := (gpus, gpu_hours)]> (mem_reservations s)
               | None => mem_reservations s
               end));;
            mret true
      end
  end.

Definition mem_release (tenant : string) (gpus : Z) (gpu_hours : dec) (key : option string) : M mem_ledger unit :=
  s ← mget;
  match mem_used s !! tenant with
  | None => mraise (KeyError tenant)
  | Some (g, h, j) =>
      mput (MemLedger (mem_quotas s)
        (<[tenant := (Z.max 0 (g - gpus), dmax (dint 0) (dsub h gpu_hours), Z.max 0 (j - 1))]> (mem_used s))
        (mem_reservations s))
  end.

(** ** The PostgreSQL backend *)

Record ledger_row := MkLedger {
  lr_max_gpus : Z; lr_max_hours : dec; lr_max_jobs : Z;
  lr_gpus : Z; lr_hours : dec; lr_jobs : Z; lr_version : Z
}.
Record reservation_row := MkReservation { rr_gpus : Z; rr_hours : dec; rr_released : bool }.
Record pg_ledger := PgLedger {
  pg_ledgers : gmap string ledger_row;
  pg_reservations : gmap (string * string) reservation_row
}.
Definition pg_init : pg_ledger := PgLedger ∅ ∅.

Section operations.
Context (txn : ∀ S A, M S A → M S A).

(** [INSERT ... ON CONFLICT (tenant_id) DO UPDATE ... WHERE used <= EXCLUDED.max]:
    [RETURNING] yields no row when the [WHERE] of the update fails. *)
Definition pg_configure (tenant : string) (q : Quota) : M pg_ledger unit :=
  mguard (quota_negative q) (ValueError "quota limits cannot be negative");;
  txn _ _ (
    s ← mget;
    match pg_ledgers s !! tenant with
    | None =>
        mput (PgLedger
          (<[tenant := MkLedger (max_gpus q) (max_gpu_hours q) (max_concurrent_jobs q) 0 (dint 0) 0 1]>
            (pg_ledgers s)) (pg_reservations s))
    | Some r =>
        if (lr_gpus r <=? max_gpus q) && dleb (lr_hours r) (max_gpu_hours q)
           && (lr_jobs r <=? max_concurrent_jobs q)
        then
          mput (PgLedger
            (<[tenant := MkLedger (max_gpus q) (max_gpu_hours q) (max_concurrent_jobs q)
                 (lr_gpus r) (lr_hours r) (lr_jobs r) (lr_version r + 1)]> (pg_ledgers s)) (pg_reservations s))
        else mraise (RuntimeError "quota limits cannot be reduced below current usage")
    end).

Definition pg_reserve (tenant : string) (gpus : Z) (gpu_hours : dec) (key : option string) : M pg_ledger bool :=
  mguard ((gpus <? 0) || dltb gpu_hours (dint 0)) (ValueError "quota reservation cannot be negative");;
  match truthy key with
  | None => mraise (ValueError "persistent quota reservations require a key")
  | Some k =>
      txn _ _ (
        s ← mget;
        match pg_reservations s !! (tenant, k) with
        | Some prior =>
            mguard (negb (same_demand (rr_gpus prior, rr_hours prior) gpus gpu_hours))
              (ValueError "quota reservation key reused with different demand");;
            mret (negb (rr_released prior))
        | None =>
            match pg_ledgers s !! tenant with
            | None => mret false
            | Some r =>
                if (lr_gpus r + gpus <=? lr_max_gpus r)
                   && dleb (nadd (lr_hours r) gpu_hours) (lr_max_hours r)
                   && (lr_jobs r + 1 <=? lr_max_jobs r)
                then
                  mput (PgLedger
                    (<[tenant := MkLedger (lr_max_gpus r) (lr_max_hours r) (lr_max_jobs r)
                         (lr_gpus r + gpus) (nadd (lr_hours r) gpu_hours) (lr_jobs r + 1)
                         (lr_version r + 1)]> (pg_ledgers s))
                    (<[(tenant, k) := MkReservation gpus gpu_hours false]> (pg_reservations s)));;
                  mret true
                else mret false
            end
        end)
  end.

(** [greatest(0, x)] *)
Definition ngreatest0 (x : dec) : dec := if dltb (dint 0) x then x else dint 0.

Definition pg_release (tenant : string) (gpus : Z) (gpu_hours : dec) (key : option string) : M pg_ledger unit :=
  match truthy key with
  | None => mraise (ValueError "persistent quota pg_release requires a reservation key")
  | Some k =>
      txn _ _ (
        s ← mget;
        match pg_reservations s !! (tenant, k) with
        | Some row =>
            if negb (rr_released row) && same_demand (rr_gpus row, rr_hours row) gpus gpu_hours then
              mput (PgLedger
                (alter (λ r, MkLedger (lr_max_gpus r) (lr_max_hours r) (lr_max_jobs r)
                   (Z.max 0 (lr_gpus r - gpus)) (ngreatest0 (nsub (lr_hours r) gpu_hours))
                   (Z.max 0 (lr_jobs r - 1)) (lr_version r + 1)) tenant (pg_ledgers s))
                (<[(tenant, k) := MkReservation (rr_gpus row) (rr_hours row) true]> (pg_reservations s)))
            else mret tt
        | None => mret tt
        end)
  end.
End operations.

Definition pg_usage (s : pg_ledger) (tenant : string) : usage_row :=
  match pg_ledgers s !! tenant with
  | Some r => (lr_gpus r, lr_hours r, lr_jobs r)
  | None => no_usage
  end.

(** ** The promise to the admission service *)

(** Usage inside the limits of a quota. *)
Definition within (q : Quota) (u : usage_row) : Prop :=
  0 <= u.1.1 <= max_gpus q ∧ (0 <= dval u.1.2 <= dval (max_gpu_hours q))%Q ∧
  0 <= u.2 <= max_concurrent_jobs q.

Class QuotaService (S : Type) := {
  qs_reserve : string → Z → dec → option string → M S bool;
  qs_usage : S → string → usage_row;
  qs_limit : S → string → option Quota;
  qs_inv : S → Prop
}.

(** A reservation that is not granted (refused or raising) changes nothing; it only
    touches the tenant it names; a granted one leaves that tenant inside its limits;
    and the service's invariant is kept. *)
Class QuotaLaws (S : Type) `{QuotaService S} : Prop := {
  qs_reserve_inv t g h k s : qs_inv s → qs_inv (qs_reserve t g h k s).1;
  qs_reserve_refused t g h k s : (qs_reserve t g h k s).2 ≠ Ok true → (qs_reserve t g h k s).1 = s;
  qs_reserve_frame t g h k s t' : t' ≠ t → qs_usage (qs_reserve t g h k s).1 t' = qs_usage s t';
  qs_reserve_granted t g h k s : qs_inv s → (qs_reserve t g h k s).2 = Ok true →
    ∃ q, qs_limit (qs_reserve t g h k s).1 t = Some q ∧ within q (qs_usage (qs_reserve t g h k s).1 t)
}.

Lemma quota_negative_false q :
  quota_negative q = false → 0 <= max_gpus q ∧ (0 <= dval (max_gpu_hours q))%Q ∧ 0 <= max_concurrent_jobs q.
Proof.
  unfold quota_negative. intros H. bprop. dprop. rewrite dval_dint in *.
  change (inject_Z 0) with 0%Q in *. split_and!; [lia|done|lia].
Qed.

Lemma within_no_usage q : quota_negative q = false → within q no_usage.
Proof.
  intros (?&?&?)%quota_negative_false. unfold within, no_usage. simpl.
  rewrite dval_dint. change (inject_Z 0) with 0%Q. split_and!; lia || lra.
Qed.

(** ** Histories: calls a ledger serves one after the other

    The in-process ledger runs every call under its lock and the PostgreSQL one
    runs it as one transaction, so a history is a sequence; a caller that catches
    an exception goes on with the state the call left. *)
Inductive quota_op :=
| OpConfigure (tenant : string) (q : Quota)
| OpReserve (tenant : string) (gpus : Z) (gpu_hours : dec) (key : option string)
| OpRelease (tenant : string) (gpus : Z) (gpu_hours : dec) (key : option string).

(** [release] does not check its arguments; its callers pass demands that a
    [reserve] accepted. *)
Definition op_nonneg (o : quota_op) : Prop :=
  match o with OpRelease _ g h _ => 0 <= g ∧ (0 <= dval h)%Q | _ => True end.

Definition mem_step (s : mem_ledger) (o : quota_op) : mem_ledger :=
  match o with
  | OpConfigure t q => (mem_configure t q s).1
  | OpReserve t g h k => (mem_reserve t g h k s).1
  | OpRelease t g h k => (mem_release t g h k s).1
  end.

Definition pg_step (txn : ∀ S A, M S A → M S A) (s : pg_ledger) (o : quota_op) : pg_ledger :=
  match o with
  | OpConfigure t q => (pg_configure txn t q s).1
  | OpReserve t g h k => (pg_reserve txn t g h k s).1
  | OpRelease t g h k => (pg_release txn t g h k s).1
  end.

(** ** The in-process ledger stays inside its quotas *)

(** Every configured quota is non-negative; a tenant with usage has a quota, its
    usage is inside it and its hours are a 28-digit decimal; a tenant with a
    reservation has a quota. *)
Definition mem_inv (s : mem_ledger) : Prop :=
  (∀ t q, mem_quotas s !! t = Some q → quota_negative q = false) ∧
  (∀ t u, mem_used s !! t = Some u →
     ∃ q, mem_quotas s !! t = Some q ∧ within q u ∧ fits 28 (dval u.1.2)) ∧
  (∀ t k r, mem_reservations s !! (t, k) = Some r → is_Some (mem_quotas s !! t)).

Lemma mem_inv_init : mem_inv mem_init.
Proof. split_and!; simpl; intros *; by rewrite lookup_empty. Qed.

Lemma mem_inv_usage s t q : mem_inv s → mem_quotas s !! t = Some q →
  within q (mem_usage s t) ∧ fits 28 (dval (mem_usage s t).1.2).
Proof.
  intros (Hq & Hu & _) Ht. unfold mem_usage. destruct (mem_used s !! t) as [u|] eqn:E; simpl.
  - destruct (Hu _ _ E) as (q' & Hq' & ? & ?). simplify_eq. done.
  - split; [by eapply within_no_usage, Hq|].
    apply (fits_proper 28 0%Q); [by rewrite dval_dint | by apply fits_0].
Qed.

Lemma mem_inv_set s t u q rs :
  mem_inv s → mem_quotas s !! t = Some q → within q u → fits 28 (dval u.1.2) →
  (∀ t' k r, rs !! (t', k) = Some r → t' = t ∨ is_Some (mem_reservations s !! (t', k))) →
  mem_inv (MemLedger (mem_quotas s) (<[t := u]> (mem_used s)) rs).
Proof.
  intros (Hq & Hu & Hr) Ht Hw Hf Hrs. split_and!; simpl; [done| |].
  - intros t' u' Hu'. destruct (decide (t = t')) as [<-|]; simplify_map_eq; eauto.
  - intros t' k r Hk. apply Hrs in Hk as [->|[? ?]]; eauto.
Qed.

Lemma mem_configure_inv t q s : mem_inv s → mem_inv (mem_configure t q s).1.
Proof.
  intros Hi. pose proof Hi as (Hq & Hu & Hr). unfold mem_configure. munfold.
  destruct (quota_negative q) eqn:En; [done|].
  destruct (mem_usage s t) as [[g h] j] eqn:Eu. simpl.
  guard_case as Ec; [done|]. bprop. dprop. split_and!; simpl.
  - intros t' q' Hq'. destruct (decide (t = t')); simplify_map_eq; eauto.
  - intros t' u Ht. destruct (decide (t = t')) as [<-|]; simplify_map_eq; [|eauto].
    exists q. split; [done|]. unfold mem_usage in Eu. rewrite Ht in Eu. simpl in Eu. subst u.
    destruct (Hu _ _ Ht) as (q0 & _ & (?&?&?) & ?). unfold within in *. simpl in *.
    split; [|done]. split_and!; lia || lra.
  - intros t' k r Ht. destruct (decide (t = t')); simplify_map_eq; eauto.
Qed.

(** What [reserve] does, branch by branch. *)
Inductive mem_reserve_spec (t : string) (g : Z) (h : dec) (k : option string) (s : mem_ledger) :
  mem_ledger * result bool → Prop :=
| MRNegative : mem_reserve_spec t g h k s (s, Err (ValueError "quota reservation cannot be negative"))
| MRReplay key r : truthy k = Some key → mem_reservations s !! (t, key) = Some r →
    same_demand r g h = true → mem_reserve_spec t g h k s (s, Ok true)
| MRConflict : mem_reserve_spec t g h k s
    (s, Err (ValueError "quota reservation key reused with different demand"))
| MRRefused : mem_reserve_spec t g h k s (s, Ok false)
| MRGranted q g0 h0 j0 rs : mem_quotas s !! t = Some q → mem_usage s t = (g0, h0, j0) →
    0 <= g → (0 <= dval h)%Q →
    g0 + g <= max_gpus q → (dval (dadd h0 h) <= dval (max_gpu_hours q))%Q → j0 + 1 <= max_concurrent_jobs q →
    rs = match truthy k with
         | Some key => <[(t, key) := (g, h)]> (mem_reservations s) | None => mem_reservations s end →
    mem_reserve_spec t g h k s
      (MemLedger (mem_quotas s) (<[t := (g0 + g, dadd h0 h, j0 + 1)]> (mem_used s)) rs, Ok true).

Lemma mem_reserve_cases t g h k s : mem_reserve_spec t g h k s (mem_reserve t g h k s).
Proof.
  unfold mem_reserve. munfold.
  destruct ((g <? 0) || dltb h (dint 0)) eqn:Eg; [constructor|].
  bprop. dprop. rewrite dval_dint in *. change (inject_Z 0) with 0%Q in *.
  destruct (option_bind _ _ _ _) as [r|] eqn:Eo; simpl.
  { apply bind_Some in Eo as (key & Hk & Hr).
    destruct (same_demand r g h) eqn:E; simpl; econstructor; done. }
  destruct (mem_quotas s !! t) as [q|] eqn:Eq; simpl; [|constructor].
  destruct (mem_usage s t) as [[g0 h0] j0] eqn:Eu. simpl.
  case_match eqn:Ec; simpl; [constructor|]. bprop. dprop. econstructor; eauto; lia.
Qed.

Lemma mem_reserve_inv t g h k s : mem_inv s → mem_inv (mem_reserve t g h k s).1.
Proof.
  intros Hi. destruct (mem_reserve_cases t g h k s) as [| | | |q g0 h0 j0 rs Hq Hu]; simpl; try done.
  destruct (mem_inv_usage s t q Hi Hq) as [[Hg [Hh Hj]] Hf]. rewrite Hu in *. simpl in *.
  apply (mem_inv_set s t _ q rs Hi Hq).
  - unfold within. simpl. split_and!; try lia; [|done]. apply (dadd_nonneg 28); done || lra.
  - simpl. by apply dfix_fits_res.
  - subst rs. intros t' k' r' Hr'. destruct (truthy k) as [key|]; [|eauto].
    destruct (decide ((t, key) = (t', k'))); simplify_map_eq; eauto.
Qed.

Lemma mem_release_inv t g h k s :
  0 <= g → (0 <= dval h)%Q → mem_inv s → mem_inv (mem_release t g h k s).1.
Proof.
  intros Hg Hh Hi. unfold mem_release. munfold.
  destruct (mem_used s !! t) as [[[g0 h0] j0]|] eqn:Eu; [|done]. simpl.
  destruct Hi as (Hq & Hu & Hr). destruct (Hu _ _ Eu) as (q & Htq & (?&?&?) & Hf). simpl in *.
  pose proof (dsub_decreases 28 ltac:(lia) h0 h Hf Hh) as Hd.
  apply (mem_inv_set s t _ q); [done|done| | |naive_solver]; unfold within, dmax; simpl.
  - split_and!; try lia.
    all: case_match eqn:E; dprop; rewrite ?dval_dint in *; change (inject_Z 0) with 0%Q in *;
      unfold dsub in *; lra.
  - case_match; [by apply dfix_fits_res|].
    apply (fits_proper 28 0%Q); [by rewrite dval_dint | by apply fits_0].
Qed.

Lemma mem_step_inv s o : op_nonneg o → mem_inv s → mem_inv (mem_step s o).
Proof.
  destruct o; simpl.
  - intros _. apply mem_configure_inv.
  - intros _. apply mem_reserve_inv.
  - intros [??]. by apply mem_release_inv.
Qed.

Lemma mem_history_inv ops s : Forall op_nonneg ops → mem_inv s → mem_inv (foldl mem_step s ops).
Proof.
  intros Hops. revert s. induction Hops as [|o ops Ho Hops IH]; intros s Hs; simpl; [done|].
  apply IH. by apply mem_step_inv.
Qed.

(** ** The PostgreSQL ledger: usage is the sum of the live reservations *)

Definition live (t : string) (k : string * string) (r : reservation_row) : bool :=
  bool_decide (k.1 = t) && negb (rr_released r).

Lemma map_sum_insert_Q `{Countable K} {V} (w : K → V → Q) (m : gmap K V) k v : m !! k = None →
  (map_sum Qplus 0 w (<[k:=v]> m) == w k v + map_sum Qplus 0 w m)%Q.
Proof. apply (map_sum_insert Qeq Qplus 0%Q Qplus_comm Qplus_assoc). Qed.

(** What the live reservations of a tenant hold. *)
Record totals := Totals { tot_gpus : Z; tot_hours : Q; tot_jobs : Z }.
Definition totals_of (m : gmap (string * string) reservation_row) (t : string) : totals :=
  Totals (map_sum Z.add 0 (λ k r, if live t k r then rr_gpus r else 0) m)
    (map_sum Qplus 0%Q (λ k r, if live t k r then dval (rr_hours r) else 0%Q) m)
    (map_sum Z.add 0 (λ k r, if live t k r then 1 else 0) m).
Definition contribution (t : string) (k : string * string) (r : reservation_row) : totals :=
  if live t k r then Totals (rr_gpus r) (dval (rr_hours r)) 1 else Totals 0 0 0.
Definition totals_add (a b : totals) : totals :=
  Totals (tot_gpus a + tot_gpus b) (tot_hours a + tot_hours b)%Q (tot_jobs a + tot_jobs b).
#[global] Instance totals_equiv : Equiv totals := λ a b,
  tot_gpus a = tot_gpus b ∧ (tot_hours a == tot_hours b)%Q ∧ tot_jobs a = tot_jobs b.
#[global] Instance totals_equivalence : Equivalence (≡@{totals}).
Proof.
  split.
  - by intros [].
  - intros a b (?&?&?). split_and!; [done|by symmetry|done].
  - intros a b c (?&Hab&?) (?&Hbc&?). split_and!; [congruence|by rewrite Hab|congruence].
Qed.

Lemma totals_insert m t k r : m !! k = None →
  totals_of (<[k := r]> m) t ≡ totals_add (contribution t k r) (totals_of m t).
Proof.
  intros Hk. unfold totals_of, contribution, totals_add, equiv, totals_equiv. simpl. split_and!.
  - etransitivity; [by apply map_sum_insert_Z|]. cbv beta. destruct (live t k r); simpl; lia.
  - etransitivity; [by apply map_sum_insert_Q|]. cbv beta. destruct (live t k r); simpl; lra.
  - etransitivity; [by apply map_sum_insert_Z|]. cbv beta. destruct (live t k r); simpl; lia.
Qed.

Lemma totals_empty t : totals_of ∅ t = Totals 0 0 0.
Proof. done. Qed.

#[local] Opaque totals_of.

Lemma totals_delete m t k r : m !! k = Some r →
  totals_of m t ≡ totals_add (contribution t k r) (totals_of (delete k m) t).
Proof.
  intros Hk. rewrite <- (insert_delete_id m k r) at 1 by done.
  apply totals_insert, lookup_delete_eq.
Qed.

Lemma totals_update m t k r : totals_of (<[k := r]> m) t ≡
  totals_add (contribution t k r) (totals_of (delete k m) t).
Proof. rewrite <- insert_delete_eq. apply totals_insert, lookup_delete_eq. Qed.

Definition row_nonneg (r : reservation_row) : Prop := 0 <= rr_gpus r ∧ (0 <= dval (rr_hours r))%Q.

Lemma totals_nonneg m t : map_Forall (λ _, row_nonneg) m →
  0 <= tot_gpus (totals_of m t) ∧ (0 <= tot_hours (totals_of m t))%Q ∧ 0 <= tot_jobs (totals_of m t).
Proof.
  induction m as [|k r m Hk IH] using map_ind; intros Hm; [by rewrite totals_empty|].
  apply map_Forall_insert in Hm as [[Hg Hh] Hm]; [|done].
  destruct (totals_insert m t k r Hk) as (E1 & E2 & E3). destruct (IH Hm) as (?&?&?).
  rewrite E1, E2, E3. unfold contribution. simpl. destruct (live t k r); simpl; split_and!; first [lia|lra].
Qed.

Lemma totals_none m t : (∀ k r, m !! (t, k) = Some r → False) → totals_of m t ≡ Totals 0 0 0.
Proof.
  induction m as [|[t' k] r m Hk IH] using map_ind; intros Hm; [by rewrite totals_empty|].
  rewrite totals_insert by done. unfold contribution, live. simpl.
  destruct (decide (t' = t)) as [->|Hne]; [exfalso; apply (Hm k r), lookup_insert_eq|].
  rewrite bool_decide_false by done. simpl.
  assert (totals_of m t ≡ Totals 0 0 0) as (E1&E2&E3).
  { apply IH. intros k' r' Hr'. apply (Hm k' r'). rewrite lookup_insert_ne; congruence. }
  split_and!; simpl in *; lia || lra.
Qed.

Lemma totals_frame m t t' k r : t' ≠ t → totals_of (<[(t, k) := r]> m) t' ≡ totals_of m t'.
Proof.
  intros Ht. assert (∀ x, contribution t' (t, k) x = Totals 0 0 0) as Hc.
  { intros x. unfold contribution, live. simpl. by rewrite bool_decide_false by congruence. }
  rewrite totals_update, Hc. destruct (m !! (t, k)) as [x|] eqn:E.
  - by rewrite (totals_delete m t' (t, k) x) , Hc by done.
  - rewrite delete_id by done. split_and!; simpl; lia || lra.
Qed.

(** The accounting invariant of the two tables. *)
Definition pg_inv (s : pg_ledger) : Prop :=
  map_Forall (λ _, row_nonneg) (pg_reservations s) ∧
  (∀ t r, pg_ledgers s !! t = Some r →
     Totals (lr_gpus r) (dval (lr_hours r)) (lr_jobs r) ≡ totals_of (pg_reservations s) t ∧
     within (MkQuota (lr_max_gpus r) (lr_max_hours r) (lr_max_jobs r)) (lr_gpus r, lr_hours r, lr_jobs r)) ∧
  (∀ t k r, pg_reservations s !! (t, k) = Some r → is_Some (pg_ledgers s !! t)).

Lemma pg_inv_init : pg_inv pg_init.
Proof. split_and!; simpl; [apply map_Forall_empty|..]; intros *; by rewrite lookup_empty. Qed.

Lemma alter_as_insert {A} (f : A → A) (m : gmap string A) k x :
  m !! k = Some x → alter f k m = <[k := f x]> m.
Proof.
  intros Hk. apply map_eq. intros j. destruct (decide (k = j)) as [<-|].
  - by rewrite lookup_alter_eq, lookup_insert_eq, Hk.
  - by rewrite lookup_alter_ne, lookup_insert_ne.
Qed.

Lemma dval_ngreatest0 x : (0 <= dval x)%Q → (dval (ngreatest0 x) == dval x)%Q.
Proof.
  intros Hx. unfold ngreatest0. destruct (dltb (dint 0) x) eqn:E; dprop; [done|].
  rewrite dval_dint in *. change (inject_Z 0) with 0%Q in *. lra.
Qed.

Section pg.
Context `{Htxn : !Transactional txn}.

Lemma pg_inv_set s t r rs :
  pg_inv s → map_Forall (λ _, row_nonneg) rs →
  (∀ t', t' ≠ t → totals_of rs t' ≡ totals_of (pg_reservations s) t') →
  (∀ t' k x, rs !! (t', k) = Some x → t' = t ∨ is_Some (pg_reservations s !! (t', k))) →
  Totals (lr_gpus r) (dval (lr_hours r)) (lr_jobs r) ≡ totals_of rs t →
  within (MkQuota (lr_max_gpus r) (lr_max_hours r) (lr_max_jobs r)) (lr_gpus r, lr_hours r, lr_jobs r) →
  pg_inv (PgLedger (<[t := r]> (pg_ledgers s)) rs).
Proof.
  intros (Hn & Hl & Hr) Hrs Htot Hdom Ht Hw. split_and!; simpl; [done| |].
  - intros t' r' Hr'. destruct (decide (t = t')) as [<-|]; simplify_map_eq; [done|].
    destruct (Hl _ _ Hr') as [Ha Hb]. split; [|done]. rewrite Ha. symmetry. by apply Htot.
  - intros t' k x Hx. destruct (decide (t = t')) as [<-|]; simplify_map_eq; [done|].
    destruct (Hdom _ _ _ Hx) as [|[y Hy]]; [done|]. eauto.
Qed.

Lemma pg_configure_inv t q s : pg_inv s → pg_inv (pg_configure txn t q s).1.
Proof using Htxn.
  intros Hi. unfold pg_configure. munfold. destruct (quota_negative q) eqn:En; [done|].
  rewrite txn_atomically. unfold atomically. munfold. pose proof Hi as (Hn & Hl & Hr).
  destruct (pg_ledgers s !! t) as [r|] eqn:El; simpl.
  - if_case as Ec; [|done]. bprop. dprop.
    destruct (Hl _ _ El) as [Ha (Hg&Hh&Hj)]. simpl in *.
    apply pg_inv_set; simpl; eauto.
    apply quota_negative_false in En. unfold within. simpl. split_and!; lia || lra.
  - apply pg_inv_set; simpl; eauto; [|by apply within_no_usage].
    symmetry. apply totals_none. intros k x Hx. destruct (Hr _ _ _ Hx) as [? ?]. congruence.
Qed.

Inductive pg_reserve_spec (t : string) (g : Z) (h : dec) (k : option string) (s : pg_ledger) :
  pg_ledger * result bool → Prop :=
| PRError msg : pg_reserve_spec t g h k s (s, Err (ValueError msg))
| PRReplay key x : truthy k = Some key → pg_reservations s !! (t, key) = Some x →
    same_demand (rr_gpus x, rr_hours x) g h = true →
    pg_reserve_spec t g h k s (s, Ok (negb (rr_released x)))
| PRRefused : pg_reserve_spec t g h k s (s, Ok false)
| PRGranted key r : truthy k = Some key → pg_reservations s !! (t, key) = None →
    pg_ledgers s !! t = Some r → 0 <= g → (0 <= dval h)%Q →
    lr_gpus r + g <= lr_max_gpus r → (dval (lr_hours r) + dval h <= dval (lr_max_hours r))%Q →
    lr_jobs r + 1 <= lr_max_jobs r →
    pg_reserve_spec t g h k s
      (PgLedger (<[t := MkLedger (lr_max_gpus r) (lr_max_hours r) (lr_max_jobs r)
           (lr_gpus r + g) (nadd (lr_hours r) h) (lr_jobs r + 1) (lr_version r + 1)]> (pg_ledgers s))
         (<[(t, key) := MkReservation g h false]> (pg_reservations s)), Ok true).

Lemma pg_reserve_cases t g h k s : pg_reserve_spec t g h k s (pg_reserve txn t g h k s).
Proof using Htxn.
  unfold pg_reserve. munfold.
  destruct ((g <? 0) || dltb h (dint 0)) eqn:Eg; [constructor|].
  bprop. dprop. rewrite dval_dint in *. change (inject_Z 0) with 0%Q in *.
  destruct (truthy k) as [key|] eqn:Ek; [|constructor].
  rewrite txn_atomically. unfold atomically. munfold.
  destruct (pg_reservations s !! (t, key)) as [x|] eqn:Ex; simpl.
  { destruct (same_demand _ g h) eqn:E; simpl; econstructor; done. }
  destruct (pg_ledgers s !! t) as [r|] eqn:El; simpl; [|constructor].
  if_case as Ec; [|constructor]. bprop. dprop. rewrite dval_nadd in *.
  econstructor; eauto; lia.
Qed.

Lemma pg_reserve_inv t g h k s : pg_inv s → pg_inv (pg_reserve txn t g h k s).1.
Proof using Htxn.
  intros Hi. pose proof Hi as (Hn & Hl & Hr).
  destruct (pg_reserve_cases t g h k s) as [| | |key r Hk Hx Hlr Hg Hh H1 H2 H3]; simpl; try done.
  destruct (Hl _ _ Hlr) as [(E1&E2&E3) (?&?&?)]. simpl in *.
  apply pg_inv_set; simpl; [done|..].
  - by apply map_Forall_insert_2.
  - intros t' Ht'. by apply totals_frame.
  - intros t' k' x. destruct (decide ((t, key) = (t', k'))); simplify_map_eq; eauto.
  - rewrite totals_insert by done. unfold contribution, live. simpl.
    rewrite bool_decide_true by done. simpl.
    split_and!; simpl; [lia| |lia]. rewrite dval_nadd. lra.
  - unfold within. simpl. rewrite dval_nadd. split_and!; lia || lra.
Qed.

Lemma pg_release_inv t g h k s : pg_inv s → pg_inv (pg_release txn t g h k s).1.
Proof using Htxn.
  intros Hi. pose proof Hi as (Hn & Hl & Hr). unfold pg_release. munfold.
  destruct (truthy k) as [key|] eqn:Ek; [|done].
  rewrite txn_atomically. unfold atomically. munfold.
  destruct (pg_reservations s !! (t, key)) as [x|] eqn:Ex; simpl; [|done].
  if_case as Ec; [|done]. unfold same_demand in Ec. simpl in Ec. bprop. dprop.
  destruct (Hr _ _ _ Ex) as [r Hlr]. destruct (Hl _ _ Hlr) as [(E1&E2&E3) (?&?&?)].
  pose proof (totals_delete (pg_reservations s) t _ _ Ex) as (D1&D2&D3).
  assert (map_Forall (λ _, row_nonneg) (delete (t, key) (pg_reservations s))) as Hd
    by by apply map_Forall_delete.
  apply (totals_nonneg _ t) in Hd as (N1&N2&N3).
  unfold contribution, live in D1, D2, D3. simpl in *. rewrite bool_decide_true in * by done.
  rewrite H in *. simpl in *.
  rewrite (alter_as_insert _ _ _ _ Hlr). apply pg_inv_set; simpl; [done|..].
  - apply map_Forall_insert_2; [|done]. apply (Hn _ _ Ex).
  - intros t' Ht'. by apply totals_frame.
  - intros t' k' y. destruct (decide ((t, key) = (t', k'))); simplify_map_eq; eauto.
  - rewrite totals_update. unfold contribution, live. simpl. rewrite andb_false_r. 
    split_and!; simpl; [lia| |lia]. rewrite dval_ngreatest0 by (rewrite dval_nsub; lra).
    rewrite dval_nsub. lra.
  - unfold within. simpl. rewrite dval_ngreatest0 by (rewrite dval_nsub; lra).
    rewrite dval_nsub. destruct (Hn _ _ Ex). split_and!; lia || lra.
Qed.

Lemma pg_history_inv ops s : pg_inv s → pg_inv (foldl (pg_step txn) s ops).
Proof using Htxn.
  revert s. induction ops as [|o ops IH]; intros s Hs; simpl; [done|]. apply IH.
  destruct o; simpl; [by apply pg_configure_inv|by apply pg_reserve_inv|by apply pg_release_inv].
Qed.
End pg.

(** ** Both backends implement the interface *)

#[global] Instance mem_quota_service : QuotaService mem_ledger := {
  qs_reserve := mem_reserve;
  qs_usage := mem_usage;
  qs_limit s t := mem_quotas s !! t;
  qs_inv := mem_inv
}.

#[global] Instance mem_quota_laws : QuotaLaws mem_ledger.
Proof.
  split; simpl.
  - intros. by apply mem_reserve_inv.
  - intros t g h k s. by destruct (mem_reserve_cases t g h k s).
  - intros t g h k s t' Ht. destruct (mem_reserve_cases t g h k s); try done. simpl.
    unfold mem_usage. simpl. by rewrite lookup_insert_ne.
  - intros t g h k s Hi Hok. pose proof (mem_reserve_inv t g h k s Hi) as Hi'.
    destruct (mem_reserve_cases t g h k s) as [|key r Hk Hr| | |q g0 h0 j0 rs Hq]; try done; simpl in *.
    + destruct Hi as (?&?&Hres). destruct (Hres _ _ _ Hr) as [q Hq]. exists q. split; [done|].
      by apply mem_inv_usage.
    + exists q. split; [done|]. by apply mem_inv_usage.
Qed.

Definition pg_limit (s : pg_ledger) (t : string) : option Quota :=
  (λ r, MkQuota (lr_max_gpus r) (lr_max_hours r) (lr_max_jobs r)) <$> pg_ledgers s !! t.

(** The PostgreSQL backend run by [txn] *)
Definition pg_quota_service (txn : ∀ S A, M S A → M S A) : QuotaService pg_ledger := {|
  qs_reserve := pg_reserve txn;
  qs_usage := pg_usage;
  qs_limit := pg_limit;
  qs_inv := pg_inv
|}.

#[global] Instance pg_quota_laws `{Htxn : !Transactional txn} : @QuotaLaws pg_ledger (pg_quota_service txn).
Proof.
  split; simpl.
  - intros. by apply (pg_reserve_inv (Htxn:=Htxn)).
  - intros t g h k s. by destruct (pg_reserve_cases (Htxn:=Htxn) t g h k s).
  - intros t g h k s t' Ht. destruct (pg_reserve_cases (Htxn:=Htxn) t g h k s); try done. simpl.
    unfold pg_usage. simpl. by rewrite lookup_insert_ne.
  - intros t g h k s Hi Hok. pose proof (pg_reserve_inv (Htxn:=Htxn) t g h k s Hi) as Hi'.
    destruct (pg_reserve_cases (Htxn:=Htxn) t g h k s) as [|key x Hk Hx| |key r Hk Hx Hr]; try done; simpl in *.
    all: unfold pg_limit, pg_usage; simpl.
    + destruct Hi as (?&Hl&Hres). destruct (Hres _ _ _ Hx) as [r Hr]. rewrite Hr. simpl.
      eexists. split; [done|]. apply (proj2 (Hl _ _ Hr)).
    + rewrite lookup_insert_eq. eexists. split; [done|].
      destruct Hi' as (_ & Hl & _). apply (proj2 (Hl t _ (lookup_insert_eq _ _ _))).
Qed.

(** ** The life of a reservation key *)

Lemma truthy_nonempty key : key ≠ "" → truthy (Some key) = Some key.
Proof. intros. simpl. by rewrite bool_decide_false. Qed.

Lemma same_demand_refl g h : same_demand (g, h) g h = true.
Proof.
  unfold same_demand. simpl. rewrite Z.eqb_refl. apply deqb_true. reflexivity.
Qed.

Section pg_keys.
Context `{Htxn : !Transactional txn}.
Context (t key : string) (s : pg_ledger) (row : reservation_row) (Hkey : key ≠ "").
Context (Hrow : pg_reservations s !! (t, key) = Some row).

Lemma pg_release_live : rr_released row = false →
  pg_release txn t (rr_gpus row) (rr_hours row) (Some key) s =
  (PgLedger (alter (λ r, MkLedger (lr_max_gpus r) (lr_max_hours r) (lr_max_jobs r)
       (Z.max 0 (lr_gpus r - rr_gpus row)) (ngreatest0 (nsub (lr_hours r) (rr_hours row)))
       (Z.max 0 (lr_jobs r - 1)) (lr_version r + 1)) t (pg_ledgers s))
     (<[(t, key) := MkReservation (rr_gpus row) (rr_hours row) true]> (pg_reservations s)), Ok tt).
Proof using Htxn Hkey Hrow.
  intros Hrel. unfold pg_release. rewrite truthy_nonempty by done. munfold.
  rewrite txn_atomically. unfold atomically. munfold. rewrite Hrow, Hrel, same_demand_refl. done.
Qed.

Lemma pg_release_spent g h : rr_released row = true →
  pg_release txn t g h (Some key) s = (s, Ok tt).
Proof using Htxn Hkey Hrow.
  intros Hrel. unfold pg_release. rewrite truthy_nonempty by done. munfold.
  rewrite txn_atomically. unfold atomically. munfold. by rewrite Hrow, Hrel.
Qed.

Lemma pg_reserve_spent : row_nonneg row → rr_released row = true →
  pg_reserve txn t (rr_gpus row) (rr_hours row) (Some key) s = (s, Ok false).
Proof using Htxn Hkey Hrow.
  intros [Hg Hh] Hrel. unfold pg_reserve. rewrite truthy_nonempty by done. munfold.
  destruct (_ || _) eqn:E; bprop.
  { destruct E; bprop; dprop; rewrite ?dval_dint in *; change (inject_Z 0) with 0%Q in *; lia || lra. }
  rewrite txn_atomically. unfold atomically. munfold. rewrite Hrow, same_demand_refl. simpl.
  by rewrite Hrel.
Qed.
End pg_keys.

Lemma mem_reserve_replay t key g h s : key ≠ "" → 0 <= g → (0 <= dval h)%Q →
  mem_reservations s !! (t, key) = Some (g, h) → mem_reserve t g h (Some key) s = (s, Ok true).
Proof.
  intros Hkey Hg Hh Hr. unfold mem_reserve. rewrite truthy_nonempty by done. munfold.
  destruct (_ || _) eqn:E; bprop.
  { destruct E; bprop; dprop; rewrite ?dval_dint in *; change (inject_Z 0) with 0%Q in *; lia || lra. }
  by rewrite Hr, same_demand_refl.
Qed.

(** ** Properties *)

(** Whatever sequence of [configure], [reserve] and [release] calls an in-process
    ledger serves (releases of non-negative demands), every tenant's GPUs, GPU hours and
    active jobs are non-negative and inside its configured quota, and a tenant without a
    quota has no usage. *)
Theorem mem_quota_within (ops : list quota_op) (Hops : Forall op_nonneg ops) (t : string) :
  let s := foldl mem_step mem_init ops in
  match mem_quotas s !! t with
  | Some q => within q (mem_usage s t)
  | None => mem_usage s t = no_usage
  end.
Proof.
  intros s. pose proof (mem_history_inv ops mem_init Hops mem_inv_init) as Hi. fold s in Hi.
  destruct (mem_quotas s !! t) as [q|] eqn:Eq; [by apply mem_inv_usage|].
  destruct Hi as (_ & Hu & _). unfold mem_usage. destruct (mem_used s !! t) as [u|] eqn:Eu; [|done].
  apply Hu in Eu as (q & Hq & _). congruence.
Qed.

Definition sample_ops : list quota_op :=
  [OpConfigure "ten_acme" (MkQuota 8 (dint 100) 2); OpReserve "ten_acme" 4 (dint 10) (Some "a");
   OpReserve "ten_acme" 8 (dint 10) (Some "b"); OpReserve "ten_acme" 4 (Dec 25 (-1)) (Some "c");
   OpRelease "ten_acme" 4 (dint 10) (Some "a")].

Lemma mem_quota_within_witness :
  within (MkQuota 8 (dint 100) 2) (4, Dec 25 (-1), 1) ∧
  mem_usage (foldl mem_step mem_init sample_ops) "ten_acme" = (4, Dec 25 (-1), 1).
Proof.
  split; [|by vm_compute].
  assert (Forall op_nonneg sample_ops) as H by (repeat constructor; done).
  exact (mem_quota_within sample_ops H "ten_acme").
Defined.

(** C24: Accounting of the PostgreSQL ledger.  Under any transaction runner that commits
    on return and rolls back on an exception, after any sequence of calls a tenant's
    ledger row holds exactly what its unreleased reservations sum to (GPUs, hours and
    count), stays inside its limits, and no reservation exists without a ledger row: usage
    can neither leak nor be freed twice. *)
Theorem pg_quota_accounting (txn : ∀ S A, M S A → M S A) (Htxn : Transactional txn)
    (ops : list quota_op) (t : string) :
  let s := foldl (pg_step txn) pg_init ops in
  match pg_ledgers s !! t with
  | Some r =>
      Totals (lr_gpus r) (dval (lr_hours r)) (lr_jobs r) ≡ totals_of (pg_reservations s) t ∧
      within (MkQuota (lr_max_gpus r) (lr_max_hours r) (lr_max_jobs r)) (pg_usage s t)
  | None => ∀ k, pg_reservations s !! (t, k) = None
  end.
Proof.
  intros s. destruct (pg_history_inv (Htxn:=Htxn) ops pg_init pg_inv_init) as (_ & Hl & Hr).
  fold s in Hl, Hr. unfold pg_usage. destruct (pg_ledgers s !! t) as [r|] eqn:El; [by apply Hl|].
  intros k. destruct (pg_reservations s !! (t, k)) eqn:E; [|done].
  apply Hr in E as [? ?]. congruence.
Qed.

Lemma pg_quota_accounting_witness :
  pg_usage (foldl (pg_step (@atomically)) pg_init sample_ops) "ten_acme" = (4, Dec 25 (-1), 1) ∧
  within (MkQuota 8 (dint 100) 2) (4, Dec 25 (-1), 1).
Proof.
  split; [by vm_compute|].
  exact (proj2 (pg_quota_accounting (@atomically) _ sample_ops "ten_acme")).
Defined.

(** Life of a reservation key.  In PostgreSQL a granted reservation, once released,
    gives the usage back, a second release changes nothing and the spent key is refused;
    the in-process backend forgets neither: after the release the same key is granted
    again without being counted. *)
Theorem quota_key_after_release (txn : ∀ S A, M S A → M S A) (Htxn : Transactional txn)
    (t key : string) (g : Z) (h : dec) (Hkey : key ≠ "") (Hg : 0 <= g) (Hh : (0 <= dval h)%Q) :
  (∀ s s', pg_inv s → pg_reservations s !! (t, key) = None →
     pg_reserve txn t g h (Some key) s = (s', Ok true) →
     ∃ s'', pg_release txn t g h (Some key) s' = (s'', Ok tt) ∧
       pg_release txn t g h (Some key) s'' = (s'', Ok tt) ∧
       pg_reserve txn t g h (Some key) s'' = (s'', Ok false) ∧
       (pg_usage s'' t).1.1 = (pg_usage s t).1.1 ∧ (pg_usage s'' t).1.2 ≡ (pg_usage s t).1.2 ∧
       (pg_usage s'' t).2 = (pg_usage s t).2) ∧
  (∀ s s', mem_reservations s !! (t, key) = None →
     mem_reserve t g h (Some key) s = (s', Ok true) →
     ∃ s'', mem_release t g h (Some key) s' = (s'', Ok tt) ∧
       mem_reserve t g h (Some key) s'' = (s'', Ok true)).
Proof.
  pose proof (truthy_nonempty key Hkey) as Hk. split.
  - intros s s' Hi Hfresh Hres. pose proof (pg_reserve_cases (Htxn:=Htxn) t g h (Some key) s) as Hc.
    rewrite Hres in Hc. inversion Hc as [|k0 x Hk0 Hx ? E| |k0 r Hk0 Hx Hr]; [by simplify_eq|].
    assert (k0 = key) as -> by congruence. subst s'.
    set (s1 := PgLedger _ _).
    assert (pg_reservations s1 !! (t, key) = Some (MkReservation g h false)) as Hs1
      by apply lookup_insert_eq.
    pose proof (pg_release_live t key s1 _ Hkey Hs1 eq_refl) as Hrel. simpl in Hrel.
    eexists. split; [exact Hrel|]. set (s2 := PgLedger _ _).
    assert (pg_reservations s2 !! (t, key) = Some (MkReservation g h true)) as Hs2
      by apply lookup_insert_eq.
    split; [by eapply pg_release_spent|]. split; [by apply (pg_reserve_spent t key s2 _ Hkey Hs2)|].
    unfold pg_usage. simpl. rewrite lookup_alter_eq, lookup_insert_eq, Hr. simpl.
    destruct Hi as (_ & Hl & _). destruct (Hl _ _ Hr) as [_ (?&?&?)]. simpl in *.
    split_and!; [lia| |lia]. change (dval (ngreatest0 (nsub (nadd (lr_hours r) h) h)) == dval (lr_hours r))%Q.
    rewrite dval_ngreatest0; rewrite dval_nsub, dval_nadd; lra.
  - intros s s' Hfresh Hres. pose proof (mem_reserve_cases t g h (Some key) s) as Hc.
    rewrite Hres in Hc. inversion Hc as [|k0 r Hk0 Hr| | |q g0 h0 j0 rs Hq Hu]; [congruence|].
    unfold mem_release. munfold. rewrite lookup_insert_eq. simpl. eexists. split; [done|].
    apply mem_reserve_replay; [done..|]. subst rs. rewrite bool_decide_false by done.
    apply lookup_insert_eq.
Qed.

Lemma quota_key_after_release_witness :
  let s := (mem_configure "t" (MkQuota 1 (dint 5) 1) mem_init).1 in
  let s' := (mem_reserve "t" 1 (dint 5) (Some "k") s).1 in
  ∃ s'', mem_release "t" 1 (dint 5) (Some "k") s' = (s'', Ok tt) ∧
    mem_reserve "t" 1 (dint 5) (Some "k") s'' = (s'', Ok true).
Proof.
  intros s s'.
  refine (proj2 (quota_key_after_release (@atomically) _ "t" "k" 1 (dint 5) _ _ _) s s' _ _);
    done || by vm_compute.
Defined.
