(* ===== verification/Compute.v ===== *)
(** * Compute inventory: [packages/compute]

    [inventory.py]: GPUs, nodes and reservations with the checks of their
    constructors; [snapshot.py]: the tenant's capacity snapshot; [health.py]: the
    reconciliation of several health sources.  The SHA-256 digest of the JSON dump
    that names a snapshot is a parameter. *)
From S2P Require Import Prelude PyDecimal PyValue Domain.
Local Open Scope Z_scope.

(** ** inventory.py *)

Inductive NodeState := READY | MAINTENANCE | NODE_FAILED.
#[global] Instance NodeState_eq_dec : EqDecision NodeState.
Proof. solve_decision. Defined.

Record MigSlice := MkMigSlice { mig_id : string; mig_memory_gb : dec; compute_fraction : dec }.
Definition mig_slice_check (m : MigSlice) : result MigSlice :=
  if negb (dltb (dint 0) (compute_fraction m) && dleb (compute_fraction m) (dint 1))
  then Err (ValueError "MIG compute fraction must be in (0, 1]") else Ok m.

Record Gpu := MkGpu {
  gpu_id : string; gpu_model : string; gpu_memory_gb : dec; max_power_kw : dec; mig_slices : list MigSlice
}.
Definition gpu_check (g : Gpu) : result Gpu :=
  if dltb (dint 1) (dsum (map compute_fraction (mig_slices g)))
  then Err (ValueError "MIG slices over-allocate GPU compute") else Ok g.

Record ComputeNode := MkComputeNode {
  node_id : string; node_tenant_id : string; node_site_id : string; topology_asset_id : string;
  gpus : list Gpu; node_cpu_cores : Z; node_memory_gb : dec; node_state : NodeState;
  node_labels : list (string * string)
}.

Record Reservation := MkReservation {
  reservation_id : string; reservation_tenant_id : string; gpu_ids : gset string;
  starts_at : datetime; ends_at : datetime; purpose : string; protected : bool
}.
Definition reservation_check (r : Reservation) : result Reservation :=
  bad ← dt_leb (ends_at r) (starts_at r);
  if (bad : bool) then Err (ValueError "reservation must end after it starts") else Ok r.

(** ** snapshot.py *)

Record ComputeSnapshot := MkComputeSnapshot {
  snapshot_id : string; snapshot_tenant_id : string; topology_version : Z; observed_at : datetime;
  source : string; freshness_seconds : Z; quality : string; nodes : list ComputeNode;
  reservations : list Reservation; conflicts : list string
}.

(** [{gpu_id for item in self.reservations for gpu_id in item.gpu_ids}] *)
Definition reserved_set (rs : list Reservation) : gset string := ⋃ (map gpu_ids rs).

(** The GPUs both properties range over, in iteration order. *)
Definition schedulable_gpus (snap : ComputeSnapshot) : list Gpu :=
  base.filter (λ g, gpu_id g ∉ reserved_set (reservations snap))
    (base.filter (λ n, node_state n = READY) (nodes snap) ≫= gpus).

Definition schedulable_gpu_count (snap : ComputeSnapshot) : Z := Z.of_nat (length (schedulable_gpus snap)).
Definition schedulable_power_kw (snap : ComputeSnapshot) : dec := dsum (map max_power_kw (schedulable_gpus snap)).

(** The loop over [scheduler_states.keys() & telemetry_states.keys()]; the order in
    which Python walks that set is unspecified, here it is the order of [elements]. *)
Definition state_conflicts (scheduler telemetry : gmap string string) : list string :=
  base.filter (λ k, scheduler !! k ≠ telemetry !! k) (elements (dom scheduler ∩ dom telemetry)).

Definition snapshot_quality (cs : list string) (freshness : Z) : string :=
  match cs with _ :: _ => "conflict" | [] => if 300 <? freshness then "stale" else "good" end.

Section build.
Context (digest : list ComputeNode → string).

(** [SnapshotBuilder.build] with [observed_at] and [now] given *)
Definition build (tenant_id : string) (topo : Z) (src : string) (ns : list ComputeNode)
    (rs : list Reservation) (observed now : datetime) (scheduler telemetry : gmap string string)
    : result ComputeSnapshot :=
  raise_if (existsb (λ n, negb (bool_decide (node_tenant_id n = tenant_id))) ns)
    (PermissionError "snapshot contains cross-tenant node");;
  let all_gpu_ids := map gpu_id (ns ≫= gpus) in
  raise_if (has_duplicates all_gpu_ids) (ValueError "duplicate GPU ID would double-count capacity");;
  let reserved_ids := rs ≫= (λ r, elements (gpu_ids r)) in
  raise_if (has_duplicates reserved_ids) (ValueError "GPU is reserved more than once");;
  raise_if (negb (bool_decide ((list_to_set reserved_ids : gset string) ⊆ list_to_set all_gpu_ids)))
    (ValueError "reservation references unknown GPU");;
  let cs := state_conflicts scheduler telemetry in
  age ← dt_sub now observed;
  let freshness := Z.max 0 (Z.quot age 1000000) in
  Ok (MkComputeSnapshot ("snapshot-" +:+ digest ns) tenant_id topo observed src freshness
        (snapshot_quality cs freshness) ns rs cs).
End build.

(** ** health.py *)

Inductive HealthState := HEALTHY | DEGRADED | STALE | CONFLICT.
#[global] Instance HealthState_eq_dec : EqDecision HealthState.
Proof. solve_decision. Defined.

Record SourceObservation := MkSourceObservation {
  obs_source : string; obs_at : datetime; obs_values : list (string * pyval); obs_priority : Z
}.
Record ReconciledHealth := MkReconciledHealth {
  health_state : HealthState; selected_source : option string; health_values : list (string * pyval);
  stale_sources : list string; health_conflicts : list string
}.

Definition health_key : SourceObservation → SourceObservation → comparison :=
  cmp_then (cmp_on obs_priority Z.compare)
    (cmp_then (cmp_on (λ o, us (obs_at o)) Z.compare) (cmp_on obs_source String.compare)).

Section health.
Context (repr : pyval → string).

(** [len({repr(item.values.get(field)) ...}) > 1] *)
Definition field_conflicts (fresh : list SourceObservation) (field : string) : bool :=
  (1 <? size (list_to_set (omap (λ o, repr <$> od_get field (obs_values o)) fresh) : gset string))%nat.

(** [item not in fresh] compares dataclasses by value; an observation equal to a
    fresh one has the same timestamp and is fresh itself. *)
Definition reconcile_health (observations : list SourceObservation) (now : datetime)
    (freshness : Z) (conflict_fields : gset string) : result ReconciledHealth :=
  raise_if (freshness <=? 0) (ValueError "freshness threshold must be positive");;
  raise_if (existsb (λ o, negb (aware (obs_at o))) observations || negb (aware now))
    (ValueError "health timestamps must be timezone-aware");;
  let is_fresh o := us now - us (obs_at o) <=? freshness in
  let fresh := base.filter (λ o, is_fresh o = true) observations in
  let stale := py_sorted String.compare (map obs_source (base.filter (λ o, is_fresh o = false) observations)) in
  match fresh with
  | [] => Ok (MkReconciledHealth STALE None [] stale [])
  | first :: rest =>
      let selected := py_max_from health_key first rest in
      let cs := py_sorted String.compare
        (base.filter (λ f, field_conflicts fresh f = true) (elements conflict_fields)) in
      let state := match cs, stale with _ :: _, _ => CONFLICT | [], _ :: _ => DEGRADED | [], [] => HEALTHY end in
      Ok (MkReconciledHealth state (Some (obs_source selected)) (obs_values selected) stale cs)
  end.
End health.

(** ** Capacity of a snapshot *)

Definition ready_gpus (ns : list ComputeNode) : list Gpu :=
  base.filter (λ n, node_state n = READY) ns ≫= gpus.
Definition ready_ids (ns : list ComputeNode) : gset string := list_to_set (map gpu_id (ready_gpus ns)).

Lemma reserved_set_elements rs :
  reserved_set rs = list_to_set (rs ≫= (λ r, elements (gpu_ids r))).
Proof.
  unfold reserved_set. induction rs as [|r rs IH]; simpl; [done|].
  rewrite list_to_set_app_L, list_to_set_elements_L, IH. done.
Qed.

Lemma sublist_filter_bind ns : map gpu_id (ready_gpus ns) `sublist_of` map gpu_id (ns ≫= gpus).
Proof.
  apply sublist_map. unfold ready_gpus. induction ns as [|n ns IH]; [constructor|].
  rewrite filter_cons. case_decide; simpl.
  - by apply sublist_app.
  - by apply sublist_inserts_l.
Qed.

Lemma filter_id_count (R : gset string) (l : list Gpu) : NoDup (map gpu_id l) →
  length (base.filter (λ g, gpu_id g ∉ R) l) = (length l - size (R ∩ list_to_set (map gpu_id l)))%nat.
Proof.
  induction l as [|g l IH]; csimpl; intros Hnd.
  - by rewrite intersection_empty_r_L, size_empty.
  - apply NoDup_cons in Hnd as [Hg Hnd]. specialize (IH Hnd).
    assert (size (R ∩ list_to_set (map gpu_id l)) ≤ length l)%nat as Hle.
    { etrans; [apply subseteq_size, intersection_subseteq_r|].
      rewrite size_list_to_set by done. by rewrite length_fmap. }
    rewrite filter_cons. case_decide as Hd; csimpl; rewrite IH.
    + replace (R ∩ ({[gpu_id g]} ∪ list_to_set (map gpu_id l)))
        with (R ∩ list_to_set (map gpu_id l) : gset string) by set_solver. lia.
    + replace (R ∩ ({[gpu_id g]} ∪ list_to_set (map gpu_id l)))
        with ({[gpu_id g]} ∪ (R ∩ list_to_set (map gpu_id l)) : gset string) by set_solver.
      rewrite (size_union ({[gpu_id g]} : gset string)), size_singleton; [lia|].
      intros x ->%elem_of_singleton [_ Hx]%elem_of_intersection. by apply elem_of_list_to_set in Hx.
Qed.

(** GPUs on ready nodes that the reservations hold, reservation by reservation *)
Definition reserved_ready (ns : list ComputeNode) (rs : list Reservation) : nat :=
  sum_list_with (λ r, size (gpu_ids r ∩ ready_ids ns)) rs.

Lemma reserved_ready_size ns rs : NoDup (rs ≫= (λ r, elements (gpu_ids r))) →
  size (reserved_set rs ∩ ready_ids ns) = reserved_ready ns rs.
Proof.
  unfold reserved_ready. induction rs as [|r rs IH]; csimpl; intros Hnd.
  - unfold reserved_set. csimpl. by rewrite intersection_empty_l_L, size_empty.
  - apply NoDup_app in Hnd as (_ & Hdis & Hnd). rewrite <- (IH Hnd).
    unfold reserved_set. csimpl. fold (reserved_set rs).
    rewrite intersection_union_r_L, (size_union (gpu_ids r ∩ _)); [done|].
    rewrite reserved_set_elements. intros x Hx Hx'. apply (Hdis x); [set_solver|].
    apply elem_of_intersection in Hx' as [Hx' _]. by apply elem_of_list_to_set in Hx'.
Qed.

Lemma state_conflicts_nil sched telem :
  state_conflicts sched telem = [] ↔
  ∀ k a b, sched !! k = Some a → telem !! k = Some b → a = b.
Proof.
  unfold state_conflicts. split.
  - intros Hnil k a b Ha Hb. destruct (decide (a = b)); [done|]. exfalso.
    apply (not_elem_of_nil k). rewrite <- Hnil, list_elem_of_filter, elem_of_elements, elem_of_intersection.
    rewrite !elem_of_dom, Ha, Hb. split; [congruence|eauto].
  - intros Hag. destruct (base.filter _ _) as [|k l] eqn:E; [done|].
    assert (k ∈ k :: l) as Hk by left. rewrite <- E in Hk.
    apply list_elem_of_filter in Hk as [Hne [Ha Hb]%elem_of_elements%elem_of_intersection].
    apply elem_of_dom in Ha as [a Ha], Hb as [b Hb]. rewrite Ha, Hb in Hne. exfalso. apply Hne.
    f_equal. eauto.
Qed.

Section build_facts.
Context (digest : list ComputeNode → string).

Lemma build_inv tenant topo src ns rs observed now sched telem snap :
  build digest tenant topo src ns rs observed now sched telem = Ok snap →
  Forall (λ n, node_tenant_id n = tenant) ns ∧ NoDup (map gpu_id (ns ≫= gpus)) ∧
  NoDup (rs ≫= (λ r, elements (gpu_ids r))) ∧
  reserved_set rs ⊆ list_to_set (map gpu_id (ns ≫= gpus)) ∧
  nodes snap = ns ∧ reservations snap = rs ∧ snapshot_tenant_id snap = tenant ∧
  conflicts snap = state_conflicts sched telem ∧
  freshness_seconds snap = Z.max 0 (Z.quot (us now - us observed) 1000000) ∧
  quality snap = snapshot_quality (conflicts snap) (freshness_seconds snap).
Proof.
  unfold build. munfold.
  guard_case as E1; [done|]. guard_case as E2; [done|].
  guard_case as E3; [done|]. guard_case as E4; [done|].
  unfold dt_sub. destruct (Bool.eqb _ _); [|done]. intros [= <-]. simpl.
  apply has_duplicates_false in E2, E3. bprop. rewrite reserved_set_elements.
  split_and!; try done.
  apply existsb_false in E1. eapply Forall_impl; [exact E1|]. simpl. intros n Hn. by bprop.
Qed.

(** A snapshot the builder accepts counts capacity exactly once: its schedulable GPUs
    have distinct ids, none of them is reserved, and their number is the number of GPUs on
    ready nodes less what each reservation holds there; every node belongs to the snapshot's
    tenant; and it is graded good exactly when the schedulers' and telemetry's states agree
    on every node both report and it is at most 300 seconds old. *)
Theorem snapshot_capacity tenant topo src ns rs observed now sched telem snap
    (Hbuild : build digest tenant topo src ns rs observed now sched telem = Ok snap) :
  Forall (λ n, node_tenant_id n = snapshot_tenant_id snap) (nodes snap) ∧
  NoDup (map gpu_id (schedulable_gpus snap)) ∧
  (∀ g, g ∈ schedulable_gpus snap ↔
     g ∈ ready_gpus ns ∧ Forall (λ r, gpu_id g ∉ gpu_ids r) rs) ∧
  schedulable_gpu_count snap = Z.of_nat (length (ready_gpus ns)) - Z.of_nat (reserved_ready ns rs) ∧
  (quality snap = "good" ↔
     freshness_seconds snap <= 300 ∧
     ∀ k a b, sched !! k = Some a → telem !! k = Some b → a = b).
Proof.
  apply build_inv in Hbuild as (Ht & Hnd & Hnr & Hsub & <- & <- & <- & Hc & Hf & Hq).
  assert (NoDup (map gpu_id (ready_gpus (nodes snap)))) as Hready
    by (eapply sublist_NoDup; [exact Hnd|apply sublist_filter_bind]).
  split_and!; [done|..].
  - eapply sublist_NoDup; [exact Hready|]. apply sublist_map, sublist_of_filter.
  - intros g. unfold schedulable_gpus. rewrite list_elem_of_filter. unfold ready_gpus.
    rewrite Forall_forall. unfold reserved_set. rewrite elem_of_union_list.
    setoid_rewrite list_elem_of_fmap. naive_solver.
  - unfold schedulable_gpu_count, schedulable_gpus. fold (ready_gpus (nodes snap)).
    rewrite filter_id_count, <- (reserved_ready_size _ _ Hnr) by done. unfold ready_ids.
    assert (size (reserved_set (reservations snap) ∩ list_to_set (map gpu_id (ready_gpus (nodes snap))))
      ≤ length (ready_gpus (nodes snap)))%nat; [|lia].
    etrans; [apply subseteq_size, intersection_subseteq_r|].
    etrans; [apply size_list_to_set_le|]. by rewrite length_fmap.
  - rewrite Hq, Hc. unfold snapshot_quality. rewrite <- state_conflicts_nil.
    destruct (state_conflicts sched telem); [|naive_solver].
    destruct (300 <? freshness_seconds snap) eqn:E; bprop; split; try done; lia.
Qed.
End build_facts.

Definition sample_gpu (n : string) : Gpu := MkGpu n "H100" (dint 80) (Dec 7 (-1)) [].
Definition sample_nodes : list ComputeNode :=
  [MkComputeNode "node-a" "ten_acme" "site_sh" "asset-a" [sample_gpu "g1"; sample_gpu "g2"] 64 (dint 512) READY [];
   MkComputeNode "node-b" "ten_acme" "site_sh" "asset-b" [sample_gpu "g3"; sample_gpu "g4"] 64 (dint 512) MAINTENANCE [];
   MkComputeNode "node-c" "ten_acme" "site_sh" "asset-c" [sample_gpu "g5"] 64 (dint 512) READY []].
Definition sample_reservations : list Reservation :=
  [MkReservation "res-1" "ten_acme" {["g2"; "g3"]} (DT 0 true) (DT 10 true) "inference" true].
Definition sample_snapshot : ComputeSnapshot :=
  MkComputeSnapshot "snapshot-d" "ten_acme" 1 (DT 0 true) "sim" 60 "good" sample_nodes sample_reservations [].

Lemma snapshot_capacity_witness :
  build (λ _, "d") "ten_acme" 1 "sim" sample_nodes sample_reservations (DT 0 true) (DT 60000000 true) ∅ ∅
    = Ok sample_snapshot ∧
  schedulable_gpu_count sample_snapshot = 3 - 1.
Proof.
  assert (build (λ _, "d") "ten_acme" 1 "sim" sample_nodes sample_reservations (DT 0 true)
    (DT 60000000 true) ∅ ∅ = Ok sample_snapshot) as H by (by vm_compute).
  split; [exact H|]. exact (proj1 (proj2 (proj2 (proj2 (snapshot_capacity _ _ _ _ _ _ _ _ _ _ _ H))))).
Defined.

(** ** Health reconciliation *)

#[global] Instance health_key_order : CmpOrder health_key.
Proof. unfold health_key. apply _. Qed.

Lemma py_sorted_nil {A} (cmp : A → A → comparison) l : py_sorted cmp l = [] ↔ l = [].
Proof.
  split; [|by intros ->]. intros H. apply Permutation_nil_r. by rewrite <- (py_sorted_perm cmp l), H.
Qed.

Section health_facts.
Context (repr : pyval → string).

(** Two fresh observations report different values of [field]. *)
Definition disagree (fresh : list SourceObservation) (field : string) : Prop :=
  ∃ o o' v v', o ∈ fresh ∧ o' ∈ fresh ∧ od_get field (obs_values o) = Some v ∧
    od_get field (obs_values o') = Some v' ∧ repr v ≠ repr v'.

Lemma field_conflicts_spec fresh field :
  field_conflicts repr fresh field = true ↔ disagree fresh field.
Proof.
  unfold field_conflicts, disagree. rewrite Nat.ltb_lt, size_gt_1.
  split.
  - intros (x & y & Hx & Hy & Hne).
    apply elem_of_list_to_set, list_elem_of_omap in Hx as (o & Ho & (v & Hv & ->)%fmap_Some).
    apply elem_of_list_to_set, list_elem_of_omap in Hy as (o' & Ho' & (v' & Hv' & ->)%fmap_Some).
    by exists o, o', v, v'.
  - intros (o & o' & v & v' & Ho & Ho' & Hv & Hv' & Hne). exists (repr v), (repr v').
    split_and!; [..|done]; apply elem_of_list_to_set, list_elem_of_omap.
    + exists o. by rewrite Hv.
    + exists o'. by rewrite Hv'.
Qed.

(** Health reconciliation is total on well-formed input and correct on every branch: it
    raises exactly for a non-positive threshold or a naive timestamp; it reports stale exactly
    when no source is fresh; otherwise the selected source is a fresh one of greatest
    (priority, time, name) with its values, the conflicts are exactly the watched fields on
    which two fresh sources differ, and the state is healthy exactly when every source is
    fresh and none of those fields is in dispute. *)
Theorem reconcile_health_correct obs now freshness fields :
  let is_fresh o := us now - us (obs_at o) <= freshness in
  if (freshness <=? 0) || existsb (λ o, negb (aware (obs_at o))) obs || negb (aware now)
  then ∃ msg, reconcile_health repr obs now freshness fields = Err (ValueError msg)
  else ∃ r, reconcile_health repr obs now freshness fields = Ok r ∧
    (health_state r = STALE ↔ ∀ o, o ∈ obs → ¬ is_fresh o) ∧
    (health_state r ≠ STALE →
       (∃ o, o ∈ obs ∧ is_fresh o ∧ selected_source r = Some (obs_source o) ∧
          health_values r = obs_values o ∧
          ∀ o', o' ∈ obs → is_fresh o' → health_key o' o ≠ Gt) ∧
       (∀ f, f ∈ health_conflicts r ↔
          f ∈ fields ∧ disagree (base.filter is_fresh obs) f) ∧
       (health_state r = HEALTHY ↔ (∀ o, o ∈ obs → is_fresh o) ∧ health_conflicts r = [])) ∧
    (∀ s, s ∈ stale_sources r ↔ ∃ o, o ∈ obs ∧ ¬ is_fresh o ∧ obs_source o = s).
Proof.
  intros is_fresh. unfold reconcile_health. munfold.
  destruct (freshness <=? 0); simpl; [by eexists|].
  destruct (_ || negb (aware now)) eqn:Ea; simpl; [by eexists|]. clear Ea.
  set (fresh := base.filter (λ o, (us now - us (obs_at o) <=? freshness) = true) obs).
  set (stale := py_sorted _ _).
  assert (∀ o, o ∈ fresh ↔ o ∈ obs ∧ is_fresh o) as Hfresh.
  { intros o. unfold fresh, is_fresh. rewrite list_elem_of_filter, Z.leb_le. naive_solver. }
  assert (∀ s, s ∈ stale ↔ ∃ o, o ∈ obs ∧ ¬ is_fresh o ∧ obs_source o = s) as Hstale.
  { intros s. unfold stale, is_fresh. rewrite elem_of_py_sorted, list_elem_of_fmap.
    setoid_rewrite list_elem_of_filter. setoid_rewrite Z.leb_gt. setoid_rewrite Z.nle_gt. naive_solver. }
  assert (base.filter is_fresh obs = fresh) as ->.
  { apply list_filter_iff. intros o. unfold is_fresh. by rewrite Z.leb_le. }
  destruct fresh as [|o0 rest] eqn:Ef; eexists; (split; [done|]); simpl.
  - split_and!; [|done|done]. split; [|done]. intros _ o Ho Hf.
    apply (not_elem_of_nil o), Hfresh. done.
  - destruct (py_max_from_spec health_key o0 rest) as [Hin Hmax]. rewrite <- Ef in *.
    set (cs := py_sorted _ (base.filter _ _)).
    assert (∀ f, f ∈ cs ↔ f ∈ fields ∧ disagree fresh f) as Hcs.
    { intros f. unfold cs. rewrite elem_of_py_sorted, list_elem_of_filter, elem_of_elements.
      rewrite field_conflicts_spec. naive_solver. }
    assert (o0 ∈ obs ∧ is_fresh o0) as [Ho0 Hf0] by (apply Hfresh; rewrite Ef; left).
    assert (stale = [] ↔ ∀ o, o ∈ obs → is_fresh o) as Hall.
    { split.
      - intros Hs o Ho. destruct (decide (is_fresh o)) as [|Hn]; [done|]. exfalso.
        apply (not_elem_of_nil (obs_source o)). rewrite <- Hs. apply Hstale. eauto.
      - intros Ha. destruct stale as [|s l]; [done|]. exfalso.
        destruct (proj1 (Hstale s)) as (o & Ho & Hn & _); [left|]. by apply Hn, Ha. }
    split_and!; [|intros _; split_and!|done].
    + split; [destruct cs, stale; done|]. intros Hn. by destruct (Hn o0).
    + exists (py_max_from health_key o0 rest). apply Hfresh in Hin as [? ?]. split_and!; try done.
      intros o' Ho' Hf'. rewrite Forall_forall in Hmax. by apply Hmax, Hfresh.
    + done.
    + rewrite <- Hall. destruct cs, stale; naive_solver.
Qed.
End health_facts.
