(* ===== verification/Admission.v ===== *)
(** * Admission control: [packages/admission/service.py]

    [AdmissionService.evaluate] against the interface [QuotaService]: the theorems hold
    for any ledger that keeps the promises of [QuotaLaws], and so for both backends of
    [QuotaLedger]. *)
From S2P Require Import Prelude PyDecimal PyFloat Domain Workloads Quota Compute.
Local Open Scope Z_scope.

Record AdmissionResult := MkAdmissionResult {
  status : string;
  blocking_constraints : list string;
  capacity_shortfall : Z;
  earliest_feasible_window : option datetime
}.

(** GPUs of protected reservations *)
Definition protected_gpus (snap : ComputeSnapshot) : Z :=
  Z.of_nat (sum_list_with (λ r, size (gpu_ids r)) (base.filter (λ r, protected r = true) (reservations snap))).

Definition when (b : bool) (tag : string) : list string := if b then [tag] else [].

(** The checks before the quota, in the order they are appended. *)
Definition admission_blocking (job : Job) (snap : ComputeSnapshot) (now : datetime) : result (list string) :=
  let available := schedulable_gpu_count snap in
  let shortfall := Z.max 0 (gpu_count (request job) - available) in
  let completion := dt_add now (timedelta_hours (f64_of_dec (estimated_hours (request job)))) in
  late ← dt_ltb (deadline (sla job)) completion;
  Ok (when (negb (bool_decide (snapshot_tenant_id snap = job_tenant_id job))) "TENANT_SCOPE"
      ++ when (mem (quality snap) ["stale"; "conflict"]) "COMPUTE_DATA_QUALITY"
      ++ when (negb (shortfall =? 0)) "GPU_CAPACITY"
      ++ when late "DEADLINE"
      ++ when (negb (bool_decide (allowed_sites job = ∅))
               && negb (existsb (λ n, bool_decide (node_site_id n ∈ allowed_sites job)) (nodes snap)))
           "SOVEREIGNTY"
      ++ when (negb (bool_decide (workload_class job = ONLINE_INFERENCE))
               && (available - gpu_count (request job) <? protected_gpus snap))
           "PROTECTED_INFERENCE_RESERVATION").

Definition demand_hours (job : Job) : dec := dmul (dint (gpu_count (request job))) (estimated_hours (request job)).

Section service.
Context {S : Type} `{QuotaService S}.

Definition admission_result (blocking : list string) (shortfall : Z) (now : datetime) : AdmissionResult :=
  MkAdmissionResult (match blocking with [] => "admitted" | _ => "rejected" end) blocking shortfall
    (match blocking with [] => None | _ => Some (dt_add now 3600000000) end).

Definition evaluate (job : Job) (snap : ComputeSnapshot) (now : datetime) : M S AdmissionResult :=
  let shortfall := Z.max 0 (gpu_count (request job) - schedulable_gpu_count snap) in
  blocking ← mlift (admission_blocking job snap now);
  match blocking with
  | _ :: _ => mret (admission_result blocking shortfall now)
  | [] =>
      granted ← qs_reserve (job_tenant_id job) (gpu_count (request job)) (demand_hours job) (Some (job_id job));
      mret (admission_result (when (negb granted) "QUOTA") shortfall now)
  end.
End service.

(** What the checks before the quota establish. *)
Record feasible (job : Job) (snap : ComputeSnapshot) (now : datetime) : Prop := {
  feasible_tenant : snapshot_tenant_id snap = job_tenant_id job;
  feasible_quality : quality snap ≠ "stale" ∧ quality snap ≠ "conflict";
  feasible_capacity : gpu_count (request job) <= schedulable_gpu_count snap;
  feasible_deadline :
    us now + timedelta_hours (f64_of_dec (estimated_hours (request job))) <= us (deadline (sla job));
  feasible_sites : allowed_sites job = ∅ ∨ ∃ n, n ∈ nodes snap ∧ node_site_id n ∈ allowed_sites job;
  feasible_protected : workload_class job = ONLINE_INFERENCE ∨
    gpu_count (request job) + protected_gpus snap <= schedulable_gpu_count snap
}.

Lemma when_nil b tag : when b tag = [] ↔ b = false.
Proof. by destruct b. Qed.

Lemma admission_blocking_nil job snap now l : admission_blocking job snap now = Ok l →
  l = [] ↔ feasible job snap now.
Proof.
  unfold admission_blocking. munfold. destruct (dt_ltb _ _) as [late|] eqn:El; [|done]. intros [= <-].
  unfold dt_ltb in El. destruct (Bool.eqb _ _); [|done]. injection El as <-. simpl.
  rewrite !app_nil, !when_nil. rewrite mem_false, !not_elem_of_cons.
  rewrite !negb_false_iff, bool_decide_eq_true, !andb_false_iff, !negb_false_iff, !bool_decide_eq_true.
  rewrite existsb_true, Z.eqb_eq, !Z.ltb_ge. setoid_rewrite bool_decide_eq_true.
  split.
  - intros (?&(?&?&_)&?&?&?&?). split; auto; try lia. intuition lia.
  - intros [? [? ?] ? ? ? ?]. split_and!; auto; try lia; [|intuition lia]. intros ?%elem_of_nil; done.
Qed.

Section facts.
Context {S : Type} `{QuotaLaws S}.

(** Admission is sound and leaves nothing behind.  Against any quota ledger that keeps
    its promises, an evaluation that returns says admitted exactly when no constraint
    blocks; an admitted job belongs to the snapshot's tenant, the snapshot is neither stale
    nor in conflict, its GPUs fit the schedulable ones (keeping the protected count free
    unless it is online inference), it ends by its deadline, an allowed site has a node and
    its tenant is inside its quota with the demand reserved under the job id; a rejected
    job, and one whose evaluation raises, leaves the ledger as it was. *)
Theorem admission_sound (job : Job) (snap : ComputeSnapshot) (now : datetime) (s : S) (Hinv : qs_inv s) :
  let '(s', res) := evaluate job snap now s in
  qs_inv s' ∧
  match res with
  | Err _ => s' = s
  | Ok r =>
      capacity_shortfall r = Z.max 0 (gpu_count (request job) - schedulable_gpu_count snap) ∧
      (status r = "admitted" ↔ blocking_constraints r = []) ∧
      (status r = "admitted" →
         feasible job snap now ∧ earliest_feasible_window r = None ∧
         qs_reserve (job_tenant_id job) (gpu_count (request job)) (demand_hours job)
           (Some (job_id job)) s = (s', Ok true) ∧
         ∃ q, qs_limit s' (job_tenant_id job) = Some q ∧ within q (qs_usage s' (job_tenant_id job))) ∧
      (status r ≠ "admitted" →
         s' = s ∧ status r = "rejected" ∧ earliest_feasible_window r = Some (dt_add now 3600000000) ∧
         (blocking_constraints r = ["QUOTA"] ∨ ¬ feasible job snap now))
  end.
Proof.
  unfold evaluate. munfold. destruct (admission_blocking job snap now) as [l|e] eqn:El; [|done].
  pose proof (admission_blocking_nil _ _ _ _ El) as Hl.
  destruct l as [|b l].
  - pose proof (qs_reserve_inv (job_tenant_id job) (gpu_count (request job)) (demand_hours job)
      (Some (job_id job)) s Hinv) as Hi.
    pose proof (qs_reserve_refused (job_tenant_id job) (gpu_count (request job)) (demand_hours job)
      (Some (job_id job)) s) as Hr.
    pose proof (qs_reserve_granted (job_tenant_id job) (gpu_count (request job)) (demand_hours job)
      (Some (job_id job)) s Hinv) as Hg.
    destruct (qs_reserve _ _ _ _ s) as [s' [[]|e]] eqn:Eq; simpl in *.
    + split_and!; try done. intros _. split_and!; try done; [by apply Hl|by apply Hg].
    + rewrite Hr by done. split_and!; try done. intros _. split_and!; try done. by left.
    + by rewrite Hr.
  - simpl. split_and!; try done. intros _. split_and!; try done. right. rewrite <- Hl. done.
Qed.
End facts.

Definition sample_job : Job :=
  MkJob "job-1" "ten_acme" "prj" ONLINE_INFERENCE (MkResourceRequest 1 None 4 (dint 64) (Dec 15 (-1)) (Dec 7 (-1)))
    (MkSla (DT 7200000000 true) 50 None None) (DT 0 true) {["site_sh"]} ∅ [] true [].

Lemma admission_sound_witness :
  let s := (mem_configure "ten_acme" (MkQuota 8 (dint 100) 2) mem_init).1 in
  let '(s', res) := evaluate sample_job sample_snapshot (DT 60000000 true) s in
  res = Ok (MkAdmissionResult "admitted" [] 0 None) ∧
  ∃ q, mem_quotas s' !! "ten_acme" = Some q ∧ within q (mem_usage s' "ten_acme").
Proof.
  intros s. assert (mem_inv s) as Hs by apply mem_configure_inv, mem_inv_init.
  pose proof (admission_sound sample_job sample_snapshot (DT 60000000 true) s Hs) as Ht.
  assert ((evaluate sample_job sample_snapshot (DT 60000000 true) s).2
    = Ok (MkAdmissionResult "admitted" [] 0 None)) as He by (by vm_compute).
  destruct (evaluate _ _ _ s) as [s' res]. simpl in He. subst res. split; [done|].
  destruct Ht as (_ & _ & _ & Ha & _). by destruct (Ha eq_refl) as (_ & _ & _ & Hq).
Defined.
