(* ===== verification/Approval.v ===== *)
(** * Risk and approvals: [packages/risk/classifier.py], [packages/approval/workflow.py]

    [ApprovalWorkflow] has an in-process backend (a dict under a lock, the [mem_]
    definitions) and a PostgreSQL one (tables [approvals] and [approval_votes], the [pg_]
    definitions).  The votes table is the list of its rows in insertion order; the code
    only inserts rows with decision 'approved'. *)
From S2P Require Import Prelude Domain.
Local Open Scope Z_scope.

(** ** classifier.py *)

Inductive RiskLevel := L0 | L1 | L2 | L3 | L4.
#[global] Instance RiskLevel_eq_dec : EqDecision RiskLevel.
Proof. solve_decision. Defined.
Definition risk_int (r : RiskLevel) : Z :=
  match r with L0 => 0 | L1 => 1 | L2 => 2 | L3 => 3 | L4 => 4 end.

Definition classify (external_write energy_action reversible critical_service_impact
    safety_boundary_change : bool) : RiskLevel :=
  if safety_boundary_change then L4
  else if critical_service_impact || (energy_action && negb reversible) then L3
  else if external_write || energy_action then L2
  else if negb reversible then L1
  else L0.

(** ** workflow.py: data *)

Inductive ApprovalStatus := PENDING | APPROVED | REJECTED | EXPIRED.
#[global] Instance ApprovalStatus_eq_dec : EqDecision ApprovalStatus.
Proof. solve_decision. Defined.

Record ApprovalRequest := MkApprovalRequest {
  req_id : string; req_plan_id : string; req_tenant_id : string; req_risk : RiskLevel;
  requested_by : string; expires_at : datetime; required_roles : gset string;
  required_count : Z; approvals : list (string * string); req_status : ApprovalStatus
}.
#[global] Instance ApprovalRequest_eq_dec : EqDecision ApprovalRequest.
Proof. solve_decision. Defined.

(** [replace(request, ...)] *)
Definition with_status (st : ApprovalStatus) (r : ApprovalRequest) : ApprovalRequest :=
  MkApprovalRequest (req_id r) (req_plan_id r) (req_tenant_id r) (req_risk r) (requested_by r)
    (expires_at r) (required_roles r) (required_count r) (approvals r) st.
Definition with_approvals (a : list (string * string)) (r : ApprovalRequest) : ApprovalRequest :=
  MkApprovalRequest (req_id r) (req_plan_id r) (req_tenant_id r) (req_risk r) (requested_by r)
    (expires_at r) (required_roles r) (required_count r) a (req_status r).
Definition with_requirements (e : datetime) (roles : gset string) (n : Z) (r : ApprovalRequest) : ApprovalRequest :=
  MkApprovalRequest (req_id r) (req_plan_id r) (req_tenant_id r) (req_risk r) (requested_by r)
    e roles n (approvals r) (req_status r).

(** [2 if risk >= L3 else (1 if risk >= L2 else 0)] *)
Definition risk_minimum (r : RiskLevel) : Z :=
  if 3 <=? risk_int r then 2 else if 2 <=? risk_int r then 1 else 0.

(** The checks [create] makes before it chooses a backend *)
Definition create_guard (r : ApprovalRequest) : result unit :=
  raise_if (required_count r <? risk_minimum (req_risk r)) (ValueError "approval count below risk minimum");;
  raise_if ((0 <? required_count r) && bool_decide (required_roles r = ∅)) (ValueError "approval roles are required").

Definition validate_modification (st : ApprovalStatus) (requester actor : string) (risk : RiskLevel)
    (e : datetime) (roles : gset string) (n vote_count : Z) : result unit :=
  raise_if (negb (bool_decide (st = PENDING)) || negb (vote_count =? 0))
    (ValueError "only an unvoted pending approval can be modified");;
  raise_if (negb (bool_decide (actor = requester))) (PermissionError "only the approval requester can modify it");;
  raise_if ((n <? risk_minimum risk) || (negb (n =? 0) && bool_decide (roles = ∅)))
    (ValueError "approval requirements are below the risk minimum");;
  raise_if (negb (aware e)) (ValueError "approval expiry must be timezone-aware").

(** ** The in-process backend *)

Abbreviation mem_requests := (gmap string ApprovalRequest).

Definition mem_lookup (id : string) : M mem_requests ApprovalRequest :=
  s ← mget; mlift (of_option (KeyError id) (s !! id)).
Definition mem_store (id : string) (r : ApprovalRequest) : M mem_requests unit :=
  s ← mget; mput (<[id := r]> s).

Definition mem_create (r : ApprovalRequest) : M mem_requests unit :=
  mlift (create_guard r);;
  s ← mget;
  match s !! req_id r with
  | Some old =>
      mguard (negb (bool_decide (old = r))) (ValueError "approval ID already exists with different requirements")
  | None => mput (<[req_id r := r]> s)
  end.

Definition mem_approve (id actor role : string) (now : datetime) : M mem_requests ApprovalRequest :=
  r ← mem_lookup id;
  mguard (negb (bool_decide (req_status r = PENDING))) (ValueError "approval is not pending");;
  late ← mlift (dt_leb (expires_at r) now);
  if (late : bool) then
    mem_store id (with_status EXPIRED r);;
    mraise (ValueError "approval expired")
  else
    mguard (bool_decide (actor = requested_by r)) (PermissionError "requester cannot approve own high-risk action");;
    mguard (negb (bool_decide (role ∈ required_roles r))) (PermissionError "actor role cannot approve request");;
    if mem actor (approvals r).*1 then mret r
    else
      let a := approvals r ++ [(actor, role)] in
      let st := if required_count r <=? Z.of_nat (length a) then APPROVED else PENDING in
      let updated := with_status st (with_approvals a r) in
      mem_store id updated;;
      mret updated.

Definition mem_reject (id : string) : M mem_requests ApprovalRequest :=
  r ← mem_lookup id;
  if bool_decide (req_status r = REJECTED) then mret r
  else
    mguard (negb (bool_decide (req_status r = PENDING))) (ValueError "approval is not pending");;
    let updated := with_status REJECTED r in
    mem_store id updated;;
    mret updated.

Definition mem_modify (id actor : string) (e : datetime) (roles : gset string) (n : Z) : M mem_requests ApprovalRequest :=
  r ← mem_lookup id;
  mlift (validate_modification (req_status r) (requested_by r) actor (req_risk r) e roles n
    (Z.of_nat (length (approvals r))));;
  let updated := with_requirements e roles n r in
  mem_store id updated;;
  mret updated.

Definition mem_get (id : string) : M mem_requests ApprovalRequest := mem_lookup id.

Definition mem_list (s : mem_requests) (tenant : string) : list ApprovalRequest :=
  py_sorted (cmp_on req_id String.compare)
    (base.filter (λ r, req_tenant_id r = tenant) (map_to_list s).*2).

(** ** The PostgreSQL backend *)

Record approval_row := MkApprovalRow {
  row_plan_id : string; row_risk : RiskLevel; row_requested_by : string; row_expires_at : datetime;
  row_required_roles : gset string; row_required_count : Z; row_status : ApprovalStatus; row_version : Z
}.
Record vote_row := MkVote {
  vote_tenant : string; vote_approval : string; vote_actor : string; vote_role : string; decided_at : datetime
}.
Record approval_db := MkDb { db_approvals : gmap (string * string) approval_row; db_votes : list vote_row }.

Definition is_vote_of (t id : string) (v : vote_row) : Prop := vote_tenant v = t ∧ vote_approval v = id.
#[global] Instance is_vote_of_dec t id v : Decision (is_vote_of t id v).
Proof. unfold is_vote_of. apply _. Defined.

(** [SELECT actor_id, role ... ORDER BY decided_at, actor_id] *)
Definition select_votes (db : approval_db) (t id : string) : list (string * string) :=
  map (λ v, (vote_actor v, vote_role v))
    (py_sorted (cmp_then (cmp_on (λ v, us (decided_at v)) Z.compare) (cmp_on vote_actor String.compare))
       (base.filter (is_vote_of t id) (db_votes db))).

Definition count_votes (db : approval_db) (t id : string) : Z :=
  Z.of_nat (length (base.filter (is_vote_of t id) (db_votes db))).

(** The [ApprovalRequest] built from a row and its votes *)
Definition row_request (t id : string) (row : approval_row) (votes : list (string * string)) : ApprovalRequest :=
  MkApprovalRequest id (row_plan_id row) t (row_risk row) (row_requested_by row) (row_expires_at row)
    (row_required_roles row) (row_required_count row) votes (row_status row).

Definition row_set_status (st : ApprovalStatus) (r : approval_row) : approval_row :=
  MkApprovalRow (row_plan_id r) (row_risk r) (row_requested_by r) (row_expires_at r)
    (row_required_roles r) (row_required_count r) st (row_version r + 1).

Definition update_row (t id : string) (row : approval_row) : M approval_db unit :=
  db ← mget; mput (MkDb (<[(t, id) := row]> (db_approvals db)) (db_votes db)).

Section pg.
Context (txn : ∀ S A, M S A → M S A).

Definition select_row (t id : string) : M approval_db approval_row :=
  db ← mget; mlift (of_option (KeyError id) (db_approvals db !! (t, id))).

Definition pg_get (t id : string) : M approval_db ApprovalRequest :=
  mguard (bool_decide (t = "")) (ValueError "tenant_id is required for persistent approvals");;
  txn _ _ (row ← select_row t id; db ← mget; mret (row_request t id row (select_votes db t id))).

Definition pg_create (r : ApprovalRequest) : M approval_db unit :=
  mlift (create_guard r);;
  txn _ _ (
    db ← mget;
    match db_approvals db !! (req_tenant_id r, req_id r) with
    | Some old =>
        let same_request :=
          bool_decide (row_plan_id old = req_plan_id r) && (risk_int (row_risk old) =? risk_int (req_risk r))
          && bool_decide (row_requested_by old = requested_by r) && bool_decide (row_expires_at old = expires_at r)
          && bool_decide (row_required_roles old = required_roles r)
          && (row_required_count old =? required_count r) in
        mguard (negb same_request) (ValueError "approval ID already exists with different requirements")
    | None =>
        mput (MkDb (<[(req_tenant_id r, req_id r) :=
          MkApprovalRow (req_plan_id r) (req_risk r) (requested_by r) (expires_at r) (required_roles r)
            (required_count r) (req_status r) 1]> (db_approvals db)) (db_votes db))
    end).

(** [Some r]: the early [return] inside the [with] block *)
Definition pg_approve_block (t id actor role : string) (now : datetime) : M approval_db (option ApprovalRequest) :=
  row ← select_row t id;
  mguard (negb (bool_decide (row_status row = PENDING))) (ValueError "approval is not pending");;
  late ← mlift (dt_leb (row_expires_at row) now);
  if (late : bool) then
    update_row t id (row_set_status EXPIRED row);;
    mraise (ValueError "approval expired")
  else
    mguard (bool_decide (actor = row_requested_by row)) (PermissionError "requester cannot approve own high-risk action");;
    mguard (negb (bool_decide (role ∈ row_required_roles row))) (PermissionError "actor role cannot approve request");;
    db ← mget;
    if existsb (λ v, bool_decide (is_vote_of t id v) && bool_decide (vote_actor v = actor)) (db_votes db)
    then mret (Some (row_request t id row (select_votes db t id)))
    else
      mput (MkDb (db_approvals db) (db_votes db ++ [MkVote t id actor role now]));;
      db' ← mget;
      let st := if row_required_count row <=? count_votes db' t id then APPROVED else PENDING in
      update_row t id (row_set_status st row);;
      mret None.

Definition pg_approve (t id actor role : string) (now : datetime) : M approval_db ApprovalRequest :=
  mguard (bool_decide (t = "")) (ValueError "tenant_id is required for persistent approvals");;
  early ← txn _ _ (pg_approve_block t id actor role now);
  match early with Some r => mret r | None => pg_get t id end.

Definition pg_reject (t id : string) : M approval_db ApprovalRequest :=
  mguard (bool_decide (t = "")) (ValueError "tenant_id is required for persistent approvals");;
  txn _ _ (
    db ← mget;
    match db_approvals db !! (t, id) with
    | None => mraise (KeyError id)
    | Some row =>
        if bool_decide (row_status row = PENDING) then update_row t id (row_set_status REJECTED row)
        else mguard (negb (bool_decide (row_status row = REJECTED))) (ValueError "approval is not pending")
    end);;
  pg_get t id.

Definition pg_modify (t id actor : string) (e : datetime) (roles : gset string) (n : Z) : M approval_db ApprovalRequest :=
  mguard (bool_decide (t = "")) (ValueError "tenant_id is required for persistent approvals");;
  txn _ _ (
    row ← select_row t id;
    db ← mget;
    mlift (validate_modification (row_status row) (row_requested_by row) actor (row_risk row) e roles n
      (count_votes db t id));;
    update_row t id (MkApprovalRow (row_plan_id row) (row_risk row) (row_requested_by row) e roles n
      (row_status row) (row_version row + 1)));;
  pg_get t id.

Definition pg_list (t : string) : M approval_db (list ApprovalRequest) := λ db,
  let ids := py_sorted String.compare
    (omap (λ kv, if bool_decide (kv.1.1 = t) then Some kv.1.2 else None) (map_to_list (db_approvals db))) in
  (db, mapM_result (λ id, (pg_get t id db).2) ids).
End pg.

(** ** What both backends implement: one request as a state machine *)

Definition spec_approve (actor role : string) (now : datetime) : M ApprovalRequest ApprovalRequest :=
  r ← mget;
  mguard (negb (bool_decide (req_status r = PENDING))) (ValueError "approval is not pending");;
  late ← mlift (dt_leb (expires_at r) now);
  if (late : bool) then mput (with_status EXPIRED r);; mraise (ValueError "approval expired")
  else
    mguard (bool_decide (actor = requested_by r)) (PermissionError "requester cannot approve own high-risk action");;
    mguard (negb (bool_decide (role ∈ required_roles r))) (PermissionError "actor role cannot approve request");;
    if mem actor (approvals r).*1 then mret r
    else
      let a := approvals r ++ [(actor, role)] in
      mput (with_status (if required_count r <=? Z.of_nat (length a) then APPROVED else PENDING)
        (with_approvals a r));;
      mget.

Definition spec_reject : M ApprovalRequest ApprovalRequest :=
  r ← mget;
  if bool_decide (req_status r = REJECTED) then mret r
  else
    mguard (negb (bool_decide (req_status r = PENDING))) (ValueError "approval is not pending");;
    mput (with_status REJECTED r);; mget.

Definition spec_modify (actor : string) (e : datetime) (roles : gset string) (n : Z) : M ApprovalRequest ApprovalRequest :=
  r ← mget;
  mlift (validate_modification (req_status r) (requested_by r) actor (req_risk r) e roles n
    (Z.of_nat (length (approvals r))));;
  mput (with_requirements e roles n r);; mget.

(** The request well-formedness every operation keeps: requirements at or above the risk
    minimum; votes by distinct people, none of them the requester, each in a required role;
    approved only with enough votes, and pending only while votes are missing. *)
Record sound_request (r : ApprovalRequest) : Prop := {
  sound_minimum : risk_minimum (req_risk r) <= required_count r;
  sound_distinct : NoDup (approvals r).*1;
  sound_requester : requested_by r ∉ (approvals r).*1;
  sound_roles : Forall (λ v, v.2 ∈ required_roles r) (approvals r);
  sound_approved : req_status r = APPROVED → required_count r <= Z.of_nat (length (approvals r));
  sound_pending : req_status r = PENDING → approvals r = [] ∨ Z.of_nat (length (approvals r)) < required_count r
}.

(** Requests that differ at most in the order of their votes *)
#[global] Instance request_equiv : Equiv ApprovalRequest := λ a b,
  approvals a ≡ₚ approvals b ∧ with_approvals [] a = with_approvals [] b.

#[global] Instance request_equivalence : Equivalence (≡@{ApprovalRequest}).
Proof.
  split.
  - by intros r.
  - intros a b [? ?]. by split.
  - intros a b c [H1 H2] [H3 H4]. split; [by rewrite H1|by rewrite H2].
Qed.

#[global] Instance sound_request_proper : Proper ((≡) ==> iff) sound_request.
Proof.
  assert (∀ a b : ApprovalRequest, a ≡ b → sound_request a → sound_request b) as Himp.
  { intros a b [Hp Hw] []. destruct a, b. unfold with_approvals in Hw. simpl in *. injection Hw; intros; subst.
    split; simpl in *; try done; try by rewrite <- Hp.
    - intros Hs. destruct (sound_pending0 Hs) as [->|]; [left|right].
      + by apply Permutation_nil_l in Hp.
      + by rewrite <- (Permutation_length Hp). }
  intros a b Hab. split; by apply Himp.
Qed.

Definition fresh_request (r : ApprovalRequest) : Prop := approvals r = [] ∧ req_status r = PENDING.

Lemma create_sound r : create_guard r = Ok tt → fresh_request r → sound_request r.
Proof.
  unfold create_guard. munfold. destruct (_ <? _) eqn:E; [done|]. intros _ [Ha Hs]. bprop.
  split; rewrite ?Ha, ?Hs; simpl; first [done|by left|apply NoDup_nil_2|apply not_elem_of_nil|constructor].
Qed.

Lemma spec_approve_sound actor role now r : sound_request r → sound_request (spec_approve actor role now r).1.
Proof.
  intros Hr. unfold spec_approve. munfold.
  guard_case as Ep; [done|]. destruct (dt_leb _ _) as [[]|]; simpl; [|..|done].
  { destruct Hr. by split. }
  guard_case as Ea; [done|]. guard_case as Er; [done|]. if_case as Em; [done|].
  bprop. apply mem_false in Em. destruct Hr. split; simpl; try done.
  - rewrite fmap_app. apply NoDup_app. split_and!; [done| |apply NoDup_singleton].
    intros x Hx ->%list_elem_of_singleton. done.
  - rewrite fmap_app; csimpl; rewrite elem_of_app, list_elem_of_singleton. intros [?|?]; [done|]. congruence.
  - apply Forall_app. split; [done|]. by repeat constructor.
  - destruct (_ <=? _) eqn:El; [|done]. intros _. by bprop.
  - destruct (_ <=? _) eqn:El; [done|]. intros _. right. bprop. lia.
Qed.

Lemma spec_reject_sound r : sound_request r → sound_request (spec_reject r).1.
Proof.
  intros Hr. unfold spec_reject. munfold. if_case as E; [done|]. guard_case as Ep; [done|].
  destruct Hr. by split.
Qed.

Lemma spec_modify_sound actor e roles n r : sound_request r → sound_request (spec_modify actor e roles n r).1.
Proof.
  intros Hr. unfold spec_modify, validate_modification. munfold.
  guard_case as E1; [done|]. guard_case as E2; [done|]. guard_case as E3; [done|]. guard_case as E4; [done|].
  bprop. assert (approvals r = []) as Ha by (destruct (approvals r); [done|simpl in *; lia]).
  destruct Hr. split; simpl; rewrite ?Ha in *; try done; [congruence|by left].
Qed.

(** ** The in-process backend runs the state machine on the request it names *)

(** An operation on one request as one on the dict. *)
Definition on_request {A} (id : string) (m : M ApprovalRequest A) : M mem_requests A := λ s,
  match s !! id with
  | None => (s, Err (KeyError id))
  | Some r => (<[id := (m r).1]> s, (m r).2)
  end.

Lemma on_request_unfold {A} id (m : M ApprovalRequest A) s r :
  s !! id = Some r → on_request id m s = (<[id := (m r).1]> s, (m r).2).
Proof. unfold on_request. by intros ->. Qed.

Lemma mem_approve_spec id actor role now s :
  mem_approve id actor role now s = on_request id (spec_approve actor role now) s.
Proof.
  unfold mem_approve, mem_lookup, mem_store, on_request. munfold.
  destruct (s !! id) as [r|] eqn:E; [|done]. simpl. unfold spec_approve. munfold.
  guard_case as Ep; [by rewrite insert_id|]. destruct (dt_leb _ _) as [[]|]; simpl; [done| |by rewrite insert_id].
  guard_case as Ea; [by rewrite insert_id|]. guard_case as Er; [by rewrite insert_id|].
  if_case as Em; [by rewrite insert_id|done].
Qed.

Lemma mem_reject_spec id s : mem_reject id s = on_request id spec_reject s.
Proof.
  unfold mem_reject, mem_lookup, mem_store, on_request. munfold.
  destruct (s !! id) as [r|] eqn:E; [|done]. simpl. unfold spec_reject. munfold.
  if_case as Er; [by rewrite insert_id|]. guard_case as Ep; [by rewrite insert_id|done].
Qed.

Lemma mem_modify_spec id actor e roles n s :
  mem_modify id actor e roles n s = on_request id (spec_modify actor e roles n) s.
Proof.
  unfold mem_modify, mem_lookup, mem_store, on_request. munfold.
  destruct (s !! id) as [r|] eqn:E; [|done]. simpl. unfold spec_modify. munfold.
  destruct (validate_modification _ _ _ _ _ _ _ _) as [[]|]; simpl; [done|by rewrite insert_id].
Qed.

Inductive approval_op :=
| OpCreate (r : ApprovalRequest)
| OpApprove (tenant id actor role : string) (now : datetime)
| OpReject (tenant id : string)
| OpModify (tenant id actor : string) (e : datetime) (roles : gset string) (n : Z).

(** Requests are created pending and without votes. *)
Definition op_fresh (o : approval_op) : Prop := match o with OpCreate r => fresh_request r | _ => True end.

Definition mem_step (s : mem_requests) (o : approval_op) : mem_requests :=
  match o with
  | OpCreate r => (mem_create r s).1
  | OpApprove _ id actor role now => (mem_approve id actor role now s).1
  | OpReject _ id => (mem_reject id s).1
  | OpModify _ id actor e roles n => (mem_modify id actor e roles n s).1
  end.

Definition mem_sound (s : mem_requests) : Prop := map_Forall (λ _, sound_request) s.

Lemma on_request_sound {A} id (m : M ApprovalRequest A) s :
  (∀ r, sound_request r → sound_request (m r).1) → mem_sound s → mem_sound (on_request id m s).1.
Proof.
  intros Hm Hs. unfold on_request. destruct (s !! id) as [r|] eqn:E; [|done]. simpl.
  apply map_Forall_insert_2; [|done]. by apply Hm, (Hs id).
Qed.

Lemma mem_step_sound s o : op_fresh o → mem_sound s → mem_sound (mem_step s o).
Proof.
  destruct o as [r|? id actor role now|? id|? id actor e roles n]; simpl; intros Hf Hs.
  - unfold mem_create. munfold. destruct (create_guard r) as [[]|] eqn:Eg; [|done]. simpl.
    destruct (s !! req_id r); simpl; [done|].
    apply map_Forall_insert_2; [|done]. by apply create_sound.
  - rewrite mem_approve_spec. apply on_request_sound; [|done]. apply spec_approve_sound.
  - rewrite mem_reject_spec. apply on_request_sound; [|done]. apply spec_reject_sound.
  - rewrite mem_modify_spec. apply on_request_sound; [|done]. intros. by apply spec_modify_sound.
Qed.

(** The four-eyes rule on one request *)
Definition four_eyes (r : ApprovalRequest) : Prop :=
  req_status r = APPROVED →
  risk_minimum (req_risk r) <= Z.of_nat (length (approvals r)) ∧ NoDup (approvals r).*1 ∧
  (requested_by r ∉ (approvals r).*1) ∧ Forall (λ v, v.2 ∈ required_roles r) (approvals r).

Lemma sound_four_eyes r : sound_request r → four_eyes r.
Proof. intros [] Hs. split_and!; try done. specialize (sound_approved0 Hs). lia. Qed.

(** ** The PostgreSQL backend *)

(** What [get] shows of a stored request *)
Definition pg_view (db : approval_db) (t id : string) : option ApprovalRequest :=
  (λ row, row_request t id row (select_votes db t id)) <$> db_approvals db !! (t, id).

Lemma select_votes_perm db t id :
  select_votes db t id ≡ₚ map (λ v, (vote_actor v, vote_role v)) (base.filter (is_vote_of t id) (db_votes db)).
Proof. unfold select_votes. apply fmap_Permutation, py_sorted_perm. Qed.

Lemma select_votes_eq db db' t id : db_votes db = db_votes db' → select_votes db t id = select_votes db' t id.
Proof. unfold select_votes. by intros ->. Qed.

Lemma select_votes_add db ap t id actor role now :
  select_votes (MkDb ap (db_votes db ++ [MkVote t id actor role now])) t id ≡ₚ
  (select_votes db t id ++ [(actor, role)]).
Proof.
  rewrite !select_votes_perm. simpl. rewrite filter_app. rewrite map_app.
  rewrite filter_cons_True by done. by rewrite filter_nil.
Qed.

Lemma select_votes_other db ap t id actor role now t' id' : (t', id') ≠ (t, id) →
  select_votes (MkDb ap (db_votes db ++ [MkVote t id actor role now])) t' id' = select_votes db t' id'.
Proof.
  intros Hne. unfold select_votes. simpl. rewrite filter_app, (filter_cons_False _ (MkVote _ _ _ _ _)).
  - by rewrite filter_nil, app_nil_r.
  - intros [? ?]. simpl in *. congruence.
Qed.

Lemma count_votes_length db t id : count_votes db t id = Z.of_nat (length (select_votes db t id)).
Proof. unfold count_votes. by rewrite select_votes_perm, length_map. Qed.

Lemma voted_mem db t id actor :
  existsb (λ v, bool_decide (is_vote_of t id v) && bool_decide (vote_actor v = actor)) (db_votes db)
  = mem actor (select_votes db t id).*1.
Proof.
  apply eq_bool_prop_intro. rewrite !Is_true_true, existsb_true, mem_true, select_votes_perm.
  rewrite list_elem_of_fmap. split.
  - intros (v & Hv & Hb). bprop. exists (vote_actor v, vote_role v). split; [done|].
    apply list_elem_of_fmap. exists v. split; [done|]. by apply list_elem_of_filter.
  - intros ([a ro] & -> & Hv). apply list_elem_of_fmap in Hv as (v & [= -> ->] & [? ?]%list_elem_of_filter).
    exists v. split; [done|]. by rewrite !bool_decide_true.
Qed.

(** A view changes only where the row or the votes do. *)
Lemma pg_view_update db t id row t' id' :
  pg_view (MkDb (<[(t, id) := row]> (db_approvals db)) (db_votes db)) t' id' =
  if decide ((t', id') = (t, id)) then Some (row_request t id row (select_votes db t id)) else pg_view db t' id'.
Proof.
  unfold pg_view. simpl. case_decide as Hd.
  - injection Hd as -> ->. by rewrite lookup_insert_eq.
  - by rewrite lookup_insert_ne by congruence.
Qed.

(** The foreign key of [approval_votes] *)
Definition pg_fk (db : approval_db) : Prop :=
  Forall (λ v, is_Some (db_approvals db !! (vote_tenant v, vote_approval v))) (db_votes db).

Lemma pg_fk_update db t id row : pg_fk db → pg_fk (MkDb (<[(t, id) := row]> (db_approvals db)) (db_votes db)).
Proof.
  intros Hfk. eapply Forall_impl; [exact Hfk|]. simpl. intros v Hv.
  apply lookup_insert_is_Some'. by right.
Qed.

Section pg_facts.
Context `{Htxn : !Transactional txn}.

Lemma pg_get_spec db t id : t ≠ "" →
  pg_get txn t id db = (db, of_option (KeyError id) (pg_view db t id)).
Proof using Htxn.
  intros Ht. unfold pg_get, pg_view, select_row. munfold. rewrite bool_decide_false by done. simpl.
  rewrite txn_atomically. unfold atomically. munfold.
  by destruct (db_approvals db !! (t, id)) as [row|] eqn:E; simpl.
Qed.

(** What it means that an operation of this backend runs [m] on the request [(t, id)]:
    an error of [m] is raised with the tables untouched (the transaction is rolled back);
    otherwise the stored request becomes the one [m] produces (up to the order of the votes),
    that is what the call returns, and every other request is as before. *)
Definition pg_runs (t id : string) (m : M ApprovalRequest ApprovalRequest)
    (op : M approval_db ApprovalRequest) : Prop :=
  ∀ db, match pg_view db t id with
  | None => op db = (db, Err (KeyError id))
  | Some r =>
      match m r with
      | (_, Err e) => op db = (db, Err e)
      | (r', Ok _) =>
          ∃ db' x, op db = (db', Ok x) ∧ x ≡ r' ∧ pg_view db' t id = Some x ∧
            (∀ t' id', (t', id') ≠ (t, id) → pg_view db' t' id' = pg_view db t' id') ∧
            (pg_fk db → pg_fk db')
      end
  end.

Lemma pg_approve_runs t id actor role now : t ≠ "" →
  pg_runs t id (spec_approve actor role now) (pg_approve txn t id actor role now).
Proof using Htxn.
  intros Ht db. unfold pg_approve, pg_approve_block, select_row, pg_view at 1. munfold.
  rewrite bool_decide_false by done. simpl. rewrite txn_atomically. unfold atomically. munfold.
  destruct (db_approvals db !! (t, id)) as [row|] eqn:E; simpl; [|done].
  unfold spec_approve. munfold. guard_case as Ep; [done|].
  destruct (dt_leb (row_expires_at row) now) as [[]|]; simpl; [done| |done].
  guard_case as Ea; [done|]. guard_case as Er; [done|]. rewrite voted_mem.
  destruct (mem actor (select_votes db t id).*1) eqn:Em; simpl.
  - exists db, (row_request t id row (select_votes db t id)). split_and!; try done.
    unfold pg_view. by rewrite E.
  - rewrite pg_get_spec by done.
    set (db1 := MkDb (db_approvals db) (db_votes db ++ _)).
    set (st := if row_required_count row <=? count_votes db1 t id then APPROVED else PENDING).
    rewrite (pg_view_update db1). rewrite decide_True by done. simpl.
    eexists _, _. split_and!; [done| | | |].
    + pose proof (select_votes_add db (db_approvals db) t id actor role now) as Hv. fold db1 in Hv.
      split; simpl; [done|]. unfold st. by rewrite count_votes_length, (Permutation_length Hv).
    + rewrite (pg_view_update db1). by rewrite decide_True by done.
    + intros t' id' Hne. rewrite (pg_view_update db1). rewrite decide_False by done.
      unfold pg_view. unfold db1 at 1. by rewrite select_votes_other.
    + intros Hfk. apply (pg_fk_update db1), Forall_app. split; [done|]. repeat constructor. simpl. by rewrite E.
Qed.

Lemma pg_reject_runs t id : t ≠ "" → pg_runs t id spec_reject (pg_reject txn t id).
Proof using Htxn.
  intros Ht db. unfold pg_reject, pg_view at 1. munfold. rewrite bool_decide_false by done. simpl.
  rewrite txn_atomically. unfold atomically. munfold.
  destruct (db_approvals db !! (t, id)) as [row|] eqn:E; simpl; [|done].
  unfold spec_reject. munfold. destruct (row_status row) eqn:Es; simpl; try done; rewrite pg_get_spec by done.
  - rewrite pg_view_update, decide_True by done. simpl.
    eexists _, _. split_and!; [done|done| | |apply pg_fk_update].
    + by rewrite pg_view_update, decide_True by done.
    + intros. by rewrite pg_view_update, decide_False by done.
  - exists db, (row_request t id row (select_votes db t id)).
    assert (pg_view db t id = Some (row_request t id row (select_votes db t id))) as Hv
      by (unfold pg_view; by rewrite E). by rewrite Hv.
Qed.

Lemma pg_modify_runs t id actor e roles n : t ≠ "" →
  pg_runs t id (spec_modify actor e roles n) (pg_modify txn t id actor e roles n).
Proof using Htxn.
  intros Ht db. unfold pg_modify, pg_view at 1, select_row. munfold. rewrite bool_decide_false by done. simpl.
  rewrite txn_atomically. unfold atomically. munfold.
  destruct (db_approvals db !! (t, id)) as [row|] eqn:E; simpl; [|done].
  unfold spec_modify. munfold. rewrite count_votes_length.
  destruct (validate_modification _ _ _ _ _ _ _ _) as [[]|]; simpl; [|done].
  rewrite pg_get_spec, pg_view_update, decide_True by done. simpl.
  eexists _, _. split_and!; [done|done| | |apply pg_fk_update].
  - by rewrite pg_view_update, decide_True by done.
  - intros. by rewrite pg_view_update, decide_False by done.
Qed.

Definition pg_step (db : approval_db) (o : approval_op) : approval_db :=
  match o with
  | OpCreate r => (pg_create txn r db).1
  | OpApprove t id actor role now => (pg_approve txn t id actor role now db).1
  | OpReject t id => (pg_reject txn t id db).1
  | OpModify t id actor e roles n => (pg_modify txn t id actor e roles n db).1
  end.

Definition pg_sound (db : approval_db) : Prop :=
  pg_fk db ∧ ∀ t id r, pg_view db t id = Some r → sound_request r.

Lemma pg_runs_sound t id m op db :
  pg_runs t id m op → (∀ r, sound_request r → sound_request (m r).1) → pg_sound db → pg_sound (op db).1.
Proof.
  intros Hrun Hm [Hfk Hs]. specialize (Hrun db). destruct (pg_view db t id) as [r|] eqn:Ev.
  - pose proof (Hm r (Hs _ _ _ Ev)) as Hr. destruct (m r) as [r' [x|e]]; simpl in *.
    + destruct Hrun as (db' & y & -> & Hy & Hv & Hother & Hfk'). split; [by apply Hfk'|]. simpl.
      intros t' id' r0 Hr0. destruct (decide ((t', id') = (t, id))) as [[= -> ->]|Hne].
      * rewrite Hv in Hr0. injection Hr0 as <-. by rewrite Hy.
      * rewrite Hother in Hr0 by done. eauto.
    + rewrite Hrun. done.
  - by rewrite Hrun.
Qed.

Lemma pg_create_sound r db : fresh_request r → pg_sound db → pg_sound (pg_create txn r db).1.
Proof using Htxn.
  intros Hf [Hfk Hs]. unfold pg_create. munfold. destruct (create_guard r) as [[]|] eqn:Eg; [|done]. simpl.
  rewrite txn_atomically. unfold atomically. munfold.
  destruct (db_approvals db !! (req_tenant_id r, req_id r)) as [old|] eqn:E; simpl.
  { by destruct (_ && _). }
  split; [by apply pg_fk_update|]. intros t id r0. rewrite pg_view_update. case_decide as Hd; [|by apply Hs].
  intros [= <-]. assert (select_votes db (req_tenant_id r) (req_id r) = []) as Hnil.
  { apply Permutation_nil_r. rewrite select_votes_perm.
    apply Permutation_nil_r. destruct (base.filter _ _) as [|v l] eqn:Ef; [done|]. exfalso.
    assert (v ∈ v :: l) as Hv by left. rewrite <- Ef in Hv. apply list_elem_of_filter in Hv as [[Hvt Hva] Hv].
    unfold pg_fk in Hfk. rewrite Forall_forall in Hfk. destruct (Hfk v Hv) as [x Hx]. congruence. }
  rewrite Hnil. destruct Hf as [Ha Hst]. pose proof (create_sound r Eg (conj Ha Hst)) as Hr.
  destruct r. simpl in *. by subst.
Qed.

Lemma pg_step_sound db o : op_fresh o → pg_sound db → pg_sound (pg_step db o).
Proof using Htxn.
  destruct o as [r|t id actor role now|t id|t id actor e roles n]; simpl; intros Hf Hs.
  - by apply pg_create_sound.
  - destruct (decide (t = "")) as [->|Ht]; [done|].
    eapply pg_runs_sound; [by apply pg_approve_runs|apply spec_approve_sound|done].
  - destruct (decide (t = "")) as [->|Ht]; [done|].
    eapply pg_runs_sound; [by apply pg_reject_runs|apply spec_reject_sound|done].
  - destruct (decide (t = "")) as [->|Ht]; [done|].
    eapply pg_runs_sound; [by apply pg_modify_runs|intros; by apply spec_modify_sound|done].
Qed.
End pg_facts.

(** ** Properties *)

(** C6: Four-eyes rule.  In both backends, whatever sequence of create, approve, reject and
    modify calls is served (requests being created pending and without votes), a request that is
    approved carries at least the minimum number of votes its risk demands (two from L3 on),
    cast by distinct people none of whom is the requester, each in a role the request requires. *)
Theorem approved_four_eyes (txn : ∀ S A, M S A → M S A) (Htxn : Transactional txn)
    (ops : list approval_op) (Hfresh : Forall op_fresh ops) :
  map_Forall (λ _, four_eyes) (foldl mem_step ∅ ops) ∧
  ∀ t id r, t ≠ "" →
    (pg_get txn t id (foldl (pg_step (txn:=txn)) (MkDb ∅ []) ops)).2 = Ok r → four_eyes r.
Proof.
  split.
  - assert (mem_sound (foldl mem_step ∅ ops)) as Hs.
    { assert (mem_sound ∅) as H0 by apply map_Forall_empty. revert H0. generalize (∅ : mem_requests).
      induction Hfresh as [|o ops Ho Hops IH]; intros s Hs; simpl; [done|]. by apply IH, mem_step_sound. }
    intros id r Hr. by apply sound_four_eyes, (Hs id).
  - assert (pg_sound (foldl (pg_step (txn:=txn)) (MkDb ∅ []) ops)) as [_ Hs].
    { assert (pg_sound (MkDb ∅ [])) as H0 by (split; [constructor|done]). revert H0.
      generalize (MkDb ∅ []).
      induction Hfresh as [|o ops Ho Hops IH]; intros s Hs; simpl; [done|]. by apply IH, pg_step_sound. }
    intros t id r Ht. rewrite pg_get_spec by done. simpl.
    destruct (pg_view _ t id) as [r'|] eqn:E; [|done]. intros [= <-]. eauto using sound_four_eyes.
Qed.

Definition sample_request : ApprovalRequest :=
  MkApprovalRequest "apr-1" "plan-1" "ten_acme" (classify true true false false false) "alice"
    (DT 1000 true) {["energy_manager"]} 2 [] PENDING.
Definition sample_approvals : list approval_op :=
  [OpCreate sample_request;
   OpApprove "ten_acme" "apr-1" "alice" "energy_manager" (DT 1 true);
   OpApprove "ten_acme" "apr-1" "bob" "energy_manager" (DT 2 true);
   OpApprove "ten_acme" "apr-1" "bob" "energy_manager" (DT 3 true);
   OpApprove "ten_acme" "apr-1" "carol" "energy_manager" (DT 3 true)].

Lemma approved_four_eyes_witness :
  let r := with_status APPROVED
    (with_approvals [("bob", "energy_manager"); ("carol", "energy_manager")] sample_request) in
  foldl mem_step ∅ sample_approvals !! "apr-1" = Some r ∧ four_eyes r.
Proof.
  intros r. assert (Forall op_fresh sample_approvals) as Hf by (repeat constructor).
  assert (foldl mem_step ∅ sample_approvals !! "apr-1" = Some r) as Hr by (by vm_compute).
  split; [exact Hr|].
  exact (proj1 (approved_four_eyes (@atomically) _ sample_approvals Hf) "apr-1" r Hr).
Defined.

(** C10: Both backends implement the same request state machine.  Each in-process call runs the
    machine on the stored request it names; each PostgreSQL call commits exactly the machine's
    outcome for that request (up to the order of votes) and leaves every other request alone, and
    when the machine raises it raises the same exception with the tables unchanged. *)
Theorem approval_backends_refine (txn : ∀ S A, M S A → M S A) (Htxn : Transactional txn) :
  (∀ id actor role now s, mem_approve id actor role now s = on_request id (spec_approve actor role now) s) ∧
  (∀ id s, mem_reject id s = on_request id spec_reject s) ∧
  (∀ id actor e roles n s, mem_modify id actor e roles n s = on_request id (spec_modify actor e roles n) s) ∧
  (∀ t id actor role now, t ≠ "" → pg_runs t id (spec_approve actor role now) (pg_approve txn t id actor role now)) ∧
  (∀ t id, t ≠ "" → pg_runs t id spec_reject (pg_reject txn t id)) ∧
  (∀ t id actor e roles n, t ≠ "" →
     pg_runs t id (spec_modify actor e roles n) (pg_modify txn t id actor e roles n)).
Proof.
  split_and!.
  - apply mem_approve_spec.
  - apply mem_reject_spec.
  - apply mem_modify_spec.
  - intros. by apply pg_approve_runs.
  - intros. by apply pg_reject_runs.
  - intros. by apply pg_modify_runs.
Qed.

Lemma approval_backends_refine_witness :
  ∃ db' x, pg_reject (@atomically) "ten_acme" "apr-1"
      (foldl (pg_step (txn:=@atomically)) (MkDb ∅ []) [OpCreate sample_request]) = (db', Ok x) ∧
    x ≡ with_status REJECTED sample_request.
Proof.
  destruct (proj1 (proj2 (proj2 (proj2 (proj2 (approval_backends_refine (@atomically) _))))) "ten_acme" "apr-1"
    ltac:(done) (foldl (pg_step (txn:=@atomically)) (MkDb ∅ []) [OpCreate sample_request])) as (db' & x & H1 & H2 & _).
  exists db', x. split; [exact H1|exact H2].
Defined.

(** Expiry is not recorded by the PostgreSQL backend.  Approving a pending request at or
    after its expiry raises in both backends, but the in-process one stores the request as
    expired while the transaction of the other is rolled back by the exception, so the request
    stays pending there; its requester can then extend an unvoted one, which the in-process
    backend refuses. *)
Theorem approval_expiry_rolled_back (txn : ∀ S A, M S A → M S A) (Htxn : Transactional txn)
    (db : approval_db) (s : mem_requests) (t id actor role : string) (now e : datetime) (r : ApprovalRequest)
    (Ht : t ≠ "") (Hdb : pg_view db t id = Some r) (Hs : s !! id = Some r)
    (Hp : req_status r = PENDING) (Hlate : dt_leb (expires_at r) now = Ok true)
    (Hunvoted : approvals r = []) (Hsound : sound_request r) (Hroles : required_roles r ≠ ∅) (He : aware e = true) :
  pg_approve txn t id actor role now db = (db, Err (ValueError "approval expired")) ∧
  mem_approve id actor role now s = (<[id := with_status EXPIRED r]> s, Err (ValueError "approval expired")) ∧
  (∃ db' x, pg_modify txn t id (requested_by r) e (required_roles r) (required_count r) db = (db', Ok x) ∧
     req_status x = PENDING ∧ expires_at x = e) ∧
  (mem_modify id (requested_by r) e (required_roles r) (required_count r)
     (mem_approve id actor role now s).1).2
    = Err (ValueError "only an unvoted pending approval can be modified").
Proof.
  assert (spec_approve actor role now r = (with_status EXPIRED r, Err (ValueError "approval expired"))) as Hsp.
  { unfold spec_approve. munfold. by rewrite Hp, Hlate. }
  assert (mem_approve id actor role now s = (<[id := with_status EXPIRED r]> s, Err (ValueError "approval expired"))) as Hm.
  { by rewrite mem_approve_spec, (on_request_unfold _ _ _ _ Hs), Hsp. }
  split_and!.
  - pose proof (pg_approve_runs t id actor role now Ht db) as Hrun. by rewrite Hdb, Hsp in Hrun.
  - done.
  - pose proof (pg_modify_runs t id (requested_by r) e (required_roles r) (required_count r) Ht db) as Hrun.
    rewrite Hdb in Hrun.
    assert (spec_modify (requested_by r) e (required_roles r) (required_count r) r =
      (with_requirements e (required_roles r) (required_count r) r,
       Ok (with_requirements e (required_roles r) (required_count r) r))) as Hspec.
    { unfold spec_modify, validate_modification. munfold. destruct Hsound.
      rewrite Hp, Hunvoted, He. simpl. rewrite !bool_decide_true by done. simpl.
      rewrite (proj2 (Z.ltb_ge _ _)) by done. by rewrite bool_decide_false, andb_false_r. }
    rewrite Hspec in Hrun. destruct Hrun as (db' & x & -> & [_ Hx] & _). exists db', x.
    split; [done|]. destruct x. unfold with_approvals, with_requirements in Hx. simpl in *.
    injection Hx; intros; by subst.
  - rewrite Hm, mem_modify_spec, (on_request_unfold _ _ _ (with_status EXPIRED r)) by apply lookup_insert_eq.
    done.
Qed.

Lemma approval_expiry_rolled_back_witness :
  let db := foldl (pg_step (txn:=@atomically)) (MkDb ∅ []) [OpCreate sample_request] in
  pg_approve (@atomically) "ten_acme" "apr-1" "bob" "energy_manager" (DT 2000 true) db
    = (db, Err (ValueError "approval expired")).
Proof.
  intros db.
  refine (proj1 (approval_expiry_rolled_back (@atomically) _ db {["apr-1" := sample_request]}
    "ten_acme" "apr-1" "bob" "energy_manager" (DT 2000 true) (DT 3000 true) sample_request _ _ _ _ _ _ _ _ _));
    try done; try by vm_compute.
  apply create_sound; done || by vm_compute.
Defined.
