(* ===== verification/Guard.v ===== *)
(** * Execution guards: [packages/execution]

    [action_guard.py]: the checks an action passes before it is dispatched; [adapters.py],
    [compute.py], [energy.py]: the executors and the validation in front of a provider
    gateway; [external.py]: the release gate in front of external writes.

    A gateway is third-party code: it is an argument, a computation over the state [W] of the
    world it acts on.  In [external.py] the outcomes of the file system, of
    [verify_evidence] and of [verify_release_token] are inputs of the gate. *)
From S2P Require Import Prelude PyDecimal PyValue Domain Approval.
From Stdlib Require Import QArith Lqa.
Local Open Scope Z_scope.

(** ** action_guard.py *)

Record Action := MkAction {
  action_id : string; action_plan_id : string; action_tenant_id : string; action_target : string;
  action_kind : string; expected_state_version : string; parameters : list (string * pyval);
  bounds : list (string * (dec * dec)); timeout_seconds : Z; idempotency_key : string;
  action_risk : RiskLevel; created_at : datetime; compensation_kind : option string
}.
Record GuardDecision := MkGuardDecision { allowed : bool; reasons : list string }.

Definition PROHIBITED_ENERGY_COMMANDS : list string := ["breaker"; "relay"; "pcs_switch"; "firmware"].

Definition reason (b : bool) (tag : string) : list string := if b then [tag] else [].

(** [not minimum <= value <= maximum] *)
Definition out_of_bounds (lo hi : dec) (v : pynum) : result bool :=
  a ← pynum_leb (Finite lo) v;
  if (a : bool) then b ← pynum_leb v (Finite hi); Ok (negb b) else Ok true.

(** One round of the loop over [action.bounds]: [except (KeyError, ValueError)] does not catch
    [decimal.InvalidOperation]. *)
Definition bound_reason (params : list (string * pyval)) (b : string * (dec * dec)) : result (list string) :=
  let '(name, (lo, hi)) := b in
  match od_get name params with
  | None => Ok ["BOUND_VALUE_MISSING:" +:+ name]
  | Some raw =>
      match decimal_of_val raw with
      | Err (KeyError _) | Err (ValueError _) => Ok ["BOUND_VALUE_MISSING:" +:+ name]
      | Err e => Err e
      | Ok v => bad ← out_of_bounds lo hi v; Ok (reason bad ("BOUND_VIOLATION:" +:+ name))
      end
  end.

Definition approval_reason (a : Action) (now : datetime) (approval : option ApprovalRequest) : result (list string) :=
  if risk_int (action_risk a) <? 2 then Ok []
  else match approval with
  | None => Ok ["VALID_APPROVAL_REQUIRED"]
  | Some r =>
      if negb (bool_decide (req_status r = APPROVED)) then Ok ["VALID_APPROVAL_REQUIRED"]
      else if negb (bool_decide (req_plan_id r = action_plan_id a))
              || negb (bool_decide (req_tenant_id r = action_tenant_id a))
      then Ok ["APPROVAL_SCOPE_MISMATCH"]
      else late ← dt_leb (expires_at r) now; Ok (reason late "APPROVAL_EXPIRED")
  end.

(** [ActionGuard.evaluate]; [max_age] is a timedelta in microseconds. *)
Definition guard_evaluate (whitelist : gset string) (max_age : Z) (a : Action) (current_state_version : string)
    (now : datetime) (approval : option ApprovalRequest) : result GuardDecision :=
  age ← dt_sub now (created_at a);
  bound_reasons ← mapM_result (bound_reason (parameters a)) (bounds a);
  approval_reasons ← approval_reason a now approval;
  let rs :=
    reason (negb (bool_decide (action_kind a ∈ whitelist))) "ACTION_NOT_WHITELISTED"
    ++ reason (mem (action_kind a) PROHIBITED_ENERGY_COMMANDS) "PROHIBITED_LOW_LEVEL_ENERGY_COMMAND"
    ++ reason (negb (bool_decide (current_state_version = expected_state_version a))) "STALE_TARGET_STATE"
    ++ reason (max_age <? age) "STALE_ACTION"
    ++ concat bound_reasons ++ approval_reasons in
  Ok (MkGuardDecision (bool_decide (rs = [])) rs).

(** ** adapters.py *)

Definition dict : Type := list (string * pyval).

(** [SimulatorExecutor]: its state is a dict of dicts, kept by key *)
Definition sim_dry_run (kind : string) (params : dict) : dict :=
  [("valid", VBool true); ("kind", VStr kind); ("would_apply", VDict params)].

Record evidence := MkEvidence { ev_status : string; ev_previous : dict; ev_current : dict }.

Definition sim_execute (kind : string) (params : dict) : M dict evidence :=
  state ← mget;
  let previous := state in
  mput (od_set kind (VDict params) state);;
  state' ← mget;
  mret (MkEvidence "executed" previous state').

Definition sim_compensate (e : evidence) : M dict evidence :=
  mput (ev_previous e);;
  state ← mget;
  mret (MkEvidence "compensated" [] state).

Definition readonly_dry_run (kind : string) (params : dict) : dict :=
  [("valid", VBool true); ("read_only", VBool true); ("kind", VStr kind); ("would_apply", VDict params)].
Definition readonly_execute {W} (kind : string) (params : dict) : M W unit :=
  mraise (PermissionError "external execution remains read-only until guarded certification").

(** ** compute.py and energy.py *)

Section adapters.
Context {W R : Type}.
Context (gateway_dry_run : string → string → dict → M W R).
Context (gateway_execute : string → string → dict → string → M W R).

Definition ALLOWED_COMPUTE_KINDS : gset string :=
  {["schedule_job"; "cancel_job"; "pause_checkpointable_job"; "resume_job"]}.

Definition compute_validate (allowed_kinds : gset string) (kind : string) (params : dict) : result unit :=
  raise_if (negb (bool_decide (kind ∈ allowed_kinds))) (PermissionError "compute action is not allowlisted");;
  raise_if (negb (py_bool (VDict params))) (ValueError "compute action parameters are required").

Definition compute_dry_run (allowed_kinds : gset string) (target kind : string) (params : dict) : M W R :=
  mlift (compute_validate allowed_kinds kind params);;
  gateway_dry_run target kind params.

Definition compute_execute (allowed_kinds : gset string) (target kind : string) (params : dict) (key : string) : M W R :=
  mlift (compute_validate allowed_kinds kind params);;
  mguard (Z.of_nat (String.length key) <? 8) (ValueError "compute action idempotency key is too short");;
  gateway_execute target kind params key.

Definition PROHIBITED_FIELDS : list string := ["breaker"; "relay"; "firmware"; "contactor"; "register_address"].

(** [abs(dispatch) > maximum]: infinities exceed any bound, a NaN raises. *)
Definition dispatch_exceeds (v : pynum) (maximum : dec) : result bool :=
  match v with
  | Finite d => Ok (dltb maximum (dabs d))
  | Infinite _ => Ok true
  | NaN => Err InvalidOperation
  end.

Definition energy_validate (maximum_dispatch_kw : dec) (params : dict) : result unit :=
  raise_if (existsb (λ kv, mem kv.1 PROHIBITED_FIELDS) params)
    (PermissionError "low-level electrical control is prohibited");;
  dispatch ← decimal_of_val (default (VInt 0) (od_get "dispatch_kw" params));
  too_big ← dispatch_exceeds dispatch maximum_dispatch_kw;
  raise_if too_big (ValueError "energy dispatch exceeds certified bound");;
  raise_if (bool_decide (od_get "valid_until" params = None)) (ValueError "energy plan requires an expiry").

Definition energy_dry_run (maximum : dec) (target : string) (params : dict) : M W R :=
  mlift (energy_validate maximum params);;
  gateway_dry_run target "set_dispatch_plan" params.

Definition energy_execute (maximum : dec) (target : string) (params : dict) (key : string) : M W R :=
  mlift (energy_validate maximum params);;
  mguard (Z.of_nat (String.length key) <? 8) (ValueError "energy action idempotency key is too short");;
  gateway_execute target "set_dispatch_plan" params key.
End adapters.

(** ** external.py *)

Record settings := MkSettings {
  external_writes_allowed : bool;
  release_certificate : option string;
  release_commit : pyval;
  executor_url : option string;
  executor_target : option string
}.

Section external.
Context {W : Type}.
Context (key_file_exists : bool) (registry_integrity : bool).
(** [verify_release_token], its [PyJWTError], [OSError] and [ValueError] being the caught ones *)
Context (verify_release_token : string → result dict).
(** the parsed revocation registry, [None] when it cannot be read or parsed *)
Context (registry : option dict).

Definition get_or_none (k : string) (d : dict) : pyval := default VNone (od_get k d).

Definition is_caught (e : exn) : bool :=
  match e with ValueError _ | OtherError _ => true | _ => false end.

Definition revoked (claims : dict) (reg : dict) : result bool :=
  match default (VList []) (od_get "revocations" reg) with
  | VList entries =>
      Ok (existsb (λ e, match e with
        | VDict d => py_eq (get_or_none "certificate_hash" d) (get_or_none "certificate_hash" claims)
        | _ => false end) entries)
  | VStr _ | VDict _ => Ok false
  | _ => Err TypeError
  end.

(** [ReleaseGate.validate] *)
Definition gate_validate (cfg : settings) : result dict :=
  raise_if (negb (external_writes_allowed cfg)) (PermissionError "external execution feature gate is closed");;
  raise_if (negb key_file_exists) (PermissionError "release certification public key is unavailable");;
  raise_if (negb registry_integrity) (PermissionError "release revocation registry is unavailable or invalid");;
  token ← of_option (PermissionError "release certification token is unavailable") (release_certificate cfg);
  claims ← match verify_release_token token with
           | Ok c => Ok c
           | Err e => if is_caught e then Err (PermissionError "release certification token is invalid") else Err e
           end;
  raise_if (negb (py_eq (get_or_none "status" claims) (VStr "CERTIFIED"))) (PermissionError "release is not certified");;
  raise_if (negb (py_eq (get_or_none "commit" claims) (release_commit cfg)))
    (PermissionError "release certificate does not match running commit");;
  reg ← of_option (PermissionError "release revocation registry cannot be read") registry;
  bad ← revoked claims reg;
  raise_if bad (PermissionError "release certificate has been revoked");;
  Ok claims.

(** [_client] and [_check_target]: the checks before a connection is opened *)
Definition client_check (cfg : settings) : result unit :=
  raise_if (negb (match executor_url cfg with Some u => String.prefix "https://" u | None => false end))
    (PermissionError "guarded executor HTTPS URL is not configured").
Definition check_target (cfg : settings) (target : string) : result unit :=
  raise_if (match executor_target cfg with
            | Some t => bool_decide (t = "") || negb (bool_decide (target = t)) | None => true end)
    (PermissionError "action target is not the configured provider gateway").

(** the provider: [post path body key release_id] and what [response.json()] gives *)
Context (post : string → dict → string → string → M W pyval).
(** [str(claims["release_id"])] *)
Context (str_of : pyval → string).

(** [GuardedHttpExecutor.execute] *)
Definition guarded_execute (cfg : settings) (target kind : string) (params : dict) (key : string) : M W dict :=
  mlift (check_target cfg target);;
  claims ← mlift (gate_validate cfg);
  mlift (client_check cfg);;
  release ← mlift (of_option (KeyError "release_id") (od_get "release_id" claims));
  answer ← post "/v1/actions" [("kind", VStr kind); ("parameters", VDict params)] key (str_of release);
  match answer with
  | VDict d =>
      mguard (negb (py_eq (get_or_none "status" d) (VStr "accepted") || py_eq (get_or_none "status" d) (VStr "executed")))
        (RuntimeError "provider did not acknowledge action execution");;
      mret d
  | _ => mraise (RuntimeError "provider did not acknowledge action execution")
  end.

Context (post_dry_run : string → dict → M W pyval).
Definition guarded_dry_run (cfg : settings) (target kind : string) (params : dict) : M W dict :=
  mlift (check_target cfg target);;
  mlift (client_check cfg);;
  answer ← post_dry_run "/v1/actions/dry-run" [("kind", VStr kind); ("parameters", VDict params)];
  match answer with
  | VDict d =>
      mguard (match od_get "valid" d with Some (VBool true) => false | _ => true end)
        (ValueError "provider dry-run did not validate the action");;
      mret d
  | _ => mraise (ValueError "provider dry-run did not validate the action")
  end.
End external.

(** ** What an allowed action has passed *)

Definition in_bounds (params : dict) (b : string * (dec * dec)) : Prop :=
  ∃ raw v, od_get b.1 params = Some raw ∧ decimal_of_val raw = Ok (Finite v) ∧
    (dval b.2.1 <= dval v <= dval b.2.2)%Q.

Definition approval_covers (a : Action) (now : datetime) (approval : option ApprovalRequest) : Prop :=
  ∃ r, approval = Some r ∧ req_status r = APPROVED ∧ req_plan_id r = action_plan_id a ∧
    req_tenant_id r = action_tenant_id a ∧ us now < us (expires_at r).

Record permitted (whitelist : gset string) (max_age : Z) (a : Action) (version : string) (now : datetime)
    (approval : option ApprovalRequest) : Prop := {
  permitted_kind : action_kind a ∈ whitelist;
  permitted_level : action_kind a ∉ PROHIBITED_ENERGY_COMMANDS;
  permitted_state : version = expected_state_version a;
  permitted_age : us now - us (created_at a) <= max_age;
  permitted_bounds : Forall (in_bounds (parameters a)) (bounds a);
  permitted_approval : 2 <= risk_int (action_risk a) → approval_covers a now approval
}.

Lemma reason_nil b tag : reason b tag = [] ↔ b = false.
Proof. by destruct b. Qed.

Lemma bound_reason_nil params b l : bound_reason params b = Ok l → l = [] ↔ in_bounds params b.
Proof.
  destruct b as [name [lo hi]]. unfold bound_reason, in_bounds. simpl.
  destruct (od_get name params) as [raw|]; [|intros [= <-]; split; [done|intros (? & ? & ? & ? & ?); congruence]].
  destruct (decimal_of_val raw) as [v|e] eqn:Ev.
  - unfold out_of_bounds. munfold. destruct v as [d|[]|]; simpl.
    + destruct (dleb lo d) eqn:E1; simpl; intros [= <-]; [rewrite reason_nil, negb_false_iff|].
      * dprop. split.
        -- intros E2. dprop. by exists raw, d.
        -- intros (? & v & [= <-] & ? & [? ?]). assert (v = d) as -> by congruence. by apply dleb_true.
      * dprop. split; [done|]. intros (? & v & [= <-] & ? & [? ?]). assert (v = d) as -> by congruence. simpl in *. lra.
    + intros [= <-]. split; [done|intros (? & ? & ? & ? & ?); congruence].
    + intros [= <-]. split; [done|intros (? & ? & ? & ? & ?); congruence].
    + done.
  - intros Hl. destruct e; try done; injection Hl as <-; (split; [done|intros (? & ? & ? & ? & ?); congruence]).
Qed.

Lemma bounds_reasons_nil params bs ls : mapM_result (bound_reason params) bs = Ok ls →
  concat ls = [] ↔ Forall (in_bounds params) bs.
Proof.
  intros Hl. apply mapM_result_Forall2 in Hl.
  induction Hl as [|b l bs ls Hb Hl IH]; simpl; [split; [constructor|done]|].
  rewrite app_nil, Forall_cons, IH, (bound_reason_nil _ _ _ Hb). done.
Qed.

Lemma approval_reason_nil a now approval l : approval_reason a now approval = Ok l →
  l = [] ↔ (2 <= risk_int (action_risk a) → approval_covers a now approval).
Proof.
  unfold approval_reason, approval_covers. munfold.
  destruct (Z.ltb_spec (risk_int (action_risk a)) 2) as [Hr|Hr].
  { intros [= <-]. split; [lia|done]. }
  assert (∀ (P : Prop), (2 <= risk_int (action_risk a) → P) ↔ P) as HP by (intros; split; [intros H; by apply H|done]).
  rewrite HP. destruct approval as [r|]; [|intros [= <-]; naive_solver].
  destruct (bool_decide (req_status r = APPROVED)) eqn:Es; simpl; [|intros [= <-]; bprop; naive_solver].
  destruct (_ || _) eqn:Ec.
  { intros [= <-]. split; [done|]. intros (r' & [= <-] & _ & ? & ? & _). bprop. destruct Ec; by bprop. }
  destruct (dt_leb _ _) as [late|] eqn:El; [|done]. intros [= <-]. rewrite reason_nil. bprop.
  unfold dt_leb in El. destruct (Bool.eqb _ _); [|done]. injection El as <-. rewrite Z.leb_gt. naive_solver.
Qed.

(** ** Properties *)

Lemma guard_decides (whitelist : gset string) (max_age : Z) (a : Action) (version : string)
    (now : datetime) (approval : option ApprovalRequest) (d : GuardDecision)
    (Hd : guard_evaluate whitelist max_age a version now approval = Ok d) :
  (allowed d = true ↔ permitted whitelist max_age a version now approval) ∧
  (allowed d = true ↔ reasons d = []).
Proof.
  unfold guard_evaluate in Hd. munfold. destruct (dt_sub now (created_at a)) as [age|] eqn:Ea; [|done].
  destruct (mapM_result _ _) as [bs|] eqn:Eb; [|done]. destruct (approval_reason _ _ _) as [ar|] eqn:Er; [|done].
  injection Hd as <-. simpl. rewrite bool_decide_eq_true. split; [|done].
  unfold dt_sub in Ea. destruct (Bool.eqb _ _); [|done]. injection Ea as <-.
  rewrite !app_nil, !reason_nil, (bounds_reasons_nil _ _ _ Eb), (approval_reason_nil _ _ _ _ Er).
  rewrite !negb_false_iff, !bool_decide_eq_true, mem_false, Z.ltb_ge.
  split; [intros (?&?&?&?&?&?); by split|intros []; done].
Qed.

(** C26: The action guard is sound and complete on every action it decides: it allows exactly
    the actions whose kind is whitelisted and not a low-level energy command, whose expected
    state version is current, that are not older than the limit, whose every bounded parameter
    is present and numerically inside its bounds, and which, from risk L2 on, carry an approved,
    unexpired approval of the same plan and tenant; and it gives no reason exactly then. *)
Theorem guard_allows_iff (whitelist : gset string) (max_age : Z) (a : Action) (version : string)
    (now : datetime) (approval : option ApprovalRequest) (d : GuardDecision)
    (Hd : guard_evaluate whitelist max_age a version now approval = Ok d) :
  (allowed d = true ↔ permitted whitelist max_age a version now approval) ∧
  (allowed d = true ↔ reasons d = []).
Proof. by apply guard_decides. Qed.

Definition sample_action : Action :=
  MkAction "act-1" "plan-1" "ten_acme" "ess-1" "set_dispatch_plan" "v7"
    [("dispatch_kw", VStr "12.5")] [("dispatch_kw", (dint (-50), dint 50))] 30 "idem-0001" L2 (DT 0 true) None.
Definition sample_approval : ApprovalRequest :=
  with_status APPROVED (with_approvals [("bob", "energy_manager"); ("carol", "energy_manager")] sample_request).

Lemma guard_allows_iff_witness :
  permitted {["set_dispatch_plan"]} 300000000 sample_action "v7" (DT 10 true) (Some sample_approval).
Proof.
  assert (guard_evaluate {["set_dispatch_plan"]} 300000000 sample_action "v7" (DT 10 true) (Some sample_approval)
    = Ok (MkGuardDecision true [])) as Hd by (by vm_compute).
  exact (proj1 (proj1 (guard_allows_iff _ _ _ _ _ _ _ Hd)) eq_refl).
Defined.

(** A bounded parameter that is present but not a numeral is not reported as a reason: the
    guard's handler catches [KeyError] and [ValueError] only, so [decimal.InvalidOperation]
    escapes [evaluate], whatever the other checks say. *)
Theorem guard_nonnumeric_escapes (whitelist : gset string) (max_age : Z) (a : Action) (version : string)
    (now : datetime) (approval : option ApprovalRequest) (name : string) (lo hi : dec) (raw : pyval)
    (pre post : list (string * (dec * dec)))
    (Haware : aware now = aware (created_at a))
    (Hb : bounds a = pre ++ (name, (lo, hi)) :: post)
    (Hpre : Forall (λ b, is_ok (bound_reason (parameters a) b) = true) pre)
    (Hraw : od_get name (parameters a) = Some raw) (Hbad : decimal_of_val raw = Err InvalidOperation) :
  guard_evaluate whitelist max_age a version now approval = Err InvalidOperation.
Proof.
  unfold guard_evaluate, dt_sub. munfold. rewrite Haware, eqb_reflx, Hb.
  assert (mapM_result (bound_reason (parameters a)) (pre ++ (name, (lo, hi)) :: post) = Err InvalidOperation) as ->;
    [|done].
  clear Hb. induction Hpre as [|b pre Hb1 Hpre IH].
  - unfold bound_reason at 1. simpl. by rewrite Hraw, Hbad.
  - cbn [app mapM_result]. destruct (bound_reason (parameters a) b); [|done]. by rewrite IH.
Qed.

Lemma guard_nonnumeric_escapes_witness :
  let a := MkAction "act-1" "plan-1" "ten_acme" "ess-1" "set_dispatch_plan" "v7"
    [("dispatch_kw", VStr "full")] [("dispatch_kw", (dint (-50), dint 50))] 30 "idem-0001" L0 (DT 0 true) None in
  guard_evaluate {["set_dispatch_plan"]} 300000000 a "v7" (DT 10 true) None = Err InvalidOperation.
Proof.
  intros a.
  refine (guard_nonnumeric_escapes _ _ a _ _ _ "dispatch_kw" (dint (-50)) (dint 50) (VStr "full") [] [] _ _ _ _ _);
    done || by vm_compute.
Defined.

(** Every gate in front of the provider is open for a target. *)
Definition gates_open (key_file_exists registry_integrity : bool) (verify : string → result dict) (registry : option dict)
    (cfg : settings) (target : string) : Prop :=
  executor_target cfg = Some target ∧ target ≠ "" ∧
  external_writes_allowed cfg = true ∧ key_file_exists = true ∧ registry_integrity = true ∧
  (∃ u, executor_url cfg = Some u ∧ String.prefix "https://" u = true) ∧
  ∃ token claims reg,
    release_certificate cfg = Some token ∧ verify token = Ok claims ∧ registry = Some reg ∧
    py_eq (get_or_none "status" claims) (VStr "CERTIFIED") = true ∧
    py_eq (get_or_none "commit" claims) (release_commit cfg) = true ∧
    revoked claims reg = Ok false.

Lemma guarded_execute_gates {W} (key_file_exists registry_integrity : bool)
    (verify : string → result dict) (registry : option dict)
    (post : string → dict → string → string → M W pyval) (str_of : pyval → string)
    (cfg : settings) (target kind : string) (params : dict) (key : string) (w : W) :
  let run := guarded_execute key_file_exists registry_integrity verify registry post str_of cfg target kind params key w in
  run.1 = w ∧ is_ok run.2 = false ∨
  gates_open key_file_exists registry_integrity verify registry cfg target.
Proof.
  unfold gates_open, guarded_execute, check_target, gate_validate, client_check, of_option. munfold.
  guard_case as Et; [by left|]. guard_case as E1; [by left|]. guard_case as E2; [by left|].
  guard_case as E3; [by left|]. destruct (release_certificate cfg) as [token|] eqn:Ec; [|by left].
  destruct (verify token) as [claims|e] eqn:Ev; [|left; by destruct (is_caught e)].
  guard_case as E4; [by left|]. guard_case as E5; [by left|].
  destruct registry as [reg|] eqn:Ereg; [|by left]. destruct (revoked claims reg) as [bad|] eqn:Erev; [|by left].
  guard_case as E6; [by left|]. guard_case as E7; [by left|]. right. bprop.
  destruct (executor_target cfg) as [t|] eqn:Etarget; [|done]. bprop. subst t.
  destruct (executor_url cfg) as [u|] eqn:Eu; [|done].
  split_and!; try done; [by exists u|]. exists token, claims, reg. by subst bad.
Qed.

(** Nothing reaches the external provider unless every gate is open.  A guarded execution
    that changes the world outside, or returns, has a configured matching target, an HTTPS
    endpoint, the feature gate open, the key file and an intact revocation registry, and a
    verified certificate that says CERTIFIED for the running commit and whose hash no registry
    entry revokes; otherwise it raises before the request is sent. *)
Theorem guarded_execute_gated {W} (key_file_exists registry_integrity : bool)
    (verify : string → result dict) (registry : option dict)
    (post : string → dict → string → string → M W pyval) (str_of : pyval → string)
    (cfg : settings) (target kind : string) (params : dict) (key : string) (w : W) :
  let run := guarded_execute key_file_exists registry_integrity verify registry post str_of cfg target kind params key w in
  run.1 = w ∧ is_ok run.2 = false ∨
  executor_target cfg = Some target ∧ target ≠ "" ∧
  external_writes_allowed cfg = true ∧ key_file_exists = true ∧ registry_integrity = true ∧
  (∃ u, executor_url cfg = Some u ∧ String.prefix "https://" u = true) ∧
  ∃ token claims reg,
    release_certificate cfg = Some token ∧ verify token = Ok claims ∧ registry = Some reg ∧
    py_eq (get_or_none "status" claims) (VStr "CERTIFIED") = true ∧
    py_eq (get_or_none "commit" claims) (release_commit cfg) = true ∧
    revoked claims reg = Ok false.
Proof. apply guarded_execute_gates. Qed.
