(* ===== verification/Idempotency.v ===== *)
(** * Exactly-once execution: [packages/execution/idempotency.py], [compensation.py]

    [IdempotencyStore.execute_once] runs in three phases: it claims the key (under the lock, or
    in one transaction), runs the operation outside, and records the outcome.  The phases are
    separate definitions, [execute_once] composes them, and the step relations [mem_step] and
    [pg_step] interleave the phases of any number of callers.  The digest of the intent is an
    argument.  [V] is the type of operation results; the JSON round trip of a stored result
    is the parameter [reload]. *)
From S2P Require Import Prelude PyValue Guard.
Local Open Scope Z_scope.

Inductive exec_status := Started | Failed | Succeeded.
#[global] Instance exec_status_eq_dec : EqDecision exec_status.
Proof. solve_decision. Defined.

Record cancellation := MkCancellation {
  can_action : string; can_tenant : string; can_actor : string; can_reason : string
}.
#[global] Instance cancellation_eq_dec : EqDecision cancellation.
Proof. solve_decision. Defined.

Definition cancel_guard (action tenant actor rsn : string) : result cancellation :=
  raise_if (bool_decide (action = "") || bool_decide (tenant = "") || bool_decide (actor = "")
            || bool_decide (py_strip rsn = ""))
    (ValueError "action cancellation requires action, tenant, actor and reason");;
  Ok (MkCancellation action tenant actor (py_strip rsn)).

Abbreviation ident := (string * string)%type.

Section store.
Context {V : Type}.

(** ** The in-process store *)

Record mem_store := MkMemStore {
  results : gmap ident (string * V);
  action_status : gmap ident exec_status;
  cancellations : gmap ident cancellation
}.
Definition mem_empty : mem_store := MkMemStore ∅ ∅ ∅.

(** The first locked block: [Some v] when the recorded result is returned, [None] when the
    caller goes on to run the operation. *)
Definition mem_begin (scope key action digest : string) : M mem_store (option V) :=
  s ← mget;
  mguard (bool_decide (is_Some (cancellations s !! (scope, action))))
    (PermissionError "action was cancelled before execution");;
  match results s !! (scope, key) with
  | Some (previous_digest, r) =>
      mguard (negb (bool_decide (previous_digest = digest)))
        (ValueError "idempotency key reused with different intent");;
      mret (Some r)
  | None =>
      mguard (bool_decide (action_status s !! (scope, action) = Some Started))
        (RuntimeError "matching action execution is already in progress");;
      mput (MkMemStore (results s) (<[(scope, action) := Started]> (action_status s)) (cancellations s));;
      mret None
  end.

Definition mem_fail (scope action : string) : M mem_store unit :=
  s ← mget;
  mput (MkMemStore (results s) (<[(scope, action) := Failed]> (action_status s)) (cancellations s)).

Definition mem_succeed (scope key action digest : string) (v : V) : M mem_store unit :=
  s ← mget;
  mput (MkMemStore (<[(scope, key) := (digest, v)]> (results s))
    (<[(scope, action) := Succeeded]> (action_status s)) (cancellations s)).

(** [execute_once] called while no other caller interferes; [operation] acts on a world [W]. *)
Definition mem_execute_once {W} (scope key action digest : string) (operation : M W V) : M (mem_store * W) V := λ sw,
  match mem_begin scope key action digest sw.1 with
  | (s1, Err e) => ((s1, sw.2), Err e)
  | (s1, Ok (Some v)) => ((s1, sw.2), Ok v)
  | (s1, Ok None) =>
      match operation sw.2 with
      | (w', Err e) => (((mem_fail scope action s1).1, w'), Err e)
      | (w', Ok v) => (((mem_succeed scope key action digest v s1).1, w'), Ok v)
      end
  end.

Definition mem_cancel (action tenant actor rsn : string) : M mem_store cancellation :=
  c ← mlift (cancel_guard action tenant actor rsn);
  s ← mget;
  mguard (bool_decide (action_status s !! (tenant, action) = Some Started
                       ∨ action_status s !! (tenant, action) = Some Succeeded))
    (ValueError "action cannot be cancelled after status");;
  mguard (match cancellations s !! (tenant, action) with
          | Some existing => negb (bool_decide (existing = c)) | None => false end)
    (ValueError "action cancellation already exists with different intent");;
  mput (MkMemStore (results s) (action_status s) (<[(tenant, action) := c]> (cancellations s)));;
  mret c.

(** ** The PostgreSQL store *)

Record exec_row := MkExecRow { ex_action : string; ex_digest : string; ex_status : exec_status; ex_result : option V }.
Record pg_store := MkPgStore {
  executions : gmap ident exec_row;          (* action_executions, by (tenant, key) *)
  pg_cancellations : gmap ident cancellation (* action_cancellations, by (tenant, action) *)
}.
Definition pg_empty : pg_store := MkPgStore ∅ ∅.

Context (txn : ∀ S A, M S A → M S A).
Context (reload : V → V).

Definition pg_begin (tenant key action digest : string) : M pg_store (option V) :=
  mguard (bool_decide (tenant = "") || bool_decide (action = ""))
    (ValueError "tenant_id and action_id are required for persistent execution");;
  txn _ _ (
    s ← mget;
    mguard (bool_decide (is_Some (pg_cancellations s !! (tenant, action))))
      (PermissionError "action was cancelled before execution");;
    match executions s !! (tenant, key) with
    | Some row =>
        mguard (negb (bool_decide (ex_digest row = digest)))
          (ValueError "idempotency key reused with different intent");;
        match ex_status row with
        | Succeeded => mret (ex_result row)
        | Started => mraise (RuntimeError "matching action execution is already in progress")
        | Failed =>
            mput (MkPgStore (<[(tenant, key) := MkExecRow (ex_action row) (ex_digest row) Started (ex_result row)]>
              (executions s)) (pg_cancellations s));;
            mret None
        end
    | None =>
        mput (MkPgStore (<[(tenant, key) := MkExecRow action digest Started None]> (executions s)) (pg_cancellations s));;
        mret None
    end).

(** [UPDATE action_executions SET ... WHERE tenant, key and intent_hash match] *)
Definition pg_update (tenant key digest : string) (f : exec_row → exec_row) : M pg_store unit :=
  txn _ _ (
    s ← mget;
    mput (MkPgStore (alter (λ row, if bool_decide (ex_digest row = digest) then f row else row)
      (tenant, key) (executions s)) (pg_cancellations s))).
Definition pg_fail (tenant key digest : string) : M pg_store unit :=
  pg_update tenant key digest (λ row, MkExecRow (ex_action row) (ex_digest row) Failed (ex_result row)).
Definition pg_succeed (tenant key digest : string) (v : V) : M pg_store unit :=
  pg_update tenant key digest (λ row, MkExecRow (ex_action row) (ex_digest row) Succeeded (Some (reload v))).

(** [tenant_id] empty or missing is refused; a succeeded row always has its result. *)
Definition pg_execute_once {W} (tenant key action digest : string) (operation : M W V) : M (pg_store * W) V := λ sw,
  match pg_begin tenant key action digest sw.1 with
  | (s1, Err e) => ((s1, sw.2), Err e)
  | (s1, Ok (Some v)) => ((s1, sw.2), Ok v)
  | (s1, Ok None) =>
      match operation sw.2 with
      | (w', Err e) => (((pg_fail tenant key digest s1).1, w'), Err e)
      | (w', Ok v) => (((pg_succeed tenant key digest v s1).1, w'), Ok v)
      end
  end.

(** The rows [SELECT status ... WHERE action_id AND status IN ('started', 'succeeded')] finds *)
Definition active_rows (s : pg_store) (tenant action : string) : list exec_row :=
  omap (λ kv : ident * exec_row,
    if bool_decide (kv.1.1 = tenant) && bool_decide (ex_action kv.2 = action)
       && negb (bool_decide (ex_status kv.2 = Failed)) then Some kv.2 else None)
    (map_to_list (executions s)).

Definition pg_cancel (action tenant actor rsn : string) : M pg_store cancellation :=
  c ← mlift (cancel_guard action tenant actor rsn);
  txn _ _ (
    s ← mget;
    match active_rows s tenant action with
    | _ :: _ => mraise (ValueError "action cannot be cancelled after status")
    | [] =>
        match pg_cancellations s !! (tenant, action) with
        | Some existing =>
            mguard (negb (bool_decide (can_actor existing = actor)) || negb (bool_decide (can_reason existing = can_reason c)))
              (ValueError "action cancellation already exists with different intent")
        | None =>
            mput (MkPgStore (executions s) (<[(tenant, action) := c]> (pg_cancellations s)))
        end
    end);;
  mret c.
End store.
Arguments mem_store : clear implicits.
Arguments pg_store : clear implicits.
Arguments exec_row : clear implicits.

(** ** Interleavings

    A configuration is the store, the executions between their claim and their outcome, and the
    log of the operations that ran to success.  Callers derive the action from the idempotency
    key ([act]). *)

Record flight := MkFlight { fl_scope : string; fl_key : string; fl_digest : string }.

Section interleaving.
Context {V : Type} (act : ident → string).

Definition fl_ident (x : flight) : ident := (fl_scope x, fl_key x).
Definition fl_action (x : flight) : ident := (fl_scope x, act (fl_ident x)).

Record config (S : Type) := MkConfig { store : S; in_flight : list flight; completed : list ident }.
Arguments MkConfig {S}. Arguments store {S}. Arguments in_flight {S}. Arguments completed {S}.

Inductive mem_step : config (mem_store V) → config (mem_store V) → Prop :=
| MemClaim x s s' fl dn :
    mem_begin (fl_scope x) (fl_key x) (act (fl_ident x)) (fl_digest x) s = (s', Ok None) →
    mem_step (MkConfig s fl dn) (MkConfig s' (x :: fl) dn)
| MemAnswer x s s' r fl dn :
    mem_begin (fl_scope x) (fl_key x) (act (fl_ident x)) (fl_digest x) s = (s', r) → r ≠ Ok None →
    mem_step (MkConfig s fl dn) (MkConfig s' fl dn)
| MemSucceed x v s fl1 fl2 dn :
    mem_step (MkConfig s (fl1 ++ x :: fl2) dn)
      (MkConfig (mem_succeed (fl_scope x) (fl_key x) (act (fl_ident x)) (fl_digest x) v s).1
        (fl1 ++ fl2) (fl_ident x :: dn))
| MemFail x s fl1 fl2 dn :
    mem_step (MkConfig s (fl1 ++ x :: fl2) dn)
      (MkConfig (mem_fail (fl_scope x) (act (fl_ident x)) s).1 (fl1 ++ fl2) dn)
| MemCancel action tenant actor rsn s fl dn :
    mem_step (MkConfig s fl dn) (MkConfig (mem_cancel action tenant actor rsn s).1 fl dn).

(** What every reachable configuration satisfies *)
Record mem_safe (c : config (mem_store V)) : Prop := {
  ms_started : Forall (λ x, action_status (store c) !! fl_action x = Some Started) (in_flight c);
  ms_exclusive : NoDup (fl_action <$> in_flight c);
  ms_once : NoDup (completed c);
  ms_recorded : ∀ i, i ∈ completed c ↔ is_Some (results (store c) !! i);
  ms_pending : Forall (λ x, fl_ident x ∉ completed c) (in_flight c);
  ms_cancelled : ∀ i, is_Some (cancellations (store c) !! i) →
    action_status (store c) !! i ≠ Some Started ∧ action_status (store c) !! i ≠ Some Succeeded
}.

Lemma mem_begin_claims sc k a d (s s' : mem_store V) : mem_begin sc k a d s = (s', Ok None) →
  cancellations s !! (sc, a) = None ∧ results s !! (sc, k) = None ∧
  action_status s !! (sc, a) ≠ Some Started ∧
  s' = MkMemStore (results s) (<[(sc, a) := Started]> (action_status s)) (cancellations s).
Proof.
  unfold mem_begin. munfold. guard_case as E1; [done|].
  destruct (results s !! (sc, k)) as [[pd r]|]; simpl.
  { by destruct (negb _). }
  guard_case as E2; [done|]. intros [= <-]. bprop. rewrite <- eq_None_not_Some in E1. done.
Qed.

Lemma mem_begin_answers sc k a d (s s' : mem_store V) r : mem_begin sc k a d s = (s', r) → r ≠ Ok None → s' = s.
Proof.
  unfold mem_begin. munfold. guard_case as E1; [by intros [= <- <-]|].
  destruct (results s !! (sc, k)) as [[pd r0]|]; simpl.
  { destruct (negb _); by intros [= <- <-]. }
  guard_case as E2; by intros [= <- <-].
Qed.

Lemma mem_cancel_spec action tenant actor rsn (s : mem_store V) :
  (mem_cancel action tenant actor rsn s).1 = s ∨
  action_status s !! (tenant, action) ≠ Some Started ∧ action_status s !! (tenant, action) ≠ Some Succeeded ∧
  ∃ c, (mem_cancel action tenant actor rsn s).1
    = MkMemStore (results s) (action_status s) (<[(tenant, action) := c]> (cancellations s)).
Proof.
  unfold mem_cancel. munfold. destruct (cancel_guard action tenant actor rsn) as [c|]; [|by left]. simpl.
  guard_case as E1; [by left|]. guard_case as E2; [by left|]. right. bprop. naive_solver.
Qed.

(** Removing one of several exclusive executions *)
Lemma exclusive_remove fl1 x fl2 : NoDup (fl_action <$> fl1 ++ x :: fl2) →
  NoDup (fl_action <$> fl1 ++ fl2) ∧ Forall (λ y, fl_action y ≠ fl_action x) (fl1 ++ fl2).
Proof.
  rewrite <- Permutation_middle. csimpl. rewrite NoDup_cons. intros [Hx Hnd]. split; [done|].
  apply Forall_forall. intros y Hy Heq. apply Hx. rewrite <- Heq. by apply list_elem_of_fmap_2.
Qed.

Lemma Forall_remove (P : flight → Prop) fl1 x fl2 : Forall P (fl1 ++ x :: fl2) → P x ∧ Forall P (fl1 ++ fl2).
Proof. rewrite <- Permutation_middle. by rewrite Forall_cons. Qed.

Lemma mem_claim_safe x s s' fl dn :
  mem_begin (fl_scope x) (fl_key x) (act (fl_ident x)) (fl_digest x) s = (s', Ok None) →
  mem_safe (MkConfig s fl dn) → mem_safe (MkConfig s' (x :: fl) dn).
Proof.
  intros (Hc & Hres & Hns & ->)%mem_begin_claims [Hst Hex Honce Hrec Hpend Hcan]. simpl in *.
  fold (fl_action x) in *. split; simpl; try done.
  - constructor; [apply lookup_insert_eq|]. eapply Forall_impl; [exact Hst|]. simpl. intros y Hy.
    destruct (decide (fl_action x = fl_action y)) as [->|]; [apply lookup_insert_eq|by rewrite lookup_insert_ne].
  - csimpl. constructor; [|done]. intros (y & Hy & Hin)%list_elem_of_fmap.
    rewrite Forall_forall in Hst. apply Hns. rewrite Hy. by apply Hst.
  - constructor; [|done]. rewrite Hrec. unfold fl_ident. rewrite Hres. by intros [? ?].
  - intros i Hi. destruct (decide (fl_action x = i)) as [<-|]; [|rewrite lookup_insert_ne by done; auto].
    exfalso. rewrite Hc in Hi. by destruct Hi.
Qed.

Lemma mem_succeed_safe x v s fl1 fl2 dn : mem_safe (MkConfig s (fl1 ++ x :: fl2) dn) →
  mem_safe (MkConfig (mem_succeed (fl_scope x) (fl_key x) (act (fl_ident x)) (fl_digest x) v s).1
    (fl1 ++ fl2) (fl_ident x :: dn)).
Proof.
  intros [Hst Hex Honce Hrec Hpend Hcan]. simpl in *.
  apply exclusive_remove in Hex as [Hex Hne]. apply Forall_remove in Hst as [Hx Hst], Hpend as [Hpx Hpend].
  fold (fl_action x) (fl_ident x). split; simpl; try done.
  - rewrite Forall_forall in *. intros y Hy. rewrite lookup_insert_ne; [by apply Hst|].
    intros Heq. by apply (Hne y Hy).
  - by constructor.
  - intros i. rewrite elem_of_cons, Hrec, lookup_insert_is_Some. destruct (decide (fl_ident x = i)); naive_solver.
  - rewrite Forall_forall in *. intros y Hy. rewrite not_elem_of_cons. split; [|by apply Hpend].
    intros Heq. apply (Hne y Hy). unfold fl_action. rewrite Heq. f_equal. by apply (f_equal fst) in Heq.
  - intros i Hi. destruct (Hcan i Hi) as [H1 H2]. destruct (decide (fl_action x = i)) as [<-|]; [done|].
    by rewrite lookup_insert_ne.
Qed.

Lemma mem_fail_safe x s fl1 fl2 dn : mem_safe (MkConfig s (fl1 ++ x :: fl2) dn) →
  mem_safe (MkConfig (mem_fail (fl_scope x) (act (fl_ident x)) s).1 (fl1 ++ fl2) dn).
Proof.
  intros [Hst Hex Honce Hrec Hpend Hcan]. simpl in *.
  apply exclusive_remove in Hex as [Hex Hne]. apply Forall_remove in Hst as [Hx Hst], Hpend as [Hpx Hpend].
  fold (fl_action x). split; simpl; try done.
  - rewrite Forall_forall in *. intros y Hy. rewrite lookup_insert_ne; [by apply Hst|].
    intros Heq. by apply (Hne y Hy).
  - intros i Hi. destruct (Hcan i Hi) as [H1 H2]. destruct (decide (fl_action x = i)) as [<-|]; [done|].
    by rewrite lookup_insert_ne.
Qed.

Lemma mem_cancel_safe action tenant actor rsn s fl dn : mem_safe (MkConfig s fl dn) →
  mem_safe (MkConfig (mem_cancel action tenant actor rsn s).1 fl dn).
Proof.
  intros Hsafe. destruct (mem_cancel_spec action tenant actor rsn s) as [->|(H1 & H2 & c & ->)]; [done|].
  destruct Hsafe as [Hst Hex Honce Hrec Hpend Hcan]. split; simpl in *; try done.
  intros i [<-|[_ Hi]]%lookup_insert_is_Some; [done|]. by apply Hcan.
Qed.

Lemma mem_step_safe c c' : mem_step c c' → mem_safe c → mem_safe c'.
Proof.
  intros [x s s' fl dn Hb|x s s' r fl dn Hb Hr|x v s fl1 fl2 dn|x s fl1 fl2 dn|action tenant actor rsn s fl dn].
  - by apply mem_claim_safe.
  - by rewrite (mem_begin_answers _ _ _ _ _ _ _ Hb Hr).
  - apply mem_succeed_safe.
  - apply mem_fail_safe.
  - apply mem_cancel_safe.
Qed.

Lemma mem_reachable_safe c : rtc mem_step (MkConfig mem_empty [] []) c → mem_safe c.
Proof.
  intros Hrtc. assert (mem_safe (MkConfig mem_empty [] [])) as H0.
  { split; simpl; [apply Forall_nil_2|apply NoDup_nil_2|apply NoDup_nil_2| |apply Forall_nil_2|].
    - intros i. rewrite lookup_empty. split; [by intros ?%elem_of_nil|by intros [? ?]].
    - intros i. rewrite lookup_empty. by intros [? ?]. }
  revert H0. induction Hrtc; eauto using mem_step_safe.
Qed.

(** *** PostgreSQL: a process may also die between the claim and the outcome *)

Context `{Htxn : !Transactional txn} (reload : V → V).

Inductive pg_step : config (pg_store V) → config (pg_store V) → Prop :=
| PgClaim x s s' fl dn :
    pg_begin txn (fl_scope x) (fl_key x) (act (fl_ident x)) (fl_digest x) s = (s', Ok None) →
    pg_step (MkConfig s fl dn) (MkConfig s' (x :: fl) dn)
| PgAnswer x s s' r fl dn :
    pg_begin txn (fl_scope x) (fl_key x) (act (fl_ident x)) (fl_digest x) s = (s', r) → r ≠ Ok None →
    pg_step (MkConfig s fl dn) (MkConfig s' fl dn)
| PgSucceed x v s fl1 fl2 dn :
    pg_step (MkConfig s (fl1 ++ x :: fl2) dn)
      (MkConfig (pg_succeed txn reload (fl_scope x) (fl_key x) (fl_digest x) v s).1 (fl1 ++ fl2) (fl_ident x :: dn))
| PgFail x s fl1 fl2 dn :
    pg_step (MkConfig s (fl1 ++ x :: fl2) dn)
      (MkConfig (pg_fail txn (fl_scope x) (fl_key x) (fl_digest x) s).1 (fl1 ++ fl2) dn)
| PgCrash x s fl1 fl2 dn : pg_step (MkConfig s (fl1 ++ x :: fl2) dn) (MkConfig s (fl1 ++ fl2) dn)
| PgCancel action tenant actor rsn s fl dn :
    pg_step (MkConfig s fl dn) (MkConfig (pg_cancel txn action tenant actor rsn s).1 fl dn).

Definition row_claimed (s : pg_store V) (x : flight) : Prop :=
  ∃ row, executions s !! fl_ident x = Some row ∧ ex_status row = Started ∧ ex_digest row = fl_digest x.

Record pg_safe (c : config (pg_store V)) : Prop := {
  ps_started : Forall (row_claimed (store c)) (in_flight c);
  ps_exclusive : NoDup (fl_ident <$> in_flight c);
  ps_once : NoDup (completed c);
  ps_recorded : ∀ i, i ∈ completed c ↔
    ∃ row, executions (store c) !! i = Some row ∧ ex_status row = Succeeded;
  ps_result : ∀ i row, executions (store c) !! i = Some row → ex_status row = Succeeded → is_Some (ex_result row);
  ps_action : ∀ i row, executions (store c) !! i = Some row → ex_action row = act i;
  ps_cancelled : ∀ i row, executions (store c) !! i = Some row →
    is_Some (pg_cancellations (store c) !! (i.1, act i)) → ex_status row = Failed
}.

Lemma pg_begin_claims t k a d (s s' : pg_store V) :
  (∀ row, executions s !! (t, k) = Some row → ex_status row = Succeeded → is_Some (ex_result row)) →
  pg_begin txn t k a d s = (s', Ok None) →
  pg_cancellations s !! (t, a) = None ∧
  (executions s !! (t, k) = None ∨ ∃ row, executions s !! (t, k) = Some row ∧ ex_status row = Failed) ∧
  ∃ row', s' = MkPgStore (<[(t, k) := row']> (executions s)) (pg_cancellations s) ∧
    ex_status row' = Started ∧ ex_digest row' = d ∧
    ex_action row' = match executions s !! (t, k) with Some row => ex_action row | None => a end.
Proof using Htxn.
  intros Hres. unfold pg_begin. munfold. guard_case as E0; [done|]. rewrite txn_atomically.
  unfold atomically. munfold. guard_case as E1; [done|]. bprop. rewrite <- eq_None_not_Some in E1.
  destruct (executions s !! (t, k)) as [row|] eqn:Erow; simpl.
  - guard_case as E2; [done|]. bprop. destruct (ex_status row) eqn:Es; simpl; intros Heq.
    + done.
    + injection Heq as <-. split_and!; eauto 10.
    + destruct (Hres _ eq_refl Es) as [v Hv]. rewrite Hv in Heq. done.
  - intros [= <-]. split_and!; eauto 10.
Qed.

Lemma pg_begin_answers t k a d (s s' : pg_store V) r : pg_begin txn t k a d s = (s', r) → r ≠ Ok None → s' = s.
Proof using Htxn.
  unfold pg_begin. munfold. guard_case as E0; [by intros [= <- <-]|]. rewrite txn_atomically.
  unfold atomically. munfold. guard_case as E1; [by intros [= <- <-]|].
  destruct (executions s !! (t, k)) as [row|] eqn:Erow; simpl; [|by intros [= <- <-]].
  guard_case as E2; [by intros [= <- <-]|].
  destruct (ex_status row); simpl; intros Heq; by simplify_eq.
Qed.

Lemma pg_update_spec t k d f (s : pg_store V) row :
  executions s !! (t, k) = Some row → ex_digest row = d →
  (pg_update txn t k d f s).1 = MkPgStore (<[(t, k) := f row]> (executions s)) (pg_cancellations s).
Proof using Htxn.
  intros Hr Hd. unfold pg_update. rewrite txn_atomically. unfold atomically. munfold. f_equal.
  apply map_eq. intros j. destruct (decide ((t, k) = j)) as [<-|].
  - rewrite lookup_alter_eq, lookup_insert_eq, Hr. simpl. by rewrite bool_decide_true.
  - by rewrite lookup_alter_ne, lookup_insert_ne.
Qed.

Lemma row_claimed_other (s : pg_store V) i row x : fl_ident x ≠ i → row_claimed s x →
  row_claimed (MkPgStore (<[i := row]> (executions s)) (pg_cancellations s)) x.
Proof. intros Hne (r & Hr & ?). exists r. simpl. by rewrite lookup_insert_ne. Qed.

Lemma ident_remove fl1 x fl2 : NoDup (fl_ident <$> fl1 ++ x :: fl2) →
  NoDup (fl_ident <$> fl1 ++ fl2) ∧ Forall (λ y, fl_ident y ≠ fl_ident x) (fl1 ++ fl2).
Proof.
  rewrite <- Permutation_middle. csimpl. rewrite NoDup_cons. intros [Hx Hnd]. split; [done|].
  apply Forall_forall. intros y Hy Heq. apply Hx. rewrite <- Heq. by apply list_elem_of_fmap_2.
Qed.

Lemma pg_claim_safe x s s' fl dn :
  pg_begin txn (fl_scope x) (fl_key x) (act (fl_ident x)) (fl_digest x) s = (s', Ok None) →
  pg_safe (MkConfig s fl dn) → pg_safe (MkConfig s' (x :: fl) dn).
Proof using Htxn.
  intros Hb [Hst Hex Honce Hrec Hres Hact Hcan]. simpl in *.
  apply pg_begin_claims in Hb as (Hc & Hold & row & -> & Hs & Hd & Ha); [|by apply Hres]. fold (fl_ident x) in *.
  assert (Forall (λ y, fl_ident y ≠ fl_ident x) fl) as Hne.
  { eapply Forall_impl; [exact Hst|]. intros y (r & Hr & Hrs & _) Heq. rewrite Heq in Hr.
    destruct Hold as [Hold|(r' & Hold & ?)]; congruence. }
  split; simpl; try done.
  - constructor; [exists row; simpl; by rewrite lookup_insert_eq|].
    rewrite Forall_forall in *. intros y Hy. by apply row_claimed_other; [apply Hne|apply Hst].
  - csimpl. constructor; [|done]. intros (y & Hy & Hin)%list_elem_of_fmap. rewrite Forall_forall in Hne.
    by apply (Hne y Hin).
  - intros i. rewrite Hrec. destruct (decide (fl_ident x = i)) as [<-|]; [|by rewrite lookup_insert_ne].
    rewrite lookup_insert_eq. split.
    + intros (r & Hr & ?). destruct Hold as [Hold|(r' & Hold & ?)]; congruence.
    + intros (r & [= <-] & ?). congruence.
  - intros i r. rewrite lookup_insert_Some. intros [[<- <-]|[_ Hr]] ?; [congruence|]. by apply (Hres i).
  - intros i r. rewrite lookup_insert_Some. intros [[<- <-]|[_ Hr]]; [|by apply Hact]. rewrite Ha.
    destruct (executions s !! fl_ident x) as [r0|] eqn:E0; [by apply Hact|done].
  - intros i r. rewrite lookup_insert_Some. intros [[<- <-]|[_ Hr]] Hcn; [|by apply (Hcan i)].
    simpl in Hcn. rewrite Hc in Hcn. by destruct Hcn.
Qed.

(** An execution in flight ends: its row takes the outcome. *)
Lemma pg_finish_safe x s fl1 fl2 dn row row' dn' :
  pg_safe (MkConfig s (fl1 ++ x :: fl2) dn) → executions s !! fl_ident x = Some row →
  ex_action row' = ex_action row →
  (ex_status row' = Failed ∧ dn' = dn ∨
   ex_status row' = Succeeded ∧ is_Some (ex_result row') ∧ dn' = fl_ident x :: dn) →
  pg_safe (MkConfig (MkPgStore (<[fl_ident x := row']> (executions s)) (pg_cancellations s)) (fl1 ++ fl2) dn').
Proof.
  intros [Hst Hex Honce Hrec Hres Hact Hcan] Hrow Ha Hout. simpl in *.
  apply ident_remove in Hex as [Hex Hne]. apply Forall_remove in Hst as [(r0 & Hr0 & Hs0 & _) Hst].
  assert (r0 = row) as -> by congruence.
  assert (fl_ident x ∉ dn) as Hndn by (rewrite Hrec; intros (r & Hr & ?); congruence).
  split; simpl.
  - rewrite Forall_forall in *. intros y Hy. by apply row_claimed_other; [apply Hne|apply Hst].
  - done.
  - destruct Hout as [[_ ->]|(_ & _ & ->)]; [done|by constructor].
  - intros i. destruct (decide (fl_ident x = i)) as [<-|Hi].
    + rewrite lookup_insert_eq. destruct Hout as [[Hf ->]|(Hs & _ & ->)].
      * split; [done|]. intros (r & [= <-] & ?). congruence.
      * split; [eauto|]. intros _. left.
    + rewrite lookup_insert_ne by done. rewrite <- Hrec.
      destruct Hout as [[_ ->]|(_ & _ & ->)]; [done|]. rewrite elem_of_cons. naive_solver.
  - intros i r. rewrite lookup_insert_Some. intros [[<- <-]|[_ Hr]] Hs; [|by apply (Hres i)].
    destruct Hout as [[? _]|(_ & ? & _)]; [congruence|done].
  - intros i r. rewrite lookup_insert_Some. intros [[<- <-]|[_ Hr]]; [|by apply Hact].
    rewrite Ha. by apply Hact.
  - intros i r. rewrite lookup_insert_Some. intros [[<- <-]|[_ Hr]] Hc; [|by apply (Hcan i)].
    pose proof (Hcan _ _ Hrow Hc). congruence.
Qed.

Lemma active_rows_nil (s : pg_store V) tenant action :
  active_rows s tenant action = [] → ∀ i row, executions s !! i = Some row →
  i.1 = tenant → ex_action row = action → ex_status row = Failed.
Proof.
  intros Hnil i row Hr Hi Ha. destruct (decide (ex_status row = Failed)) as [|Hne]; [done|]. exfalso.
  apply (not_elem_of_nil row). rewrite <- Hnil. apply list_elem_of_omap.
  exists (i, row). split; [by apply elem_of_map_to_list|]. simpl.
  rewrite !bool_decide_true, bool_decide_false by done. done.
Qed.

Lemma pg_cancel_safe action tenant actor rsn s fl dn : pg_safe (MkConfig s fl dn) →
  pg_safe (MkConfig (pg_cancel txn action tenant actor rsn s).1 fl dn).
Proof using Htxn.
  intros Hsafe. unfold pg_cancel. munfold. destruct (cancel_guard action tenant actor rsn) as [c|]; [|done]. simpl.
  rewrite txn_atomically. unfold atomically. munfold.
  destruct (active_rows s tenant action) as [|r rs] eqn:Eact; simpl; [|done].
  destruct (pg_cancellations s !! (tenant, action)) as [old|] eqn:Eold; simpl.
  { by destruct (_ || _). }
  destruct Hsafe as [Hst Hex Honce Hrec Hres Hact Hcan]. split; simpl in *; try done.
  intros i row Hr [Heq|[_ Hc]]%lookup_insert_is_Some; [|by apply (Hcan i)].
  injection Heq as Ht Ha. eapply active_rows_nil; [done|done|done|]. rewrite (Hact _ _ Hr). done.
Qed.

Lemma pg_step_safe c c' : pg_step c c' → pg_safe c → pg_safe c'.
Proof using Htxn.
  intros [x s s' fl dn Hb|x s s' r fl dn Hb Hr|x v s fl1 fl2 dn|x s fl1 fl2 dn|x s fl1 fl2 dn|action tenant actor rsn s fl dn] Hsafe.
  - by eapply pg_claim_safe.
  - by rewrite (pg_begin_answers _ _ _ _ _ _ _ Hb Hr).
  - destruct (Forall_remove _ _ _ _ (ps_started _ Hsafe)) as [(row & Hrow & Hs & Hd) _]. simpl in *.
    unfold pg_succeed. rewrite (pg_update_spec _ _ _ _ _ row Hrow Hd).
    eapply (pg_finish_safe x); [exact Hsafe|exact Hrow|done|]. simpl. right. eauto.
  - destruct (Forall_remove _ _ _ _ (ps_started _ Hsafe)) as [(row & Hrow & Hs & Hd) _]. simpl in *.
    unfold pg_fail. rewrite (pg_update_spec _ _ _ _ _ row Hrow Hd).
    eapply (pg_finish_safe x); [exact Hsafe|exact Hrow|done|]. simpl. by left.
  - destruct Hsafe as [Hst Hex Honce Hrec Hres Hact Hcan]. split; simpl in *; try done.
    + by apply Forall_remove in Hst as [_ ?].
    + by apply ident_remove in Hex as [? _].
  - by apply pg_cancel_safe.
Qed.

Lemma pg_reachable_safe c : rtc pg_step (MkConfig pg_empty [] []) c → pg_safe c.
Proof using Htxn.
  intros Hrtc. assert (pg_safe (MkConfig pg_empty [] [])) as H0.
  { split; simpl; [apply Forall_nil_2|apply NoDup_nil_2|apply NoDup_nil_2|..]; try done.
    intros i. rewrite lookup_empty. split; [by intros ?%elem_of_nil|by intros (? & ? & ?)]. }
  revert H0. induction Hrtc; eauto using pg_step_safe.
Qed.
End interleaving.
Arguments MkConfig {S}. Arguments store {S}. Arguments in_flight {S}. Arguments completed {S}.

(** ** compensation.py *)

Section compensation.
Context {W E : Type}.

Record Operation := MkOperation { apply_op : M W E; compensate_op : E → M W E }.

(** The loop of the [try] block: the operations completed so far (latest first), and the
    exception that ended it if one did. *)
Fixpoint apply_all (ops : list Operation) (done_ : list (Operation * E)) (w : W)
    : W * list (Operation * E) * option exn :=
  match ops with
  | [] => (w, done_, None)
  | op :: ops' =>
      match apply_op op w with
      | (w', Ok e) => apply_all ops' ((op, e) :: done_) w'
      | (w', Err x) => (w', done_, Some x)
      end
  end.

(** The loop of the [except] block over [reversed(completed)]: every completed operation is
    compensated, also after a compensation has failed; the result says whether one did. *)
Fixpoint compensate_all (done_ : list (Operation * E)) (w : W) : W * bool :=
  match done_ with
  | [] => (w, false)
  | (op, e) :: rest =>
      let '(w', r) := compensate_op op e w in
      let '(w'', failed) := compensate_all rest w' in
      (w'', negb (is_ok r) || failed)
  end.

Definition execute_transaction (ops : list Operation) : M W (list E) := λ w,
  match apply_all ops [] w with
  | (w', done_, None) => (w', Ok (rev done_.*2))
  | (w', done_, Some x) =>
      let '(w'', failed) := compensate_all done_ w' in
      (w'', Err (if failed then RuntimeError "operation and compensation both failed" else x))
  end.
End compensation.
Arguments Operation : clear implicits.

(** What an operation promises: a failing [apply] leaves the world as it was, and compensating
    right after a successful one succeeds and restores the world. *)
Class Reversible {W E} (op : Operation W E) : Prop := {
  apply_atomic : ∀ w w' x, apply_op op w = (w', Err x) → w' = w;
  compensate_restores : ∀ w w' e, apply_op op w = (w', Ok e) → ∃ e', compensate_op op e w' = (w, Ok e')
}.

(** [SimulatorExecutor] keeps the promise. *)
Definition sim_operation (kind : string) (params : dict) : Operation dict evidence :=
  MkOperation (sim_execute kind params) sim_compensate.

#[global] Instance sim_reversible kind params : Reversible (sim_operation kind params).
Proof.
  split.
  - intros w w' x. done.
  - intros w w' e [= <- <-]. by eexists.
Qed.

Section transaction_facts.
Context {W E : Type}.

(** [undoes done w w0]: compensating [done] from [w] leads back to [w0]. *)
Definition undoes (done_ : list (Operation W E * E)) (w w0 : W) : Prop :=
  compensate_all done_ w = (w0, false).

Lemma apply_all_undoes (ops : list (Operation W E)) done_ w w0 w' done' x :
  Forall Reversible ops → undoes done_ w w0 →
  apply_all ops done_ w = (w', done', x) → undoes done' w' w0.
Proof.
  intros Hr. revert done_ w. induction Hr as [|op ops Hop Hr IH]; intros done_ w Hu; simpl.
  - by intros [= <- <- <-].
  - destruct (apply_op op w) as [w1 [e|y]] eqn:Ea.
    + apply IH. destruct (compensate_restores _ _ _ Ea) as [e' He'].
      unfold undoes in *. simpl. by rewrite He', Hu.
    + intros [= <- <- <-]. by rewrite (apply_atomic _ _ _ Ea).
Qed.

Lemma apply_all_completed (ops : list (Operation W E)) done_ w w' done' :
  apply_all ops done_ w = (w', done', None) → rev done'.*1 = rev done_.*1 ++ ops.
Proof.
  revert done_ w. induction ops as [|op ops IH]; intros done_ w; simpl.
  - intros [= <- <-]. by rewrite app_nil_r.
  - destruct (apply_op op w) as [w1 [e|y]]; [|done]. intros ->%IH. csimpl. by rewrite <- app_assoc.
Qed.
End transaction_facts.

(** ** Properties *)

(** At-most-once execution, in process.  Under every interleaving of claims, outcomes and
    cancellations by any number of callers (each deriving the action from its key), an
    idempotency key completes at most one operation, a completed key is never in flight again,
    two operations of one action are never in flight together, the recorded results are exactly
    the completed keys, and a cancelled action is neither running nor done. *)
Theorem mem_at_most_once {V} (act : ident → string) (c : config (mem_store V))
    (Hreach : rtc (mem_step act) (MkConfig mem_empty [] []) c) :
  NoDup (completed c) ∧ NoDup (fl_action act <$> in_flight c) ∧
  (∀ x, x ∈ in_flight c → fl_ident x ∉ completed c) ∧
  (∀ i, i ∈ completed c ↔ is_Some (results (store c) !! i)) ∧
  (∀ x, x ∈ in_flight c → cancellations (store c) !! fl_action act x = None).
Proof.
  apply mem_reachable_safe in Hreach as [Hst Hex Honce Hrec Hpend Hcan]. rewrite Forall_forall in *.
  split_and!; try done. intros x Hx. apply eq_None_not_Some. intros Hc.
  destruct (Hcan _ Hc) as [Hns _]. by apply Hns, Hst.
Qed.

Definition sample_flight : flight := MkFlight "ten_acme" "idem-0001" "digest".

Lemma mem_at_most_once_witness :
  let s := (mem_begin "ten_acme" "idem-0001" "act-1" "digest" (@mem_empty Z)).1 in
  let s' := (mem_succeed "ten_acme" "idem-0001" "act-1" "digest" 7 s).1 in
  NoDup (completed (MkConfig s' [] [("ten_acme", "idem-0001")])) ∧
  is_Some (results s' !! ("ten_acme", "idem-0001")).
Proof.
  intros s s'.
  assert (rtc (mem_step (λ _, "act-1")) (MkConfig mem_empty [] []) (MkConfig s' [] [("ten_acme", "idem-0001")])) as Hr.
  { eapply rtc_l; [apply (MemClaim (λ _, "act-1") sample_flight); by vm_compute|].
    eapply rtc_l; [apply (MemSucceed (λ _, "act-1") sample_flight 7 _ [] [] [])|]. apply rtc_refl. }
  destruct (mem_at_most_once (λ _, "act-1") _ Hr) as (H1 & _ & _ & H2 & _).
  split; [exact H1|]. apply (proj1 (H2 _)). left.
Defined.



(** Compensation makes a failed transaction invisible.  Over operations that keep their
    promise, [execute_transaction] either applies every operation in order and returns one
    evidence for each, or raises the exception of the operation that failed with the world
    exactly as it was at the start. *)
Theorem execute_transaction_atomic {W E} (ops : list (Operation W E)) (w : W) (Hrev : Forall Reversible ops) :
  match execute_transaction ops w with
  | (_, Ok es) => length es = length ops
  | (w', Err x) => w' = w ∧ ∃ pre op post w1 w2, ops = pre ++ op :: post ∧ apply_op op w1 = (w2, Err x)
  end.
Proof.
  unfold execute_transaction. destruct (apply_all ops [] w) as [[w' done_] [x|]] eqn:Ea.
  - pose proof (apply_all_undoes ops [] w w w' done_ (Some x) Hrev eq_refl Ea) as Hu. unfold undoes in Hu.
    rewrite Hu. split; [done|]. clear Hu Hrev. revert w Ea. generalize (@nil (Operation W E * E)) as d.
    induction ops as [|op ops IH]; intros d w; simpl; [done|].
    destruct (apply_op op w) as [w1 [e|y]] eqn:Eo.
    + intros Ha. destruct (IH _ _ Ha) as (pre & op' & post & w2 & w3 & -> & Hop). by exists (op :: pre), op', post, w2, w3.
    + intros [= -> -> ->]. by exists [], op, ops, w, w'.
  - apply apply_all_completed in Ea. simpl in Ea. rewrite <- Ea.
    by rewrite !length_rev, !length_fmap.
Qed.

Definition failing_operation : Operation dict evidence :=
  MkOperation (mraise (RuntimeError "provider refused")) (λ e, mraise TypeError).

Lemma execute_transaction_atomic_witness :
  execute_transaction [sim_operation "limit" [("kw", VInt 5)]; failing_operation] [("mode", VStr "auto")]
    = ([("mode", VStr "auto")], Err (RuntimeError "provider refused")).
Proof.
  assert (Forall Reversible [sim_operation "limit" [("kw", VInt 5)]; failing_operation]) as Hr.
  { apply Forall_cons. split; [apply _|]. apply Forall_singleton. split; [by intros w w' x [= <- _]|done]. }
  pose proof (execute_transaction_atomic _ [("mode", VStr "auto")] Hr) as H.
  destruct (execute_transaction _ _) as [w' [es|x]] eqn:E; vm_compute in E; [done|].
  destruct H as [-> _]. injection E as <-. done.
Defined.
