(* ===== verification/Jobs.v ===== *)
(** * Durable job queue: [packages/jobs/queue.py]

    The table [durable_jobs] is a finite map by id with a serial counter.  [now] is the
    transaction's [now()] in microseconds.  A claim runs with [FOR UPDATE SKIP LOCKED]:
    [locked] is the set of rows other transactions hold at that moment.  Payloads and
    results are JSON documents; [canon] is [json.dumps(..., sort_keys=True)].  The
    [tenant_connection] methods only see rows of their tenant (row-level security). *)
From S2P Require Import Prelude PyValue.
Local Open Scope Z_scope.

Inductive job_status := JPending | JRunning | JSucceeded | JDeadLetter.
#[global] Instance job_status_eq_dec : EqDecision job_status.
Proof. solve_decision. Defined.

Record DurableJob := MkDurableJob {
  dj_id : Z; dj_tenant_id : string; dj_kind : string; dj_payload : pyval; dj_key : string;
  dj_attempt : Z; dj_max_attempts : Z; dj_lease_expires_at : Z
}.

Record job_row := MkJobRow {
  jr_tenant : string; jr_kind : string; jr_payload : pyval; jr_key : string; jr_max_attempts : Z;
  jr_available_at : Z; jr_status : job_status; jr_attempt : Z; jr_leased_by : option string;
  jr_lease_expires_at : option Z; jr_last_error : option string; jr_result : option pyval
}.

Record queue := MkQueue { rows : gmap Z job_row; next_id : Z }.
Definition empty_queue : queue := MkQueue ∅ 1.

Section queue_ops.
Context (canon : pyval → string).
Context (txn : ∀ S A, M S A → M S A).

Definition by_key (q : queue) (tenant key : string) : option (Z * job_row) :=
  head (base.filter (λ kv, jr_tenant kv.2 = tenant ∧ jr_key kv.2 = key) (map_to_list (rows q))).

Definition enqueue (tenant kind : string) (payload : pyval) (key : string) (max_attempts available_at : Z) : M queue Z :=
  mguard (max_attempts <? 1) (ValueError "max_attempts must be positive");;
  txn _ _ (
    q ← mget;
    match by_key q tenant key with
    | Some (id, row) =>
        mguard (negb (bool_decide (jr_kind row = kind)) || negb (bool_decide (canon (jr_payload row) = canon payload)))
          (ValueError "job idempotency key reused with different payload");;
        mret id
    | None =>
        mput (MkQueue (<[next_id q := MkJobRow tenant kind payload key max_attempts available_at JPending 0 None None None None]>
          (rows q)) (next_id q + 1));;
        mret (next_id q)
    end).

(** [(pending AND available_at <= now) OR (running AND lease_expires_at <= now)] *)
Definition claimable (now : Z) (r : job_row) : bool :=
  match jr_status r with
  | JPending => jr_available_at r <=? now
  | JRunning => match jr_lease_expires_at r with Some e => e <=? now | None => false end
  | _ => false
  end.

(** [ORDER BY available_at, id LIMIT 1] over the rows no one else holds *)
Definition candidate_key : Z * job_row → Z * job_row → comparison :=
  cmp_then (cmp_on (λ kv, jr_available_at kv.2) Z.compare) (cmp_on fst Z.compare).
Definition candidates (q : queue) (now : Z) (locked : gset Z) : list (Z * job_row) :=
  py_sorted candidate_key
    (base.filter (λ kv, claimable now kv.2 = true ∧ kv.1 ∉ locked) (map_to_list (rows q))).

Definition claimed_row (worker : string) (expires : Z) (r : job_row) : job_row :=
  MkJobRow (jr_tenant r) (jr_kind r) (jr_payload r) (jr_key r) (jr_max_attempts r) (jr_available_at r)
    JRunning (jr_attempt r + 1) (Some worker) (Some expires) (jr_last_error r) (jr_result r).

Definition job_of (id : Z) (r : job_row) (expires : Z) : DurableJob :=
  MkDurableJob id (jr_tenant r) (jr_kind r) (jr_payload r) (jr_key r) (jr_attempt r) (jr_max_attempts r) expires.

Definition claim (now : Z) (locked : gset Z) (worker : string) (lease_seconds : Z) : M queue (option DurableJob) :=
  mguard (lease_seconds <? 5) (ValueError "lease must be at least five seconds");;
  txn _ _ (
    q ← mget;
    match candidates q now locked with
    | [] => mret None
    | (id, r) :: _ =>
        let expires := now + lease_seconds * 1000000 in
        let r' := claimed_row worker expires r in
        mput (MkQueue (<[id := r']> (rows q)) (next_id q));;
        mret (Some (job_of id r' expires))
    end).

(** [UPDATE ... WHERE id AND status = 'running' AND leased_by = worker], under the tenant's
    row-level security; whether a row was updated. *)
Definition update_leased (job : DurableJob) (worker : string) (f : job_row → job_row) : M queue bool :=
  q ← mget;
  match rows q !! dj_id job with
  | Some r =>
      if bool_decide (jr_tenant r = dj_tenant_id job) && bool_decide (jr_status r = JRunning)
         && bool_decide (jr_leased_by r = Some worker)
      then mput (MkQueue (<[dj_id job := f r]> (rows q)) (next_id q));; mret true
      else mret false
  | None => mret false
  end.

Definition beat_row (now lease_seconds : Z) (r : job_row) : job_row :=
  MkJobRow (jr_tenant r) (jr_kind r) (jr_payload r) (jr_key r) (jr_max_attempts r) (jr_available_at r)
    (jr_status r) (jr_attempt r) (jr_leased_by r) (Some (now + lease_seconds * 1000000)) (jr_last_error r) (jr_result r).
Definition heartbeat (now : Z) (job : DurableJob) (worker : string) (lease_seconds : Z) : M queue bool :=
  txn _ _ (update_leased job worker (beat_row now lease_seconds)).

Definition done_row (v : pyval) (r : job_row) : job_row :=
  MkJobRow (jr_tenant r) (jr_kind r) (jr_payload r) (jr_key r) (jr_max_attempts r) (jr_available_at r)
    JSucceeded (jr_attempt r) None None (jr_last_error r) (Some v).
Definition succeed (job : DurableJob) (worker : string) (v : pyval) : M queue unit :=
  txn _ _ (
    ok ← update_leased job worker (done_row v);
    mguard (negb ok) (RuntimeError "job lease was lost before completion")).

Definition backoff_seconds (attempt : Z) : Z := Z.min 300 (2 ^ Z.min attempt 8).
Definition failed_status (job : DurableJob) : job_status :=
  if dj_max_attempts job <=? dj_attempt job then JDeadLetter else JPending.
Definition failed_row (now : Z) (job : DurableJob) (error : string) (r : job_row) : job_row :=
  MkJobRow (jr_tenant r) (jr_kind r) (jr_payload r) (jr_key r) (jr_max_attempts r)
    (now + backoff_seconds (dj_attempt job) * 1000000) (failed_status job) (jr_attempt r) None None
    (Some (String.substring 0 4000 error)) (jr_result r).
Definition fail (now : Z) (job : DurableJob) (worker : string) (error : string) : M queue job_status :=
  txn _ _ (
    ok ← update_leased job worker (failed_row now job error);
    mguard (negb ok) (RuntimeError "job lease was lost before failure recording");;
    mret (failed_status job)).

Definition status (tenant : string) (id : Z) : M queue job_row :=
  txn _ _ (
    q ← mget;
    match rows q !! id with
    | Some r => if bool_decide (jr_tenant r = tenant) then mret r else mraise (KeyError "job_id")
    | None => mraise (KeyError "job_id")
    end).
End queue_ops.

(** ** Claiming *)

#[global] Instance candidate_key_order : CmpOrder candidate_key.
Proof. unfold candidate_key. apply _. Qed.

Lemma elem_of_candidates q now locked id r :
  (id, r) ∈ candidates q now locked ↔ rows q !! id = Some r ∧ claimable now r = true ∧ id ∉ locked.
Proof.
  unfold candidates. rewrite elem_of_py_sorted, list_elem_of_filter, elem_of_map_to_list. simpl. tauto.
Qed.

Lemma candidates_head q now locked id r l : candidates q now locked = (id, r) :: l →
  ∀ id' r', rows q !! id' = Some r' → claimable now r' = true → id' ∉ locked →
  jr_available_at r < jr_available_at r' ∨ jr_available_at r = jr_available_at r' ∧ id <= id'.
Proof.
  intros Hc id' r' Hr Hcl Hl.
  assert ((id', r') ∈ candidates q now locked) as Hin by (apply elem_of_candidates; done).
  pose proof (py_sorted_sorted candidate_key
    (base.filter (λ kv, claimable now kv.2 = true ∧ kv.1 ∉ locked) (map_to_list (rows q)))) as Hs.
  fold (candidates q now locked) in Hs. rewrite Hc in Hs, Hin. apply StronglySorted_inv in Hs as [_ Hs].
  apply elem_of_cons in Hin as [[= -> ->]|Hin]; [lia|].
  rewrite Forall_forall in Hs. specialize (Hs _ Hin).
  unfold key_le, cmp_leb, candidate_key, cmp_then, cmp_on in Hs. simpl in Hs.
  destruct (Z.compare_spec (jr_available_at r) (jr_available_at r')); try done; [|lia].
  destruct (Z.compare_spec id id'); try done; lia.
Qed.

Section facts.
Context (canon : pyval → string) `{Htxn : !Transactional txn}.

Lemma update_leased_spec job worker f q :
  update_leased job worker f q =
  match rows q !! dj_id job with
  | Some r =>
      if bool_decide (jr_tenant r = dj_tenant_id job ∧ jr_status r = JRunning ∧ jr_leased_by r = Some worker)
      then (MkQueue (<[dj_id job := f r]> (rows q)) (next_id q), Ok true) else (q, Ok false)
  | None => (q, Ok false)
  end.
Proof.
  unfold update_leased. munfold. destruct (rows q !! dj_id job) as [r|]; [|done].
  repeat case_bool_decide; simpl; done || tauto.
Qed.

(** Whether [worker] holds the lease of the job's row *)
Definition holds_lease (q : queue) (job : DurableJob) (worker : string) : Prop :=
  ∃ r, rows q !! dj_id job = Some r ∧ jr_tenant r = dj_tenant_id job ∧ jr_status r = JRunning ∧
    jr_leased_by r = Some worker.

Lemma update_leased_lost job worker f q : ¬ holds_lease q job worker →
  update_leased job worker f q = (q, Ok false).
Proof.
  intros Hn. rewrite update_leased_spec. destruct (rows q !! dj_id job) as [r|] eqn:E; [|done].
  rewrite bool_decide_false; [done|]. intros (?&?&?). apply Hn. by exists r.
Qed.

Lemma update_leased_held job worker f q r : rows q !! dj_id job = Some r → jr_tenant r = dj_tenant_id job →
  jr_status r = JRunning → jr_leased_by r = Some worker →
  update_leased job worker f q = (MkQueue (<[dj_id job := f r]> (rows q)) (next_id q), Ok true).
Proof. intros Hr ???. rewrite update_leased_spec, Hr. by rewrite bool_decide_true. Qed.

(** ** Histories *)

Inductive queue_op :=
| QEnqueue (tenant kind : string) (payload : pyval) (key : string) (max_attempts available_at : Z)
| QClaim (now : Z) (locked : gset Z) (worker : string) (lease_seconds : Z)
| QHeartbeat (now : Z) (job : DurableJob) (worker : string) (lease_seconds : Z)
| QSucceed (job : DurableJob) (worker : string) (res : pyval)
| QFail (now : Z) (job : DurableJob) (worker error : string).

(** The queue and the ids whose [succeed] returned, latest first *)
Definition queue_step (c : queue * list Z) (o : queue_op) : queue * list Z :=
  let '(q, log) := c in
  match o with
  | QEnqueue t k p key m a => ((enqueue canon txn t k p key m a q).1, log)
  | QClaim now locked w l => ((claim txn now locked w l q).1, log)
  | QHeartbeat now j w l => ((heartbeat txn now j w l q).1, log)
  | QSucceed j w v =>
      let '(q', r) := succeed txn j w v q in (q', if is_ok r then dj_id j :: log else log)
  | QFail now j w e => ((fail txn now j w e q).1, log)
  end.

Record queue_inv (q : queue) (log : list Z) : Prop := {
  qi_ids : ∀ id r, rows q !! id = Some r → id < next_id q;
  qi_keys : ∀ i j r r', rows q !! i = Some r → rows q !! j = Some r' →
    jr_tenant r = jr_tenant r' → jr_key r = jr_key r' → i = j;
  qi_lease : ∀ id r, rows q !! id = Some r →
    (jr_status r = JRunning ↔ is_Some (jr_leased_by r)) ∧ (jr_status r = JRunning ↔ is_Some (jr_lease_expires_at r));
  qi_log : NoDup log;
  qi_done : ∀ id, id ∈ log ↔ ∃ r, rows q !! id = Some r ∧ jr_status r = JSucceeded
}.

(** Replacing a row that keeps its identity *)
Lemma queue_inv_update q log log' id r r' :
  queue_inv q log → rows q !! id = Some r → jr_tenant r' = jr_tenant r → jr_key r' = jr_key r →
  (jr_status r' = JRunning ↔ is_Some (jr_leased_by r')) →
  (jr_status r' = JRunning ↔ is_Some (jr_lease_expires_at r')) →
  jr_status r ≠ JSucceeded →
  (jr_status r' ≠ JSucceeded ∧ log' = log ∨ jr_status r' = JSucceeded ∧ log' = id :: log) →
  queue_inv (MkQueue (<[id := r']> (rows q)) (next_id q)) log'.
Proof.
  intros [Hids Hkeys Hlease Hlog Hdone] Hr Ht Hk Hl1 Hl2 Hns Hout.
  assert (id ∉ log) as Hnl by (rewrite Hdone; intros (x & Hx & ?); congruence).
  split; simpl.
  - intros i x. rewrite lookup_insert_Some. intros [[<- _]|[_ Hx]]; eauto.
  - assert (∀ i x, <[id := r']> (rows q) !! i = Some x →
      ∃ x0, rows q !! i = Some x0 ∧ jr_tenant x0 = jr_tenant x ∧ jr_key x0 = jr_key x) as Hback.
    { intros i x. rewrite lookup_insert_Some. intros [[<- <-]|[_ Hx]]; eauto. }
    intros i j x y (x0&Hx0&Hxt&Hxk)%Hback (y0&Hy0&Hyt&Hyk)%Hback Hte Hke. eapply Hkeys; eauto; congruence.
  - intros i x. rewrite lookup_insert_Some. intros [[<- <-]|[_ Hx]]; eauto.
  - destruct Hout as [[_ ->]|[_ ->]]; [done|by constructor].
  - intros i. destruct (decide (id = i)) as [<-|Hi].
    + rewrite lookup_insert_eq. destruct Hout as [[Hs ->]|[Hs ->]].
      * split; [done|]. intros (x & [= <-] & ?). done.
      * split; [eauto|]. intros _. left.
    + rewrite lookup_insert_ne by done. rewrite <- Hdone.
      destruct Hout as [[_ ->]|[_ ->]]; [done|]. rewrite elem_of_cons. naive_solver.
Qed.

Lemma by_key_None q tenant key : by_key q tenant key = None →
  ∀ id r, rows q !! id = Some r → jr_tenant r = tenant → jr_key r = key → False.
Proof.
  unfold by_key. destruct (base.filter _ _) as [|x l] eqn:E; [|done]. intros _ id r Hr Ht Hk.
  apply (not_elem_of_nil (id, r)). rewrite <- E. apply list_elem_of_filter. simpl.
  split; [done|]. by apply elem_of_map_to_list.
Qed.

Lemma enqueue_inv t k p key m a q log : queue_inv q log → queue_inv (enqueue canon txn t k p key m a q).1 log.
Proof using Htxn.
  intros Hi. unfold enqueue. munfold. guard_case as Em; [done|]. rewrite txn_atomically. unfold atomically. munfold.
  destruct (by_key q t key) as [[id row]|] eqn:Ek; simpl; [by destruct (_ || _)|].
  destruct Hi as [Hids Hkeys Hlease Hlog Hdone].
  assert (rows q !! next_id q = None) as Hfresh.
  { destruct (rows q !! next_id q) eqn:E; [|done]. apply Hids in E. lia. }
  split; simpl; try done.
  - intros i x. rewrite lookup_insert_Some. intros [[<- _]|[_ Hx%Hids]]; lia.
  - intros i j x y. rewrite !lookup_insert_Some.
    intros [[<- <-]|[_ Hx]] [[<- <-]|[_ Hy]] Hte Hke; simpl in *; [done|..|eauto].
    + exfalso. by eapply by_key_None.
    + exfalso. by eapply by_key_None.
  - intros i x. rewrite lookup_insert_Some. intros [[<- <-]|[_ Hx]]; [|eauto]. simpl.
    split; (split; [done|by intros [? ?]]).
  - intros i. rewrite Hdone. destruct (decide (next_id q = i)) as [<-|]; [|by rewrite lookup_insert_ne].
    rewrite Hfresh, lookup_insert_eq. split; [by intros (? & ? & ?)|]. by intros (? & [= <-] & ?).
Qed.

Lemma claim_inv now locked w l q log : queue_inv q log → queue_inv (claim txn now locked w l q).1 log.
Proof using Htxn.
  intros Hi. unfold claim. munfold. guard_case as El; [done|]. rewrite txn_atomically. unfold atomically. munfold.
  destruct (candidates q now locked) as [|[id r] cs] eqn:Ec; simpl; [done|].
  assert ((id, r) ∈ candidates q now locked) as Hin by (rewrite Ec; left).
  apply elem_of_candidates in Hin as (Hr & Hcl & _).
  eapply queue_inv_update; eauto; simpl; try done.
  unfold claimable in Hcl. by destruct (jr_status r).
Qed.

(** [succeed], [fail] and [heartbeat], by whether the lease is held *)
Inductive leased_spec {A} (q : queue) (job : DurableJob) (worker : string) (f : job_row → job_row)
    (lost held : result A) : queue * result A → Prop :=
| Lost : ¬ holds_lease q job worker → leased_spec q job worker f lost held (q, lost)
| Held r : rows q !! dj_id job = Some r → jr_tenant r = dj_tenant_id job → jr_status r = JRunning →
    jr_leased_by r = Some worker →
    leased_spec q job worker f lost held (MkQueue (<[dj_id job := f r]> (rows q)) (next_id q), held).

Lemma update_leased_cases job worker f q :
  leased_spec q job worker f (Ok false) (Ok true) (update_leased job worker f q).
Proof.
  rewrite update_leased_spec. destruct (rows q !! dj_id job) as [r|] eqn:E; [case_bool_decide as Hd|].
  - destruct Hd as (?&?&?). by apply Held.
  - apply Lost. intros (r' & Hr' & ?&?&?). apply Hd. by simplify_eq.
  - apply Lost. intros (r' & Hr' & _). congruence.
Qed.

Lemma heartbeat_cases now job worker lease q :
  leased_spec q job worker (beat_row now lease) (Ok false) (Ok true) (heartbeat txn now job worker lease q).
Proof using Htxn.
  unfold heartbeat. rewrite txn_atomically. unfold atomically.
  destruct (update_leased_cases job worker (beat_row now lease) q); [by apply Lost|by apply Held].
Qed.

Lemma succeed_cases job worker v q :
  leased_spec q job worker (done_row v) (Err (RuntimeError "job lease was lost before completion")) (Ok tt)
    (succeed txn job worker v q).
Proof using Htxn.
  unfold succeed. rewrite txn_atomically. unfold atomically. unfold mbind, M_bind.
  destruct (update_leased_cases job worker (done_row v) q); [by apply Lost|by apply Held].
Qed.

Lemma fail_cases now job worker error q :
  leased_spec q job worker (failed_row now job error)
    (Err (RuntimeError "job lease was lost before failure recording")) (Ok (failed_status job))
    (fail txn now job worker error q).
Proof using Htxn.
  unfold fail. rewrite txn_atomically. unfold atomically. unfold mbind, M_bind.
  destruct (update_leased_cases job worker (failed_row now job error) q); [by apply Lost|by apply Held].
Qed.

Lemma queue_step_inv c o : queue_inv c.1 c.2 → queue_inv (queue_step c o).1 (queue_step c o).2.
Proof using Htxn.
  destruct c as [q log]. simpl. intros Hi. destruct o as [t k p key m a|now locked w l|now j w l|j w v|now j w e]; simpl.
  - by apply enqueue_inv.
  - by apply claim_inv.
  - destruct (heartbeat_cases now j w l q) as [Hn|r Hr Ht Hs Hl]; simpl; [done|].
    eapply queue_inv_update; eauto; simpl; rewrite ?Hs, ?Hl; try done; by left.
  - destruct (succeed_cases j w v q) as [Hn|r Hr Ht Hs Hl]; simpl; [done|].
    eapply queue_inv_update; eauto; simpl; rewrite ?Hs; try done; split; by try intros [? ?].
  - destruct (fail_cases now j w e q) as [Hn|r Hr Ht Hs Hl]; simpl; [done|].
    eapply queue_inv_update; eauto; simpl; rewrite ?Hs; try done; unfold failed_status; destruct (_ <=? _);
      try (split; by try intros [? ?]); by left.
Qed.

Lemma queue_history_inv ops : let c := foldl queue_step (empty_queue, []) ops in queue_inv c.1 c.2.
Proof using Htxn.
  simpl. assert (queue_inv (empty_queue, [] : list Z).1 (empty_queue, [] : list Z).2) as H0.
  { split; simpl; try done; [constructor|]. intros id. split; [by intros ?%elem_of_nil|by intros (? & ? & ?)]. }
  revert H0. generalize (empty_queue, [] : list Z). induction ops as [|o ops IH]; intros c Hc; simpl; [done|].
  by apply IH, queue_step_inv.
Qed.

(** A terminal row is never touched again. *)
Lemma queue_step_terminal c o id r : rows c.1 !! id = Some r →
  jr_status r = JSucceeded ∨ jr_status r = JDeadLetter → queue_inv c.1 c.2 →
  rows (queue_step c o).1 !! id = Some r.
Proof using Htxn.
  destruct c as [q log]. simpl. intros Hr Ht Hi. destruct o as [t k p key m a|now locked w l|now j w l|j w v|now j w e]; simpl.
  - unfold enqueue. munfold. guard_case as Em; [done|]. rewrite txn_atomically. unfold atomically. munfold.
    destruct (by_key q t key) as [[i row]|]; simpl; [by destruct (_ || _)|].
    apply (qi_ids _ _ Hi) in Hr as Hlt. rewrite lookup_insert_ne; [done|lia].
  - unfold claim. munfold. guard_case as El; [done|]. rewrite txn_atomically. unfold atomically. munfold.
    destruct (candidates q now locked) as [|[i x] cs] eqn:Ec; simpl; [done|].
    assert ((i, x) ∈ candidates q now locked) as Hin by (rewrite Ec; left).
    apply elem_of_candidates in Hin as (Hx & Hcl & _).
    rewrite lookup_insert_ne; [done|]. intros ->. assert (x = r) as -> by congruence.
    unfold claimable in Hcl. by destruct Ht as [Ht|Ht]; rewrite Ht in Hcl.
  - destruct (heartbeat_cases now j w l q); simpl; [done|]. rewrite lookup_insert_ne; [done|]. intros <-. destruct Ht; congruence.
  - destruct (succeed_cases j w v q); simpl; [done|]. rewrite lookup_insert_ne; [done|]. intros <-. destruct Ht; congruence.
  - destruct (fail_cases now j w e q); simpl; [done|]. rewrite lookup_insert_ne; [done|]. intros <-. destruct Ht; congruence.
Qed.
End facts.

(** ** Properties *)

(** C8: The queue under every history of enqueues, claims (whatever rows others hold locked),
    heartbeats, completions and failures by any workers at any times: a tenant's idempotency key
    has one row; a row is leased exactly while it is running; each job completes at most once,
    the completed jobs being exactly the succeeded rows; and a succeeded or dead-lettered row is
    never changed again by whatever follows. *)
Theorem queue_history_safe (canon : pyval → string) (txn : ∀ S A, M S A → M S A) (Htxn : Transactional txn)
    (ops more : list queue_op) :
  let step := queue_step canon (txn:=txn) in
  let c := foldl step (empty_queue, []) ops in
  (∀ i j r r', rows c.1 !! i = Some r → rows c.1 !! j = Some r' →
     jr_tenant r = jr_tenant r' → jr_key r = jr_key r' → i = j) ∧
  (∀ id r, rows c.1 !! id = Some r →
     (jr_status r = JRunning ↔ is_Some (jr_leased_by r)) ∧ (jr_status r = JRunning ↔ is_Some (jr_lease_expires_at r))) ∧
  NoDup c.2 ∧ (∀ id, id ∈ c.2 ↔ ∃ r, rows c.1 !! id = Some r ∧ jr_status r = JSucceeded) ∧
  (∀ id r, rows c.1 !! id = Some r → jr_status r = JSucceeded ∨ jr_status r = JDeadLetter →
     rows (foldl step c more).1 !! id = Some r).
Proof.
  intros step c. pose proof (queue_history_inv canon ops) as Hi. fold step c in Hi. pose proof Hi as [].
  split_and!; try done. intros id r Hr Ht. clearbody c. clear qi_ids0 qi_keys0 qi_lease0 qi_log0 qi_done0.
  revert c Hi Hr. induction more as [|o more IH]; intros c Hi Hr; simpl; [done|].
  apply IH; [by apply queue_step_inv|by apply queue_step_terminal].
Qed.

Definition sample_queue_ops : list queue_op :=
  [QEnqueue "ten_acme" "forecast" (VInt 1) "key-1" 3 0; QEnqueue "ten_acme" "forecast" (VInt 1) "key-1" 3 0;
   QClaim 10 ∅ "worker-a" 60;
   QSucceed (MkDurableJob 1 "ten_acme" "forecast" (VInt 1) "key-1" 1 3 0) "worker-a" VNone].

Lemma queue_history_safe_witness :
  let c := foldl (queue_step (λ _, "") (txn:=@atomically)) (empty_queue, []) sample_queue_ops in
  c.2 = [1] ∧ (∃ r, rows c.1 !! 1 = Some r ∧ jr_status r = JSucceeded).
Proof.
  intros c. assert (c.2 = [1]) as Hc by (by vm_compute). split; [exact Hc|].
  destruct (queue_history_safe (λ _, "") (@atomically) _ sample_queue_ops []) as (_ & _ & _ & H & _).
  apply (proj1 (H 1)). fold c. rewrite Hc. left.
Defined.

(** Claiming is first-come first-served and exact: with a lease of at least five seconds the
    call returns nothing exactly when no row is both claimable (pending and due, or running with
    an expired lease) and unlocked; otherwise it takes one with the least (available_at, id),
    marks it running under this worker with one more attempt and the new expiry, returns those
    values, and leaves every other row alone; a shorter lease is refused without effect. *)
Theorem claim_correct (txn : ∀ S A, M S A → M S A) (Htxn : Transactional txn) (q : queue) (now : Z)
    (locked : gset Z) (worker : string) (lease : Z) :
  let '(q', res) := claim txn now locked worker lease q in
  if lease <? 5 then q' = q ∧ res = Err (ValueError "lease must be at least five seconds")
  else match res with
  | Ok None => q' = q ∧ ∀ id r, rows q !! id = Some r → claimable now r = true → id ∈ locked
  | Ok (Some job) => ∃ r,
      rows q !! dj_id job = Some r ∧ claimable now r = true ∧ (dj_id job ∉ locked) ∧
      (∀ id' r', rows q !! id' = Some r' → claimable now r' = true → id' ∉ locked →
         jr_available_at r < jr_available_at r' ∨ jr_available_at r = jr_available_at r' ∧ dj_id job <= id') ∧
      rows q' = <[dj_id job := claimed_row worker (now + lease * 1000000) r]> (rows q) ∧
      dj_attempt job = jr_attempt r + 1 ∧ dj_tenant_id job = jr_tenant r ∧
      dj_lease_expires_at job = now + lease * 1000000
  | Err _ => False
  end.
Proof.
  unfold claim. munfold. destruct (lease <? 5); [done|]. simpl. rewrite txn_atomically. unfold atomically. munfold.
  destruct (candidates q now locked) as [|[id r] cs] eqn:Ec; simpl.
  - split; [done|]. intros id r Hr Hcl. destruct (decide (id ∈ locked)) as [|Hl]; [done|]. exfalso.
    apply (not_elem_of_nil (id, r)). rewrite <- Ec. by apply elem_of_candidates.
  - assert ((id, r) ∈ candidates q now locked) as Hin by (rewrite Ec; left).
    apply elem_of_candidates in Hin as (Hr & Hcl & Hl). exists r. split_and!; try done.
    by eapply candidates_head.
Qed.

Lemma claim_correct_witness :
  let q := (foldl (queue_step (λ _, "") (txn:=@atomically)) (empty_queue, [])
    [QEnqueue "ten_acme" "forecast" (VInt 1) "key-1" 3 0]).1 in
  ∃ r, rows q !! 1 = Some r ∧ claimable 10 r = true.
Proof.
  intros q. pose proof (claim_correct (@atomically) _ q 10 ∅ "worker-a" 60) as H.
  destruct (claim (@atomically) 10 ∅ "worker-a" 60 q) as [q' res] eqn:E.
  assert (res = Ok (Some (MkDurableJob 1 "ten_acme" "forecast" (VInt 1) "key-1" 1 3 60000010))) as ->.
  { apply (f_equal snd) in E. simpl in E. rewrite <- E. by vm_compute. }
  destruct H as (r & H1 & H2 & _). exists r. split; [exact H1|exact H2].
Defined.

(** A worker that lost its lease cannot affect the job: a heartbeat then says false, and
    completing or failing the job raises, all without effect; while the lease is held a failure
    clears it and, by whether the attempt was the last allowed one, dead-letters the job or makes
    it due again after 2^attempt seconds, capped at 256. *)
Theorem lease_guards_outcome (txn : ∀ S A, M S A → M S A) (Htxn : Transactional txn) (q : queue) (now : Z)
    (job : DurableJob) (worker error : string) (lease : Z) (v : pyval) (Hattempt : 1 <= dj_attempt job) :
  (¬ holds_lease q job worker →
     heartbeat txn now job worker lease q = (q, Ok false) ∧
     succeed txn job worker v q = (q, Err (RuntimeError "job lease was lost before completion")) ∧
     fail txn now job worker error q = (q, Err (RuntimeError "job lease was lost before failure recording"))) ∧
  (holds_lease q job worker → ∃ q' r',
     fail txn now job worker error q = (q', Ok (jr_status r')) ∧ rows q' !! dj_id job = Some r' ∧
     (∀ id, id ≠ dj_id job → rows q' !! id = rows q !! id) ∧
     jr_status r' = (if dj_max_attempts job <=? dj_attempt job then JDeadLetter else JPending) ∧
     jr_leased_by r' = None ∧
     jr_available_at r' = now + 2 ^ Z.min (dj_attempt job) 8 * 1000000 ∧
     now + 2 * 1000000 <= jr_available_at r' <= now + 256 * 1000000).
Proof.
  split.
  - intros Hn. split_and!.
    + by destruct (heartbeat_cases now job worker lease q) as [|r Hr ???]; [|exfalso; apply Hn; exists r].
    + by destruct (succeed_cases job worker v q) as [|r Hr ???]; [|exfalso; apply Hn; exists r].
    + by destruct (fail_cases now job worker error q) as [|r Hr ???]; [|exfalso; apply Hn; exists r].
  - intros Hh. destruct (fail_cases now job worker error q) as [|r Hr Ht Hs Hl]; [done|].
    assert (2 ^ 1 <= 2 ^ Z.min (dj_attempt job) 8 <= 2 ^ 8) as Hp by (split; apply Z.pow_le_mono_r; lia).
    assert (backoff_seconds (dj_attempt job) = 2 ^ Z.min (dj_attempt job) 8) as Hb
      by (unfold backoff_seconds; lia).
    exists (MkQueue (<[dj_id job := failed_row now job error r]> (rows q)) (next_id q)), (failed_row now job error r).
    split_and!; [done|apply lookup_insert_eq| |done|done| | |]; simpl; rewrite ?Hb; try lia.
    intros id Hid. by rewrite lookup_insert_ne.
Qed.

Lemma lease_guards_outcome_witness :
  let job := MkDurableJob 1 "ten_acme" "forecast" (VInt 1) "key-1" 1 3 0 in
  heartbeat (@atomically) 0 job "worker-a" 60 empty_queue = (empty_queue, Ok false).
Proof.
  intros job. assert (1 <= dj_attempt job) as Ha by (simpl; lia).
  refine (proj1 (proj1 (lease_guards_outcome (@atomically) _ empty_queue 0 job "worker-a" "" 60 VNone Ha) _)).
  by intros (r & Hr & _).
Defined.

(** The crash loop of one worker: a job of one allowed attempt, claimed [n] times ten seconds
    apart, no outcome ever recorded. *)
Definition crash_loop (n : nat) : list queue_op :=
  QEnqueue "ten_acme" "forecast" (VInt 1) "key-1" 1 0
  :: map (λ k, QClaim (Z.of_nat k * 10000000) ∅ "worker-a" 5) (seq 1 n).

(** The attempt limit does not bound crashes.  A running job whose lease expired is claimed
    again whatever its attempt count, and only a recorded failure dead-letters: for every [n]
    there is a history in which a job with a limit of one attempt is on its [n]-th. *)
Theorem crash_loop_unbounded (canon : pyval → string) (txn : ∀ S A, M S A → M S A) (Htxn : Transactional txn) (n : nat) :
  ∃ r, rows (foldl (queue_step canon (txn:=txn)) (empty_queue, []) (crash_loop n)).1 !! 1 = Some r ∧
    jr_max_attempts r = 1 ∧ jr_attempt r = Z.of_nat n ∧ jr_status r ≠ JDeadLetter.
Proof.
  assert (∀ n, ∃ r, (foldl (queue_step canon (txn:=txn)) (empty_queue, []) (crash_loop n)).1 = MkQueue {[1 := r]} 2 ∧
    jr_max_attempts r = 1 ∧ jr_attempt r = Z.of_nat n ∧ jr_status r ≠ JDeadLetter ∧
    claimable (Z.of_nat (S n) * 10000000) r = true) as H.
  { clear n. intros n. induction n as [|n (r & Hq & Hm & Ha & Hs & Hc)].
    - exists (MkJobRow "ten_acme" "forecast" (VInt 1) "key-1" 1 0 JPending 0 None None None None).
      split; [|done]. simpl. unfold enqueue. munfold. rewrite txn_atomically. done.
    - exists (claimed_row "worker-a" (Z.of_nat (S n) * 10000000 + 5 * 1000000) r).
      unfold crash_loop in *. rewrite seq_S, map_app. rewrite app_comm_cons, foldl_app.
      destruct (foldl _ _ (QEnqueue _ _ _ _ _ _ :: map _ (seq 1 n))) as [q log]. simpl in Hq. subst q.
      cbn [foldl map]. unfold queue_step, claim. munfold. rewrite txn_atomically. unfold atomically. munfold.
      unfold candidates. simpl. rewrite map_to_list_singleton.
      rewrite filter_cons_True, filter_nil by (simpl; split; [done|apply not_elem_of_empty]). simpl.
      rewrite insert_singleton_eq. split_and!; try done; try lia. apply Z.leb_le. lia. }
  destruct (H n) as (r & -> & ? & ? & ? & _). exists r. split_and!; try done.
Qed.
