(* ===== verification/Plans.v ===== *)
(** * Plan lifecycle: [packages/plans/lifecycle.py]

    [PlanLifecycle] keeps the governed plans by id; [transition] runs under its lock. *)
From S2P Require Import Prelude Domain Approval.
Local Open Scope Z_scope.

Inductive PlanState :=
| DRAFT | VALIDATED | PENDING_APPROVAL | PLAN_APPROVED | ACTIVE | SUPERSEDED | PLAN_REJECTED.
#[global] Instance PlanState_eq_dec : EqDecision PlanState.
Proof. solve_decision. Defined.

Record GovernedPlan := MkGovernedPlan {
  plan_id : string; plan_tenant_id : string; plan_site_id : string; version : Z; state : PlanState;
  state_version : string; policy_versions : list string; plan_risk : RiskLevel;
  hard_violations : list string; required_approvers : Z; activated_at : option datetime
}.

Definition PLAN_TRANSITIONS (s : PlanState) : list PlanState :=
  match s with
  | DRAFT => [VALIDATED; PLAN_REJECTED]
  | VALIDATED => [PENDING_APPROVAL; PLAN_APPROVED]
  | PENDING_APPROVAL => [PLAN_APPROVED; PLAN_REJECTED]
  | PLAN_APPROVED => [ACTIVE; PLAN_REJECTED]
  | ACTIVE => [SUPERSEDED]
  | SUPERSEDED | PLAN_REJECTED => []
  end.

Abbreviation plans := (gmap string GovernedPlan).

Definition plan_create (p : GovernedPlan) : M plans unit :=
  s ← mget;
  mguard (bool_decide (is_Some (s !! plan_id p))) (ValueError "plan already exists");;
  mput (<[plan_id p := p]> s).

Definition plan_transition (id : string) (target : PlanState) (expected_version : Z)
    (current_state_version : option string) (at_ : option datetime) : M plans GovernedPlan :=
  s ← mget;
  p ← mlift (of_option (KeyError id) (s !! id));
  mguard (negb (version p =? expected_version)) (RuntimeError "optimistic lock conflict");;
  mguard (negb (mem target (PLAN_TRANSITIONS (state p)))) (ValueError "invalid plan transition");;
  mguard (negb (bool_decide (hard_violations p = [])) && negb (bool_decide (target = PLAN_REJECTED)))
    (ValueError "plan with hard violations cannot advance");;
  mguard (bool_decide (target = ACTIVE) && negb (bool_decide (current_state_version = Some (state_version p))))
    (ValueError "stale plan rejected after material state change");;
  mguard (bool_decide (target = ACTIVE) && negb (bool_decide (state p = PLAN_APPROVED)))
    (ValueError "only approved plan can become active");;
  let updated := MkGovernedPlan (plan_id p) (plan_tenant_id p) (plan_site_id p) (version p + 1) target
    (state_version p) (policy_versions p) (plan_risk p) (hard_violations p) (required_approvers p)
    (if bool_decide (target = ACTIVE) then at_ else activated_at p) in
  mput (<[id := updated]> s);;
  mret updated.

Definition plan_get (id tenant_id : string) : M plans GovernedPlan :=
  s ← mget;
  p ← mlift (of_option (KeyError id) (s !! id));
  mguard (negb (bool_decide (plan_tenant_id p = tenant_id))) (PermissionError "cross-tenant plan access");;
  mret p.

(** ** What a transition does *)

Lemma plan_transition_ok id target v cur at_ s s' p' :
  plan_transition id target v cur at_ s = (s', Ok p') →
  ∃ p, s !! id = Some p ∧ version p = v ∧ target ∈ PLAN_TRANSITIONS (state p) ∧
    (hard_violations p = [] ∨ target = PLAN_REJECTED) ∧
    (target = ACTIVE → cur = Some (state_version p) ∧ state p = PLAN_APPROVED) ∧
    s' = <[id := p']> s ∧ state p' = target ∧ version p' = version p + 1 ∧
    hard_violations p' = hard_violations p ∧ plan_tenant_id p' = plan_tenant_id p ∧
    state_version p' = state_version p ∧ activated_at p' = (if bool_decide (target = ACTIVE) then at_ else activated_at p).
Proof.
  unfold plan_transition. munfold. destruct (s !! id) as [p|] eqn:E; [|done].
  guard_case as E1; [done|]. guard_case as E2; [done|]. guard_case as E3; [done|]. guard_case as E4; [done|].
  guard_case as E5; [done|]. intros [= <- <-]. exists p. bprop. apply mem_true in E2. simpl.
  split_and!; try done.
  - destruct E3; bprop; auto.
  - intros ->. destruct E4 as [?|?], E5 as [?|?]; by bprop.
Qed.

Lemma plan_transition_err id target v cur at_ s s' e :
  plan_transition id target v cur at_ s = (s', Err e) → s' = s.
Proof.
  unfold plan_transition. munfold. destruct (s !! id) as [p|] eqn:E; [|by intros [= <- _]].
  guard_case as E1; [by intros [= <- _]|]. guard_case as E2; [by intros [= <- _]|].
  guard_case as E3; [by intros [= <- _]|]. guard_case as E4; [by intros [= <- _]|].
  guard_case as E5; [by intros [= <- _]|]. done.
Qed.

(** ** Histories *)

Inductive plan_op :=
| OpPlanCreate (p : GovernedPlan)
| OpTransition (id : string) (target : PlanState) (v : Z) (cur : option string) (at_ : option datetime).

Definition op_draft (o : plan_op) : Prop := match o with OpPlanCreate p => state p = DRAFT | _ => True end.

(** The plans, and the activations (plan id, version reached, state version presented) so far *)
Definition plan_step (c : plans * list (string * Z * option string)) (o : plan_op) :=
  let '(s, log) := c in
  match o with
  | OpPlanCreate p => ((plan_create p s).1, log)
  | OpTransition id target v cur at_ =>
      match plan_transition id target v cur at_ s with
      | (s', Ok p') => (s', if bool_decide (target = ACTIVE) then (id, version p', cur) :: log else log)
      | (s', Err _) => (s', log)
      end
  end.

(** A plan that went live had no hard violation, and was activated exactly once, against the
    state it was computed for. *)
Definition went_live (p : GovernedPlan) : Prop := state p = ACTIVE ∨ state p = SUPERSEDED.
Definition plan_inv (c : plans * list (string * Z * option string)) : Prop :=
  (∀ id p, c.1 !! id = Some p → went_live p → hard_violations p = [] ∧
     ∃ v, (id, v, Some (state_version p)) ∈ c.2) ∧
  NoDup (c.2.*1.*1) ∧
  (∀ id, id ∈ c.2.*1.*1 ↔ ∃ p, c.1 !! id = Some p ∧ went_live p).

Lemma plan_transition_inv s log id target v cur at_ s' p' :
  plan_transition id target v cur at_ s = (s', Ok p') → plan_inv (s, log) →
  plan_inv (s', if bool_decide (target = ACTIVE) then (id, version p', cur) :: log else log).
Proof.
  intros (p & Hp & Hv & Htr & Hh & Ha & -> & Hst & Hver & Hhv & _ & Hsv & _)%plan_transition_ok (Hlive & Hnd & Hlog).
  simpl in *. destruct (decide (target = ACTIVE)) as [Hact|Hact].
  - rewrite bool_decide_true by done. destruct (Ha Hact) as [-> Happ].
    assert (id ∉ log.*1.*1) as Hnew.
    { rewrite Hlog. intros (x & Hx & Hl). assert (x = p) as -> by congruence. destruct Hl; congruence. }
    assert (went_live p') as Hl' by (left; congruence).
    split_and!; simpl.
    + intros i x. rewrite lookup_insert_Some. intros [[<- <-]|[_ Hx]] Hl.
      * split; [destruct Hh; congruence|]. exists (version p'). rewrite Hsv. left.
      * destruct (Hlive _ _ Hx Hl) as [? [w Hw]]. split; [done|]. exists w. by right.
    + csimpl. by constructor.
    + intros i. csimpl. rewrite elem_of_cons, Hlog. destruct (decide (id = i)) as [<-|].
      * rewrite lookup_insert_eq. naive_solver.
      * rewrite lookup_insert_ne by done. naive_solver.
  - rewrite bool_decide_false by done.
    assert (went_live p' ↔ went_live p) as Hiff.
    { unfold went_live. rewrite Hst. destruct (state p) eqn:Es; simpl in Htr; rewrite ?elem_of_cons, ?elem_of_nil in Htr;
        intuition congruence. }
    split_and!; simpl; [|done|].
    + intros i x. rewrite lookup_insert_Some. intros [[<- <-]|[_ Hx]]; [|eauto].
      rewrite Hiff, Hhv, Hsv. eauto.
    + intros i. rewrite Hlog. destruct (decide (id = i)) as [<-|]; [|by rewrite lookup_insert_ne].
      rewrite lookup_insert_eq, Hp. naive_solver.
Qed.

Lemma plan_step_inv c o : op_draft o → plan_inv c → plan_inv (plan_step c o).
Proof.
  destruct c as [s log]. intros Hd (Hlive & Hnd & Hlog). simpl in *.
  destruct o as [p|id target v cur at_]; simpl in *.
  - unfold plan_create. munfold. guard_case as E; [done|]. bprop. rewrite <- eq_None_not_Some in E.
    assert (¬ went_live p) as Hnl by (intros [H|H]; congruence).
    split_and!; simpl; [|done|].
    + intros id x. rewrite lookup_insert_Some. intros [[<- <-]|[_ Hx]]; [done|eauto].
    + intros id. rewrite Hlog. destruct (decide (plan_id p = id)) as [<-|]; [|by rewrite lookup_insert_ne].
      rewrite E, lookup_insert_eq. naive_solver.
  - destruct (plan_transition id target v cur at_ s) as [s' [p'|e]] eqn:Et; simpl.
    + by apply (plan_transition_inv _ _ _ _ _ _ _ _ _ Et).
    + by apply plan_transition_err in Et as ->.
Qed.

(** ** Properties *)

(** Plan governance.  In every history of creations (as drafts) and transitions, a plan that
    is active or superseded has no hard violation and was activated exactly once, by presenting the
    very state version it was computed for; and plans never activated are in the log of activations
    nowhere. *)
Theorem live_plans_governed (ops : list plan_op) (Hdraft : Forall op_draft ops) :
  let '(s, log) := foldl plan_step (∅, []) ops in
  (∀ id p, s !! id = Some p → went_live p →
     hard_violations p = [] ∧ ∃ v, (id, v, Some (state_version p)) ∈ log) ∧
  NoDup (log.*1.*1) ∧
  (∀ id, id ∈ log.*1.*1 ↔ ∃ p, s !! id = Some p ∧ went_live p).
Proof.
  assert (plan_inv (foldl plan_step (∅, []) ops)) as Hi.
  { assert (plan_inv (∅, [])) as H0.
    { split_and!; simpl; [done|constructor|]. intros id. rewrite lookup_empty.
      split; [by intros ?%elem_of_nil|by intros (? & ? & _)]. }
    revert H0. generalize (∅ : plans, [] : list (string * Z * option string)).
    induction Hdraft as [|o ops Ho Hops IH]; intros c Hc; simpl; [done|]. by apply IH, plan_step_inv. }
  by destruct (foldl plan_step (∅, []) ops).
Qed.

Definition sample_plan : GovernedPlan :=
  MkGovernedPlan "plan-1" "ten_acme" "site_sh" 1 DRAFT "v7" [] L2 [] 1 None.
Definition sample_plan_ops : list plan_op :=
  [OpPlanCreate sample_plan; OpTransition "plan-1" VALIDATED 1 None None;
   OpTransition "plan-1" PLAN_APPROVED 2 None None; OpTransition "plan-1" ACTIVE 3 (Some "v6") None;
   OpTransition "plan-1" ACTIVE 3 (Some "v7") None; OpTransition "plan-1" ACTIVE 3 (Some "v7") None].

Lemma live_plans_governed_witness :
  let '(s, log) := foldl plan_step (∅, []) sample_plan_ops in
  log = [("plan-1", 4, Some "v7")] ∧ ∃ p, s !! "plan-1" = Some p ∧ went_live p.
Proof.
  pose proof (live_plans_governed sample_plan_ops ltac:(repeat constructor)) as H.
  destruct (foldl plan_step (∅, []) sample_plan_ops) as [s log] eqn:E.
  assert (log = [("plan-1", 4, Some "v7")]) as ->.
  { apply (f_equal snd) in E. simpl in E. rewrite <- E. by vm_compute. }
  split; [reflexivity|]. apply (proj2 (proj2 H)). left.
Defined.

(** Transitions are guarded and optimistic: one that returns started from the version the caller
    expected, followed an edge of the lifecycle, did not advance a plan with hard violations, raised
    the version by one and changed no other plan, so that a second call with the same expected
    version raises a lock conflict; one that raises changes nothing. *)
Theorem plan_transition_guarded (id : string) (target : PlanState) (v : Z) (cur : option string)
    (at_ : option datetime) (s : plans) :
  match plan_transition id target v cur at_ s with
  | (s', Err _) => s' = s
  | (s', Ok p') => ∃ p, s !! id = Some p ∧ version p = v ∧ target ∈ PLAN_TRANSITIONS (state p) ∧
      (hard_violations p = [] ∨ target = PLAN_REJECTED) ∧
      s' = <[id := p']> s ∧ state p' = target ∧ version p' = v + 1 ∧
      ∀ target2 cur2 at2, plan_transition id target2 v cur2 at2 s' = (s', Err (RuntimeError "optimistic lock conflict"))
  end.
Proof.
  destruct (plan_transition id target v cur at_ s) as [s' [p'|e]] eqn:E; [|by eapply plan_transition_err].
  apply plan_transition_ok in E as (p & Hp & Hv & Htr & Hh & _ & -> & Hst & Hver & _).
  exists p. split_and!; try done; [lia|]. intros target2 cur2 at2. unfold plan_transition. munfold.
  rewrite lookup_insert_eq. simpl. rewrite (proj2 (Z.eqb_neq _ _)) by lia. done.
Qed.
