(* ===== verification/Policy.v ===== *)
(** * Policies: [packages/policy], [packages/constraints/catalog.py]

    [models.py] and [dsl.py]: policies and their documents; [engine.py]: rule evaluation,
    publication and the decision on a set of facts, with the in-process backend ([mem_], a dict
    in insertion order) and the PostgreSQL one ([pg_], the table [policy_versions] with its
    primary key); [catalog.py]: the registry of governed constraints.  Rule values and facts are
    dynamic values; the text of a container ([str] of a list or dict) is a parameter of the
    document parser. *)
From S2P Require Import Prelude PyDecimal PyValue PyText.
From stdpp Require Import pretty.
From Stdlib Require Import QArith.
Local Open Scope Z_scope.

Inductive Enforcement := HARD | SOFT.
#[global] Instance Enforcement_eq_dec : EqDecision Enforcement.
Proof. solve_decision. Defined.

Record PolicyRule := MkRule { field : string; operator : string; value : pyval }.
Record Policy := MkPolicy {
  pol_id : string; pol_version : Z; pol_tenant_id : string; site_ids : gset string; rule : PolicyRule;
  enforcement : Enforcement; pol_priority : Z; owner : string; published : bool
}.
Record PolicyDecision := MkDecision {
  allowed : bool; hard : list string; warnings : list string; active_policies : list string;
  explanation : list string
}.

Definition facts : Type := list (string * pyval).

(** ** engine.py: rules *)

Definition OPERATORS : list string := ["eq"; "ne"; "lt"; "lte"; "gt"; "gte"; "in"; "contains"].

Definition compare_with (test : comparison → bool) (a b : pyval) : result bool :=
  c ← py_compare a b; Ok (test c).

Definition apply_operator (op : string) (actual v : pyval) : result bool :=
  if bool_decide (op = "eq") then Ok (py_eq actual v)
  else if bool_decide (op = "ne") then Ok (negb (py_eq actual v))
  else if bool_decide (op = "lt") then compare_with (λ c, bool_decide (c = Lt)) actual v
  else if bool_decide (op = "lte") then compare_with (λ c, bool_decide (c ≠ Gt)) actual v
  else if bool_decide (op = "gt") then compare_with (λ c, bool_decide (c = Gt)) actual v
  else if bool_decide (op = "gte") then compare_with (λ c, bool_decide (c ≠ Lt)) actual v
  else if bool_decide (op = "in") then py_in actual v
  else if bool_decide (op = "contains") then py_in v actual
  else Err (ValueError ("unsupported policy operator " +:+ op)).

Definition evaluate_rule (r : PolicyRule) (fs : facts) : result bool :=
  match od_get (field r) fs with
  | None => Ok false
  | Some actual => apply_operator (operator r) actual (value r)
  end.

(** ** engine.py: publication *)

Definition conflicts_with (p other : Policy) : bool :=
  published other && bool_decide (pol_tenant_id other = pol_tenant_id p)
  && negb (bool_decide (site_ids other ∩ site_ids p = ∅))
  && bool_decide (field (rule other) = field (rule p)) && (pol_priority other =? pol_priority p)
  && bool_decide (operator (rule other) = "eq") && bool_decide (operator (rule p) = "eq")
  && negb (py_eq (value (rule other)) (value (rule p))).

(** [_validate_against]: the first conflicting policy is named in the error. *)
Fixpoint validate_against (p : Policy) (existing : list Policy) : result unit :=
  match existing with
  | [] => Ok tt
  | other :: rest =>
      raise_if (conflicts_with p other)
        (ValueError ("policy conflict with " +:+ pol_id other +:+ "@" +:+ pretty (pol_version other)));;
      validate_against p rest
  end.

Definition mark_published (p : Policy) : Policy :=
  MkPolicy (pol_id p) (pol_version p) (pol_tenant_id p) (site_ids p) (rule p) (enforcement p)
    (pol_priority p) (owner p) true.

Definition publish_guard (p : Policy) (actor_roles : gset string) : result unit :=
  raise_if (bool_decide (enforcement p = HARD) && negb (bool_decide ("safety_admin" ∈ actor_roles)))
    (PermissionError "only safety_admin can publish hard policy").

Abbreviation mem_policies := (list ((string * Z) * Policy)).

Definition mem_tenant_policies (s : mem_policies) (tenant : string) : list Policy :=
  base.filter (λ p, pol_tenant_id p = tenant) s.*2.

Definition mem_publish (p : Policy) (roles : gset string) : M mem_policies Policy :=
  mlift (publish_guard p roles);;
  s ← mget;
  mlift (validate_against p (mem_tenant_policies s (pol_tenant_id p)));;
  mput (od_set (pol_id p, pol_version p) (mark_published p) s);;
  mret (mark_published p).

(** [policy_versions] by its primary key *)
Abbreviation pg_policies := (gmap (string * string * Z) Policy).

Definition row_order : Policy → Policy → comparison :=
  cmp_then (cmp_on (λ p, - pol_priority p) Z.compare)
    (cmp_then (cmp_on pol_id String.compare) (cmp_on pol_version Z.compare)).

Definition pg_tenant_policies (s : pg_policies) (tenant : string) : list Policy :=
  py_sorted row_order (base.filter (λ p, pol_tenant_id p = tenant) (map_to_list s).*2).

Section pg.
Context (txn : ∀ S A, M S A → M S A).

Definition pg_publish (p : Policy) (roles : gset string) : M pg_policies Policy :=
  mlift (publish_guard p roles);;
  txn _ _ (
    s ← mget;
    mlift (validate_against p (base.filter (λ q, pol_tenant_id q = pol_tenant_id p) (map_to_list s).*2));;
    mguard (bool_decide (is_Some (s !! (pol_tenant_id p, pol_id p, pol_version p)))) (OtherError "UniqueViolation");;
    mput (<[(pol_tenant_id p, pol_id p, pol_version p) := mark_published p]> s));;
  mret (mark_published p).
End pg.

(** ** engine.py: decisions *)

Definition active_order : Policy → Policy → comparison :=
  cmp_then (cmp_on (λ p, - pol_priority p) Z.compare) (cmp_on pol_id String.compare).

(** The policies of the tenant that apply at the site, from those [_tenant_policies] gives *)
Definition active (ps : list Policy) (tenant site : string) : list Policy :=
  py_sorted active_order (base.filter (λ p, published p = true ∧ pol_tenant_id p = tenant ∧
    (site_ids p = ∅ ∨ site ∈ site_ids p)) ps).

Definition policy_name (p : Policy) : string := pol_id p +:+ "@" +:+ pretty (pol_version p).

(** One round of the loop, with [hard], [warnings] and [explanation] as they stand *)
Definition decide_one (fs : facts) (acc : list string * list string * list string) (p : Policy)
    : result (list string * list string * list string) :=
  let '(h, w, ex) := acc in
  matched ← evaluate_rule (rule p) fs;
  let ex' := ex ++ [policy_name p +:+ ":" +:+ (if (matched : bool) then "matched" else "failed")] in
  if (matched : bool) then Ok (h, w, ex')
  else match enforcement p with
       | HARD => Ok (h ++ [pol_id p], w, ex')
       | SOFT => Ok (h, w ++ [pol_id p], ex')
       end.

Definition evaluate (ps : list Policy) (tenant site : string) (fs : facts) : result PolicyDecision :=
  let act := active ps tenant site in
  acc ← foldM_result (decide_one fs) act ([], [], []);
  let '(h, w, ex) := acc in
  Ok (MkDecision (bool_decide (h = [])) h w (map policy_name act) ex).

(** ** dsl.py *)

Section dsl.
(** [str] of a list or dict *)
Context (str_container : pyval → string).
#[local] Abbreviation py_str := (PyText.py_str str_container).

Definition enforcement_of (s : string) : result Enforcement :=
  if bool_decide (s = "hard") then Ok HARD else if bool_decide (s = "soft") then Ok SOFT
  else Err (ValueError "not a valid Enforcement").

Definition POLICY_FIELDS : list string :=
  ["schema_version"; "id"; "version"; "site_ids"; "rule"; "enforcement"; "priority"; "owner"].

Definition parse_policy_document (document : list (string * pyval)) (tenant_id : string) : result Policy :=
  raise_if (negb (py_eq (default VNone (od_get "schema_version" document)) (VStr "1.0")))
    (ValueError "unsupported policy schema version");;
  raise_if (negb (forallb (λ kv, mem kv.1 POLICY_FIELDS) document)) (ValueError "unknown policy fields");;
  match od_get "rule" document with
  | Some (VDict r) =>
      let op := py_str (default VNone (od_get "operator" r)) in
      raise_if (negb (mem op OPERATORS)) (ValueError "unsupported policy operator");;
      id ← item "id" document;
      v ← item "version" document; version ← py_int v;
      sites ← py_iter (default (VList []) (od_get "site_ids" document));
      f ← item "field" r; val ← item "value" r;
      e ← item "enforcement" document; enf ← enforcement_of (py_str e);
      pr ← item "priority" document; prio ← py_int pr;
      o ← item "owner" document;
      Ok (MkPolicy (py_str id) version tenant_id (list_to_set (map py_str sites)) (MkRule (py_str f) op val)
            enf prio (py_str o) false)
  | _ => Err (ValueError "policy rule must be an object")
  end.
End dsl.

(** ** catalog.py *)

Record Constraint := MkConstraint {
  con_id : string; severity : string; con_owner : string; con_enforcement : string; description : string
}.
#[global] Instance Constraint_eq_dec : EqDecision Constraint.
Proof. solve_decision. Defined.

Definition catalog_register (c : Constraint) : M (gmap string Constraint) unit :=
  s ← mget;
  mguard (match s !! con_id c with Some old => negb (bool_decide (old = c)) | None => false end)
    (ValueError "constraint ID cannot be redefined");;
  mput (<[con_id c := c]> s).
Definition catalog_require (id : string) : M (gmap string Constraint) Constraint :=
  s ← mget; mlift (of_option (ValueError ("unknown governed constraint " +:+ id)) (s !! id)).
Definition catalog_all (s : gmap string Constraint) : list Constraint :=
  py_sorted (cmp_on con_id String.compare) (map_to_list s).*2.

(** ** Decisions *)

#[global] Instance active_order_order : CmpOrder active_order.
Proof. unfold active_order. apply _. Qed.

(** A policy applies to a tenant's site. *)
Definition applies (tenant site : string) (p : Policy) : Prop :=
  published p = true ∧ pol_tenant_id p = tenant ∧ (site_ids p = ∅ ∨ site ∈ site_ids p).

Definition failing (fs : facts) (e : Enforcement) (p : Policy) : Prop :=
  enforcement p = e ∧ evaluate_rule (rule p) fs = Ok false.
#[global] Instance failing_dec fs e p : Decision (failing fs e p).
Proof. unfold failing. apply _. Defined.

Definition verdict (fs : facts) (p : Policy) : string :=
  policy_name p +:+ ":" +:+ (if bool_decide (evaluate_rule (rule p) fs = Ok true) then "matched" else "failed").

Lemma decide_loop fs ps h w ex :
  match foldM_result (decide_one fs) ps (h, w, ex) with
  | Ok (h', w', ex') =>
      Forall (λ p, is_ok (evaluate_rule (rule p) fs) = true) ps ∧
      h' = h ++ map pol_id (base.filter (failing fs HARD) ps) ∧
      w' = w ++ map pol_id (base.filter (failing fs SOFT) ps) ∧
      ex' = ex ++ map (verdict fs) ps
  | Err e => ∃ p, p ∈ ps ∧ evaluate_rule (rule p) fs = Err e
  end.
Proof.
  revert h w ex. induction ps as [|p ps IH]; intros h w ex; simpl.
  - rewrite !app_nil_r. split_and!; constructor.
  - destruct (evaluate_rule (rule p) fs) as [b|e] eqn:Er; simpl; [|exists p; split; [left|done]].
    unfold verdict at 1. rewrite Er.
    destruct b; [|destruct (enforcement p) eqn:Ee]; simpl.
    all: match goal with |- context [foldM_result _ _ (?h, ?w, ?ex)] => specialize (IH h w ex);
      destruct (foldM_result (decide_one fs) ps (h, w, ex)) as [[[h' w'] ex']|e] end;
      [|destruct IH as (q & Hq & ?); exists q; split; [by right|done]].
    all: destruct IH as (Hall & -> & -> & ->); rewrite !filter_cons.
    all: split_and!; [constructor; [by rewrite Er|done]|..]; repeat case_decide; csimpl; rewrite <- ?app_assoc; try done;
      exfalso; unfold failing in *; rewrite ?Er, ?Ee in *; naive_solver.
Qed.

Lemma elem_of_active ps tenant site p : p ∈ active ps tenant site ↔ p ∈ ps ∧ applies tenant site p.
Proof. unfold active, applies. rewrite elem_of_py_sorted, list_elem_of_filter. tauto. Qed.

(** ** Publication *)

Lemma validate_against_ok p ps : validate_against p ps = Ok tt ↔ Forall (λ q, conflicts_with p q = false) ps.
Proof.
  induction ps as [|q ps IH]; simpl; [split; [constructor|done]|]. munfold. rewrite Forall_cons.
  destruct (conflicts_with p q); [split; [done|by intros [? _]]|]. rewrite IH. tauto.
Qed.

(** Two published policies agree where they would contradict each other. *)
Definition compatible (p q : Policy) : Prop :=
  conflicts_with p q = false ∨ conflicts_with q p = false.
Definition conflict_free (ps : list Policy) : Prop :=
  ∀ p q, p ∈ ps → q ∈ ps → p = q ∨ compatible p q.

Lemma conflicts_other_tenant p q : pol_tenant_id q ≠ pol_tenant_id p → conflicts_with p q = false.
Proof.
  intros Hne. unfold conflicts_with. rewrite (bool_decide_false (pol_tenant_id q = _)) by done.
  by rewrite andb_false_r.
Qed.

Lemma conflicts_mark p q : conflicts_with (mark_published p) q = conflicts_with p q.
Proof. done. Qed.

(** Adding a validated policy to a conflict-free collection *)
Lemma conflict_free_add p ps ps' :
  conflict_free ps → validate_against p (base.filter (λ q, pol_tenant_id q = pol_tenant_id p) ps) = Ok tt →
  (∀ q, q ∈ ps' → q = mark_published p ∨ q ∈ ps) → conflict_free ps'.
Proof.
  intros Hcf Hv%validate_against_ok Hsub. rewrite Forall_forall in Hv.
  assert (∀ q, q ∈ ps → conflicts_with (mark_published p) q = false) as Hnew.
  { intros q Hq. rewrite conflicts_mark. destruct (decide (pol_tenant_id q = pol_tenant_id p)).
    - apply Hv. by apply list_elem_of_filter.
    - by apply conflicts_other_tenant. }
  intros a b [->|Ha]%Hsub [->|Hb]%Hsub; [by left|right; left; auto|right; right; auto|by apply Hcf].
Qed.

Inductive publication := Publication (p : Policy) (roles : gset string).

Definition mem_publish_step (s : mem_policies) (o : publication) : mem_policies :=
  let '(Publication p roles) := o in (mem_publish p roles s).1.
Definition pg_publish_step (txn : ∀ S A, M S A → M S A) (s : pg_policies) (o : publication) : pg_policies :=
  let '(Publication p roles) := o in (pg_publish txn p roles s).1.

Definition hard_by_admin (ops : list publication) (p : Policy) : Prop :=
  enforcement p = HARD → ∃ q roles, Publication q roles ∈ ops ∧ p = mark_published q ∧ "safety_admin" ∈ roles.

Lemma publish_guard_ok p roles : publish_guard p roles = Ok tt → enforcement p = HARD → "safety_admin" ∈ roles.
Proof.
  unfold publish_guard. munfold. destruct (_ && _) eqn:E; [done|]. bprop. intros _ Hh.
  destruct E; by bprop.
Qed.

Lemma hard_by_admin_mono ops o p : hard_by_admin ops p → hard_by_admin (ops ++ [o]) p.
Proof. intros H Hh. destruct (H Hh) as (q & roles & Hin & ?). exists q, roles. split; [set_solver|done]. Qed.

Lemma od_set_values {K V} `{EqDecision K} (k : K) (v x : V) (d : list (K * V)) :
  x ∈ (od_set k v d).*2 → x = v ∨ x ∈ d.*2.
Proof.
  induction d as [|[k' v'] d IH]; simpl; [set_solver|]. case_decide; csimpl; set_solver.
Qed.

Lemma mem_publish_inv ops o s : conflict_free s.*2 → (∀ p, p ∈ s.*2 → hard_by_admin ops p) →
  conflict_free (mem_publish_step s o).*2 ∧ ∀ p, p ∈ (mem_publish_step s o).*2 → hard_by_admin (ops ++ [o]) p.
Proof.
  intros Hcf Hh. assert (∀ p, p ∈ s.*2 → hard_by_admin (ops ++ [o]) p) as Hh' by eauto using hard_by_admin_mono.
  destruct o as [p roles]. simpl. unfold mem_publish. munfold.
  destruct (publish_guard p roles) as [[]|] eqn:Eg; [|done]. simpl.
  destruct (validate_against _ _) as [[]|] eqn:Ev; [|done]. simpl. split.
  - eapply conflict_free_add; [exact Hcf|exact Ev|]. intros q. apply od_set_values.
  - intros q [->|Hq]%od_set_values; [|by apply Hh']. intros Hhard. exists p, roles.
    split; [set_solver|]. split; [done|]. by eapply publish_guard_ok.
Qed.

Definition pg_values (s : pg_policies) : list Policy := (map_to_list s).*2.

Lemma elem_of_pg_values s p : p ∈ pg_values s ↔ ∃ k, s !! k = Some p.
Proof.
  unfold pg_values. rewrite list_elem_of_fmap. split.
  - intros ([k q] & -> & Hk%elem_of_map_to_list). eauto.
  - intros [k Hk]. exists (k, p). split; [done|]. by apply elem_of_map_to_list.
Qed.

Lemma pg_publish_inv `{Htxn : !Transactional txn} ops o s :
  conflict_free (pg_values s) → (∀ p, p ∈ pg_values s → hard_by_admin ops p) →
  conflict_free (pg_values (pg_publish_step txn s o)) ∧
  (∀ p, p ∈ pg_values (pg_publish_step txn s o) → hard_by_admin (ops ++ [o]) p) ∧
  (∀ k p, s !! k = Some p → pg_publish_step txn s o !! k = Some p).
Proof.
  intros Hcf Hh. assert (∀ p, p ∈ pg_values s → hard_by_admin (ops ++ [o]) p) as Hh' by eauto using hard_by_admin_mono.
  destruct o as [p roles]. simpl. unfold pg_publish. munfold.
  destruct (publish_guard p roles) as [[]|] eqn:Eg; [|done]. simpl. rewrite txn_atomically. unfold atomically. munfold.
  destruct (validate_against _ _) as [[]|] eqn:Ev; [|done]. simpl. guard_case as Eu; [done|]. bprop.
  rewrite <- eq_None_not_Some in Eu.
  assert (∀ q, q ∈ pg_values (<[(pol_tenant_id p, pol_id p, pol_version p) := mark_published p]> s) →
    q = mark_published p ∨ q ∈ pg_values s) as Hsub.
  { intros q [k Hk]%elem_of_pg_values. apply lookup_insert_Some in Hk as [[_ <-]|[_ Hk]]; [by left|].
    right. apply elem_of_pg_values. eauto. }
  split_and!.
  - eapply conflict_free_add; [exact Hcf|exact Ev|exact Hsub].
  - intros q [->|Hq]%Hsub; [|by apply Hh']. intros Hhard. exists p, roles.
    split; [set_solver|]. split; [done|]. by eapply publish_guard_ok.
  - intros k q Hk. rewrite lookup_insert_ne; [done|]. congruence.
Qed.

(** ** Properties *)


(** Publication in both backends: after any sequence of publications no two stored published
    policies of a tenant with overlapping sites demand different values of one field at one priority,
    every stored hard policy was published by a safety admin, and in PostgreSQL a published version is
    never replaced. *)
Theorem publication_safe (txn : ∀ S A, M S A → M S A) (Htxn : Transactional txn) (ops more : list publication) :
  let m := foldl mem_publish_step [] ops in
  let s := foldl (pg_publish_step txn) ∅ ops in
  conflict_free m.*2 ∧ (∀ p, p ∈ m.*2 → hard_by_admin ops p) ∧
  conflict_free (pg_values s) ∧ (∀ p, p ∈ pg_values s → hard_by_admin ops p) ∧
  (∀ k p, s !! k = Some p → foldl (pg_publish_step txn) s more !! k = Some p).
Proof.
  intros m s.
  assert (conflict_free m.*2 ∧ ∀ p, p ∈ m.*2 → hard_by_admin ops p) as [Hm1 Hm2].
  { unfold m. clear m s. induction ops as [|o ops [IH1 IH2]] using rev_ind.
    { split; [|intros p Hp]; [intros p q Hp|]; by apply elem_of_nil in Hp. }
    rewrite foldl_snoc. by apply mem_publish_inv. }
  assert (conflict_free (pg_values s) ∧ ∀ p, p ∈ pg_values s → hard_by_admin ops p) as [Hs1 Hs2].
  { unfold s. clear m s Hm1 Hm2. induction ops as [|o ops [IH1 IH2]] using rev_ind.
    { split; [|intros p [k Hk]%elem_of_pg_values; done]. intros p q [k Hk]%elem_of_pg_values. done. }
    rewrite foldl_snoc. destruct (pg_publish_inv ops o _ IH1 IH2) as (?&?&_). done. }
  split_and!; try done. intros k p Hp. clearbody s. clear Hm1 Hm2 m.
  revert ops s Hs1 Hs2 Hp. induction more as [|o more IH]; intros ops s Hs1 Hs2 Hp; simpl; [done|].
  destruct (pg_publish_inv ops o s Hs1 Hs2) as (H1 & H2 & H3). eapply IH; [exact H1|exact H2|]. by apply H3.
Qed.

Definition sample_policy (tenant : string) (enf : Enforcement) (v : pyval) : Policy :=
  MkPolicy "pol-cap" 1 tenant ∅ (MkRule "site_power_kw" "lte" v) enf 10 "owner" false.

Lemma publication_safe_witness :
  let s := foldl (pg_publish_step (@atomically)) ∅
    [Publication (sample_policy "ten_acme" HARD (VInt 500)) {["safety_admin"]}] in
  pg_publish_step (@atomically) s (Publication (sample_policy "ten_acme" SOFT (VInt 900)) ∅)
    !! ("ten_acme", "pol-cap", 1) = Some (mark_published (sample_policy "ten_acme" HARD (VInt 500))).
Proof.
  intros s.
  refine (proj2 (proj2 (proj2 (proj2 (publication_safe (@atomically) _
    [Publication (sample_policy "ten_acme" HARD (VInt 500)) {["safety_admin"]}]
    [Publication (sample_policy "ten_acme" SOFT (VInt 900)) ∅])))) ("ten_acme", "pol-cap", 1) _ _).
  by vm_compute.
Defined.

(** The in-process backend keys policies by (id, version) without the tenant.  A tenant that
    publishes a version another tenant already published replaces it: the other tenant's hard policy
    is gone and what it forbade is allowed, while in PostgreSQL it stays. *)
Theorem mem_publish_replaces_other_tenant (a b : string) (site : string) (roles : gset string) (p q : Policy)
    (Hab : a ≠ b) (Hp : pol_tenant_id p = a) (Hq : pol_tenant_id q = b)
    (Hid : pol_id q = pol_id p) (Hver : pol_version q = pol_version p)
    (Hsoft : enforcement q = SOFT) (Hadmin : "safety_admin" ∈ roles) (fs : facts) :
  let s := foldl mem_publish_step [] [Publication p roles; Publication q ∅] in
  mem_tenant_policies s a = [] ∧
  evaluate (mem_tenant_policies s a) a site fs = Ok (MkDecision true [] [] [] []).
Proof.
  intros s. assert (s = [((pol_id p, pol_version p), mark_published q)]) as Hs.
  { unfold s. simpl. unfold mem_publish. munfold.
    assert (publish_guard p roles = Ok tt) as ->.
    { unfold publish_guard. rewrite (bool_decide_true ("safety_admin" ∈ roles)) by done. by rewrite andb_false_r. }
    simpl. assert (publish_guard q ∅ = Ok tt) as -> by (unfold publish_guard; by rewrite Hsoft).
    simpl. unfold mem_tenant_policies. csimpl. rewrite filter_cons_False by (simpl; congruence). rewrite filter_nil. simpl.
    rewrite Hid, Hver. by rewrite decide_True. }
  rewrite Hs. unfold mem_tenant_policies. csimpl. rewrite filter_cons_False by (simpl; congruence). by rewrite filter_nil.
Qed.

Lemma mem_publish_replaces_other_tenant_witness :
  mem_tenant_policies (foldl mem_publish_step []
    [Publication (sample_policy "ten_acme" HARD (VInt 500)) {["safety_admin"]};
     Publication (sample_policy "ten_other" SOFT (VInt 900)) ∅]) "ten_acme" = [].
Proof.
  refine (proj1 (mem_publish_replaces_other_tenant "ten_acme" "ten_other" "site_sh" {["safety_admin"]}
    (sample_policy "ten_acme" HARD (VInt 500)) (sample_policy "ten_other" SOFT (VInt 900)) _ _ _ _ _ _ _ []));
    done || set_solver.
Defined.

(** A tenant-wide hard policy demanding an integer value of a field *)
Definition demand (id tenant f : string) (z : Z) : Policy :=
  MkPolicy id 1 tenant ∅ (MkRule f "eq" (VInt z)) HARD 10 "owner" false.

Lemma py_eq_ints a m n : py_eq a (VInt m) = true → py_eq a (VInt n) = true → m = n.
Proof.
  assert (∀ z, py_eq a (VInt z) = true → ∃ x, num_of a = Some x ∧ (dval x == inject_Z z)%Q) as H.
  { intros z Hz. destruct a; simpl in Hz; try done; eexists; (split; [done|]);
      apply deqb_true in Hz; rewrite Hz; apply dval_dint. }
  intros (x & Hx & Hm)%H (y & Hy & Hn)%H. assert (x = y) as -> by congruence.
  rewrite Hm in Hn. by apply (proj1 (inject_Z_injective m n)).
Qed.

(** The conflict check overlooks tenant-wide policies.  An empty site set means every site when a
    decision is taken, but the check intersects the site sets, so two hard policies without sites that
    demand different values of one field at one priority are both published, and from then on every
    action of the tenant is denied whatever the facts. *)
Theorem tenant_wide_conflict_unseen (i j tenant f site : string) (m n : Z) (Hij : i ≠ j) (Hmn : m ≠ n) (fs : facts) :
  let s := foldl mem_publish_step [] [Publication (demand i tenant f m) {["safety_admin"]};
    Publication (demand j tenant f n) {["safety_admin"]}] in
  s.*2 = [mark_published (demand i tenant f m); mark_published (demand j tenant f n)] ∧
  ∀ d, evaluate (mem_tenant_policies s tenant) tenant site fs = Ok d → allowed d = false.
Proof.
  intros s. assert (s.*2 = [mark_published (demand i tenant f m); mark_published (demand j tenant f n)]) as Hs.
  { unfold s. simpl. unfold mem_publish. munfold.
    assert (∀ k z, publish_guard (demand k tenant f z) {["safety_admin"]} = Ok tt) as Hg.
    { intros. unfold publish_guard. rewrite (bool_decide_true ("safety_admin" ∈ _)) by set_solver. done. }
    rewrite !Hg. simpl. unfold mem_tenant_policies. csimpl. rewrite filter_cons_True, filter_nil by done. simpl.
    unfold conflicts_with. simpl. rewrite (bool_decide_true (∅ ∩ ∅ = ∅)) by set_solver. simpl. rewrite !andb_false_r. simpl.
    rewrite decide_False by congruence. done. }
  split; [done|]. intros d Hd.
  assert (mem_tenant_policies s tenant = s.*2) as Hps.
  { unfold mem_tenant_policies. rewrite Hs, !filter_cons_True, filter_nil by done. done. }
  rewrite Hps, Hs in Hd.
  unfold evaluate in Hd. munfold.
  pose proof (decide_loop fs (active [mark_published (demand i tenant f m); mark_published (demand j tenant f n)] tenant site) [] [] []) as Hl.
  destruct (foldM_result _ _ _) as [[[h w] ex]|e]; [|done]. injection Hd as <-. simpl.
  destruct Hl as (Hall & -> & _). apply bool_decide_eq_false. intros Hnil.
  assert (∀ k z, mark_published (demand k tenant f z) ∈ active [mark_published (demand i tenant f m);
      mark_published (demand j tenant f n)] tenant site →
    ∃ a, od_get f fs = Some a ∧ py_eq a (VInt z) = true) as Hok.
  { intros k z Hin. rewrite Forall_forall in Hall. specialize (Hall _ Hin).
    destruct (evaluate_rule (rule (mark_published (demand k tenant f z))) fs) as [[]|e] eqn:Er; [| |done].
    - unfold evaluate_rule in Er. simpl in Er. destruct (od_get f fs) as [a|]; [|done].
      exists a. split; [done|]. by injection Er.
    - exfalso. apply (not_elem_of_nil k). rewrite <- Hnil. simpl. apply list_elem_of_fmap.
      exists (mark_published (demand k tenant f z)). split; [done|]. by apply list_elem_of_filter. }
  destruct (Hok i m) as (a & Ha & Hm); [apply elem_of_active; split; [left|]; by split_and!; [..|left]|].
  destruct (Hok j n) as (b & Hb & Hn); [apply elem_of_active; split; [right; left|]; by split_and!; [..|left]|].
  apply Hmn. apply (py_eq_ints a); congruence.
Qed.

Lemma tenant_wide_conflict_unseen_witness :
  (foldl mem_publish_step [] [Publication (demand "pol-a" "ten_acme" "mode" 1) {["safety_admin"]};
     Publication (demand "pol-b" "ten_acme" "mode" 2) {["safety_admin"]}]).*2
  = [mark_published (demand "pol-a" "ten_acme" "mode" 1); mark_published (demand "pol-b" "ten_acme" "mode" 2)].
Proof.
  exact (proj1 (tenant_wide_conflict_unseen "pol-a" "pol-b" "ten_acme" "mode" "site_sh" 1 2
    ltac:(done) ltac:(done) [])).
Defined.
