(* ===== verification/Scheduling.v ===== *)
(** * Scheduling: [packages/scheduling], [packages/plans/diff.py]

    [contracts.py]: slots, requests, plans and [validate_plan]; [strategies.py]: the greedy
    scheduler behind the FIFO, priority-EDF and price-aware strategies; [diff.py]: the comparison
    of two plans.  The SHA-256 content hash of a request is a parameter.  Datetimes are compared
    by their instants. *)
From S2P Require Import Prelude PyDecimal Domain Workloads.
Local Open Scope Z_scope.

Record TimeSlot := MkTimeSlot {
  index : Z; starts_at : datetime; duration_hours : dec; gpu_capacity : Z; power_capacity_kw : dec;
  price_per_kwh : dec; carbon_kg_per_kwh : dec
}.
Record ScheduleInput := MkScheduleInput {
  jobs : list Job; slots : list TimeSlot; topology_version : Z; forecast_version : string; baseline_name : string
}.
Record Allocation := MkAllocation { alloc_job : string; slot_indices : list Z; alloc_gpus : Z; reason_code : string }.
Record SchedulePlan := MkSchedulePlan {
  strategy : string; allocations : list Allocation; unscheduled : list string; energy_intent_kwh : dec;
  estimated_cost : dec; assumptions : list string; violations : list string; input_hash : string
}.

(** [{job.id: job for job in jobs}[id]]: the last job of that id *)
Definition find_job (js : list Job) (id : string) : option Job :=
  foldl (λ acc j, if bool_decide (job_id j = id) then Some j else acc) None js.

(** [{slot.index: f(slot) for slot in slots}] *)
Definition slot_map (f : TimeSlot → Z) (ss : list TimeSlot) : gmap Z Z :=
  foldl (λ m s, <[index s := f s]> m) ∅ ss.

(** [request.slots[i]] *)
Definition slot_at (r : ScheduleInput) (i : Z) : result TimeSlot := of_option IndexError (py_index (slots r) i).

(** ** contracts.py: validate_plan *)

Definition validate_slot (r : ScheduleInput) (j : Job) (gpus : Z) (used : gmap Z Z) (i : Z) : result (gmap Z Z) :=
  slot ← slot_at r i;
  u ← of_option (KeyError "slot_index") (used !! i);
  let used' := <[i := u + gpus]> used in
  raise_if (gpu_capacity slot <? u + gpus) (ValueError "schedule exceeds GPU capacity");;
  raise_if (us (deadline (sla j)) <=? us (starts_at slot)) (ValueError "schedule violates job deadline");;
  Ok used'.

Definition validate_allocation (r : ScheduleInput) (st : gmap Z Z * gset string) (a : Allocation)
    : result (gmap Z Z * gset string) :=
  let '(used, allocated) := st in
  raise_if (bool_decide (alloc_job a ∈ allocated)) (ValueError "job allocated more than once");;
  j ← of_option (KeyError (alloc_job a)) (find_job (jobs r) (alloc_job a));
  used' ← foldM_result (validate_slot r j (alloc_gpus a)) (slot_indices a) used;
  Ok (used', {[alloc_job a]} ∪ allocated).

Definition validate_plan (r : ScheduleInput) (p : SchedulePlan) : result unit :=
  foldM_result (validate_allocation r) (allocations p) (slot_map (λ _, 0) (slots r), ∅);; Ok tt.

(** ** strategies.py *)

(** [l[:k]] *)
Definition py_take {A} (k : Z) (l : list A) : list A :=
  take (Z.to_nat (if k <? 0 then Z.max 0 (Z.of_nat (length l) + k) else k)) l.

Fixpoint consecutive (l : list Z) : bool :=
  match l with
  | a :: (b :: _) as l' => (b =? a + 1) && consecutive l'
  | _ => true
  end.

Definition by_start : TimeSlot → TimeSlot → comparison := cmp_on (λ s, us (starts_at s)) Z.compare.
Definition by_price : TimeSlot → TimeSlot → comparison :=
  cmp_then (cmp_on price_per_kwh dcompare) by_start.

Definition job_power (j : Job) : dec := dmul (power_kw_per_gpu (request j)) (dint (gpu_count (request j))).

(** [int((estimated_hours / duration).to_integral_value(rounding=ROUND_CEILING))] *)
Definition slots_needed (j : Job) (duration : dec) : result Z :=
  q ← ddiv (estimated_hours (request j)) duration; Ok (dceil q).

Definition is_candidate (available : gmap Z Z) (j : Job) (s : TimeSlot) : bool :=
  (us (starts_at s) <? us (deadline (sla j)))
  && (gpu_count (request j) <=? default 0 (available !! index s))
  && dleb (job_power j) (power_capacity_kw s).

Record sched_state := MkSched {
  available : gmap Z Z; allocs : list Allocation; skipped : list string; cost : dec; energy : dec
}.

(** The loop over the selected slots *)
Definition take_slot (j : Job) (st : sched_state) (s : TimeSlot) : sched_state :=
  let slot_energy := dmul (job_power j) (duration_hours s) in
  MkSched (<[index s := default 0 (available st !! index s) - gpu_count (request j)]> (available st))
    (allocs st) (skipped st) (dadd (cost st) (dmul slot_energy (price_per_kwh s))) (dadd (energy st) slot_energy).

Definition schedule_job (r : ScheduleInput) (strat : string) (price : bool) (st : sched_state) (j : Job) : result sched_state :=
  match slots r with
  | [] => Ok (MkSched (available st) (allocs st) (skipped st ++ [job_id j]) (cost st) (energy st))
  | first :: _ =>
      required ← slots_needed j (duration_hours first);
      let candidates := base.filter (λ s, is_candidate (available st) j s = true) (slots r) in
      let ordered := py_sorted (if price then by_price else by_start) candidates in
      let selected := py_sorted by_start (py_take required ordered) in
      if negb (Z.of_nat (length selected) =? required)
         || (negb (checkpointable j) && negb (consecutive (map index selected)))
      then Ok (MkSched (available st) (allocs st) (skipped st ++ [job_id j]) (cost st) (energy st))
      else
        let st' := foldl (take_slot j) st selected in
        Ok (MkSched (available st')
          (allocs st' ++ [MkAllocation (job_id j) (map index selected) (gpu_count (request j)) (str_upper strat)])
          (skipped st') (cost st') (energy st'))
  end.

Section schedule.
Context (content_hash : ScheduleInput → string).

Definition schedule (r : ScheduleInput) (ordered_jobs : list Job) (strat : string) (price : bool) : result SchedulePlan :=
  st ← foldM_result (schedule_job r strat price) ordered_jobs
         (MkSched (slot_map gpu_capacity (slots r)) [] [] (dint 0) (dint 0));
  let plan := MkSchedulePlan strat (allocs st) (skipped st) (energy st) (cost st)
    ["deterministic input snapshot"] [] (content_hash r) in
  validate_plan r plan;;
  Ok plan.

Definition fifo_order : Job → Job → comparison :=
  cmp_then (cmp_on (λ j, us (submitted_at j)) Z.compare) (cmp_on job_id String.compare).
Definition edf_order : Job → Job → comparison :=
  cmp_then (cmp_on (λ j, - priority (sla j)) Z.compare)
    (cmp_then (cmp_on (λ j, us (deadline (sla j))) Z.compare) (cmp_on job_id String.compare)).

Definition schedule_fifo (r : ScheduleInput) : result SchedulePlan :=
  schedule r (py_sorted fifo_order (jobs r)) "fifo" false.
Definition schedule_priority_edf (r : ScheduleInput) : result SchedulePlan :=
  schedule r (py_sorted edf_order (jobs r)) "priority_edf" false.
Definition schedule_price_aware (r : ScheduleInput) : result SchedulePlan :=
  schedule r (py_sorted edf_order (jobs r)) "price_aware" true.
End schedule.

(** ** plans/diff.py *)

Record PlanDiff := MkPlanDiff {
  added_jobs : gset string; removed_jobs : gset string; changed_jobs : gset string;
  cost_delta : dec; energy_delta_kwh : dec
}.

Definition allocation_map (p : SchedulePlan) : gmap string (list Z) :=
  foldl (λ m a, <[alloc_job a := slot_indices a]> m) ∅ (allocations p).

Definition compare (left right : SchedulePlan) : PlanDiff :=
  let lm := allocation_map left in
  let rm := allocation_map right in
  MkPlanDiff (dom rm ∖ dom lm) (dom lm ∖ dom rm)
    (base.filter (λ k, lm !! k ≠ rm !! k) (dom lm ∩ dom rm))
    (dsub (estimated_cost right) (estimated_cost left))
    (dsub (energy_intent_kwh right) (energy_intent_kwh left)).

(** ** What a valid plan is *)

(** Slots are numbered by their position. *)
Definition well_indexed (r : ScheduleInput) : Prop :=
  ∀ n s, slots r !! n = Some s → index s = Z.of_nat n.

Definition occurrences (i : Z) (l : list Z) : Z := Z.of_nat (length (base.filter (i =.) l)).

(** GPUs the allocations take in slot [i] *)
Fixpoint usage (l : list Allocation) (i : Z) : Z :=
  match l with
  | [] => 0
  | a :: l' => alloc_gpus a * occurrences i (slot_indices a) + usage l' i
  end.

Record allocation_ok (r : ScheduleInput) (a : Allocation) : Prop := {
  ao_job : ∃ j, find_job (jobs r) (alloc_job a) = Some j ∧
    Forall (λ i, ∃ n s, i = Z.of_nat n ∧ slots r !! n = Some s ∧ us (starts_at s) < us (deadline (sla j)))
      (slot_indices a)
}.

(** Every slot an allocation names has the GPUs that all allocations take there. *)
Definition within_capacity (r : ScheduleInput) (l : list Allocation) : Prop :=
  ∀ n s, slots r !! n = Some s → (∃ a, a ∈ l ∧ Z.of_nat n ∈ slot_indices a) →
    usage l (Z.of_nat n) <= gpu_capacity s.

Definition valid_plan (r : ScheduleInput) (l : list Allocation) : Prop :=
  NoDup (map alloc_job l) ∧ Forall (allocation_ok r) l ∧ within_capacity r l.

Lemma occurrences_cons i x l : occurrences i (x :: l) = (if decide (i = x) then 1 else 0) + occurrences i l.
Proof. unfold occurrences. rewrite filter_cons. case_decide; simpl; lia. Qed.

Lemma occurrences_nonneg i l : 0 <= occurrences i l.
Proof. unfold occurrences. lia. Qed.

Lemma occurrences_app i l k : occurrences i (l ++ k) = occurrences i l + occurrences i k.
Proof. unfold occurrences. rewrite filter_app, length_app. lia. Qed.

Lemma occurrences_pos i l : i ∈ l ↔ 1 <= occurrences i l.
Proof.
  induction l as [|x l IH].
  - split; [by intros ?%elem_of_nil|]. unfold occurrences. simpl. lia.
  - rewrite occurrences_cons, elem_of_cons. pose proof (occurrences_nonneg i l).
    case_decide; [subst; split; [lia|by left]|]. rewrite Z.add_0_l, <- IH. naive_solver.
Qed.

Lemma occurrences_NoDup i l : NoDup l → occurrences i l = if decide (i ∈ l) then 1 else 0.
Proof.
  induction 1 as [|x l Hx Hl IH]; [done|]. rewrite occurrences_cons, IH.
  destruct (decide (i = x)) as [->|]; repeat case_decide; set_solver by lia.
Qed.

Lemma usage_app l k i : usage (l ++ k) i = usage l i + usage k i.
Proof. induction l as [|a l IH]; simpl; lia. Qed.

Lemma usage_nonneg l i : Forall (λ a, 0 <= alloc_gpus a) l → 0 <= usage l i.
Proof. induction 1 as [|a l Ha Hl IH]; simpl; [lia|]. pose proof (occurrences_nonneg i (slot_indices a)). nia. Qed.

Lemma usage_unnamed l i : (∀ a, a ∈ l → i ∉ slot_indices a) → usage l i = 0.
Proof.
  induction l as [|a l IH]; simpl; intros Hl; [done|].
  rewrite IH by set_solver. assert (occurrences i (slot_indices a) = 0) as ->; [|lia].
  pose proof (occurrences_nonneg i (slot_indices a)).
  assert (¬ 1 <= occurrences i (slot_indices a)); [|lia]. rewrite <- occurrences_pos. apply Hl. left.
Qed.

Lemma slot_map_lookup f r n s : well_indexed r → slots r !! n = Some s →
  slot_map f (slots r) !! Z.of_nat n = Some (f s).
Proof.
  unfold well_indexed, slot_map. destruct r as [? ss]. simpl.
  induction ss as [|x ss IH] using rev_ind; [done|]. intros Hwi Hn. rewrite foldl_snoc.
  assert (index x = Z.of_nat (length ss)) as Hx by (apply Hwi; rewrite lookup_app_r by done; by rewrite Nat.sub_diag).
  destruct (decide (n = length ss)) as [->|Hne].
  - rewrite lookup_app_r, Nat.sub_diag in Hn by done. injection Hn as <-. rewrite Hx. apply lookup_insert_eq.
  - assert (n < length ss)%nat by (apply lookup_lt_Some in Hn; rewrite length_app in Hn; simpl in Hn; lia).
    rewrite lookup_app_l in Hn by done. rewrite lookup_insert_ne by lia. apply IH; [|done].
    intros m y Hm. apply Hwi. by apply lookup_app_l_Some.
Qed.

Lemma slot_map_inv f r i v : well_indexed r → slot_map f (slots r) !! i = Some v →
  ∃ n s, i = Z.of_nat n ∧ slots r !! n = Some s ∧ v = f s.
Proof.
  intros Hwi. assert (∀ ss m, slot_map f ss !! i = Some m → ∃ n s, ss !! n = Some s ∧ i = index s) as H.
  { intros ss. unfold slot_map. induction ss as [|x ss IH] using rev_ind; [done|]. intros m.
    rewrite foldl_snoc, lookup_insert_Some. intros [[<- _]|[_ Hm]].
    - exists (length ss), x. split; [|done]. rewrite lookup_app_r by done. by rewrite Nat.sub_diag.
    - destruct (IH _ Hm) as (n & s & Hn & ->). exists n, s. split; [|done]. by apply lookup_app_l_Some. }
  intros Hv. destruct (H _ _ Hv) as (n & s & Hn & ->). rewrite (Hwi _ _ Hn) in *.
  exists n, s. split_and!; try done. rewrite (slot_map_lookup f r n s Hwi Hn) in Hv. congruence.
Qed.

Lemma slot_at_nat r n : slot_at r (Z.of_nat n) = of_option IndexError (slots r !! n).
Proof. unfold slot_at, py_index. rewrite (proj2 (Z.leb_le _ _)) by lia. by rewrite Nat2Z.id. Qed.

(** ** [validate_plan] decides validity *)

(** The counters after the allocations [l]: one for each slot *)
Definition counts (r : ScheduleInput) (f : Z → Z) (used : gmap Z Z) : Prop :=
  (∀ n s, slots r !! n = Some s → used !! Z.of_nat n = Some (f (Z.of_nat n))) ∧
  (∀ i v, used !! i = Some v → ∃ n s, i = Z.of_nat n ∧ slots r !! n = Some s).

Lemma counts_ext r f g used : (∀ i, f i = g i) → counts r f used → counts r g used.
Proof. intros Hfg [H1 H2]. split; [|done]. intros n s Hn. rewrite (H1 n s Hn). by rewrite Hfg. Qed.

Lemma counts_insert r f used n s u : counts r f used → slots r !! n = Some s →
  counts r (λ i, if decide (i = Z.of_nat n) then u else f i) (<[Z.of_nat n := u]> used).
Proof.
  intros [H1 H2] Hs. split.
  - intros m x Hm. destruct (decide (Z.of_nat m = Z.of_nat n)) as [E|E].
    + rewrite E. by rewrite lookup_insert_eq.
    + rewrite lookup_insert_ne by done. eauto.
  - intros i v. rewrite lookup_insert_Some. intros [[<- _]|[_ Hv]]; eauto.
Qed.

(** Slot [i] can take the job, counting what it already has and all of [l]. *)
Definition slot_fits (r : ScheduleInput) (j : Job) (gpus : Z) (f : Z → Z) (l : list Z) (i : Z) : Prop :=
  ∃ n s, i = Z.of_nat n ∧ slots r !! n = Some s ∧ us (starts_at s) < us (deadline (sla j)) ∧
    f i + gpus * occurrences i l <= gpu_capacity s.

Lemma validate_slots_spec r j gpus l : 0 <= gpus → ∀ f used, counts r f used →
  match foldM_result (validate_slot r j gpus) l used with
  | Ok used' => counts r (λ i, f i + gpus * occurrences i l) used' ∧ Forall (slot_fits r j gpus f l) l
  | Err _ => ¬ Forall (slot_fits r j gpus f l) l
  end.
Proof.
  intros Hg. induction l as [|i l IH]; intros f used Hc; simpl.
  - split; [|constructor]. eapply counts_ext; [|exact Hc]. intros i. unfold occurrences. simpl. lia.
  - assert (∀ n s, i = Z.of_nat n → slots r !! n = Some s →
      validate_slot r j gpus used i =
        if (gpu_capacity s <? f i + gpus) then Err (ValueError "schedule exceeds GPU capacity")
        else if us (deadline (sla j)) <=? us (starts_at s) then Err (ValueError "schedule violates job deadline")
        else Ok (<[i := f i + gpus]> used)) as Hstep.
    { intros n s -> Hs. unfold validate_slot. munfold. rewrite slot_at_nat, Hs. simpl. rewrite (proj1 Hc n s Hs). simpl.
      destruct (_ <? _); [done|]. by destruct (_ <=? _). }
    assert (∀ n s, i = Z.of_nat n → slots r !! n = Some s → slot_fits r j gpus f (i :: l) i →
      f i + gpus <= gpu_capacity s ∧ us (starts_at s) < us (deadline (sla j))) as Hneed.
    { intros n s -> Hs (m & x & Hm & Hx & Hd & Hcap). apply Nat2Z.inj in Hm as ->. simplify_eq.
      rewrite occurrences_cons, decide_True in Hcap by done. pose proof (occurrences_nonneg (Z.of_nat m) l). split; [nia|done]. }
    set (f' := λ x, if decide (x = i) then f i + gpus else f x).
    assert (∀ x, slot_fits r j gpus f (i :: l) x ↔ slot_fits r j gpus f' l x) as Hiff.
    { intros x. unfold slot_fits, f'. rewrite occurrences_cons. destruct (decide (x = i)) as [->|]; [|by rewrite Z.add_0_l].
      split; intros (n & s & ? & ? & ? & ?); exists n, s; (split_and!; [done..|lia]). }
    destruct (validate_slot r j gpus used i) as [used'|e] eqn:Ev.
    + assert (∃ n s, i = Z.of_nat n ∧ slots r !! n = Some s) as (n & s & Hi & Hs).
      { unfold validate_slot in Ev. munfold. destruct (slot_at r i); [|done].
        destruct (used !! i) as [u|] eqn:Eu; [|done]. by destruct (proj2 Hc _ _ Eu) as (n & s & ? & ?); eauto. }
      generalize (Hstep n s Hi Hs). if_case as E1; [done|]. if_case as E2; [done|]. intros [= ->].
      bprop. specialize (IH f' (<[i := f i + gpus]> used)).
      assert (counts r f' (<[i := f i + gpus]> used)) as Hc' by (subst i; unfold f'; by eapply counts_insert).
      specialize (IH Hc'). destruct (foldM_result _ _ _) as [used2|e2].
      * destruct IH as [IH1 IH2]. split.
        { eapply counts_ext; [|exact IH1]. intros x. unfold f'. rewrite occurrences_cons. simpl. case_decide; subst; lia. }
        constructor; [|eapply Forall_impl; [exact IH2|]; intros x; by apply Hiff].
        destruct (decide (i ∈ l)) as [Hin|Hin].
        { apply Hiff. rewrite Forall_forall in IH2. by apply IH2. }
        exists n, s. split_and!; try done. rewrite occurrences_cons, decide_True by done.
        assert (occurrences i l = 0) as ->; [|lia]. pose proof (occurrences_nonneg i l).
        assert (¬ 1 <= occurrences i l); [|lia]. by rewrite <- occurrences_pos.
      * intros [_ Hf]%Forall_cons. apply IH. eapply Forall_impl; [exact Hf|]. intros x. by apply Hiff.
    + intros [Hf _]%Forall_cons. pose proof Hf as (n & s & Hi & Hs & _). destruct (Hneed n s Hi Hs Hf) as [? ?].
      generalize (Hstep n s Hi Hs). if_case as E1; [bprop; lia|]. if_case as E2; [bprop; lia|]. done.
Qed.

Definition allocated_set (l : list Allocation) : gset string := list_to_set (map alloc_job l).

Lemma within_capacity_snoc r l a : Forall (λ x, 0 <= alloc_gpus x) (l ++ [a]) →
  within_capacity r (l ++ [a]) ↔
  within_capacity r l ∧
  (∀ n s, slots r !! n = Some s → Z.of_nat n ∈ slot_indices a →
     usage l (Z.of_nat n) + alloc_gpus a * occurrences (Z.of_nat n) (slot_indices a) <= gpu_capacity s).
Proof.
  intros [Hl [Ha _]%Forall_cons]%Forall_app.
  assert (∀ i, usage (l ++ [a]) i = usage l i + alloc_gpus a * occurrences i (slot_indices a)) as Hu
    by (intros; rewrite usage_app; cbn [usage]; lia).
  split.
  - intros Hw. split.
    + intros n s Hn (x & Hx & Hin). pose proof (Hw n s Hn ltac:(exists x; set_solver)) as Hb. rewrite Hu in Hb.
      pose proof (occurrences_nonneg (Z.of_nat n) (slot_indices a)). nia.
    + intros n s Hn Hin. pose proof (Hw n s Hn ltac:(exists a; set_solver)) as Hb. by rewrite Hu in Hb.
  - intros [Hw Hnew] n s Hn (x & Hx & Hin). rewrite Hu.
    destruct (decide (Z.of_nat n ∈ slot_indices a)) as [Hna|Hna]; [by apply Hnew|].
    apply elem_of_app in Hx as [Hx|Hx%list_elem_of_singleton]; [|by subst].
    assert (occurrences (Z.of_nat n) (slot_indices a) = 0) as ->.
    { pose proof (occurrences_nonneg (Z.of_nat n) (slot_indices a)).
      assert (¬ 1 <= occurrences (Z.of_nat n) (slot_indices a)); [by rewrite <- occurrences_pos|lia]. }
    pose proof (Hw n s Hn ltac:(by exists x)). lia.
Qed.

(** One more allocation *)
Lemma validate_allocation_spec r l used a : 0 <= alloc_gpus a → counts r (usage l) used →
  match validate_allocation r (used, allocated_set l) a with
  | Ok (used', al') => counts r (usage (l ++ [a])) used' ∧ al' = allocated_set (l ++ [a]) ∧
      (alloc_job a ∉ map alloc_job l) ∧ allocation_ok r a ∧
      ∀ n s, slots r !! n = Some s → Z.of_nat n ∈ slot_indices a →
        usage l (Z.of_nat n) + alloc_gpus a * occurrences (Z.of_nat n) (slot_indices a) <= gpu_capacity s
  | Err _ => ¬ ((alloc_job a ∉ map alloc_job l) ∧ allocation_ok r a ∧
      ∀ n s, slots r !! n = Some s → Z.of_nat n ∈ slot_indices a →
        usage l (Z.of_nat n) + alloc_gpus a * occurrences (Z.of_nat n) (slot_indices a) <= gpu_capacity s)
  end.
Proof.
  intros Hg Hc. unfold validate_allocation. munfold.
  destruct (decide (alloc_job a ∈ allocated_set l)) as [Hd|Hd].
  { rewrite bool_decide_true by done. intros (H & _). apply H. unfold allocated_set in Hd. by apply elem_of_list_to_set in Hd. }
  rewrite bool_decide_false by done.
  assert (alloc_job a ∉ map alloc_job l) as Hd' by (intros H; apply Hd; by apply elem_of_list_to_set).
  destruct (find_job (jobs r) (alloc_job a)) as [j|] eqn:Ej; [|intros (_ & [(j & Hj & _)] & _); congruence].
  pose proof (validate_slots_spec r j (alloc_gpus a) (slot_indices a) Hg (usage l) used Hc) as Hs.
  destruct (foldM_result _ _ _) as [used'|e].
  - destruct Hs as [Hc' Hf]. rewrite Forall_forall in Hf. split_and!; try done.
    + eapply counts_ext; [|exact Hc']. intros i. rewrite usage_app. cbn [usage]. lia.
    + unfold allocated_set. rewrite map_app. simpl. set_solver.
    + split. exists j. split; [done|]. apply Forall_forall. intros i Hi.
      destruct (Hf i Hi) as (n & s & ? & ? & ? & _). eauto 10.
    + intros n s Hn Hi. destruct (Hf _ Hi) as (m & x & Hm & Hx & _ & Hcap). apply Nat2Z.inj in Hm as ->. by simplify_eq.
  - intros (_ & [(j' & Hj' & Hf)] & Hcap). apply Hs. assert (j' = j) as -> by congruence.
    rewrite Forall_forall in *. intros i Hi. destruct (Hf i Hi) as (n & s & -> & Hn & Ht). exists n, s.
    split_and!; try done. by apply Hcap.
Qed.

Lemma validate_loop r l : well_indexed r → Forall (λ a, 0 <= alloc_gpus a) l →
  match foldM_result (validate_allocation r) l (slot_map (λ _, 0) (slots r), ∅) with
  | Ok (used, al) => counts r (usage l) used ∧ al = allocated_set l ∧ valid_plan r l
  | Err _ => ¬ valid_plan r l
  end.
Proof.
  intros Hwi. induction l as [|a l IH] using rev_ind; intros Hg.
  - split_and!; [|done|].
    + split; [intros n s Hn; by rewrite (slot_map_lookup (λ _, 0) r n s Hwi Hn)|].
      intros i v Hv. destruct (slot_map_inv _ _ _ _ Hwi Hv) as (n & s & ? & ? & _). eauto.
    + split_and!; [constructor|constructor|]. intros n s _ (x & Hx & _). by apply elem_of_nil in Hx.
  - rewrite foldM_result_app. pose proof Hg as [Hgl [Hga _]%Forall_cons]%Forall_app. specialize (IH Hgl).
    assert (valid_plan r (l ++ [a]) ↔ valid_plan r l ∧ (alloc_job a ∉ map alloc_job l) ∧ allocation_ok r a ∧
      ∀ n s, slots r !! n = Some s → Z.of_nat n ∈ slot_indices a →
        usage l (Z.of_nat n) + alloc_gpus a * occurrences (Z.of_nat n) (slot_indices a) <= gpu_capacity s) as Hiff.
    { unfold valid_plan. rewrite map_app, NoDup_app, Forall_app, Forall_singleton, within_capacity_snoc by done. simpl.
      pose proof (NoDup_singleton (alloc_job a)). set_solver. }
    destruct (foldM_result _ l _) as [[used al]|e]; [|by rewrite Hiff; intros [? _]].
    destruct IH as (Hc & -> & Hv). pose proof (validate_allocation_spec r l used a Hga Hc) as Hs. cbn [foldM_result].
    destruct (validate_allocation r (used, allocated_set l) a) as [[used' al']|e]; rewrite Hiff; tauto.
Qed.

(** ** The greedy scheduler *)

Lemma find_job_elem js j : NoDup (map job_id js) → j ∈ js → find_job js (job_id j) = Some j.
Proof.
  unfold find_job. induction js as [|x js IH] using rev_ind; [by intros _ ?%elem_of_nil|].
  rewrite map_app, foldl_snoc. intros (Hnd & Hdis & _)%NoDup_app. rewrite elem_of_app, list_elem_of_singleton.
  intros [Hj| ->]; [|by rewrite bool_decide_true].
  rewrite bool_decide_false; [by apply IH|]. intros Heq. apply (Hdis (job_id j)); [by apply list_elem_of_fmap_2|].
  rewrite <- Heq. simpl. left.
Qed.

Lemma well_indexed_NoDup r : well_indexed r → NoDup (map index (slots r)).
Proof.
  intros Hwi. apply NoDup_alt. intros i j x. rewrite !list_lookup_fmap_Some.
  intros (s & -> & Hs) (s' & Heq & Hs'). apply Hwi in Hs, Hs'. lia.
Qed.

#[global] Instance by_start_order : CmpOrder by_start.
Proof. unfold by_start. apply _. Qed.
#[global] Instance by_price_order : CmpOrder by_price.
Proof. unfold by_price. apply _. Qed.

(** The slots a job is given: some of the candidates, each once *)
Lemma selected_spec r j avail price required :
  let candidates := base.filter (λ s, is_candidate avail j s = true) (slots r) in
  let selected := py_sorted by_start (py_take required (py_sorted (if (price : bool) then by_price else by_start) candidates)) in
  well_indexed r →
  NoDup (map index selected) ∧ Forall (λ s, s ∈ slots r ∧ is_candidate avail j s = true) selected.
Proof.
  intros candidates selected Hwi.
  set (ordered := py_sorted (if price then by_price else by_start) candidates).
  assert (ordered ≡ₚ candidates) as Hp by apply py_sorted_perm.
  assert (selected ≡ₚ py_take required ordered) as Hs by apply py_sorted_perm.
  split.
  - assert (NoDup (map index ordered)) as Hnd.
    { rewrite Hp. eapply sublist_NoDup; [by apply well_indexed_NoDup|].
      apply sublist_map, sublist_of_filter. }
    rewrite Hs. eapply sublist_NoDup; [exact Hnd|]. apply sublist_map, sublist_take.
  - apply Forall_forall. intros s. rewrite Hs. intros Hin.
    assert (s ∈ ordered) as Ho by (eapply elem_of_sublist; [exact Hin|apply sublist_take]).
    rewrite Hp in Ho. apply list_elem_of_filter in Ho. tauto.
Qed.

Lemma take_slots_available j l : ∀ st i v, available st !! i = Some v →
  available (foldl (take_slot j) st l) !! i = Some (v - gpu_count (request j) * occurrences i (map index l)).
Proof.
  induction l as [|s l IH]; intros st i v Hv; simpl.
  - rewrite Hv. f_equal. unfold occurrences. simpl. lia.
  - rewrite occurrences_cons. case_decide as Hd.
    + subst i. erewrite IH; [|simpl; apply lookup_insert_eq]. rewrite Hv. simpl. f_equal. lia.
    + erewrite IH; [|simpl; by rewrite lookup_insert_ne by congruence]. done.
Qed.

Lemma take_slots_frame j l : ∀ st, allocs (foldl (take_slot j) st l) = allocs st ∧
  skipped (foldl (take_slot j) st l) = skipped st.
Proof. induction l as [|s l IH]; intros st; simpl; [done|]. by destruct (IH (take_slot j st s)) as [-> ->]. Qed.

(** What an allocation gives its job *)
Record serves (r : ScheduleInput) (j : Job) (a : Allocation) : Prop := {
  sv_job : alloc_job a = job_id j;
  sv_gpus : alloc_gpus a = gpu_count (request j);
  sv_distinct : NoDup (slot_indices a);
  sv_length : ∃ first rest, slots r = first :: rest ∧
    slots_needed j (duration_hours first) = Ok (Z.of_nat (length (slot_indices a)));
  sv_slots : Forall (λ i, ∃ n s, i = Z.of_nat n ∧ slots r !! n = Some s ∧
    us (starts_at s) < us (deadline (sla j)) ∧ dleb (job_power j) (power_capacity_kw s) = true) (slot_indices a);
  sv_run : checkpointable j = true ∨ consecutive (slot_indices a) = true
}.

Record sched_inv (r : ScheduleInput) (done_ : list Job) (st : sched_state) : Prop := {
  si_available : ∀ n s, slots r !! n = Some s →
    available st !! Z.of_nat n = Some (gpu_capacity s - usage (allocs st) (Z.of_nat n)) ∧
    usage (allocs st) (Z.of_nat n) <= gpu_capacity s;
  si_jobs : (map alloc_job (allocs st) ++ skipped st) ≡ₚ map job_id done_;
  si_serves : Forall (λ a, ∃ j, j ∈ done_ ∧ serves r j a) (allocs st)
}.

Lemma serves_mono r (done_ : list Job) (j0 : Job) l :
  Forall (λ a, ∃ j, j ∈ done_ ∧ serves r j a) l → Forall (λ a, ∃ j, j ∈ done_ ++ [j0] ∧ serves r j a) l.
Proof. intros H. eapply Forall_impl; [exact H|]. intros a (j & Hj & ?). exists j. split; [set_solver|done]. Qed.

Lemma sched_inv_skip r done_ st j : sched_inv r done_ st →
  sched_inv r (done_ ++ [j]) (MkSched (available st) (allocs st) (skipped st ++ [job_id j]) (cost st) (energy st)).
Proof.
  intros [Ha Hj Hs]. split; simpl; [done| |by apply serves_mono].
  rewrite map_app, app_assoc, Hj. done.
Qed.

Lemma sched_inv_take r done_ st j a sel required first rest :
  well_indexed r → 0 <= gpu_count (request j) → slots r = first :: rest →
  slots_needed j (duration_hours first) = Ok required → Z.of_nat (length sel) = required →
  NoDup (map index sel) → Forall (λ s, s ∈ slots r ∧ is_candidate (available st) j s = true) sel →
  checkpointable j = true ∨ consecutive (map index sel) = true →
  a = MkAllocation (job_id j) (map index sel) (gpu_count (request j)) (reason_code a) →
  sched_inv r done_ st →
  let st' := foldl (take_slot j) st sel in
  sched_inv r (done_ ++ [j]) (MkSched (available st') (allocs st' ++ [a]) (skipped st') (cost st') (energy st')).
Proof.
  intros Hwi Hg Hfirst Hneed Hlen Hnd Hcand Hrun Ea [Hav Hj Hs] st'.
  destruct (take_slots_frame j sel st) as [Eal Esk]. fold st' in Eal, Esk. rewrite Eal, Esk.
  assert (alloc_job a = job_id j ∧ alloc_gpus a = gpu_count (request j) ∧ slot_indices a = map index sel) as (Ej & Eg & Ei)
    by (rewrite Ea; done). clear Ea.
  rewrite Forall_forall in Hcand. split; simpl.
  - intros n s Hn. destruct (Hav n s Hn) as [Hv Hle]. unfold st'. rewrite (take_slots_available j sel st _ _ Hv).
    rewrite usage_app. cbn [usage]. rewrite Eg, Ei. split; [f_equal; lia|].
    rewrite (occurrences_NoDup _ _ Hnd). case_decide as Hin; [|lia].
    apply list_elem_of_fmap in Hin as (s' & Hs' & Hsel). destruct (Hcand s' Hsel) as [Hin Hc].
    apply list_elem_of_lookup in Hin as [m Hm]. rewrite (Hwi _ _ Hm) in Hs'. apply Nat2Z.inj in Hs' as ->.
    assert (s' = s) as -> by congruence.
    unfold is_candidate in Hc. rewrite (Hwi _ _ Hm), Hv in Hc. simpl in Hc. bprop. lia.
  - rewrite !map_app. simpl. rewrite Ej, <- Hj. rewrite <- !app_assoc. apply Permutation_app_head.
    rewrite Permutation_app_comm. done.
  - apply Forall_app. split; [by apply serves_mono|]. apply Forall_singleton. exists j. split; [set_solver|].
    split; rewrite ?Ei; try done.
    + exists first, rest. split; [done|]. rewrite length_map, Hlen. done.
    + apply Forall_forall. intros i (s & -> & Hsel)%list_elem_of_fmap. destruct (Hcand s Hsel) as [Hin Hc].
      apply list_elem_of_lookup in Hin as [m Hm]. exists m, s. unfold is_candidate in Hc. bprop.
      split_and!; try done. by apply Hwi.
Qed.

Lemma schedule_job_inv r strat price done_ st j :
  well_indexed r → 0 <= gpu_count (request j) →
  (∀ first rest, slots r = first :: rest → coef (duration_hours first) ≠ 0) →
  sched_inv r done_ st → ∃ st', schedule_job r strat price st j = Ok st' ∧ sched_inv r (done_ ++ [j]) st'.
Proof.
  intros Hwi Hg Hdur Hi. unfold schedule_job. destruct (slots r) as [|first rest] eqn:Es.
  - eexists. split; [done|]. by apply sched_inv_skip.
  - unfold slots_needed. munfold.
    destruct (ddiv_ok 28 (estimated_hours (request j)) (duration_hours first) (Hdur _ _ eq_refl)) as [q Hq].
    unfold ddiv. rewrite Hq. simpl. rewrite <- Es.
    set (sel := py_sorted by_start _).
    destruct (selected_spec r j (available st) price (dceil q) Hwi) as [Hnd Hcand]. fold sel in Hnd, Hcand.
    destruct (_ || _) eqn:Ec; eexists; (split; [done|]); [by apply sched_inv_skip|].
    bprop. eapply (sched_inv_take r done_ st j _ sel (dceil q) first rest); try done.
    + unfold slots_needed. munfold. unfold ddiv. by rewrite Hq.
    + destruct H0; bprop; auto.
Qed.

(** A request the schedulers accept: slots numbered by position with non-negative capacities and a
    non-zero duration, jobs with distinct ids and non-negative GPU counts. *)
Record well_formed (r : ScheduleInput) : Prop := {
  wf_index : well_indexed r;
  wf_capacity : Forall (λ s, 0 <= gpu_capacity s) (slots r);
  wf_duration : Forall (λ s, coef (duration_hours s) ≠ 0) (slots r);
  wf_jobs : NoDup (map job_id (jobs r));
  wf_gpus : Forall (λ j, 0 <= gpu_count (request j)) (jobs r)
}.

Lemma sched_inv_valid r done_ st : well_formed r → done_ ≡ₚ jobs r → sched_inv r done_ st → valid_plan r (allocs st).
Proof.
  intros [Hwi Hcap Hdur Hnd Hg] Hperm [Hav Hj Hs]. split_and!.
  - assert (NoDup (map alloc_job (allocs st) ++ skipped st)) as H by (rewrite Hj, Hperm; done).
    by apply NoDup_app in H as [? _].
  - eapply Forall_impl; [exact Hs|]. intros a (j & Hin & []). split. exists j. rewrite Hperm in Hin. split.
    + rewrite sv_job0. by apply find_job_elem.
    + eapply Forall_impl; [exact sv_slots0|]. naive_solver.
  - intros n s Hn _. by apply (Hav n s Hn).
Qed.

Lemma sched_inv_gpus r done_ st : well_formed r → done_ ≡ₚ jobs r → sched_inv r done_ st →
  Forall (λ a, 0 <= alloc_gpus a) (allocs st).
Proof.
  intros Hwf Hperm [Hav Hj Hs]. eapply Forall_impl; [exact Hs|]. intros a (j & Hin & []).
  rewrite sv_gpus0. rewrite Hperm in Hin. pose proof (wf_gpus _ Hwf) as Hg. rewrite Forall_forall in Hg. by apply Hg.
Qed.

Lemma schedule_loop r strat price js : well_formed r → Forall (λ j, 0 <= gpu_count (request j)) js →
  ∀ done_ st, sched_inv r done_ st →
  ∃ st', foldM_result (schedule_job r strat price) js st = Ok st' ∧ sched_inv r (done_ ++ js) st'.
Proof.
  intros [Hwi Hcap Hdur Hnd _] Hg. induction Hg as [|j js Hj Hg IH]; intros done_ st Hi.
  - exists st. by rewrite app_nil_r.
  - destruct (schedule_job_inv r strat price done_ st j Hwi Hj) as (st' & Hst & Hi'); [|done|].
    { intros first rest Hs. rewrite Hs in Hdur. by apply Forall_cons in Hdur as [? _]. }
    destruct (IH (done_ ++ [j]) st' Hi') as (st'' & Hst' & Hi''). exists st''. simpl. rewrite Hst.
    split; [done|]. by rewrite <- app_assoc in Hi''.
Qed.

(** The plan of a strategy: jobs served or left out, each exactly once, and every promise kept. *)
Record good_schedule (r : ScheduleInput) (p : SchedulePlan) : Prop := {
  gs_jobs : (map alloc_job (allocations p) ++ unscheduled p) ≡ₚ map job_id (jobs r);
  gs_valid : validate_plan r p = Ok tt;
  gs_capacity : ∀ n s, slots r !! n = Some s → usage (allocations p) (Z.of_nat n) <= gpu_capacity s;
  gs_serves : Forall (λ a, ∃ j, j ∈ jobs r ∧ serves r j a) (allocations p)
}.

Lemma schedule_good hash r js strat price : well_formed r → js ≡ₚ jobs r →
  ∃ p, schedule hash r js strat price = Ok p ∧ good_schedule r p.
Proof.
  intros Hwf Hperm. pose proof Hwf as [Hwi Hcap Hdur Hnd Hg].
  assert (sched_inv r [] (MkSched (slot_map gpu_capacity (slots r)) [] [] (dint 0) (dint 0))) as H0.
  { split; simpl; [|done|constructor]. intros n s Hn. rewrite (slot_map_lookup gpu_capacity r n s Hwi Hn).
    split; [f_equal; lia|]. rewrite Forall_forall in Hcap. apply Hcap. by eapply list_elem_of_lookup_2. }
  destruct (schedule_loop r strat price js Hwf) with (done_ := @nil Job) (st := MkSched (slot_map gpu_capacity (slots r)) [] [] (dint 0) (dint 0))
    as (st & Hst & Hi); [by rewrite Hperm|done|]. simpl in Hi.
  unfold schedule. munfold. rewrite Hst.
  assert (validate_plan r (MkSchedulePlan strat (allocs st) (skipped st) (energy st) (cost st)
    ["deterministic input snapshot"] [] (hash r)) = Ok tt) as Hv.
  { unfold validate_plan. munfold. pose proof (validate_loop r (allocs st) Hwi (sched_inv_gpus r js st Hwf Hperm Hi)) as Hl.
    destruct (foldM_result (validate_allocation r) _ _) as [[used al]|e]; [done|]. exfalso. apply Hl. by eapply sched_inv_valid. }
  rewrite Hv. eexists. split; [done|]. destruct Hi as [Hav Hj Hs]. split; simpl.
  - by rewrite Hj, Hperm.
  - exact Hv.
  - intros n s Hn. by apply (Hav n s Hn).
  - eapply Forall_impl; [exact Hs|]. intros a (j & Hin & ?). exists j. by rewrite <- Hperm.
Qed.

(** ** Properties *)

(** [validate_plan] is a decision procedure for plan validity: on slots numbered by position and
    non-negative GPU counts it returns exactly when no job is allocated twice, every allocation names a
    known job and existing slots that start before the job's deadline, and in every slot an allocation
    names the GPUs of all allocations together fit its capacity. *)
Theorem validate_plan_iff (r : ScheduleInput) (p : SchedulePlan) (Hwi : well_indexed r)
    (Hgpus : Forall (λ a, 0 <= alloc_gpus a) (allocations p)) :
  is_ok (validate_plan r p) = true ↔ valid_plan r (allocations p).
Proof.
  unfold validate_plan. munfold. pose proof (validate_loop r (allocations p) Hwi Hgpus) as Hl.
  destruct (foldM_result _ _ _) as [[used al]|e]; simpl; [|done]. tauto.
Qed.

Definition sample_slot (i : Z) (price : Z) : TimeSlot :=
  MkTimeSlot i (DT (i * 3600000000) true) (dint 1) 4 (dint 100) (Dec price (-2)) (dint 0).
Definition sample_jobs : list Job :=
  [MkJob "job-a" "ten_acme" "prj" TRAINING (MkResourceRequest 3 None 4 (dint 64) (Dec 15 (-1)) (dint 1))
     (MkSla (DT 10800000000 true) 50 None None) (DT 0 true) ∅ ∅ [] true [];
   MkJob "job-b" "ten_acme" "prj" TRAINING (MkResourceRequest 2 None 4 (dint 64) (dint 1) (dint 1))
     (MkSla (DT 10800000000 true) 80 None None) (DT 5 true) ∅ ∅ [] false []].
Definition sample_input : ScheduleInput :=
  MkScheduleInput sample_jobs [sample_slot 0 50; sample_slot 1 20; sample_slot 2 30] 1 "f1" "none".

Lemma sample_well_formed : well_formed sample_input.
Proof.
  split.
  - intros n s Hs. destruct n as [|[|[|n]]]; simpl in Hs; try (injection Hs as <-; reflexivity). done.
  - by repeat constructor.
  - by repeat constructor.
  - repeat constructor; set_solver.
  - by repeat constructor.
Qed.

Lemma validate_plan_iff_witness :
  valid_plan sample_input [MkAllocation "job-a" [1; 2] 3 "X"; MkAllocation "job-b" [0] 2 "X"] ∧
  ¬ valid_plan sample_input [MkAllocation "job-a" [1; 2] 3 "X"; MkAllocation "job-b" [1] 2 "X"].
Proof.
  assert (∀ k, Forall (λ a, 0 <= alloc_gpus a) [MkAllocation "job-a" [1; 2] 3 "X"; MkAllocation "job-b" [k] 2 "X"]) as Hg
    by (intros; by repeat constructor).
  split.
  - refine (proj1 (validate_plan_iff sample_input (MkSchedulePlan "s"
      [MkAllocation "job-a" [1; 2] 3 "X"; MkAllocation "job-b" [0] 2 "X"] [] (dint 0) (dint 0) [] [] "")
      (wf_index _ sample_well_formed) (Hg 0)) _). by vm_compute.
  - intros Hv. pose proof (proj2 (validate_plan_iff sample_input (MkSchedulePlan "s"
      [MkAllocation "job-a" [1; 2] 3 "X"; MkAllocation "job-b" [1] 2 "X"] [] (dint 0) (dint 0) [] [] "")
      (wf_index _ sample_well_formed) (Hg 1)) Hv) as H. vm_compute in H. done.
Defined.

(** Every strategy produces a good schedule.  On a well-formed request FIFO, priority-EDF and
    price-aware scheduling all return a plan that passes [validate_plan], in which every job is either
    allocated or listed as unscheduled, exactly once; slot capacities hold; and each allocation gives its
    job its GPUs in exactly the number of distinct slots its runtime needs, each starting before its
    deadline with power for the job, and in one run of consecutive slots unless it can checkpoint. *)
Theorem strategies_correct (hash : ScheduleInput → string) (r : ScheduleInput) (Hwf : well_formed r) :
  (∃ p, schedule_fifo hash r = Ok p ∧ good_schedule r p) ∧
  (∃ p, schedule_priority_edf hash r = Ok p ∧ good_schedule r p) ∧
  (∃ p, schedule_price_aware hash r = Ok p ∧ good_schedule r p).
Proof. split_and!; apply schedule_good; done || apply py_sorted_perm. Qed.

Lemma strategies_correct_witness :
  ∃ p, schedule_price_aware (λ _, "h") sample_input = Ok p ∧ good_schedule sample_input p.
Proof. exact (proj2 (proj2 (strategies_correct (λ _, "h") sample_input sample_well_formed))). Defined.

Example price_aware_sample : (λ p, map slot_indices (allocations p)) <$> schedule_price_aware (λ _, "h") sample_input
  = Ok [[1]; [0; 2]].
Proof. by vm_compute. Qed.
