(* ===== verification/PlanDocument.v ===== *)
(** * Plans as documents: [packages/scheduling/serialization.py]

    [asdict] of a schedule plan and [parse_schedule_plan], which reads one back from a JSON document;
    the same reading as [MpcController.from_state] does, where no field is optional.  A number in a
    document that is not finite is not modelled.  [parse_job] and [parse_schedule_input] are in Requests. *)
From S2P Require Import Prelude PyDecimal PyValue PyText Scheduling.
Local Open Scope Z_scope.

(** [asdict(plan)] *)
Definition strings_value (l : list string) : pyval := VList (map VStr l).
Definition allocation_document (a : Allocation) : pyval :=
  VDict [("job_id", VStr (alloc_job a)); ("slot_indices", VList (map VInt (slot_indices a)));
         ("gpu_count", VInt (alloc_gpus a)); ("reason_code", VStr (reason_code a))].
Definition plan_document (p : SchedulePlan) : list (string * pyval) :=
  [("strategy", VStr (strategy p)); ("allocations", VList (map allocation_document (allocations p)));
   ("unscheduled", strings_value (unscheduled p)); ("energy_intent_kwh", VDec (energy_intent_kwh p));
   ("estimated_cost", VDec (estimated_cost p)); ("assumptions", strings_value (assumptions p));
   ("violations", strings_value (violations p)); ("input_hash", VStr (input_hash p))].

Section parse.
Context (str_container : pyval → string).
#[local] Abbreviation py_str := (PyText.py_str str_container).
#[local] Abbreviation py_decimal := (PyText.py_decimal str_container).

(** [tuple(int(x) for x in v)] *)
Definition parse_ints (v : pyval) : result (list Z) := l ← py_iter v; mapM_result py_int l.

Definition parse_allocation (v : pyval) : result Allocation :=
  j ← py_item "job_id" v;
  idx ← py_item "slot_indices" v; is_ ← parse_ints idx;
  g ← py_item "gpu_count" v; gpus ← py_int g;
  code ← py_item "reason_code" v;
  Ok (MkAllocation (py_str j) is_ gpus (py_str code)).

(** [tuple(str(item) for item in v)] *)
Definition parse_strings (v : pyval) : result (list string) :=
  l ← py_iter v; Ok (map py_str l).

Definition parse_allocations (v : pyval) : result (list Allocation) :=
  l ← py_iter v; mapM_result parse_allocation l.

(** [optional]: the field may be absent, [data.get(k, [])] *)
Definition list_field (optional : bool) (k : string) (data : list (string * pyval)) : result pyval :=
  if optional then Ok (default (VList []) (od_get k data)) else item k data.

Definition parse_plan (optional : bool) (data : list (string * pyval)) : result SchedulePlan :=
  strat ← item "strategy" data;
  al ← list_field optional "allocations" data; al ← parse_allocations al;
  un ← list_field optional "unscheduled" data; un ← parse_strings un;
  en ← item "energy_intent_kwh" data; en ← py_decimal en;
  co ← item "estimated_cost" data; co ← py_decimal co;
  asm ← list_field optional "assumptions" data; asm ← parse_strings asm;
  vi ← list_field optional "violations" data; vi ← parse_strings vi;
  h ← item "input_hash" data;
  Ok (MkSchedulePlan (py_str strat) al un en co asm vi (py_str h)).

Definition parse_schedule_plan (data : list (string * pyval)) : result SchedulePlan := parse_plan true data.

(** ** Round trips *)

(** What a stored document may have gone through: nothing, or the JSON text. *)
Inductive transport : (pyval → pyval) → Prop :=
| direct : transport id
| through_json : transport json_safe_val.

Lemma mapM_result_map {A B C} (f : B → result C) (g : A → B) (h : A → C) l :
  (∀ x, x ∈ l → f (g x) = Ok (h x)) → mapM_result f (map g l) = Ok (map h l).
Proof.
  induction l as [|x l IH]; intros H; [done|]. simpl. rewrite H by left. rewrite IH; [done|]. intros y Hy. apply H. by right.
Qed.

Lemma transport_strings tr l : transport tr → parse_strings (tr (strings_value l)) = Ok l.
Proof.
  intros [|]; unfold parse_strings; munfold; rewrite !map_map; simpl; by rewrite map_id.
Qed.

Lemma transport_decimal tr d : transport tr → py_decimal (tr (VDec d)) = Ok d.
Proof. intros [|]; [apply py_decimal_dec|apply py_decimal_str]. Qed.

Lemma transport_ints tr l : transport tr → parse_ints (tr (VList (map VInt l))) = Ok l.
Proof.
  intros [|]; unfold parse_ints; munfold; rewrite ?map_map; simpl; rewrite (mapM_result_map py_int VInt id) by done; by rewrite map_id.
Qed.

Lemma transport_allocation tr a : transport tr → parse_allocation (tr (allocation_document a)) = Ok a.
Proof.
  intros Htr. pose proof (transport_ints tr (slot_indices a) Htr) as Hi. unfold parse_allocation.
  destruct Htr; munfold; rewrite Hi; by destruct a.
Qed.

Lemma transport_allocations tr l : transport tr →
  parse_allocations (tr (VList (map allocation_document l))) = Ok l.
Proof.
  intros Htr. unfold parse_allocations. destruct Htr; munfold.
  - rewrite (mapM_result_map _ _ id); [by rewrite map_id|]. intros a _. apply (transport_allocation id), direct.
  - rewrite map_map, (mapM_result_map _ _ id); [by rewrite map_id|]. intros a _. apply (transport_allocation json_safe_val), through_json.
Qed.

Definition transported (tr : pyval → pyval) (d : list (string * pyval)) : list (string * pyval) :=
  map (λ kv, (kv.1, tr kv.2)) d.

Lemma transported_id d : transported id d = d.
Proof. unfold transported. induction d as [|[k v] d IH]; [done|]. simpl. f_equal. exact IH. Qed.

Lemma plan_roundtrip tr optional p : transport tr →
  parse_plan optional (transported tr (plan_document p)) = Ok p.
Proof.
  intros Htr. pose proof (transport_allocations tr (allocations p) Htr) as Ha.
  pose proof (λ l, transport_strings tr l Htr) as Hs. pose proof (λ d, transport_decimal tr d Htr) as Hd.
  assert (∀ s, py_str (tr (VStr s)) = s) as Hstr by by destruct Htr.
  unfold parse_plan, list_field, item, transported, plan_document. simpl. munfold.
  destruct optional; rewrite !Hstr, Ha, !Hs, !Hd; by destruct p.
Qed.

(** A schedule plan written as a document ([asdict]) and read back by [parse_schedule_plan] is the
    same plan, field for field and decimal exponent for decimal exponent, whether the document was kept
    as it is or went through JSON text (where every decimal becomes a string). *)
Theorem plan_document_roundtrip p :
  parse_schedule_plan (plan_document p) = Ok p ∧
  parse_schedule_plan (transported json_safe_val (plan_document p)) = Ok p.
Proof.
  split; [|apply plan_roundtrip, through_json].
  rewrite <- (transported_id (plan_document p)). apply plan_roundtrip, direct.
Qed.
End parse.
