(* ===== verification/Optimizer.v ===== *)
(** * Exact optimizer: [packages/optimization]

    [engine.py]: the branch-and-bound search over every feasible placement of every job;
    [model.py]: weights and dimensions; [constraints.py], [diagnostics.py]: the hard-constraint and
    infeasibility reports.  The wall clock of the search is the parameter [expired]: whether the
    [k]-th check of the clock finds the timeout exceeded.  [capacity] is passed down instead of being
    decremented and restored.  Runtimes (floats) are not modelled, nor is [objectives.py] (it goes
    through the text of a float); the HiGHS backend of [solvers.py] is in Highs. *)
From S2P Require Import Prelude PyDecimal Domain Workloads Scheduling.
From Stdlib Require Import QArith Lqa.
Local Open Scope Z_scope.

(** ** model.py *)

Record ObjectiveWeights := MkWeights {
  w_energy_cost : dec; w_carbon : dec; w_delay : dec; w_migration : dec; w_degradation : dec; w_curtailment : dec
}.
Definition weight_values (w : ObjectiveWeights) : list dec :=
  [w_energy_cost w; w_carbon w; w_delay w; w_migration w; w_degradation w; w_curtailment w].
Definition weights_check (w : ObjectiveWeights) : result ObjectiveWeights :=
  raise_if (existsb (λ v, dltb v (dint 0)) (weight_values w)) (ValueError "objective weights cannot be negative");;
  raise_if (negb (existsb dbool (weight_values w))) (ValueError "at least one objective weight must be positive");;
  Ok w.

Record ModelDimensions := MkDimensions {
  dim_jobs : list string; dim_slots : list Z; dim_sites : list string; dim_models : list string
}.
Definition build_dimensions (r : ScheduleInput) : result ModelDimensions :=
  let ss := map index (slots r) in
  raise_if (has_duplicates ss) (ValueError "optimization slot indices must be unique");;
  let js := map job_id (jobs r) in
  raise_if (has_duplicates js) (ValueError "optimization job IDs must be unique");;
  Ok (MkDimensions js ss
    (py_sorted String.compare (elements (⋃ (map allowed_sites (jobs r)) : gset string)))
    (py_sorted String.compare
      (elements (list_to_set (map (λ j, match gpu_model (request j) with
        | Some m => if bool_decide (m = "") then "any" else m | None => "any" end) (jobs r)) : gset string)))).

(** ** constraints.py and diagnostics.py *)

Record ConstraintViolation := MkViolation { constraint_id : string; subject_id : string; detail : string }.

Definition before_deadline (j : Job) (s : TimeSlot) : bool := us (starts_at s) <? us (deadline (sla j)).

Definition job_violations (r : ScheduleInput) (j : Job) : list ConstraintViolation :=
  match base.filter (λ s, before_deadline j s = true) (slots r) with
  | [] => [MkViolation "SLA_DEADLINE" (job_id j) "no slot precedes deadline"]
  | eligible =>
      (if forallb (λ s, gpu_capacity s <? gpu_count (request j)) eligible
       then [MkViolation "GPU_CAPACITY" (job_id j) "insufficient GPUs"] else [])
      ++ (if forallb (λ s, dltb (power_capacity_kw s) (job_power j)) eligible
          then [MkViolation "POWER_CAPACITY" (job_id j) "insufficient site power"] else [])
      ++ (if bool_decide (allowed_sites j = ∅) then [MkViolation "SOVEREIGNTY_SCOPE" (job_id j) "no allowed site"] else [])
  end.
Definition validate_hard_constraints (r : ScheduleInput) : list ConstraintViolation := jobs r ≫= job_violations r.

Definition diagnose_infeasibility (r : ScheduleInput) : list string :=
  let max_gpus := match slots r with [] => 0 | s :: ss => foldl Z.max (gpu_capacity s) (map gpu_capacity ss) end in
  (match slots r with [] => ["NO_TIME_SLOTS"] | _ => [] end)
  ++ (jobs r ≫= λ j,
       (if max_gpus <? gpu_count (request j) then ["GPU_CAPACITY:" +:+ job_id j] else [])
       ++ (if existsb (before_deadline j) (slots r) then [] else ["DEADLINE:" +:+ job_id j])).

(** ** engine.py *)

(** [itertools.combinations(l, k)] *)
Fixpoint combinations {A} (l : list A) (k : nat) : list (list A) :=
  match k, l with
  | O, _ => [[]]
  | S _, [] => []
  | S k', x :: l' => map (cons x) (combinations l' k') ++ combinations l' k
  end.

Definition eligible (j : Job) (s : TimeSlot) : bool :=
  before_deadline j s && (gpu_count (request j) <=? gpu_capacity s) && dleb (job_power j) (power_capacity_kw s).

Definition job_options (r : ScheduleInput) (j : Job) : result (list (list Z)) :=
  match slots r with
  | [] => Ok []
  | first :: _ =>
      needed ← slots_needed j (duration_hours first);
      raise_if (needed <? 0) (ValueError "r must be non-negative");;
      let el := map index (base.filter (λ s, eligible j s = true) (slots r)) in
      Ok (base.filter (λ c, (checkpointable j || consecutive c) = true) (combinations el (Z.to_nat needed)))
  end.

(** [slot.duration_hours * gpu_count * power_kw_per_gpu * slot.price_per_kwh] *)
Definition slot_energy (j : Job) (s : TimeSlot) : dec :=
  dmul (dmul (duration_hours s) (dint (gpu_count (request j)))) (power_kw_per_gpu (request j)).
Definition slot_cost (j : Job) (s : TimeSlot) : dec := dmul (slot_energy j s) (price_per_kwh s).

Definition choice_cost (r : ScheduleInput) (j : Job) (choice : list Z) : result dec :=
  l ← mapM_result (λ i, s ← slot_at r i; Ok (slot_cost j s)) choice; Ok (dsum l).

Record search_state := MkSearch { best : option (dec * list (list Z)); timed_out : bool; ticks : nat }.

Definition take_choice (g : Z) (choice : list Z) (capacity : gmap Z Z) : gmap Z Z :=
  foldl (λ m i, alter (λ c, c - g) i m) capacity choice.

Definition room (g : Z) (choice : list Z) (capacity : gmap Z Z) : bool :=
  forallb (λ i, g <=? default 0 (capacity !! i)) choice.

Section optimize.
Context (expired : nat → bool).
Context (content_hash : ScheduleInput → string).

(** [search(index, running_cost)]: [items] are the jobs from [index] on with their options, and
    [current] the choices made so far, latest first. *)
Fixpoint search (r : ScheduleInput) (items : list (Job * list (list Z))) (capacity : gmap Z Z)
    (current : list (list Z)) (running : dec) (st : search_state) : result search_state :=
  let st := MkSearch (best st) (timed_out st) (S (ticks st)) in
  if expired (ticks st) then Ok (MkSearch (best st) true (ticks st))
  else if match best st with Some (b, _) => dleb b running | None => false end then Ok st
  else match items with
  | [] => Ok (MkSearch (Some (running, rev current)) (timed_out st) (ticks st))
  | (j, options) :: rest =>
      foldM_result (λ st choice,
        if room (gpu_count (request j)) choice capacity then
          c ← choice_cost r j choice;
          search r rest (take_choice (gpu_count (request j)) choice capacity) (choice :: current) (dadd running c) st
        else Ok st) options st
  end.

Record OptimizationResult := MkResult {
  opt_status : string; opt_plan : option SchedulePlan; opt_breakdown : list (string * dec); opt_solver : string;
  opt_gap : dec; opt_assumptions : list string; opt_diagnostics : list string
}.

Definition plan_energy (r : ScheduleInput) (chosen : list (Job * list Z)) : result dec :=
  l ← mapM_result (λ ji : Job * Z, s ← slot_at r ji.2; Ok (slot_energy ji.1 s))
        (chosen ≫= λ jc, map (pair jc.1) jc.2);
  Ok (dsum l).

Definition optimize (r : ScheduleInput) : result OptimizationResult :=
  options ← mapM_result (job_options r) (jobs r);
  let items := zip (jobs r) options in
  let empty := omap (λ jo : Job * list (list Z), match jo.2 with [] => Some (job_id jo.1) | _ => None end) items in
  match empty with
  | _ :: _ => Ok (MkResult "infeasible" None [] "exact-enumeration" (dint 0) [] (map (String.append "JOB_NO_FEASIBLE_WINDOW:") empty))
  | [] =>
      st ← search r items (slot_map gpu_capacity (slots r)) [] (dint 0) (MkSearch None false 0);
      match best st with
      | None =>
          Ok (if timed_out st then MkResult "timeout" None [] "exact-enumeration" (dint 1) [] ["SEARCH_TIMEOUT"]
              else MkResult "infeasible" None [] "exact-enumeration" (dint 0) [] ["GPU_CAPACITY_CONFLICT"])
      | Some (best_cost, best_choices) =>
          let chosen := zip (jobs r) best_choices in
          energy ← plan_energy r chosen;
          let plan := MkSchedulePlan "exact_co_optimizer"
            (map (λ jc : Job * list Z, MkAllocation (job_id jc.1) jc.2 (gpu_count (request jc.1)) "MIN_TOTAL_COST") chosen)
            [] energy (if dbool best_cost then best_cost else dint 0)
            ["perfect slot forecast"; "single-site bounded MVP"] [] (content_hash r) in
          validate_plan r plan;;
          Ok (MkResult (if timed_out st then "feasible_timeout" else "optimal") (Some plan)
                [("energy_cost", estimated_cost plan); ("delay", dint 0)] "exact-enumeration"
                (if timed_out st then dint 1 else dint 0) (assumptions plan) [])
      end
  end.
End optimize.

(** ** What the search optimizes *)

(** A completion of [items]: one option per job, within the capacity left by the earlier ones *)
Fixpoint completes (items : list (Job * list (list Z))) (capacity : gmap Z Z) (comp : list (list Z)) : Prop :=
  match items, comp with
  | [], [] => True
  | (j, options) :: rest, c :: comp' =>
      c ∈ options ∧ room (gpu_count (request j)) c capacity = true ∧
      completes rest (take_choice (gpu_count (request j)) c capacity) comp'
  | _, _ => False
  end.

(** Its cost, accumulated as the search does *)
Fixpoint cost_from (r : ScheduleInput) (running : dec) (items : list (Job * list (list Z))) (comp : list (list Z)) : dec :=
  match items, comp with
  | (j, _) :: rest, c :: comp' =>
      match choice_cost r j c with Ok x => cost_from r (dadd running x) rest comp' | Err _ => running end
  | _, _ => running
  end.

(** All options can be priced, at a non-negative cost. *)
Definition priced (r : ScheduleInput) (items : list (Job * list (list Z))) : Prop :=
  Forall (λ jo, Forall (λ c, ∃ x, choice_cost r jo.1 c = Ok x ∧ (0 <= dval x)%Q) jo.2) items.

Lemma cost_from_ge r items : ∀ comp running capacity, priced r items → completes items capacity comp →
  fits 28 (dval running) → (dval running <= dval (cost_from r running items comp))%Q.
Proof.
  induction items as [|[j options] rest IH]; intros [|c comp] running capacity Hp Hc Hf; simpl in *; try done; try lra.
  apply Forall_cons in Hp as [Hj Hp]. destruct Hc as (Hin & _ & Hc). rewrite Forall_forall in Hj.
  destruct (Hj c Hin) as (x & Hx & Hx0). simpl in Hx. rewrite Hx.
  pose proof (dadd_increases 28 ltac:(lia) running x Hf Hx0) as H1.
  etransitivity; [exact H1|]. eapply IH; [done|exact Hc|]. by apply dfix_fits_res.
Qed.

Section search_facts.
Context (expired : nat → bool) (r : ScheduleInput).

(** What one call of [search] establishes, relative to the best so far *)
Record search_post (items : list (Job * list (list Z))) (capacity : gmap Z Z) (current : list (list Z))
    (running : dec) (st st' : search_state) : Prop := {
  sp_timeout : timed_out st = true → timed_out st' = true;
  sp_clock : (∀ k, expired k = false) → timed_out st' = timed_out st;
  sp_best : best st' = best st ∨ ∃ comp, completes items capacity comp ∧
    best st' = Some (cost_from r running items comp, rev current ++ comp);
  sp_improves : ∀ b chs, best st = Some (b, chs) → ∃ b' chs', best st' = Some (b', chs') ∧ (dval b' <= dval b)%Q;
  sp_optimal : timed_out st' = false → ∀ comp, completes items capacity comp →
    ∃ b chs, best st' = Some (b, chs) ∧ (dval b <= dval (cost_from r running items comp))%Q
}.

(** The same for the loop over some of a job's options *)
Record loop_post (j : Job) (options : list (list Z)) (rest : list (Job * list (list Z))) (capacity : gmap Z Z)
    (current : list (list Z)) (running : dec) (st st' : search_state) : Prop := {
  lp_timeout : timed_out st = true → timed_out st' = true;
  lp_clock : (∀ k, expired k = false) → timed_out st' = timed_out st;
  lp_best : best st' = best st ∨ ∃ comp, completes ((j, options) :: rest) capacity comp ∧
    best st' = Some (cost_from r running ((j, options) :: rest) comp, rev current ++ comp);
  lp_improves : ∀ b chs, best st = Some (b, chs) → ∃ b' chs', best st' = Some (b', chs') ∧ (dval b' <= dval b)%Q;
  lp_optimal : timed_out st' = false → ∀ comp, completes ((j, options) :: rest) capacity comp →
    ∃ b chs, best st' = Some (b, chs) ∧ (dval b <= dval (cost_from r running ((j, options) :: rest) comp))%Q
}.

Lemma loop_post_nil j rest capacity current running st : loop_post j [] rest capacity current running st st.
Proof.
  split; [done|done|by left| |].
  - intros b chs Hb. exists b, chs. split; [done|lra].
  - intros _ [|c comp]; simpl; [done|]. by intros [?%elem_of_nil _].
Qed.

(** An option without room adds no completion. *)
Lemma loop_post_skip j c options rest capacity current running st st' :
  room (gpu_count (request j)) c capacity = false →
  loop_post j options rest capacity current running st st' →
  loop_post j (c :: options) rest capacity current running st st'.
Proof.
  intros Hroom [Ht Hk Hb Hi Ho]. split; [done|done| |done|].
  - destruct Hb as [|([|c' comp] & Hc & ->)]; [by left|done|]. right. exists (c' :: comp). split; [|done].
    destruct Hc as (Hin & ? & ?). split_and!; try done. by right.
  - intros Hto [|c' comp] Hc; [done|]. apply (Ho Hto (c' :: comp)).
    destruct Hc as (Hin & Hr & ?). split_and!; try done. apply elem_of_cons in Hin as [->|]; [congruence|done].
Qed.

Lemma loop_post_try j c x options rest capacity current running st st1 st' :
  room (gpu_count (request j)) c capacity = true → choice_cost r j c = Ok x →
  search_post rest (take_choice (gpu_count (request j)) c capacity) (c :: current) (dadd running x) st st1 →
  loop_post j options rest capacity current running st1 st' →
  loop_post j (c :: options) rest capacity current running st st'.
Proof.
  intros Hroom Hx [Ht1 Hk1 Hb1 Hi1 Ho1] [Ht Hk Hb Hi Ho]. split.
  - auto.
  - intros Hn. by rewrite Hk, Hk1.
  - destruct Hb as [->|([|c' comp] & Hc & ->)]; [|done|].
    + destruct Hb1 as [->|(comp & Hc & ->)]; [by left|]. right. exists (c :: comp). simpl. rewrite Hx.
      split; [split_and!; [left|done|done]|]. by rewrite <- app_assoc.
    + right. exists (c' :: comp). split; [|done]. destruct Hc as (Hin & ? & ?). split_and!; try done. by right.
  - intros b chs Hbst. destruct (Hi1 _ _ Hbst) as (b1 & chs1 & Hb1' & Hle1).
    destruct (Hi _ _ Hb1') as (b2 & chs2 & Hb2' & Hle2). exists b2, chs2. split; [done|lra].
  - intros Hto [|c' comp] Hc; [done|]. destruct Hc as (Hin & Hr & Hc). apply elem_of_cons in Hin as [->|Hin].
    + assert (timed_out st1 = false) as Hto1 by (destruct (timed_out st1); [rewrite Ht in Hto; done|done]).
      destruct (Ho1 Hto1 comp Hc) as (b1 & chs1 & Hb1' & Hle1). destruct (Hi _ _ Hb1') as (b2 & chs2 & Hb2' & Hle2).
      exists b2, chs2. split; [done|]. simpl. rewrite Hx. lra.
    + by apply (Ho Hto (c' :: comp)).
Qed.

(** What a call of [search] on the remaining jobs [items] guarantees, from any state *)
Definition search_sound (items : list (Job * list (list Z))) : Prop := ∀ capacity current running st,
  priced r items → fits 28 (dval running) →
  ∃ st', search expired r items capacity current running st = Ok st' ∧
    search_post items capacity current running st st'.

(** A call that times out or is pruned leaves the best as it is. *)
Lemma search_post_stop items capacity current running st b k : (b = true → ∃ k, expired k = true) →
  (b = false → timed_out st = false → ∀ comp, completes items capacity comp →
    ∃ b chs, best st = Some (b, chs) ∧ (dval b <= dval (cost_from r running items comp))%Q) →
  search_post items capacity current running st (MkSearch (best st) (b || timed_out st) k).
Proof.
  intros Hexp Ho. split; simpl.
  - intros ->. apply orb_true_r.
  - intros Hn. destruct b; [|done]. destruct (Hexp eq_refl) as [k' Hk]. by rewrite Hn in Hk.
  - by left.
  - intros b' chs Hb. exists b', chs. split; [done|lra].
  - intros [-> Hto]%orb_false_iff. by apply Ho.
Qed.

Lemma search_loop j rest capacity current running : search_sound rest → fits 28 (dval running) →
  ∀ options st, Forall (λ c, ∃ x, choice_cost r j c = Ok x ∧ (0 <= dval x)%Q) options → priced r rest →
  ∃ st', foldM_result (λ st choice,
      if room (gpu_count (request j)) choice capacity then
        c ← choice_cost r j choice;
        search expired r rest (take_choice (gpu_count (request j)) choice capacity) (choice :: current) (dadd running c) st
      else Ok st) options st = Ok st' ∧ loop_post j options rest capacity current running st st'.
Proof.
  intros Hs Hf. induction options as [|c options IH]; intros st Ho Hp; cbn [foldM_result].
  { exists st. split; [done|apply loop_post_nil]. }
  apply Forall_cons in Ho as [(x & Hx & Hx0) Ho]. destruct (room _ c capacity) eqn:Hroom.
  - rewrite Hx. cbn [mbind result_bind].
    destruct (Hs (take_choice (gpu_count (request j)) c capacity) (c :: current) (dadd running x) st Hp)
      as (st1 & -> & H1); [by apply dfix_fits_res|].
    destruct (IH st1 Ho Hp) as (st' & -> & H'). exists st'. split; [done|]. by eapply loop_post_try.
  - destruct (IH st Ho Hp) as (st' & -> & H'). exists st'. split; [done|]. by apply loop_post_skip.
Qed.

Lemma search_spec items : search_sound items.
Proof.
  induction items as [|[j options] rest IH]; intros capacity current running st Hp Hf; cbn [search best timed_out ticks];
    (destruct (expired _) eqn:Hexp; [eexists; split; [done|]; apply (search_post_stop _ _ _ _ st true); [eauto|done]|]);
    (destruct (match best st with Some _ => _ | None => _ end) eqn:Hprune;
      [eexists; split; [done|]; apply (search_post_stop _ _ _ _ st false); [done|]; intros _ _ comp Hc;
       destruct (best st) as [[b chs]|]; [|done]; exists b, chs; split; [done|];
       apply dleb_true in Hprune; etransitivity; [exact Hprune|]; by eapply cost_from_ge|]).
  - eexists. split; [done|]. split; simpl; [done|done| | |].
    + right. exists []. split; [done|]. by rewrite app_nil_r.
    + intros b chs Hb. rewrite Hb in Hprune. eexists _, _. split; [done|].
      apply Qlt_le_weak. by apply dleb_false.
    + intros _ [|]; [|done]. intros _. eexists _, _. split; [done|]. simpl. lra.
  - apply Forall_cons in Hp as [Hj Hp].
    destruct (search_loop j rest capacity current running IH Hf options (MkSearch (best st) (timed_out st) (S (ticks st))) Hj Hp)
      as (st' & -> & [Ht Hk Hb Hi Ho]). exists st'. split; [done|]. by split.
Qed.
End search_facts.

(** ** Feasible assignments *)

(** A placement of job [j]: as many distinct slots as its runtime needs, in order, each starting before
    the deadline with GPUs and power for the job, and in one run unless it can checkpoint *)
Record placement (r : ScheduleInput) (j : Job) (c : list Z) : Prop := {
  pl_sorted : StronglySorted Z.lt c;
  pl_slots : Forall (λ i, ∃ n s, i = Z.of_nat n ∧ slots r !! n = Some s ∧ eligible j s = true) c;
  pl_length : ∃ first rest, slots r = first :: rest ∧ slots_needed j (duration_hours first) = Ok (Z.of_nat (length c));
  pl_run : checkpointable j = true ∨ consecutive c = true
}.

Definition choice_allocation (jc : Job * list Z) : Allocation :=
  MkAllocation (job_id jc.1) jc.2 (gpu_count (request jc.1)) "MIN_TOTAL_COST".
Definition allocations_of (r : ScheduleInput) (choices : list (list Z)) : list Allocation :=
  map choice_allocation (zip (jobs r) choices).

(** One placement per job, and in every slot room for all the jobs placed there *)
Record feasible (r : ScheduleInput) (choices : list (list Z)) : Prop := {
  fe_placed : Forall2 (placement r) (jobs r) choices;
  fe_capacity : ∀ n s, slots r !! n = Some s → usage (allocations_of r choices) (Z.of_nat n) <= gpu_capacity s
}.

(** The cost of an assignment in the decimal context, job by job *)
Definition cost_or_zero (r : ScheduleInput) (jc : Job * list Z) : dec :=
  match choice_cost r jc.1 jc.2 with Ok x => x | Err _ => dint 0 end.
Definition total_cost (r : ScheduleInput) (choices : list (list Z)) : dec :=
  foldl dadd (dint 0) (map (cost_or_zero r) (zip (jobs r) choices)).

Lemma elem_of_combinations {A} (l : list A) : ∀ k c, c ∈ combinations l k ↔ c `sublist_of` l ∧ length c = k.
Proof.
  induction l as [|x l IH]; intros [|k] c; cbn [combinations].
  - rewrite list_elem_of_singleton. split; [intros ->; done|]. by intros [?%sublist_nil_r _].
  - split; [by intros ?%elem_of_nil|]. intros [->%sublist_nil_r ?]. done.
  - rewrite list_elem_of_singleton. split; [intros ->; split; [apply sublist_nil_l|done]|]. intros [_ ?]. by apply nil_length_inv.
  - rewrite elem_of_app, IH. split.
    + intros [(c' & -> & Hc)%list_elem_of_fmap|[Hs Hl]].
      * apply IH in Hc as [Hs Hl]. split; [by constructor|]. simpl. lia.
      * split; [by constructor|done].
    + intros [Hs Hl]. inversion Hs as [|? c' ? Hs'|]; subst; [|by right].
      left. apply list_elem_of_fmap_2. apply IH. split; [done|]. simpl in Hl. lia.
Qed.

(** In a strictly increasing list, the sublists are the strictly increasing selections. *)
Lemma sublist_of_increasing l c : StronglySorted Z.lt l →
  c `sublist_of` l ↔ StronglySorted Z.lt c ∧ Forall (.∈ l) c.
Proof.
  intros Hl. revert c. induction Hl as [|x l Hl IH Hx]; intros c.
  - split; [intros ->%sublist_nil_r; split; constructor|]. intros [_ Hc]. destruct c as [|y c]; [done|].
    apply Forall_cons in Hc as [Hc _]. by apply elem_of_nil in Hc.
  - rewrite Forall_forall in Hx. split.
    + intros Hs. inversion Hs as [|? c' ? Hs'|? ? ? Hs']; subst; apply IH in Hs' as [Hc Hf].
      * split; [constructor; [done|]; eapply Forall_impl; [exact Hf|]; auto|].
        constructor; [left|]. eapply Forall_impl; [exact Hf|]. intros y Hy. by right.
      * split; [done|]. eapply Forall_impl; [exact Hf|]. intros y Hy. by right.
    + intros [Hc Hf]. assert (∀ c', StronglySorted Z.lt c' → Forall (.∈ x :: l) c' → Forall (Z.lt x) c' → c' `sublist_of` l) as Haux.
      { intros c' H1 H2 H3. apply IH. split; [done|]. rewrite Forall_forall in *. intros y Hy.
        specialize (H3 y Hy). destruct (proj1 (elem_of_cons _ _ _) (H2 y Hy)) as [->|]; [lia|done]. }
      inversion Hc as [|y c' Hc' Hy]; subst; [apply sublist_nil_l|]. apply Forall_cons in Hf as [Hf1 Hf2].
      apply elem_of_cons in Hf1 as [->|Hin].
      * apply sublist_skip. by apply Haux.
      * apply sublist_cons, Haux; [done|by constructor; [right|]|]. constructor; [by apply Hx|].
        eapply Forall_impl; [exact Hy|]. intros z Hz. specialize (Hx y Hin). lia.
Qed.

Lemma indices_increasing r (P : TimeSlot → Prop) `{∀ s, Decision (P s)} : well_indexed r →
  StronglySorted Z.lt (map index (base.filter P (slots r))).
Proof.
  unfold well_indexed. destruct r as [? ss]. simpl. clear. induction ss as [|s ss IH] using rev_ind; intros Hwi; [constructor|].
  assert (index s = Z.of_nat (length ss)) as Hs by (apply Hwi; rewrite lookup_app_r by done; by rewrite Nat.sub_diag).
  assert (∀ n x, ss !! n = Some x → index x = Z.of_nat n) as Hwi' by (intros n x Hn; apply Hwi; by apply lookup_app_l_Some).
  rewrite filter_app, map_app. apply StronglySorted_app. split_and!; [|by apply IH|rewrite filter_cons; case_decide; repeat constructor].
  intros x y (sx & -> & Hx)%list_elem_of_fmap (sy & -> & Hy)%list_elem_of_fmap.
  apply list_elem_of_filter in Hx as [_ Hx], Hy as [_ ->%list_elem_of_singleton].
  apply list_elem_of_lookup in Hx as [n Hn]. rewrite (Hwi' n sx Hn), Hs. apply lookup_lt_Some in Hn. lia.
Qed.

(** A request the optimizer can price: non-negative prices, runtimes and powers, positive durations *)
Record priceable (r : ScheduleInput) : Prop := {
  pr_slots : Forall (λ s, (0 < coef (duration_hours s))%Z ∧ (0 <= dval (price_per_kwh s))%Q) (slots r);
  pr_jobs : Forall (λ j, (0 <= dval (power_kw_per_gpu (request j)))%Q ∧ (0 <= dval (estimated_hours (request j)))%Q) (jobs r)
}.

Lemma slots_needed_nonneg j d : (0 < coef d)%Z → (0 <= dval (estimated_hours (request j)))%Q →
  ∃ k, slots_needed j d = Ok k ∧ 0 <= k.
Proof.
  intros Hd He. unfold slots_needed, ddiv. munfold.
  destruct (ddiv_ok 28 (estimated_hours (request j)) d) as [q Hq]; [lia|]. rewrite Hq. eexists. split; [done|].
  assert (0 <= dval q)%Q as Hq0.
  { eapply (ddiv_ge 28 ltac:(lia) _ _ _ 0%Q Hd He); [|exact Hq|lra]. exists (Dec 0 0). by split. }
  destruct (Z.le_gt_cases 0 (dceil q)) as [|Hlt]; [done|exfalso].
  assert (dceil q <= -1) as H by lia. apply dceil_spec in H. change (inject_Z (-1)) with (-1)%Q in H. lra.
Qed.

Lemma job_options_spec r j : well_indexed r → priceable r → j ∈ jobs r →
  ∃ options, job_options r j = Ok options ∧ ∀ c, c ∈ options ↔ placement r j c.
Proof.
  intros Hwi [Hs Hj] Hin. rewrite Forall_forall in Hj. destruct (Hj j Hin) as [_ Hhours].
  unfold job_options. destruct (slots r) as [|first rest] eqn:Es.
  { exists []. split; [done|]. intros c. split; [by intros ?%elem_of_nil|]. intros [_ _ (? & ? & ? & _) _]. congruence. }
  apply Forall_cons in Hs as [[Hd _] _].
  destruct (slots_needed_nonneg j (duration_hours first) Hd Hhours) as (k & Hk & Hk0). rewrite Hk. munfold.
  rewrite (proj2 (Z.ltb_ge k 0)) by lia. eexists. split; [done|]. intros c. rewrite <- Es.
  rewrite list_elem_of_filter, elem_of_combinations, sublist_of_increasing by by apply indices_increasing.
  assert (Forall (.∈ map index (base.filter (λ s, eligible j s = true) (slots r))) c ↔
    Forall (λ i, ∃ n s, i = Z.of_nat n ∧ slots r !! n = Some s ∧ eligible j s = true) c) as Hel.
  { apply Forall_iff. intros i. rewrite list_elem_of_fmap. split.
    - intros (s & -> & [He [n Hn]%list_elem_of_lookup]%list_elem_of_filter). exists n, s. split_and!; [by apply Hwi|done|done].
    - intros (n & s & -> & Hn & He). exists s. split; [symmetry; by apply Hwi|]. apply list_elem_of_filter.
      split; [done|by eapply list_elem_of_lookup_2]. }
  rewrite Hel, orb_true_iff. split.
  - intros (Hrun & (Hsort & Hf) & Hlen). split; try done. exists first, rest. split; [done|]. rewrite Hk, Hlen. f_equal. lia.
  - intros [Hsort Hf (f & l & Hsl & Hn) Hrun]. split_and!; try done. rewrite Es in Hsl. injection Hsl as <- <-.
    rewrite Hk in Hn. injection Hn as ->. lia.
Qed.

Lemma slot_cost_nonneg r j n s : priceable r → 0 <= gpu_count (request j) → j ∈ jobs r → slots r !! n = Some s →
  (0 <= dval (slot_cost j s))%Q.
Proof.
  intros [Hs Hj] Hg Hin Hn. rewrite Forall_forall in Hs. rewrite Forall_forall in Hj. destruct (Hj j Hin) as [Hp _].
  destruct (Hs s) as [Hd Hpr]; [by eapply list_elem_of_lookup_2|].
  unfold slot_cost, slot_energy. repeat apply dmul_nonneg; try done; try lia.
  - apply dval_sign. lia.
  - by apply dval_sign.
Qed.

Lemma choice_cost_nonneg r j c : priceable r → 0 <= gpu_count (request j) → j ∈ jobs r → placement r j c →
  ∃ x, choice_cost r j c = Ok x ∧ (0 <= dval x)%Q.
Proof.
  intros Hp Hg Hin [_ Hsl _ _]. unfold choice_cost. munfold.
  assert (∃ l, mapM_result (λ i, s ← slot_at r i; Ok (slot_cost j s)) c = Ok l ∧ Forall (λ d, (0 <= dval d)%Q) l) as (l & Hl & Hf).
  { induction Hsl as [|i c (n & s & -> & Hn & _) Hsl (l & Hl & Hf)]; [by exists []|].
    exists (slot_cost j s :: l). simpl. rewrite slot_at_nat, Hn. simpl. munfold. rewrite Hl. split; [done|].
    constructor; [by eapply slot_cost_nonneg|done]. }
  munfold. rewrite Hl. eexists. split; [done|]. apply dsum_nonneg_from; [done|]. vm_compute. done.
Qed.

Lemma take_choice_counts r g c : ∀ f capacity, counts r f capacity →
  counts r (λ i, f i - g * occurrences i c) (take_choice g c capacity).
Proof.
  induction c as [|i c IH]; intros f capacity Hc; simpl.
  - eapply counts_ext; [|exact Hc]. intros i. unfold occurrences. simpl. lia.
  - eapply counts_ext; [|apply (IH (λ x, if decide (x = i) then f x - g else f x))].
    + intros x. rewrite occurrences_cons. simpl. case_decide; lia.
    + destruct Hc as [H1 H2]. split.
      * intros n s Hn. case_decide as Hd; [subst i; by rewrite lookup_alter_eq, (H1 n s Hn)|].
        by rewrite lookup_alter_ne, (H1 n s Hn) by congruence.
      * intros x v. rewrite lookup_alter_Some. intros [(_ & w & Hw & _)|[_ Hw]]; eauto.
Qed.

Lemma room_iff r j c f capacity : counts r f capacity → placement r j c →
  room (gpu_count (request j)) c capacity = true ↔
  ∀ n s, slots r !! n = Some s → Z.of_nat n ∈ c → gpu_count (request j) <= f (Z.of_nat n).
Proof.
  intros [Hc _] [_ Hsl _ _]. unfold room. rewrite forallb_true_iff, Forall_forall. rewrite Forall_forall in Hsl. split.
  - intros H n s Hn Hin. specialize (H _ Hin). rewrite (Hc n s Hn) in H. simpl in H. bprop. lia.
  - intros H i Hin. destruct (Hsl i Hin) as (n & s & -> & Hn & _). rewrite (Hc n s Hn). simpl.
    apply Z.leb_le. by eapply H.
Qed.

Lemma completes_iff r js : Forall (λ j, 0 <= gpu_count (request j)) js → ∀ options capacity f comp,
  Forall2 (λ j o, ∀ c, c ∈ o ↔ placement r j c) js options →
  counts r f capacity → (∀ n s, slots r !! n = Some s → 0 <= f (Z.of_nat n)) →
  completes (zip js options) capacity comp ↔
  Forall2 (placement r) js comp ∧
  ∀ n s, slots r !! n = Some s → usage (map choice_allocation (zip js comp)) (Z.of_nat n) <= f (Z.of_nat n).
Proof.
  induction 1 as [|j js Hg Hgs IH]; intros [|o options] capacity f comp Ho Hc Hf; try by inversion Ho.
  - simpl. destruct comp; [split; [by split; [constructor|]|done]|]. split; [done|]. intros [H _]. inversion H.
  - apply Forall2_cons in Ho as [Ho Hos]. destruct comp as [|c comp]; [split; [done|]; intros [H _]; inversion H|].
    cbn [zip zip_with map completes]. rewrite Forall2_cons, Ho.
    assert (placement r j c → ∀ i, occurrences i c = if decide (i ∈ c) then 1 else 0) as Hocc.
    { intros [Hsort _ _ _] i. apply occurrences_NoDup. clear -Hsort. induction Hsort as [|x l Hl IHl Hx]; constructor; [|done].
      rewrite Forall_forall in Hx. intros Hin. specialize (Hx x Hin). lia. }
    set (g := gpu_count (request j)) in *.
    split.
    + intros (Hpl & Hroom & Hrest). pose proof (proj1 (room_iff r j c f capacity Hc Hpl) Hroom) as Hroom'.
      eapply (IH options _ (λ i, f i - g * occurrences i c)) in Hrest; [|done|by apply take_choice_counts|].
      * destruct Hrest as [Hpls Huse]. split; [done|]. intros n s Hn. specialize (Huse n s Hn).
        cbn [usage choice_allocation alloc_gpus slot_indices fst snd]. fold g. lia.
      * intros n s Hn. rewrite (Hocc Hpl). case_decide as Hd; [specialize (Hroom' n s Hn Hd)|specialize (Hf n s Hn)]; subst g; lia.
    + intros [[Hpl Hpls] Huse]. cbn [usage choice_allocation alloc_gpus slot_indices fst snd] in Huse. fold g in Huse.
      assert (∀ i, 0 <= usage (map choice_allocation (zip js comp)) i) as Hnn.
      { intros i. apply usage_nonneg. apply Forall_map, Forall_forall. intros [j' c'] Hin%elem_of_zip_l. rewrite Forall_forall in Hgs. by apply Hgs. }
      assert (∀ n s, slots r !! n = Some s → Z.of_nat n ∈ c → g <= f (Z.of_nat n)) as Hroom.
      { intros n s Hn Hin. specialize (Huse n s Hn). rewrite (Hocc Hpl), decide_True in Huse by done. specialize (Hnn (Z.of_nat n)). lia. }
      split_and!; [done|by eapply room_iff|].
      apply (IH options _ (λ i, f i - g * occurrences i c)); [done|by apply take_choice_counts| |].
      * intros n s Hn. rewrite (Hocc Hpl). case_decide; [specialize (Hroom n s Hn ltac:(done))|specialize (Hf n s Hn)]; lia.
      * split; [done|]. intros n s Hn. specialize (Huse n s Hn). lia.
Qed.

Lemma cost_from_total r js : ∀ options comp running, length options = length js →
  Forall2 (λ j c, ∃ x, choice_cost r j c = Ok x) js comp →
  cost_from r running (zip js options) comp = foldl dadd running (map (cost_or_zero r) (zip js comp)).
Proof.
  induction js as [|j js IH]; intros [|o options] comp running Hlen Hc; try done.
  inversion Hc as [|? c ? comp' [x Hx] Hc']; subst. simpl.
  assert (cost_or_zero r (j, c) = x) as -> by (unfold cost_or_zero; simpl; by rewrite Hx). rewrite Hx.
  apply IH; [simpl in Hlen; lia|done].
Qed.

Lemma placement_slot r j c i : placement r j c → i ∈ c → ∃ s, slot_at r i = Ok s.
Proof.
  intros [_ Hsl _ _] Hi. rewrite Forall_forall in Hsl. destruct (Hsl i Hi) as (n & s & -> & Hn & _).
  exists s. by rewrite slot_at_nat, Hn.
Qed.

Lemma plan_energy_ok r chosen : Forall (λ jc, placement r jc.1 jc.2) chosen → ∃ e, plan_energy r chosen = Ok e.
Proof.
  intros Hp. unfold plan_energy. set (f := λ ji : Job * Z, _).
  assert (∀ l, Forall (λ ji : Job * Z, ∃ s, slot_at r ji.2 = Ok s) l → ∃ k, mapM_result f l = Ok k) as Hl.
  { induction 1 as [|[j i] l [s Hs] Hl [k Hk]]; [by exists []|]. cbn [mapM_result].
    assert (f (j, i) = Ok (slot_energy j s)) as -> by (unfold f; munfold; simpl in *; by rewrite Hs). rewrite Hk. eauto. }
  destruct (Hl (chosen ≫= λ jc, map (pair jc.1) jc.2)) as [k Hk].
  - apply Forall_forall. intros [j i] ((j' & c) & Hi & Hin)%list_elem_of_bind. rewrite Forall_forall in Hp.
    specialize (Hp _ Hin). apply list_elem_of_fmap in Hi as (i' & [= -> ->] & Hi). by eapply placement_slot.
  - munfold. rewrite Hk. eauto.
Qed.

Lemma feasible_valid r choices : well_formed r → feasible r choices → valid_plan r (allocations_of r choices).
Proof.
  intros [Hwi Hcap Hdur Hnd Hg] [Hpl Huse]. unfold allocations_of in *. split_and!.
  - assert (map alloc_job (map choice_allocation (zip (jobs r) choices)) = map job_id (zip (jobs r) choices).*1) as ->
      by (rewrite map_map; symmetry; apply map_map).
    rewrite fst_zip by (rewrite (Forall2_length _ _ _ Hpl); done). exact Hnd.
  - apply Forall_map, Forall_forall. intros [j c] Hin. split. simpl. exists j. split.
    + apply find_job_elem; [done|]. by eapply elem_of_zip_l.
    + rewrite Forall2_lookup in Hpl. apply list_elem_of_lookup in Hin as [n Hn]. apply lookup_zip_with_Some in Hn as (j' & c' & [= <- <-] & Hj & Hc).
      specialize (Hpl n). rewrite Hj, Hc in Hpl. inversion Hpl as [? ? [_ Hsl _ _]|]; subst.
      eapply Forall_impl; [exact Hsl|]. intros i (m & s & -> & Hm & He). exists m, s. unfold eligible, before_deadline in He.
      bprop. done.
  - intros n s Hn _. by apply Huse.
Qed.

Lemma feasible_validates r choices p : well_formed r → feasible r choices → allocations p = allocations_of r choices →
  validate_plan r p = Ok tt.
Proof.
  intros Hwf Hf Ha. unfold validate_plan. munfold. rewrite Ha.
  assert (Forall (λ a, 0 <= alloc_gpus a) (allocations_of r choices)) as Hg.
  { apply Forall_map, Forall_forall. intros [j c] Hin%elem_of_zip_l. pose proof (wf_gpus r Hwf) as Hg. rewrite Forall_forall in Hg. by apply Hg. }
  pose proof (validate_loop r _ (wf_index r Hwf) Hg) as Hl.
  destruct (foldM_result _ _ _) as [[used al]|e]; [done|]. exfalso. apply Hl. by apply feasible_valid.
Qed.

Lemma all_options r : well_indexed r → priceable r →
  ∃ options, mapM_result (job_options r) (jobs r) = Ok options ∧
    Forall2 (λ j o, ∀ c, c ∈ o ↔ placement r j c) (jobs r) options.
Proof.
  intros Hwi Hp. assert (∀ js, Forall (.∈ jobs r) js → ∃ options, mapM_result (job_options r) js = Ok options ∧
    Forall2 (λ j o, ∀ c, c ∈ o ↔ placement r j c) js options) as H.
  { induction 1 as [|j js Hj Hjs (options & Ho & Hf)]; [exists []; split; [done|constructor]|].
    destruct (job_options_spec r j Hwi Hp Hj) as (o & Hoj & Hiff). exists (o :: options). simpl. rewrite Hoj, Ho.
    split; [done|by constructor]. }
  apply H. by apply Forall_forall.
Qed.

Lemma options_priced r options : priceable r → Forall (λ j, 0 <= gpu_count (request j)) (jobs r) →
  Forall2 (λ j o, ∀ c, c ∈ o ↔ placement r j c) (jobs r) options → priced r (zip (jobs r) options).
Proof.
  intros Hp Hg Ho. apply Forall_forall. intros [j o] Hin. pose proof (elem_of_zip_l _ _ _ _ Hin) as Hj.
  rewrite Forall2_lookup in Ho. apply list_elem_of_lookup in Hin as [n Hn]. apply lookup_zip_with_Some in Hn as (? & ? & [= <- <-] & Hjn & Hon).
  specialize (Ho n). rewrite Hjn, Hon in Ho. inversion Ho as [? ? Hiff|]; subst. rewrite Forall_forall in Hg.
  apply Forall_forall. intros c Hc. simpl in *. apply choice_cost_nonneg; auto. by apply Hiff.
Qed.

Lemma completes_feasible r options comp : well_formed r → 
  Forall2 (λ j o, ∀ c, c ∈ o ↔ placement r j c) (jobs r) options →
  completes (zip (jobs r) options) (slot_map gpu_capacity (slots r)) comp ↔ feasible r comp.
Proof.
  intros [Hwi Hcap Hdur Hnd Hg] Ho. rewrite Forall_forall in Hcap.
  set (f := λ i, default 0 (slot_map gpu_capacity (slots r) !! i)).
  assert (∀ n s, slots r !! n = Some s → f (Z.of_nat n) = gpu_capacity s) as Hf
    by (intros n s Hn; unfold f; by rewrite (slot_map_lookup gpu_capacity r n s Hwi Hn)).
  rewrite (completes_iff r (jobs r) Hg options _ f comp Ho).
  - split.
    + intros [H1 H2]. split; [done|]. intros n s Hn. rewrite <- (Hf n s Hn). by eapply H2.
    + intros [H1 H2]. split; [done|]. intros n s Hn. rewrite (Hf n s Hn). by apply H2.
  - split; [intros n s Hn; rewrite (Hf n s Hn); by apply slot_map_lookup|].
    intros i v Hv. destruct (slot_map_inv _ _ _ _ Hwi Hv) as (n & s & ? & ? & _). eauto.
  - intros n s Hn. rewrite (Hf n s Hn). apply Hcap. by eapply list_elem_of_lookup_2.
Qed.

Lemma feasible_cost r options comp : priceable r → Forall (λ j, 0 <= gpu_count (request j)) (jobs r) →
  length options = length (jobs r) → feasible r comp →
  cost_from r (dint 0) (zip (jobs r) options) comp = total_cost r comp.
Proof.
  intros Hp Hg Hlen [Hpl _]. apply cost_from_total; [done|]. rewrite Forall2_lookup in *. intros n.
  specialize (Hpl n). destruct (jobs r !! n) as [j|] eqn:Hj, (comp !! n) as [c|]; inversion Hpl; subst; constructor.
  rewrite Forall_forall in Hg. apply list_elem_of_lookup_2 in Hj.
  destruct (choice_cost_nonneg r j c Hp (Hg j Hj) Hj) as (x & Hx & _); eauto.
Qed.

(** What a result says about the request *)
Definition result_ok (r : ScheduleInput) (o : OptimizationResult) : Prop :=
  match opt_plan o with
  | Some p => ∃ choices, feasible r choices ∧ allocations p = allocations_of r choices ∧
      validate_plan r p = Ok tt ∧ (dval (estimated_cost p) == dval (total_cost r choices))%Q ∧
      (opt_status o = "feasible_timeout" ∨
       opt_status o = "optimal" ∧ ∀ choices', feasible r choices' → (dval (total_cost r choices) <= dval (total_cost r choices'))%Q)
  | None => opt_status o = "timeout" ∨ opt_status o = "infeasible" ∧ ∀ choices, ¬ feasible r choices
  end.

(** The part of [optimize] after the search *)
Lemma optimize_after_search expired hash r options : well_formed r → priceable r →
  mapM_result (job_options r) (jobs r) = Ok options →
  Forall2 (λ j o, ∀ c, c ∈ o ↔ placement r j c) (jobs r) options →
  omap (λ jo : Job * list (list Z), match jo.2 with [] => Some (job_id jo.1) | _ => None end) (zip (jobs r) options) = [] →
  ∃ o, optimize expired hash r = Ok o ∧ result_ok r o ∧
    ((∀ k, expired k = false) → opt_status o = "optimal" ∨ opt_status o = "infeasible").
Proof.
  intros Hwf Hp Hopt Ho Hempty. unfold optimize. munfold. rewrite Hopt, Hempty.
  pose proof (wf_gpus _ Hwf) as Hg. pose proof (Forall2_length _ _ _ Ho) as Hlen.
  destruct (search_spec expired r (zip (jobs r) options) (slot_map gpu_capacity (slots r)) [] (dint 0) (MkSearch None false 0))
    as (st & -> & [_ Hclock Hbest _ Hoptimal]); [by apply options_priced|by exists (dint 0)|]. simpl in Hclock, Hbest.
  assert (timed_out st = false → ∀ comp, feasible r comp →
    ∃ b chs, best st = Some (b, chs) ∧ (dval b <= dval (total_cost r comp))%Q) as Hall.
  { intros Hto comp Hf. rewrite <- (feasible_cost r options comp Hp Hg ltac:(done) Hf). apply Hoptimal; [done|].
    by apply completes_feasible. }
  destruct (best st) as [[b chs]|].
  - destruct Hbest as [|(comp & Hc & [= -> ->])]; [done|]. apply (completes_feasible r options) in Hc as Hf; [|done|done].
    rewrite (feasible_cost r options comp Hp Hg ltac:(done) Hf) in *. simpl.
    destruct (plan_energy_ok r (zip (jobs r) comp)) as [e ->]; [apply Forall2_zip, Hf|].
    set (plan := MkSchedulePlan _ _ _ _ _ _ _ _).
    assert (validate_plan r plan = Ok tt) as Hv by (by apply (feasible_validates r comp)). rewrite Hv.
    eexists. split; [done|]. split; simpl.
    + exists comp. split_and!; try done.
      * simpl. destruct (dbool (total_cost r comp)) eqn:Ez; [done|]. symmetry. apply dval_zero_iff.
        unfold dbool in Ez. bprop. lia.
      * destruct (timed_out st); [by left|right]. split; [done|]. intros comp' Hf'.
        destruct (Hall eq_refl comp' Hf') as (b & chs & [= <- <-] & Hle). done.
    + intros Hn. rewrite (Hclock Hn). by left.
  - eexists. split; [done|]. split.
    + unfold result_ok. destruct (timed_out st); simpl; [by left|right]. split; [done|]. intros comp Hf.
      by destruct (Hall eq_refl comp Hf) as (b & chs & [=] & _).
    + intros Hn. rewrite (Hclock Hn). by right.
Qed.

(** A job without a placement leaves no feasible assignment. *)
Lemma no_window_infeasible r options id ids : Forall2 (λ j o, ∀ c, c ∈ o ↔ placement r j c) (jobs r) options →
  omap (λ jo : Job * list (list Z), match jo.2 with [] => Some (job_id jo.1) | _ => None end) (zip (jobs r) options) = id :: ids →
  ∀ choices, ¬ feasible r choices.
Proof.
  set (f := λ jo : Job * list (list Z), match jo.2 with [] => Some (job_id jo.1) | _ => None end). intros Ho Hempty comp [Hpl _].
  assert (id ∈ omap f (zip (jobs r) options)) as Hin by (rewrite Hempty; left).
  apply list_elem_of_omap in Hin as ([j o] & Hin & Hid). unfold f in Hid. simpl in Hid. destruct o; [|done].
  pose proof (proj1 (Forall_forall _ _) (Forall2_zip _ _ _ Ho) _ Hin) as Hno. simpl in Hno.
  destruct (list_elem_of_lookup_1 _ _ (elem_of_zip_l _ _ _ _ Hin)) as [n Hn].
  destruct (Forall2_lookup_l _ _ _ _ _ Hpl Hn) as (c & _ & Hc). apply Hno in Hc. by apply elem_of_nil in Hc.
Qed.

Lemma optimize_result (expired : nat → bool) (hash : ScheduleInput → string) (r : ScheduleInput)
    (Hwf : well_formed r) (Hp : priceable r) :
  ∃ o, optimize expired hash r = Ok o ∧ result_ok r o ∧
    ((∀ k, expired k = false) → opt_status o = "optimal" ∨ opt_status o = "infeasible").
Proof.
  destruct (all_options r (wf_index r Hwf) Hp) as (options & Hopt & Ho).
  set (f := λ jo : Job * list (list Z), match jo.2 with [] => Some (job_id jo.1) | _ => None end).
  destruct (omap f (zip (jobs r) options)) as [|id ids] eqn:Hempty; [by eapply optimize_after_search|].
  unfold optimize. munfold. rewrite Hopt. fold f. rewrite Hempty. eexists. split; [done|]. split; [right|by right].
  split; [done|]. by eapply no_window_infeasible.
Qed.

(** ** Properties *)

(** C1: The exact optimizer is exact.  On a well-formed request with non-negative prices, powers and
    runtimes it always returns a result, whatever the clock does.  A plan it returns is a feasible
    assignment (one placement per job, capacities respected) that passes [validate_plan], priced at its
    total cost; with status "optimal" no feasible assignment costs less, all costs taken in the decimal
    context of the code.  Status "infeasible" means that no feasible assignment exists.  If the timeout
    never expires, the status is one of these two. *)
Theorem optimize_exact (expired : nat → bool) (hash : ScheduleInput → string) (r : ScheduleInput)
    (Hwf : well_formed r) (Hp : priceable r) :
  ∃ o, optimize expired hash r = Ok o ∧ result_ok r o ∧
    ((∀ k, expired k = false) → opt_status o = "optimal" ∨ opt_status o = "infeasible").
Proof. by apply optimize_result. Qed.

Lemma sample_priceable : priceable sample_input.
Proof. split; repeat constructor; done. Qed.

Lemma optimize_exact_witness :
  result_ok sample_input
    (MkResult "optimal" (Some (MkSchedulePlan "exact_co_optimizer"
       [MkAllocation "job-a" [1; 2] 3 "MIN_TOTAL_COST"; MkAllocation "job-b" [0] 2 "MIN_TOTAL_COST"] []
       (dint 8) (Dec 250 (-2)) ["perfect slot forecast"; "single-site bounded MVP"] [] "h"))
     [("energy_cost", Dec 250 (-2)); ("delay", dint 0)] "exact-enumeration" (dint 0)
     ["perfect slot forecast"; "single-site bounded MVP"] []).
Proof.
  destruct (optimize_exact (λ _, false) (λ _, "h") sample_input sample_well_formed sample_priceable) as (o & Ho & Hr & _).
  vm_compute in Ho. injection Ho as <-. exact Hr.
Defined.

(** Two jobs, two slots with room for one of them each; the first slot has a negative price. *)
Definition negative_price_input : ScheduleInput :=
  let job id power := MkJob id "ten_acme" "prj" TRAINING (MkResourceRequest 1 None 4 (dint 64) (dint 1) (dint power))
    (MkSla (DT 10800000000 true) 50 None None) (DT 0 true) ∅ ∅ [] true [] in
  let slot i price := MkTimeSlot i (DT (i * 3600000000) true) (dint 1) 1 (dint 100) (dint price) (dint 0) in
  MkScheduleInput [job "job-a" 1; job "job-b" 10] [slot 0 (-1); slot 1 0] 1 "f1" "none".

Lemma negative_price_feasible : feasible negative_price_input [[1]; [0]].
Proof.
  split.
  - constructor; [|constructor; [|constructor]]; split;
      [repeat constructor| |eexists _, _; split; reflexivity|by left|repeat constructor| |eexists _, _; split; reflexivity|by left];
      (constructor; [|constructor]); [exists 1%nat|exists 0%nat]; eexists; (split; [|split]); reflexivity.
  - intros [|[|n]] s Hn; simpl in Hn; try (injection Hn as <-; by vm_compute). done.
Qed.

(** Non-negative prices are needed.  With a negative price the search prunes too early: the running
    cost of a prefix is not a lower bound on its completions.  On this request, with a clock that never
    expires, the optimizer reports a plan of cost -1 as "optimal" while a feasible assignment costs -10. *)
Theorem negative_prices_break_optimality :
  ∃ o p, optimize (λ _, false) (λ _, "h") negative_price_input = Ok o ∧ opt_status o = "optimal" ∧ opt_plan o = Some p ∧
    dval (estimated_cost p) == -1 ∧
    ∃ choices, feasible negative_price_input choices ∧ dval (total_cost negative_price_input choices) == -10.
Proof.
  eexists _, _. split; [by vm_compute|]. split; [reflexivity|]. split; [reflexivity|]. split; [reflexivity|].
  exists [[1]; [0]]. split; [apply negative_price_feasible|reflexivity].
Qed.
