(* ===== verification/Highs.v ===== *)
(** * HiGHS backend: [packages/optimization/solvers.py]

    [HighsSolver.solve] writes a time-indexed binary program, one column for each placement of each job, hands it to
    HiGHS and reads a plan back from the columns.  HiGHS is the parameter [highs], from the program (costs and rows in
    compressed form) to an answer; its options and [writeModel] are part of it.  The numbers of an answer that the code
    reads as [Decimal(str(x))] are given as decimals, and its column values as doubles; infinities and NaN among them
    are not modelled, nor are runtimes.  The theorems hold for any solver, or for one that keeps the contract [highs_law]. *)
From S2P Require Import Prelude PyDecimal PyFloat Domain Workloads Scheduling Optimizer.
From Stdlib Require Import QArith Lqa Qabs Qround.
Local Open Scope Z_scope.

(** [float(int)], and the value of a double *)
Definition f64_of_int (n : Z) : bin := f64_q n 1.
Definition bval (b : bin) : Q := bin_num b # Z.to_pos (bin_den b).

(** ** The program *)

(** A column: job index, option index, and the slots of that option *)
Definition variable : Type := nat * nat * list Z.
Definition var_job (v : variable) : nat := v.1.1.
Definition var_choice (v : variable) : list Z := v.2.

Definition job_variables (ji : nat) (choices : list (list Z)) : list variable := imap (λ oi c, (ji, oi, c)) choices.
Definition variables_from (d : nat) (options : list (list (list Z))) : list variable := concat (imap (λ i, job_variables (d + i)) options).
Definition variables (options : list (list (list Z))) : list variable := variables_from 0 options.

(** [{(job_index, option_index): index for index, ... in enumerate(variables)}]: a later entry wins *)
Definition variable_index (vars : list variable) : gmap (nat * nat) nat := list_to_map (rev (imap (λ k v, (v.1, k)) vars)).

(** [lower], [upper], [row_indices], [row_values], [row_starts]; [None] is [-kHighsInf] *)
Record rows := MkRows {
  m_lower : list (option bin); m_upper : list bin; m_indices : list nat; m_values : list bin; m_starts : list nat
}.
Definition no_rows : rows := MkRows [] [] [] [] [0%nat].

Definition add_row (m : rows) (lo : option bin) (up : bin) (entries : list (nat * bin)) : rows :=
  let indices := m_indices m ++ entries.*1 in
  MkRows (m_lower m ++ [lo]) (m_upper m ++ [up]) indices (m_values m ++ entries.*2) (m_starts m ++ [length indices]).

(** The columns for which [f] gives a coefficient, in order *)
Definition entries_where (f : variable → option bin) (vars : list variable) : list (nat * bin) :=
  omap (λ kv : nat * variable, pair kv.1 <$> f kv.2) (imap pair vars).

Definition job_entries (idx : gmap (nat * nat) nat) (ji : nat) (choices : list (list Z)) : result (list (nat * bin)) :=
  mapM_result (λ oi, k ← of_option (KeyError "variable_index") (idx !! (ji, oi)); Ok (k, f64_of_int 1)) (seq 0 (length choices)).

(** The job of a column is one of the request, so that [request.jobs[job_index]] is never out of range. *)
Definition slot_coefficient (r : ScheduleInput) (value : Job → bin) (s : TimeSlot) (v : variable) : option bin :=
  if bool_decide (index s ∈ var_choice v) then value <$> jobs r !! var_job v else None.
Definition gpu_value (j : Job) : bin := f64_of_int (gpu_count (request j)).
Definition power_value (j : Job) : bin := f64_of_dec (dmul (dint (gpu_count (request j))) (power_kw_per_gpu (request j))).

Definition add_job_row (idx : gmap (nat * nat) nat) (m : rows) (jc : nat * list (list Z)) : result rows :=
  e ← job_entries idx jc.1 jc.2; Ok (add_row m (Some (f64_of_int 1)) (f64_of_int 1) e).
Definition add_slot_row (r : ScheduleInput) (vars : list variable) (value : Job → bin) (limit : TimeSlot → bin) (m : rows) (s : TimeSlot) : rows :=
  add_row m None (limit s) (entries_where (slot_coefficient r value s) vars).

Definition gpu_limit (s : TimeSlot) : bin := f64_of_int (gpu_capacity s).
Definition power_limit (s : TimeSlot) : bin := f64_of_dec (power_capacity_kw s).

Definition build_rows (r : ScheduleInput) (options : list (list (list Z))) : result rows :=
  let vars := variables options in
  m ← foldM_result (add_job_row (variable_index vars)) (imap pair options) no_rows;
  let m := foldl (add_slot_row r vars gpu_value gpu_limit) m (slots r) in
  Ok (foldl (add_slot_row r vars power_value power_limit) m (slots r)).

Definition column_cost (r : ScheduleInput) (v : variable) : result bin :=
  j ← of_option IndexError (jobs r !! var_job v);
  c ← choice_cost r j (var_choice v);
  Ok (f64_of_dec c).

Record milp := MkMilp { m_costs : list bin; m_rows : rows }.

Definition build_model (r : ScheduleInput) (options : list (list (list Z))) : result milp :=
  costs ← mapM_result (column_cost r) (variables options);
  m ← build_rows r options;
  Ok (MkMilp costs m).

(** ** The answer and the plan *)

Inductive HighsModelStatus := kOptimal | kTimeLimit | kInfeasible | kOther.

Record answer := MkAnswer {
  a_status : HighsModelStatus; a_status_text : string; a_version : string;
  a_values : list bin; a_objective : dec; a_gap : dec
}.

(** [solution.col_value[variable] > 0.5] *)
Definition above_half (b : bin) : bool := bin_den b <? 2 * bin_num b.

Definition select (values : list bin) (selected : gmap nat (list Z)) (kv : nat * variable) : result (gmap nat (list Z)) :=
  x ← of_option IndexError (values !! kv.1);
  Ok (if above_half x then <[var_job kv.2 := var_choice kv.2]> selected else selected).
Definition selected_choices (values : list bin) (vars : list variable) : result (gmap nat (list Z)) :=
  foldM_result (select values) (imap pair vars) ∅.

Definition without_window (r : ScheduleInput) (options : list (list (list Z))) : list string :=
  omap (λ jo : Job * list (list Z), match jo.2 with [] => Some (job_id jo.1) | _ => None end) (zip (jobs r) options).

Section solve.
Context (content_hash : ScheduleInput → string).

Definition highs_plan (r : ScheduleInput) (a : answer) (choices : list (list Z)) (energy_ : dec) : SchedulePlan :=
  MkSchedulePlan "milp_highs" (allocations_of r choices) [] energy_ (a_objective a) ["time-indexed binary MILP"] [] (content_hash r).

(** From [highs.getSolution()] on *)
Definition read_solution (r : ScheduleInput) (options : list (list (list Z))) (a : answer) : result OptimizationResult :=
  selected ← selected_choices (a_values a) (variables options);
  if negb (size selected =? length (jobs r))%nat
  then Ok (MkResult "timeout" None [] ("highs-" +:+ a_version a) (a_gap a) [] ["NO_INTEGER_INCUMBENT"])
  else
    choices ← mapM_result (λ ji, of_option (KeyError "index") (selected !! ji)) (seq 0 (length (jobs r)));
    energy_ ← plan_energy r (zip (jobs r) choices);
    let plan := highs_plan r a choices energy_ in
    validate_plan r plan;;
    Ok (MkResult (match a_status a with kOptimal => "optimal" | _ => "feasible_timeout" end) (Some plan)
          [("energy_cost", a_objective a); ("delay", dint 0)] ("highs-" +:+ a_version a) (a_gap a) (assumptions plan) []).

(** [HighsSolver.solve]; [None] when [highspy] cannot be imported *)
Definition highs_solve (solver : option (milp → answer)) (r : ScheduleInput) : result OptimizationResult :=
  highs ← of_option (RuntimeError "HiGHS is not installed; no silent solver fallback is permitted") solver;
  options ← mapM_result (job_options r) (jobs r);
  match without_window r options with
  | _ :: _ as empty => Ok (MkResult "infeasible" None [] "highs" (dint 0) [] (map (String.append "JOB_NO_FEASIBLE_WINDOW:") empty))
  | [] =>
      model ← build_model r options;
      let a := highs model in
      let stopped status := Ok (MkResult status None [] ("highs-" +:+ a_version a) (dint 0) [] ["HIGHS_STATUS:" +:+ a_status_text a]) in
      match a_status a with
      | kOptimal | kTimeLimit => read_solution r options a
      | kInfeasible => stopped "infeasible"
      | kOther => stopped "failed"
      end
  end.
End solve.

(** ** What the program means *)

(** The entries of row [i] in the compressed form *)
Definition row_entries (m : rows) (i : nat) : list (nat * bin) :=
  match m_starts m !! i, m_starts m !! S i with
  | Some a, Some b => take (b - a) (drop a (zip (m_indices m) (m_values m)))
  | _, _ => []
  end.

Definition dot (entries : list (nat * bin)) (x : list Z) : Q :=
  foldr (λ e q, bval e.2 * inject_Z (x !!! e.1) + q)%Q 0%Q entries.

Definition row_within (tol : Q) (m : rows) (i : nat) (x : list Z) : Prop :=
  (∀ lo, m_lower m !! i = Some (Some lo) → (bval lo - tol <= dot (row_entries m i) x)%Q) ∧
  (∀ up, m_upper m !! i = Some up → (dot (row_entries m i) x <= bval up + tol)%Q).

(** A 0/1 vector that keeps every row, up to [tol] *)
Definition satisfies (tol : Q) (p : milp) (x : list Z) : Prop :=
  length x = length (m_costs p) ∧ Forall (λ k, k = 0 ∨ k = 1) x ∧ ∀ i, row_within tol (m_rows p) i x.

Definition objective (p : milp) (x : list Z) : Q := dot (imap pair (m_costs p)) x.

(** What HiGHS documents: an answer "optimal" is a 0/1 vector up to the integrality tolerance that keeps the rows up to
    the feasibility tolerance, and no vector that keeps them is cheaper by more than the absolute or relative gap at which the search stops;
    a program that is reported infeasible has no solution. *)
Record highs_law (tol abs_gap rel_gap : Q) (highs : milp → answer) : Prop := {
  law_optimal : ∀ p, a_status (highs p) = kOptimal →
    ∃ x, satisfies tol p x ∧ Forall2 (λ b k, Qabs (bval b - inject_Z k) < 1 # 2)%Q (a_values (highs p)) x ∧
      ∀ y, satisfies 0 p y → (objective p x <= objective p y + (abs_gap + rel_gap * Qabs (objective p x)))%Q;
  law_infeasible : ∀ p, a_status (highs p) = kInfeasible → ∀ y, ¬ satisfies 0 p y
}.

(** The load of an assignment on slot [i] and its cost, as the doubles of the program *)
Definition jobs_sum (g : Job → list Z → Q) (js : list Job) (choices : list (list Z)) : Q :=
  foldr (λ jc q, g jc.1 jc.2 + q)%Q 0%Q (zip js choices).
Definition at_slot (value : Job → bin) (i : Z) (j : Job) (c : list Z) : Q := if bool_decide (i ∈ c) then bval (value j) else 0%Q.
Definition powered (tol : Q) (r : ScheduleInput) (choices : list (list Z)) : Prop :=
  ∀ n s, slots r !! n = Some s →
    (jobs_sum (at_slot power_value (Z.of_nat n)) (jobs r) choices <= bval (power_limit s) + tol)%Q.
Definition job_float_cost (r : ScheduleInput) (j : Job) (c : list Z) : Q := bval (f64_of_dec (cost_or_zero r (j, c))).
Definition float_cost (r : ScheduleInput) (choices : list (list Z)) : Q := jobs_sum (job_float_cost r) (jobs r) choices.

(** GPU counts and capacities that a double holds exactly *)
Definition small_gpus (r : ScheduleInput) : Prop :=
  Forall (λ j, gpu_count (request j) < 2 ^ 53) (jobs r) ∧ Forall (λ s, gpu_capacity s < 2 ^ 53) (slots r).

Lemma bval_den_pos b : 0 < bin_den b.
Proof. apply Z.pow_pos_nonneg; lia. Qed.

Lemma f64_int_exact n : 0 <= n < 2 ^ 53 → (bval (f64_of_int n) == inject_Z n)%Q.
Proof.
  intros Hn. unfold f64_of_int, f64_q. rewrite (proj2 (Z.ltb_ge n 0)) by lia. unfold f64_pos.
  destruct (Z.eqb_spec n 0) as [->|Hnz]; [done|]. change (Z.log2 1) with 0. rewrite Z.sub_0_r.
  destruct (Z.log2_spec n ltac:(lia)) as [Hl _]. pose proof (Z.log2_nonneg n).
  assert (Z.log2 n < 53) by (apply Z.log2_lt_pow2; lia). set (e := Z.log2 n - 52) in *. cbv zeta.
  rewrite (Z.max_l 0 e), (Z.max_r 0 (- e)) by lia. rewrite Z.pow_0_r, Z.mul_1_l.
  assert (2 ^ 52 <= n * 2 ^ (- e)) as Hge.
  { transitivity (2 ^ Z.log2 n * 2 ^ (- e)); [|apply Z.mul_le_mono_nonneg_r; [apply Z.pow_nonneg; lia|done]].
    rewrite <- Z.pow_add_r by lia. apply Z.pow_le_mono_r; lia. }
  rewrite (proj2 (Z.ltb_ge _ _)) by lia. rewrite (Z.max_l 0 e), (Z.max_r 0 (- e)) by lia.
  rewrite Z.pow_0_r, Z.mul_1_r. pose proof (half_even_exact (n * 2 ^ (- e)) 1 ltac:(lia)) as Hh. rewrite Z.mul_1_r in Hh. rewrite Hh.
  unfold bval, bin_num, bin_den. simpl bman. simpl bexp. rewrite (Z.max_l 0 e), (Z.max_r 0 (- e)) by lia.
  assert (0 < 2 ^ (- e)) by (apply Z.pow_pos_nonneg; lia). unfold Qeq. simpl. rewrite Z2Pos.id by done. lia.
Qed.

(** *** The compressed rows *)

Definition row : Type := option bin * bin * list (nat * bin).
Definition add_rows (l : list row) : rows := foldl (λ m w, add_row m w.1.1 w.1.2 w.2) no_rows l.

Lemma add_rows_snoc l w : add_rows (l ++ [w]) = add_row (add_rows l) w.1.1 w.1.2 w.2.
Proof. unfold add_rows. by rewrite foldl_app. Qed.

Lemma add_rows_shape l :
  m_lower (add_rows l) = map (λ w : row, w.1.1) l ∧ m_upper (add_rows l) = map (λ w : row, w.1.2) l ∧
  length (m_indices (add_rows l)) = length (m_values (add_rows l)) ∧ length (m_starts (add_rows l)) = S (length l) ∧
  m_starts (add_rows l) !! length l = Some (length (m_indices (add_rows l))) ∧
  Forall (λ a, a <= length (m_indices (add_rows l)))%nat (m_starts (add_rows l)).
Proof.
  induction l as [|w l (H1 & H2 & H3 & H4 & H5 & H6)] using rev_ind; [by repeat constructor|]. rewrite add_rows_snoc. unfold add_row. cbn [m_lower m_upper m_indices m_values m_starts].
  rewrite !map_app, H1, H2, !length_app, !length_fmap, H3, H4. split_and!; [done|done|lia|simpl; lia| |].
  - rewrite lookup_app_r by (rewrite H4; simpl; lia). rewrite H4. by replace (length l + length [w] - S (length l))%nat with 0%nat by (simpl; lia).
  - apply Forall_app. split; [|repeat constructor; simpl; lia]. eapply Forall_impl; [exact H6|]. simpl. intros a. lia.
Qed.

(** Row [i] is the [i]-th row that was added. *)
Lemma add_rows_entries l : ∀ i (w : row), l !! i = Some w → row_entries (add_rows l) i = w.2.
Proof.
  induction l as [|w l IH] using rev_ind; intros i w' Hi; [done|].
  destruct (add_rows_shape l) as (_ & _ & H3 & H4 & H5 & H6). rewrite Forall_forall in H6.
  rewrite add_rows_snoc. unfold row_entries, add_row. cbn [m_indices m_values m_starts].
  assert (zip (m_indices (add_rows l) ++ w.2.*1) (m_values (add_rows l) ++ w.2.*2) =
    zip (m_indices (add_rows l)) (m_values (add_rows l)) ++ w.2) as Hz.
  { rewrite zip_with_app by done. f_equal. apply zip_fst_snd. }
  rewrite Hz. assert (length (zip (m_indices (add_rows l)) (m_values (add_rows l))) = length (m_indices (add_rows l))) as Hlen
    by (rewrite length_zip_with; lia).
  apply lookup_app_Some in Hi as [Hi|[Hge Hi]].
  - pose proof (lookup_lt_Some _ _ _ Hi) as Hlt. rewrite !lookup_app_l by lia. specialize (IH i w' Hi). unfold row_entries in IH.
    destruct (m_starts (add_rows l) !! i) as [a|] eqn:Ea; [|apply lookup_ge_None in Ea; lia].
    destruct (m_starts (add_rows l) !! S i) as [b|] eqn:Eb; [|apply lookup_ge_None in Eb; lia].
    apply list_elem_of_lookup_2 in Ea, Eb. apply H6 in Ea, Eb. rewrite drop_app_le, take_app_le; [done| |lia]. rewrite length_drop. lia.
  - destruct (i - length l)%nat as [|k] eqn:Ek; [|done]. injection Hi as <-. replace i with (length l) by lia.
    rewrite lookup_app_l, H5 by (rewrite H4; lia). rewrite lookup_app_r by (rewrite H4; lia). rewrite H4, Nat.sub_diag. cbn [lookup list_lookup].
    rewrite length_app, length_fmap, drop_app_length' by done. rewrite take_ge; [done|lia].
Qed.

(** *** Sums over the columns *)

Definition coefficient (o : option bin) : Q := match o with Some b => bval b | None => 0%Q end.
Definition vars_sum (f : variable → Q) (vars : list variable) (x : list Z) : Q :=
  foldr (λ vk q, f vk.1 * inject_Z vk.2 + q)%Q 0%Q (zip vars x).

Lemma dot_where_from f vars : ∀ (pre x : list Z), length x = length vars →
  (dot (omap (λ kv : nat * variable, pair kv.1 <$> f kv.2) (imap (λ k v, ((length pre + k)%nat, v)) vars)) (pre ++ x)
   == vars_sum (λ v, coefficient (f v)) vars x)%Q.
Proof.
  induction vars as [|v vars IH]; intros pre [|k x] Hx; [done|done|done|]. injection Hx as Hx. rewrite imap_cons.
  specialize (IH (pre ++ [k]) x Hx). rewrite <- (assoc_L (++)) in IH. simpl in IH.
  rewrite (imap_ext _ ((λ i v0, ((length pre + i)%nat, v0)) ∘ S)) in IH by (intros i v0 _; rewrite length_app; simpl; f_equal; lia).
  unfold vars_sum. cbn [zip zip_with foldr fst snd]. fold (vars_sum (λ v, coefficient (f v)) vars x). rewrite <- IH.
  cbn [omap list_omap fst snd]. destruct (f v) as [b|]; simpl; [|ring].
  rewrite Nat.add_0_r, list_lookup_total_middle by done. reflexivity.
Qed.

Lemma dot_where f vars x : length x = length vars → (dot (entries_where f vars) x == vars_sum (λ v, coefficient (f v)) vars x)%Q.
Proof. intros Hx. exact (dot_where_from f vars [] x Hx). Qed.

Lemma vars_sum_app f v1 v2 x1 x2 : length x1 = length v1 →
  (vars_sum f (v1 ++ v2) (x1 ++ x2) == vars_sum f v1 x1 + vars_sum f v2 x2)%Q.
Proof.
  revert x1. induction v1 as [|v v1 IH]; intros [|k x1] Hx; try done; [simpl; unfold vars_sum at 2; simpl; ring|].
  injection Hx as Hx. unfold vars_sum in *. simpl. rewrite IH by done. ring.
Qed.

Lemma vars_sum_ext f g vars x : Forall (λ v, (f v == g v)%Q) vars → (vars_sum f vars x == vars_sum g vars x)%Q.
Proof.
  intros H. revert x. induction H as [|v vars Hv _ IH]; intros [|k x]; try done. unfold vars_sum in *. simpl. by rewrite Hv, IH.
Qed.

Lemma vars_sum_zero f vars x : Forall (λ v, (f v == 0)%Q) vars → (vars_sum f vars x == 0)%Q.
Proof. intros H. revert x. induction H as [|v vars Hv _ IH]; intros [|k x]; try done. unfold vars_sum in *. simpl. rewrite Hv, IH. ring. Qed.

Lemma vars_sum_zeros f vars n : (vars_sum f vars (replicate n 0%Z) == 0)%Q.
Proof. revert n. induction vars as [|v vars IH]; intros [|n]; try done. unfold vars_sum in *. simpl. rewrite IH. ring. Qed.

Definition zsum (x : list Z) : Z := foldr Z.add 0 x.
Lemma vars_sum_one f vars x : Forall (λ v, (f v == 1)%Q) vars → length x = length vars → (vars_sum f vars x == inject_Z (zsum x))%Q.
Proof.
  intros H. revert x. induction H as [|v vars Hv _ IH]; intros [|k x] Hx; try done. injection Hx as Hx. unfold vars_sum, zsum in *. simpl.
  rewrite Hv, IH, inject_Z_plus by done. ring.
Qed.

(** *** One option per job *)

Definition hot (n o : nat) : list Z := <[o := 1]> (replicate n 0).
Definition encode (options : list (list (list Z))) (picks : list nat) : list Z :=
  concat (zip_with (λ cs o, hot (length cs) o) options picks).
Definition picked (options : list (list (list Z))) (picks : list nat) : list (list Z) := zip_with (λ cs o, cs !!! o) options picks.
Definition picks_of (options : list (list (list Z))) (picks : list nat) : Prop := Forall2 (λ cs o, o < length cs)%nat options picks.

Lemma length_hot n o : length (hot n o) = n.
Proof. unfold hot. by rewrite length_insert, length_replicate. Qed.
Lemma hot_binary n o : Forall (λ k, k = 0 ∨ k = 1) (hot n o).
Proof. apply Forall_insert; [|by right]. apply Forall_replicate. by left. Qed.

Lemma vars_sum_hot f vars o v : vars !! o = Some v → (vars_sum f vars (hot (length vars) o) == f v)%Q.
Proof.
  intros Ho. pose proof (lookup_lt_Some _ _ _ Ho) as Hlt. unfold hot. rewrite insert_take_drop by by rewrite length_replicate.
  rewrite <- (take_drop_middle vars o v Ho) at 1. rewrite take_replicate, drop_replicate, vars_sum_app by (rewrite length_replicate, length_take; lia).
  rewrite vars_sum_zeros. unfold vars_sum. cbn [zip zip_with foldr fst snd]. fold (vars_sum f (drop (S o) vars) (replicate (length vars - S o) 0)).
  rewrite vars_sum_zeros. ring.
Qed.

Lemma zeros_of xs : Forall (λ k, k = 0 ∨ k = 1) xs → 0 <= zsum xs ∧ (zsum xs = 0 → xs = replicate (length xs) 0).
Proof.
  induction 1 as [|k xs Hk _ [IH0 IH]]; [done|]. unfold zsum in *. simpl. split; [lia|]. intros Hz.
  rewrite <- IH by lia. f_equal. lia.
Qed.

Lemma one_hot xs : Forall (λ k, k = 0 ∨ k = 1) xs → zsum xs = 1 → ∃ o, (o < length xs)%nat ∧ xs = hot (length xs) o.
Proof.
  induction 1 as [|k xs Hk Hxs IH]; [done|]. intros Hs. unfold zsum in *. simpl in Hs. destruct (zeros_of xs Hxs) as [H0 Hz]. unfold zsum in *.
  destruct Hk as [->| ->].
  - destruct (IH Hs) as (o & Ho & He). exists (S o). simpl. split; [lia|]. rewrite He at 1. done.
  - exists 0%nat. simpl. split; [lia|]. unfold hot. simpl. f_equal. apply Hz. lia.
Qed.

Lemma variables_cons d cs os : variables_from d (cs :: os) = job_variables d cs ++ variables_from (S d) os.
Proof.
  unfold variables_from. rewrite imap_cons. simpl. rewrite Nat.add_0_r. f_equal. f_equal. apply imap_ext. intros i c _. simpl. by rewrite Nat.add_succ_r.
Qed.
Lemma length_job_variables d cs : length (job_variables d cs) = length cs.
Proof. apply length_imap. Qed.
Lemma job_variables_job d cs : Forall (λ v, var_job v = d) (job_variables d cs).
Proof. apply Forall_forall. by intros v (i & c & -> & _)%elem_of_lookup_imap. Qed.
Lemma variables_jobs options : ∀ d, Forall (λ v, d <= var_job v)%nat (variables_from d options).
Proof.
  induction options as [|cs os IH]; intros d; [constructor|]. rewrite variables_cons. apply Forall_app. split.
  - eapply Forall_impl; [apply job_variables_job|]. simpl. lia.
  - eapply Forall_impl; [apply IH|]. simpl. lia.
Qed.

Lemma length_encode options picks : picks_of options picks → ∀ d, length (encode options picks) = length (variables_from d options).
Proof.
  induction 1 as [|cs o os ps Ho _ IH]; intros d; [done|]. rewrite variables_cons. unfold encode in *. simpl.
  by rewrite !length_app, length_hot, length_job_variables, (IH (S d)).
Qed.
Lemma encode_binary options picks : Forall (λ k, k = 0 ∨ k = 1) (encode options picks).
Proof.
  unfold encode. apply Forall_concat, Forall_forall. intros l [i Hi]%list_elem_of_lookup.
  apply lookup_zip_with_Some in Hi as (cs & o & -> & _). apply hot_binary.
Qed.

(** The coefficients of the row of job [i] *)
Definition job_coefficient (i : nat) (v : variable) : option bin := if bool_decide (var_job v = i) then Some (f64_of_int 1) else None.
Definition job_share (i : nat) (v : variable) : Q := coefficient (job_coefficient i v).

Lemma job_share_same i v : var_job v = i → (job_share i v == 1)%Q.
Proof. intros H. unfold job_share, job_coefficient. rewrite bool_decide_true by done. by apply (f64_int_exact 1). Qed.
Lemma job_share_other i v : var_job v ≠ i → (job_share i v == 0)%Q.
Proof. intros H. unfold job_share, job_coefficient. by rewrite bool_decide_false. Qed.

Lemma block_sum d i cs x : length x = length cs →
  (vars_sum (job_share (d + i)) (job_variables d cs) x == if bool_decide (i = 0%nat) then inject_Z (zsum x) else 0)%Q.
Proof.
  intros Hx. case_bool_decide as Hi.
  - subst i. rewrite Nat.add_0_r. apply vars_sum_one; [|by rewrite length_job_variables].
    eapply Forall_impl; [apply job_variables_job|]. intros v. apply job_share_same.
  - apply vars_sum_zero. eapply Forall_impl; [apply job_variables_job|]. intros v Hv. simpl in Hv. apply job_share_other. lia.
Qed.

(** A job row over the columns of a job and of the later ones *)
Lemma job_row_cons d i cs os x1 x2 : length x1 = length cs →
  (vars_sum (job_share (d + i)) (variables_from d (cs :: os)) (x1 ++ x2) ==
   match i with O => inject_Z (zsum x1) | S i' => vars_sum (job_share (S d + i')) (variables_from (S d) os) x2 end)%Q.
Proof.
  intros Hx. rewrite variables_cons, vars_sum_app by by rewrite length_job_variables. rewrite block_sum by done. destruct i as [|i].
  - rewrite bool_decide_true by done. rewrite (vars_sum_zero (job_share (d + 0))); [ring|].
    eapply Forall_impl; [apply variables_jobs|]. intros v Hv. apply job_share_other. simpl in Hv. lia.
  - rewrite bool_decide_false by done. rewrite Nat.add_succ_r. simpl. ring.
Qed.

Lemma zsum_hot n o : (o < n)%nat → zsum (hot n o) = 1.
Proof.
  intros Ho. unfold hot. rewrite insert_take_drop by by rewrite length_replicate. rewrite take_replicate, drop_replicate. unfold zsum.
  assert (∀ k a, foldr Z.add a (replicate k 0) = a) as H0 by (intros k a; induction k as [|k IH]; simpl; [done|rewrite IH; lia]).
  rewrite foldr_app. simpl. by rewrite !H0.
Qed.

Lemma encode_job_rows options picks : picks_of options picks → ∀ d i, (i < length options)%nat →
  (vars_sum (job_share (d + i)) (variables_from d options) (encode options picks) == 1)%Q.
Proof.
  induction 1 as [|cs o os ps Ho _ IH]; intros d i Hi; [simpl in Hi; lia|]. unfold encode in *. simpl. rewrite job_row_cons by apply length_hot.
  destruct i as [|i]; [by rewrite zsum_hot|]. apply IH. simpl in Hi. lia.
Qed.

Lemma near_one tol z : (tol < 1 # 2 → 1 - tol <= inject_Z z → inject_Z z <= 1 + tol → z = 1%Z)%Q.
Proof.
  intros Ht H1 H2. assert (inject_Z 0 < inject_Z z)%Q as H3 by (change (inject_Z 0) with 0%Q; lra). rewrite <- Zlt_Qlt in H3.
  assert (inject_Z z < inject_Z 2)%Q as H4 by (change (inject_Z 2) with (2 # 1)%Q; lra). rewrite <- Zlt_Qlt in H4. lia.
Qed.

(** A 0/1 vector that keeps the job rows picks one option for each job. *)
Lemma job_rows_picks tol options : (tol < 1 # 2)%Q → ∀ d x, length x = length (variables_from d options) → Forall (λ k, k = 0 ∨ k = 1) x →
  (∀ i, (i < length options)%nat → 1 - tol <= vars_sum (job_share (d + i)) (variables_from d options) x <= 1 + tol)%Q →
  ∃ picks, picks_of options picks ∧ x = encode options picks.
Proof.
  intros Ht. induction options as [|cs os IH]; intros d x Hx Hb Hrows.
  - exists []. split; [constructor|]. by apply nil_length_inv.
  - rewrite variables_cons, length_app, length_job_variables in Hx. pose proof (take_drop (length cs) x) as Hsplit.
    set (x1 := take (length cs) x) in *. set (x2 := drop (length cs) x) in *.
    assert (length x1 = length cs) as H1 by (unfold x1; rewrite length_take; lia).
    rewrite <- Hsplit in *. apply Forall_app in Hb as [Hb1 Hb2].
    assert (zsum x1 = 1) as Hz.
    { pose proof (Hrows 0%nat ltac:(simpl; lia)) as H0. rewrite job_row_cons in H0 by done. destruct H0. by apply (near_one tol). }
    destruct (one_hot x1 Hb1 Hz) as (o & Ho & He). rewrite H1 in Ho, He.
    destruct (IH (S d) x2) as (ps & Hps & Hx2); [rewrite length_app in Hx; lia|done| |].
    + intros i Hi. pose proof (Hrows (S i) ltac:(simpl; lia)) as H. by rewrite job_row_cons in H.
    + exists (o :: ps). split; [by constructor|]. rewrite Hx2, He. done.
Qed.

Lemma vars_sum_encode f g options picks : picks_of options picks → ∀ d js,
  length js = length options → (∀ i j o c, js !! i = Some j → f ((d + i)%nat, o, c) == g j c)%Q →
  (vars_sum f (variables_from d options) (encode options picks) == jobs_sum g js (picked options picks))%Q.
Proof.
  induction 1 as [|cs o os ps Ho _ IH]; intros d [|j js] Hlen Hfg; try done. injection Hlen as Hlen.
  rewrite variables_cons. unfold encode. simpl. rewrite vars_sum_app by by rewrite length_hot, length_job_variables.
  unfold jobs_sum. simpl. fold (jobs_sum g js (picked os ps)). fold (encode os ps).
  rewrite (IH (S d) js Hlen) by (intros i j' o' c Hj; rewrite <- (Hfg (S i) j' o' c Hj), Nat.add_succ_r; reflexivity).
  assert (is_Some (cs !! o)) as [c Hc] by by apply lookup_lt_is_Some.
  rewrite <- (length_job_variables d cs), (vars_sum_hot _ _ _ (d, o, c)) by (unfold job_variables; by rewrite list_lookup_imap, Hc).
  rewrite (list_lookup_total_correct _ _ _ Hc), <- (Hfg 0%nat j o c eq_refl), Nat.add_0_r. reflexivity.
Qed.

(** *** The rows that are built *)

Lemma variables_keys options : ∀ d, NoDup (map fst (variables_from d options)).
Proof.
  induction options as [|cs os IH]; intros d; [constructor|]. rewrite variables_cons, map_app. apply NoDup_app. split_and!.
  - apply NoDup_alt. intros k1 k2 key. unfold job_variables. rewrite !list_lookup_fmap, !list_lookup_imap.
    destruct (cs !! k1), (cs !! k2); simpl; intros [= <-]; congruence.
  - intros key (v & -> & Hv)%list_elem_of_fmap (w & He & Hw)%list_elem_of_fmap. pose proof (job_variables_job d cs) as H1. pose proof (variables_jobs os (S d)) as H2.
    rewrite Forall_forall in H1, H2. apply H1 in Hv. apply H2 in Hw. unfold var_job in *. rewrite He in Hv. lia.
  - apply IH.
Qed.

Lemma index_of_variable options k v : variables options !! k = Some v → variable_index (variables options) !! v.1 = Some k.
Proof.
  intros Hk. unfold variable_index. apply elem_of_list_to_map_1.
  - rewrite <- Permutation_rev, fmap_imap. assert (imap (λ n, fst ∘ (λ v, (v.1, n))) (variables options) = map fst (variables options)) as ->; [|apply variables_keys].
    apply list_eq. intros i. by rewrite list_lookup_imap, list_lookup_fmap.
  - rewrite <- Permutation_rev. apply elem_of_lookup_imap. eauto.
Qed.

Definition entries_from (n : nat) (f : variable → option bin) (vars : list variable) : list (nat * bin) :=
  omap (λ kv : nat * variable, pair kv.1 <$> f kv.2) (imap (λ k v, ((n + k)%nat, v)) vars).

Lemma entries_from_app n f v1 v2 : entries_from n f (v1 ++ v2) = entries_from n f v1 ++ entries_from (n + length v1) f v2.
Proof. unfold entries_from. rewrite imap_app, omap_app. do 2 f_equal. apply imap_ext. intros i v _. simpl. f_equal. lia. Qed.

Lemma entries_from_none n f vars : Forall (λ v, f v = None) vars → entries_from n f vars = [].
Proof.
  intros H. revert n. induction H as [|v vars Hv _ IH]; intros n; [done|]. change (v :: vars) with ([v] ++ vars).
  rewrite entries_from_app, IH. unfold entries_from. simpl. by rewrite Hv.
Qed.

Lemma entries_from_some n f b vars : Forall (λ v, f v = Some b) vars → entries_from n f vars = map (λ k, ((n + k)%nat, b)) (seq 0 (length vars)).
Proof.
  intros H. revert n. induction H as [|v vars Hv _ IH]; intros n; [done|]. change (v :: vars) with ([v] ++ vars).
  rewrite entries_from_app, IH, length_app. simpl. rewrite <- fmap_S_seq, map_map. unfold entries_from. simpl. rewrite Hv. simpl. f_equal.
  apply map_ext. intros k. simpl. f_equal. lia.
Qed.

Lemma variables_app d o1 o2 : variables_from d (o1 ++ o2) = variables_from d o1 ++ variables_from (d + length o1) o2.
Proof.
  revert d. induction o1 as [|cs o1 IH]; intros d; simpl; [by rewrite Nat.add_0_r|]. rewrite !variables_cons, IH, (assoc_L (++)). by rewrite Nat.add_succ_r.
Qed.

Lemma variables_jobs_lt options : ∀ d, Forall (λ v, var_job v < d + length options)%nat (variables_from d options).
Proof.
  induction options as [|cs os IH]; intros d; [constructor|]. rewrite variables_cons. apply Forall_app. split.
  - eapply Forall_impl; [apply job_variables_job|]. simpl. lia.
  - eapply Forall_impl; [apply IH|]. simpl. lia.
Qed.

Lemma job_entries_ok options i cs : options !! i = Some cs →
  job_entries (variable_index (variables options)) i cs = Ok (entries_where (job_coefficient i) (variables options)).
Proof.
  intros Hi.
  assert (i < length options)%nat as Hlt by by eapply lookup_lt_Some.
  set (A := variables_from 0 (take i options)). set (B := variables_from (S i) (drop (S i) options)).
  assert (variables options = A ++ job_variables i cs ++ B) as He.
  { unfold variables. rewrite <- (take_drop_middle options i cs Hi) at 1. rewrite variables_app, variables_cons, length_take, Nat.min_l by lia. done. }
  assert (Forall (λ v, var_job v < i)%nat A) as HA.
  { eapply Forall_impl; [apply variables_jobs_lt|]. intros v. rewrite length_take. simpl. lia. }
  pose proof (variables_jobs (drop (S i) options) (S i)) as HB. fold B in HB.
  change (entries_where (job_coefficient i) (variables options)) with (entries_from 0 (job_coefficient i) (variables options)).
  rewrite He at 2. rewrite !entries_from_app, (entries_from_none 0), (entries_from_none _ _ B), app_nil_r; cycle 1.
  { eapply Forall_impl; [exact HB|]. intros v Hv. simpl in Hv. unfold job_coefficient. rewrite bool_decide_false; [done|lia]. }
  { eapply Forall_impl; [exact HA|]. intros v Hv. simpl in Hv. unfold job_coefficient. rewrite bool_decide_false; [done|lia]. }
  rewrite (entries_from_some _ _ (f64_of_int 1)); cycle 1.
  { eapply Forall_impl; [apply job_variables_job|]. intros v Hv. simpl in Hv. unfold job_coefficient. by rewrite bool_decide_true. }
  rewrite length_job_variables. unfold job_entries. apply mapM_result_Forall2, Forall2_fmap_r, Forall_Forall2_diag, Forall_forall.
  intros oi [_ Hoi]%elem_of_seq. assert (is_Some (cs !! oi)) as [c Hc] by (apply lookup_lt_is_Some; lia).
  assert (variables options !! (length A + oi)%nat = Some (i, oi, c)) as Hv.
  { rewrite He, lookup_app_r by apply Nat.le_add_r. rewrite Nat.add_comm, Nat.add_sub. rewrite lookup_app_l by (rewrite length_job_variables; lia). unfold job_variables. by rewrite list_lookup_imap, Hc. }
  apply index_of_variable in Hv. simpl in Hv. munfold. by rewrite Hv.
Qed.

Definition job_rows (options : list (list (list Z))) : list row :=
  imap (λ i _, (Some (f64_of_int 1), f64_of_int 1, entries_where (job_coefficient i) (variables options))) options.
Definition slot_rows (r : ScheduleInput) (vars : list variable) (value : Job → bin) (limit : TimeSlot → bin) : list row :=
  map (λ s, (None, limit s, entries_where (slot_coefficient r value s) vars)) (slots r).
Definition program_rows (r : ScheduleInput) (options : list (list (list Z))) : list row :=
  job_rows options ++ slot_rows r (variables options) gpu_value gpu_limit ++ slot_rows r (variables options) power_value power_limit.

Lemma foldM_foldl {A B W} (f : B → A → result B) (h : B → W → B) (w : A → W) l : (∀ m x, x ∈ l → f m x = Ok (h m (w x))) →
  ∀ m, foldM_result f l m = Ok (foldl h m (map w l)).
Proof.
  induction l as [|x l IH]; intros Hf m; [done|]. simpl. rewrite Hf by left. apply IH. intros m' y Hy. apply Hf. by right.
Qed.

Lemma foldl_slot_rows r vars value limit m ss :
  foldl (add_slot_row r vars value limit) m ss =
  foldl (λ m w, add_row m w.1.1 w.1.2 w.2) m (map (λ s, (None, limit s, entries_where (slot_coefficient r value s) vars)) ss).
Proof. revert m. induction ss as [|s ss IH]; intros m; [done|]. apply IH. Qed.

Lemma build_rows_ok r options : build_rows r options = Ok (add_rows (program_rows r options)).
Proof.
  unfold build_rows.
  rewrite (foldM_foldl _ (λ m w, add_row m w.1.1 w.1.2 w.2)
    (λ jc, (Some (f64_of_int 1), f64_of_int 1, entries_where (job_coefficient jc.1) (variables options)))).
  - cbn [mbind result_bind]. rewrite !foldl_slot_rows. unfold program_rows, add_rows. rewrite !foldl_app. do 4 f_equal. unfold job_rows. by rewrite fmap_imap.
  - intros m [i cs] (i' & cs' & [= -> ->] & Hi)%elem_of_lookup_imap. unfold add_job_row. simpl. by rewrite job_entries_ok.
Qed.

Definition row_holds (tol : Q) (x : list Z) (w : row) : Prop :=
  (∀ lo, w.1.1 = Some lo → (bval lo - tol <= dot w.2 x)%Q) ∧ (dot w.2 x <= bval w.1.2 + tol)%Q.

Lemma rows_hold tol x l : (∀ i, row_within tol (add_rows l) i x) ↔ Forall (row_holds tol x) l.
Proof.
  destruct (add_rows_shape l) as (H1 & H2 & _). rewrite Forall_lookup. unfold row_within. rewrite H1, H2. split.
  - intros H i w Hi. specialize (H i) as [Hlo Hup]. rewrite list_lookup_fmap, Hi, (add_rows_entries _ _ _ Hi) in Hlo.
    rewrite list_lookup_fmap, Hi, (add_rows_entries _ _ _ Hi) in Hup. simpl in *. split.
    + intros lo Hw. apply Hlo. by rewrite Hw.
    + by apply Hup.
  - intros H i. rewrite !list_lookup_fmap. destruct (l !! i) as [w|] eqn:Hi; [|done]. rewrite (add_rows_entries _ _ _ Hi).
    destruct (H i w Hi) as [Hlo Hup]. simpl. split; [intros lo [= Hw]; by apply Hlo|by intros up [= <-]].
Qed.

(** The load that an assignment puts on slot [s] *)
Lemma slot_row_load r value s options picks : picks_of options picks → length options = length (jobs r) →
  (dot (entries_where (slot_coefficient r value s) (variables options)) (encode options picks) ==
   jobs_sum (at_slot value (index s)) (jobs r) (picked options picks))%Q.
Proof.
  intros Hp Hlen. rewrite dot_where by by apply length_encode. apply vars_sum_encode; [done|done|].
  intros i j o c Hj. unfold slot_coefficient, at_slot, var_job, var_choice. simpl. case_bool_decide; [|done]. by rewrite Hj.
Qed.

Lemma occurrences_sorted i c : StronglySorted Z.lt c → occurrences i c = if bool_decide (i ∈ c) then 1 else 0.
Proof.
  induction 1 as [|a c Hs IH Ha]; [done|]. rewrite occurrences_cons, IH. rewrite Forall_forall in Ha. destruct (decide (i = a)) as [E|E].
  - subst i. rewrite (bool_decide_false (a ∈ c)) by (intros H%Ha; lia). rewrite bool_decide_true by left. done.
  - rewrite (bool_decide_ext (i ∈ a :: c) (i ∈ c)); [done|]. rewrite elem_of_cons. split; [by intros [?|?]|by right].
Qed.

Lemma gpu_load_usage i js choices : Forall (λ j, 0 <= gpu_count (request j) < 2 ^ 53) js → Forall (StronglySorted Z.lt) choices →
  (jobs_sum (at_slot gpu_value i) js choices == inject_Z (usage (map choice_allocation (zip js choices)) i))%Q.
Proof.
  intros Hg. revert choices. induction Hg as [|j js Hj _ IH]; intros choices Hs; [done|]. destruct Hs as [|c choices Hc Hs]; [done|].
  unfold jobs_sum. simpl. fold (jobs_sum (at_slot gpu_value i) js choices). rewrite IH, inject_Z_plus by done. apply Qplus_comp; [|reflexivity].
  rewrite occurrences_sorted by done. unfold at_slot, gpu_value. case_bool_decide; [|by rewrite Z.mul_0_r]. rewrite f64_int_exact by done. by rewrite Z.mul_1_r.
Qed.

Lemma within_int tol a b : (0 <= tol → tol < 1 # 2 → inject_Z a <= inject_Z b + tol ↔ (a <= b)%Z)%Q.
Proof.
  intros H0 H1. split.
  - intros H. assert (inject_Z a < inject_Z (b + 1))%Q as Hlt by (rewrite inject_Z_plus; change (inject_Z 1) with 1%Q; lra). rewrite <- Zlt_Qlt in Hlt. lia.
  - intros H. rewrite Zle_Qle in H. lra.
Qed.

(** *** The encoding *)

(** The options of each job are its placements. *)
Definition options_of (r : ScheduleInput) : list Job → list (list (list Z)) → Prop := Forall2 (λ j o, ∀ c, c ∈ o ↔ placement r j c).

Lemma picked_placed r js options picks : options_of r js options → picks_of options picks → Forall2 (placement r) js (picked options picks).
Proof.
  intros Ho. revert picks. induction Ho as [|j o js os Hj _ IH]; intros picks Hp; inversion Hp; subst; [constructor|].
  constructor; [|by apply IH]. apply Hj, list_elem_of_lookup_total_2. done.
Qed.

Lemma placed_picks r js options choices : options_of r js options → Forall2 (placement r) js choices →
  ∃ picks, picks_of options picks ∧ choices = picked options picks.
Proof.
  intros Ho. revert choices. induction Ho as [|j o js os Hj _ IH]; intros choices Hc; inversion Hc as [|? c ? cs Hjc Hcs]; subst; [exists []; split; [constructor|done]|].
  destruct (IH cs Hcs) as (ps & Hps & ->). apply Hj in Hjc as [k Hk]%list_elem_of_lookup. exists (k :: ps).
  split; [constructor; [by eapply lookup_lt_Some|done]|]. simpl. by rewrite (list_lookup_total_correct _ _ _ Hk).
Qed.

Lemma placed_sorted r js choices : Forall2 (placement r) js choices → Forall (StronglySorted Z.lt) choices.
Proof. induction 1 as [|j c js cs [] _ IH]; by constructor. Qed.

Section encoding.
Context (r : ScheduleInput) (options : list (list (list Z))).
Context (Hwf : well_formed r) (Hsmall : small_gpus r).
Context (Hopt : options_of r (jobs r) options).

Lemma gpu_row_iff tol picks s n : (0 <= tol)%Q → (tol < 1 # 2)%Q → picks_of options picks → slots r !! n = Some s →
  (dot (entries_where (slot_coefficient r gpu_value s) (variables options)) (encode options picks) <= bval (gpu_limit s) + tol)%Q ↔
  usage (allocations_of r (picked options picks)) (Z.of_nat n) <= gpu_capacity s.
Proof using Hopt Hsmall Hwf.
  intros H0 H1 Hp Hn. rewrite (slot_row_load r gpu_value s options picks Hp) by by rewrite (Forall2_length _ _ _ Hopt).
  rewrite (wf_index r Hwf n s Hn). destruct Hsmall as [Hj Hs]. pose proof (wf_gpus r Hwf) as Hg. pose proof (wf_capacity r Hwf) as Hc.
  rewrite gpu_load_usage; [|by apply Forall_and|by eapply placed_sorted, picked_placed].
  apply list_elem_of_lookup_2 in Hn. rewrite Forall_forall in Hs, Hc. unfold gpu_limit. rewrite f64_int_exact by (split; [by apply Hc|by apply Hs]).
  by apply within_int.
Qed.

Lemma job_rows_hold tol x : length x = length (variables options) →
  Forall (row_holds tol x) (job_rows options) ↔
  ∀ i, (i < length options)%nat → (1 - tol <= vars_sum (job_share (0 + i)) (variables options) x <= 1 + tol)%Q.
Proof using.
  intros Hx. assert (∀ i, row_holds tol x (Some (f64_of_int 1), f64_of_int 1, entries_where (job_coefficient i) (variables options)) ↔
    (1 - tol <= vars_sum (job_share i) (variables options) x <= 1 + tol)%Q) as Hrow.
  { intros i. unfold row_holds. cbn [fst snd]. pose proof (dot_where (job_coefficient i) _ x Hx) as Hd. fold (job_share i) in Hd.
    pose proof (f64_int_exact 1 ltac:(done)) as H1. change (inject_Z 1) with 1%Q in H1. rewrite <- Hd, <- H1. split.
    - intros [Hlo Hup]. split; [by apply Hlo|done].
    - intros [Hlo Hup]. split; [by intros lo [= <-]|done]. }
  unfold job_rows. rewrite Forall_lookup. split.
  - intros H i [cs Hi]%lookup_lt_is_Some. apply Hrow, (H i). by rewrite list_lookup_imap, Hi.
  - intros H i w Hw. rewrite list_lookup_imap in Hw. destruct (options !! i) eqn:Hi; [|done]. injection Hw as <-. apply Hrow, H. by eapply lookup_lt_Some.
Qed.

(** The solutions of the program are the assignments within GPU capacity and power. *)
Lemma program_solutions tol costs x : (0 <= tol)%Q → (tol < 1 # 2)%Q → length costs = length (variables options) →
  satisfies tol (MkMilp costs (add_rows (program_rows r options))) x ↔
  ∃ picks, picks_of options picks ∧ x = encode options picks ∧ feasible r (picked options picks) ∧ powered tol r (picked options picks).
Proof using Hopt Hsmall Hwf.
  intros H0 H1 Hc. unfold satisfies. cbn [m_costs m_rows]. rewrite Hc, rows_hold. unfold program_rows. rewrite !Forall_app.
  assert (∀ picks, picks_of options picks →
    (Forall (row_holds tol (encode options picks)) (slot_rows r (variables options) gpu_value gpu_limit) ↔
     ∀ n s, slots r !! n = Some s → usage (allocations_of r (picked options picks)) (Z.of_nat n) <= gpu_capacity s)) as Hgpu.
  { intros picks Hp. unfold slot_rows. rewrite Forall_map, Forall_lookup. split; intros H n s Hn.
    - apply (gpu_row_iff tol picks s n H0 H1 Hp Hn). by apply H in Hn as [_ ?].
    - split; [done|]. apply (gpu_row_iff tol picks s n H0 H1 Hp Hn). by apply H. }
  assert (∀ picks, picks_of options picks →
    (Forall (row_holds tol (encode options picks)) (slot_rows r (variables options) power_value power_limit) ↔ powered tol r (picked options picks))) as Hpow.
  { intros picks Hp. unfold slot_rows. rewrite Forall_map, Forall_lookup.
    assert (∀ s, (dot (entries_where (slot_coefficient r power_value s) (variables options)) (encode options picks) ==
      jobs_sum (at_slot power_value (index s)) (jobs r) (picked options picks))%Q) as Hl
      by (intros s; apply slot_row_load; [done|by rewrite (Forall2_length _ _ _ Hopt)]).
    split; intros H n s Hn; pose proof (wf_index r Hwf n s Hn) as Hi.
    - apply H in Hn as [_ Hn]. cbn [fst snd] in Hn. by rewrite Hl, Hi in Hn.
    - split; [done|]. cbn [fst snd]. rewrite Hl, Hi. by apply H. }
  split.
  - intros (Hx & Hb & Hj & Hg & Hpw). rewrite job_rows_hold in Hj by done.
    destruct (job_rows_picks tol options H1 0 x Hx Hb Hj) as (picks & Hp & ->). exists picks. split_and!; [done|done| |by apply Hpow].
    split; [by eapply picked_placed|by apply Hgpu].
  - intros (picks & Hp & -> & [_ Hcap] & Hpw). split_and!; [by apply length_encode|apply encode_binary| |by apply Hgpu|by apply Hpow].
    apply job_rows_hold; [by apply length_encode|]. intros i Hi. pose proof (encode_job_rows options picks Hp 0 i Hi) as He.
    unfold variables. rewrite He. split; lra.
Qed.
End encoding.

(** *** Costs *)

Lemma variables_elem options : ∀ d v, v ∈ variables_from d options → ∃ i cs, options !! i = Some cs ∧ var_job v = (d + i)%nat ∧ var_choice v ∈ cs.
Proof.
  induction options as [|cs os IH]; intros d v Hv; [by apply elem_of_nil in Hv|]. rewrite variables_cons in Hv. apply elem_of_app in Hv as [Hv|Hv].
  - apply elem_of_lookup_imap in Hv as (oi & c & -> & Hc). exists 0%nat, cs. split_and!; [done|unfold var_job; simpl; lia|by eapply list_elem_of_lookup_2].
  - destruct (IH (S d) v Hv) as (i & cs' & Hi & Hj & Hc). exists (S i), cs'. split_and!; [done|lia|done].
Qed.

Lemma variable_placed r options v : options_of r (jobs r) options → v ∈ variables options →
  ∃ j, jobs r !! var_job v = Some j ∧ placement r j (var_choice v).
Proof.
  intros Ho (i & cs & Hi & Hj & Hc)%variables_elem. destruct (Forall2_lookup_r _ _ _ _ _ Ho Hi) as (j & Hji & Hiff).
  exists j. rewrite Hj. split; [done|by apply Hiff].
Qed.

Definition column_float (r : ScheduleInput) (v : variable) : bin :=
  f64_of_dec (match jobs r !! var_job v with Some j => cost_or_zero r (j, var_choice v) | None => dint 0 end).

Lemma column_costs_ok r options : well_formed r → priceable r → options_of r (jobs r) options →
  mapM_result (column_cost r) (variables options) = Ok (map (column_float r) (variables options)).
Proof.
  intros Hwf Hp Ho. apply mapM_result_Forall2, Forall2_fmap_r, Forall_Forall2_diag, Forall_forall. intros v Hv.
  destruct (variable_placed r options v Ho Hv) as (j & Hj & Hpl). unfold column_cost, column_float, cost_or_zero. rewrite Hj. simpl.
  pose proof (wf_gpus r Hwf) as Hg. rewrite Forall_forall in Hg. pose proof (list_elem_of_lookup_2 _ _ _ Hj) as Hin.
  destruct (choice_cost_nonneg r j (var_choice v) Hp (Hg j Hin) Hin Hpl) as (x & Hx & _). by rewrite Hx, Hj, Hx.
Qed.

Lemma dot_costs g vars x : length x = length vars → (dot (imap pair (map g vars)) x == vars_sum (λ v, bval (g v)) vars x)%Q.
Proof.
  intros Hx. rewrite <- (dot_where (λ v, Some (g v)) vars x Hx). replace (entries_where (λ v, Some (g v)) vars) with (imap pair (map g vars)); [reflexivity|].
  unfold entries_where. rewrite imap_fmap. assert (∀ l : list (nat * variable), omap (λ kv, pair kv.1 <$> Some (g kv.2)) l = map (λ kv, (kv.1, g kv.2)) l) as ->
    by (induction l as [|? ? IHl]; [done|]; simpl; f_equal; exact IHl).
  by rewrite fmap_imap.
Qed.

Lemma objective_cost r options picks m : options_of r (jobs r) options → picks_of options picks →
  (objective (MkMilp (map (column_float r) (variables options)) m) (encode options picks) == float_cost r (picked options picks))%Q.
Proof.
  intros Ho Hp. unfold objective. cbn [m_costs]. rewrite dot_costs by by apply length_encode.
  apply vars_sum_encode; [done|by eapply Forall2_length|]. intros i j o c Hj. unfold column_float, job_float_cost, var_job. simpl. by rewrite Hj.
Qed.

(** *** Reading the answer *)

Definition keep_choice (one : bool) (m : gmap nat (list Z)) (v : variable) : gmap nat (list Z) :=
  if one then <[var_job v := var_choice v]> m else m.
Definition keep_ones (m : gmap nat (list Z)) (vx : variable * Z) : gmap nat (list Z) := keep_choice (vx.2 =? 1) m vx.1.

Lemma above_half_iff b k : k = 0 ∨ k = 1 → (Qabs (bval b - inject_Z k) < 1 # 2)%Q → above_half b = (k =? 1).
Proof.
  intros Hk [H1 H2]%Qabs_Qlt_condition. assert (above_half b = true ↔ (1 # 2 < bval b)%Q) as Hb.
  { unfold above_half, bval, Qlt. simpl. pose proof (bval_den_pos b). rewrite Z.ltb_lt, Z2Pos.id by done. lia. }
  destruct Hk as [->| ->]; cbn [Z.eqb Pos.eqb].
  - apply not_true_is_false. rewrite Hb. change (inject_Z 0) with 0%Q in *. lra.
  - apply Hb. change (inject_Z 1) with 1%Q in *. lra.
Qed.

Lemma selected_from vars : ∀ (pre values : list bin) x m, Forall (λ k, k = 0 ∨ k = 1) x → length x = length vars →
  Forall2 (λ b k, Qabs (bval b - inject_Z k) < 1 # 2)%Q values x →
  foldM_result (select (pre ++ values)) (imap (λ k v, ((length pre + k)%nat, v)) vars) m = Ok (foldl keep_ones m (zip vars x)).
Proof.
  induction vars as [|v vars IH]; intros pre values [|k x] m Hb Hx Hv; try done. injection Hx as Hx.
  apply Forall_cons in Hb as [Hk Hb]. apply Forall2_cons_inv_r in Hv as (b & values' & Hbk & Hv & ->).
  rewrite imap_cons. cbn [foldM_result]. unfold select at 1. cbn [fst snd]. rewrite Nat.add_0_r, list_lookup_middle by done. cbn [of_option mbind result_bind].
  specialize (IH (pre ++ [b]) values' x). rewrite <- (assoc_L (++)) in IH. simpl in IH.
  rewrite (imap_ext _ ((λ i v0, ((length pre + i)%nat, v0)) ∘ S)) in IH by (intros i v0 _; rewrite length_app; simpl; f_equal; lia).
  rewrite IH by done. simpl. unfold keep_ones at 3. simpl. by rewrite (above_half_iff b k).
Qed.

Lemma keep_zeros vars n : ∀ m, foldl keep_ones m (zip vars (replicate n 0)) = m.
Proof. revert n. induction vars as [|v vars IH]; intros [|n] m; try done. apply IH. Qed.

Lemma keep_hot vars o v m : vars !! o = Some v → foldl keep_ones m (zip vars (hot (length vars) o)) = <[var_job v := var_choice v]> m.
Proof.
  intros Ho. pose proof (lookup_lt_Some _ _ _ Ho) as Hlt. unfold hot. rewrite insert_take_drop by by rewrite length_replicate.
  rewrite <- (take_drop_middle vars o v Ho) at 1. rewrite take_replicate, drop_replicate, zip_with_app by (rewrite length_replicate, length_take; lia).
  rewrite foldl_app, keep_zeros. simpl. by rewrite keep_zeros.
Qed.

Lemma keep_encoded options picks : picks_of options picks → ∀ d m i,
  foldl keep_ones m (zip (variables_from d options) (encode options picks)) !! i =
  if bool_decide (d <= i)%nat then match picked options picks !! (i - d)%nat with Some c => Some c | None => m !! i end else m !! i.
Proof.
  induction 1 as [|cs o os ps Ho _ IH]; intros d m i; [simpl; by case_bool_decide|].
  rewrite variables_cons. unfold encode. simpl. rewrite zip_with_app by by rewrite length_hot, length_job_variables. rewrite foldl_app.
  assert (is_Some (cs !! o)) as [c Hc] by by apply lookup_lt_is_Some.
  rewrite <- (length_job_variables d cs), (keep_hot _ _ (d, o, c)) by (unfold job_variables; by rewrite list_lookup_imap, Hc).
  fold (encode os ps). rewrite IH. unfold var_job, var_choice. simpl. rewrite (list_lookup_total_correct _ _ _ Hc).
  destruct (decide (i = d)) as [->|Hne].
  - rewrite bool_decide_false, bool_decide_true, Nat.sub_diag by lia. simpl. by rewrite lookup_insert_eq.
  - rewrite lookup_insert_ne by done. destruct (decide (d <= i)%nat).
    + rewrite !bool_decide_true by lia. by replace (i - d)%nat with (S (i - S d)) by lia.
    + by rewrite !bool_decide_false by lia.
Qed.

Lemma selected_encoded values options picks : picks_of options picks →
  Forall2 (λ b k, Qabs (bval b - inject_Z k) < 1 # 2)%Q values (encode options picks) →
  ∃ sel, selected_choices values (variables options) = Ok sel ∧ (∀ i, sel !! i = picked options picks !! i) ∧
    size sel = length (picked options picks).
Proof.
  intros Hp Hv. eexists. split; [exact (selected_from (variables options) [] values _ ∅ (encode_binary options picks) (length_encode _ _ Hp 0) Hv)|].
  set (sel := foldl _ _ _). assert (∀ i, sel !! i = picked options picks !! i) as Hl.
  { intros i. unfold sel, variables. rewrite (keep_encoded options picks Hp 0 ∅ i), bool_decide_true by lia. rewrite Nat.sub_0_r, lookup_empty. by destruct (_ !! i). }
  split; [done|]. rewrite <- size_dom. replace (dom sel) with (set_seq 0 (length (picked options picks)) : gset nat); [apply size_set_seq|].
  apply set_eq. intros i. rewrite elem_of_set_seq, elem_of_dom, Hl, lookup_lt_is_Some. lia.
Qed.

Lemma seq_lookups {A} (sel : gmap nat A) (l : list A) e : (∀ i, sel !! i = l !! i) →
  mapM_result (λ i, of_option e (sel !! i)) (seq 0 (length l)) = Ok l.
Proof.
  intros Hs. apply mapM_result_Forall2, Forall2_same_length_lookup. split; [by rewrite length_seq|]. intros i k x Hk Hx.
  apply lookup_seq in Hk as [-> _]. simpl. by rewrite Hs, Hx.
Qed.

(** What is read from an answer is one option per job, whatever the answer. *)
Lemma selected_options values options sel : selected_choices values (variables options) = Ok sel →
  ∀ i c, sel !! i = Some c → ∃ cs, options !! i = Some cs ∧ c ∈ cs.
Proof.
  intros H. refine (foldM_result_inv _ (λ sel, ∀ i c, sel !! i = Some c → ∃ cs, options !! i = Some cs ∧ c ∈ cs) _ _ _ _ _ H); [|done].
  intros m [k v] m' (k' & v' & [= -> ->] & Hv)%elem_of_lookup_imap Hm Hs i c Hi. unfold select in Hs. simpl in Hs.
  apply bind_ok in Hs as (x & _ & [= <-]). destruct (above_half x); [|by apply Hm]. destruct (decide (var_job v' = i)) as [<-|Hne].
  - rewrite lookup_insert_eq in Hi. injection Hi as <-. apply list_elem_of_lookup_2 in Hv.
    destruct (variables_elem options 0 v' Hv) as (i & cs & Hi & Hj & Hc). rewrite Hj. by exists cs.
  - rewrite lookup_insert_ne in Hi by done. by apply Hm.
Qed.

Lemma selected_placed r options values sel choices : options_of r (jobs r) options → selected_choices values (variables options) = Ok sel →
  mapM_result (λ ji, of_option (KeyError "index") (sel !! ji)) (seq 0 (length (jobs r))) = Ok choices →
  Forall2 (placement r) (jobs r) choices.
Proof.
  intros Ho Hs Hc. apply mapM_result_Forall2 in Hc. apply Forall2_same_length_lookup. pose proof (Forall2_length _ _ _ Hc) as Hlen. rewrite length_seq in Hlen.
  split; [done|]. intros i j c Hj Hi. pose proof (lookup_lt_Some _ _ _ Hj) as Hlt.
  rewrite Forall2_lookup in Hc. specialize (Hc i). rewrite Hi, lookup_seq_lt in Hc by done. inversion Hc as [? ? Hk|]; subst. simpl in Hk.
  destruct (sel !! i) as [c'|] eqn:E; [|done]. injection Hk as ->. destruct (selected_options _ _ _ Hs i c E) as (cs & Hcs & Hin).
  destruct (Forall2_lookup_r _ _ _ _ _ Ho Hcs) as (j' & Hj' & Hiff). rewrite Hj in Hj'. injection Hj' as <-. by apply Hiff.
Qed.

Lemma placed_valid_feasible r choices p : well_formed r → Forall2 (placement r) (jobs r) choices → allocations p = allocations_of r choices →
  validate_plan r p = Ok tt → feasible r choices.
Proof.
  intros Hwf Hpl Ha Hv. split; [done|]. intros n s Hn.
  assert (Forall (λ a, 0 <= alloc_gpus a) (allocations_of r choices)) as Hg.
  { apply Forall_map, Forall_forall. intros [j c] Hin%elem_of_zip_l. pose proof (wf_gpus r Hwf) as Hg. rewrite Forall_forall in Hg. by apply Hg. }
  pose proof (validate_loop r _ (wf_index r Hwf) Hg) as Hl. unfold validate_plan in Hv. rewrite Ha in Hv.
  destruct (foldM_result _ _ _) as [[used al]|e]; [|done]. destruct Hl as (_ & _ & _ & _ & Hcap).
  destruct (decide (Exists (λ a, Z.of_nat n ∈ slot_indices a) (allocations_of r choices))) as [He|Hne].
  - apply (Hcap n s Hn). by apply Exists_exists in He.
  - rewrite usage_unnamed.
    + pose proof (wf_capacity r Hwf) as Hc. rewrite Forall_forall in Hc. apply Hc. by eapply list_elem_of_lookup_2.
    + intros a' Hin Hi. apply Hne, Exists_exists. by exists a'.
Qed.

(** A plan that is returned is feasible and validated, whatever the solver answers. *)
Lemma read_solution_feasible hash r options a o p : well_formed r → options_of r (jobs r) options →
  read_solution hash r options a = Ok o → opt_plan o = Some p →
  ∃ choices, feasible r choices ∧ allocations p = allocations_of r choices ∧ validate_plan r p = Ok tt ∧
    opt_status o = match a_status a with kOptimal => "optimal" | _ => "feasible_timeout" end.
Proof.
  intros Hwf Ho H Hp. unfold read_solution in H. apply bind_ok in H as (sel & Hs & H). destruct (negb _); [injection H as <-; done|].
  apply bind_ok in H as (choices & Hc & H). apply bind_ok in H as (e & He & H). apply bind_ok in H as ([] & Hv & H). injection H as <-. injection Hp as <-.
  exists choices. split_and!; [|done|done|done]. by eapply placed_valid_feasible; [|eapply selected_placed| |exact Hv].
Qed.

(** What HiGHS answers for the request; [None] when it is not asked *)
Definition highs_answer (highs : milp → answer) (r : ScheduleInput) : option HighsModelStatus :=
  match options ← mapM_result (job_options r) (jobs r); model ← build_model r options; Ok (without_window r options, model) with
  | Ok ([], model) => Some (a_status (highs model))
  | _ => None
  end.

(** What a result says about the request *)
Definition highs_result_ok (tol abs_gap rel_gap : Q) (r : ScheduleInput) (o : OptimizationResult) : Prop :=
  match opt_plan o with
  | Some p => ∃ choices, feasible r choices ∧ allocations p = allocations_of r choices ∧ validate_plan r p = Ok tt ∧
      (opt_status o = "feasible_timeout" ∨
       opt_status o = "optimal" ∧ powered tol r choices ∧
       ∀ choices', feasible r choices' → powered 0 r choices' →
         (float_cost r choices <= float_cost r choices' + (abs_gap + rel_gap * Qabs (float_cost r choices)))%Q)
  | None => opt_status o = "timeout" ∨ opt_status o = "failed" ∨
      opt_status o = "infeasible" ∧ ∀ choices, feasible r choices → ¬ powered 0 r choices
  end.

Lemma read_solution_none hash r options a o : read_solution hash r options a = Ok o → opt_plan o = None → opt_status o = "timeout".
Proof.
  intros H Hp. unfold read_solution in H. apply bind_ok in H as (sel & _ & H). destruct (negb _); [by injection H as <-|].
  apply bind_ok in H as (choices & _ & H). apply bind_ok in H as (e & _ & H). apply bind_ok in H as (u & _ & H). by injection H as <-.
Qed.

Lemma read_optimal hash r options a picks : well_formed r → options_of r (jobs r) options → picks_of options picks →
  feasible r (picked options picks) → a_status a = kOptimal →
  Forall2 (λ b k, Qabs (bval b - inject_Z k) < 1 # 2)%Q (a_values a) (encode options picks) →
  ∃ o p, read_solution hash r options a = Ok o ∧ opt_plan o = Some p ∧ opt_status o = "optimal" ∧
    allocations p = allocations_of r (picked options picks) ∧ validate_plan r p = Ok tt.
Proof.
  intros Hwf Ho Hp Hf Ha Hv. destruct (selected_encoded _ _ _ Hp Hv) as (sel & Hs & Hl & Hsize).
  pose proof (Forall2_length _ _ _ (fe_placed _ _ Hf)) as Hlen. unfold read_solution. rewrite Hs. cbn [mbind result_bind].
  rewrite Hsize, Hlen, Nat.eqb_refl, (seq_lookups sel _ _ Hl). cbn [negb mbind result_bind].
  destruct (plan_energy_ok r (zip (jobs r) (picked options picks))) as [e ->]; [apply Forall2_zip, Hf|]. cbn [mbind result_bind].
  rewrite (feasible_validates r (picked options picks)) by done. rewrite Ha. eexists _, _. split_and!; try reflexivity.
  by apply (feasible_validates r (picked options picks)).
Qed.

Lemma highs_asked hash highs r : well_formed r → priceable r →
  ∃ options, options_of r (jobs r) options ∧
    let model := MkMilp (map (column_float r) (variables options)) (add_rows (program_rows r options)) in
    match without_window r options with
    | [] => highs_answer highs r = Some (a_status (highs model)) ∧
        highs_solve hash (Some highs) r =
        let stopped status := Ok (MkResult status None [] ("highs-" +:+ a_version (highs model)) (dint 0) []
              ["HIGHS_STATUS:" +:+ a_status_text (highs model)]) in
        match a_status (highs model) with
        | kOptimal | kTimeLimit => read_solution hash r options (highs model)
        | kInfeasible => stopped "infeasible"
        | kOther => stopped "failed"
        end
    | _ => highs_answer highs r = None ∧ ∃ o, highs_solve hash (Some highs) r = Ok o ∧ opt_plan o = None ∧ opt_status o = "infeasible" ∧ ∀ choices, ¬ feasible r choices
    end.
Proof.
  intros Hwf Hp. destruct (all_options r (wf_index r Hwf) Hp) as (options & Hm & Ho). exists options. split; [exact Ho|]. intros model.
  assert (build_model r options = Ok model) as Hmodel.
  { unfold build_model. rewrite column_costs_ok by done. cbn [mbind result_bind]. by rewrite build_rows_ok. }
  unfold highs_answer, highs_solve. cbn [of_option mbind result_bind]. rewrite Hm. cbn [mbind result_bind]. rewrite Hmodel. cbn [mbind result_bind].
  destruct (without_window r options) as [|id ids] eqn:E; [done|]. split; [done|]. eexists. split; [done|]. split_and!; [done|done|]. by eapply no_window_infeasible.
Qed.

(** Whatever the solver answers, a plan that is returned is a feasible assignment of the request. *)
Lemma highs_plan_feasible hash solver r o p : highs_solve hash solver r = Ok o → opt_plan o = Some p → well_formed r → priceable r →
  ∃ choices, feasible r choices ∧ allocations p = allocations_of r choices ∧ validate_plan r p = Ok tt.
Proof.
  intros H Hp Hwf Hpr. destruct solver as [highs|]; [|done]. destruct (highs_asked hash highs r Hwf Hpr) as (options & Ho & Hs). cbv zeta in Hs.
  destruct (without_window r options); [|destruct Hs as (_ & o' & Hs & Hn & _); congruence]. destruct Hs as [_ Hs]. rewrite Hs in H.
  set (model := MkMilp _ _) in H. destruct (a_status (highs model)); [| |by injection H as <-|by injection H as <-];
    destruct (read_solution_feasible _ _ _ _ _ _ Hwf Ho H Hp) as (choices & ? & ? & ? & _); eauto.
Qed.

(** C2: The HiGHS backend is right as far as its solver is.  With a solver that keeps its contract, on a well-formed,
    priceable request whose GPU numbers a double holds: a plan it returns is a feasible assignment that passes
    [validate_plan]; with status "optimal" it also keeps the power of every slot up to the tolerance of the solver, and no
    feasible assignment within the power limits costs less by more than the gap, costs and powers taken as the doubles of
    the program; status "infeasible" means that there is no such assignment.  An optimal answer always becomes a plan: an
    exception escapes only when the solver stopped at its time limit. *)
Theorem highs_exact (tol abs_gap rel_gap : Q) (highs : milp → answer) (hash : ScheduleInput → string) (r : ScheduleInput)
    (Htol : (0 <= tol < 1 # 2)%Q) (Hlaw : highs_law tol abs_gap rel_gap highs)
    (Hwf : well_formed r) (Hp : priceable r) (Hsmall : small_gpus r) :
  match highs_solve hash (Some highs) r with
  | Ok o => highs_result_ok tol abs_gap rel_gap r o ∧ (highs_answer highs r = Some kOptimal → opt_status o = "optimal" ∧ is_Some (opt_plan o))
  | Err _ => highs_answer highs r = Some kTimeLimit
  end.
Proof.
  destruct Htol as [H0 H1]. destruct (highs_asked hash highs r Hwf Hp) as (options & Ho & H). cbv zeta in H.
  set (model := MkMilp _ _) in H.
  assert (∀ t x, (0 <= t)%Q → (t < 1 # 2)%Q → satisfies t model x ↔ ∃ picks, picks_of options picks ∧ x = encode options picks ∧
    feasible r (picked options picks) ∧ powered t r (picked options picks)) as Hsol
    by (intros t x Ht0 Ht1; apply program_solutions; [done|done|done|done|done|apply length_fmap]).
  assert (∀ choices, feasible r choices → powered 0 r choices → ∃ picks, picks_of options picks ∧ choices = picked options picks ∧
    satisfies 0 model (encode options picks)) as Henc.
  { intros choices Hf Hpw. destruct (placed_picks r _ _ _ Ho (fe_placed _ _ Hf)) as (picks & Hpk & ->). exists picks.
    split_and!; [done|done|]. apply Hsol; [lra|lra|]. by exists picks. }
  destruct (without_window r options) as [|id ids].
  2: { destruct H as (-> & o & -> & Hpl & Hst & Hno). split; [|done].
       unfold highs_result_ok. rewrite Hpl. right. right. split; [done|]. intros choices Hf. by destruct (Hno choices). }
  destruct H as [Ha Hs]. rewrite Ha, Hs. destruct (a_status (highs model)) eqn:Est.
  - destruct (law_optimal _ _ _ _ Hlaw model Est) as (x & (picks & Hpk & -> & Hf & Hpw)%Hsol & Hval & Hbest); [|done|done].
    destruct (read_optimal hash r options (highs model) picks Hwf Ho Hpk Hf Est Hval) as (o & p & -> & Hpl & Hst & Hal & Hv).
    split; [|intros _; split; [done|by rewrite Hpl]]. unfold highs_result_ok. rewrite Hpl. exists (picked options picks).
    split_and!; [done|done|done|right; split_and!; [done|done|]]. intros choices' Hf' Hpw'.
    destruct (Henc choices' Hf' Hpw') as (picks' & Hpk' & -> & Hsat). specialize (Hbest _ Hsat). unfold model in Hbest. by rewrite !objective_cost in Hbest.
  - destruct (read_solution hash r options (highs model)) as [o|e] eqn:Er; [|done]. split; [|done]. unfold highs_result_ok.
    destruct (opt_plan o) as [p|] eqn:Epl.
    + destruct (read_solution_feasible _ _ _ _ _ _ Hwf Ho Er Epl) as (choices & Hf & Hal & Hv & Hst). rewrite Est in Hst. exists choices. auto.
    + left. by eapply read_solution_none.
  - split; [|done]. right. right. split; [done|]. intros choices Hf Hpw. destruct (Henc choices Hf Hpw) as (picks & _ & _ & Hsat).
    by apply (law_infeasible _ _ _ _ Hlaw model Est) in Hsat.
  - split; [|done]. right. by left.
Qed.

(** ** A solver that keeps the contract: it tries every vector *)

Fixpoint vectors (n : nat) : list (list Z) :=
  match n with O => [[]] | S n' => map (cons 0) (vectors n') ++ map (cons 1) (vectors n') end.

Definition row_check (m : rows) (x : list Z) (i : nat) : bool :=
  match m_lower m !! i with Some (Some lo) => Qle_bool (bval lo) (dot (row_entries m i) x) | _ => true end &&
  match m_upper m !! i with Some up => Qle_bool (dot (row_entries m i) x) (bval up) | None => true end.
Definition solutions (p : milp) : list (list Z) :=
  base.filter (λ x, forallb (row_check (m_rows p) x) (seq 0 (length (m_lower (m_rows p)) + length (m_upper (m_rows p)))) = true) (vectors (length (m_costs p))).
Definition cheapest_of (p : milp) (x : list Z) (l : list (list Z)) : list Z :=
  foldr (λ y b, if Qle_bool (objective p y) (objective p b) then y else b) x l.
Definition exhaustive (p : milp) : answer :=
  match solutions p with
  | [] => MkAnswer kInfeasible "Infeasible" "0" [] (dint 0) (dint 0)
  | x :: l => let b := cheapest_of p x l in
      MkAnswer kOptimal "Optimal" "0" (map f64_of_int b) (Dec (Qfloor (objective p b * (100 # 1) + (1 # 2))) (-2)) (dint 0)
  end.

Lemma elem_of_vectors n x : x ∈ vectors n ↔ length x = n ∧ Forall (λ k, k = 0 ∨ k = 1) x.
Proof.
  revert x. induction n as [|n IH]; intros x; simpl.
  - rewrite list_elem_of_singleton. split; [by intros ->|]. intros [H _]. by apply nil_length_inv.
  - rewrite elem_of_app, !list_elem_of_fmap. split.
    + intros [(y & -> & [<- Hy]%IH)|(y & -> & [<- Hy]%IH)]; (split; [done|]); constructor; auto.
    + intros [Hl Hb]. destruct Hb as [|k y [->| ->] Hy]; [done|left|right]; exists y; (split; [done|]); apply IH; split; try done; by injection Hl.
Qed.

Lemma row_check_iff m x i : row_check m x i = true ↔ row_within 0 m i x.
Proof.
  unfold row_check, row_within. rewrite andb_true_iff. split.
  - intros [Hlo Hup]. split; intros b Hb; rewrite Hb in *; [apply Qle_bool_iff in Hlo|apply Qle_bool_iff in Hup]; lra.
  - intros [Hlo Hup]. split.
    + destruct (m_lower m !! i) as [[lo|]|]; try done. apply Qle_bool_iff. specialize (Hlo lo eq_refl). lra.
    + destruct (m_upper m !! i) as [up|]; [|done]. apply Qle_bool_iff. specialize (Hup up eq_refl). lra.
Qed.

Lemma elem_of_solutions p x : x ∈ solutions p ↔ satisfies 0 p x.
Proof.
  unfold solutions, satisfies. rewrite list_elem_of_filter, elem_of_vectors, forallb_true_iff, Forall_forall. split.
  - intros (H & Hl & Hb). split_and!; [done|done|]. intros i. destruct (decide (i < length (m_lower (m_rows p)) + length (m_upper (m_rows p)))%nat) as [Hlt|Hge].
    + apply row_check_iff, H, elem_of_seq. lia.
    + split; intros b Hi; apply lookup_lt_Some in Hi; lia.
  - intros (Hl & Hb & H). split_and!; [|done|done]. intros i _. by apply row_check_iff.
Qed.

Lemma cheapest_spec p x l : cheapest_of p x l ∈ x :: l ∧ ∀ y, y ∈ x :: l → (objective p (cheapest_of p x l) <= objective p y)%Q.
Proof.
  induction l as [|z l [IHin IHle]]; simpl; [split; [left|intros y ->%list_elem_of_singleton; lra]|].
  destruct (Qle_bool (objective p z) (objective p (cheapest_of p x l))) eqn:E.
  - apply Qle_bool_iff in E. split; [right; left|]. intros y [->|[->|Hy]%elem_of_cons]%elem_of_cons; [|lra|].
    + specialize (IHle x ltac:(left)). lra.
    + specialize (IHle y ltac:(by right)). lra.
  - assert (objective p (cheapest_of p x l) <= objective p z)%Q as Hz.
    { apply Qlt_le_weak, Qnot_le_lt. intros H%Qle_bool_iff. congruence. }
    split; [apply elem_of_cons in IHin as [->|?]; [left|by right; right]|].
    intros y [->|[->|Hy]%elem_of_cons]%elem_of_cons; [by apply IHle; left|done|by apply IHle; right].
Qed.

Lemma exhaustive_law : highs_law 0 0 0 exhaustive.
Proof.
  split; intros p; unfold exhaustive; destruct (solutions p) as [|x l] eqn:E; try done.
  - intros _. destruct (cheapest_spec p x l) as [Hin Hle]. rewrite <- E in Hin. apply elem_of_solutions in Hin as Hs. exists (cheapest_of p x l).
    split_and!; [done| |].
    + cbn [a_values]. apply Forall2_fmap_l, Forall_Forall2_diag. destruct Hs as (_ & Hb & _). eapply Forall_impl; [exact Hb|].
      intros k Hk. unfold compose. assert (bval (f64_of_int k) - inject_Z k == 0)%Q as Hz by (rewrite f64_int_exact by (destruct Hk; subst; done); ring). by rewrite Hz.
    + intros y Hy%elem_of_solutions. rewrite E in Hy. specialize (Hle y Hy). lra.
  - intros _ y Hy%elem_of_solutions. rewrite E in Hy. by apply elem_of_nil in Hy.
Qed.

Lemma sample_small : small_gpus sample_input.
Proof. split; by repeat constructor. Qed.

Example exhaustive_sample : highs_solve (λ _, "h") (Some exhaustive) sample_input =
  Ok (MkResult "optimal" (Some (MkSchedulePlan "milp_highs"
       [MkAllocation "job-a" [1; 2] 3 "MIN_TOTAL_COST"; MkAllocation "job-b" [0] 2 "MIN_TOTAL_COST"] []
       (dint 8) (Dec 250 (-2)) ["time-indexed binary MILP"] [] "h"))
     [("energy_cost", Dec 250 (-2)); ("delay", dint 0)] "highs-0" (dint 0) ["time-indexed binary MILP"] []).
Proof. by vm_compute. Qed.

Lemma highs_exact_witness : ∃ o, highs_solve (λ _, "h") (Some exhaustive) sample_input = Ok o ∧ opt_status o = "optimal" ∧
  highs_result_ok 0 0 0 sample_input o.
Proof.
  pose proof (highs_exact 0 0 0 exhaustive (λ _, "h") sample_input (conj (Qle_refl 0) (eq_refl : (0 < 1 # 2)%Q)) exhaustive_law
    sample_well_formed sample_priceable sample_small) as H.
  rewrite exhaustive_sample in H. destruct H as [H _]. eexists. split; [exact exhaustive_sample|]. split; [reflexivity|exact H].
Defined.

(** Two jobs that fit in the one slot each alone, by its power, but not together *)
Definition power_input : ScheduleInput :=
  let job id := MkJob id "ten_acme" "prj" TRAINING (MkResourceRequest 1 None 4 (dint 64) (dint 1) (dint 7))
    (MkSla (DT 10800000000 true) 50 None None) (DT 0 true) ∅ ∅ [] true [] in
  MkScheduleInput [job "job-a"; job "job-b"] [MkTimeSlot 0 (DT 0 true) (dint 1) 8 (dint 10) (dint 1) (dint 0)] 1 "f1" "none".

(** The two backends solve different problems: the rows of the binary program limit the power of all the jobs of a slot,
    the enumeration (and [validate_plan]) the power of each job alone.  On this request the enumeration reports an optimal
    plan of 14 kW in a slot of 10 kW, and the binary program is infeasible. *)
Theorem solvers_disagree : ∃ o p,
  optimize (λ _, false) (λ _, "h") power_input = Ok o ∧ opt_status o = "optimal" ∧ opt_plan o = Some p ∧ validate_plan power_input p = Ok tt ∧
  energy_intent_kwh p = dint 14 ∧
  ∃ o', highs_solve (λ _, "h") (Some exhaustive) power_input = Ok o' ∧ opt_status o' = "infeasible".
Proof. eexists _, _. split; [by vm_compute|]. split_and!; try (vm_compute; reflexivity). eexists. split; [by vm_compute|reflexivity]. Qed.

(** Without [highspy] nothing is solved. *)
Example highs_missing : highs_solve (λ _, "h") None sample_input = Err (RuntimeError "HiGHS is not installed; no silent solver fallback is permitted").
Proof. reflexivity. Qed.
