(* ===== verification/Energy.v ===== *)
(** * Energy: [packages/energy], [resilience/planner.py], [island/planner.py], [carbon/calculator.py]

    Assets and their constructor checks, the battery state of charge, the facility power and its
    balance, the degraded-mode and island planners, and the carbon account.  All quantities are
    decimals in the default context. *)
From S2P Require Import Prelude PyDecimal Domain.
From Stdlib Require Import QArith Lqa.
Local Open Scope Z_scope.

(** ** assets.py *)

Record GridConnection := MkGrid { grid_id : string; grid_asset : string; import_limit_kw : dec; export_limit_kw : dec }.
Record Photovoltaic := MkPv { pv_id : string; pv_asset : string; pv_capacity_kw : dec }.
Record Battery := MkBattery {
  battery_id : string; battery_asset : string; capacity_kwh : dec; max_charge_kw : dec; max_discharge_kw : dec;
  charge_efficiency : dec; discharge_efficiency : dec; min_soc : dec; max_soc : dec; reserve_soc : dec;
  degradation_cost_per_kwh : dec
}.
Record Generator := MkGenerator {
  generator_id : string; generator_asset : string; max_power_kw : dec; start_delay_minutes : Z;
  minimum_run_minutes : Z; fuel_kwh : dec; fuel_per_kwh : dec
}.

(** [Battery.__post_init__] *)
Definition battery_check (b : Battery) : result Battery :=
  let one := dint 1 in let zero := dint 0 in
  raise_if (negb (dltb zero (charge_efficiency b) && dleb (charge_efficiency b) one)
            || negb (dltb zero (discharge_efficiency b) && dleb (discharge_efficiency b) one))
    (ValueError "battery efficiency must be in (0, 1]");;
  raise_if (negb (dleb zero (min_soc b) && dleb (min_soc b) (reserve_soc b) && dleb (reserve_soc b) (max_soc b)
                  && dleb (max_soc b) one))
    (ValueError "invalid battery SOC bounds");;
  Ok b.

(** ** battery.py *)

Definition next_soc (b : Battery) (soc charge_kw discharge_kw duration_hours : dec) : result dec :=
  let zero := dint 0 in
  raise_if (dltb charge_kw zero || dltb discharge_kw zero || dleb duration_hours zero)
    (ValueError "battery dispatch values must be non-negative and duration positive");;
  raise_if (dltb zero charge_kw && dltb zero discharge_kw)
    (ValueError "battery cannot charge and discharge simultaneously");;
  raise_if (dltb (max_charge_kw b) charge_kw || dltb (max_discharge_kw b) discharge_kw)
    (ValueError "battery power limit exceeded");;
  let stored_delta := dmul (dmul charge_kw (charge_efficiency b)) duration_hours in
  drawn ← ddiv discharge_kw (discharge_efficiency b);
  let withdrawn_delta := dmul drawn duration_hours in
  change ← ddiv (dsub stored_delta withdrawn_delta) (capacity_kwh b);
  let r := dadd soc change in
  raise_if (negb (dleb (min_soc b) r && dleb r (max_soc b))) (ValueError "battery SOC bound violated");;
  Ok r.

Definition degradation_cost (b : Battery) (charge_kw discharge_kw duration_hours : dec) : dec :=
  dmul (dmul (dadd charge_kw discharge_kw) duration_hours) (degradation_cost_per_kwh b).

(** ** pue.py and power_balance.py *)

Definition facility_power_kw (it_power_kw pue fixed_load_kw : dec) : result dec :=
  raise_if (dltb it_power_kw (dint 0) || dltb fixed_load_kw (dint 0) || dltb pue (dint 1))
    (ValueError "PUE must be >= 1 and loads non-negative");;
  Ok (dadd (dmul it_power_kw pue) fixed_load_kw).

Record Dispatch := MkDispatch {
  grid_import_kw : dec; grid_export_kw : dec; pv_kw : dec; battery_charge_kw : dec; battery_discharge_kw : dec;
  generator_kw : dec; curtailed_kw : dec
}.
Record PowerBalanceResult := MkBalance {
  facility_load_kw : dec; supply_kw : dec; demand_kw : dec; residual_kw : dec; balance_violations : list string
}.
Definition dispatch_values (d : Dispatch) : list dec :=
  [grid_import_kw d; grid_export_kw d; pv_kw d; battery_charge_kw d; battery_discharge_kw d; generator_kw d; curtailed_kw d].

Definition validate_power_balance (compute_load_kw pue fixed_load_kw : dec) (d : Dispatch) (grid : GridConnection)
    (tolerance_kw : dec) : result PowerBalanceResult :=
  raise_if (existsb (λ v, dltb v (dint 0)) (dispatch_values d)) (ValueError "dispatch powers cannot be negative");;
  raise_if (dltb (dint 0) (battery_charge_kw d) && dltb (dint 0) (battery_discharge_kw d))
    (ValueError "simultaneous battery charge/discharge");;
  facility ← facility_power_kw compute_load_kw pue fixed_load_kw;
  let supply := dadd (dadd (dadd (grid_import_kw d) (pv_kw d)) (battery_discharge_kw d)) (generator_kw d) in
  let demand := dadd (dadd (dadd facility (battery_charge_kw d)) (grid_export_kw d)) (curtailed_kw d) in
  let residual := dsub supply demand in
  Ok (MkBalance facility supply demand residual
    ((if dltb tolerance_kw (dabs residual) then ["POWER_BALANCE"] else [])
     ++ (if dltb (import_limit_kw grid) (grid_import_kw d) then ["GRID_IMPORT_CAPACITY"] else [])
     ++ (if dltb (export_limit_kw grid) (grid_export_kw d) then ["GRID_EXPORT_CAPACITY"] else []))).

(** ** resilience/planner.py *)

Record CriticalLoad := MkLoad { load_id : string; power_kw : dec; load_priority : Z; critical : bool }.
Record DegradedPlan := MkDegraded {
  served : list string; shed : list string; used_power_kw : dec; hard_violations : list string
}.

(** [(not critical, -priority, id)] *)
Definition load_order : CriticalLoad → CriticalLoad → comparison :=
  cmp_then (cmp_on (λ l, negb (critical l)) bool_compare)
    (cmp_then (cmp_on (λ l, - load_priority l) Z.compare) (cmp_on load_id String.compare)).

(** One turn of the loop: [(served, shed, used)] *)
Definition serve_step (available : dec) (st : list string * list string * dec) (l : CriticalLoad)
    : list string * list string * dec :=
  let '(sv, sh, used) := st in
  if dleb (dadd used (power_kw l)) available
  then (sv ++ [load_id l], sh, dadd used (power_kw l))
  else (sv, sh ++ [load_id l], used).

Definition plan_degraded_mode (loads : list CriticalLoad) (available : dec) : DegradedPlan :=
  let '(sv, sh, used) := foldl (serve_step available) ([], [], dint 0) (py_sorted load_order loads) in
  MkDegraded sv sh used
    (map (λ l, "CRITICAL_LOAD_SHED:" +:+ load_id l)
      (base.filter (λ l, critical l = true ∧ load_id l ∈ sh) loads)).

(** ** island/planner.py *)

Record IslandPlan := MkIsland {
  island_served : list string; island_shed : list string; survival_hours : dec; reserve_kwh : dec;
  island_violations : list string
}.
Definition plan_island_survival (loads : list CriticalLoad) (battery_kwh reserved_kwh generator_kwh pv : dec)
    : result IslandPlan :=
  raise_if (negb (dleb (dint 0) reserved_kwh && dleb reserved_kwh battery_kwh)) (ValueError "invalid island reserve");;
  let usable := dadd (dsub battery_kwh reserved_kwh) generator_kwh in
  let degraded := plan_degraded_mode loads (dadd pv usable) in
  let net_load := dmax (Dec 1 (-3)) (dsub (used_power_kw degraded) pv) in
  survival ← ddiv usable net_load;
  Ok (MkIsland (served degraded) (shed degraded) survival reserved_kwh (hard_violations degraded)).

(** ** carbon/calculator.py *)

Record CarbonResult := MkCarbonResult { emissions : Carbon; carbon_cost : Money }.
Definition calculate_carbon (import_kwh intensity price : dec) (cur : string) : result CarbonResult :=
  raise_if (dltb (dmin (dmin import_kwh intensity) price) (dint 0)) (ValueError "carbon inputs cannot be negative");;
  e ← carbon (dmul import_kwh intensity);
  m ← money (dmul (kg_co2e e) price) cur;
  c ← money_rounded m 2;
  Ok (MkCarbonResult e c).

(** ** Degraded mode *)

#[global] Instance load_order_order : CmpOrder load_order.
Proof. unfold load_order. apply _. Qed.

Definition serve_all (available : dec) (loads : list CriticalLoad) : list string * list string * dec :=
  foldl (serve_step available) ([], [], dint 0) loads.

Record serve_inv (available : dec) (pre : list CriticalLoad) (sv sh : list string) (used : dec) : Prop := {
  sv_split : (sv ++ sh) ≡ₚ map load_id pre;
  sv_fits : fits 28 (dval used);
  sv_bound : (dval used <= dval available)%Q;
  sv_total : (dval used <= dval (dsum (map power_kw pre)))%Q;
  sv_shed : ∀ id, id ∈ sh → ∃ pre1 l pre2, pre = pre1 ++ l :: pre2 ∧ load_id l = id ∧
    (dval available < dval (dadd (serve_all available pre1).2 (power_kw l)))%Q
}.

Lemma dsum_fits l : fits 28 (dval (dsum l)).
Proof.
  unfold dsum. induction l as [|d l IH] using rev_ind; [by exists (dint 0)|].
  rewrite foldl_snoc. apply dfix_fits_res. lia.
Qed.

Lemma serve_all_inv available pre : (0 <= dval available)%Q → Forall (λ l, (0 <= dval (power_kw l))%Q) pre →
  let '(sv, sh, used) := serve_all available pre in serve_inv available pre sv sh used.
Proof.
  intros Ha. unfold serve_all. induction pre as [|l pre IH] using rev_ind; intros Hp.
  - split; [done|by exists (dint 0)|by rewrite dval_dint|apply Qle_refl|]. by intros id ?%elem_of_nil.
  - apply Forall_app in Hp as [Hp [Hl _]%Forall_cons]. specialize (IH Hp). rewrite foldl_snoc.
    change (foldl (serve_step available) ([], [], dint 0) pre) with (serve_all available pre) in *.
    destruct (serve_all available pre) as [[sv sh] used] eqn:Erun. destruct IH as [Hs Hf Hb Ht Hshed].
    assert (dsum (map power_kw (pre ++ [l])) = dadd (dsum (map power_kw pre)) (power_kw l)) as Esum
      by (unfold dsum; rewrite map_app; cbn [map]; by rewrite foldl_snoc).
    assert (∀ id, id ∈ sh → ∃ pre1 l0 pre2, pre ++ [l] = pre1 ++ l0 :: pre2 ∧ load_id l0 = id ∧
      (dval available < dval (dadd (serve_all available pre1).2 (power_kw l0)))%Q) as Hshed'.
    { intros id Hid. destruct (Hshed id Hid) as (p1 & l0 & p2 & -> & ? & ?). exists p1, l0, (p2 ++ [l]).
      split_and!; [by rewrite <- app_assoc|done|done]. }
    unfold serve_step. destruct (dleb _ _) eqn:E; dprop.
    + split; [|apply dfix_fits_res; lia|done| |done].
      * rewrite map_app, <- Hs. simpl. rewrite <- !app_assoc. apply Permutation_app_head, Permutation_app_comm.
      * rewrite Esum. apply dadd_mono; [lia|done|lra].
    + split; [|done|done| |].
      * rewrite map_app, <- Hs. by rewrite app_assoc.
      * rewrite Esum. etransitivity; [exact Ht|]. apply dadd_increases; [lia|apply dsum_fits|done].
      * intros id [Hid|Hid%list_elem_of_singleton]%elem_of_app; [by apply Hshed'|].
        exists pre, l, []. split_and!; [done|done|]. by rewrite Erun.
Qed.

(** Critical loads come first. *)
Lemma load_order_critical pre l post loads : py_sorted load_order loads = pre ++ l :: post → critical l = true →
  Forall (λ x, critical x = true) pre.
Proof.
  intros Hs Hl. pose proof (py_sorted_sorted load_order loads) as Hsort. rewrite Hs in Hsort.
  apply StronglySorted_app in Hsort as (Hle & _ & _). apply Forall_forall. intros x Hx.
  specialize (Hle x l Hx (list_elem_of_here l post)). unfold key_le, cmp_leb, load_order, cmp_then, cmp_on in Hle.
  rewrite Hl in Hle. by destruct (critical x).
Qed.

Lemma dsum_app_le l k : Forall (λ d, (0 <= dval d)%Q) k → (dval (dsum l) <= dval (dsum (l ++ k)))%Q.
Proof.
  intros Hk. induction k as [|d k IH] using rev_ind; [by rewrite app_nil_r; apply Qle_refl|].
  apply Forall_app in Hk as [Hk [Hd _]%Forall_cons]. etransitivity; [by apply IH|].
  rewrite app_assoc. unfold dsum at 2. rewrite foldl_snoc. apply dadd_increases; [lia|apply dsum_fits|done].
Qed.

Lemma critical_served loads available : (0 <= dval available)%Q → NoDup (map load_id loads) →
  Forall (λ l, (0 <= dval (power_kw l))%Q) loads →
  (dval (dsum (map power_kw (base.filter (λ l, critical l = true) (py_sorted load_order loads)))) <= dval available)%Q →
  hard_violations (plan_degraded_mode loads available) = [].
Proof.
  intros Ha Hnd Hp Hcap. set (ordered := py_sorted load_order loads) in *.
  assert (ordered ≡ₚ loads) as Hperm by apply py_sorted_perm.
  assert (Forall (λ l, (0 <= dval (power_kw l))%Q) ordered) as Hpo by by rewrite Hperm.
  pose proof (serve_all_inv available ordered Ha Hpo) as Hinv. unfold plan_degraded_mode. fold ordered (serve_all available ordered).
  destruct (serve_all available ordered) as [[sv sh] used]. destruct Hinv as [_ _ _ _ Hshed]. simpl.
  assert (base.filter (λ l, critical l = true ∧ load_id l ∈ sh) loads = []) as ->; [|done].
  apply elem_of_nil_inv. intros l [[Hc Hin] Hl]%list_elem_of_filter.
  destruct (Hshed _ Hin) as (p1 & l0 & p2 & Ho & Hid & Hlt).
  assert (l0 ∈ loads) as Hl0 by (rewrite <- Hperm, Ho; set_solver).
  assert (l0 = l) as -> by by eapply (NoDup_map_elem load_id loads).
  pose proof (load_order_critical p1 l p2 loads Ho Hc) as Hcrit.
  rewrite Ho in Hpo. apply Forall_app in Hpo as [Hp1 [Hpl Hp2]%Forall_cons].
  pose proof (serve_all_inv available p1 Ha Hp1) as Hinv1. destruct (serve_all available p1) as [[sv1 sh1] used1].
  destruct Hinv1 as [_ _ _ Htot _]. simpl in Hlt.
  rewrite Ho, filter_app, filter_cons_True in Hcap by done. rewrite filter_all in Hcap by done.
  assert (dval (dadd used1 (power_kw l)) <= dval available)%Q as Hle; [|lra].
  etransitivity; [|exact Hcap]. rewrite map_app. cbn [map]. rewrite cons_middle, app_assoc.
  etransitivity; [|apply dsum_app_le].
  - unfold dsum. rewrite foldl_snoc. apply dadd_mono; [lia|done|lra].
  - apply Forall_map. apply Forall_forall. intros x [_ Hx]%list_elem_of_filter. rewrite Forall_forall in Hp2. by apply Hp2.
Qed.

(** ** Properties *)

(** The degraded-mode plan is safe and honours priorities.  For distinct load ids, non-negative
    powers and a non-negative supply: every load is served or shed, exactly once; the power used, the
    context sum of the served loads, stays within the supply; a load is shed only because its power did
    not fit on top of the loads ranked before it (critical first, then by priority, then by id); and if
    the critical loads together fit the supply, none of them is shed. *)
Theorem degraded_mode_correct (loads : list CriticalLoad) (available : dec)
    (Hids : NoDup (map load_id loads)) (Hpower : Forall (λ l, (0 <= dval (power_kw l))%Q) loads)
    (Havail : (0 <= dval available)%Q) :
  let plan := plan_degraded_mode loads available in
  let ordered := py_sorted load_order loads in
  (served plan ++ shed plan) ≡ₚ map load_id loads ∧
  (dval (used_power_kw plan) <= dval available)%Q ∧
  (∀ id, id ∈ shed plan → ∃ pre l post, ordered = pre ++ l :: post ∧ load_id l = id ∧
     (dval available < dval (dadd (used_power_kw (plan_degraded_mode pre available)) (power_kw l)))%Q) ∧
  ((dval (dsum (map power_kw (base.filter (λ l, critical l = true) ordered))) <= dval available)%Q →
     hard_violations plan = []).
Proof.
  intros plan ordered. assert (ordered ≡ₚ loads) as Hperm by apply py_sorted_perm.
  assert (Forall (λ l, (0 <= dval (power_kw l))%Q) ordered) as Hpo by by rewrite Hperm.
  pose proof (serve_all_inv available ordered Havail Hpo) as Hinv. pose proof (py_sorted_sorted load_order loads) as Hsort.
  assert (∀ loads, let p := plan_degraded_mode loads available in
    (served p, shed p, used_power_kw p) = serve_all available (py_sorted load_order loads)) as Hplan.
  { intros l p. unfold p, plan_degraded_mode. fold (serve_all available (py_sorted load_order l)).
    by destruct (serve_all available (py_sorted load_order l)) as [[??]?]. }
  pose proof (Hplan loads) as Hp. cbv zeta in Hp. fold ordered plan in Hp. rewrite <- Hp in Hinv. destruct Hinv as [Hs _ Hb _ Hshed].
  split_and!; [by rewrite Hs, Hperm|done| |by apply critical_served].
  intros id Hid. destruct (Hshed id Hid) as (p1 & l & p2 & Ho & Hl & Hlt). exists p1, l, p2. split_and!; [done|done|].
  fold ordered in Hsort. rewrite Ho in Hsort. apply StronglySorted_app in Hsort as (_ & Hsort & _).
  pose proof (Hplan p1) as Hp1. rewrite (py_sorted_id load_order p1 Hsort) in Hp1. by rewrite <- Hp1 in Hlt.
Qed.

Lemma degraded_mode_correct_witness :
  let loads := [MkLoad "cool" (dint 30) 1 true; MkLoad "gpu" (dint 50) 9 false; MkLoad "net" (dint 10) 5 true] in
  let plan := plan_degraded_mode loads (dint 60) in
  served plan = ["net"; "cool"] ∧ shed plan = ["gpu"] ∧ (dval (used_power_kw plan) <= dval (dint 60))%Q ∧
  hard_violations plan = [].
Proof.
  intros loads plan. pose proof (degraded_mode_correct loads (dint 60)) as H.
  destruct H as (_ & Hb & _ & Hv); [vm_compute; repeat constructor; set_solver|by repeat constructor|done|].
  split_and!; [reflexivity|reflexivity|exact Hb|]. apply Hv. by vm_compute.
Defined.

(** The battery's constructor accepted it. *)
Definition battery_wf (b : Battery) : Prop := battery_check b = Ok b.

Lemma battery_efficiency b : battery_wf b → (0 < coef (discharge_efficiency b))%Z ∧ (0 <= dval (charge_efficiency b))%Q.
Proof.
  unfold battery_wf, battery_check. munfold. guard_case as E; [done|]. intros _. bprop. dprop.
  change (dval (dint 0)) with (inject_Z 0 * p10 0)%Q in *. rewrite Qmult_0_l in *. split; [by apply coef_pos|lra].
Qed.

(** A battery step is safe.  For a battery its constructor accepts, with positive capacity, and a
    state of charge within the precision of the context, [next_soc] either raises [ValueError] or returns
    a state of charge within the battery's bounds; then the powers were within its limits, it was not
    charged and discharged at once, charging did not lower the state of charge and discharging did not
    raise it.  It raises no arithmetic error. *)
Theorem next_soc_safe (b : Battery) (soc charge discharge hours : dec)
    (Hb : battery_wf b) (Hcap : 0 < coef (capacity_kwh b)) (Hsoc : fits 28 (dval soc)) :
  match next_soc b soc charge discharge hours with
  | Err e => ∃ msg, e = ValueError msg
  | Ok r =>
      (dval (min_soc b) <= dval r <= dval (max_soc b))%Q ∧
      (0 <= dval charge <= dval (max_charge_kw b))%Q ∧ (0 <= dval discharge <= dval (max_discharge_kw b))%Q ∧
      ((dval discharge == 0)%Q ∧ (dval soc <= dval r)%Q ∨ (dval charge == 0)%Q ∧ (dval r <= dval soc)%Q)
  end.
Proof.
  destruct (battery_efficiency b Hb) as [Hde Hce]. unfold next_soc. munfold.
  assert (dval (dint 0) == 0)%Q as H0 by apply dval_dint.
  guard_case as E1; [by eexists|]. guard_case as E2; [by eexists|]. guard_case as E3; [by eexists|]. bprop. dprop.
  destruct (ddiv_ok 28 discharge (discharge_efficiency b)) as [drawn Hdrawn]; [lia|]. unfold ddiv at 1. rewrite Hdrawn.
  set (delta := dsub _ _). destruct (ddiv_ok 28 delta (capacity_kwh b)) as [change Hchange]; [lia|].
  unfold ddiv. rewrite Hchange. guard_case as E4; [by eexists|]. bprop. dprop. rewrite H0 in *.
  assert (0 <= dval drawn)%Q as Hdr by (by eapply ddiv_nonneg; [exact Hde| |exact Hdrawn]).
  assert (0 <= dval (dmul (dmul charge (charge_efficiency b)) hours))%Q as Hst by (repeat apply dmul_nonneg; lia || lra).
  assert (0 <= dval (dmul drawn hours))%Q as Hwd by (apply dmul_nonneg; lia || lra).
  split_and!; try lra.
  destruct E2 as [Hc|Hd]; dprop; [right|left].
  - assert (dval charge == 0)%Q as Hc0 by lra. split; [done|]. apply dadd_decreases; [done|].
    eapply ddiv_nonpos; [exact Hcap| |exact Hchange]. apply dsub_nonpos. etransitivity; [|exact Hwd].
    rewrite (dmul_zero_l (dmul charge _)); [lra|by apply dmul_zero_l].
  - assert (dval discharge == 0)%Q as Hd0 by lra. split; [done|]. apply dadd_increases; [lia|done|].
    eapply ddiv_nonneg; [exact Hcap| |exact Hchange]. apply dsub_nonneg; [lia|]. etransitivity; [|exact Hst].
    assert (dval drawn == 0)%Q as Hdz; [|rewrite (dmul_zero_l drawn) by done; lra].
    apply dval_zero_iff in Hd0. rewrite ddiv_zero_num in Hdrawn by lia. injection Hdrawn as <-. apply dval_0.
Qed.

Definition sample_battery : Battery :=
  MkBattery "bat" "asset" (dint 100) (dint 50) (dint 50) (Dec 95 (-2)) (Dec 95 (-2)) (Dec 1 (-1)) (Dec 9 (-1)) (Dec 2 (-1)) (dint 0).

Lemma next_soc_safe_witness :
  ∃ r, next_soc sample_battery (Dec 5 (-1)) (dint 20) (dint 0) (dint 1) = Ok r ∧ (dval r == 69 # 100)%Q ∧
  (dval (min_soc sample_battery) <= dval r <= dval (max_soc sample_battery))%Q.
Proof.
  pose proof (next_soc_safe sample_battery (Dec 5 (-1)) (dint 20) (dint 0) (dint 1) eq_refl eq_refl
    ltac:(by exists (Dec 5 (-1)))) as H.
  destruct (next_soc sample_battery (Dec 5 (-1)) (dint 20) (dint 0) (dint 1)) as [r|e] eqn:E; [|vm_compute in E; discriminate E].
  exists r. split; [reflexivity|]. split; [|exact (proj1 H)]. vm_compute in E. injection E as <-. by vm_compute.
Defined.
