(* ===== verification/Tariffs.v ===== *)
(** * Tariffs, chargeback and budgets: [packages/tariffs], [chargeback/service.py], [budgets/service.py]

    [models.py], [calculator.py]: price periods and the bill of a sequence of meter intervals;
    [advanced.py]: tiered and real-time prices; [calendar.py]: business days.  A date is its proleptic
    ordinal (1 is Monday, January 1 of year 1) and a time of day is in microseconds.  The time-zone
    database is a parameter: the UTC offset of a zone at an instant and at a wall-clock time.  The
    decimals of a bill's line items are kept as numbers, not as text. *)
From S2P Require Import Prelude PyDecimal Domain.
From Stdlib Require Import QArith Qabs Qminmax Lqa.
Local Open Scope Z_scope.

(** ** Dates *)

Definition day_us : Z := 86400000000.
(** Ordinal of 1970-01-01 *)
Definition epoch_ordinal : Z := 719163.
Definition weekday (ordinal : Z) : Z := (ordinal + 6) mod 7.

(** A wall-clock moment *)
Record local_time := MkLocal { local_date : Z; clock : Z }.
Definition wall (t : Z) : local_time := MkLocal (epoch_ordinal + t / day_us) (t mod day_us).

(** ** models.py *)

Record PricePeriod := MkPeriod {
  period_name : string; start_local : Z; end_local : Z; period_price : dec; weekdays : gset Z
}.
Definition period_matches (p : PricePeriod) (l : local_time) : bool :=
  let in_time := if start_local p <? end_local p
    then (start_local p <=? clock l) && (clock l <? end_local p)
    else (start_local p <=? clock l) || (clock l <? end_local p) in
  bool_decide (weekday (local_date l) ∈ weekdays p) && in_time.

Record TariffPlan := MkTariff {
  tariff_id : string; tariff_version : Z; tariff_currency : string; timezone : string; effective_from : Z;
  effective_to : option Z; periods : list PricePeriod; demand_charge_per_kw : dec; capacity_charge_per_kw : dec;
  tax_rate : dec; feed_in_price_per_kwh : dec
}.
(** [TariffPlan.__post_init__] *)
Definition tariff_check (t : TariffPlan) : result TariffPlan :=
  raise_if (match periods t with [] => true | _ => false end) (ValueError "tariff requires at least one price period");;
  raise_if (existsb (λ v, dltb v (dint 0)) [demand_charge_per_kw t; tax_rate t]) (ValueError "tariff charges cannot be negative");;
  Ok t.
Definition active_on (t : TariffPlan) (day : Z) : bool :=
  (effective_from t <=? day) && match effective_to t with None => true | Some e => day <? e end.

(** ** calculator.py *)

Record MeterInterval := MkMeter {
  started_at : datetime; meter_hours : dec; import_kwh : dec; export_kwh : dec; peak_kw : dec
}.
Record LineItem := MkLine { line_period : string; line_import : dec; unit_price : dec; line_cost : dec }.
Record CostBreakdown := MkCost {
  cost_energy : Money; cost_demand : Money; cost_capacity : Money; cost_export_credit : Money; cost_tax : Money;
  cost_total : Money; line_items : list LineItem
}.

(** The accumulators of the loop over the intervals *)
Record bill := MkBill { bill_energy : dec; bill_export : dec; bill_peak : dec; bill_lines : list LineItem }.

Section tz.
(** [ZoneInfo(key)]: the UTC offset in microseconds at an instant, or the lookup error *)
Context (utc_offset : string → Z → result Z).
(** The offset for a wall-clock time, as [replace(tzinfo=...)] uses it *)
Context (wall_offset : string → Z → result Z).

Definition localize (zone : string) (t : datetime) : result local_time :=
  o ← utc_offset zone (us t); Ok (wall (us t + o)).

Definition bill_interval (t : TariffPlan) (b : bill) (m : MeterInterval) : result bill :=
  raise_if (negb (aware (started_at m))) (ValueError "meter interval timestamp must be timezone-aware");;
  l ← localize (timezone t) (started_at m);
  raise_if (negb (active_on t (local_date l))) (ValueError "tariff is not active for interval");;
  match base.filter (λ p, period_matches p l = true) (periods t) with
  | [p] =>
      let cost := dmul (import_kwh m) (period_price p) in
      Ok (MkBill (dadd (bill_energy b) cost)
        (dadd (bill_export b) (dmul (export_kwh m) (feed_in_price_per_kwh t)))
        (dmax (bill_peak b) (peak_kw m))
        (bill_lines b ++ [MkLine (period_name p) (import_kwh m) (period_price p) cost]))
  | _ => Err (ValueError "tariff periods must cover each interval exactly once")
  end.

Definition rounded_money (a : dec) (cur : string) : result Money := m ← money a cur; money_rounded m 2.

Definition calculate (t : TariffPlan) (intervals : list MeterInterval)
    (contracted_capacity_kw dr_credit dr_penalty : dec) : result CostBreakdown :=
  (* [ZoneInfo(tariff.timezone)] raises for an unknown zone *)
  utc_offset (timezone t) 0;;
  b ← foldM_result (bill_interval t) intervals (MkBill (dint 0) (dint 0) (dint 0) []);
  let demand := dmul (bill_peak b) (demand_charge_per_kw t) in
  let capacity := dmul contracted_capacity_kw (capacity_charge_per_kw t) in
  let subtotal := dadd (dsub (dsub (dadd (dadd (bill_energy b) demand) capacity) (bill_export b)) dr_credit) dr_penalty in
  let tax := dmul subtotal (tax_rate t) in
  let cur := tariff_currency t in
  total ← rounded_money (dadd subtotal tax) cur;
  e ← rounded_money (bill_energy b) cur;
  d ← rounded_money demand cur;
  c ← rounded_money capacity cur;
  x ← rounded_money (bill_export b) cur;
  tx ← rounded_money tax cur;
  Ok (MkCost e d c x tx total (bill_lines b)).

(** ** calendar.py *)

Definition local_billing_date (moment : datetime) (zone : string) : result Z :=
  raise_if (negb (aware moment)) (ValueError "billing timestamp must be timezone-aware");;
  l ← localize zone moment; Ok (local_date l).

Definition normalize_local (moment : datetime) (zone : string) : result datetime :=
  if aware moment then Ok moment
  else o ← wall_offset zone (us moment); Ok (DT (us moment - o) true).
End tz.

(** [by_id.setdefault(plan.id, []).append(plan)] *)
Definition group_by_id (plans : list TariffPlan) : list (string * list TariffPlan) :=
  foldl (λ d p, od_set (tariff_id p) (default [] (od_get (tariff_id p) d) ++ [p]) d) [] plans.

Definition overlapping (left right : TariffPlan) : bool :=
  match effective_to left with None => true | Some e => effective_from right <? e end.

Fixpoint adjacent_overlap (l : list TariffPlan) : bool :=
  match l with
  | a :: (b :: _) as l' => overlapping a b || adjacent_overlap l'
  | _ => false
  end.

Definition validate_tariff_versions (plans : list TariffPlan) : result unit :=
  foldM_result (λ _ versions,
    raise_if (adjacent_overlap (py_sorted (cmp_on effective_from Z.compare) versions.2)) (ValueError "overlapping tariff versions"))
    (group_by_id plans) tt.

Record BillingCalendar := MkCalendar { cal_timezone : string; holidays : gset Z; weekend_days : gset Z }.
Definition is_business_day (c : BillingCalendar) (day : Z) : bool :=
  negb (bool_decide (weekday day ∈ weekend_days c)) && negb (bool_decide (day ∈ holidays c)).

(** [for _ in range(n)] *)
Fixpoint business_day_from (n : nat) (c : BillingCalendar) (candidate : Z) : result Z :=
  match n with
  | O => Err (RuntimeError "billing calendar has no business day in bounded search")
  | S n' => if is_business_day c candidate then Ok candidate else business_day_from n' c (candidate + 1)
  end.
Definition next_business_day (c : BillingCalendar) (day : Z) : result Z := business_day_from 370 c (day + 1).

(** ** advanced.py *)

Record EnergyTier := MkTier { up_to_kwh : option dec; tier_price : dec }.
Definition tier_check (t : EnergyTier) : result EnergyTier :=
  raise_if (match up_to_kwh t with Some u => dleb u (dint 0) | None => false end) (ValueError "tier boundary must be positive");;
  raise_if (dltb (tier_price t) (dint 0)) (ValueError "tier price cannot be negative");;
  Ok t.

(** [set(l)], by numeric value *)
Fixpoint dedup (l : list dec) : list dec :=
  match l with
  | [] => []
  | x :: l' => if existsb (deqb x) l' then dedup l' else x :: dedup l'
  end.
(** [l == k] on lists of decimals *)
Fixpoint dlist_eqb (l k : list dec) : bool :=
  match l, k with
  | [], [] => true
  | x :: l', y :: k' => deqb x y && dlist_eqb l' k'
  | _, _ => false
  end.

Fixpoint tier_loop (tiers : list EnergyTier) (remaining lower cost : dec) : dec :=
  match tiers with
  | [] => cost
  | t :: ts =>
      let width0 := match up_to_kwh t with None => remaining | Some u => dmin remaining (dsub u lower) end in
      let width := dmax (dint 0) width0 in
      let cost := dadd cost (dmul width (tier_price t)) in
      let remaining := dsub remaining width in
      if dleb remaining (dint 0) then cost
      else tier_loop ts remaining (match up_to_kwh t with None => lower | Some u => u end) cost
  end.

Definition calculate_tiered_energy (import_kwh : dec) (tiers : list EnergyTier) (cur : string) : result Money :=
  raise_if (dltb import_kwh (dint 0)
            || match last tiers with None => true | Some t => match up_to_kwh t with Some _ => true | None => false end end)
    (ValueError "tiered tariff requires nonnegative usage and an open final tier");;
  let finite := omap up_to_kwh tiers in
  raise_if (negb (dlist_eqb finite (py_sorted dcompare (dedup finite)))) (ValueError "tier boundaries must be unique and increasing");;
  rounded_money (tier_loop tiers import_kwh (dint 0) (dint 0)) cur.

Record RealTimePrice := MkRtp { rtp_at : datetime; rtp_price : dec }.

Definition real_time_price_at (prices : list RealTimePrice) (moment : datetime) (maximum_age : Z) : result dec :=
  raise_if (negb (aware moment) || (maximum_age <=? 0))
    (ValueError "real-time price lookup requires aware time and positive maximum age");;
  raise_if (existsb (λ p, negb (aware (rtp_at p)) || dltb (rtp_price p) (dint 0)) prices)
    (ValueError "real-time prices must be aware and nonnegative");;
  match base.filter (λ p, us (rtp_at p) <= us moment) prices with
  | [] => Err (LookupError "no real-time price is available")
  | p :: ps =>
      let selected := py_max_from (cmp_on (λ p, us (rtp_at p)) Z.compare) p ps in
      raise_if (maximum_age <? us moment - us (rtp_at selected)) (LookupError "real-time price is stale");;
      Ok (rtp_price selected)
  end.

Definition subsidy_credit (import_kwh subsidy_per_kwh : dec) (cur : string) : result Money :=
  raise_if (dltb import_kwh (dint 0) || dltb subsidy_per_kwh (dint 0)) (ValueError "subsidy inputs cannot be negative");;
  rounded_money (dmul import_kwh subsidy_per_kwh) cur.

(** ** chargeback/service.py *)

Record ChargeAllocation := MkCharge { dimension : string; value : string; weight : dec; charge_amount : dec }.

(** Order of [sorted(weights.items())]: the keys of the dict are unique, so the weights are never
    compared.  The dict is its list of items, in insertion order. *)
Definition item_order : (string * string) * dec → (string * string) * dec → comparison :=
  cmp_then (cmp_on (λ i, i.1.1) String.compare) (cmp_on (λ i, i.1.2) String.compare).

Fixpoint allocate_loop (total denominator : dec) (places : Z) (items : list ((string * string) * dec)) (assigned : dec)
    : result (list ChargeAllocation) :=
  match items with
  | [] => Ok []
  | ((d, v), w) :: rest =>
      a ← match rest with
          | [] => Ok (dsub total assigned)
          | _ => q ← ddiv (dmul total w) denominator; dquantize q (- places)
          end;
      tail ← allocate_loop total denominator places rest (dadd assigned a);
      Ok (MkCharge d v w a :: tail)
  end.

Definition allocate_cost (total : dec) (weights : list ((string * string) * dec)) (places : Z) : result (list ChargeAllocation) :=
  raise_if (dltb total (dint 0) || existsb (λ i, dltb i.2 (dint 0)) weights) (ValueError "cost and weights cannot be negative");;
  let denominator := dsum (map snd weights) in
  raise_if (dleb denominator (dint 0)) (ValueError "positive allocation weight is required");;
  l ← allocate_loop total denominator places (py_sorted item_order weights) (dint 0);
  raise_if (negb (deqb (dsum (map charge_amount l)) total)) (RuntimeError "chargeback reconciliation failed");;
  Ok l.

(** ** budgets/service.py *)

Record Budget := MkBudget {
  budget_tenant : string; cost_limit : dec; carbon_limit_kg : dec; power_limit_kw : dec; quota_gpu_hours : dec; warn_at : dec
}.
Record BudgetStatus := MkBudgetStatus {
  cost_used : dec; carbon_used : dec; gpu_hours_used : dec; warning : bool; exceeded : bool
}.
Record budget_ledger := MkBudgetLedger { budgets : gmap string Budget; budget_usage : gmap string (dec * dec * dec) }.

Definition budget_configure (b : Budget) : M budget_ledger unit := λ s,
  (MkBudgetLedger (<[budget_tenant b := b]> (budgets s)) (budget_usage s), Ok tt).

Definition usage_ratio (used limit : dec) : result dec := if dbool limit then ddiv used limit else Ok (dint 1).

Definition budget_status (tenant : string) (s : budget_ledger) : result BudgetStatus :=
  b ← of_option (KeyError tenant) (budgets s !! tenant);
  let '(cost, carbon, gpu) := default (dint 0, dint 0, dint 0) (budget_usage s !! tenant) in
  r1 ← usage_ratio cost (cost_limit b);
  r2 ← usage_ratio carbon (carbon_limit_kg b);
  r3 ← usage_ratio gpu (quota_gpu_hours b);
  let top := dmax (dmax r1 r2) r3 in
  Ok (MkBudgetStatus cost carbon gpu (dleb (warn_at b) top) (dleb (dint 1) top)).

Definition budget_record (tenant : string) (cost carbon gpu_hours : dec) : M budget_ledger BudgetStatus := λ s,
  if dltb (dmin (dmin cost carbon) gpu_hours) (dint 0) then (s, Err (ValueError "budget usage cannot be negative"))
  else
    let '(c, k, g) := default (dint 0, dint 0, dint 0) (budget_usage s !! tenant) in
    let s' := MkBudgetLedger (budgets s)
      (<[tenant := (dadd c cost, dadd k carbon, dadd g gpu_hours)]> (budget_usage s)) in
    (s', budget_status tenant s').

(** ** Tariff versions *)

(** No two elements at different positions violate [R]. *)
Definition pairwise {A} (R : A → A → Prop) (l : list A) : Prop :=
  ∀ i j x y, l !! i = Some x → l !! j = Some y → i ≠ j → R x y.

Lemma pairwise_perm {A} (R : A → A → Prop) l k : l ≡ₚ k → pairwise R k → pairwise R l.
Proof.
  intros Hp Hk i j x y Hi Hj Hne. apply Permutation_inj in Hp as (_ & f & Hf & Hl).
  rewrite Hl in Hi. rewrite Hl in Hj. eapply Hk; [exact Hi|exact Hj|]. intros E. by apply Hf in E.
Qed.

Lemma pairwise_cons {A} (R : A → A → Prop) x l : (∀ a b, R a b → R b a) →
  pairwise R (x :: l) ↔ Forall (R x) l ∧ pairwise R l.
Proof.
  intros Hsym. split.
  - intros H. split.
    + apply Forall_forall. intros y [n Hn]%list_elem_of_lookup. by apply (H 0%nat (S n)).
    + intros i j a b Hi Hj Hne. apply (H (S i) (S j)); [done..|lia].
  - intros [Hx Hl] [|i] [|j] a b Hi Hj Hne; simpl in *; simplify_eq; try done.
    + rewrite Forall_forall in Hx. apply Hx. by eapply list_elem_of_lookup_2.
    + rewrite Forall_forall in Hx. apply Hsym, Hx. by eapply list_elem_of_lookup_2.
    + eapply Hl; [done..|lia].
Qed.

Definition disjoint_versions (p q : TariffPlan) : Prop := ∀ day, ¬ (active_on p day = true ∧ active_on q day = true).

(** The version is in force on at least one day. *)
Definition proper_window (p : TariffPlan) : Prop := match effective_to p with None => True | Some e => effective_from p < e end.

Lemma overlapping_spec p q : proper_window p → proper_window q → effective_from p <= effective_from q →
  overlapping p q = false ↔ disjoint_versions p q.
Proof.
  unfold overlapping, disjoint_versions, active_on, proper_window. intros Hp Hq Hle. split.
  - intros Ho day [H1 H2]. destruct (effective_to p); [|done]. bprop. lia.
  - intros Hd. specialize (Hd (effective_from q)). destruct (effective_to p) as [e|].
    + apply Z.ltb_ge. destruct (Z.le_gt_cases e (effective_from q)); [done|]. destruct Hd. 
      rewrite Z.leb_refl, (proj2 (Z.leb_le _ _)), (proj2 (Z.ltb_lt _ _)) by lia.
      destruct (effective_to q); [rewrite (proj2 (Z.ltb_lt _ _)) by lia|]; done.
    + destruct Hd. rewrite Z.leb_refl, (proj2 (Z.leb_le _ _)) by lia.
      destruct (effective_to q); [rewrite (proj2 (Z.ltb_lt _ _)) by lia|]; done.
Qed.

Lemma overlapping_trans p q r : proper_window q → overlapping p q = false → overlapping q r = false → overlapping p r = false.
Proof.
  unfold overlapping, proper_window. destruct (effective_to p), (effective_to q); try done. intros ? ? ?. bprop. 
  apply Z.ltb_ge. lia.
Qed.

Lemma by_from_le p q : key_le (cmp_on effective_from Z.compare) p q → effective_from p <= effective_from q.
Proof.
  unfold key_le, cmp_leb, cmp_on. by destruct (Z.compare_spec (effective_from p) (effective_from q)); [lia|lia|].
Qed.

(** On versions in order of their starts, the check of neighbours covers all pairs. *)
Lemma adjacent_overlap_spec l : Forall proper_window l → StronglySorted (key_le (cmp_on effective_from Z.compare)) l →
  adjacent_overlap l = false ↔ pairwise disjoint_versions l.
Proof.
  intros Hw. assert (∀ a b, disjoint_versions a b → disjoint_versions b a) as Hsym by (intros a b H d [? ?]; by apply (H d)).
  induction l as [|a l IH]; intros Hs; [done|]. apply Forall_cons in Hw as [Ha Hw].
  apply StronglySorted_inv in Hs as [Hs Hle]. specialize (IH Hw Hs). rewrite pairwise_cons by done. rewrite <- IH.
  assert (Forall (λ b, effective_from a <= effective_from b) l) as Hfrom.
  { eapply Forall_impl; [exact Hle|]. intros b. apply by_from_le. }
  assert (Forall (disjoint_versions a) l ↔ Forall (λ b, overlapping a b = false) l) as ->.
  { rewrite !Forall_forall. rewrite Forall_forall in Hw. rewrite Forall_forall in Hfrom.
    split; intros H b Hb; apply overlapping_spec; auto. }
  destruct l as [|b l]; [simpl; by rewrite Forall_nil|]. cbn [adjacent_overlap]. fold (adjacent_overlap (b :: l)).
  rewrite orb_false_iff. split; [|intros [[? _]%Forall_cons ?]; done]. intros [Hab Hadj]. split; [|done]. constructor; [done|].
  (* the first of the rest does not overlap the others *)
  apply Forall_forall. intros c Hc. apply Forall_cons in Hw as [Hb Hw].
  apply (overlapping_trans a b c Hb Hab). apply IH in Hadj. rewrite pairwise_cons in Hadj by done. destruct Hadj as [Hbl _].
  apply StronglySorted_inv in Hs as [_ Hble]. rewrite Forall_forall in Hbl. rewrite Forall_forall in Hw.
  apply overlapping_spec; auto.
  rewrite Forall_forall in Hble. by apply by_from_le, Hble.
Qed.

Definition versions_of (id : string) (plans : list TariffPlan) : list TariffPlan :=
  base.filter (λ p, tariff_id p = id) plans.

Lemma group_by_id_spec plans : NoDup (group_by_id plans).*1 ∧
  ∀ id, od_get id (group_by_id plans) = match versions_of id plans with [] => None | vs => Some vs end.
Proof.
  unfold group_by_id, versions_of. induction plans as [|p plans [Hnd IH]] using rev_ind; [split; [constructor|done]|].
  rewrite foldl_snoc. split; [by apply od_set_NoDup|]. intros id. rewrite filter_app, filter_cons, filter_nil.
  destruct (decide (tariff_id p = id)) as [<-|Hne].
  - rewrite od_get_set_eq, IH. by destruct (base.filter _ plans).
  - rewrite od_get_set_ne, IH, app_nil_r by done. done.
Qed.

Lemma validate_versions_ok plans : is_ok (validate_tariff_versions plans) = true ↔
  ∀ id, adjacent_overlap (py_sorted (cmp_on effective_from Z.compare) (versions_of id plans)) = false.
Proof.
  destruct (group_by_id_spec plans) as [Hnd Hget]. unfold validate_tariff_versions.
  assert (∀ l, is_ok (foldM_result (λ (_ : ()) (versions : string * list TariffPlan),
      raise_if (adjacent_overlap (py_sorted (cmp_on effective_from Z.compare) versions.2)) (ValueError "overlapping tariff versions")) l tt) = true ↔
    Forall (λ v, adjacent_overlap (py_sorted (cmp_on effective_from Z.compare) v.2) = false) l) as ->.
  { induction l as [|v l IH]; [done|]. simpl. rewrite Forall_cons, <- IH. unfold raise_if.
    destruct (adjacent_overlap _); [split; [done|by intros [? _]]|]. tauto. }
  rewrite Forall_forall. split.
  - intros H id. specialize (Hget id). destruct (versions_of id plans) as [|v vs] eqn:E; [done|].
    by apply (H (id, v :: vs)), od_get_elem_of.
  - intros H [id vs] Hin. simpl. apply elem_of_od_get in Hin; [|done]. rewrite Hget in Hin. specialize (H id).
    destruct (versions_of id plans); simplify_eq. done.
Qed.

Lemma pairwise_versions plans :
  pairwise (λ p q, tariff_id p = tariff_id q → disjoint_versions p q) plans ↔
  ∀ id, pairwise disjoint_versions (versions_of id plans).
Proof.
  assert (∀ a b, disjoint_versions a b → disjoint_versions b a) as Hsym by (intros a b H d [? ?]; by apply (H d)).
  induction plans as [|p plans IH]; [done|]. rewrite pairwise_cons, IH by (intros; auto). unfold versions_of. split.
  - intros [Hp Hl] id. rewrite filter_cons. case_decide as Hid; [|done]. apply pairwise_cons; [done|]. split; [|done].
    rewrite Forall_forall in Hp. apply Forall_forall. intros q [Hq Hin]%list_elem_of_filter. apply Hp; congruence.
  - intros H. split.
    + apply Forall_forall. intros q Hq Hid. specialize (H (tariff_id p)). rewrite filter_cons_True in H by done.
      apply pairwise_cons in H as [Hf _]; [|done]. rewrite Forall_forall in Hf. apply Hf. by apply list_elem_of_filter.
    + intros id. specialize (H id). rewrite filter_cons in H. case_decide; [|done]. by apply pairwise_cons in H as [_ ?].
Qed.

(** ** Properties *)

(** [validate_tariff_versions] rejects exactly the overlaps.  For versions each in force on at least
    one day, it returns iff no two different versions of one tariff are in force on the same day: checking
    neighbours in order of their start dates covers all pairs. *)
Theorem tariff_versions_disjoint (plans : list TariffPlan) (Hw : Forall proper_window plans) :
  is_ok (validate_tariff_versions plans) = true ↔
  ∀ i j p q, plans !! i = Some p → plans !! j = Some q → i ≠ j → tariff_id p = tariff_id q →
    ∀ day, ¬ (active_on p day = true ∧ active_on q day = true).
Proof.
  rewrite validate_versions_ok.
  transitivity (∀ id, pairwise disjoint_versions (versions_of id plans)); [|rewrite <- pairwise_versions; done].
  apply forall_proper. intros id. set (vs := versions_of id plans). set (cmp := cmp_on effective_from Z.compare).
  assert (py_sorted cmp vs ≡ₚ vs) as Hp by apply py_sorted_perm.
  assert (Forall proper_window vs) as Hvs.
  { apply Forall_forall. intros p [_ Hin]%list_elem_of_filter. rewrite Forall_forall in Hw. by apply Hw. }
  rewrite adjacent_overlap_spec; [|by rewrite Hp|apply py_sorted_sorted; apply _].
  split; apply pairwise_perm; done.
Qed.

Lemma tariff_versions_disjoint_witness :
  let v from to := MkTariff "t" 1 "USD" "UTC" from to [] (dint 0) (dint 0) (dint 0) (dint 0) in
  ¬ (active_on (v 10 (Some 20)) 15 = true ∧ active_on (v 20 None) 15 = true).
Proof.
  intros v. refine (proj1 (tariff_versions_disjoint [v 20 None; v 10 (Some 20)] _) _ 1%nat 0%nat _ _ eq_refl eq_refl _ eq_refl 15).
  - by repeat constructor.
  - by vm_compute.
  - done.
Defined.

(** ** Tiered prices *)

Definition increasing (l : list dec) : Prop := StronglySorted (λ a b, dval a < dval b)%Q l.

Lemma dedup_sublist l : dedup l `sublist_of` l.
Proof. induction l as [|x l IH]; simpl; [done|]. destruct (existsb _ _); by constructor. Qed.

Lemma dedup_distinct l : pairwise (λ a b, ¬ dval a == dval b)%Q (dedup l).
Proof.
  induction l as [|x l IH]; simpl; [done|]. destruct (existsb (deqb x) l) eqn:E; [done|].
  apply pairwise_cons; [intros a b Hab Hba; apply Hab; by rewrite Hba|]. split; [|done].
  apply existsb_false in E. rewrite Forall_forall in E. apply Forall_forall. intros y Hy.
  apply deqb_false, E. by eapply elem_of_sublist, dedup_sublist.
Qed.

Lemma increasing_dedup l : increasing l → dedup l = l.
Proof.
  induction 1 as [|x l Hl IH Hx]; simpl; [done|]. rewrite IH. assert (existsb (deqb x) l = false) as ->; [|done].
  apply existsb_false. eapply Forall_impl; [exact Hx|]. simpl. intros y Hy. dprop. lra.
Qed.

Lemma key_le_dcompare a b : key_le dcompare a b ↔ (dval a <= dval b)%Q.
Proof. unfold key_le, cmp_leb. rewrite <- dleb_true. unfold dleb. by destruct (dcompare a b). Qed.

Lemma sorted_distinct_increasing l : StronglySorted (key_le dcompare) l → pairwise (λ a b, ¬ dval a == dval b)%Q l → increasing l.
Proof.
  induction 1 as [|x l Hl IH Hx]; intros Hd; [constructor|].
  apply pairwise_cons in Hd as [Hne Hd]; [|intros a b Hab Hba; apply Hab; by rewrite Hba]. constructor; [by apply IH|].
  rewrite Forall_forall in Hx. rewrite Forall_forall in Hne. apply Forall_forall. intros y Hy.
  specialize (Hx y Hy). apply key_le_dcompare in Hx. specialize (Hne y Hy). simpl in Hne. 
  destruct (Qle_lt_or_eq _ _ Hx); [done|]. by destruct Hne.
Qed.

Lemma dlist_eqb_Forall2 l k : dlist_eqb l k = true ↔ Forall2 (λ a b, dval a == dval b)%Q l k.
Proof.
  revert k. induction l as [|x l IH]; intros [|y k]; simpl; try (split; [done|]; by inversion 1).
  rewrite andb_true_iff, IH, deqb_true, Forall2_cons. done.
Qed.

Lemma increasing_transport l k : Forall2 (λ a b, dval a == dval b)%Q l k → increasing k → increasing l.
Proof.
  induction 1 as [|x y l k Hxy Hlk IH]; intros Hk; [constructor|]. apply StronglySorted_inv in Hk as [Hk Hy].
  constructor; [by apply IH|]. clear -Hxy Hlk Hy. induction Hlk as [|a b l k Hab Hlk IH]; [constructor|].
  apply Forall_cons in Hy as [Hb Hy]. constructor; [lra|auto].
Qed.

(** The comparison with the sorted set accepts exactly the strictly increasing lists. *)
Lemma boundaries_check l : dlist_eqb l (py_sorted dcompare (dedup l)) = true ↔ increasing l.
Proof.
  rewrite dlist_eqb_Forall2. split.
  - intros H. eapply increasing_transport; [exact H|]. apply sorted_distinct_increasing; [apply py_sorted_sorted; apply _|].
    eapply pairwise_perm; [apply py_sorted_perm; apply _|]. apply dedup_distinct.
  - intros H. rewrite increasing_dedup, py_sorted_id by first [done|
      clear -H; induction H as [|x l Hl IH Hx]; constructor; [done|]; eapply Forall_impl; [exact Hx|];
      intros y Hy; apply key_le_dcompare; simpl in Hy; lra].
    clear. induction l; constructor; [reflexivity|done].
Qed.

(** The exact price of the part of the usage above [lower], tier by tier *)
Fixpoint tiered_cost (usage lower : Q) (tiers : list EnergyTier) : Q :=
  match tiers with
  | [] => 0
  | t :: ts =>
      match up_to_kwh t with
      | None => Qmax 0 (usage - lower) * dval (tier_price t)
      | Some u => Qmax 0 (Qmin usage (dval u) - lower) * dval (tier_price t) + tiered_cost usage (dval u) ts
      end
  end%Q.

(** Usage and boundaries below 10^8 kWh with at most 4 decimals, prices below 10^4 with at most 6 *)
Definition tier_in_range (t : EnergyTier) : Prop :=
  match up_to_kwh t with None => True | Some u => on_grid 4 (10 ^ 12) (dval u) end ∧
  on_grid 6 (10 ^ 10) (dval (tier_price t)).

Lemma tiered_cost_zero tiers : ∀ usage lower, (usage <= lower)%Q → increasing (omap up_to_kwh tiers) →
  (∀ u, u ∈ omap up_to_kwh tiers → lower <= dval u)%Q → (tiered_cost usage lower tiers == 0)%Q.
Proof.
  induction tiers as [|t tiers IH]; intros usage lower Hle Hinc Hall; simpl; [done|]. simpl in *.
  destruct (up_to_kwh t) as [u|].
  - apply StronglySorted_inv in Hinc as [Hinc Hu]. pose proof (Hall u (list_elem_of_here _ _)) as Hlu.
    rewrite IH; [|lra|done|].
    + pose proof (Q.le_min_l usage (dval u)). rewrite Q.max_l by lra. ring.
    + intros x Hx. rewrite Forall_forall in Hu. apply Qlt_le_weak. by apply Hu.
  - rewrite Q.max_l by lra. ring.
Qed.

Lemma tier_width_bounded remaining lower u : on_grid 4 (10 ^ 12) (dval remaining) → on_grid 4 (10 ^ 12) (dval lower) →
  on_grid 4 (10 ^ 12) (dval u) → (0 <= dval remaining)%Q → (dval lower <= dval u)%Q →
  let width := dmax (dint 0) (dmin remaining (dsub u lower)) in
  (dval width == Qmin (dval remaining) (dval u - dval lower))%Q ∧ on_grid 4 (10 ^ 12) (dval width).
Proof.
  intros Hr Hl Hu H0 Hlu width. pose proof (dsub_grid 4 _ _ u lower Hu Hl ltac:(done)) as Hsub.
  assert (dval width == Qmin (dval remaining) (dval u - dval lower))%Q as Hw.
  { unfold width, dmax, dmin. destruct (dltb (dsub u lower) remaining) eqn:E1; dprop;
      [rewrite Q.min_r by lra|rewrite Q.min_l by lra]; destruct (dltb (dint 0) _) eqn:E2; dprop;
      change (dval (dint 0)) with (inject_Z 0 * p10 0)%Q in *; rewrite Qmult_0_l in *; lra. }
  split; [done|]. rewrite Hw.
  pose proof (on_grid_sub 4 _ _ _ _ Hu Hl) as Hg.
  destruct (Q.min_spec (dval remaining) (dval u - dval lower)) as [[Hlt ->]|[Hle ->]]; [done|].
  by eapply on_grid_between; [exact Hg|exact Hr|lra|].
Qed.

Lemma tier_loop_exact tiers : ∀ (usage : Q) lower remaining cost C,
  Forall tier_in_range tiers → increasing (omap up_to_kwh tiers) →
  (∀ u, u ∈ omap up_to_kwh tiers → dval lower <= dval u)%Q →
  on_grid 4 (10 ^ 12) (dval lower) → on_grid 4 (10 ^ 12) (dval remaining) → on_grid 10 C (dval cost) →
  C + Z.of_nat (length tiers) * 10 ^ 22 < 10 ^ 28 →
  (0 <= dval remaining)%Q → (dval remaining == usage - dval lower)%Q →
  let r := tier_loop tiers remaining lower cost in
  (dval r == dval cost + tiered_cost usage (dval lower) tiers)%Q ∧ on_grid 10 (C + Z.of_nat (length tiers) * 10 ^ 22) (dval r).
Proof.
  induction tiers as [|t tiers IH]; intros usage lower remaining cost C Hr Hinc Hall Hl Hrem Hc HC H0 Heq; cbn [tier_loop tiered_cost].
  { split; [lra|]. simpl. by rewrite Z.add_0_r. }
  apply Forall_cons in Hr as [[Hu Hp] Hr]. rewrite length_cons, Nat2Z.inj_succ in *.
  assert (dval (dint 0) == 0)%Q as Hz by apply dval_dint. simpl in Hinc, Hall.
  (* one tier of width [w] *)
  assert (∀ w, on_grid 4 (10 ^ 12) (dval w) → let c := dadd cost (dmul w (tier_price t)) in
    (dval c == dval cost + dval w * dval (tier_price t))%Q ∧ on_grid 10 (C + 10 ^ 22) (dval c)) as Hstep.
  { intros w Hw c. pose proof (on_grid_mul _ _ _ _ _ _ Hw Hp) as Hg.
    pose proof (dmul_grid _ _ _ _ _ _ Hw Hp ltac:(done)) as Hm. rewrite <- Hm in Hg.
    assert (dval c == dval cost + dval w * dval (tier_price t))%Q as E
      by (unfold c; rewrite (dadd_grid 10 C (10 ^ 22)), Hm; [done|done|exact Hg|lia]).
    split; [done|]. rewrite E, <- Hm. by apply on_grid_add. }
  destruct (up_to_kwh t) as [u|].
  - pose proof (Hall u (list_elem_of_here _ _)) as Hlu. apply StronglySorted_inv in Hinc as [Hinc Hgt]. rewrite Forall_forall in Hgt.
    destruct (tier_width_bounded remaining lower u Hrem Hl Hu H0 Hlu) as [Hw Hwg].
    set (w := dmax (dint 0) (dmin remaining (dsub u lower))) in *. destruct (Hstep w Hwg) as [Hc' Hcg].
    pose proof (dsub_grid 4 _ _ remaining w Hrem Hwg ltac:(done)) as Hrest.
    assert (Qmax 0 (Qmin usage (dval u) - dval lower) == dval w)%Q as ->.
    { rewrite Hw, Heq. rewrite Q.max_r; [|destruct (Q.min_spec usage (dval u)) as [[? ->]|[? ->]]; lra].
      destruct (Q.min_spec usage (dval u)) as [[? ->]|[? ->]]; [rewrite Q.min_l by lra|rewrite Q.min_r by lra]; ring. }
    destruct (dleb (dsub remaining w) (dint 0)) eqn:Eb; dprop; rewrite Hrest, Hz in Eb.
    + split; [|eapply on_grid_weaken; [|exact Hcg]; lia]. rewrite Hc', (tiered_cost_zero tiers usage (dval u)); [ring| |done|].
      * destruct (Q.min_spec (dval remaining) (dval u - dval lower)) as [[? Hm]|[? Hm]]; rewrite Hm in Hw; lra.
      * intros x Hx. apply Qlt_le_weak. by apply Hgt.
    + destruct (Q.min_spec (dval remaining) (dval u - dval lower)) as [[? Hm]|[? Hm]]; rewrite Hm in Hw; [lra|].
      destruct (IH usage u (dsub remaining w) (dadd cost (dmul w (tier_price t))) (C + 10 ^ 22)) as [He Hg]; try done.
      * intros x Hx. apply Qlt_le_weak. by apply Hgt.
      * rewrite Hrest. eapply on_grid_between; [by apply on_grid_sub|exact Hrem|lra|lra].
      * lia.
      * rewrite Hrest. lra.
      * rewrite Hrest. lra.
      * split; [rewrite He, Hc'; ring|]. eapply on_grid_weaken; [|exact Hg]. lia.
  - set (w := dmax (dint 0) remaining). assert (dval w == dval remaining)%Q as Hw.
    { unfold w, dmax. destruct (dltb (dint 0) remaining) eqn:E; dprop; lra. }
    assert (on_grid 4 (10 ^ 12) (dval w)) as Hwg by by rewrite Hw.
    destruct (Hstep w Hwg) as [Hc' Hcg].
    pose proof (dsub_grid 4 _ _ remaining w Hrem Hwg ltac:(done)) as Hrest.
    assert (dleb (dsub remaining w) (dint 0) = true) as -> by (dprop; rewrite Hrest, Hz; lra).
    split; [|eapply on_grid_weaken; [|exact Hcg]; lia]. rewrite Hc', Q.max_r, Hw, Heq by lra. done.
Qed.

Lemma rounded_money_error x cur : money_wf (MkMoney (dint 0) cur) → (Qabs (dval x) <= inject_Z (10 ^ 20))%Q →
  ∃ m, rounded_money x cur = Ok m ∧ currency m = cur ∧ (2 * Qabs (dval x - dval (amount m)) <= 1 # 100)%Q.
Proof.
  intros Hw Hx. destruct (dquantize_ok x (-2) (10 ^ 22)) as [q Hq]; [etransitivity; [exact Hx|by vm_compute]|done|].
  unfold rounded_money, money_rounded. munfold.
  assert (∀ y, money y cur = Ok (MkMoney y cur)) as Hm by (intros y; apply (money_wf_with y (MkMoney (dint 0) cur) Hw)).
  rewrite Hm. cbn [amount currency]. change (Z.opp 2) with (-2)%Z. rewrite Hq.
  rewrite Hm. eexists. split; [done|]. split; [done|].
  by apply dquantize_error in Hq as [_ ?].
Qed.

(** What [calculate_tiered_energy] accepts *)
Definition tiers_valid (usage : dec) (tiers : list EnergyTier) : Prop :=
  (0 <= dval usage)%Q ∧ (∃ t, last tiers = Some t ∧ up_to_kwh t = None) ∧ increasing (omap up_to_kwh tiers).

(** The tiered bill is exact to the cent.  For tiers their constructor accepts, at most 10^5 of them,
    usage and boundaries below 10^8 kWh with 4 decimals and prices below 10^4 with 6 decimals: if the
    usage is non-negative, the last tier open and the boundaries strictly increasing, the charge differs
    by at most half a cent from the sum, over the tiers, of price times the part of the usage that falls
    in the tier; otherwise [ValueError] is raised. *)
Theorem tiered_energy_exact (usage : dec) (tiers : list EnergyTier) (cur : string)
    (Hcur : money_wf (MkMoney (dint 0) cur)) (Hwf : Forall (λ t, tier_check t = Ok t) tiers)
    (Hrange : Forall tier_in_range tiers) (Husage : on_grid 4 (10 ^ 12) (dval usage))
    (Hcount : Z.of_nat (length tiers) <= 100000) :
  (tiers_valid usage tiers → ∃ m, calculate_tiered_energy usage tiers cur = Ok m ∧ currency m = cur ∧
     (2 * Qabs (tiered_cost (dval usage) 0 tiers - dval (amount m)) <= 1 # 100)%Q) ∧
  (¬ tiers_valid usage tiers → ∃ msg, calculate_tiered_energy usage tiers cur = Err (ValueError msg)).
Proof.
  assert (dval (dint 0) = 0%Q) as Hz by reflexivity. unfold calculate_tiered_energy. munfold. split.
  - intros (H0 & (t & Hlast & Ht) & Hinc). rewrite Hlast, Ht.
    assert (dltb usage (dint 0) = false) as -> by (dprop; by rewrite Hz). rewrite (proj2 (boundaries_check _) Hinc). simpl.
    destruct (tier_loop_exact tiers (dval usage) (dint 0) usage (dint 0) 0) as [He Hg]; try done; try lia.
    + intros u (t' & Hin & Hu)%list_elem_of_omap. rewrite Forall_forall in Hwf. specialize (Hwf t' Hin).
      unfold tier_check in Hwf. munfold. rewrite Hu in Hwf. destruct (dleb u (dint 0)) eqn:E; [done|]. dprop. by apply Qlt_le_weak.
    + rewrite Hz. by apply on_grid_0.
    + rewrite Hz. by apply on_grid_0.
    + rewrite Hz. lra.
    + set (x := tier_loop _ _ _ _) in *. destruct (rounded_money_error x cur Hcur) as (m & Hm & Hmc & Herr).
      * destruct Hg as (n & Hn & Hb). rewrite Hn, Qabs_Qmult, (Qabs_pos (p10 _)) by (apply Qlt_le_weak, p10_pos).
        etransitivity; [apply Qmult_le_compat_r; [|apply Qlt_le_weak, p10_pos]|].
        { change (Qabs (inject_Z n)) with (inject_Z (Z.abs n)). rewrite <- Zle_Qle. transitivity (10 ^ 27); [|reflexivity]. lia. }
        by vm_compute.
      * exists m. split_and!; [done|done|]. rewrite Hz in He. rewrite He in Herr. by rewrite Qplus_0_l in Herr.
  - intros Hv. guard_case as E1; [by eexists|]. guard_case as E2; [by eexists|]. destruct Hv. bprop. dprop.
    split_and!; [by rewrite <- Hz| |by apply boundaries_check]. destruct (last tiers) as [t|]; [|done]. exists t. split; [done|].
    by destruct (up_to_kwh t).
Qed.

Lemma tiered_energy_exact_witness :
  let tiers := [MkTier (Some (dint 100)) (Dec 10 (-2)); MkTier (Some (dint 300)) (Dec 25 (-2)); MkTier None (Dec 40 (-2))] in
  calculate_tiered_energy (Dec 3505 (-1)) tiers "USD" = Ok (MkMoney (Dec 8020 (-2)) "USD") ∧
  ∃ m, calculate_tiered_energy (Dec 3505 (-1)) tiers "USD" = Ok m ∧ currency m = "USD" ∧
    (2 * Qabs (tiered_cost (dval (Dec 3505 (-1))) 0 tiers - dval (amount m)) <= 1 # 100)%Q.
Proof.
  intros tiers. split; [by vm_compute|].
  refine (proj1 (tiered_energy_exact (Dec 3505 (-1)) tiers "USD" _ _ _ _ _) _).
  - reflexivity.
  - by repeat constructor.
  - repeat constructor; [exists 1000000%Z|exists 100000%Z|exists 3000000%Z|exists 250000%Z|exists 400000%Z]; by vm_compute.
  - exists 3505000%Z. by vm_compute.
  - by vm_compute.
  - split; [by vm_compute|]. split; [by eexists|]. repeat constructor.
Defined.

(** ** Chargeback *)

Definition Qsum (l : list Q) : Q := foldr Qplus 0%Q l.

Lemma dsum_grid k N l : 0 <= N → Forall (λ d, on_grid k N (dval d)) l → N * Z.of_nat (length l) < 10 ^ 28 →
  (dval (dsum l) == Qsum (map dval l))%Q ∧ on_grid k (N * Z.of_nat (length l)) (dval (dsum l)).
Proof.
  intros HN. unfold dsum. induction l as [|d l IH] using rev_ind; intros Hl Hb.
  - split; [done|]. simpl. rewrite Z.mul_0_r. by exists 0.
  - rewrite foldl_snoc. rewrite length_app in *. cbn [length] in *. apply Forall_app in Hl as [Hl [Hd _]%Forall_cons].
    destruct (IH Hl ltac:(lia)) as [He Hg]. set (s := foldl dadd (Dec 0 0) l) in *.
    assert (dval (dadd s d) == dval s + dval d)%Q as Hs by (eapply dadd_grid; [exact Hg|exact Hd|lia]).
    split.
    + rewrite Hs, He. rewrite map_app. cbn [map]. clear. induction (map dval l) as [|q qs IHq]; simpl; [ring|rewrite <- IHq; ring].
    + rewrite Hs. eapply on_grid_weaken; [|apply on_grid_add; [exact Hg|exact Hd]]. lia.
Qed.

Lemma on_grid_refine k l N x : 0 <= k <= l → on_grid k N x → on_grid l (N * 10 ^ (l - k)) x.
Proof.
  intros Hkl (n & Hn & Hb). exists (n * 10 ^ (l - k)). rewrite Hn. split.
  - rewrite (p10_split (- k) (- l)) by lia. replace (- k - - l) with (l - k) by lia. rewrite inject_Z_mult. ring.
  - pose proof (pow10_pos (l - k) ltac:(lia)). rewrite Z.abs_mul. nia.
Qed.

(** One proportional share: defined, and on the grid of the total *)
Lemma share_bounded total w denominator places : 0 <= places <= 6 →
  on_grid 6 (10 ^ 14) (dval total) → on_grid 6 (10 ^ 12) (dval w) → (0 <= dval total)%Q → (0 <= dval w)%Q →
  (dval w <= dval denominator)%Q → 0 < coef denominator →
  ∃ q a, ddiv (dmul total w) denominator = Ok q ∧ dquantize q (- places) = Ok a ∧ on_grid 6 (10 ^ 14) (dval a).
Proof.
  intros Hpl Ht Hw Ht0 Hw0 Hwd Hd. pose proof (dmul_grid _ _ _ _ _ _ Ht Hw ltac:(done)) as Hm.
  destruct (ddiv_ok 28 (dmul total w) denominator) as [q Hq]; [lia|]. exists q.
  assert (0 <= dval (dmul total w))%Q as Hm0 by (rewrite Hm; by apply Qmult_le_0_compat).
  assert (0 <= dval q)%Q as Hq0 by (by eapply ddiv_nonneg).
  assert (dval q <= dval total)%Q as Hqt.
  { eapply (ddiv_le 28 ltac:(lia) (dmul total w) denominator q (dval total) Hd Hm0); [by eapply on_grid_fits, Ht|exact Hq|].
    rewrite Hm. rewrite !(Qmult_comm (dval total)). by apply Qmult_le_compat_r. }
  assert (dval total <= inject_Z (10 ^ (8 + places)) * p10 (- places))%Q as Hbig.
  { rewrite <- p10_Z, <- p10_add by lia. replace (8 + places + - places) with 8 by lia.
    destruct Ht as (n & Hn & Hb). rewrite Hn. transitivity (inject_Z (10 ^ 14) * p10 (- 6))%Q; [|by vm_compute].
    apply inject_scale_le. lia. }
  assert (10 ^ (8 + places) <= 10 ^ 14) as Hpow by (apply Z.pow_le_mono_r; lia).
  destruct (dquantize_ok q (- places) (10 ^ (8 + places))) as [a Ha]; [rewrite Qabs_pos by done; lra|lia|].
  exists a. split_and!; [done|done|]. unfold dquantize in Ha. destruct (28 <? _); [done|]. injection Ha as <-.
  set (c := rescale_half_even q (- places)) in *.
  assert (0 <= c <= 10 ^ (8 + places)) as Hc.
  { split.
    - rewrite <- (rescale_exact (Dec 0 0) (- places) 0) by (rewrite dval_0; change (inject_Z 0) with 0%Q; ring).
      apply rescale_mono. by rewrite dval_0.
    - rewrite <- (rescale_exact (Dec (10 ^ (8 + places)) (- places)) (- places) (10 ^ (8 + places))) by done.
      apply rescale_mono. unfold dval at 2. simpl. lra. }
  eapply on_grid_weaken; [|apply (on_grid_refine places 6 (10 ^ (8 + places))); [lia|]].
  - rewrite <- Z.pow_add_r by lia. replace (8 + places + (6 - places)) with 14 by lia. done.
  - exists c. split; [done|]. lia.
Qed.

Definition charge_item (a : ChargeAllocation) : (string * string) * dec := ((dimension a, value a), weight a).

Section chargeback.
Context (total denominator : dec) (places : Z).
Context (Hplaces : 0 <= places <= 6) (Htotal : on_grid 6 (10 ^ 14) (dval total)) (Htotal0 : (0 <= dval total)%Q).
Context (Hden : 0 < coef denominator).

Definition item_ok (i : (string * string) * dec) : Prop :=
  on_grid 6 (10 ^ 12) (dval i.2) ∧ (0 <= dval i.2)%Q ∧ (dval i.2 <= dval denominator)%Q.

(** The loop hands out exactly what is left of the total. *)
Lemma allocate_loop_spec items : ∀ assigned k, Forall item_ok items →
  0 <= k → on_grid 6 (k * 10 ^ 14) (dval assigned) → (k + Z.of_nat (length items)) * 10 ^ 14 < 10 ^ 20 →
  ∃ l, allocate_loop total denominator places items assigned = Ok l ∧ map charge_item l = items ∧
    Forall (λ a, on_grid 6 (10 ^ 20) (dval (charge_amount a))) l ∧
    (items ≠ [] → (Qsum (map (λ a, dval (charge_amount a)) l) == dval total - dval assigned)%Q).
Proof.
  induction items as [|[[d v] w] items IH]; intros assigned k Hi Hk Ha Hb.
  { exists []. split_and!; try done; constructor. }
  apply Forall_cons in Hi as [(Hw & Hw0 & Hwd) Hi]. rewrite length_cons, Nat2Z.inj_succ in Hb. cbn [allocate_loop snd] in *.
  destruct items as [|i items].
  - simpl. eexists. split; [done|]. split; [done|].
    assert (dval (dsub total assigned) == dval total - dval assigned)%Q as He
      by (eapply (dsub_grid 6); [exact Htotal|exact Ha|simpl in Hb; lia]).
    split; [|intros _; simpl; rewrite He; ring].
    constructor; [|constructor]. cbn [charge_amount]. rewrite He. eapply on_grid_weaken; [|by apply on_grid_sub].
    simpl in Hb. lia.
  - destruct (share_bounded total w denominator places) as (q & a & Hq & Hqa & Hg); try done.
    set (tl := i :: items) in *. rewrite Hq. munfold. rewrite Hqa.
    pose proof (dadd_grid 6 _ _ assigned a Ha Hg ltac:(lia)) as Hadd.
    destruct (IH (dadd assigned a) (k + 1) Hi ltac:(lia)) as (l & Hl & Hmap & Hgs & Hsum); [|lia|].
    { rewrite Hadd. eapply on_grid_weaken; [|by apply on_grid_add]. lia. }
    rewrite Hl. eexists. split; [done|]. split; [simpl; by rewrite Hmap|]. split; [constructor; [|done]|].
    + cbn [charge_amount]. eapply on_grid_weaken; [|exact Hg]. lia.
    + intros _. cbn [map Qsum foldr charge_amount]. fold (Qsum (map (λ a, dval (charge_amount a)) l)).
      rewrite Hsum, Hadd by done. ring.
Qed.
End chargeback.

Lemma Qsum_nonneg_elem l x : Forall (λ q, (0 <= q)%Q) l → x ∈ l → (x <= Qsum l)%Q.
Proof.
  intros Hl. assert (∀ k, Forall (λ q, (0 <= q)%Q) k → (0 <= Qsum k)%Q) as Hn
    by (induction 1; simpl; [lra|lra]).
  induction Hl as [|q l Hq Hl IH]; [by intros ?%elem_of_nil|]. simpl. specialize (Hn l Hl).
  intros [->|Hx]%elem_of_cons; [lra|]. specialize (IH Hx). lra.
Qed.

(** Chargeback reconciles.  For a total below 10^8 and weights below 10^6, non-negative with at most 6
    decimals, at most 1000 of them and one of them positive, and 0 to 6 places: [allocate_cost] returns one
    allocation per weight, in the order of the keys, and the exact sum of the amounts is the total.  The
    reconciliation error is never raised. *)
Theorem chargeback_reconciles (total : dec) (weights : list ((string * string) * dec)) (places : Z)
    (Hplaces : 0 <= places <= 6) (Htotal : on_grid 6 (10 ^ 14) (dval total)) (Htotal0 : (0 <= dval total)%Q)
    (Hweights : Forall (λ i, on_grid 6 (10 ^ 12) (dval i.2) ∧ (0 <= dval i.2)%Q) weights)
    (Hpos : Exists (λ i, (0 < dval i.2)%Q) weights) (Hcount : Z.of_nat (length weights) <= 1000) :
  ∃ l, allocate_cost total weights places = Ok l ∧
    map charge_item l = py_sorted item_order weights ∧
    (Qsum (map (λ a, dval (charge_amount a)) l) == dval total)%Q.
Proof.
  set (denominator := dsum (map snd weights)).
  destruct (dsum_grid 6 (10 ^ 12) (map snd weights)) as [Hden _]; [done| |rewrite length_map; lia|].
  { apply Forall_map. eapply Forall_impl; [exact Hweights|]. by intros ? [? _]. }
  fold denominator in Hden.
  assert (∀ i, i ∈ weights → (dval i.2 <= dval denominator)%Q) as Hle.
  { intros i Hi. rewrite Hden. apply Qsum_nonneg_elem.
    - apply Forall_map, Forall_map. eapply Forall_impl; [exact Hweights|]. by intros ? [_ ?].
    - apply list_elem_of_fmap_2. by apply list_elem_of_fmap_2. }
  assert (0 < dval denominator)%Q as Hd0.
  { apply Exists_exists in Hpos as (i & Hi & Hip). specialize (Hle i Hi). lra. }
  assert (Forall (item_ok denominator) (py_sorted item_order weights)) as Hitems.
  { rewrite py_sorted_perm. apply Forall_forall. intros i Hi. rewrite Forall_forall in Hweights.
    destruct (Hweights i Hi). split_and!; auto. }
  destruct (allocate_loop_spec total denominator places Hplaces Htotal Htotal0 (coef_pos denominator Hd0)
    (py_sorted item_order weights) (dint 0) 0 Hitems) as (l & Hl & Hmap & Hgs & Hsum); [done|by exists 0| |].
  { rewrite py_sorted_perm. lia. }
  assert (Qsum (map (λ a, dval (charge_amount a)) l) == dval total)%Q as Htot.
  { rewrite Hsum; [rewrite dval_dint; change (inject_Z 0) with 0%Q; ring|]. intros E.
    assert (weights ≡ₚ []) as ->%Permutation_nil_r by (rewrite <- E; symmetry; apply py_sorted_perm). by inversion Hpos. }
  destruct (dsum_grid 6 (10 ^ 20) (map charge_amount l)) as [Hds _]; [done|by apply Forall_map| |].
  { rewrite length_map, <- (length_map charge_item), Hmap, py_sorted_perm. lia. }
  exists l. split_and!; [|done|done]. unfold allocate_cost. munfold. fold denominator.
  assert (dltb total (dint 0) || existsb (λ i, dltb i.2 (dint 0)) weights = false) as ->.
  { apply orb_false_iff. split; [by dprop; rewrite dval_dint|]. apply existsb_false.
    eapply Forall_impl; [exact Hweights|]. intros i [_ ?]. dprop. by rewrite dval_dint. }
  assert (dleb denominator (dint 0) = false) as -> by (dprop; by rewrite dval_dint).
  rewrite Hl. assert (deqb (dsum (map charge_amount l)) total = true) as ->; [|done].
  dprop. rewrite Hds, <- Htot, map_map. done.
Qed.

Lemma chargeback_reconciles_witness :
  let weights := [(("team", "b"), dint 1); (("team", "a"), dint 1); (("team", "c"), dint 1)] in
  ∃ l, allocate_cost (dint 10) weights 2 = Ok l ∧ map charge_item l = py_sorted item_order weights ∧
    (Qsum (map (λ a, dval (charge_amount a)) l) == dval (dint 10))%Q.
Proof.
  intros weights. apply (chargeback_reconciles (dint 10) weights 2); try done.
  - by exists 10000000.
  - repeat constructor; try done; by exists 1000000.
  - by left.
Defined.

(** The remainder of the last item absorbs all rounding and can turn negative. *)
Example chargeback_negative_remainder :
  let weights := map (λ k, (("team", k), dint 1)) ["a"; "b"; "c"; "d"; "e"; "f"; "g"; "h"; "i"; "j"] in
  (λ l, map charge_amount l) <$> allocate_cost (Dec 15 (-2)) weights 2
  = Ok [Dec 2 (-2); Dec 2 (-2); Dec 2 (-2); Dec 2 (-2); Dec 2 (-2); Dec 2 (-2); Dec 2 (-2); Dec 2 (-2); Dec 2 (-2); Dec (-3) (-2)].
Proof. by vm_compute. Qed.
