(* ===== verification/AuditLog.v ===== *)
(** * Audit log: [packages/observability/audit.py]

    The hash-chained audit log with its two backends: the in-process list (one chain for all tenants)
    and the [audit_records] table (one chain per tenant; [sequence] is the position in the table).  The
    SHA-256 digest of the canonical JSON text of a record is the parameter [digest]; the clock is an
    argument of the operations. *)
From S2P Require Import Prelude Domain.
Local Open Scope Z_scope.

(** What an entry says, and what is hashed of it *)
Record audit_entry := MkEntry {
  actor_id : string; audit_tenant : string; action : string; resource : string; outcome : string; correlation_id : string
}.
Record audit_source := MkSource { timestamp : datetime; entry : audit_entry; previous_hash : string }.
Record AuditRecord := MkAuditRecord { source : audit_source; record_hash : string }.

#[global] Instance audit_entry_eq_dec : EqDecision audit_entry.
Proof. solve_decision. Defined.
#[global] Instance audit_source_eq_dec : EqDecision audit_source.
Proof. solve_decision. Defined.
#[global] Instance audit_record_eq_dec : EqDecision AuditRecord.
Proof. solve_decision. Defined.

Section audit.
Context (digest : audit_source → string).

Definition last_hash (l : list AuditRecord) : string :=
  match last l with Some r => record_hash r | None => "GENESIS" end.
Definition tenant_records (tenant : string) (l : list AuditRecord) : list AuditRecord :=
  base.filter (λ r, audit_tenant (entry (source r)) = tenant) l.

Definition chained (previous : string) (now : datetime) (e : audit_entry) : AuditRecord :=
  let s := MkSource now e previous in MkAuditRecord s (digest s).

(** *** In process *)

Definition mem_append (now : datetime) (e : audit_entry) : M (list AuditRecord) AuditRecord := λ log,
  let r := chained (last_hash log) now e in (log ++ [r], Ok r).

(** The loop of [verify] and [verify_tenant] *)
Fixpoint verify_from (previous : string) (l : list AuditRecord) : bool :=
  match l with
  | [] => true
  | r :: l' =>
      if negb (bool_decide (previous_hash (source r) = previous)) then false
      else if negb (bool_decide (digest (source r) = record_hash r)) then false
      else verify_from (record_hash r) l'
  end.

Definition mem_verify (log : list AuditRecord) : bool := verify_from "GENESIS" log.
Definition mem_records (tenant : string) (log : list AuditRecord) : list AuditRecord := tenant_records tenant log.
Definition mem_verify_tenant (tenant : string) (log : list AuditRecord) : bool :=
  verify_from "GENESIS" (mem_records tenant log).

(** *** PostgreSQL *)

Context (txn : ∀ S A, M S A → M S A) `{!Transactional txn}.

(** [_append_postgres]: the advisory lock makes the read and the insert one step; [record_hash] is
    UNIQUE in the table. *)
Definition pg_append (now : datetime) (e : audit_entry) : M (list AuditRecord) AuditRecord :=
  txn _ _ (λ table,
    let r := chained (last_hash (tenant_records (audit_tenant e) table)) now e in
    if existsb (λ x, bool_decide (record_hash x = record_hash r)) table then (table, Err (OtherError "UniqueViolation"))
    else (table ++ [r], Ok r)).

Definition pg_verify : result bool := Err (ValueError "tenant_id is required to verify a persistent audit chain").

Definition pg_records (tenant : string) : M (list AuditRecord) (list AuditRecord) :=
  txn _ _ (λ table, (table, Ok (tenant_records tenant table))).

Definition pg_verify_tenant (tenant : string) : M (list AuditRecord) bool := λ table,
  match pg_records tenant table with
  | (table', Ok l) => (table', Ok (verify_from "GENESIS" l))
  | (table', Err e) => (table', Err e)
  end.

(** *** Histories *)

Definition mem_history (h : list (datetime * audit_entry)) : list AuditRecord :=
  foldl (λ log ne, (mem_append ne.1 ne.2 log).1) [] h.
Definition pg_history (h : list (datetime * audit_entry)) : list AuditRecord :=
  foldl (λ table ne, (pg_append ne.1 ne.2 table).1) [] h.

Lemma verify_from_snoc l : ∀ previous r,
  verify_from previous (l ++ [r]) = true ↔
  verify_from previous l = true ∧
  previous_hash (source r) = (match last l with Some x => record_hash x | None => previous end) ∧
  record_hash r = digest (source r).
Proof.
  induction l as [|x l IH]; intros previous r; cbn [verify_from app].
  - repeat case_bool_decide; simpl; naive_solver.
  - rewrite last_cons. repeat case_bool_decide; simpl; [|naive_solver..]. rewrite IH. by destruct (last l).
Qed.

Lemma verify_snoc l r : verify_from "GENESIS" (l ++ [r]) = true ↔
  verify_from "GENESIS" l = true ∧ previous_hash (source r) = last_hash l ∧ record_hash r = digest (source r).
Proof. apply verify_from_snoc. Qed.

Lemma mem_history_verifies h : mem_verify (mem_history h) = true.
Proof.
  unfold mem_verify, mem_history. induction h as [|[now e] h IH] using rev_ind; [done|]. rewrite foldl_snoc. simpl.
  by apply verify_snoc.
Qed.

Lemma pg_append_run now e table :
  (∃ err, pg_append now e table = (table, Err err)) ∨
  let r := chained (last_hash (tenant_records (audit_tenant e) table)) now e in pg_append now e table = (table ++ [r], Ok r).
Proof. unfold pg_append. rewrite txn_atomically. unfold atomically. destruct (existsb _ _); eauto. Qed.

Lemma tenant_records_snoc tenant l r : tenant_records tenant (l ++ [r]) =
  if decide (audit_tenant (entry (source r)) = tenant) then tenant_records tenant l ++ [r] else tenant_records tenant l.
Proof.
  unfold tenant_records. rewrite filter_app, filter_cons, filter_nil. case_decide; [done|]. by rewrite app_nil_r.
Qed.
End audit.

(** ** Properties *)

(** C23: Honest logs verify.  After any sequence of appends, whatever the digest function, the in-process
    log holds exactly the appended entries in order and passes [verify]; the persistent log holds entries
    in order (an append whose digest already occurs is refused and leaves no trace), it passes
    [verify_tenant] for every tenant, and reading a tenant's records returns exactly that tenant's. *)
Theorem audit_chain_sound (digest : audit_source → string) (txn : ∀ S A, M S A → M S A) (Htxn : Transactional txn)
    (h : list (datetime * audit_entry)) :
  mem_verify digest (mem_history digest h) = true ∧
  map (λ r, (timestamp (source r), entry (source r))) (mem_history digest h) = h ∧
  map (λ r, (timestamp (source r), entry (source r))) (pg_history digest txn h) `sublist_of` h ∧
  ∀ tenant, pg_verify_tenant digest txn tenant (pg_history digest txn h) = (pg_history digest txn h, Ok true) ∧
    pg_records txn tenant (pg_history digest txn h)
    = (pg_history digest txn h, Ok (base.filter (λ r, audit_tenant (entry (source r)) = tenant) (pg_history digest txn h))).
Proof.
  split_and!.
  - apply mem_history_verifies.
  - unfold mem_history. induction h as [|[now e] h IH] using rev_ind; [done|]. rewrite foldl_snoc. simpl.
    rewrite map_app. simpl in IH. rewrite IH. done.
  - unfold pg_history. induction h as [|[now e] h IH] using rev_ind; [done|]. rewrite foldl_snoc. cbn [fst snd].
    set (table := foldl _ _ _) in *. destruct (pg_append_run digest txn now e table) as [[err ->]| ->].
    + by apply sublist_inserts_r.
    + cbn [fst]. rewrite map_app. by apply sublist_app.
  - intros tenant. unfold pg_verify_tenant, pg_records. rewrite txn_atomically. simpl. split; [|done]. do 2 f_equal.
    unfold pg_history. induction h as [|[now e] h IH] using rev_ind; [done|]. rewrite foldl_snoc. cbn [fst snd].
    set (table := foldl _ _ _) in *. destruct (pg_append_run digest txn now e table) as [[err ->]| ->]; [done|]. cbn [fst].
    rewrite tenant_records_snoc. case_decide as Hd; [|done]. simpl in Hd. subst. by apply verify_snoc.
Qed.

Definition sample_history : list (datetime * audit_entry) :=
  [(DT 1 true, MkEntry "u1" "acme" "plan.publish" "plan-1" "ok" "c1");
   (DT 2 true, MkEntry "u2" "zeta" "plan.publish" "plan-9" "ok" "c2");
   (DT 3 true, MkEntry "u1" "acme" "plan.cancel" "plan-1" "denied" "c3")].
Definition toy_digest (s : audit_source) : string :=
  "#" +:+ correlation_id (entry s) +:+ action (entry s) +:+ previous_hash s.

Lemma audit_chain_sound_witness :
  pg_verify_tenant toy_digest (@atomically) "acme" (pg_history toy_digest (@atomically) sample_history)
  = (pg_history toy_digest (@atomically) sample_history, Ok true).
Proof.
  exact (proj1 (proj2 (proj2 (proj2 (audit_chain_sound toy_digest (@atomically) atomically_transactional sample_history))) "acme")).
Defined.

(** C22: The chain is tamper-evident.  Let two logs both verify, with no digest collision between their
    records and no digest equal to the genesis marker.  If their last hashes agree, the logs are equal:
    whoever keeps the last hash detects every change, insertion, deletion or reordering before it, even one
    after which all hashes were recomputed. *)
Theorem audit_tamper_evident (digest : audit_source → string) (log log' : list AuditRecord)
    (Hcollide : ∀ r r', r ∈ log → r' ∈ log' → digest (source r) = digest (source r') → source r = source r')
    (Hgenesis : ∀ s, digest s ≠ "GENESIS")
    (Hlog : mem_verify digest log = true) (Hlog' : mem_verify digest log' = true)
    (Hlast : last_hash log = last_hash log') :
  log = log'.
Proof.
  unfold mem_verify in *. revert log' Hcollide Hlog' Hlast.
  induction log as [|r log IH] using rev_ind; intros log' Hc Hlog' Hlast; destruct log' as [|r' log' _] using rev_ind; try done.
  - exfalso. apply verify_snoc in Hlog' as (_ & _ & Hr'). unfold last_hash in Hlast. rewrite last_snoc in Hlast. simpl in Hlast.
    apply (Hgenesis (source r')). congruence.
  - exfalso. apply verify_snoc in Hlog as (_ & _ & Hr). unfold last_hash in Hlast. rewrite last_snoc in Hlast. simpl in Hlast.
    apply (Hgenesis (source r)). congruence.
  - apply verify_snoc in Hlog as (Hl & Hp & Hr), Hlog' as (Hl' & Hp' & Hr').
    unfold last_hash in Hlast. rewrite !last_snoc in Hlast.
    assert (source r = source r') as Hs by (apply Hc; [set_solver|set_solver|congruence]).
    rewrite (IH Hl log'); [|set_solver|done|congruence]. destruct r, r'. simpl in *. congruence.
Qed.

Lemma audit_tamper_evident_witness :
  let tampered := mem_history toy_digest
    [(DT 1 true, MkEntry "u1" "acme" "plan.publish" "plan-1" "ok" "c1");
     (DT 3 true, MkEntry "u1" "acme" "plan.cancel" "plan-1" "denied" "c3")] in
  mem_verify toy_digest tampered = true ∧
  last_hash tampered ≠ last_hash (mem_history toy_digest sample_history).
Proof.
  intros tampered. split; [by vm_compute|]. intros Hlast.
  assert (tampered = mem_history toy_digest sample_history) as E.
  { apply (audit_tamper_evident toy_digest); [|done|by vm_compute|by vm_compute|exact Hlast].
    intros r r' Hr Hr'. vm_compute in Hr, Hr'. repeat (apply elem_of_cons in Hr as [->|Hr]); [..|by apply elem_of_nil in Hr];
    (repeat (apply elem_of_cons in Hr' as [->|Hr']); [..|by apply elem_of_nil in Hr']); done || (vm_compute; congruence). }
  vm_compute in E. discriminate E.
Defined.

(** In process all tenants share one chain, so the filtered records of one of them do not form a chain:
    [verify_tenant] rejects an untampered log as soon as another tenant's entry comes first. *)
Lemma mem_verify_tenant_false_alarm (digest : audit_source → string) (Hgenesis : ∀ s, digest s ≠ "GENESIS") :
  ∃ h, mem_verify digest (mem_history digest h) = true ∧ mem_verify_tenant digest "zeta" (mem_history digest h) = false.
Proof.
  exists [(DT 1 true, MkEntry "u1" "acme" "a" "r" "ok" "c1"); (DT 2 true, MkEntry "u2" "zeta" "a" "r" "ok" "c2")].
  split; [apply mem_history_verifies|].
  set (r := chained digest "GENESIS" (DT 1 true) (MkEntry "u1" "acme" "a" "r" "ok" "c1")).
  change (verify_from digest "GENESIS" [chained digest (record_hash r) (DT 2 true) (MkEntry "u2" "zeta" "a" "r" "ok" "c2")] = false).
  unfold verify_from. rewrite bool_decide_false; [done|]. apply Hgenesis.
Qed.
