(* ===== verification/Versions.v ===== *)
(** * Numbered versions

    Versioned tables: a map from (key, version) holding the versions 1, 2, ..., n of every key.  Shared by
    the resource store ([apps/api/store.py]) and the topology registry ([packages/topology/registry.py]). *)
From S2P Require Import Prelude.
Local Open Scope Z_scope.

(** The version numbers stored for a key, sorted *)
Definition stored_versions `{Countable K} {A : Type} (k : K) (m : gmap (K * Z) A) : list Z :=
  py_sorted Z.compare (map (λ e : (K * Z) * A, e.1.2) (base.filter (λ e : (K * Z) * A, e.1.1 = k) (map_to_list m))).

(** Reading the numbers [1 .. n] through [f] gives the list that [f] indexes. *)
Lemma omap_seqZ {A : Type} (f : Z → option A) l : (∀ i x, l !! i = Some x → f (Z.of_nat i + 1) = Some x) →
  omap f (seqZ 1 (Z.of_nat (length l))) = l.
Proof.
  induction l as [|x l IH] using rev_ind; intros Hf; [done|].
  rewrite length_app, Nat2Z.inj_add, seqZ_app, omap_app by (simpl; lia). f_equal.
  - apply IH. intros i y Hy. apply Hf. by apply lookup_app_l_Some.
  - change (Z.of_nat (length [x])) with 1. rewrite seqZ_cons, seqZ_nil by lia. simpl.
    rewrite (Z.add_comm 1), (Hf (length l) x); [done|]. by rewrite lookup_app_r, Nat.sub_diag.
Qed.

Section versions.
Context {K : Type} {K_eq : EqDecision K} {K_count : Countable K}.

(** [vs] holds the versions [1 .. n] of every resource whose latest version is [n]. *)
Definition numbered {A : Type} (latest : gmap K Z) (vs : gmap (K * Z) A) : Prop :=
  (∀ k n, latest !! k = Some n → 1 <= n) ∧
  ∀ k v, is_Some (vs !! (k, v)) ↔ ∃ n, latest !! k = Some n ∧ 1 <= v <= n.

Lemma numbered_empty (A : Type) : numbered ∅ (∅ : gmap (K * Z) A).
Proof.
  split; [by intros k n; rewrite lookup_empty|]. intros k v. rewrite lookup_empty. split; [by intros [? ?]|].
  intros (n & Hn & _). by rewrite lookup_empty in Hn.
Qed.

(** The next version of [k] *)
Definition next_version (latest : gmap K Z) (k : K) : Z := match latest !! k with Some p => p + 1 | None => 1 end.

Lemma numbered_fresh {A : Type} (latest : gmap K Z) (vs : gmap (K * Z) A) (k : K) : numbered latest vs → vs !! (k, next_version latest k) = None.
Proof.
  intros [_ H2]. apply eq_None_not_Some. rewrite H2. unfold next_version. intros (n & Hn & Hv). rewrite Hn in Hv. lia.
Qed.

Lemma numbered_insert {A : Type} (latest : gmap K Z) (vs : gmap (K * Z) A) (k : K) (x : A) : numbered latest vs →
  numbered (<[k := next_version latest k]> latest) (<[(k, next_version latest k) := x]> vs).
Proof.
  intros [H1 H2]. unfold next_version. split.
  - intros k' n. rewrite lookup_insert_Some. intros [[<- <-]|[_ Hn]]; [|by eapply H1].
    destruct (latest !! k) as [p|] eqn:Ep; [|lia]. pose proof (H1 k p Ep). lia.
  - intros k' v. rewrite lookup_insert_is_Some, (H2 k' v). destruct (decide (k' = k)) as [->|Hne].
    + rewrite lookup_insert_eq. destruct (latest !! k) as [p|] eqn:Ep.
      * pose proof (H1 k p Ep). split.
        { intros [[= <-]|[_ (n & [= <-] & ?)]]; eexists; (split; [done|lia]). }
        { intros (n & [= <-] & ?). destruct (decide (v = p + 1)) as [->|]; [by left|]. right. split; [congruence|].
          exists p. split; [done|lia]. }
      * split; [intros [[= <-]|[_ (n & [=] & ?)]]; exists 1; (split; [done|lia])|].
        intros (n & [= <-] & ?). left. f_equal. lia.
    + rewrite lookup_insert_ne by done. split; [intros [[= -> _]|[_ ?]]; done|]. intros ?. right. split; [congruence|done].
Qed.

Lemma key_le_Z x y : key_le Z.compare x y ↔ x <= y.
Proof. unfold key_le, cmp_leb. destruct (Z.compare_spec x y); split; try done; lia. Qed.

Lemma StronglySorted_seqZ m n : StronglySorted (key_le Z.compare) (seqZ m n).
Proof.
  destruct (Z.le_gt_cases n 0) as [Hn|Hn]; [rewrite seqZ_nil by done; constructor|].
  rewrite <- (Z2Nat.id n) by lia. clear Hn. revert m. induction (Z.to_nat n) as [|k IH]; intros m; [constructor|].
  rewrite seqZ_cons by lia. replace (Z.pred (Z.of_nat (S k))) with (Z.of_nat k) by lia. constructor; [apply IH|].
  apply Forall_forall. intros x Hx%elem_of_seqZ. apply key_le_Z. lia.
Qed.

Lemma stored_versions_spec {A : Type} (latest : gmap K Z) (vs : gmap (K * Z) A) (k : K) : numbered latest vs →
  stored_versions k vs = seqZ 1 (default 0 (latest !! k)).
Proof.
  intros [H1 H2]. unfold stored_versions. set (l := map _ _).
  assert (NoDup l) as Hnd.
  { unfold l. apply NoDup_fmap_2_strong; [|apply NoDup_filter, NoDup_map_to_list].
    intros [[k1 v1] x1] [[k2 v2] x2] [Hk1 Hin1]%list_elem_of_filter [Hk2 Hin2]%list_elem_of_filter Heq.
    simpl in *. subst. apply elem_of_map_to_list in Hin1, Hin2. rewrite Hin1 in Hin2. congruence. }
  assert (∀ v, v ∈ l ↔ v ∈ seqZ 1 (default 0 (latest !! k))) as Hmem.
  { intros v. rewrite elem_of_seqZ. transitivity (is_Some (vs !! (k, v))).
    - unfold l. rewrite list_elem_of_fmap. split.
      + intros ([[k' v'] x] & -> & [Hk Hin]%list_elem_of_filter). simpl in *. subst. apply elem_of_map_to_list in Hin. eauto.
      + intros [x Hx]. exists ((k, v), x). split; [done|]. apply list_elem_of_filter. split; [done|]. by apply elem_of_map_to_list.
    - rewrite H2. destruct (latest !! k) as [n|] eqn:E; simpl.
      + split; [intros (? & [= <-] & ?); lia|]. intros. exists n. split; [done|lia].
      + split; [by intros (? & [=] & _)|lia]. }
  apply (StronglySorted_unique_strong (key_le Z.compare)).
  - intros x y _ _. rewrite !key_le_Z. lia.
  - apply py_sorted_sorted. apply _.
  - apply StronglySorted_seqZ.
  - rewrite py_sorted_perm. apply NoDup_Permutation; [done|apply NoDup_seqZ|done].
Qed.

(** The stored versions of [k] in order *)
Definition hist {A : Type} (vs : gmap (K * Z) A) (k : K) (n : Z) : list A := omap (λ v, vs !! (k, v)) (seqZ 1 n).

Lemma hist_spec {A : Type} (vs : gmap (K * Z) A) k n : (∀ v, 1 <= v <= n → is_Some (vs !! (k, v))) →
  length (hist vs k n) = Z.to_nat n ∧ ∀ i, hist vs k n !! i = if Z.of_nat i <? n then vs !! (k, Z.of_nat i + 1) else None.
Proof.
  destruct (Z.le_gt_cases n 0) as [Hn|Hn].
  { intros _. unfold hist. rewrite seqZ_nil by done. split; [simpl; lia|]. intros i. by rewrite (proj2 (Z.ltb_ge _ _)) by lia. }
  rewrite <- (Z2Nat.id n) by lia. generalize (Z.to_nat n) as m. clear n Hn. intros m.
  induction m as [|m IH]; intros Hall; [split; [done|]; intros i; by rewrite (proj2 (Z.ltb_ge _ _)) by lia|].
  destruct (Hall (Z.of_nat (S m)) ltac:(lia)) as [x Hx]. destruct IH as [Hlen Hat]; [intros v Hv; apply Hall; lia|].
  assert (hist vs k (Z.of_nat (S m)) = hist vs k (Z.of_nat m) ++ [x]) as ->.
  { unfold hist. rewrite Nat2Z.inj_succ, <- Z.add_1_r, seqZ_app, omap_app by lia. f_equal.
    replace (1 + Z.of_nat m) with (Z.of_nat (S m)) by lia. rewrite seqZ_cons, seqZ_nil by lia. simpl. by rewrite Hx. }
  rewrite Nat2Z.id in *. split; [rewrite length_app; simpl; lia|]. intros i.
  destruct (Nat.lt_trichotomy i m) as [H|[->|H]].
  - rewrite lookup_app_l, Hat by lia. rewrite !(proj2 (Z.ltb_lt _ _)) by lia. done.
  - rewrite lookup_app_r, Hlen, Nat.sub_diag by lia. rewrite (proj2 (Z.ltb_lt _ _)) by lia.
    replace (Z.of_nat m + 1) with (Z.of_nat (S m)) by lia. by rewrite Hx.
  - rewrite (proj2 (Z.ltb_ge _ _)) by lia. apply lookup_ge_None. rewrite length_app. simpl. lia.
Qed.

Lemma hist_snoc {A : Type} (vs : gmap (K * Z) A) k n x : 0 <= n → hist (<[(k, n + 1) := x]> vs) k (n + 1) = hist vs k n ++ [x].
Proof.
  intros Hn. unfold hist. rewrite seqZ_app, omap_app by lia. f_equal.
  - apply list_omap_ext, Forall_Forall2_diag, Forall_forall. intros v Hv%elem_of_seqZ.
    rewrite lookup_insert_ne; [done|]. intros [=]. lia.
  - rewrite seqZ_cons, seqZ_nil by lia. simpl. rewrite Z.add_comm, lookup_insert_eq. done.
Qed.

Lemma hist_frame {A : Type} (vs : gmap (K * Z) A) k k' v n x : k' ≠ k → hist (<[(k, v) := x]> vs) k' n = hist vs k' n.
Proof.
  intros Hne. unfold hist. apply list_omap_ext, Forall_Forall2_diag, Forall_forall. intros w _.
  rewrite lookup_insert_ne; [done|]. congruence.
Qed.
End versions.
