(* ===== verification/Store.v ===== *)
(** * Resource store: [apps/api/store.py]

    The versioned, tenant-scoped resource repository behind the API, with idempotent writes and
    If-Match concurrency control: the in-process [ResourceStore] and the [PostgresResourceStore].
    A body is a map from field names to JSON values [V].  The SHA-256 digests of the canonical JSON
    texts and the JSON round trip [_json_safe] are parameters, and so is the clock.  A table is a map
    from its primary key; an INSERT on an existing key raises.  [health] is not modelled. *)
From S2P Require Import Prelude Domain Versions.
From stdpp Require Import pretty.
Local Open Scope Z_scope.

(** (tenant, kind, id) *)
Abbreviation rkey := (string * string * string)%type.

Section store.
Context {V : Type} (of_str : string → V).
Context (request_digest : string → string → gmap string V → string).
Context (etag_digest : string → string → Z → gmap string V → string).
Context (json_safe : gmap string V → gmap string V).

Record StoredResource := MkResource {
  kind : string; res_id : string; res_tenant : string; version : Z; etag : string; body : gmap string V
}.
Definition key_of (r : StoredResource) : rkey := (res_tenant r, kind r, res_id r).

(** The arguments of [put] *)
Record put_request := MkPut {
  put_kind : string; put_id : string; put_tenant : string; put_body : gmap string V; put_key : string;
  if_match : option string
}.
Definition put_target (q : put_request) : rkey := (put_tenant q, put_kind q, put_id q).

(** [{**body, "id": resource_id}] *)
Definition normalized (b : gmap string V) (id : string) : gmap string V := <["id" := of_str id]> b.

(** The next version of the target *)
Definition next_resource (q : put_request) (b : gmap string V) (previous : option Z) : StoredResource :=
  let v := match previous with Some p => p + 1 | None => 1 end in
  MkResource (put_kind q) (put_id q) (put_tenant q) v (etag_digest (put_tenant q) (put_kind q) v b) b.

(** ** ResourceStore *)

Record mem_store := MkMemStore {
  items : gmap rkey StoredResource; versions : gmap (rkey * Z) StoredResource;
  idempotency : gmap (string * string) (string * StoredResource)
}.

Definition mem_put (q : put_request) : M mem_store StoredResource := λ s,
  let request_hash := request_digest (put_kind q) (put_id q) (put_body q) in
  match idempotency s !! (put_tenant q, put_key q) with
  | Some (previous_hash, r) =>
      if bool_decide (request_hash = previous_hash) then (s, Ok r)
      else (s, Err (ValueError "idempotency key reused with different request"))
  | None =>
      let previous := items s !! put_target q in
      if match previous with Some p => negb (bool_decide (if_match q = Some (etag p))) | None => false end
      then (s, Err (RuntimeError "If-Match optimistic concurrency conflict"))
      else
        let r := next_resource q (normalized (put_body q) (put_id q)) (version <$> previous) in
        (MkMemStore (<[put_target q := r]> (items s)) (<[(put_target q, version r) := r]> (versions s))
           (<[(put_tenant q, put_key q) := (request_hash, r)]> (idempotency s)), Ok r)
  end.

Definition mem_get (k : rkey) (s : mem_store) : result StoredResource := of_option (KeyError k.2) (items s !! k).

Definition mem_list (kd tenant : string) (s : mem_store) : list StoredResource :=
  py_sorted (cmp_on res_id String.compare)
    (snd <$> base.filter (λ kr : rkey * StoredResource, kr.1.1.1 = tenant ∧ kr.1.1.2 = kd) (map_to_list (items s))).

Definition mem_get_version (k : rkey) (v : Z) (s : mem_store) : result StoredResource :=
  of_option (KeyError k.2) (versions s !! (k, v)).

Definition mem_history (k : rkey) (s : mem_store) : list StoredResource :=
  omap (λ v, versions s !! (k, v)) (stored_versions k (versions s)).

(** ** PostgresResourceStore *)

Record idem_row := MkIdem { idem_hash : string; response : StoredResource; expires_at : Z }.
Record pg_store := MkPgStore {
  resources : gmap rkey (Z * string * gmap string V);
  resource_versions : gmap (rkey * Z) (string * gmap string V);
  idempotency_records : gmap (string * string) idem_row
}.

Context (txn : ∀ S A, M S A → M S A).
(** [idempotency_ttl] in microseconds *)
Context (ttl : Z).

Definition pg_put (now : Z) (q : put_request) : M pg_store StoredResource :=
  let b := normalized (json_safe (put_body q)) (put_id q) in
  let request_hash := request_digest (put_kind q) (put_id q) b in
  let ik := (put_tenant q, put_key q) in
  txn _ _ (λ s0,
    (* DELETE ... WHERE expires_at <= now() *)
    let idem := match idempotency_records s0 !! ik with
                | Some row => if expires_at row <=? now then delete ik (idempotency_records s0) else idempotency_records s0
                | None => idempotency_records s0 end in
    let s := MkPgStore (resources s0) (resource_versions s0) idem in
    match idem !! ik with
    | Some row =>
        if bool_decide (idem_hash row = request_hash) then (s, Ok (response row))
        else (s, Err (ValueError "idempotency key reused with different request"))
    | None =>
        let previous := resources s !! put_target q in
        if match previous with Some p => negb (bool_decide (if_match q = Some p.1.2)) | None => false end
        then (s, Err (RuntimeError "If-Match optimistic concurrency conflict"))
        else
          let r := next_resource q b ((λ p, p.1.1) <$> previous) in
          let s1 := MkPgStore (<[put_target q := (version r, etag r, b)]> (resources s)) (resource_versions s) idem in
          match resource_versions s !! (put_target q, version r) with
          | Some _ => (s1, Err (OtherError "UniqueViolation"))
          | None =>
              (MkPgStore (resources s1) (<[(put_target q, version r) := (etag r, b)]> (resource_versions s))
                 (<[ik := MkIdem request_hash r (now + ttl)]> idem), Ok r)
          end
    end).

Definition row_resource (k : rkey) (v : Z) (tag : string) (b : gmap string V) : StoredResource :=
  MkResource k.1.2 k.2 k.1.1 v tag b.

Definition pg_get (k : rkey) : M pg_store StoredResource :=
  txn _ _ (λ s, (s, of_option (KeyError k.2) ((λ p, row_resource k p.1.1 p.1.2 p.2) <$> resources s !! k))).

Definition pg_list (kd tenant : string) : M pg_store (list StoredResource) :=
  txn _ _ (λ s, (s, Ok (py_sorted (cmp_on res_id String.compare)
    ((λ e : rkey * (Z * string * gmap string V), row_resource e.1 e.2.1.1 e.2.1.2 e.2.2) <$>
      base.filter (λ e : rkey * (Z * string * gmap string V), e.1.1.1 = tenant ∧ e.1.1.2 = kd) (map_to_list (resources s)))))).

Definition pg_get_version (k : rkey) (v : Z) : M pg_store StoredResource :=
  txn _ _ (λ s, (s, of_option (KeyError k.2) ((λ p, row_resource k v p.1 p.2) <$> resource_versions s !! (k, v)))).

Definition pg_history (k : rkey) : M pg_store (list StoredResource) :=
  txn _ _ (λ s, (s, Ok (omap (λ v, (λ p, row_resource k v p.1 p.2) <$> resource_versions s !! (k, v))
    (stored_versions k (resource_versions s))))).
End store.

Arguments StoredResource : clear implicits.
Arguments put_request : clear implicits.
Arguments mem_store : clear implicits.
Arguments pg_store : clear implicits.

(** ** What a store promises

    The contract of the [Store] protocol, stated once and discharged by both backends: every resource has
    a history of versions, reads are views of it, and [put] replays, refuses, or appends one version. *)
Record store_api (V S : Type) := MkApi {
  api_init : S;
  api_put : Z → put_request V → S → S * result (StoredResource V);
  api_get : rkey → S → result (StoredResource V);
  api_get_version : rkey → Z → S → result (StoredResource V);
  api_history : rkey → S → list (StoredResource V);
  (** the body a put stores, and the etag of a version *)
  api_stored : put_request V → gmap string V;
  api_tag : string → string → Z → gmap string V → string
}.
Arguments api_init {V S} _.
Arguments api_put {V S} _ _ _ _.
Arguments api_get {V S} _ _ _.
Arguments api_get_version {V S} _ _ _ _.
Arguments api_history {V S} _ _ _.
Arguments api_stored {V S} _ _.
Arguments api_tag {V S} _ _ _ _ _.

(** The reads agree with a history [l] of resource [k], numbered from 1. *)
Record reads_agree {V S} (api : store_api V S) (s : S) (k : rkey) (l : list (StoredResource V)) : Prop := {
  ra_numbered : map version l = seqZ 1 (Z.of_nat (length l));
  ra_owned : Forall (λ r, key_of r = k) l;
  ra_get : api_get api k s = of_option (KeyError k.2) (last l);
  ra_version : ∀ v, api_get_version api k v s =
    of_option (KeyError k.2) (if 1 <=? v then l !! Z.to_nat (v - 1) else None)
}.

(** A new version [r] of the target of [q] is the only change. *)
Record appended {V S} (api : store_api V S) (q : put_request V) (s s' : S) (r : StoredResource V) : Prop := {
  ap_target : key_of r = put_target q;
  ap_body : body r = api_stored api q;
  ap_tag : etag r = api_tag api (put_tenant q) (put_kind q) (version r) (body r);
  ap_history : ∀ k, api_history api k s' = api_history api k s ++ (if decide (k = put_target q) then [r] else []);
  ap_match : ∀ p, last (api_history api (put_target q) s) = Some p → if_match q = Some (etag p)
}.

Class StoreLaws {V S} (api : store_api V S) (inv : S → Prop) : Prop := {
  sl_init : inv (api_init api);
  sl_empty : ∀ k, api_history api k (api_init api) = [];
  sl_reads : ∀ s k, inv s → reads_agree api s k (api_history api k s);
  sl_put : ∀ now q s, inv s →
    match api_put api now q s with
    | (s', Ok r) => inv s' ∧ ((∀ k, api_history api k s' = api_history api k s) ∨ appended api q s s' r)
    | (s', Err _) => inv s' ∧ ∀ k, api_history api k s' = api_history api k s
    end
}.

Section changes.
Context {V S : Type} (api : store_api V S).

(** Every version carries the etag of its number and body. *)
Definition tagged (k : rkey) (l : list (StoredResource V)) : Prop :=
  Forall (λ r, etag r = api_tag api k.1.1 k.1.2 (version r) (body r)) l.

Lemma put_grows q s s' : (∀ k, api_history api k s' = api_history api k s) ∨ (∃ r, appended api q s s' r) →
  ∀ k r, r ∈ api_history api k s → r ∈ api_history api k s'.
Proof. intros [H|[x H]] k r Hr; [by rewrite H|]. rewrite (ap_history _ _ _ _ _ H). set_solver. Qed.

Lemma put_tagged q s s' : (∀ k, api_history api k s' = api_history api k s) ∨ (∃ r, appended api q s s' r) →
  (∀ k, tagged k (api_history api k s)) → ∀ k, tagged k (api_history api k s').
Proof.
  intros [H|[r H]] Ht k; [by rewrite H|]. rewrite (ap_history _ _ _ _ _ H). apply Forall_app. split; [apply Ht|].
  case_decide as Hk; [|constructor]. subst k. constructor; [|constructor]. simpl. apply (ap_tag _ _ _ _ _ H).
Qed.

End changes.

Section client.
Context {V S : Type} (api : store_api V S) (inv : S → Prop) `{!StoreLaws api inv}.

(** Puts with the clock of each *)
Definition run (ops : list (Z * put_request V)) (s : S) : S := foldl (λ s o, (api_put api o.1 o.2 s).1) s ops.

Lemma run_inv ops : ∀ s, inv s → inv (run ops s).
Proof.
  unfold run. induction ops as [|[now q] ops IH]; intros s Hs; simpl; [done|]. apply IH.
  pose proof (sl_put now q s Hs) as H. destruct (api_put api now q s) as [s' [r|e]]; tauto.
Qed.

Lemma run_grows ops k : ∀ s, inv s → api_history api k s `prefix_of` api_history api k (run ops s).
Proof.
  unfold run. induction ops as [|[now q] ops IH]; intros s Hs; simpl; [done|].
  pose proof (sl_put now q s Hs) as H. destruct (api_put api now q s) as [s' [r|e]] eqn:E; simpl.
  - destruct H as [Hi H]. etransitivity; [|apply IH; done]. destruct H as [->|H]; [done|]. rewrite (ap_history _ _ _ _ _ H). by apply prefix_app_r.
  - destruct H as [Hi H]. rewrite <- H. by apply IH.
Qed.
Lemma put_cases now q s : inv s → let s' := (api_put api now q s).1 in
  inv s' ∧ ((∀ k, api_history api k s' = api_history api k s) ∨ ∃ r, appended api q s s' r).
Proof using StoreLaws0.
  intros Hi. pose proof (sl_put now q s Hi) as H. destruct (api_put api now q s) as [s' [r|e]]; simpl.
  - destruct H as [? [?|?]]; eauto.
  - destruct H; eauto.
Qed.

(** Equal etags in one history are the same version. *)
Lemma same_etag (Htags : ∀ t k v v' b b', api_tag api t k v b = api_tag api t k v' b' → v = v') s k r1 r2 : inv s → tagged api k (api_history api k s) → r1 ∈ api_history api k s → r2 ∈ api_history api k s →
  etag r1 = etag r2 → r1 = r2.
Proof using StoreLaws0.
  intros Hi Ht H1 H2 He. unfold tagged in Ht. rewrite Forall_forall in Ht. rewrite (Ht r1 H1), (Ht r2 H2) in He.
  apply Htags in He. destruct (sl_reads s k Hi) as [Hn _ _ _].
  apply (NoDup_map_elem version (api_history api k s)); [|done..]. rewrite Hn. apply NoDup_seqZ.
Qed.

End client.

(** The labels of stored versions are right. *)
Definition labelled {V : Type} (vs : gmap (rkey * Z) (StoredResource V)) : Prop :=
  ∀ k v r, vs !! (k, v) = Some r → key_of r = k ∧ version r = v.

Lemma labelled_insert {V : Type} (vs : gmap (rkey * Z) (StoredResource V)) r k v :
  key_of r = k → version r = v → labelled vs → labelled (<[(k, v) := r]> vs).
Proof. intros Hk Hv Hl k' v' r'. rewrite lookup_insert_Some. intros [[[= <- <-] <-]|[_ H]]; [done|by apply Hl]. Qed.

Section reads.
Context {V : Type} (latest : gmap rkey Z) (vs : gmap (rkey * Z) (StoredResource V)).
Context (Hnum : numbered latest vs) (Hlab : labelled vs).

Lemma hist_lookup k v : 1 <= v → hist vs k (default 0 (latest !! k)) !! Z.to_nat (v - 1) = vs !! (k, v).
Proof.
  intros Hv. destruct Hnum as [H1 H2]. destruct (hist_spec vs k (default 0 (latest !! k))) as [_ Hat].
  { intros w Hw. apply H2. destruct (latest !! k); simpl in *; [eauto|lia]. }
  rewrite Hat, Z2Nat.id by lia. replace (v - 1 + 1) with v by lia.
  destruct (Z.ltb_spec (v - 1) (default 0 (latest !! k))); [done|]. symmetry. apply eq_None_not_Some.
  rewrite H2. intros (n & Hn & ?). rewrite Hn in *. simpl in *. lia.
Qed.

Lemma hist_length k : Z.of_nat (length (hist vs k (default 0 (latest !! k)))) = default 0 (latest !! k).
Proof.
  destruct Hnum as [H1 H2]. destruct (hist_spec vs k (default 0 (latest !! k))) as [-> _].
  { intros w Hw. apply H2. destruct (latest !! k); simpl in *; [eauto|lia]. }
  destruct (latest !! k) as [n|] eqn:E; simpl; [|lia]. pose proof (H1 k n E). lia.
Qed.

Lemma hist_elem k i r : hist vs k (default 0 (latest !! k)) !! i = Some r → vs !! (k, Z.of_nat i + 1) = Some r.
Proof. intros H. rewrite <- H, <- hist_lookup by lia. f_equal. lia. Qed.

Lemma hist_last k : last (hist vs k (default 0 (latest !! k))) = latest !! k ≫= λ n, vs !! (k, n).
Proof.
  rewrite last_lookup. pose proof (hist_length k) as Hl. destruct (latest !! k) as [n|] eqn:E; simpl in *.
  - pose proof (proj1 Hnum k n E). rewrite <- hist_lookup by lia. rewrite E. simpl. f_equal. lia.
  - by destruct (hist vs k 0).
Qed.

Lemma hist_labels k : let l := hist vs k (default 0 (latest !! k)) in
  map version l = seqZ 1 (Z.of_nat (length l)) ∧ Forall (λ r, key_of r = k) l.
Proof.
  intros l. split.
  - apply list_eq. intros i. rewrite list_lookup_fmap. destruct (l !! i) as [r|] eqn:E; simpl.
    + pose proof (lookup_lt_Some _ _ _ E). apply hist_elem, Hlab in E as [_ ->]. rewrite lookup_seqZ_lt by lia. f_equal. lia.
    + apply lookup_ge_None in E. by rewrite lookup_seqZ_ge by lia.
  - apply Forall_lookup. intros i r E. by apply hist_elem, Hlab in E as [? _].
Qed.
End reads.

(** ** The in-process store keeps the contract *)

Section mem_laws.
Context {V : Type} (of_str : string → V).
Context (request_digest : string → string → gmap string V → string).
Context (etag_digest : string → string → Z → gmap string V → string).

Definition mem_api : store_api V (mem_store V) :=
  MkApi V (mem_store V) (MkMemStore ∅ ∅ ∅) (λ _ q, mem_put of_str request_digest etag_digest q)
    mem_get mem_get_version mem_history (λ q, normalized of_str (put_body q) (put_id q)) etag_digest.

Definition mem_latest (s : mem_store V) : gmap rkey Z := version <$> items s.

Record mem_inv (s : mem_store V) : Prop := {
  mi_numbered : numbered (mem_latest s) (versions s);
  mi_labelled : labelled (versions s);
  mi_current : ∀ k r, items s !! k = Some r → versions s !! (k, version r) = Some r
}.

Lemma mem_history_eq s k : mem_inv s → mem_history k s = hist (versions s) k (default 0 (mem_latest s !! k)).
Proof. intros [Hn _ _]. unfold mem_history. by rewrite (stored_versions_spec _ _ _ Hn). Qed.

Lemma mem_current s k : mem_inv s → items s !! k = mem_latest s !! k ≫= λ n, versions s !! (k, n).
Proof.
  intros [_ _ Hc]. unfold mem_latest. rewrite lookup_fmap. destruct (items s !! k) as [r|] eqn:E; [|done].
  simpl. symmetry. by apply Hc.
Qed.

(** Writing the next version of the target *)
Lemma mem_write_inv q s b idem : mem_inv s →
  let r := next_resource etag_digest q b (version <$> items s !! put_target q) in
  let s' := MkMemStore (<[put_target q := r]> (items s)) (<[(put_target q, version r) := r]> (versions s)) idem in
  mem_inv s' ∧ ∀ k, mem_history k s' = mem_history k s ++ (if decide (k = put_target q) then [r] else []).
Proof.
  intros Hi r s'. pose proof Hi as [Hn Hl Hc]. assert (key_of r = put_target q) as Hkey by done.
  assert (version r = next_version (mem_latest s) (put_target q)) as Hv.
  { unfold r, next_resource, next_version, mem_latest. rewrite lookup_fmap. simpl. done. }
  clearbody r.
  assert (mem_inv s') as Hi'.
  { split; simpl.
    - unfold mem_latest. simpl. rewrite fmap_insert, Hv. by apply numbered_insert.
    - by apply labelled_insert.
    - intros k x. rewrite lookup_insert_Some. intros [[<- <-]|[Hne Hx]]; [by rewrite lookup_insert_eq|].
      rewrite lookup_insert_ne by congruence. by apply Hc. }
  split; [done|]. intros k. rewrite !mem_history_eq by done. unfold mem_latest. simpl. rewrite fmap_insert.
  case_decide as Hk.
  - subst k. rewrite lookup_insert_eq. simpl. rewrite Hv. unfold next_version. fold (mem_latest s).
    destruct (mem_latest s !! put_target q) as [n|] eqn:E; simpl.
    + apply hist_snoc. pose proof (proj1 Hn _ _ E). lia.
    + apply (hist_snoc _ _ 0). lia.
  - rewrite lookup_insert_ne, app_nil_r by done. by apply hist_frame.
Qed.

#[global] Instance mem_store_laws : StoreLaws mem_api mem_inv.
Proof.
  split.
  - split; simpl; [apply numbered_empty|by intros k v r; rewrite lookup_empty|by intros k r; rewrite lookup_empty].
  - done.
  - intros s k Hi. pose proof Hi as [Hn Hl _]. simpl. rewrite mem_history_eq by done.
    destruct (hist_labels (mem_latest s) (versions s) Hn Hl k) as [H1 H2]. split; [done|done| |]; simpl.
    + unfold mem_get. by rewrite hist_last, (mem_current s k Hi).
    + intros v. unfold mem_get_version. destruct (Z.leb_spec 1 v); [by rewrite hist_lookup|].
      assert (versions s !! (k, v) = None) as ->; [|done]. apply eq_None_not_Some. rewrite (proj2 Hn).
      intros (n & _ & ?). lia.
  - intros now q s Hi. simpl. unfold mem_put. destruct (idempotency s !! _) as [[h r]|].
    { case_bool_decide; [split; [done|by left]|done]. }
    destruct (match items s !! put_target q with Some _ => _ | None => _ end) eqn:Em; [done|].
    destruct (mem_write_inv q s (normalized of_str (put_body q) (put_id q))
      (<[(put_tenant q, put_key q) := (request_digest (put_kind q) (put_id q) (put_body q),
         next_resource etag_digest q (normalized of_str (put_body q) (put_id q)) (version <$> items s !! put_target q))]>
         (idempotency s)) Hi) as [Hi' Hh].
    split; [exact Hi'|]. right. split; [done|done|done|exact Hh|]. intros p. simpl. rewrite mem_history_eq, hist_last, <- mem_current by (apply Hi || done).
    intros Hp. rewrite Hp in Em. by case_bool_decide.
Qed.
End mem_laws.

(** ** The persistent store keeps the contract *)

Section pg_laws.
Context {V : Type} (of_str : string → V).
Context (request_digest : string → string → gmap string V → string).
Context (etag_digest : string → string → Z → gmap string V → string).
Context (json_safe : gmap string V → gmap string V).
Context (txn : ∀ S A, M S A → M S A) `{!Transactional txn} (ttl : Z).

Definition pg_api : store_api V (pg_store V) :=
  MkApi V (pg_store V) (MkPgStore ∅ ∅ ∅) (pg_put of_str request_digest etag_digest json_safe txn ttl)
    (λ k s, (pg_get txn k s).2) (λ k v s, (pg_get_version txn k v s).2)
    (λ k s, match (pg_history txn k s).2 with Ok l => l | Err _ => [] end)
    (λ q, normalized of_str (json_safe (put_body q)) (put_id q)) etag_digest.

Definition pg_latest (s : pg_store V) : gmap rkey Z := (λ p, p.1.1) <$> resources s.

(** The version table as resources *)
Definition pg_rows (s : pg_store V) : gmap (rkey * Z) (StoredResource V) :=
  map_imap (λ kv p, Some (row_resource kv.1 kv.2 p.1 p.2)) (resource_versions s).

Record pg_inv (s : pg_store V) : Prop := {
  pi_numbered : numbered (pg_latest s) (resource_versions s);
  pi_current : ∀ k p, resources s !! k = Some p → resource_versions s !! (k, p.1.1) = Some (p.1.2, p.2)
}.

Lemma pg_rows_lookup s k v : pg_rows s !! (k, v) = (λ p, row_resource k v p.1 p.2) <$> resource_versions s !! (k, v).
Proof. unfold pg_rows. rewrite map_lookup_imap. by destruct (resource_versions s !! (k, v)). Qed.

Lemma pg_rows_good s : pg_inv s → numbered (pg_latest s) (pg_rows s) ∧ labelled (pg_rows s).
Proof.
  intros [[H1 H2] _]. split; [split; [done|]|].
  - intros k v. rewrite pg_rows_lookup, fmap_is_Some. apply H2.
  - intros k v r. rewrite pg_rows_lookup. intros (p & _ & ->)%fmap_Some. by destruct k as [[??]?].
Qed.

Lemma pg_history_eq s k : pg_inv s → api_history pg_api k s = hist (pg_rows s) k (default 0 (pg_latest s !! k)).
Proof.
  intros [Hn _]. simpl. unfold pg_history. rewrite txn_atomically. simpl. rewrite (stored_versions_spec _ _ _ Hn).
  unfold hist. apply list_omap_ext, Forall_Forall2_diag, Forall_forall. intros v _. by rewrite pg_rows_lookup.
Qed.

Lemma pg_current s k : pg_inv s →
  (λ p, row_resource k p.1.1 p.1.2 p.2) <$> resources s !! k = pg_latest s !! k ≫= λ n, pg_rows s !! (k, n).
Proof.
  intros [_ Hc]. unfold pg_latest. rewrite lookup_fmap. destruct (resources s !! k) as [p|] eqn:E; [|done].
  simpl. by rewrite pg_rows_lookup, (Hc k p E).
Qed.

Lemma pg_reads s k : pg_inv s → reads_agree pg_api s k (api_history pg_api k s).
Proof.
  intros Hi. destruct (pg_rows_good s Hi) as [Hn Hl]. rewrite pg_history_eq by done.
  destruct (hist_labels (pg_latest s) (pg_rows s) Hn Hl k) as [H1 H2]. split; [done|done| |].
  - simpl. unfold pg_get. rewrite txn_atomically. unfold atomically. rewrite hist_last, (pg_current s k Hi) by done.
    by destruct (of_option _ _).
  - intros v. simpl. unfold pg_get_version. rewrite txn_atomically. unfold atomically. rewrite <- pg_rows_lookup.
    destruct (Z.leb_spec 1 v); [rewrite hist_lookup by done; by destruct (of_option _ _)|].
    assert (pg_rows s !! (k, v) = None) as ->; [|done]. apply eq_None_not_Some. rewrite (proj2 Hn). intros (n & _ & ?). lia.
Qed.

Lemma pg_write_inv q s b idem : pg_inv s →
  let r := next_resource etag_digest q b ((λ p, p.1.1) <$> resources s !! put_target q) in
  let s' := MkPgStore (<[put_target q := (version r, etag r, b)]> (resources s))
    (<[(put_target q, version r) := (etag r, b)]> (resource_versions s)) idem in
  resource_versions s !! (put_target q, version r) = None ∧ pg_inv s' ∧
  ∀ k, api_history pg_api k s' = api_history pg_api k s ++ (if decide (k = put_target q) then [r] else []).
Proof.
  intros Hi r s'. pose proof Hi as [Hn Hc].
  assert (r = row_resource (put_target q) (version r) (etag r) b) as Hrow by done.
  assert (version r = next_version (pg_latest s) (put_target q)) as Hv.
  { unfold r, next_resource, next_version, pg_latest. rewrite lookup_fmap. simpl. done. }
  clearbody r.
  assert (pg_inv s') as Hi'.
  { split; simpl.
    - unfold pg_latest. simpl. rewrite fmap_insert. simpl. rewrite Hv. by apply numbered_insert.
    - intros k p. rewrite lookup_insert_Some. intros [[<- <-]|[Hne Hp]]; [by rewrite lookup_insert_eq|].
      rewrite lookup_insert_ne by congruence. by apply Hc. }
  split_and!; [rewrite Hv; by apply numbered_fresh|done|]. intros k. rewrite !pg_history_eq by done.
  assert (pg_rows s' = <[(put_target q, version r) := r]> (pg_rows s)) as Hrows.
  { apply map_eq. intros [k' v']. rewrite pg_rows_lookup. simpl. destruct (decide ((k', v') = (put_target q, version r))) as [[= -> ->]|Hne].
    - rewrite !lookup_insert_eq. simpl. congruence.
    - rewrite !lookup_insert_ne by congruence. by rewrite pg_rows_lookup. }
  rewrite Hrows. unfold pg_latest. simpl. rewrite fmap_insert. simpl. case_decide as Hk.
  - subst k. rewrite lookup_insert_eq. simpl. rewrite Hv. unfold next_version. fold (pg_latest s).
    destruct (pg_latest s !! put_target q) as [n|] eqn:E; simpl.
    + apply hist_snoc. pose proof (proj1 Hn _ _ E). lia.
    + apply (hist_snoc _ _ 0). lia.
  - rewrite lookup_insert_ne, app_nil_r by done. by apply hist_frame.
Qed.

(** Purging or adding idempotency records changes nothing else. *)
Lemma pg_idem_frame s idem : pg_inv s →
  pg_inv (MkPgStore (resources s) (resource_versions s) idem) ∧
  ∀ k, api_history pg_api k (MkPgStore (resources s) (resource_versions s) idem) = api_history pg_api k s.
Proof. intros Hi. assert (pg_inv (MkPgStore (resources s) (resource_versions s) idem)) as Hi' by (by destruct Hi).
  split; [done|]. intros k. by rewrite !pg_history_eq by done.
Qed.

#[global] Instance pg_store_laws : StoreLaws pg_api pg_inv.
Proof.
  split.
  - split; simpl; [apply numbered_empty|by intros k p; rewrite lookup_empty].
  - intros k. simpl. unfold pg_history. by rewrite txn_atomically.
  - intros s k Hi. by apply pg_reads.
  - intros now q s Hi. cbn [api_put pg_api]. unfold pg_put. rewrite txn_atomically. unfold atomically.
    cbn [resources resource_versions idempotency_records].
    set (idem := match idempotency_records s !! _ with Some _ => _ | None => _ end).
    destruct (pg_idem_frame s idem Hi) as [Hi' Hh]. destruct (idem !! _) as [row|].
    { case_bool_decide; [split; [done|by left]|done]. }
    destruct (match resources s !! put_target q with Some _ => _ | None => _ end) eqn:Em; [done|].
    set (b := normalized of_str (json_safe (put_body q)) (put_id q)).
    set (r := next_resource etag_digest q b ((λ p, p.1.1) <$> resources s !! put_target q)).
    set (idem' := <[_ := _]> idem).
    destruct (pg_write_inv q s b idem' Hi) as (Hfresh & Hi'' & Hh'). fold r in Hfresh, Hi'', Hh'. rewrite Hfresh. split; [exact Hi''|].
    right. split; [done|done|done|exact Hh'|].
    intros p. rewrite pg_history_eq, hist_last, <- pg_current by (done || by apply pg_rows_good). intros (x & Hx & ->)%fmap_Some.
    rewrite Hx in Em. simpl. by case_bool_decide.
Qed.
End pg_laws.

(** ** Replays *)

Section replay.
Context {V : Type} (of_str : string → V).
Context (request_digest : string → string → gmap string V → string).
Context (etag_digest : string → string → Z → gmap string V → string).
Context (json_safe : gmap string V → gmap string V).
Context (txn : ∀ S A, M S A → M S A) `{!Transactional txn} (ttl : Z).

Abbreviation mem := (mem_api of_str request_digest etag_digest).
Abbreviation pg := (pg_api of_str request_digest etag_digest json_safe txn ttl).

(** A remembered outcome is never overwritten. *)
Lemma mem_put_remembers q s ik e : idempotency s !! ik = Some e →
  idempotency (mem_put of_str request_digest etag_digest q s).1 !! ik = Some e.
Proof.
  intros H. unfold mem_put. destruct (idempotency s !! (put_tenant q, put_key q)) as [[h r]|] eqn:E; [by case_bool_decide|].
  destruct (match items s !! put_target q with Some _ => _ | None => _ end); [done|]. simpl.
  rewrite lookup_insert_ne; [done|]. intros <-. congruence.
Qed.

Lemma mem_run_remembers ops s ik e : idempotency s !! ik = Some e → idempotency (run mem ops s) !! ik = Some e.
Proof.
  unfold run. revert s. induction ops as [|[now q] ops IH]; intros s H; simpl; [done|]. apply IH. by apply mem_put_remembers.
Qed.

Lemma mem_put_records q s s' r : mem_put of_str request_digest etag_digest q s = (s', Ok r) →
  idempotency s' !! (put_tenant q, put_key q) = Some (request_digest (put_kind q) (put_id q) (put_body q), r).
Proof.
  unfold mem_put. destruct (idempotency s !! (put_tenant q, put_key q)) as [[h x]|] eqn:E.
  - case_bool_decide as Hh; [|done]. intros [= <- <-]. by rewrite E, Hh.
  - destruct (match items s !! put_target q with Some _ => _ | None => _ end); [done|]. intros [= <- <-].
    simpl. by rewrite lookup_insert_eq.
Qed.

(** A record that is not expired survives. *)
Lemma pg_put_remembers now q s ik row : idempotency_records s !! ik = Some row → now < expires_at row →
  idempotency_records (api_put pg now q s).1 !! ik = Some row.
Proof.
  intros H Hnow. cbn [api_put pg_api]. unfold pg_put. rewrite txn_atomically. unfold atomically.
  cbn [resources resource_versions idempotency_records].
  set (idem := match idempotency_records s !! _ with Some _ => _ | None => _ end).
  assert (idem !! ik = Some row) as Hik.
  { unfold idem. destruct (idempotency_records s !! (put_tenant q, put_key q)) as [row'|] eqn:E; [|done].
    destruct (Z.leb_spec (expires_at row') now); [|done]. rewrite lookup_delete_ne; [done|]. intros <-.
    rewrite E in H. injection H as ->. lia. }
  destruct (idem !! (put_tenant q, put_key q)) as [row'|] eqn:E; [by case_bool_decide|].
  destruct (match resources s !! put_target q with Some _ => _ | None => _ end); [done|].
  destruct (resource_versions s !! _); [done|]. simpl. rewrite lookup_insert_ne; [done|]. intros <-. congruence.
Qed.

Lemma pg_run_remembers ops s ik row : idempotency_records s !! ik = Some row → Forall (λ o, o.1 < expires_at row) ops →
  idempotency_records (run pg ops s) !! ik = Some row.
Proof.
  unfold run. revert s. induction ops as [|[now q] ops IH]; intros s H Ho; [done|]. apply Forall_cons in Ho as [Hnow Ho].
  cbn [foldl fst snd]. apply IH; [|done]. by apply pg_put_remembers.
Qed.

Lemma pg_put_records now q s s' r : 0 < ttl → api_put pg now q s = (s', Ok r) →
  (∃ row, idempotency_records s' !! (put_tenant q, put_key q) = Some row ∧ now < expires_at row ∧ response row = r ∧
    idem_hash row = request_digest (put_kind q) (put_id q) (normalized of_str (json_safe (put_body q)) (put_id q))).
Proof.
  intros Httl. cbn [api_put pg_api]. unfold pg_put. rewrite txn_atomically. unfold atomically.
  cbn [resources resource_versions idempotency_records].
  set (idem := match idempotency_records s !! _ with Some _ => _ | None => _ end).
  destruct (idem !! (put_tenant q, put_key q)) as [row|] eqn:E.
  - case_bool_decide as Hh; [|done]. intros [= <- <-]. exists row. simpl. split_and!; try done.
    unfold idem in E. destruct (idempotency_records s !! (put_tenant q, put_key q)) as [row'|] eqn:E'; [|by rewrite E' in E].
    destruct (Z.leb_spec (expires_at row') now); [by rewrite lookup_delete_eq in E|]. rewrite E' in E. by simplify_eq.
  - destruct (match resources s !! put_target q with Some _ => _ | None => _ end); [done|].
    destruct (resource_versions s !! _); [done|]. intros [= <- <-]. simpl. rewrite lookup_insert_eq. eexists. split; [done|].
    simpl. split_and!; [lia|done|done].
Qed.

Lemma pg_put_replays now q s row : idempotency_records s !! (put_tenant q, put_key q) = Some row → now < expires_at row →
  idem_hash row = request_digest (put_kind q) (put_id q) (normalized of_str (json_safe (put_body q)) (put_id q)) →
  api_put pg now q s = (s, Ok (response row)).
Proof.
  intros H Hnow Hh. cbn [api_put pg_api]. unfold pg_put. rewrite txn_atomically. unfold atomically.
  cbn [resources resource_versions idempotency_records]. rewrite H, (proj2 (Z.leb_gt _ _)) by lia. rewrite H.
  rewrite bool_decide_true by done. by destruct s.
Qed.
End replay.

(** ** Properties *)

(** In every state reached by puts, reads agree with the histories, and a put replays, refuses or appends. *)
Definition history_sound {V S} (api : store_api V S) : Prop :=
  ∀ ops, let s := run api ops (api_init api) in
    (∀ k, reads_agree api s k (api_history api k s)) ∧
    ∀ now q, match api_put api now q s with
             | (s', Ok r) => (∀ k, api_history api k s' = api_history api k s) ∨ appended api q s s' r
             | (s', Err _) => ∀ k, api_history api k s' = api_history api k s
             end.

Lemma laws_history_sound {V S} (api : store_api V S) inv : StoreLaws api inv → history_sound api.
Proof.
  intros Hl ops s. assert (inv s) as Hi by (apply (run_inv api inv); apply sl_init). split.
  - intros k. by apply (sl_reads (inv := inv)).
  - intros now q. pose proof (sl_put now q s Hi) as H. destruct (api_put api now q s) as [s' [r|e]]; tauto.
Qed.

(** C13: Both resource stores keep a gapless, append-only history with optimistic concurrency.  In every
    state reached by puts from the empty store, for every resource: [history] lists versions 1, 2, ..., n of
    that resource; [get] returns the last of them, or raises [KeyError] when there is none; [get_version]
    returns each by its number.  A further put either changes no history (a replay, or an error), or appends
    the one version it returns to its own resource, and only if that resource was new or If-Match named the
    current etag. *)
Theorem store_history_sound {V : Type} (of_str : string → V) (request_digest : string → string → gmap string V → string)
    (etag_digest : string → string → Z → gmap string V → string) (json_safe : gmap string V → gmap string V)
    (txn : ∀ S A, M S A → M S A) (Htxn : Transactional txn) (ttl : Z) :
  history_sound (mem_api of_str request_digest etag_digest) ∧
  history_sound (pg_api of_str request_digest etag_digest json_safe txn ttl).
Proof. split; eapply laws_history_sound; apply _. Qed.

Definition toy_request_digest (k id : string) (b : gmap string string) : string :=
  k +:+ "/" +:+ id +:+ "/" +:+ default "" (b !! "name").
Definition toy_etag (t k : string) (v : Z) (b : gmap string string) : string := pretty v +:+ default "" (b !! "name").
Definition sample_put (name key : string) (m : option string) : put_request string :=
  MkPut "site" "s1" "acme" {[ "name" := name ]} key m.
Abbreviation sample_pg := (pg_api id toy_request_digest toy_etag id (@atomically) 100).

Lemma store_history_sound_witness :
  map version (api_history sample_pg ("acme", "site", "s1")
    (run sample_pg [(1, sample_put "a" "k1" None); (2, sample_put "b" "k2" None); (3, sample_put "c" "k3" (Some "1a"))] (api_init sample_pg)))
  = [1; 2].
Proof.
  pose proof (ra_numbered _ _ _ _ (proj1 (proj2 (store_history_sound id toy_request_digest toy_etag id (@atomically) atomically_transactional 100)
    [(1, sample_put "a" "k1" None); (2, sample_put "b" "k2" None); (3, sample_put "c" "k3" (Some "1a"))]) ("acme", "site", "s1"))) as H.
  vm_compute in H. vm_compute. exact H.
Defined.

(** A put takes effect once.  After a put returned [r], the same put sent again returns [r] and changes
    nothing, whatever other puts happened in between: always in process, and in the persistent store as long
    as the time to live of its idempotency record, counted from some moment after the put, has not passed. *)
Theorem store_put_once {V : Type} (of_str : string → V) (request_digest : string → string → gmap string V → string)
    (etag_digest : string → string → Z → gmap string V → string) (json_safe : gmap string V → gmap string V)
    (txn : ∀ S A, M S A → M S A) (Htxn : Transactional txn) (ttl : Z) (Httl : 0 < ttl)
    (q : put_request V) (r : StoredResource V) (ops : list (Z * put_request V)) :
  (∀ now now' s s', api_put (mem_api of_str request_digest etag_digest) now q s = (s', Ok r) →
     let s'' := run (mem_api of_str request_digest etag_digest) ops s' in
     api_put (mem_api of_str request_digest etag_digest) now' q s'' = (s'', Ok r)) ∧
  (∀ now s s', api_put (pg_api of_str request_digest etag_digest json_safe txn ttl) now q s = (s', Ok r) →
     ∃ deadline, now < deadline ∧ ∀ now', Forall (λ o, o.1 < deadline) ops → now' < deadline →
       let s'' := run (pg_api of_str request_digest etag_digest json_safe txn ttl) ops s' in
       api_put (pg_api of_str request_digest etag_digest json_safe txn ttl) now' q s'' = (s'', Ok r)).
Proof.
  split.
  - intros now now' s s' Hput s''. simpl in *. apply mem_put_records in Hput.
    apply (mem_run_remembers of_str request_digest etag_digest ops) in Hput. fold s'' in Hput.
    unfold mem_put. rewrite Hput. by rewrite bool_decide_true.
  - intros now s s' Hput. destruct (pg_put_records _ _ _ _ _ _ _ _ _ _ _ Httl Hput) as (row & Hrow & Hnow & <- & Hhash).
    exists (expires_at row). split; [done|]. intros now' Hops Hnow' s''. apply pg_put_replays; [done| |done|done].
    by apply pg_run_remembers.
Qed.

Lemma store_put_once_witness :
  let s1 := (api_put sample_pg 1 (sample_put "a" "k1" None) (api_init sample_pg)).1 in
  ∃ r, api_put sample_pg 1 (sample_put "a" "k1" None) (api_init sample_pg) = (s1, Ok r) ∧ version r = 1 ∧
  ∃ deadline, 1 < deadline ∧ ∀ now', Forall (λ o, o.1 < deadline) [(2, sample_put "b" "k2" (Some "1a"))] → now' < deadline →
    api_put sample_pg now' (sample_put "a" "k1" None) (run sample_pg [(2, sample_put "b" "k2" (Some "1a"))] s1)
    = (run sample_pg [(2, sample_put "b" "k2" (Some "1a"))] s1, Ok r).
Proof.
  intros s1. exists (MkResource "site" "s1" "acme" 1 "1a" (<["id" := "s1"]> {[ "name" := "a" ]})).
  assert (api_put sample_pg 1 (sample_put "a" "k1" None) (api_init sample_pg)
    = (s1, Ok (MkResource "site" "s1" "acme" 1 "1a" (<["id" := "s1"]> {[ "name" := "a" ]})))) as H by by vm_compute.
  split; [exact H|]. split; [reflexivity|].
  exact (proj2 (store_put_once id toy_request_digest toy_etag id (@atomically) atomically_transactional 100 ltac:(lia)
    (sample_put "a" "k1" None) _ [(2, sample_put "b" "k2" (Some "1a"))]) 1 _ _ H).
Defined.
