(* ===== verification/Topology.v ===== *)
(** * Topology: [packages/topology]

    [models.py]: assets, relationships and snapshots; [validation.py]: the graph check (Kahn's algorithm
    and the capacity rule) and the breadth-first [descendants]; [versioning.py]: the diff of two snapshots;
    [registry.py]: drafts and published versions, in process and in PostgreSQL.  Parameters: the SHA-256
    etag, the clock, and the round trip [reload] of an asset through its [jsonb] column and
    [_asset_from_dict].  Not modelled: the CSV importer. *)
From S2P Require Import Prelude PyDecimal Domain Versions.
From stdpp Require Import pretty.
From Stdlib Require Import QArith Lqa.
Local Open Scope Z_scope.

(** ** models.py *)

Inductive AssetType :=
| ORGANIZATION | REGION | CAMPUS | SITE | DATA_CENTER | ROOM | RACK | POWER_ZONE | COOLING_ZONE | COMPUTE_NODE | ENERGY_ASSET.
#[global] Instance asset_type_eq_dec : EqDecision AssetType.
Proof. solve_decision. Defined.

Record Asset := MkAsset {
  asset_id : string; asset_tenant : string; site_id : string; asset_kind : AssetType; asset_name : string;
  capacity_kw : dec; attributes : gmap string string; effective : option TimeInterval; decommissioned_at : option datetime
}.
Record Relationship := MkRelationship { parent_id : string; child_id : string; rel_kind : string }.
#[global] Instance relationship_eq_dec : EqDecision Relationship.
Proof. solve_decision. Defined.
#[global] Instance relationship_countable : Countable Relationship.
Proof.
  refine (inj_countable' (λ r, (parent_id r, child_id r, rel_kind r)) (λ t, MkRelationship t.1.1 t.1.2 t.2) _).
  by intros [].
Qed.

Record TopologySnapshot := MkSnapshot {
  snap_version : Z; snap_tenant : string; snap_assets : list Asset; snap_relationships : list Relationship;
  published_at : datetime; snap_etag : string
}.

Definition snapshot_asset (s : TopologySnapshot) (id : string) : result Asset :=
  match base.filter (λ a, asset_id a = id) (snap_assets s) with a :: _ => Ok a | [] => Err (KeyError id) end.

Definition is_active (moment : datetime) (a : Asset) : result bool :=
  inside ← match effective a with None => Ok true | Some i => interval_contains i moment end;
  if (inside : bool) then match decommissioned_at a with None => Ok true | Some d => dt_ltb moment d end else Ok false.

Definition active_at (s : TopologySnapshot) (moment : datetime) : result (list Asset) :=
  flags ← mapM_result (is_active moment) (snap_assets s);
  Ok (omap (λ af : Asset * bool, if af.2 then Some af.1 else None) (zip (snap_assets s) flags)).

(** ** validation.py *)

(** [{asset.id: asset for asset in assets}] *)
Definition by_id (assets : list Asset) : gmap string Asset := foldl (λ m a, <[asset_id a := a]> m) ∅ assets.

(** [children] and [indegree] while the relationships are read *)
Definition read_relationship (ids : gmap string Asset) (st : list (string * list string) * gmap string Z) (r : Relationship)
    : result (list (string * list string) * gmap string Z) :=
  let '(children, indegree) := st in
  match ids !! parent_id r, ids !! child_id r with
  | Some p, Some c =>
      raise_if (negb (bool_decide (asset_tenant p = asset_tenant c))) (ValueError "cross-tenant topology relationship");;
      Ok (od_set (parent_id r) (default [] (od_get (parent_id r) children) ++ [child_id r]) children,
          alter (Z.add 1) (child_id r) indegree)
  | _, _ => Err (ValueError "orphan topology relationship")
  end.

(** [indegree[child] -= 1; if indegree[child] == 0: queue.append(child)] *)
Definition relax (st : gmap string Z * list string) (child : string) : gmap string Z * list string :=
  let '(indegree, queue) := st in
  let indegree := alter (λ n, n - 1) child indegree in
  (indegree, if bool_decide (indegree !! child = Some 0) then queue ++ [child] else queue).

(** [while queue]; every round takes a node that no earlier round took, so the number of assets is
    enough [fuel] (see [kahn_runs]). *)
Fixpoint kahn (fuel : nat) (children : string → list string) (indegree : gmap string Z) (queue : list string) (visited : Z)
    : result Z :=
  match queue with
  | [] => Ok visited
  | node :: rest =>
      match fuel with
      | O => Err (OtherError "out of fuel")
      | S fuel' =>
          let '(indegree', queue') := foldl relax (indegree, rest) (children node) in
          kahn fuel' children indegree' queue' (visited + 1)
      end
  end.

Definition check_capacity (ids : gmap string Asset) (e : string * list string) : result unit :=
  let capacity id := match ids !! id with Some a => capacity_kw a | None => dint 0 end in
  raise_if (dltb (dint 0) (capacity e.1) && dltb (capacity e.1) (dsum (map capacity e.2)))
    (ValueError ("child capacity exceeds boundary " +:+ e.1)).

Definition validate_graph (assets : list Asset) (relationships : list Relationship) : result unit :=
  let ids := by_id assets in
  raise_if (negb (Nat.eqb (size ids) (length assets))) (ValueError "duplicate asset ID");;
  st ← foldM_result (read_relationship ids) relationships ([], list_to_map (map (λ a, (asset_id a, 0)) assets));
  let '(children, indegree) := st in
  let queue := base.filter (λ id, indegree !! id = Some 0) (map asset_id assets) in
  visited ← kahn (length assets) (λ n, default [] (od_get n children)) indegree queue 0;
  raise_if (negb (visited =? Z.of_nat (length assets))) (ValueError "topology contains a cycle");;
  foldM_result (λ _ e, check_capacity ids e) children tt.

(** The children of [n] in the order of the relationships *)
Definition edges_of (relationships : list Relationship) (n : string) : list string :=
  map child_id (base.filter (λ r, parent_id r = n) relationships).

(** [while queue] of [descendants]; [acc] is the output *)
Fixpoint bfs (fuel : nat) (ids : gmap string Asset) (edges : string → list string) (queue : list string) (seen : gset string)
    (acc : list Asset) : result (list Asset) :=
  match queue with
  | [] => Ok acc
  | item :: rest =>
      match fuel with
      | O => Err (OtherError "out of fuel")
      | S fuel' =>
          if bool_decide (item ∈ seen) then bfs fuel' ids edges rest seen acc
          else match ids !! item with
               | None => Err (KeyError item)
               | Some a => bfs fuel' ids edges (rest ++ edges item) ({[item]} ∪ seen) (acc ++ [a])
               end
      end
  end.

(** Every relationship is put on the queue at most twice. *)
Definition descendants (assets : list Asset) (relationships : list Relationship) (root : string) : result (list Asset) :=
  let ids := by_id assets in
  raise_if (bool_decide (ids !! root = None)) (KeyError root);;
  bfs (2 * length relationships) ids (edges_of relationships) (edges_of relationships root) ∅ [].

(** ** versioning.py *)

Record AssetChange := MkChange { changed_id : string; changed_fields : list string }.
Record TopologyDiff := MkDiff {
  from_version : Z; to_version : Z; added_assets : gset string; removed_assets : gset string;
  changed_assets : list AssetChange; added_relationships : nat; removed_relationships : nat; capacity_delta_kw : dec
}.

(** [==] of datetimes: a naive one never equals an aware one. *)
Definition dt_eqb (a b : datetime) : bool := Bool.eqb (aware a) (aware b) && (us a =? us b).
Definition opt_eqb {A} (eqb : A → A → bool) (x y : option A) : bool :=
  match x, y with Some a, Some b => eqb a b | None, None => true | _, _ => false end.

Definition differing_fields (b a : Asset) : list string :=
  (if bool_decide (site_id b = site_id a) then [] else ["site_id"])
  ++ (if bool_decide (asset_kind b = asset_kind a) then [] else ["kind"])
  ++ (if bool_decide (asset_name b = asset_name a) then [] else ["name"])
  ++ (if deqb (capacity_kw b) (capacity_kw a) then [] else ["capacity_kw"])
  ++ (if bool_decide (attributes b = attributes a) then [] else ["attributes"])
  ++ (if opt_eqb (λ i j, dt_eqb (start i) (start j) && dt_eqb (end_ i) (end_ j)) (effective b) (effective a) then [] else ["effective"])
  ++ (if opt_eqb dt_eqb (decommissioned_at b) (decommissioned_at a) then [] else ["decommissioned_at"]).

Definition compare_versions (left right : TopologySnapshot) : result TopologyDiff :=
  raise_if (negb (bool_decide (snap_tenant left = snap_tenant right)))
    (PermissionError "cannot compare topology versions across tenants");;
  let la := by_id (snap_assets left) in
  let ra := by_id (snap_assets right) in
  let changed := omap (λ id, b ← la !! id; a ← ra !! id;
      match differing_fields b a with [] => None | fs => Some (MkChange id fs) end)
    (py_sorted String.compare (elements (dom la ∩ dom ra))) in
  let lr := list_to_set (snap_relationships left) : gset Relationship in
  let rr := list_to_set (snap_relationships right) : gset Relationship in
  Ok (MkDiff (snap_version left) (snap_version right) (dom ra ∖ dom la) (dom la ∖ dom ra) changed
    (size (rr ∖ lr)) (size (lr ∖ rr))
    (dsub (dsum (map capacity_kw (snap_assets right))) (dsum (map capacity_kw (snap_assets left))))).

(** ** registry.py *)

Record draft := MkDraft { draft_assets : list Asset; draft_relationships : list Relationship; revision : Z }.

Section registry.
Context (etag : list Asset → list Relationship → Z → string).

Definition draft_id (tenant : string) (rev : Z) : string := "draft-" +:+ tenant +:+ "-" +:+ pretty rev.

(** The checks before either backend is touched *)
Definition draft_check (tenant : string) (assets : list Asset) (relationships : list Relationship) : result unit :=
  raise_if (existsb (λ a, negb (bool_decide (asset_tenant a = tenant))) assets)
    (PermissionError "draft contains foreign tenant assets");;
  validate_graph assets relationships.

Definition make_snapshot (now : datetime) (tenant : string) (v : Z) (assets : list Asset) (relationships : list Relationship)
    : TopologySnapshot := MkSnapshot v tenant assets relationships now (etag assets relationships v).

(** *** In process *)

Record mem_registry := MkMemRegistry { drafts : gmap string draft; published : gmap string (list TopologySnapshot) }.

Definition mem_create_draft (tenant : string) (assets : list Asset) (relationships : list Relationship) : M mem_registry string :=
  mlift (draft_check tenant assets relationships);;
  s ← mget;
  let rev := default 0 (revision <$> drafts s !! tenant) + 1 in
  mput (MkMemRegistry (<[tenant := MkDraft assets relationships rev]> (drafts s)) (published s));;
  mret (draft_id tenant rev).

Definition mem_publish (now : datetime) (tenant : string) (expected : Z) : M mem_registry TopologySnapshot :=
  s ← mget;
  d ← mlift (of_option (ValueError "no draft exists") (drafts s !! tenant));
  mguard (negb (revision d =? expected)) (RuntimeError "draft changed since validation");;
  mlift (validate_graph (draft_assets d) (draft_relationships d));;
  let versions := default [] (published s !! tenant) in
  let snapshot := make_snapshot now tenant (Z.of_nat (length versions) + 1) (draft_assets d) (draft_relationships d) in
  mput (MkMemRegistry (drafts s) (<[tenant := versions ++ [snapshot]]> (published s)));;
  mret snapshot.

Definition mem_active (tenant : string) (at_ : option datetime) (s : mem_registry) : result TopologySnapshot :=
  let versions := default [] (published s !! tenant) in
  match last versions with
  | None => Err (KeyError "no published topology")
  | Some latest =>
      match at_ with
      | None => Ok latest
      | Some t => of_option (KeyError "no topology active at timestamp")
                    (last (base.filter (λ v, us (published_at v) <= us t) versions))
      end
  end.

Definition mem_traverse (tenant root : string) (s : mem_registry) : result (list Asset) :=
  snap ← mem_active tenant None s; descendants (snap_assets snap) (snap_relationships snap) root.

Definition mem_versions (tenant : string) (s : mem_registry) : list TopologySnapshot := default [] (published s !! tenant).

(** *** PostgreSQL *)

Record version_row := MkVersionRow {
  row_assets : list Asset; row_relationships : list Relationship; row_published_at : datetime; row_etag : string
}.
Record pg_registry := MkPgRegistry { topology_drafts : gmap string draft; topology_versions : gmap (string * Z) version_row }.

Context (reload : Asset → result Asset).
Context (txn : ∀ S A, M S A → M S A).

Definition pg_create_draft (tenant : string) (assets : list Asset) (relationships : list Relationship) : M pg_registry string :=
  mlift (draft_check tenant assets relationships);;
  txn _ _ (λ s, let rev := match topology_drafts s !! tenant with Some d => revision d + 1 | None => 1 end in
    (MkPgRegistry (<[tenant := MkDraft assets relationships rev]> (topology_drafts s)) (topology_versions s),
     Ok (draft_id tenant rev))).

(** [SELECT version ... WHERE tenant_id = ... ORDER BY version] *)
Definition tenant_versions (tenant : string) (s : pg_registry) : list Z := stored_versions tenant (topology_versions s).

(** [COALESCE(max(version), 0) + 1] *)
Definition next_topology_version (tenant : string) (s : pg_registry) : Z := foldr Z.max 0 (tenant_versions tenant s) + 1.

Definition pg_publish (now : datetime) (tenant : string) (expected : Z) : M pg_registry TopologySnapshot :=
  txn _ _ (s ← mget;
    d ← mlift (of_option (ValueError "no draft exists") (topology_drafts s !! tenant));
    mguard (negb (revision d =? expected)) (RuntimeError "draft changed since validation");;
    assets ← mlift (mapM_result reload (draft_assets d));
    mlift (validate_graph assets (draft_relationships d));;
    let snapshot := make_snapshot now tenant (next_topology_version tenant s) assets (draft_relationships d) in
    mguard (bool_decide (is_Some (topology_versions s !! (tenant, snap_version snapshot)))) (OtherError "UniqueViolation");;
    mput (MkPgRegistry (topology_drafts s)
      (<[(tenant, snap_version snapshot) := MkVersionRow assets (draft_relationships d) now (snap_etag snapshot)]> (topology_versions s)));;
    mret snapshot).

Definition row_snapshot (tenant : string) (v : Z) (r : version_row) : result TopologySnapshot :=
  assets ← mapM_result reload (row_assets r);
  Ok (MkSnapshot v tenant assets (row_relationships r) (row_published_at r) (row_etag r)).

Definition pg_active (tenant : string) (at_ : option datetime) : M pg_registry TopologySnapshot :=
  txn _ _ (λ s,
    let rows := omap (λ v, r ← topology_versions s !! (tenant, v); Some (v, r)) (tenant_versions tenant s) in
    let eligible := match at_ with None => rows | Some t => base.filter (λ vr : Z * version_row, us (row_published_at vr.2) <= us t) rows end in
    (s, vr ← of_option (KeyError "no published topology") (last eligible); row_snapshot tenant vr.1 vr.2)).

Definition pg_traverse (tenant root : string) : M pg_registry (list Asset) :=
  snap ← pg_active tenant None; mlift (descendants (snap_assets snap) (snap_relationships snap) root).

(** [_version] *)
Definition pg_version (tenant : string) (v : Z) : M pg_registry TopologySnapshot :=
  txn _ _ (λ s, (s, r ← of_option (KeyError (pretty v)) (topology_versions s !! (tenant, v)); row_snapshot tenant v r)).

Definition pg_versions (tenant : string) : M pg_registry (list TopologySnapshot) := λ s,
  match txn _ _ (λ s, (s, Ok (tenant_versions tenant s))) s with
  | (s', Ok vs) => (s', mapM_result (λ v, (pg_version tenant v s').2) vs)
  | (s', Err e) => (s', Err e)
  end.
End registry.

(** ** Kahn's algorithm *)

(** [v] has [u] as a parent. *)
Definition needs (relationships : list Relationship) (v u : string) : Prop :=
  ∃ r, r ∈ relationships ∧ child_id r = v ∧ parent_id r = u.

Definition occ (v : string) (l : list string) : Z := Z.of_nat (length (base.filter (v =.) l)).

Lemma occ_cons v x l : occ v (x :: l) = (if decide (v = x) then 1 else 0) + occ v l.
Proof. unfold occ. rewrite filter_cons. case_decide; simpl; lia. Qed.

Lemma occ_snoc v x l : occ v (l ++ [x]) = occ v l + (if decide (v = x) then 1 else 0).
Proof. unfold occ. rewrite filter_app, filter_cons, filter_nil, length_app. case_decide; simpl; lia. Qed.

Section kahn_facts.
Context (nodes : list string) (rels : list Relationship).
Context (Hnodes : NoDup nodes) (Hends : ∀ r, r ∈ rels → parent_id r ∈ nodes ∧ child_id r ∈ nodes).

(** Relationships into [v] from parents not yet taken *)
Definition open_parents (P : list string) (v : string) : Z :=
  Z.of_nat (length (base.filter (λ r, child_id r = v ∧ parent_id r ∉ P) rels)).

Lemma open_parents_nonneg P v : 0 <= open_parents P v.
Proof. unfold open_parents. lia. Qed.

Lemma open_parents_zero P v : open_parents P v = 0 ↔ ∀ u, needs rels v u → u ∈ P.
Proof.
  unfold open_parents. split.
  - intros H u (r & Hr & <- & <-). destruct (decide (parent_id r ∈ P)) as [|Hn]; [done|exfalso].
    assert (r ∈ base.filter (λ x, child_id x = child_id r ∧ parent_id x ∉ P) rels) as Hin by (by apply list_elem_of_filter).
    destruct (base.filter _ rels); [by apply elem_of_nil in Hin|simpl in H; lia].
  - intros H. assert (base.filter (λ r, child_id r = v ∧ parent_id r ∉ P) rels = []) as ->; [|done].
    apply elem_of_nil_inv. intros r [[Hc Hp] Hr]%list_elem_of_filter. apply Hp, H. by exists r.
Qed.

(** Taking [n] closes its relationships. *)
Lemma open_parents_take P n v : n ∉ P → open_parents P v = open_parents (P ++ [n]) v + occ v (edges_of rels n).
Proof.
  intros Hn. unfold open_parents, occ, edges_of. induction rels as [|r l IH]; [done|].
  rewrite !filter_cons. destruct (decide (parent_id r = n)) as [Hp|Hp]; cbn [map]; rewrite ?filter_cons;
    destruct (decide (child_id r = v)) as [Hc|Hc]; destruct (decide (parent_id r ∈ P)); repeat case_decide; set_solver by lia.
Qed.

Record kahn_inv (P Q : list string) (indegree : gmap string Z) : Prop := {
  ki_nodup : NoDup (P ++ Q);
  ki_nodes : ∀ x, x ∈ P ++ Q → x ∈ nodes;
  ki_degree : ∀ v, v ∈ nodes → indegree !! v = Some (open_parents P v);
  ki_ready : ∀ v, v ∈ nodes → v ∈ P ++ Q ↔ open_parents P v = 0;
  ki_acyclic : closed_no_cycle (needs rels) (list_to_set P)
}.

(** The inner loop: [f v] is what remains of [v] after the children [cs]. *)
Lemma relax_all (f : string → Z) P cs : (∀ v, 0 <= f v) → (∀ c, c ∈ cs → c ∈ nodes) → ∀ indegree q,
  NoDup (P ++ q) → (∀ x, x ∈ P ++ q → x ∈ nodes) →
  (∀ v, v ∈ nodes → indegree !! v = Some (f v + occ v cs)) →
  (∀ v, v ∈ nodes → v ∈ P ++ q ↔ f v + occ v cs = 0) →
  let '(indegree', q') := foldl relax (indegree, q) cs in
  NoDup (P ++ q') ∧ (∀ x, x ∈ P ++ q' → x ∈ nodes) ∧
  (∀ v, v ∈ nodes → indegree' !! v = Some (f v)) ∧ (∀ v, v ∈ nodes → v ∈ P ++ q' ↔ f v = 0).
Proof.
  intros Hf. induction cs as [|c cs IH]; intros Hcs indegree q Hnd Hsub Hdeg Hready; cbn [foldl].
  - split_and!; [done|done| |]; intros v Hv; [rewrite (Hdeg v Hv)|rewrite (Hready v Hv)]; unfold occ; simpl; rewrite Z.add_0_r; done.
  - assert (c ∈ nodes) as Hc by (apply Hcs; left).
    assert (∀ v, v ∈ nodes → alter (λ n, n - 1) c indegree !! v = Some (f v + occ v cs)) as Hdeg'.
    { intros v Hv. destruct (decide (v = c)) as [->|Hne].
      - rewrite lookup_alter_eq, (Hdeg c Hc), occ_cons, decide_True by done. simpl. f_equal. lia.
      - rewrite lookup_alter_ne, (Hdeg v Hv), occ_cons, decide_False by congruence. done. }
    assert (c ∉ P ++ q) as Hfresh.
    { rewrite (Hready c Hc), occ_cons, decide_True by done. specialize (Hf c). unfold occ. lia. }
    unfold relax at 2. rewrite (Hdeg' c Hc). apply IH; [intros; apply Hcs; by right| | |done|]; case_bool_decide as E.
    + rewrite app_assoc. apply NoDup_app. split_and!; [done| |apply NoDup_singleton]. set_solver.
    + done.
    + set_solver.
    + done.
    + injection E as E. intros v Hv. rewrite app_assoc, elem_of_app, list_elem_of_singleton, (Hready v Hv), occ_cons.
      case_decide as Hd; [subst; split; [done|by right]|]. split; [intros [?| ->]; [lia|done]|intros; left; lia].
    + intros v Hv. rewrite (Hready v Hv), occ_cons. case_decide as Hd; [|done]. subst.
      specialize (Hf c). unfold occ in *. split; [lia|]. intros H. rewrite H in E. done.
Qed.

Lemma kahn_take P n rest indegree : kahn_inv P (n :: rest) indegree →
  let '(indegree', q') := foldl relax (indegree, rest) (edges_of rels n) in kahn_inv (P ++ [n]) q' indegree'.
Proof.
  intros [Hnd Hsub Hdeg Hready Hac].
  assert (n ∉ P) as Hn by (apply NoDup_app in Hnd as (_ & Hd & _); intros Hin; apply (Hd n Hin); left).
  assert (P ++ n :: rest = (P ++ [n]) ++ rest) as Eq by by rewrite <- app_assoc.
  assert (n ∈ nodes) as Hnn by (apply Hsub; set_solver).
  assert (∀ c, c ∈ edges_of rels n → c ∈ nodes) as Hcs.
  { intros c (r & -> & [_ Hr]%list_elem_of_filter)%list_elem_of_fmap. by apply Hends. }
  pose proof (relax_all (open_parents (P ++ [n])) (P ++ [n]) (edges_of rels n) (open_parents_nonneg _) Hcs indegree rest) as H.
  rewrite <- Eq in H. specialize (H Hnd Hsub).
  destruct (foldl relax (indegree, rest) (edges_of rels n)) as [indegree' q'].
  destruct H as (H1 & H2 & H3 & H4); [intros v Hv; rewrite (Hdeg v Hv); f_equal; by apply open_parents_take|
    intros v Hv; rewrite (Hready v Hv), (open_parents_take P n v Hn); done|].
  split; [done|done|done|done|].
  assert (list_to_set (P ++ [n]) = {[n]} ∪ list_to_set P :> gset string) as -> by set_solver.
  apply closed_no_cycle_add; [done|set_solver|]. intros u Hu. apply elem_of_list_to_set.
  eapply open_parents_zero; [|exact Hu]. apply Hready; [done|set_solver].
Qed.

Lemma kahn_runs fuel : ∀ P Q indegree, kahn_inv P Q indegree → (length nodes <= fuel + length P)%nat →
  ∃ P' indegree', kahn fuel (edges_of rels) indegree Q (Z.of_nat (length P)) = Ok (Z.of_nat (length P')) ∧ kahn_inv P' [] indegree'.
Proof.
  induction fuel as [|fuel IH]; intros P [|n rest] indegree Hi Hf; cbn [kahn]; [eauto| |eauto|].
  - exfalso. destruct Hi as [Hnd Hsub _ _ _]. pose proof (NoDup_length_le _ _ Hnd Hsub) as Hl.
    rewrite length_app in Hl. simpl in Hl. lia.
  - pose proof (kahn_take P n rest indegree Hi) as Ht. destruct (foldl relax (indegree, rest) (edges_of rels n)) as [indegree' q'].
    destruct (IH (P ++ [n]) q' indegree' Ht) as (P' & i' & Hk & Hi'); [rewrite length_app; simpl; lia|].
    exists P', i'. split; [|done]. rewrite <- Hk. f_equal. rewrite length_app. simpl. lia.
Qed.

(** All nodes are taken exactly when there is no cycle. *)
Lemma kahn_decides P indegree : kahn_inv P [] indegree → length P = length nodes ↔ ∀ x, ¬ tc (needs rels) x x.
Proof.
  intros [Hnd Hsub _ Hready [Hclosed Hac]]. rewrite app_nil_r in Hnd. split.
  - intros Hlen x Ht. assert (x ∈ nodes) as Hx by (inversion Ht as [? ? (r & Hr & <- & _)|? ? ? (r & Hr & <- & _)]; by apply Hends).
    assert (P ≡ₚ nodes) as Hp.
    { apply submseteq_length_Permutation; [|lia]. apply NoDup_submseteq; [done|]. intros y Hy. apply Hsub. set_solver. }
    apply (Hac x); [|done]. apply elem_of_list_to_set. by rewrite Hp.
  - intros Hno. apply Nat.le_antisymm.
    { apply NoDup_length_le; [done|]. intros y Hy. apply Hsub. set_solver. }
    destruct (decide (length nodes <= length P)%nat) as [|Hlt]; [done|exfalso].
    destruct (successors_cycle (needs rels) (list_to_set nodes ∖ list_to_set P)) as [x Hx]; [| |by apply (Hno x)].
    + intros E. assert (length nodes <= length P)%nat; [|lia]. apply NoDup_length_le; [done|].
      intros y Hy. destruct (decide (y ∈ P)); [done|]. exfalso. apply (not_elem_of_empty (C := gset string) y). rewrite <- E. set_solver.
    + intros v Hv. assert (v ∈ nodes ∧ v ∉ P) as [Hvn Hvp] by set_solver.
      assert (open_parents P v ≠ 0) as Hne by (rewrite <- (Hready v Hvn); set_solver).
      unfold open_parents in Hne. destruct (base.filter _ rels) as [|r l] eqn:El; [done|].
      assert (r ∈ base.filter (λ r, child_id r = v ∧ parent_id r ∉ P) rels) as Hin by (rewrite El; left).
      apply list_elem_of_filter in Hin as [[Hc Hp] Hr]. exists (parent_id r). destruct (Hends r Hr). split; [set_solver|]. by exists r.
Qed.
End kahn_facts.

(** ** The graph check *)

Lemma by_id_lookup assets : NoDup (map asset_id assets) → ∀ a, a ∈ assets → by_id assets !! asset_id a = Some a.
Proof.
  unfold by_id. induction assets as [|x l IH] using rev_ind; [by intros _ a ?%elem_of_nil|].
  rewrite map_app, foldl_snoc. intros (Hnd & Hdis & _)%NoDup_app a [Ha|Ha%list_elem_of_singleton]%elem_of_app.
  - rewrite lookup_insert_ne; [by apply IH|]. intros E. apply (Hdis (asset_id a)); [by apply list_elem_of_fmap_2|].
    rewrite <- E. simpl. left.
  - subst. apply lookup_insert_eq.
Qed.

Lemma by_id_inv assets id a : by_id assets !! id = Some a → a ∈ assets ∧ asset_id a = id.
Proof.
  unfold by_id. induction assets as [|x l IH] using rev_ind; [done|]. rewrite foldl_snoc, lookup_insert_Some.
  intros [[<- <-]|[_ H]]; [set_solver|]. destruct (IH H). set_solver.
Qed.

Lemma by_id_size assets : size (by_id assets) = length assets ↔ NoDup (map asset_id assets).
Proof.
  assert (dom (by_id assets) = list_to_set (map asset_id assets)) as Hd.
  { unfold by_id. induction assets as [|x l IH] using rev_ind; [done|]. rewrite foldl_snoc, dom_insert_L, IH, map_app. simpl. set_solver. }
  rewrite <- size_dom, Hd. rewrite <- (length_map asset_id assets) at 1. rewrite <- has_duplicates_false.
  unfold has_duplicates. rewrite negb_false_iff, Nat.eqb_eq. done.
Qed.

(** The relationship links two known assets of one tenant. *)
Definition relationship_ok (assets : list Asset) (r : Relationship) : Prop :=
  ∃ p c, p ∈ assets ∧ c ∈ assets ∧ asset_id p = parent_id r ∧ asset_id c = child_id r ∧ asset_tenant p = asset_tenant c.

Record read_inv (rels : list Relationship) (nodes : list string) (children : list (string * list string))
    (indegree : gmap string Z) : Prop := {
  rd_children : ∀ n, od_get n children = match edges_of rels n with [] => None | cs => Some cs end;
  rd_keys : NoDup children.*1;
  rd_degree : ∀ v, v ∈ nodes → indegree !! v = Some (open_parents rels [] v)
}.

Lemma read_step assets rels r children indegree : NoDup (map asset_id assets) →
  read_inv rels (map asset_id assets) children indegree →
  match read_relationship (by_id assets) (children, indegree) r with
  | Ok (children', indegree') => relationship_ok assets r ∧ read_inv (rels ++ [r]) (map asset_id assets) children' indegree'
  | Err e => ¬ relationship_ok assets r ∧ ∃ msg, e = ValueError msg
  end.
Proof.
  intros Hnd [Hch Hk Hdeg]. unfold read_relationship.
  assert (∀ p c, p ∈ assets → c ∈ assets → asset_id p = parent_id r → asset_id c = child_id r →
    by_id assets !! parent_id r = Some p ∧ by_id assets !! child_id r = Some c) as Hget.
  { intros p c Hp Hc <- <-. split; by apply by_id_lookup. }
  destruct (by_id assets !! parent_id r) as [p|] eqn:Ep;
    [|split; [|by eexists]; intros (p & c & ? & ? & ? & ? & _); destruct (Hget p c) as [[=] _]; done].
  destruct (by_id assets !! child_id r) as [c|] eqn:Ec;
    [|split; [|by eexists]; intros (p' & c & ? & ? & ? & ? & _); destruct (Hget p' c) as [_ [=]]; done].
  apply by_id_inv in Ep as [Hp Hpi], Ec as [Hc Hci]. munfold.
  destruct (decide (asset_tenant p = asset_tenant c)) as [Ht|Ht]; cycle 1.
  { rewrite bool_decide_false by done. split; [|by eexists]. intros (p' & c' & ? & ? & Hp' & Hc' & Ht').
    destruct (Hget p' c') as [[= ->] [= ->]]; done. }
  rewrite bool_decide_true by done. cbn [negb]. split; [by exists p, c|]. split.
  - intros n. unfold edges_of. rewrite filter_app, filter_cons, filter_nil, map_app. fold (edges_of rels n).
    case_decide as Hn.
    + subst n. rewrite od_get_set_eq, Hch. by destruct (edges_of rels (parent_id r)).
    + rewrite od_get_set_ne, Hch by congruence. cbn [map]. by rewrite app_nil_r.
  - by apply od_set_NoDup.
  - intros v Hv. unfold open_parents. rewrite filter_app, length_app, filter_cons, filter_nil.
    specialize (Hdeg v Hv). unfold open_parents in Hdeg. destruct (decide (v = child_id r)) as [->|Hne].
    + rewrite lookup_alter_eq, Hdeg. rewrite decide_True by (split; [done|apply not_elem_of_nil]). simpl. f_equal. lia.
    + rewrite lookup_alter_ne, Hdeg by congruence. rewrite decide_False by naive_solver. simpl. f_equal. lia.
Qed.

Lemma read_all assets rels : NoDup (map asset_id assets) →
  match foldM_result (read_relationship (by_id assets)) rels ([], list_to_map (map (λ a, (asset_id a, 0)) assets)) with
  | Ok (children, indegree) => Forall (relationship_ok assets) rels ∧ read_inv rels (map asset_id assets) children indegree
  | Err e => ¬ Forall (relationship_ok assets) rels ∧ ∃ msg, e = ValueError msg
  end.
Proof.
  intros Hnd. induction rels as [|r rels IH] using rev_ind.
  - split; [constructor|]. split; [done|constructor|]. intros v (a & -> & Ha)%list_elem_of_fmap.
    apply elem_of_list_to_map_1; [rewrite map_map; done|]. apply list_elem_of_fmap. by exists a.
  - rewrite foldM_result_app. destruct (foldM_result _ rels _) as [[children indegree]|e].
    + destruct IH as [Hr Hi]. cbn [foldM_result]. pose proof (read_step assets rels r children indegree Hnd Hi) as Hs.
      destruct (read_relationship _ _ r) as [[children' indegree']|e].
      * destruct Hs as [Hok Hi']. split; [apply Forall_app; split; [done|by constructor]|done].
      * destruct Hs as [Hno Hmsg]. split; [|done]. intros [_ [? _]%Forall_cons]%Forall_app. done.
    + destruct IH as [Hno Hmsg]. split; [|done]. by intros [? _]%Forall_app.
Qed.

Lemma read_inv_start assets rels children indegree : NoDup (map asset_id assets) → read_inv rels (map asset_id assets) children indegree →
  kahn_inv (map asset_id assets) rels [] (base.filter (λ id, indegree !! id = Some 0) (map asset_id assets)) indegree.
Proof.
  intros Hnd [_ _ Hdeg]. split; simpl.
  - by apply NoDup_filter.
  - intros x [_ Hx]%list_elem_of_filter. done.
  - done.
  - intros v Hv. rewrite list_elem_of_filter, (Hdeg v Hv). split; [intros [[= ?] _]; done|]. intros ->. done.
  - split; [intros a b Ha|intros a Ha]; by apply elem_of_empty in Ha.
Qed.

(** The capacity rule: the children of an asset with positive capacity do not exceed it. *)
Definition capacity_ok (assets : list Asset) (rels : list Relationship) : Prop :=
  ∀ a, a ∈ assets → (0 < dval (capacity_kw a))%Q →
    (dval (dsum (map (λ id, match by_id assets !! id with Some c => capacity_kw c | None => dint 0 end)
      (edges_of rels (asset_id a)))) <= dval (capacity_kw a))%Q.

Lemma capacity_check_spec assets rels children indegree : NoDup (map asset_id assets) → Forall (relationship_ok assets) rels →
  read_inv rels (map asset_id assets) children indegree →
  match foldM_result (λ _ e, check_capacity (by_id assets) e) children tt with
  | Ok _ => capacity_ok assets rels
  | Err e => ¬ capacity_ok assets rels ∧ ∃ msg, e = ValueError msg
  end.
Proof.
  intros Hnd Hrels [Hch Hk _].
  set (P := λ e : string * list string, is_ok (check_capacity (by_id assets) e) = true).
  assert (∀ l, match foldM_result (λ _ e, check_capacity (by_id assets) e) l tt with
    | Ok _ => Forall P l | Err e => ¬ Forall P l ∧ ∃ msg, e = ValueError msg end) as Hloop.
  { induction l as [|e l IH]; [constructor|]. cbn [foldM_result]. unfold P at 1 2. unfold check_capacity at 1. unfold raise_if.
    destruct (dltb _ _ && dltb _ _) eqn:Eb.
    - split; [|by eexists]. intros [H _]%Forall_cons. unfold check_capacity, raise_if in H. by rewrite Eb in H.
    - destruct (foldM_result _ l tt) as [[]|e']; [constructor; [|done]|destruct IH as [IH ?]; split; [|done]; by intros [_ ?]%Forall_cons].
      unfold check_capacity, raise_if. by rewrite Eb. }
  specialize (Hloop children).
  assert (Forall P children ↔ capacity_ok assets rels) as Hiff.
  { rewrite Forall_forall. unfold P, check_capacity, raise_if, capacity_ok. split.
    - intros H a Ha Hpos. pose proof (Hch (asset_id a)) as Hget. destruct (edges_of rels (asset_id a)) as [|c cs] eqn:Ee.
      { by apply Qlt_le_weak. }
      specialize (H (asset_id a, c :: cs) (od_get_elem_of _ _ _ Hget)). simpl in H. rewrite (by_id_lookup assets Hnd a Ha) in H.
      destruct (dltb (dint 0) (capacity_kw a)) eqn:E1; simpl in H; [|dprop; rewrite dval_dint in E1; change (inject_Z 0) with 0%Q in E1; lra].
      destruct (dltb _ _) eqn:E2 in H; [done|]. dprop. exact E2.
    - intros H [p cs] Hin. simpl. apply elem_of_od_get in Hin; [|done]. rewrite Hch in Hin.
      destruct (edges_of rels p) as [|c cs'] eqn:Ee; simplify_eq.
      destruct (by_id assets !! p) as [a|] eqn:Ea; [|done]. apply by_id_inv in Ea as [Ha <-].
      destruct (dltb (dint 0) (capacity_kw a)) eqn:E1; [|done]. dprop. rewrite dval_dint in E1.
      specialize (H a Ha E1). rewrite Ee in H. simpl. destruct (dltb _ _) eqn:E2; [|done]. dprop. exfalso. simpl in H. lra. }
  destruct (foldM_result _ children tt); rewrite <- Hiff; done.
Qed.

(** What a valid topology is *)
Record graph_valid (assets : list Asset) (rels : list Relationship) : Prop := {
  gv_ids : NoDup (map asset_id assets);
  gv_rels : Forall (relationship_ok assets) rels;
  gv_acyclic : ∀ x, ¬ tc (needs rels) x x;
  gv_capacity : capacity_ok assets rels
}.

Lemma relationship_ends assets rels : Forall (relationship_ok assets) rels →
  ∀ r, r ∈ rels → parent_id r ∈ map asset_id assets ∧ child_id r ∈ map asset_id assets.
Proof.
  intros H r Hr. rewrite Forall_forall in H. destruct (H r Hr) as (p & c & Hp & Hc & <- & <- & _).
  split; by apply list_elem_of_fmap_2.
Qed.

Lemma kahn_ext fuel f g : (∀ n, f n = g n) → ∀ indegree q v, kahn fuel f indegree q v = kahn fuel g indegree q v.
Proof.
  intros Hfg. induction fuel as [|fuel IH]; intros indegree [|n q] v; cbn [kahn]; [done..|]. rewrite Hfg.
  destruct (foldl relax (indegree, q) (g n)). apply IH.
Qed.

Lemma validate_graph_spec assets rels :
  match validate_graph assets rels with
  | Ok _ => graph_valid assets rels
  | Err e => ¬ graph_valid assets rels ∧ ∃ msg, e = ValueError msg
  end.
Proof.
  unfold validate_graph. munfold. destruct (Nat.eqb_spec (size (by_id assets)) (length assets)) as [Hs|Hs]; cbn [negb]; cycle 1.
  { split; [|by eexists]. intros [Hnd _ _ _]. by apply Hs, by_id_size. }
  apply by_id_size in Hs as Hnd. pose proof (read_all assets rels Hnd) as Hread.
  destruct (foldM_result (read_relationship _) rels _) as [[children indegree]|e]; cycle 1.
  { destruct Hread as [Hno ?]. split; [|done]. by intros [_ ? _ _]. }
  destruct Hread as [Hrels Hread]. pose proof (relationship_ends assets rels Hrels) as Hends.
  pose proof Hread as [Hch _ _].
  rewrite (kahn_ext _ _ (edges_of rels)) by (intros n; rewrite Hch; by destruct (edges_of rels n)).
  destruct (kahn_runs (map asset_id assets) rels Hnd Hends (length assets) [] _ indegree (read_inv_start _ _ _ _ Hnd Hread))
    as (P & indegree' & Hk & Hi); [rewrite length_map; simpl; lia|].
  change (Z.of_nat (length [])) with 0 in Hk. rewrite Hk.
  pose proof (kahn_decides _ _ Hnd Hends P indegree' Hi) as Hdec. rewrite length_map in Hdec.
  destruct (Z.eqb_spec (Z.of_nat (length P)) (Z.of_nat (length assets))) as [Hl|Hl]; cbn [negb]; cycle 1.
  { split; [|by eexists]. intros [_ _ Hac _]. apply Hl. f_equal. by apply Hdec. }
  assert (∀ x, ¬ tc (needs rels) x x) as Hac by (apply Hdec; lia).
  pose proof (capacity_check_spec assets rels children indegree Hnd Hrels Hread) as Hcap.
  destruct (foldM_result _ children tt) as [[]|e]; [done|]. destruct Hcap as [Hno ?]. split; [|done]. by intros [_ _ _ ?].
Qed.

(** ** Descendants *)

Section bfs_facts.
Context (assets : list Asset) (rels : list Relationship) (root : string).
Context (Hnd : NoDup (map asset_id assets)) (Hends : ∀ r, r ∈ rels → child_id r ∈ map asset_id assets).

(** [below v u]: [u] is a child of [v]. *)
Definition below (v u : string) : Prop := needs rels u v.

Lemma edges_below v u : u ∈ edges_of rels v ↔ below v u.
Proof.
  unfold edges_of, below, needs. rewrite list_elem_of_fmap. split.
  - intros (r & -> & [Hp Hr]%list_elem_of_filter). eauto.
  - intros (r & Hr & <- & Hp). exists r. split; [done|]. by apply list_elem_of_filter.
Qed.

(** Relationships of nodes not yet seen *)
Definition unseen (seen : gset string) : nat := length (base.filter (λ r, parent_id r ∉ seen) rels).

Lemma unseen_take seen item : item ∉ seen → unseen seen = (unseen ({[item]} ∪ seen) + length (edges_of rels item))%nat.
Proof.
  intros Hi. unfold unseen, edges_of. rewrite length_map. induction rels as [|r l IH]; [done|].
  rewrite !filter_cons. destruct (decide (parent_id r = item)) as [Hp|Hp]; repeat case_decide; set_solver by (simpl; lia).
Qed.

Record bfs_inv (queue : list string) (seen : gset string) (acc : list Asset) : Prop := {
  bi_acc : list_to_set (map asset_id acc) = seen;
  bi_nodup : NoDup (map asset_id acc);
  bi_assets : ∀ a, a ∈ acc → a ∈ assets;
  bi_reach : ∀ x, x ∈ queue ∨ x ∈ seen → tc below root x;
  bi_front : ∀ x y, (x = root ∨ x ∈ seen) → below x y → y ∈ queue ∨ y ∈ seen
}.

Lemma bfs_runs fuel : ∀ queue seen acc, bfs_inv queue seen acc → (length queue + unseen seen <= fuel)%nat →
  ∃ l, bfs fuel (by_id assets) (edges_of rels) queue seen acc = Ok l ∧ bfs_inv [] (list_to_set (map asset_id l)) l.
Proof.
  induction fuel as [|fuel IH]; intros [|item rest] seen acc Hi Hf; cbn [bfs]; simpl in Hf; try lia.
  - exists acc. split; [done|]. rewrite (bi_acc _ _ _ Hi). done.
  - exists acc. split; [done|]. rewrite (bi_acc _ _ _ Hi). done.
  - destruct Hi as [Hacc Hn Has Hre Hfr]. case_bool_decide as Hs.
    + apply IH; [|lia]. split; [done|done|done| |].
      * intros x [Hx|Hx]; apply Hre; [left; by right|by right].
      * intros x y Hx Hxy. destruct (Hfr x y Hx Hxy) as [[->|Hy]%elem_of_cons|Hy]; auto.
    + assert (item ∈ map asset_id assets) as (a & -> & Ha)%list_elem_of_fmap.
      { assert (∀ u v, tc below u v → v ∈ map asset_id assets) as H
          by (induction 1 as [? ? (r & Hr & <- & _)|]; [by apply Hends|done]).
        apply (H root item), Hre. left. left. }
      rewrite (by_id_lookup assets Hnd a Ha).
      assert (tc below root (asset_id a)) as Hra by (apply Hre; left; left).
      apply IH; [|rewrite length_app; rewrite (unseen_take seen (asset_id a) Hs) in Hf; lia]. split.
      * rewrite map_app. simpl. set_solver.
      * rewrite map_app. simpl. apply NoDup_app. split_and!; [done| |apply NoDup_singleton]. set_solver.
      * set_solver.
      * intros x Hx. assert (x ∈ asset_id a :: rest ∨ x ∈ seen ∨ x ∈ edges_of rels (asset_id a)) as [?|[?|He]] by set_solver.
        { apply Hre. by left. } { apply Hre. by right. }
        apply edges_below in He. eapply tc_r; [exact Hra|done].
      * intros x y Hx Hxy. destruct (decide (x = asset_id a)) as [->|Hne].
        { left. apply elem_of_app. right. by apply edges_below. }
        assert (x = root ∨ x ∈ seen) as Hx' by set_solver. destruct (Hfr x y Hx' Hxy); set_solver.
Qed.

Lemma bfs_reaches l : bfs_inv [] (list_to_set (map asset_id l)) l → ∀ x, x ∈ map asset_id l ↔ tc below root x.
Proof.
  intros [_ _ _ Hre Hfr] x. split.
  - intros Hx. apply Hre. right. by apply elem_of_list_to_set.
  - assert (∀ u v, tc below u v → u = root ∨ u ∈ map asset_id l → v ∈ map asset_id l) as H.
    { induction 1 as [u v Huv|u w v Huw Hwv IH]; intros Hu.
      - destruct (Hfr u v) as [?|?]; [set_solver|done|by apply elem_of_nil in H|set_solver].
      - apply IH. right. destruct (Hfr u w) as [?|?]; [set_solver|done|by apply elem_of_nil in H|set_solver]. }
    intros Ht. apply (H root x Ht). by left.
Qed.
End bfs_facts.

(** ** The registry *)

Inductive registry_op :=
| CreateDraft (tenant : string) (assets : list Asset) (rels : list Relationship)
| Publish (now : datetime) (tenant : string) (expected : Z).

Definition tag {A B} (f : A → B) {S} (r : S * result A) : S * result B := (r.1, f <$> r.2).

Section registry_facts.
Context (etag : list Asset → list Relationship → Z → string) (reload : Asset → result Asset).
Context (txn : ∀ S A, M S A → M S A) `{!Transactional txn} (Hreload : ∀ a, reload a = Ok a).

Definition mem_exec (o : registry_op) (s : mem_registry) : mem_registry * result (string + TopologySnapshot) :=
  match o with
  | CreateDraft t a r => tag inl (mem_create_draft t a r s)
  | Publish now t e => tag inr (mem_publish etag now t e s)
  end.
Definition pg_exec (o : registry_op) (s : pg_registry) : pg_registry * result (string + TopologySnapshot) :=
  match o with
  | CreateDraft t a r => tag inl (pg_create_draft txn t a r s)
  | Publish now t e => tag inr (pg_publish etag reload txn now t e s)
  end.

(** A published version *)
Record snapshot_ok (t : string) (n : nat) (x : TopologySnapshot) : Prop := {
  so_version : snap_version x = Z.of_nat n + 1;
  so_tenant : snap_tenant x = t;
  so_owned : Forall (λ a, asset_tenant a = t) (snap_assets x);
  so_valid : graph_valid (snap_assets x) (snap_relationships x);
  so_etag : snap_etag x = etag (snap_assets x) (snap_relationships x) (snap_version x)
}.

Record mem_ok (s : mem_registry) : Prop := {
  mo_drafts : ∀ t d, drafts s !! t = Some d → Forall (λ a, asset_tenant a = t) (draft_assets d);
  mo_published : ∀ t l, published s !! t = Some l → l ≠ [] ∧ ∀ n x, l !! n = Some x → snapshot_ok t n x
}.

Definition row_of (x : TopologySnapshot) : version_row :=
  MkVersionRow (snap_assets x) (snap_relationships x) (published_at x) (snap_etag x).

(** The tables hold what the in-process registry holds. *)
Record mirrors (m : mem_registry) (p : pg_registry) : Prop := {
  mr_drafts : topology_drafts p = drafts m;
  mr_rows : ∀ t v, topology_versions p !! (t, v) =
    row_of <$> (if 1 <=? v then mem_versions t m !! Z.to_nat (v - 1) else None)
}.

Definition latest_of (m : mem_registry) : gmap string Z := (λ l, Z.of_nat (length l)) <$> published m.

Lemma mirrors_numbered m p : mem_ok m → mirrors m p → numbered (latest_of m) (topology_versions p).
Proof.
  intros [_ Hp] [_ Hr]. unfold latest_of. split.
  - intros t n. rewrite lookup_fmap. intros (l & Hl & ->)%fmap_Some. destruct (Hp t l Hl) as [Hne _].
    destruct l; [done|simpl; lia].
  - intros t v. rewrite Hr, fmap_is_Some. unfold mem_versions. rewrite lookup_fmap.
    destruct (published m !! t) as [l|]; simpl.
    + destruct (Z.leb_spec 1 v); [|split; [by intros [? ?]|intros (n & [= <-] & ?); lia]].
      rewrite lookup_lt_is_Some. split; [intros; eexists; split; [done|lia]|intros (n & [= <-] & ?); lia].
    + split; [|by intros (n & [=] & _)]. destruct (1 <=? v); by intros [? ?].
Qed.

Lemma mirrors_versions m p t : mem_ok m → mirrors m p → tenant_versions t p = seqZ 1 (Z.of_nat (length (mem_versions t m))).
Proof.
  intros Ho Hm. unfold tenant_versions. rewrite (stored_versions_spec _ _ t (mirrors_numbered m p Ho Hm)).
  unfold latest_of, mem_versions. rewrite lookup_fmap. by destruct (published m !! t).
Qed.

Lemma max_seqZ n : foldr Z.max 0 (seqZ 1 (Z.of_nat n)) = Z.of_nat n.
Proof.
  induction n as [|n IH]; [done|]. rewrite Nat2Z.inj_succ, <- Z.add_1_r, seqZ_app by lia.
  rewrite foldr_app, seqZ_cons, seqZ_nil by lia. simpl.
  assert (∀ l a, 0 <= a → foldr Z.max a l = Z.max (foldr Z.max 0 l) a) as H by (induction l; intros; simpl; [lia|rewrite IHl; lia]).
  rewrite H by lia. rewrite IH. lia.
Qed.

Lemma reload_all l : mapM_result reload l = Ok l.
Proof. induction l as [|a l IH]; [done|]. simpl. by rewrite Hreload, IH. Qed.

Lemma draft_check_owned t a r : draft_check t a r = Ok tt → Forall (λ x, asset_tenant x = t) a.
Proof.
  unfold draft_check. munfold. guard_case as E; [done|]. intros _. apply existsb_false in E.
  eapply Forall_impl; [exact E|]. intros x Hx. simpl in Hx. by case_bool_decide.
Qed.

Lemma create_draft_step t a r m p : mem_ok m → mirrors m p →
  mem_ok (mem_create_draft t a r m).1 ∧ mirrors (mem_create_draft t a r m).1 (pg_create_draft txn t a r p).1 ∧
  (mem_create_draft t a r m).2 = (pg_create_draft txn t a r p).2.
Proof.
  intros Ho Hm. pose proof Ho as [Hd Hp]. pose proof Hm as [Hdr Hr].
  unfold mem_create_draft, pg_create_draft. munfold. unfold mlift. destruct (draft_check t a r) as [[]|e] eqn:Ec; [|done].
  rewrite txn_atomically. unfold atomically. simpl. rewrite Hdr.
  assert (match drafts m !! t with Some d => revision d + 1 | None => 1 end = default 0 (revision <$> drafts m !! t) + 1) as ->
    by (by destruct (drafts m !! t)).
  split_and!; [| |done].
  - split; simpl; [|done]. intros t' d. rewrite lookup_insert_Some. intros [[<- <-]|[_ H]]; [by eapply draft_check_owned|eauto].
  - split; simpl; done.
Qed.

Lemma publish_step now t e m p : mem_ok m → mirrors m p →
  mem_ok (mem_publish etag now t e m).1 ∧ mirrors (mem_publish etag now t e m).1 (pg_publish etag reload txn now t e p).1 ∧
  (mem_publish etag now t e m).2 = (pg_publish etag reload txn now t e p).2.
Proof.
  intros Ho Hm. pose proof Ho as [Hd Hp]. pose proof Hm as [Hdr Hr].
  assert (next_topology_version t p = Z.of_nat (length (mem_versions t m)) + 1) as Hnext
    by (unfold next_topology_version; by rewrite (mirrors_versions m p t Ho Hm), max_seqZ).
  unfold pg_publish. rewrite txn_atomically. unfold atomically, mem_publish. munfold. unfold mget, mlift, mguard, mput, raise_if.
  rewrite Hdr. destruct (drafts m !! t) as [d|] eqn:Ed; [|done]. simpl.
  destruct (revision d =? e); [|done]. simpl. rewrite reload_all.
  pose proof (validate_graph_spec (draft_assets d) (draft_relationships d)) as Hv.
  destruct (validate_graph (draft_assets d) (draft_relationships d)) as [[]|err]; [|done]. rewrite Hnext.
  fold (mem_versions t m). set (n := length (mem_versions t m)).
  assert (topology_versions p !! (t, Z.of_nat n + 1) = None) as Hfresh.
  { rewrite Hr, (proj2 (Z.leb_le _ _)) by lia. replace (Z.to_nat (Z.of_nat n + 1 - 1)) with n by lia.
    by rewrite lookup_ge_None_2. }
  simpl. rewrite bool_decide_false by (rewrite Hfresh; by intros [? ?]). simpl. split_and!; [| |done].
  - split; simpl; [done|]. intros t' l. rewrite lookup_insert_Some. intros [[<- <-]|[_ H]]; [|by apply Hp].
    split; [by intros [_ ?]%app_nil|]. intros i x Hx. apply lookup_app_Some in Hx as [Hx|[Hi Hx]].
    + unfold mem_versions in Hx. destruct (published m !! t) as [l|] eqn:El; [|done]. by eapply Hp.
    + apply list_lookup_singleton_Some in Hx as [Hi' <-]. assert (i = n) as -> by lia. split; simpl; [done|done|by eapply Hd|done|done].
  - split; simpl; [done|]. intros t' v. unfold mem_versions. simpl. destruct (decide (t' = t)) as [->|Hne]; cycle 1.
    { rewrite !lookup_insert_ne by congruence. apply Hr. }
    rewrite lookup_insert_eq. simpl. destruct (decide (v = Z.of_nat n + 1)) as [->|Hv'].
    + rewrite lookup_insert_eq, (proj2 (Z.leb_le _ _)) by lia. replace (Z.to_nat (Z.of_nat n + 1 - 1)) with n by lia.
      by rewrite lookup_app_r, Nat.sub_diag.
    + rewrite lookup_insert_ne, Hr by congruence. fold (mem_versions t m). destruct (Z.leb_spec 1 v); [|done].
      destruct (decide (Z.to_nat (v - 1) < n)%nat); [by rewrite lookup_app_l|].
      rewrite lookup_ge_None_2 by (fold n; lia). rewrite lookup_ge_None_2; [done|]. rewrite length_app. simpl. fold n. lia.
Qed.

(** *** Runs of both backends *)

Definition mem_registry_run (ops : list registry_op) : mem_registry * list (result (string + TopologySnapshot)) :=
  foldl (λ st o, let '(s', r) := mem_exec o st.1 in (s', st.2 ++ [r])) (MkMemRegistry ∅ ∅, []) ops.
Definition pg_registry_run (ops : list registry_op) : pg_registry * list (result (string + TopologySnapshot)) :=
  foldl (λ st o, let '(s', r) := pg_exec o st.1 in (s', st.2 ++ [r])) (MkPgRegistry ∅ ∅, []) ops.

Lemma registry_runs ops : mem_ok (mem_registry_run ops).1 ∧ mirrors (mem_registry_run ops).1 (pg_registry_run ops).1 ∧
  (mem_registry_run ops).2 = (pg_registry_run ops).2.
Proof.
  unfold mem_registry_run, pg_registry_run. induction ops as [|o ops (Ho & Hm & Hr)] using rev_ind.
  - split_and!; [split; simpl|split; simpl|done]; try by intros t ?; rewrite lookup_empty.
    + done.
    + intros t v. rewrite lookup_empty. unfold mem_versions. simpl. rewrite lookup_empty. by destruct (1 <=? v).
  - rewrite !foldl_snoc. set (m := foldl _ _ ops) in *. set (p := foldl _ (MkPgRegistry ∅ ∅, []) ops) in *.
    destruct m as [m rm], p as [p rp]. simpl in *. subst rp.
    destruct o as [t a r|now t e]; simpl.
    + destruct (create_draft_step t a r m p Ho Hm) as (H1 & H2 & H3). rewrite H3. done.
    + destruct (publish_step now t e m p Ho Hm) as (H1 & H2 & H3). rewrite H3. done.
Qed.

(** *** Reads *)

Lemma row_snapshot_of t n x : snapshot_ok t n x → row_snapshot reload t (Z.of_nat n + 1) (row_of x) = Ok x.
Proof.
  intros [Hv Ht _ _ _]. unfold row_snapshot. munfold. simpl. rewrite reload_all. destruct x. simpl in *. congruence.
Qed.

Lemma mem_versions_ok m t : mem_ok m → ∀ n x, mem_versions t m !! n = Some x → snapshot_ok t n x.
Proof. intros [_ Hp] n x. unfold mem_versions. destruct (published m !! t) as [l|] eqn:El; [|done]. by apply Hp. Qed.

(** The rows of a tenant in order of their versions *)
Lemma mirrors_rows m p t : mem_ok m → mirrors m p →
  omap (λ v, r ← topology_versions p !! (t, v); Some (v, r)) (tenant_versions t p)
  = map (λ x, (snap_version x, row_of x)) (mem_versions t m).
Proof.
  intros Ho Hm. rewrite (mirrors_versions m p t Ho Hm), <- (length_map (λ x, (snap_version x, row_of x)) (mem_versions t m)).
  apply omap_seqZ. intros i vr (x & -> & Hx)%list_lookup_fmap_Some. rewrite (mr_rows _ _ Hm), (proj2 (Z.leb_le _ _)) by lia.
  replace (Z.to_nat (Z.of_nat i + 1 - 1)) with i by lia. rewrite Hx. simpl.
  by rewrite (so_version _ _ _ (mem_versions_ok m t Ho i x Hx)).
Qed.

Lemma last_filter_map {A B} (f : A → B) (P : B → Prop) `{∀ b, Decision (P b)} l :
  last (base.filter P (map f l)) = f <$> last (base.filter (λ x, P (f x)) l).
Proof.
  rewrite <- fmap_last. f_equal. induction l as [|x l IH]; [done|]. cbn [map]. rewrite !filter_cons.
  case_decide; [|done]. simpl. by rewrite IH.
Qed.

(** A snapshot of the list is read back from its row. *)
Lemma read_back m t x : mem_ok m → x ∈ mem_versions t m → row_snapshot reload t (snap_version x) (row_of x) = Ok x.
Proof.
  intros Ho [n Hn]%list_elem_of_lookup. pose proof (mem_versions_ok m t Ho n x Hn) as Hx.
  rewrite (so_version _ _ _ Hx). by apply row_snapshot_of.
Qed.

Lemma last_elem {A} (l : list A) x : last l = Some x → x ∈ l.
Proof. rewrite last_lookup. apply list_elem_of_lookup_2. Qed.

Lemma pg_active_mirrors m p t at_ : mem_ok m → mirrors m p →
  match mem_active t at_ m with
  | Ok x => pg_active reload txn t at_ p = (p, Ok x)
  | Err _ => pg_active reload txn t at_ p = (p, Err (KeyError "no published topology"))
  end.
Proof.
  intros Ho Hm. unfold pg_active. rewrite txn_atomically. unfold atomically. rewrite (mirrors_rows m p t Ho Hm).
  unfold mem_active. fold (mem_versions t m). set (l := mem_versions t m).
  assert (∀ x, x ∈ l → row_snapshot reload t (snap_version x) (row_of x) = Ok x) as Hread by (intros; by eapply read_back).
  destruct at_ as [tm|].
  - rewrite (last_filter_map (λ x, (snap_version x, row_of x)) (λ vr, us (row_published_at vr.2) <= us tm) l). simpl.
    destruct (last (base.filter (λ x, us (published_at x) <= us tm) l)) as [x|] eqn:El.
    + pose proof (last_elem _ _ El) as [_ Hx]%list_elem_of_filter. destruct (last l) as [y|] eqn:Ey.
      * simpl. by rewrite (Hread x Hx).
      * apply last_None in Ey. rewrite Ey in Hx. by apply elem_of_nil in Hx.
    + by destruct (last l).
  - rewrite fmap_last. destruct (last l) as [x|] eqn:El; [|done]. simpl. by rewrite (Hread x (last_elem _ _ El)).
Qed.

Lemma pg_versions_mirrors m p t : mem_ok m → mirrors m p → pg_versions reload txn t p = (p, Ok (mem_versions t m)).
Proof.
  intros Ho Hm. unfold pg_versions. rewrite txn_atomically. simpl. f_equal. rewrite (mirrors_versions m p t Ho Hm).
  assert (∀ k n l, drop n (mem_versions t m) = l → length l = k →
    mapM_result (λ v, (pg_version reload txn t v p).2) (seqZ (Z.of_nat n + 1) (Z.of_nat k)) = Ok l) as H;
    [|by apply (H _ 0%nat)].
  induction k as [|k IH]; intros n l Hl Hk; [by destruct l|]. destruct l as [|x l]; [done|].
  assert (mem_versions t m !! n = Some x) as Hx by (rewrite <- (Nat.add_0_r n), <- lookup_drop, Hl; done).
  rewrite seqZ_cons by lia. replace (Z.pred (Z.of_nat (S k))) with (Z.of_nat k) by lia. cbn [mapM_result].
  unfold pg_version at 1. rewrite txn_atomically. unfold atomically. rewrite (mr_rows _ _ Hm), (proj2 (Z.leb_le _ _)) by lia.
  replace (Z.to_nat (Z.of_nat n + 1 - 1)) with n by lia. rewrite Hx. cbn [fmap option_fmap option_map of_option mbind result_bind].
  rewrite (row_snapshot_of t n x (mem_versions_ok m t Ho n x Hx)). cbn [snd].
  replace (Z.succ (Z.of_nat n + 1)) with (Z.of_nat (S n) + 1) by lia.
  rewrite (IH (S n) l); [done| |simpl in Hk; lia]. rewrite <- (Nat.add_1_r n), <- drop_drop, Hl. done.
Qed.
End registry_facts.

(** ** Properties *)

(** C12: [validate_graph] decides topology validity.  It returns exactly when asset ids are unique, every
    relationship links two known assets of one tenant, the relationships form no cycle, and the children of
    every asset with a positive capacity stay within it; otherwise it raises [ValueError].  Kahn's loop always
    terminates within one round per asset. *)
Theorem validate_graph_correct (assets : list Asset) (rels : list Relationship) :
  (validate_graph assets rels = Ok tt ↔ graph_valid assets rels) ∧
  (∀ e, validate_graph assets rels = Err e → ∃ msg, e = ValueError msg).
Proof.
  pose proof (validate_graph_spec assets rels) as H. destruct (validate_graph assets rels) as [[]|e].
  - split; [done|]. by intros ? [=].
  - destruct H as [Hno Hmsg]. split; [split; [done|by intros ?]|]. by intros ? [= <-].
Qed.

Definition sample_asset (id : string) (cap : Z) : Asset := MkAsset id "acme" "s1" SITE id (dint cap) ∅ None None.
Definition sample_assets : list Asset := [sample_asset "campus" 100; sample_asset "hall" 60; sample_asset "rack" 20; sample_asset "spare" 5].
Definition sample_rels : list Relationship := [MkRelationship "campus" "hall" "contains"; MkRelationship "hall" "rack" "contains"].

Lemma sample_graph_valid : graph_valid sample_assets sample_rels.
Proof. pose proof (validate_graph_spec sample_assets sample_rels) as H. vm_compute in H. exact H. Qed.

(** [descendants] computes reachability.  On a valid topology and a known root it terminates, raises
    nothing, and returns assets of the topology, each once, namely exactly those reachable from the root
    along one or more relationships. *)
Theorem descendants_exact (assets : list Asset) (rels : list Relationship) (root : Asset)
    (Hvalid : graph_valid assets rels) (Hroot : root ∈ assets) :
  ∃ l, descendants assets rels (asset_id root) = Ok l ∧ NoDup (map asset_id l) ∧ (∀ a, a ∈ l → a ∈ assets) ∧
    ∀ x, x ∈ map asset_id l ↔ tc (λ v u, needs rels u v) (asset_id root) x.
Proof.
  pose proof Hvalid as [Hnd Hrels _ _]. pose proof (relationship_ends assets rels Hrels) as Hends.
  unfold descendants. munfold. rewrite bool_decide_false by (by rewrite (by_id_lookup assets Hnd root Hroot)).
  destruct (bfs_runs assets rels (asset_id root) Hnd (λ r Hr, proj2 (Hends r Hr)) (2 * length rels) (edges_of rels (asset_id root)) ∅ [])
    as (l & Hl & Hi).
  - split; simpl; [done|constructor|by intros a ?%elem_of_nil| |].
    + intros x [Hx|Hx]; [|by apply elem_of_empty in Hx]. apply tc_once. by apply edges_below.
    + intros x y [->|Hx] Hxy; [left; by apply edges_below|by apply elem_of_empty in Hx].
  - unfold edges_of, unseen. rewrite length_map.
    etransitivity; [apply Nat.add_le_mono; apply length_filter|lia].
  - exists l. split; [exact Hl|]. pose proof Hi as [_ H1 H2 _ _]. split_and!; [done|done|].
    apply (bfs_reaches assets); [done|intros r Hr; by apply Hends|done].
Qed.

Lemma descendants_exact_witness :
  ∃ l, descendants sample_assets sample_rels "campus" = Ok l ∧ map asset_id l = ["hall"; "rack"] ∧
    tc (λ v u, needs sample_rels u v) "campus" "rack".
Proof.
  destruct (descendants_exact sample_assets sample_rels (sample_asset "campus" 100) sample_graph_valid (list_elem_of_here _ _))
    as (l & Hl & _ & _ & Hreach).
  exists l. split; [exact Hl|]. vm_compute in Hl. injection Hl as <-. split; [reflexivity|]. apply Hreach. simpl. set_solver.
Defined.


