(* ===== verification/Registry.v ===== *)
(** * Forecast model registry: [packages/forecasting/registry.py]

    [ModelRegistry] keeps the versions of every forecast model, their stage, and which one is in
    production.  The [mem_] definitions are the in-process backend (a dict in insertion order and
    the promotion history of every name; it ignores the tenant), the [pg_] ones the table
    [model_versions] with its partial unique index on the production rows.  [now] is the
    transaction's [now()] in microseconds; which of several rows with the same [updated_at]
    [ORDER BY updated_at DESC LIMIT 1] returns is the parameter [pick]. *)
From S2P Require Import Prelude Domain.
Local Open Scope Z_scope.

Inductive ModelStage := REGISTERED | STAGING | PRODUCTION | ARCHIVED.
#[global] Instance ModelStage_eq_dec : EqDecision ModelStage.
Proof. solve_decision. Defined.

Record ModelVersion := MkModel {
  name : string; version : string; artifact_hash : string; dataset_hash : string;
  created_at : datetime; stage : ModelStage
}.

Definition with_stage (s : ModelStage) (m : ModelVersion) : ModelVersion :=
  MkModel (name m) (version m) (artifact_hash m) (dataset_hash m) (created_at m) s.

(** ** In-process backend *)

Record mem_registry := MkMem {
  models : list ((string * string) * ModelVersion);
  promotions : gmap string (list string)
}.
Definition empty_registry : mem_registry := MkMem [] ∅.

Definition mem_register (m : ModelVersion) : M mem_registry unit :=
  s ← mget;
  mguard (bool_decide (is_Some (od_get (name m, version m) (models s)))) (ValueError "model version already exists");;
  mput (MkMem (od_set (name m, version m) m (models s)) (promotions s)).

Definition in_production (n : string) (m : ModelVersion) : bool :=
  bool_decide (name m = n) && bool_decide (stage m = PRODUCTION).

(** The loop over the snapshot of the items: every production version of the name is replaced
    at its key by its archived copy. *)
Definition archive_production (n : string) (d : list ((string * string) * ModelVersion)) :=
  foldl (λ d' kv, if in_production n kv.2 then od_set kv.1 (with_stage ARCHIVED kv.2) d' else d') d d.

Definition mem_promote (n v : string) : M mem_registry ModelVersion :=
  s ← mget;
  m ← mlift (of_option (KeyError v) (od_get (n, v) (models s)));
  let promoted := with_stage PRODUCTION m in
  mput (MkMem (od_set (n, v) promoted (archive_production n (models s)))
    (<[n := default [] (promotions s !! n) ++ [v]]> (promotions s)));;
  mret promoted.

Definition mem_rollback (n : string) : M mem_registry ModelVersion :=
  s ← mget;
  let past := default [] (promotions s !! n) in
  mguard (Z.of_nat (length past) <? 2) (ValueError "no previous production model");;
  let past' := removelast past in
  mput (MkMem (models s) (<[n := past']> (promotions s)));;
  match last past' with
  | Some v => mem_promote n v
  | None => mraise IndexError
  end.

Definition mem_production (n : string) : M mem_registry ModelVersion :=
  s ← mget;
  mlift (of_option (KeyError n) (head (base.filter (λ m, in_production n m = true) (models s).*2))).

(** ** PostgreSQL backend *)

Record model_row := MkRow {
  row_artifact : string; row_dataset : string; row_stage : ModelStage; row_created : datetime; updated_at : Z
}.
Abbreviation model_table := (gmap (string * string * string) model_row).

Definition from_row (n v : string) (r : model_row) : ModelVersion :=
  MkModel n v (row_artifact r) (row_dataset r) (row_created r) (row_stage r).

Definition set_stage (now : Z) (st : ModelStage) (r : model_row) : model_row :=
  MkRow (row_artifact r) (row_dataset r) st (row_created r) now.

(** the rows of a tenant's model at a stage *)
Definition at_stage (t n : string) (st : ModelStage) (s : model_table) : list (string * model_row) :=
  map (λ kv, (kv.1.2, kv.2))
    (base.filter (λ kv, kv.1.1 = (t, n) ∧ row_stage kv.2 = st) (map_to_list s)).

(** [UPDATE ... SET stage = 'archived' WHERE ... stage = 'production'] *)
Definition archive_rows (now : Z) (t n : string) (s : model_table) : model_table :=
  map_imap (λ k r, Some (if bool_decide (k.1 = (t, n) ∧ row_stage r = PRODUCTION)
                         then set_stage now ARCHIVED r else r)) s.

Section pg.
Context (txn : ∀ S A, M S A → M S A) (pick : list (string * model_row) → option string).

Definition tenant_guard {S} (t : string) : M S unit :=
  mguard (bool_decide (t = "")) (ValueError "tenant_id is required for persistent model registry").

Definition pg_register (now : Z) (t : string) (m : ModelVersion) : M model_table unit :=
  tenant_guard t;;
  txn _ _ (
    s ← mget;
    mguard (bool_decide (is_Some (s !! (t, name m, version m)))) (ValueError "model version already exists");;
    mguard (bool_decide (stage m = PRODUCTION) && negb (bool_decide (at_stage t (name m) PRODUCTION s = [])))
      (OtherError "UniqueViolation");;
    mput (<[(t, name m, version m) :=
      MkRow (artifact_hash m) (dataset_hash m) (stage m) (created_at m) now]> s)).

(** The two UPDATE statements that put a version in production. *)
Definition pg_put_in_production (now : Z) (t n v : string) : M model_table ModelVersion :=
  s ← mget;
  mguard (negb (bool_decide (is_Some (s !! (t, n, v))))) (KeyError v);;
  mput (archive_rows now t n s);;
  s' ← mget;
  match s' !! (t, n, v) with
  | Some r =>
      mput (<[(t, n, v) := set_stage now PRODUCTION r]> s');;
      mret (from_row n v (set_stage now PRODUCTION r))
  | None => mraise (RuntimeError "model promotion returned no model")
  end.

Definition pg_promote (now : Z) (t n v : string) : M model_table ModelVersion :=
  tenant_guard t;; txn _ _ (pg_put_in_production now t n v).

Definition pg_rollback (now : Z) (t n : string) : M model_table ModelVersion :=
  tenant_guard t;;
  txn _ _ (
    s ← mget;
    match pick (at_stage t n ARCHIVED s) with
    | None => mraise (ValueError "no previous production model")
    | Some v => pg_put_in_production now t n v
    end).

Definition pg_production (t n : string) : M model_table ModelVersion :=
  tenant_guard t;;
  txn _ _ (
    s ← mget;
    match at_stage t n PRODUCTION s with
    | [] => mraise (KeyError n)
    | (v, r) :: _ => mret (from_row n v r)
    end).
End pg.

(** ** The in-process registry *)

Definition archived (n : string) (m : ModelVersion) : ModelVersion :=
  if in_production n m then with_stage ARCHIVED m else m.

Lemma archive_fold n (l : list ((string * string) * ModelVersion)) : ∀ d, NoDup l.*1 → (∀ kv, kv ∈ l → kv.1 ∈ d.*1) →
  let d' := foldl (λ d' kv, if in_production n kv.2 then od_set kv.1 (with_stage ARCHIVED kv.2) d' else d') d l in
  d'.*1 = d.*1 ∧ ∀ k, od_get k d' = match od_get k l with
                                    | Some m => if in_production n m then Some (archived n m) else od_get k d
                                    | None => od_get k d end.
Proof.
  induction l as [|[k m] l IH]; intros d Hnd Hin; simpl in *; [done|].
  apply NoDup_cons in Hnd as [Hk Hnd].
  set (d1 := if in_production n m then od_set k (with_stage ARCHIVED m) d else d).
  assert (d1.*1 = d.*1) as Hkeys.
  { unfold d1. case_match; [|done]. rewrite od_set_keys, decide_True; [done|]. apply (Hin (k, m)). by left. }
  destruct (IH d1 Hnd) as [H1 H2].
  { intros kv Hkv. rewrite Hkeys. apply Hin. by right. }
  split; [by rewrite H1|]. intros k'. rewrite H2. unfold d1. case_decide as Hkk; subst.
  - apply od_get_None in Hk as ->. unfold archived. case_match; [by rewrite od_get_set_eq|done].
  - destruct (od_get k' l); repeat case_match; rewrite ?od_get_set_ne; done.
Qed.

Lemma archive_production_get n d : NoDup d.*1 →
  (archive_production n d).*1 = d.*1 ∧ ∀ k, od_get k (archive_production n d) = archived n <$> od_get k d.
Proof.
  intros Hnd. destruct (archive_fold n d d Hnd) as [H1 H2].
  { intros kv Hkv. by apply list_elem_of_fmap_2. }
  split; [done|]. intros k. unfold archive_production. rewrite H2. destruct (od_get k d) as [m|] eqn:E; [|done]. simpl.
  unfold archived. by case_match.
Qed.

(** Every entry sits at its own key, a name has at most one production version, and the
    promotion history of a name names known versions and ends with the one in production
    (except for the name [hole], whose history a rollback has just shortened). *)
Record mem_wf_at (hole : option string) (s : mem_registry) : Prop := {
  wf_nodup : NoDup (models s).*1;
  wf_keys : ∀ n v m, od_get (n, v) (models s) = Some m → name m = n ∧ version m = v;
  wf_current : ∀ n v m, od_get (n, v) (models s) = Some m → stage m = PRODUCTION → hole ≠ Some n →
    last (default [] (promotions s !! n)) = Some v;
  wf_past : ∀ n v, v ∈ default [] (promotions s !! n) → is_Some (od_get (n, v) (models s))
}.
Abbreviation mem_wf := (mem_wf_at None).

Lemma mem_wf_empty : mem_wf empty_registry.
Proof. split; simpl; [constructor|done..|]. intros n v. rewrite lookup_empty. by intros ?%elem_of_nil. Qed.

(** What production() finds. *)
Lemma mem_production_spec n s : mem_wf s →
  mem_production n s = (s, match last (default [] (promotions s !! n)) with
    | Some v => match od_get (n, v) (models s) with
                | Some m => if in_production n m then Ok m else Err (KeyError n)
                | None => Err (KeyError n) end
    | None => Err (KeyError n) end).
Proof.
  intros [Hnd Hk Hc _]. unfold mem_production. munfold. f_equal.
  destruct (base.filter _ _) as [|m l] eqn:E; simpl.
  - repeat case_match; try done. exfalso.
    assert (m ∈ base.filter (λ m, in_production n m = true) (models s).*2) as Hm; [|by rewrite E in Hm; apply elem_of_nil in Hm].
    apply list_elem_of_filter. split; [done|]. apply list_elem_of_fmap. eexists (_, m). split; [done|].
    by apply od_get_elem_of.
  - assert (m ∈ base.filter (λ m, in_production n m = true) (models s).*2) as Hm by (rewrite E; left).
    apply list_elem_of_filter in Hm as [Hp Hm]. apply list_elem_of_fmap in Hm as ([[n' v'] m'] & -> & Hm). simpl in *.
    apply elem_of_od_get in Hm; [|done]. pose proof Hp as Hp'. unfold in_production in Hp'. bprop.
    destruct (Hk _ _ _ Hm) as [? ?]. simplify_eq. rewrite (Hc _ _ _ Hm) by done. by rewrite Hm, Hp.
Qed.

(** The state after a successful promotion. *)
Definition promoted_state (s : mem_registry) (n v : string) (m : ModelVersion) : mem_registry :=
  MkMem (od_set (n, v) (with_stage PRODUCTION m) (archive_production n (models s)))
    (<[n := default [] (promotions s !! n) ++ [v]]> (promotions s)).

Lemma promoted_get hole s n v m n' v' : mem_wf_at hole s → od_get (n, v) (models s) = Some m →
  od_get (n', v') (models (promoted_state s n v m)) =
  if decide ((n', v') = (n, v)) then Some (with_stage PRODUCTION m) else archived n <$> od_get (n', v') (models s).
Proof.
  intros [Hnd _ _ _] Hm. simpl. destruct (archive_production_get n (models s) Hnd) as [_ Hg]. case_decide as Hd.
  - rewrite Hd. apply od_get_set_eq.
  - rewrite od_get_set_ne by congruence. apply Hg.
Qed.

Lemma archived_stage n m : stage (archived n m) = PRODUCTION → name m ≠ n ∧ archived n m = m.
Proof. unfold archived, in_production. repeat case_match; bprop; naive_solver. Qed.

Lemma archived_name n m : name (archived n m) = name m ∧ version (archived n m) = version m.
Proof. unfold archived. by case_match. Qed.

Lemma promoted_wf hole s n v m : mem_wf_at hole s → hole = None ∨ hole = Some n → od_get (n, v) (models s) = Some m →
  mem_wf (promoted_state s n v m).
Proof.
  intros Hw Hh Hm. pose proof Hw as [Hnd Hk Hc Hp].
  assert (∀ n' v', _) as Hg by exact (λ n' v', promoted_get hole s n v m n' v' Hw Hm). split.
  - simpl. apply od_set_NoDup. by rewrite (proj1 (archive_production_get n _ Hnd)).
  - intros n' v' m'. rewrite Hg. case_decide as Hd; [intros [= <-]; injection Hd as -> ->; exact (Hk _ _ _ Hm)|].
    destruct (od_get (n', v') (models s)) as [m0|] eqn:E; [|done]. intros [= <-].
    destruct (archived_name n m0) as [-> ->]. by apply Hk.
  - intros n' v' m'. rewrite Hg. simpl. case_decide as Hd.
    + injection Hd as -> ->. intros _ _ _. rewrite lookup_insert_eq. apply last_snoc.
    + destruct (od_get (n', v') (models s)) as [m0|] eqn:E; [|done]. intros [= <-] Hs _.
      apply archived_stage in Hs as Ha. destruct Ha as [Hn Ha]. rewrite Ha in Hs.
      rewrite lookup_insert_ne by (destruct (Hk _ _ _ E); congruence).
      eapply Hc; [done..|]. destruct (Hk _ _ _ E). destruct Hh; congruence.
  - intros n' v' Hv. rewrite Hg. case_decide; [done|]. apply fmap_is_Some. simpl in Hv.
    destruct (decide (n' = n)) as [->|Hn].
    + rewrite lookup_insert_eq in Hv. simpl in Hv. apply elem_of_app in Hv as [Hv|Hv]; [by apply Hp|].
      apply list_elem_of_singleton in Hv as ->. done.
    + rewrite lookup_insert_ne in Hv by done. by apply Hp.
Qed.

Lemma mem_promote_spec n v s : mem_promote n v s =
  match od_get (n, v) (models s) with
  | Some m => (promoted_state s n v m, Ok (with_stage PRODUCTION m))
  | None => (s, Err (KeyError v))
  end.
Proof. unfold mem_promote. munfold. by destruct (od_get (n, v) (models s)). Qed.

Lemma mem_register_spec m s : mem_register m s =
  match od_get (name m, version m) (models s) with
  | Some _ => (s, Err (ValueError "model version already exists"))
  | None => (MkMem (od_set (name m, version m) m (models s)) (promotions s), Ok tt)
  end.
Proof.
  unfold mem_register. munfold. case_bool_decide as E; case_match; try done.
  - by destruct E.
Qed.

Lemma mem_register_wf m s : mem_wf s → stage m ≠ PRODUCTION → mem_wf (mem_register m s).1.
Proof.
  intros Hw Hst. rewrite mem_register_spec. case_match eqn:E; [done|]. destruct Hw as [Hnd Hk Hc Hp]. split; simpl.
  - by apply od_set_NoDup.
  - intros n v m'. destruct (decide ((name m, version m) = (n, v))) as [Hd|Hd].
    + rewrite Hd, od_get_set_eq. by intros [= <-]; simplify_eq.
    + rewrite od_get_set_ne by done. apply Hk.
  - intros n v m'. destruct (decide ((name m, version m) = (n, v))) as [Hd|Hd].
    + rewrite Hd, od_get_set_eq. by intros [= <-].
    + rewrite od_get_set_ne by done. apply Hc.
  - intros n v Hv. destruct (decide ((name m, version m) = (n, v))) as [Hd|Hd].
    + rewrite Hd, od_get_set_eq. done.
    + rewrite od_get_set_ne by done. by apply Hp.
Qed.

(** ** The table *)

Lemma elem_of_at_stage t n st s v r : (v, r) ∈ at_stage t n st s ↔ s !! (t, n, v) = Some r ∧ row_stage r = st.
Proof.
  unfold at_stage. rewrite list_elem_of_fmap. split.
  - intros ([[[t' n'] v'] r'] & ? & Hin). simplify_eq/=. apply list_elem_of_filter in Hin as [[? ?] Hin].
    simplify_eq/=. split; [|done]. by apply elem_of_map_to_list in Hin.
  - intros [Hs Hst]. exists ((t, n, v), r). split; [done|]. apply list_elem_of_filter. split; [done|].
    by apply elem_of_map_to_list.
Qed.

Lemma archive_rows_get now t n s t' n' v : archive_rows now t n s !! (t', n', v) =
  (λ r, if bool_decide ((t', n') = (t, n) ∧ row_stage r = PRODUCTION) then set_stage now ARCHIVED r else r)
  <$> s !! (t', n', v).
Proof. unfold archive_rows. rewrite map_lookup_imap. by destruct (s !! (t', n', v)). Qed.

(** The table after a version was put in production. *)
Definition promoted_table (now : Z) (t n v : string) (s : model_table) (r : model_row) : model_table :=
  <[(t, n, v) := set_stage now PRODUCTION r]> (archive_rows now t n s).

Lemma pg_put_in_production_spec now t n v s : pg_put_in_production now t n v s =
  match s !! (t, n, v) with
  | Some r => (promoted_table now t n v s r, Ok (from_row n v (set_stage now PRODUCTION r)))
  | None => (s, Err (KeyError v))
  end.
Proof.
  unfold pg_put_in_production. munfold. destruct (s !! (t, n, v)) as [r|] eqn:E; [|done].
  rewrite archive_rows_get, E. simpl. unfold promoted_table. repeat case_bool_decide; done.
Qed.

Definition one_production (s : model_table) : Prop :=
  ∀ t n v1 v2 r1 r2, s !! (t, n, v1) = Some r1 → s !! (t, n, v2) = Some r2 →
    row_stage r1 = PRODUCTION → row_stage r2 = PRODUCTION → v1 = v2.

Lemma promoted_table_get now t n v s r t' n' v' : promoted_table now t n v s r !! (t', n', v') =
  if decide ((t', n', v') = (t, n, v)) then Some (set_stage now PRODUCTION r)
  else (λ r, if bool_decide ((t', n') = (t, n) ∧ row_stage r = PRODUCTION) then set_stage now ARCHIVED r else r)
       <$> s !! (t', n', v').
Proof.
  unfold promoted_table. case_decide as Hd; [by rewrite Hd, lookup_insert_eq|].
  rewrite lookup_insert_ne by done. apply archive_rows_get.
Qed.

Lemma promoted_production now t n v s r t' n' v' r' :
  promoted_table now t n v s r !! (t', n', v') = Some r' → row_stage r' = PRODUCTION →
  (t', n', v') = (t, n, v) ∨ ((t', n') ≠ (t, n) ∧ s !! (t', n', v') = Some r').
Proof.
  rewrite promoted_table_get. case_decide; [by left|].
  destruct (s !! (t', n', v')) as [r0|]; [|done]. intros [= <-]. case_bool_decide as E; [done|]. intros Hs. right.
  split; [|done]. intros ?. by apply E.
Qed.

Lemma promoted_one now t n v s r : one_production s → one_production (promoted_table now t n v s r).
Proof.
  intros H1 t' n' v1 v2 r1 r2 E1 E2 S1 S2.
  apply promoted_production in E1; [|done]. apply promoted_production in E2; [|done].
  destruct E1 as [?|[? E1]], E2 as [?|[? E2]]; simplify_eq; [done..|]. by eapply H1.
Qed.

Lemma one_production_at t n s v r : one_production s → s !! (t, n, v) = Some r → row_stage r = PRODUCTION →
  at_stage t n PRODUCTION s = (v, r) :: tail (at_stage t n PRODUCTION s).
Proof.
  intros H1 Hs Hst. assert ((v, r) ∈ at_stage t n PRODUCTION s) as Hin by by apply elem_of_at_stage.
  destruct (at_stage t n PRODUCTION s) as [|[v' r'] l] eqn:E; [by apply elem_of_nil in Hin|]. simpl. f_equal.
  assert ((v', r') ∈ at_stage t n PRODUCTION s) as Hin' by (rewrite E; left).
  apply elem_of_at_stage in Hin' as [Hs' Hst']. assert (v' = v) as -> by by eapply H1. congruence.
Qed.

(** ** Histories *)

Inductive reg_op :=
| Register (m : ModelVersion)
| Promote (n v : string)
| Rollback (n : string)
| Production (n : string).

Definition op_name (op : reg_op) : string :=
  match op with Register m => name m | Promote n _ | Rollback n | Production n => n end.

(** the operations that put a version in production *)
Definition op_switches (op : reg_op) : bool :=
  match op with Promote _ _ | Rollback _ => true | _ => false end.

(** the default of [ModelVersion.stage] is REGISTERED; nobody registers a version as being in production *)
Definition op_ok (op : reg_op) : Prop :=
  match op with Register m => stage m ≠ PRODUCTION | _ => True end.

Definition some_result {S A} (m : M S A) : M S (option A) := a ← m; mret (Some a).

Definition mem_run (op : reg_op) : M mem_registry (option ModelVersion) :=
  match op with
  | Register m => mem_register m;; mret None
  | Promote n v => some_result (mem_promote n v)
  | Rollback n => some_result (mem_rollback n)
  | Production n => some_result (mem_production n)
  end.

Lemma mem_rollback_spec n s : mem_wf s → mem_rollback n s =
  match last (removelast (default [] (promotions s !! n))) with
  | Some v => mem_promote n v (MkMem (models s) (<[n := removelast (default [] (promotions s !! n))]> (promotions s)))
  | None => (s, Err (ValueError "no previous production model"))
  end.
Proof.
  intros Hw. unfold mem_rollback. munfold. set (past := default [] (promotions s !! n)).
  assert (last (removelast past) = None ↔ (length past < 2)%nat) as Hl.
  { destruct past as [|x [|y past]]; [simpl; naive_solver lia..|]. change (removelast (x :: y :: past)) with (x :: removelast (y :: past)).
    rewrite last_cons. case_match; simpl; naive_solver lia. }
  if_case as E; bprop.
  - by rewrite (proj2 Hl) by lia.
  - destruct (last (removelast past)); [done|]. pose proof (proj1 Hl eq_refl). lia.
Qed.

Lemma mem_rollback_ok n s v : mem_wf s → last (removelast (default [] (promotions s !! n))) = Some v →
  ∃ m s1, od_get (n, v) (models s) = Some m ∧ mem_wf_at (Some n) s1 ∧ models s1 = models s ∧
    promotions s1 = <[n := removelast (default [] (promotions s !! n))]> (promotions s) ∧
    mem_rollback n s = (promoted_state s1 n v m, Ok (with_stage PRODUCTION m)).
Proof.
  intros Hw Hv. rewrite mem_rollback_spec, Hv by done. set (past := default [] (promotions s !! n)) in *.
  assert (∀ x, x ∈ removelast past → x ∈ past) as Hsub.
  { intros x. destruct (decide (past = [])) as [->|Hne]; [done|].
    destruct (exists_last Hne) as (l & y & ->). rewrite removelast_last. set_solver. }
  assert (v ∈ past) as Hin by (apply Hsub, last_Some_elem_of, Hv).
  destruct (wf_past _ _ Hw n v Hin) as [m Hm].
  exists m, (MkMem (models s) (<[n := removelast past]> (promotions s))).
  rewrite mem_promote_spec. simpl. rewrite Hm. split_and!; [done| |done..].
  destruct Hw as [Hnd Hk Hc Hp]. split; simpl; [done..| |].
  - intros n' v' m' Hm' Hs Hn. rewrite lookup_insert_ne by congruence. by eapply Hc.
  - intros n' v' Hv'. apply Hp. destruct (decide (n' = n)) as [->|Hn].
    + rewrite lookup_insert_eq in Hv'. by apply Hsub.
    + by rewrite lookup_insert_ne in Hv'.
Qed.

Lemma mem_run_wf op s : mem_wf s → op_ok op → mem_wf (mem_run op s).1.
Proof.
  intros Hw Hok. destruct op as [m|n v|n|n]; unfold mem_run, some_result, mbind, M_bind, mret, M_ret.
  - pose proof (mem_register_wf m s Hw Hok). by destruct (mem_register m s) as [? []].
  - rewrite mem_promote_spec. destruct (od_get (n, v) (models s)) as [m|] eqn:E; [|done]. eapply promoted_wf; eauto.
  - destruct (last (removelast (default [] (promotions s !! n)))) as [v|] eqn:E.
    + destruct (mem_rollback_ok n s v) as (m & s1 & Hm & Hw1 & Hms & _ & ->); [done..|]. simpl.
      eapply promoted_wf; [done|by right|congruence].
    + by rewrite mem_rollback_spec, E.
  - rewrite mem_production_spec by done. by repeat case_match.
Qed.

(** After a switch the promoted version is the one in production. *)
Lemma promoted_state_production hole s n v m : mem_wf_at hole s → hole = None ∨ hole = Some n →
  od_get (n, v) (models s) = Some m →
  mem_production n (promoted_state s n v m) = (promoted_state s n v m, Ok (with_stage PRODUCTION m)).
Proof.
  intros Hw Hh Hm. rewrite mem_production_spec by by eapply promoted_wf. simpl.
  rewrite lookup_insert_eq. simpl. rewrite last_snoc. rewrite od_get_set_eq.
  unfold in_production. destruct (wf_keys _ _ Hw _ _ _ Hm) as [<- _]. simpl. by rewrite !bool_decide_eq_true_2.
Qed.

Lemma mem_switch_production op s s' m : mem_wf s → op_switches op = true → mem_run op s = (s', Ok (Some m)) →
  mem_production (op_name op) s' = (s', Ok m).
Proof.
  intros Hw Hsw. destruct op as [?|n v|n|?]; try done; unfold mem_run, some_result, mbind, M_bind, mret, M_ret.
  - rewrite mem_promote_spec. destruct (od_get (n, v) (models s)) as [m0|] eqn:E; [|done]. intros [= <- <-]. by eapply promoted_state_production; eauto.
  - destruct (last (removelast (default [] (promotions s !! n)))) as [v|] eqn:E.
    + destruct (mem_rollback_ok n s v) as (m0 & s1 & Hm & Hw1 & Hms & _ & ->); [done..|]. intros [= <- <-].
      eapply promoted_state_production; [done|by right|congruence].
    + by rewrite mem_rollback_spec, E.
Qed.

Section pg_facts.
Context (txn : ∀ S A, M S A → M S A) `{!Transactional txn} (pick : list (string * model_row) → option string).

Definition pg_run (now : Z) (t : string) (op : reg_op) : M model_table (option ModelVersion) :=
  match op with
  | Register m => pg_register txn now t m;; mret None
  | Promote n v => some_result (pg_promote txn now t n v)
  | Rollback n => some_result (pg_rollback txn pick now t n)
  | Production n => some_result (pg_production txn t n)
  end.

Lemma pg_promote_spec now t n v s : t ≠ "" → pg_promote txn now t n v s = pg_put_in_production now t n v s.
Proof.
  intros Ht. unfold pg_promote, tenant_guard. munfold. rewrite bool_decide_eq_false_2 by done. rewrite txn_atomically.
  unfold atomically. rewrite pg_put_in_production_spec. by destruct (s !! (t, n, v)).
Qed.

Lemma pg_rollback_spec now t n s : t ≠ "" → pg_rollback txn pick now t n s =
  match pick (at_stage t n ARCHIVED s) with
  | Some v => pg_put_in_production now t n v s
  | None => (s, Err (ValueError "no previous production model"))
  end.
Proof.
  intros Ht. unfold pg_rollback, tenant_guard. munfold. rewrite bool_decide_eq_false_2 by done. rewrite txn_atomically.
  unfold atomically. destruct (pick _) as [v|]; [|done]. rewrite pg_put_in_production_spec. by destruct (s !! (t, n, v)).
Qed.

Lemma pg_production_spec t n s : t ≠ "" → pg_production txn t n s =
  (s, match at_stage t n PRODUCTION s with [] => Err (KeyError n) | (v, r) :: _ => Ok (from_row n v r) end).
Proof.
  intros Ht. unfold pg_production, tenant_guard. munfold. rewrite bool_decide_eq_false_2 by done. rewrite txn_atomically.
  unfold atomically. by destruct (at_stage t n PRODUCTION s) as [|[v r] l].
Qed.

Lemma pg_register_spec now t m s : t ≠ "" → pg_register txn now t m s =
  match s !! (t, name m, version m) with
  | Some _ => (s, Err (ValueError "model version already exists"))
  | None =>
      if bool_decide (stage m = PRODUCTION) && negb (bool_decide (at_stage t (name m) PRODUCTION s = []))
      then (s, Err (OtherError "UniqueViolation"))
      else (<[(t, name m, version m) := MkRow (artifact_hash m) (dataset_hash m) (stage m) (created_at m) now]> s, Ok tt)
  end.
Proof.
  intros Ht. unfold pg_register, tenant_guard. munfold. rewrite bool_decide_eq_false_2 by done. rewrite txn_atomically.
  unfold atomically. destruct (s !! (t, name m, version m)); [done|]. simpl. by destruct (_ && _).
Qed.

Lemma pg_run_empty_tenant now op s :
  pg_run now "" op s = (s, Err (ValueError "tenant_id is required for persistent model registry")).
Proof. by destruct op. Qed.

Lemma pg_run_one now t op s : one_production s → one_production (pg_run now t op s).1.
Proof.
  intros H1. destruct (decide (t = "")) as [->|Ht]; [by rewrite pg_run_empty_tenant|].
  destruct op as [m|n v|n|n]; unfold pg_run, some_result, mbind, M_bind, mret, M_ret.
  - rewrite pg_register_spec by done. destruct (s !! (t, name m, version m)) eqn:E; [done|].
    if_case as Eg; [done|]. intros t' n' v1 v2 r1 r2 E1 E2 S1 S2. bprop.
    assert (∀ v r, <[(t, name m, version m) := MkRow (artifact_hash m) (dataset_hash m) (stage m) (created_at m) now]> s
        !! (t', n', v) = Some r → row_stage r = PRODUCTION → s !! (t', n', v) = Some r ∨
        (t', n', v) = (t, name m, version m) ∧ at_stage t (name m) PRODUCTION s = []) as Hc.
    { intros v r. rewrite lookup_insert. case_decide as Hd; [|by left]. intros [= <-] Hs. right. split; [done|]. simpl in Hs.
      destruct Eg as [Eg|Eg]; by bprop. }
    assert (∀ v r, s !! (t, name m, v) = Some r → row_stage r = PRODUCTION → at_stage t (name m) PRODUCTION s ≠ []) as Hn.
    { intros v r Hv Hs He. assert ((v, r) ∈ at_stage t (name m) PRODUCTION s) as Hin by by apply elem_of_at_stage.
      rewrite He in Hin. by apply elem_of_nil in Hin. }
    destruct (Hc _ _ E1 S1) as [?|[? ?]], (Hc _ _ E2 S2) as [?|[? ?]]; simplify_eq; [by eapply H1|exfalso; by eapply Hn..|done].
  - rewrite pg_promote_spec, pg_put_in_production_spec by done. destruct (s !! (t, n, v)); [by apply promoted_one|done].
  - rewrite pg_rollback_spec by done. destruct (pick _) as [v|]; [|done].
    rewrite pg_put_in_production_spec. destruct (s !! (t, n, v)); [by apply promoted_one|done].
  - by rewrite pg_production_spec by done; repeat case_match.
Qed.

Lemma promoted_table_production now t n v s r : t ≠ "" → one_production s →
  pg_production txn t n (promoted_table now t n v s r) =
  (promoted_table now t n v s r, Ok (from_row n v (set_stage now PRODUCTION r))).
Proof.
  intros Ht H1. rewrite pg_production_spec by done.
  rewrite (one_production_at t n _ v (set_stage now PRODUCTION r)); [done|by apply promoted_one| |done].
  unfold promoted_table. by rewrite lookup_insert_eq.
Qed.

Lemma pg_switch_production now t op s s' m : one_production s → op_switches op = true →
  pg_run now t op s = (s', Ok (Some m)) → pg_production txn t (op_name op) s' = (s', Ok m).
Proof.
  intros H1 Hsw. destruct (decide (t = "")) as [->|Ht]; [by rewrite pg_run_empty_tenant|].
  destruct op as [?|n v|n|?]; try done; unfold pg_run, some_result, mbind, M_bind, mret, M_ret.
  - rewrite pg_promote_spec, pg_put_in_production_spec by done. destruct (s !! (t, n, v)); [|done].
    intros [= <- <-]. by apply promoted_table_production.
  - rewrite pg_rollback_spec by done. destruct (pick _) as [v|]; [|done].
    rewrite pg_put_in_production_spec. destruct (s !! (t, n, v)); [|done].
    intros [= <- <-]. by apply promoted_table_production.
Qed.

(** ** One tenant's view of the two backends *)

Definition same_models (t : string) (s : mem_registry) (db : model_table) : Prop :=
  ∀ n v, od_get (n, v) (models s) = from_row n v <$> db !! (t, n, v).

Lemma same_production t s db n : mem_wf s → one_production db → same_models t s db → t ≠ "" →
  (mem_production n s).2 = (pg_production txn t n db).2.
Proof.
  intros Hw H1 Hs Ht. rewrite mem_production_spec, pg_production_spec by done. simpl.
  assert (∀ v r, (v, r) ∈ at_stage t n PRODUCTION db → last (default [] (promotions s !! n)) = Some v ∧
    od_get (n, v) (models s) = Some (from_row n v r) ∧ in_production n (from_row n v r) = true) as Ha.
  { intros v r [Hv Hst]%elem_of_at_stage. specialize (Hs n v). rewrite Hv in Hs. split_and!; [|done|].
    - by eapply (wf_current _ _ Hw).
    - unfold in_production. simpl. by rewrite !bool_decide_eq_true_2. }
  destruct (at_stage t n PRODUCTION db) as [|[v r] l] eqn:E.
  - destruct (last _) as [v|]; [|done]. specialize (Hs n v). rewrite Hs.
    destruct (db !! (t, n, v)) as [r|] eqn:Er; [|done]. simpl. if_case as Ep; [|done]. exfalso.
    unfold in_production in Ep. bprop. assert ((v, r) ∈ at_stage t n PRODUCTION db) as Hin by by apply elem_of_at_stage.
    rewrite E in Hin. by apply elem_of_nil in Hin.
  - destruct (Ha v r) as (-> & -> & ->); [left|done].
Qed.

Lemma same_promote now t s db n v m r : mem_wf s → same_models t s db →
  od_get (n, v) (models s) = Some m → db !! (t, n, v) = Some r →
  same_models t (promoted_state s n v m) (promoted_table now t n v db r).
Proof.
  intros Hw Hs Hm Hr n' v'. pose proof (Hs n v) as Hnv. rewrite Hm, Hr in Hnv. injection Hnv as ->.
  rewrite (promoted_get None) by done. rewrite promoted_table_get. case_decide as Hd; [by simplify_eq; rewrite decide_True|].
  rewrite decide_False by congruence. rewrite Hs, <- !option_fmap_compose. destruct (db !! (t, n', v')) as [r0|]; [|done]. simpl. f_equal.
  unfold archived, in_production. simpl. repeat case_bool_decide; naive_solver.
Qed.

Lemma same_step now t op s db : mem_wf s → one_production db → same_models t s db → t ≠ "" → op_ok op →
  (∀ n, op ≠ Rollback n) →
  (mem_run op s).2 = (pg_run now t op db).2 ∧ same_models t (mem_run op s).1 (pg_run now t op db).1.
Proof.
  intros Hw H1 Hs Ht Hok Hnr. destruct op as [m|n v|n|n]; [| |by destruct (Hnr n)|];
    unfold mem_run, pg_run, some_result, mbind, M_bind, mret, M_ret.
  - rewrite mem_register_spec, pg_register_spec by done. pose proof (Hs (name m) (version m)) as Hm.
    destruct (db !! (t, name m, version m)) as [r|] eqn:Er; rewrite Hm; [done|]. simpl in Hok.
    rewrite (bool_decide_eq_false_2 (stage m = PRODUCTION)) by done. simpl. split; [done|]. intros n v. simpl.
    destruct (decide ((name m, version m) = (n, v))) as [Hd|Hd].
    + rewrite Hd, od_get_set_eq. simplify_eq. rewrite lookup_insert_eq. by destruct m.
    + rewrite od_get_set_ne, lookup_insert_ne by congruence. apply Hs.
  - rewrite mem_promote_spec, pg_promote_spec, pg_put_in_production_spec by done. pose proof (Hs n v) as Hm.
    destruct (db !! (t, n, v)) as [r|] eqn:Er; rewrite Hm; [|done]. simpl. split; [done|]. by apply same_promote.
  - pose proof (same_production t s db n Hw H1 Hs Ht) as Hp.
    rewrite mem_production_spec, pg_production_spec in * by done. simpl in Hp. rewrite Hp.
    by destruct (at_stage t n PRODUCTION db) as [|[v r] l].
Qed.

Lemma other_tenant_step now t t' op s db : t' ≠ t → same_models t s db → same_models t s (pg_run now t' op db).1.
Proof.
  intros Hne Hs. destruct (decide (t' = "")) as [->|Ht]; [by rewrite pg_run_empty_tenant|].
  assert (∀ n v r, same_models t s (promoted_table now t' n v db r)) as Hp.
  { intros n v r n' v'. rewrite promoted_table_get, decide_False by congruence. rewrite Hs.
    destruct (db !! (t, n', v')); [|done]. simpl. rewrite bool_decide_eq_false_2 by naive_solver. done. }
  destruct op as [m|n v|n|n]; unfold pg_run, some_result, mbind, M_bind, mret, M_ret.
  - rewrite pg_register_spec by done. destruct (db !! (t', name m, version m)); [done|]. if_case as E; [done|]. intros n' v'.
    rewrite lookup_insert_ne by congruence. apply Hs.
  - rewrite pg_promote_spec, pg_put_in_production_spec by done. destruct (db !! (t', n, v)); [apply Hp|done].
  - rewrite pg_rollback_spec by done. destruct (pick _) as [v|]; [|done]. rewrite pg_put_in_production_spec.
    destruct (db !! (t', n, v)); [apply Hp|done].
  - rewrite pg_production_spec by done. by repeat case_match.
Qed.

(** A history: the operations of all tenants with the time of each. *)
Definition entry : Type := Z * string * reg_op.

Fixpoint pg_history (h : list entry) (db : model_table) : list (string * result (option ModelVersion)) :=
  match h with
  | [] => []
  | (now, t, op) :: h' => let '(db', r) := pg_run now t op db in (t, r) :: pg_history h' db'
  end.

Definition answers_to (t : string) (l : list (string * result (option ModelVersion))) :=
  map snd (base.filter (λ x, x.1 = t) l).

Definition ops_of (t : string) (h : list entry) : list reg_op :=
  map snd (base.filter (λ e, e.1.2 = t) h).
End pg_facts.

Fixpoint mem_history (ops : list reg_op) (s : mem_registry) : list (result (option ModelVersion)) :=
  match ops with
  | [] => []
  | op :: ops' => let '(s', r) := mem_run op s in r :: mem_history ops' s'
  end.

Lemma histories_agree txn `{!Transactional txn} pick t h : ∀ s db, mem_wf s → one_production db → same_models t s db →
  t ≠ "" → Forall (λ e, op_ok e.2 ∧ ∀ n, e.2 ≠ Rollback n) h →
  answers_to t (pg_history txn pick h db) = mem_history (ops_of t h) s.
Proof.
  induction h as [|[[now t'] op] h IH]; intros s db Hw H1 Hs Ht Hh; [done|].
  apply Forall_cons in Hh as [[Hok Hnr] Hh]. simpl. pose proof (pg_run_one txn pick now t' op db H1) as H1'.
  unfold answers_to, ops_of in *. rewrite !filter_cons. simpl. case_decide as Hd.
  - subst t'. destruct (same_step txn pick now t op s db) as [Hr Hs']; [done..|].
    pose proof (mem_run_wf op s Hw Hok) as Hw'.
    destruct (pg_run txn pick now t op db) as [db' r]. destruct (mem_run op s) as [s' r'] eqn:E. simpl in *. subst r'.
    rewrite filter_cons_True by done. simpl. rewrite E. f_equal. by apply IH.
  - pose proof (other_tenant_step txn pick now t t' op s db Hd Hs) as Hs'.
    destruct (pg_run txn pick now t' op db) as [db' r]. simpl in *. rewrite filter_cons_False by done. by apply IH.
Qed.

Inductive mem_reach : mem_registry → Prop :=
| mem_reach_empty : mem_reach empty_registry
| mem_reach_step s op : mem_reach s → op_ok op → mem_reach (mem_run op s).1.

Inductive pg_reach (txn : ∀ S A, M S A → M S A) (pick : list (string * model_row) → option string) : model_table → Prop :=
| pg_reach_empty : pg_reach txn pick ∅
| pg_reach_step db now t op : pg_reach txn pick db → pg_reach txn pick (pg_run txn pick now t op db).1.

Lemma mem_reach_wf s : mem_reach s → mem_wf s.
Proof. induction 1; [apply mem_wf_empty|by apply mem_run_wf]. Qed.

Lemma pg_reach_one txn `{!Transactional txn} (pick : list (string * model_row) → option string) db : pg_reach txn pick db → one_production db.
Proof.
  induction 1; [|by apply pg_run_one].
  intros t n v1 v2 r1 r2 E. by rewrite lookup_empty in E.
Qed.

(** [ORDER BY updated_at DESC LIMIT 1] *)
Definition picks_latest (pick : list (string * model_row) → option string) : Prop :=
  ∀ l, match pick l with
       | Some v => ∃ r, (v, r) ∈ l ∧ Forall (λ x, updated_at x.2 <= updated_at r) l
       | None => l = []
       end.

(** the last promotions of the name, in process *)
Lemma mem_undo n v w s s1 s2 a b : mem_wf s → mem_promote n v s = (s1, Ok a) → mem_promote n w s1 = (s2, Ok b) →
  (mem_rollback n s2).2 = Ok a.
Proof.
  intros Hw. rewrite mem_promote_spec. destruct (od_get (n, v) (models s)) as [m|] eqn:E; [|done].
  intros [= <- <-]. assert (mem_wf (promoted_state s n v m)) as Hw1 by (eapply promoted_wf; eauto).
  rewrite mem_promote_spec. destruct (od_get (n, w) _) as [m'|] eqn:E'; [|done]. intros [= <- <-].
  assert (mem_wf (promoted_state (promoted_state s n v m) n w m')) as Hw2 by (eapply promoted_wf; eauto).
  destruct (mem_rollback_ok n _ v Hw2) as (m2 & s3 & Hm2 & _ & _ & _ & ->).
  - simpl. rewrite lookup_insert_eq. simpl. rewrite removelast_last, lookup_insert_eq. apply last_snoc.
  - simpl. rewrite (promoted_get None) in Hm2 by done. case_decide as Hd.
    + simplify_eq. rewrite (promoted_get None), decide_True in E' by done. by simplify_eq.
    + rewrite (promoted_get None), decide_True in Hm2 by done. simpl in Hm2. injection Hm2 as <-.
      unfold archived. by case_match.
Qed.

Lemma pg_undo txn `{!Transactional txn} (pick : list (string * model_row) → option string) t n v w now1 now2 now3 db db1 db2 a b :
  one_production db → picks_latest pick → t ≠ "" → v ≠ w →
  pg_promote txn now1 t n v db = (db1, Ok a) → (∀ k r, db1 !! k = Some r → updated_at r < now2) →
  pg_promote txn now2 t n w db1 = (db2, Ok b) → (pg_rollback txn pick now3 t n db2).2 = Ok a.
Proof.
  intros H1 Hpick Ht Hvw. rewrite !pg_promote_spec, !pg_put_in_production_spec by done.
  destruct (db !! (t, n, v)) as [r|] eqn:E; [|done]. intros [= <- <-] Hold.
  destruct (promoted_table now1 t n v db r !! (t, n, w)) as [r'|] eqn:E'; [|done]. intros [= <- <-].
  rewrite pg_rollback_spec by done. set (db1 := promoted_table now1 t n v db r) in *. set (db2 := promoted_table now2 t n w db1 r').
  assert (db2 !! (t, n, v) = Some (set_stage now2 ARCHIVED (set_stage now1 PRODUCTION r))) as Hv.
  { unfold db2, db1. rewrite promoted_table_get, decide_False by congruence. rewrite promoted_table_get, decide_True by done.
    simpl. by rewrite bool_decide_eq_true_2. }
  assert ((v, set_stage now2 ARCHIVED (set_stage now1 PRODUCTION r)) ∈ at_stage t n ARCHIVED db2) as Hin
    by by apply elem_of_at_stage.
  specialize (Hpick (at_stage t n ARCHIVED db2)). destruct (pick _) as [v'|]; [|rewrite Hpick in Hin; by apply elem_of_nil in Hin].
  destruct Hpick as (r1 & [Hr1 Hst]%elem_of_at_stage & Hmax). rewrite Forall_forall in Hmax.
  specialize (Hmax _ Hin). simpl in Hmax.
  assert (v' = v) as ->; [|by rewrite pg_put_in_production_spec, Hv].
  unfold db2 in Hr1. rewrite promoted_table_get in Hr1. case_decide as Hd; [by simplify_eq|].
  destruct (db1 !! (t, n, v')) as [r0|] eqn:E0; [|done]. simpl in Hr1. injection Hr1 as <-.
  case_bool_decide as Hb; [|exfalso; specialize (Hold _ _ E0); lia].
  unfold db1 in E0. rewrite promoted_table_get in E0. case_decide as Hd'; [by simplify_eq|]. exfalso.
  destruct (db !! (t, n, v')) as [r2|]; [|done]. simpl in E0. injection E0 as <-. case_bool_decide; naive_solver.
Qed.

(** Whatever sequence of register, promote and rollback calls led to the current state, in either
    backend a model name has at most one version in production, and right after a successful promote
    or rollback the version it returned is the one [production] answers (in process, provided no
    version is registered with stage PRODUCTION; the table's unique index needs no such provision). *)
Theorem registry_production_unique txn `{!Transactional txn} (pick : list (string * model_row) → option string) :
  (∀ db, pg_reach txn pick db → one_production db ∧
    ∀ now t op db' m, op_switches op = true → pg_run txn pick now t op db = (db', Ok (Some m)) →
      pg_production txn t (op_name op) db' = (db', Ok m)) ∧
  (∀ s, mem_reach s →
    (∀ n v1 v2 m1 m2, od_get (n, v1) (models s) = Some m1 → od_get (n, v2) (models s) = Some m2 →
      stage m1 = PRODUCTION → stage m2 = PRODUCTION → v1 = v2) ∧
    ∀ op s' m, op_switches op = true → mem_run op s = (s', Ok (Some m)) →
      mem_production (op_name op) s' = (s', Ok m)).
Proof.
  split.
  - intros db H1%pg_reach_one; [|done]. split; [done|]. intros. by eapply pg_switch_production.
  - intros s Hw%mem_reach_wf. split; [|intros; by eapply mem_switch_production].
    intros n v1 v2 m1 m2 E1 E2 S1 S2. apply (wf_current _ _ Hw) in E1; [|done..]. apply (wf_current _ _ Hw) in E2; [|done..].
    congruence.
Qed.

(** On every history of register, promote and production calls by any number of tenants, each
    tenant receives from the PostgreSQL registry exactly the answers and errors an in-process registry
    used by that tenant alone would give: the two backends implement one contract, and tenants do not
    see each other. *)
Theorem registry_backends_agree txn `{!Transactional txn} (pick : list (string * model_row) → option string) t h :
  t ≠ "" → Forall (λ e, op_ok e.2 ∧ ∀ n, e.2 ≠ Rollback n) h →
  answers_to t (pg_history txn pick h ∅) = mem_history (ops_of t h) empty_registry.
Proof.
  intros Ht Hh. apply histories_agree; [done|apply mem_wf_empty| | |done..].
  - intros ? ? ? ? ? ? E. by rewrite lookup_empty in E.
  - intros n v. by rewrite lookup_empty.
Qed.

(** A rollback undoes the last promotion: after promoting [v] and then another version of the
    same model, [rollback] puts [v] back in production and returns it, in both backends (in the table
    provided the second promotion is later than every earlier update). *)
Theorem registry_rollback_undoes txn `{!Transactional txn} (pick : list (string * model_row) → option string) n v w :
  (∀ s s1 s2 a b, mem_reach s → mem_promote n v s = (s1, Ok a) → mem_promote n w s1 = (s2, Ok b) →
    (mem_rollback n s2).2 = Ok a) ∧
  (∀ t db db1 db2 a b now1 now2 now3, pg_reach txn pick db → picks_latest pick → t ≠ "" → v ≠ w →
    pg_promote txn now1 t n v db = (db1, Ok a) → (∀ k r, db1 !! k = Some r → updated_at r < now2) →
    pg_promote txn now2 t n w db1 = (db2, Ok b) → (pg_rollback txn pick now3 t n db2).2 = Ok a).
Proof.
  split.
  - intros s s1 s2 a b Hw%mem_reach_wf. by eapply mem_undo.
  - intros t db db1 db2 a b now1 now2 now3 H1%pg_reach_one; [|done]. by apply pg_undo.
Qed.

(** A second rollback never goes further back in process: the first one records the version it
    restored as a new promotion, and the next one finds it again. *)
Theorem second_rollback_stuck n s s1 a : mem_reach s → mem_rollback n s = (s1, Ok a) → (mem_rollback n s1).2 = Ok a.
Proof.
  intros Hr. pose proof (mem_reach_wf s Hr) as Hw.
  destruct (last (removelast (default [] (promotions s !! n)))) as [v|] eqn:E; [|by rewrite mem_rollback_spec, E].
  pose proof (mem_run_wf (Rollback n) s Hw I) as Hw1. unfold mem_run, some_result, mbind, M_bind in Hw1.
  destruct (mem_rollback_ok n s v) as (m & s0 & Hm & Hw0 & Hms & Hp & Hs); [done..|]. rewrite Hs in Hw1. simpl in Hw1.
  rewrite Hs. intros [= <- <-]. destruct (mem_rollback_ok n _ v Hw1) as (m2 & s3 & Hm2 & _ & _ & _ & ->).
  - simpl. rewrite lookup_insert_eq, Hp, lookup_insert_eq. simpl. by rewrite removelast_last.
  - rewrite (promoted_get (Some n)), decide_True in Hm2 by (done || congruence). by injection Hm2 as <-.
Qed.

(** ** Concrete runs *)

Definition demand (v : string) : ModelVersion := MkModel "demand" v "a" "d" (DT 0 true) REGISTERED.

Definition latest (l : list (string * model_row)) : option string :=
  match l with
  | [] => None
  | x :: l' => Some (py_max_from (cmp_on (λ y : string * model_row, updated_at y.2) Z.compare) x l').1
  end.

Lemma latest_picks : picks_latest latest.
Proof.
  intros [|x l]; [done|]. simpl.
  destruct (py_max_from_spec (cmp_on (λ y : string * model_row, updated_at y.2) Z.compare) x l) as [Hin Hmax].
  destruct (py_max_from _ x l) as [v r]. exists r. split; [done|].
  eapply Forall_impl; [exact Hmax|]. intros z. unfold cmp_on. simpl. rewrite Z.compare_ngt_iff. lia.
Qed.

Definition two_versions : list entry :=
  [(1, "t", Register (demand "v1")); (2, "u", Register (demand "v1")); (3, "t", Register (demand "v2"));
   (4, "t", Promote "demand" "v1"); (5, "t", Promote "demand" "v2"); (6, "t", Production "demand")].

Lemma registry_production_unique_witness :
  one_production (pg_run (@atomically) latest 2 "t" (Promote "demand" "v1")
    (pg_run (@atomically) latest 1 "t" (Register (demand "v1")) ∅).1).1.
Proof. refine (proj1 (proj1 (registry_production_unique (@atomically) latest) _ _)). repeat constructor. Defined.

Lemma registry_backends_agree_witness :
  answers_to "t" (pg_history (@atomically) latest two_versions ∅) = mem_history (ops_of "t" two_versions) empty_registry ∧
  last (mem_history (ops_of "t" two_versions) empty_registry) = Some (Ok (Some (with_stage PRODUCTION (demand "v2")))).
Proof.
  split; [|vm_compute; reflexivity]. apply (registry_backends_agree (@atomically) latest "t" two_versions); [done|].
  repeat constructor; done.
Defined.

Definition two_registered : mem_registry :=
  (mem_run (Register (demand "v2")) (mem_run (Register (demand "v1")) empty_registry).1).1.

Lemma registry_rollback_undoes_witness :
  let s1 := (mem_promote "demand" "v1" two_registered).1 in
  (mem_rollback "demand" (mem_promote "demand" "v2" s1).1).2 = Ok (with_stage PRODUCTION (demand "v1")).
Proof.
  refine (proj1 (registry_rollback_undoes (@atomically) latest "demand" "v1" "v2") two_registered _ _
    _ (with_stage PRODUCTION (demand "v2")) _ _ _).
  - repeat (constructor || apply mem_reach_step); done.
  - vm_compute; reflexivity.
  - vm_compute; reflexivity.
Defined.

(** Two rollbacks after three promotions: in process the second one changes nothing, in the table it
    undoes the first. *)
Definition three_promotions : list entry :=
  [(1, "t", Register (demand "v1")); (2, "t", Register (demand "v2")); (3, "t", Register (demand "v3"));
   (4, "t", Promote "demand" "v1"); (5, "t", Promote "demand" "v2"); (6, "t", Promote "demand" "v3");
   (7, "t", Rollback "demand"); (8, "t", Rollback "demand")].

Example rollback_twice :
  drop 6 (mem_history (ops_of "t" three_promotions) empty_registry) =
    [Ok (Some (with_stage PRODUCTION (demand "v2"))); Ok (Some (with_stage PRODUCTION (demand "v2")))] ∧
  drop 6 (answers_to "t" (pg_history (@atomically) latest three_promotions ∅)) =
    [Ok (Some (with_stage PRODUCTION (demand "v2"))); Ok (Some (with_stage PRODUCTION (demand "v3")))].
Proof. vm_compute. done. Qed.
