(* ===== verification/Forecast.v ===== *)
(** * Forecasting: [packages/forecasting]

    [models.py]: the persistence and the seasonal model; [service.py]: the model choice with its fallback;
    [backtest.py]: the rolling-origin backtest; [features.py]: lag features.  Timestamps are compared by their
    instants (all of them carry a timezone, or none).  Parameters: the wall-clock hour, minute and weekday of a
    timestamp in its own timezone, and its ISO text.  The products [len * 0.1] and [len * 0.9] and
    [start.timestamp()] are binary64. *)
From S2P Require Import Prelude PyDecimal PyFloat PyValue PyText Domain.
From Stdlib Require Import QArith Lqa.
Local Open Scope Z_scope.

(** ** models.py *)

Record ObservedValue := MkObserved { ov_time : datetime; ov_value : dec }.
Record ForecastPoint := MkForecastPoint {
  fp_time : datetime; point : dec; lower : dec; upper : dec; quantiles : list (string * dec)
}.
Record ForecastBundle := MkBundle {
  fb_id : string; signal : string; points : list ForecastPoint; model_version : string; generated_at : datetime;
  valid_for : datetime * datetime; quality : dec; lineage : list string; fallback : option string
}.

Definition forecast_point (p : ForecastPoint) : result ForecastPoint :=
  raise_if (negb (dleb (lower p) (point p) && dleb (point p) (upper p))) (ValueError "forecast interval must contain point estimate");;
  Ok p.

Definition forecast_bundle (b : ForecastBundle) : result ForecastBundle :=
  raise_if (negb (dleb (dint 0) (quality b) && dleb (quality b) (dint 1))) (ValueError "forecast quality must be in [0,1]");;
  let ts := map (λ p, us (fp_time p)) (points b) in
  raise_if (negb (bool_decide (ts = py_sorted Z.compare (remove_dups ts)))) (ValueError "forecast points must be unique and ordered");;
  Ok b.

(** [int(n * 0.1)] and [int(n * 0.9)] *)
Definition times_01 (n : Z) : Z := bin_trunc (f64_q (n * 3602879701896397) (2 ^ 55)).
Definition times_09 (n : Z) : Z := bin_trunc (f64_q (n * 8106479329266893) (2 ^ 53)).

(** [int(t.timestamp())] *)
Definition unix_seconds (t : datetime) : Z := bin_trunc (f64_q (us t) 1000000).
(** [t + n * step] *)
Definition after (t : datetime) (n step : Z) : datetime := DT (us t + n * step) (aware t).

Section models.
Context (isoformat : datetime → string) (wall : datetime → Z * Z).

(** the bundle around the points of a forecast *)
Definition bundle_of (history : list ObservedValue) (start : datetime) (periods step : Z) (version sig : string) (q : dec)
    (ps : list ForecastPoint) : result ForecastBundle :=
  forecast_bundle (MkBundle ("forecast-" +:+ sig +:+ "-" +:+ int_str (unix_seconds start)) sig ps version start
    (start, after start periods step) q (map (λ o, isoformat (ov_time o)) history) None).

Definition persistence_forecast (history : list ObservedValue) (start : datetime) (periods step : Z) (version sig : string)
    : result ForecastBundle :=
  match last history with
  | None => Err (ValueError "history is required")
  | Some latest =>
      raise_if (us start <=? us (ov_time latest)) (ValueError "future-data leakage: training observation overlaps forecast window");;
      let values := map ov_value history in
      let pt := ov_value latest in
      let ordered := py_sorted dcompare values in
      let n := Z.of_nat (length ordered) in
      lo ← of_option IndexError (py_index ordered (Z.max 0 (times_01 n - 1)));
      hi ← of_option IndexError (py_index ordered (Z.min (n - 1) (times_09 n)));
      let lo := dmin lo pt in let hi := dmax hi pt in
      ps ← mapM_result (λ i, forecast_point (MkForecastPoint (after start (Z.of_nat i) step) pt lo hi [("p10", lo); ("p50", pt); ("p90", hi)]))
             (seq 0 (Z.to_nat periods));
      bundle_of history start periods step version sig (Dec 7 (-1)) ps
  end.

(** the values observed at a time of day; the latest value when there is none *)
Definition seasonal_values (history : list ObservedValue) (default_ : dec) (t : datetime) : dec * list dec :=
  match map ov_value (base.filter (λ o, wall (ov_time o) = wall t) history) with
  | [] => (default_, [])
  | v :: vs => (v, vs)
  end.

Definition list_max (v : dec) (vs : list dec) : dec := py_max_from dcompare v vs.
Definition list_min (v : dec) (vs : list dec) : dec := py_max_from (λ a b, dcompare b a) v vs.

Definition seasonal_point (history : list ObservedValue) (latest : dec) (t : datetime) : result ForecastPoint :=
  let '(v, vs) := seasonal_values history latest t in
  pt ← ddiv (dsum (v :: vs)) (dint (Z.of_nat (length (v :: vs))));
  let spread := dsub (list_max v vs) (list_min v vs) in
  forecast_point (MkForecastPoint t pt (dsub pt spread) (dadd pt spread) [("p10", dsub pt spread); ("p50", pt); ("p90", dadd pt spread)]).

Definition seasonal_forecast (history : list ObservedValue) (start : datetime) (periods step : Z) (version sig : string)
    : result ForecastBundle :=
  match last history with
  | None => Err (ValueError "leakage-safe historical data is required")
  | Some latest =>
      raise_if (us start <=? us (ov_time latest)) (ValueError "leakage-safe historical data is required");;
      ps ← mapM_result (λ i, seasonal_point history (ov_value latest) (after start (Z.of_nat i) step)) (seq 0 (Z.to_nat periods));
      bundle_of history start periods step version sig (Dec 8 (-1)) ps
  end.

(** ** service.py *)

Definition forecast_service (minimum : dec) : result dec :=
  raise_if (negb (dleb (dint 0) minimum && dleb minimum (dint 1))) (ValueError "minimum forecast quality must be in [0,1]");; Ok minimum.

Definition generate (minimum : dec) (history : list ObservedValue) (start : datetime) (periods step : Z) (sig preferred : string)
    : result ForecastBundle :=
  raise_if ((periods <? 1) || (step <=? 0)) (ValueError "forecast horizon must be positive");;
  bundle ← (if bool_decide (preferred = "persistence") then persistence_forecast history start periods step "persistence-1" sig
            else if bool_decide (preferred = "seasonal") then seasonal_forecast history start periods step "seasonal-1" sig
            else Err (ValueError ("unsupported forecast model " +:+ preferred)));
  if dleb minimum (quality bundle) then Ok bundle
  else
    f ← persistence_forecast history start periods step "persistence-fallback-1" sig;
    Ok (MkBundle (fb_id f) (signal f) (points f) (model_version f) (generated_at f) (valid_for f) (quality f) (lineage f)
          (Some ("quality_below_" +:+ dec_str minimum))).

(** ** backtest.py *)

Record BacktestResult := MkBacktest { mae : dec; interval_coverage : dec; folds : Z }.

Definition hour : Z := 3600000000.

(** one fold: the absolute error, and whether the interval covers the observation *)
Definition backtest_fold (observations : list ObservedValue) (i : nat) : result (dec * bool) :=
  match observations !! i with
  | None => Err IndexError
  | Some actual =>
      b ← persistence_forecast (take i observations) (ov_time actual) 1 hour "persistence-1" "unknown";
      match points b with
      | [] => Err IndexError
      | f :: _ => Ok (dabs (dsub (point f) (ov_value actual)), dleb (lower f) (ov_value actual) && dleb (ov_value actual) (upper f))
      end
  end.

Definition rolling_origin_backtest (observations : list ObservedValue) (minimum_train : nat) : result BacktestResult :=
  raise_if (length observations <=? minimum_train)%nat (ValueError "insufficient observations");;
  fs ← mapM_result (backtest_fold observations) (seq minimum_train (length observations - minimum_train));
  let n := Z.of_nat (length fs) in
  m ← ddiv (dsum (map fst fs)) (dint n);
  c ← ddiv (dint (Z.of_nat (length (base.filter (λ f, f.2 = true) fs)))) (dint n);
  Ok (MkBacktest m c n).
End models.

(** ** features.py *)

Record FeatureRow := MkFeature { fr_time : datetime; target : dec; lags : list dec; fr_hour : Z; fr_weekday : Z }.

Section features.
Context (wall : datetime → Z * Z) (weekday : datetime → Z).

Definition observed_order : ObservedValue → ObservedValue → comparison := cmp_on (λ o, us (ov_time o)) Z.compare.

(** the row of one index; an index out of range raises *)
Definition feature_row (ordered : list ObservedValue) (lag_steps : list Z) (i : nat) : result FeatureRow :=
  o ← of_option IndexError (py_index ordered (Z.of_nat i));
  ls ← mapM_result (λ lag, ov_value <$> of_option IndexError (py_index ordered (Z.of_nat i - lag))) lag_steps;
  Ok (MkFeature (ov_time o) (ov_value o) ls (wall (ov_time o)).1 (weekday (ov_time o))).

Definition build_lag_features (history : list ObservedValue) (cutoff : datetime) (lag_steps : list Z) (expected_step : option Z)
    : result (list FeatureRow) :=
  raise_if (negb (aware cutoff) || existsb (λ o, negb (aware (ov_time o))) history) (ValueError "feature timestamps must be timezone-aware");;
  raise_if (existsb (λ s, s <? 1) lag_steps) (ValueError "lag steps must be positive");;
  let ordered := py_sorted observed_order history in
  raise_if (has_duplicates (map (λ o, us (ov_time o)) ordered)) (ValueError "duplicate feature timestamps");;
  raise_if (existsb (λ o, us cutoff <=? us (ov_time o)) ordered) (ValueError "future-data leakage detected");;
  raise_if (match expected_step with
            | None => false
            | Some s => existsb (λ lr, negb (us (ov_time lr.2) - us (ov_time lr.1) =? s)) (zip ordered (drop 1 ordered))
            end) (ValueError "feature history has an unexpected gap");;
  let maximum := foldr Z.max 0 lag_steps in
  mapM_result (feature_row ordered lag_steps) (seq (Z.to_nat maximum) (length ordered - Z.to_nat maximum)).
End features.

(** ** Forecasts *)

Lemma mapM_result_total {A B} (f : A → result B) l : (∀ x, x ∈ l → ∃ y, f x = Ok y) → ∃ k, mapM_result f l = Ok k ∧ Forall2 (λ x y, f x = Ok y) l k.
Proof.
  induction l as [|x l IH]; intros H; [by exists []|]. destruct (H x) as [y Hy]; [left|]. destruct IH as (k & _ & Hk); [intros z Hz; apply H; by right|].
  exists (y :: k). rewrite mapM_result_Forall2. by split; constructor.
Qed.

Lemma remove_dups_id `{EqDecision A} (l : list A) : NoDup l → remove_dups l = l.
Proof. induction 1 as [|x l Hx _ IH]; simpl; [done|]. case_decide; [done|]. by rewrite IH. Qed.

(** what a forecast of so many periods looks like *)
Record forecast_ok (start : datetime) (periods step : Z) (ps : list ForecastPoint) : Prop := {
  fo_length : length ps = Z.to_nat periods;
  fo_points : ∀ i p, ps !! i = Some p → fp_time p = after start (Z.of_nat i) step ∧
    (dval (lower p) <= dval (point p))%Q ∧ (dval (point p) <= dval (upper p))%Q
}.

Lemma forecast_point_ok p : (dval (lower p) <= dval (point p))%Q → (dval (point p) <= dval (upper p))%Q → forecast_point p = Ok p.
Proof. intros H1 H2. unfold forecast_point. rewrite (proj2 (dleb_true _ _) H1), (proj2 (dleb_true _ _) H2). done. Qed.

(** the points made one by one for the periods *)
Lemma points_ok (f : nat → result ForecastPoint) start periods step :
  (∀ i, ∃ p, f i = Ok p ∧ fp_time p = after start (Z.of_nat i) step ∧ (dval (lower p) <= dval (point p))%Q ∧ (dval (point p) <= dval (upper p))%Q) →
  ∃ ps, mapM_result f (seq 0 (Z.to_nat periods)) = Ok ps ∧ forecast_ok start periods step ps.
Proof.
  intros Hf. destruct (mapM_result_total f (seq 0 (Z.to_nat periods))) as (ps & Hps & Hall).
  { intros i _. destruct (Hf i) as (p & Hp & _). by exists p. }
  exists ps. split; [done|]. split; [by rewrite <- (Forall2_length _ _ _ Hall), length_seq|].
  intros i p Hi. destruct (Forall2_lookup_r _ _ _ _ _ Hall Hi) as (j & Hj & Hp). apply lookup_seq in Hj as [-> _]. simpl in Hp.
  destruct (Hf i) as (p' & Hp' & H). rewrite Hp in Hp'. by injection Hp' as ->.
Qed.

Lemma forecast_times start periods step ps : forecast_ok start periods step ps →
  map (λ p, us (fp_time p)) ps = map (λ i, us start + Z.of_nat i * step) (seq 0 (length ps)).
Proof.
  intros [_ Hp]. apply list_eq. intros i. rewrite !list_lookup_fmap. destruct (ps !! i) as [p|] eqn:E; simpl.
  - pose proof (lookup_lt_Some _ _ _ E). rewrite lookup_seq_lt by done. simpl. by destruct (Hp i p E) as [-> _].
  - apply lookup_ge_None in E. rewrite lookup_seq_ge by done. done.
Qed.

Lemma bundle_ok isoformat history start periods step version sig q ps : 0 < step → forecast_ok start periods step ps →
  (0 <= dval q <= 1)%Q → ∃ b, bundle_of isoformat history start periods step version sig q ps = Ok b ∧ points b = ps ∧
    quality b = q ∧ model_version b = version ∧ fallback b = None.
Proof.
  intros Hs Hp [Hq0 Hq1]. unfold bundle_of, forecast_bundle, mbind, result_bind, raise_if. cbn [quality points].
  rewrite (proj2 (dleb_true (dint 0) q) Hq0), (proj2 (dleb_true q (dint 1)) Hq1). cbn [andb negb]. cbv zeta.
  rewrite (forecast_times _ _ _ _ Hp). set (ts := map _ (seq 0 (length ps))).
  assert (StronglySorted Z.lt ts) as Hss.
  { unfold ts. clear -Hs. generalize 0%nat. induction (length ps) as [|n IH]; intros k; simpl; [constructor|]. constructor; [apply IH|].
    apply Forall_map, Forall_forall. intros i Hi%elem_of_seq. nia. }
  assert (ts = py_sorted Z.compare (remove_dups ts)) as <-.
  { rewrite remove_dups_id by (clear -Hss; induction Hss as [|x l _ IH Hx]; constructor; [|done]; intros Hin; rewrite Forall_forall in Hx; specialize (Hx _ Hin); lia).
    rewrite py_sorted_id; [done|]. clear -Hss. induction Hss as [|x l _ IH Hx]; constructor; [done|]. eapply Forall_impl; [exact Hx|].
    intros y Hy. unfold key_le, cmp_leb. rewrite (proj2 (Z.compare_lt_iff x y)); done. }
  rewrite bool_decide_eq_true_2 by done. eexists. split; [reflexivity|]. done.
Qed.

Lemma times_01_bounds n : 0 <= n → 0 <= times_01 n <= n.
Proof. intros Hn. apply bin_trunc_bound; [lia|lia|]. change (2 ^ 55) with 36028797018963968. lia. Qed.
Lemma times_09_nonneg n : 0 <= n → 0 <= times_09 n.
Proof. intros Hn. apply (bin_trunc_bound _ _ (2 * n)); [lia|lia|]. change (2 ^ 53) with 9007199254740992. lia. Qed.

Lemma persistence_ok isoformat history latest start periods step version sig :
  last history = Some latest → us (ov_time latest) < us start → 0 < step →
  ∃ b, persistence_forecast isoformat history start periods step version sig = Ok b ∧ forecast_ok start periods step (points b) ∧
    dval (quality b) == (7 # 10)%Q ∧ model_version b = version ∧ fallback b = None.
Proof.
  intros Hl Ht Hs. unfold persistence_forecast, mbind, result_bind, raise_if. rewrite Hl, (proj2 (Z.leb_gt _ _)) by done. cbv zeta.
  set (ordered := py_sorted dcompare (map ov_value history)). set (n := Z.of_nat (length ordered)).
  assert (1 <= n) as Hn.
  { unfold n, ordered. rewrite length_py_sorted, length_map. destruct history; [done|]. simpl. lia. }
  pose proof (times_01_bounds n ltac:(lia)). pose proof (times_09_nonneg n ltac:(lia)).
  assert (∀ k, 0 <= k < n → ∃ x, py_index ordered k = Some x) as Hidx.
  { intros k Hk. unfold py_index. rewrite (proj2 (Z.leb_le _ _)) by lia. destruct (lookup_lt_is_Some_2 ordered (Z.to_nat k)) as [x Hx]; [lia|]. by exists x. }
  destruct (Hidx (Z.max 0 (times_01 n - 1))) as [lo Hlo]; [lia|]. destruct (Hidx (Z.min (n - 1) (times_09 n))) as [hi Hhi]; [lia|].
  rewrite Hlo, Hhi. cbn [of_option]. set (pt := ov_value latest).
  destruct (points_ok (λ i, forecast_point (MkForecastPoint (after start (Z.of_nat i) step) pt (dmin lo pt) (dmax hi pt)
    [("p10", dmin lo pt); ("p50", pt); ("p90", dmax hi pt)])) start periods step) as (ps & Hps & Hok).
  { intros i. eexists. destruct (dmin_val lo pt) as (_ & Hm & _), (dmax_val hi pt) as (_ & Hx & _). rewrite forecast_point_ok by done. done. }
  rewrite Hps. destruct (bundle_ok isoformat history start periods step version sig (Dec 7 (-1)) ps Hs Hok) as (b & Hb & Hpb & Hq & Hv & Hf);
    [by vm_compute|]. exists b. by rewrite Hb, Hpb, Hq.
Qed.

Lemma list_spread v vs : (dval (list_min v vs) <= dval (list_max v vs))%Q.
Proof.
  destruct (py_max_from_spec dcompare v vs) as [_ [Hmax _]%Forall_cons].
  pose proof (cmp_reverse_order dcompare _) as Hrev. destruct (py_max_from_spec (λ a b, dcompare b a) v vs) as [_ [Hmin _]%Forall_cons].
  unfold list_min, list_max. transitivity (dval v); apply dleb_true; unfold dleb; by case_match.
Qed.

Lemma ddiv_fits a b q : ddiv a b = Ok q → fits 28 (dval q).
Proof.
  unfold ddiv, ddiv_ctx. destruct (coef b =? 0); [done|]. destruct (coef a =? 0); intros [= <-].
  - eapply fits_proper; [symmetry; apply dval_0|]. apply fits_0; lia.
  - apply dfix_fits_res. lia.
Qed.

Lemma seasonal_point_ok wall history latest t : ∃ p, seasonal_point wall history latest t = Ok p ∧ fp_time p = t ∧
  (dval (lower p) <= dval (point p))%Q ∧ (dval (point p) <= dval (upper p))%Q.
Proof.
  unfold seasonal_point. destruct (seasonal_values wall history latest t) as [v vs]. unfold mbind, result_bind.
  destruct (ddiv_ok 28 (dsum (v :: vs)) (dint (Z.of_nat (length (v :: vs))))) as [pt Hpt]; [simpl; lia|]. change (ddiv_ctx 28) with ddiv in Hpt. rewrite Hpt.
  pose proof (ddiv_fits _ _ _ Hpt) as Hf. set (spread := dsub (list_max v vs) (list_min v vs)).
  assert (0 <= dval spread)%Q as Hsp by (apply (dsub_nonneg 28 ltac:(lia)), list_spread).
  pose proof (dsub_decreases 28 ltac:(lia) pt spread Hf Hsp). pose proof (dadd_increases 28 ltac:(lia) pt spread Hf Hsp).
  rewrite forecast_point_ok by done. eexists. done.
Qed.

Lemma seasonal_ok isoformat wall history latest start periods step version sig :
  last history = Some latest → us (ov_time latest) < us start → 0 < step →
  ∃ b, seasonal_forecast isoformat wall history start periods step version sig = Ok b ∧ forecast_ok start periods step (points b) ∧
    dval (quality b) == (8 # 10)%Q ∧ model_version b = version ∧ fallback b = None.
Proof.
  intros Hl Ht Hs. unfold seasonal_forecast, mbind, result_bind, raise_if. rewrite Hl, (proj2 (Z.leb_gt _ _)) by done.
  destruct (points_ok (λ i, seasonal_point wall history (ov_value latest) (after start (Z.of_nat i) step)) start periods step) as (ps & Hps & Hok).
  { intros i. destruct (seasonal_point_ok wall history (ov_value latest) (after start (Z.of_nat i) step)) as (p & Hp & Hr). by exists p. }
  rewrite Hps. destruct (bundle_ok isoformat history start periods step version sig (Dec 8 (-1)) ps Hs Hok) as (b & Hb & Hpb & Hq & Hv & Hf);
    [by vm_compute|]. exists b. by rewrite Hb, Hpb, Hq.
Qed.

(** the model a request names, with the quality it claims and its version *)
Definition known_model (name : string) : option (Q * string) :=
  if bool_decide (name = "persistence") then Some (7 # 10, "persistence-1")%Q
  else if bool_decide (name = "seasonal") then Some (8 # 10, "seasonal-1")%Q else None.

(** The forecast service always answers a legal request, and only from the past.  For a positive horizon
    and a known model: if the latest training observation is not before the start, the request is refused;
    otherwise the answer has one point per period, at the start of each, with an interval that contains the
    point; it is the named model's when that model's quality reaches the minimum, and else the persistence
    model's, marked as a fallback. *)
Theorem generate_correct isoformat wall minimum history (latest : ObservedValue) start periods step sig preferred q version :
  1 <= periods → 0 < step → known_model preferred = Some (q, version) → last history = Some latest →
  let answer := generate isoformat wall minimum history start periods step sig preferred in
  if us start <=? us (ov_time latest) then ∃ m, answer = Err (ValueError m)
  else ∃ b, answer = Ok b ∧ forecast_ok start periods step (points b) ∧
    if Qle_bool (dval minimum) q then model_version b = version ∧ fallback b = None
    else model_version b = "persistence-fallback-1" ∧ fallback b = Some ("quality_below_" +:+ dec_str minimum).
Proof.
  intros Hp Hs Hm Hl answer. unfold answer, generate, mbind, result_bind, raise_if. rewrite (proj2 (Z.ltb_ge _ _)), (proj2 (Z.leb_gt step 0)) by lia. cbn [orb].
  destruct (us start <=? us (ov_time latest)) eqn:Et.
  - unfold known_model in Hm. case_bool_decide; [|case_bool_decide; [|done]];
      unfold persistence_forecast, seasonal_forecast, mbind, result_bind, raise_if; rewrite Hl, Et; by eexists.
  - apply Z.leb_gt in Et.
    assert (∃ b, (if bool_decide (preferred = "persistence") then persistence_forecast isoformat history start periods step "persistence-1" sig
      else if bool_decide (preferred = "seasonal") then seasonal_forecast isoformat wall history start periods step "seasonal-1" sig
      else Err (ValueError ("unsupported forecast model " +:+ preferred))) = Ok b ∧ forecast_ok start periods step (points b) ∧
      (dval (quality b) == q)%Q ∧ model_version b = version ∧ fallback b = None) as (b & -> & Hok & Hq & Hv & Hf).
    { unfold known_model in Hm. case_bool_decide; [injection Hm as <- <-; by eapply persistence_ok|].
      case_bool_decide; [injection Hm as <- <-; by eapply seasonal_ok|done]. }
    assert (Qle_bool (dval minimum) q = dleb minimum (quality b)) as ->.
    { apply eq_true_iff_eq. by rewrite Qle_bool_iff, dleb_true, Hq. }
    destruct (dleb minimum (quality b)); [by exists b|].
    destruct (persistence_ok isoformat history latest start periods step "persistence-fallback-1" sig Hl Et Hs) as (f & -> & Hokf & _ & Hvf & _).
    eexists. by split.
Qed.

Definition obs (t v : Z) : ObservedValue := MkObserved (DT t true) (dint v).
Definition sample_wall (d : datetime) : Z * Z := ((us d / hour) mod 24, (us d / 60000000) mod 60).

Lemma generate_correct_witness :
  ∃ b, generate (λ _, "") sample_wall (Dec 6 (-1)) [obs 0 4; obs hour 10; obs (24 * hour) 6] (DT (48 * hour) true) 2 hour "load" "seasonal" = Ok b ∧
    forecast_ok (DT (48 * hour) true) 2 hour (points b) ∧ map (λ p, dec_str (point p)) (points b) = ["5"; "10"] ∧ model_version b = "seasonal-1".
Proof.
  destruct (generate_correct (λ _, "") sample_wall (Dec 6 (-1)) [obs 0 4; obs hour 10; obs (24 * hour) 6] (obs (24 * hour) 6) (DT (48 * hour) true) 2 hour
    "load" "seasonal" (8 # 10)%Q "seasonal-1" ltac:(lia) ltac:(reflexivity) eq_refl eq_refl) as (b & Hb & Hok & Hv & _).
  exists b. split; [exact Hb|]. split; [exact Hok|]. split; [|exact Hv]. vm_compute in Hb. injection Hb as <-. vm_compute. reflexivity.
Defined.

(** Only the last observation is compared with the start: an observation of the future anywhere else in the
    history is used. *)
Example unsorted_history_leaks :
  (λ b, map (λ p, dec_str (point p)) (points b)) <$>
    seasonal_forecast (λ _, "") sample_wall [obs (48 * hour) 900; obs 0 4] (DT (24 * hour) true) 1 hour "seasonal-1" "load" = Ok ["452"].
Proof. vm_compute. reflexivity. Qed.

(** ** Backtests *)

Definition increasing_times (l : list ObservedValue) : Prop := StronglySorted (λ a b, us (ov_time a) < us (ov_time b)) l.

Lemma increasing_lookup l i j a b : increasing_times l → (i < j)%nat → l !! i = Some a → l !! j = Some b → us (ov_time a) < us (ov_time b).
Proof.
  intros Hs. revert i j. induction Hs as [|x l _ IH Hx]; intros i j Hij Ha Hb; [done|]. destruct j as [|j]; [lia|]. destruct i as [|i]; simpl in *.
  - injection Ha as ->. rewrite Forall_forall in Hx. apply Hx. by eapply list_elem_of_lookup_2.
  - eapply (IH i j); [lia|done..].
Qed.

Lemma backtest_fold_ok isoformat l i : increasing_times l → (1 <= i < length l)%nat →
  ∃ e c, backtest_fold isoformat l i = Ok (e, c) ∧ (0 <= dval e)%Q.
Proof.
  intros Hl Hi. unfold backtest_fold. destruct (lookup_lt_is_Some_2 l i) as [actual Ha]; [lia|]. rewrite Ha.
  destruct (lookup_lt_is_Some_2 l (i - 1)) as [latest Hb]; [lia|].
  destruct (persistence_ok isoformat (take i l) latest (ov_time actual) 1 hour "persistence-1" "unknown") as (b & Hf & Hok & _).
  - rewrite last_lookup, length_take, Nat.min_l by lia. rewrite lookup_take_lt by lia. by replace (Nat.pred i) with (i - 1)%nat by lia.
  - eapply (increasing_lookup l (i - 1) i); [done|lia|done..].
  - done.
  - unfold mbind, result_bind. rewrite Hf. destruct (points b) as [|f fs] eqn:Ef; [by apply fo_length in Hok|].
    eexists _, _. split; [reflexivity|]. unfold dabs. apply dfix_nonneg; [lia|]. apply dval_sign. simpl. lia.
Qed.

Lemma coverage_le a n q : 0 <= a <= n → 0 < n → ddiv (dint a) (dint n) = Ok q → (0 <= dval q <= 1)%Q.
Proof.
  intros Ha Hn Hq. assert (0 <= dval (dint a))%Q as Hd by (rewrite dval_dint; change 0%Q with (inject_Z 0); rewrite <- Zle_Qle; lia).
  split; [exact (ddiv_nonneg (dint a) (dint n) q Hn Hd Hq)|]. eapply (ddiv_le 28 ltac:(lia) (dint a) (dint n)); [exact Hn|exact Hd| |exact Hq|].
  - change 1%Q with (dval (dint 1)). by apply fits_dec.
  - rewrite !dval_dint, Qmult_1_l, <- Zle_Qle. lia.
Qed.

(** The rolling-origin backtest of observations in increasing time order, with at least one training
    observation, always succeeds: it makes one fold per observation after the training prefix, each forecast
    from the observations before it; the mean absolute error is not negative and the coverage lies between 0
    and 1. *)
Theorem backtest_bounds isoformat (l : list ObservedValue) (train : nat) : increasing_times l → (1 <= train < length l)%nat →
  ∃ r, rolling_origin_backtest isoformat l train = Ok r ∧ folds r = Z.of_nat (length l - train) ∧
    (0 <= dval (mae r))%Q ∧ (0 <= dval (interval_coverage r) <= 1)%Q.
Proof.
  intros Hl Ht. unfold rolling_origin_backtest, mbind, result_bind, raise_if. rewrite (proj2 (Nat.leb_gt _ _)) by lia.
  destruct (mapM_result_total (backtest_fold isoformat l) (seq train (length l - train))) as (fs & Hfs & Hall).
  { intros i Hi%elem_of_seq. destruct (backtest_fold_ok isoformat l i Hl ltac:(lia)) as (e & c & H & _). eauto. }
  rewrite Hfs. pose proof (Forall2_length _ _ _ Hall) as Hlen. rewrite length_seq in Hlen.
  destruct (ddiv_ok 28 (dsum (map fst fs)) (dint (Z.of_nat (length fs)))) as [m Hm]; [simpl; lia|].
  set (cov := length (base.filter (λ f, f.2 = true) fs)).
  destruct (ddiv_ok 28 (dint (Z.of_nat cov)) (dint (Z.of_nat (length fs)))) as [c Hc]; [simpl; lia|]. change (ddiv_ctx 28) with ddiv in *.
  rewrite Hm, Hc. eexists. split; [reflexivity|]. cbn [folds mae interval_coverage]. split_and!.
  - lia.
  - eapply ddiv_nonneg; [|apply dsum_nonneg_from|exact Hm]; [simpl; lia| |by rewrite dval_0].
    apply Forall_map, Forall_forall. intros f Hf. apply list_elem_of_lookup in Hf as [k Hk].
    destruct (Forall2_lookup_r _ _ _ _ _ Hall Hk) as (i & Hi & Hfi). apply lookup_seq in Hi as [-> Hi].
    destruct (backtest_fold_ok isoformat l (train + k) Hl ltac:(lia)) as (e & c' & H & He). rewrite Hfi in H. by injection H as ->.
  - eapply coverage_le; [|..|exact Hc]; [|lia]. pose proof (length_filter (λ f : dec * bool, f.2 = true) fs). unfold cov. lia.
  - eapply coverage_le; [|..|exact Hc]; [|lia]. pose proof (length_filter (λ f : dec * bool, f.2 = true) fs). unfold cov. lia.
Qed.

Lemma backtest_bounds_witness :
  ∃ r, rolling_origin_backtest (λ _, "") [obs 0 4; obs hour 10; obs (2 * hour) 6; obs (3 * hour) 7] 2 = Ok r ∧ folds r = 2 ∧
    (0 <= dval (interval_coverage r) <= 1)%Q ∧ dec_str (mae r) = "2.5".
Proof.
  destruct (backtest_bounds (λ _, "") [obs 0 4; obs hour 10; obs (2 * hour) 6; obs (3 * hour) 7] 2) as (r & Hr & Hf & _ & Hc);
    [repeat constructor; simpl; unfold hour; lia|simpl; lia|].
  exists r. split; [exact Hr|]. split; [exact Hf|]. split; [exact Hc|]. vm_compute in Hr. injection Hr as <-. vm_compute. reflexivity.
Defined.

(** ** Lag features *)

#[global] Instance observed_order_order : CmpOrder observed_order.
Proof. unfold observed_order. apply _. Qed.

Lemma sorted_increasing l : StronglySorted (key_le observed_order) l → NoDup (map (λ o, us (ov_time o)) l) → increasing_times l.
Proof.
  induction 1 as [|x l _ IH Hx]; simpl; [constructor|]. intros [Hni Hnd]%NoDup_cons. constructor; [by apply IH|].
  apply Forall_forall. intros y Hy. rewrite Forall_forall in Hx. specialize (Hx y Hy).
  assert (us (ov_time y) ∈ map (λ o, us (ov_time o)) l) as Hin by (apply list_elem_of_fmap; by exists y).
  unfold key_le, cmp_leb, observed_order, cmp_on in Hx. destruct (Z.compare_spec (us (ov_time x)) (us (ov_time y))) as [He|Hlt|Hgt]; [|lia|done].
  rewrite <- He in Hin. done.
Qed.

Lemma max_lag lags lag : lag ∈ lags → lag <= foldr Z.max 0 lags.
Proof. induction lags as [|x l IH]; simpl; [by intros ?%elem_of_nil|]. intros [->|H]%elem_of_cons; [lia|]. specialize (IH H). lia. Qed.

(** one row: the observation, and for every lag the one so many positions before, strictly earlier *)
Record feature_ok (ordered : list ObservedValue) (cutoff : datetime) (lag_steps : list Z) (k : nat) (r : FeatureRow) : Prop := {
  ft_target : ∃ o, ordered !! k = Some o ∧ fr_time r = ov_time o ∧ target r = ov_value o ∧ us (ov_time o) < us cutoff;
  ft_lags : Forall2 (λ lag v, ∃ p, ordered !! (k - Z.to_nat lag)%nat = Some p ∧ ov_value p = v ∧ us (ov_time p) < us (fr_time r)) lag_steps (lags r)
}.

Lemma feature_row_ok wall weekday ordered cutoff lag_steps k : increasing_times ordered →
  Forall (λ o, us (ov_time o) < us cutoff) ordered → Forall (λ lag, 1 <= lag <= Z.of_nat k) lag_steps → (k < length ordered)%nat →
  ∃ r, feature_row wall weekday ordered lag_steps k = Ok r ∧ feature_ok ordered cutoff lag_steps k r.
Proof.
  intros Hinc Hcut Hlags Hk. destruct (lookup_lt_is_Some_2 ordered k Hk) as [o Ho].
  assert (∀ j, 0 <= j → py_index ordered j = ordered !! Z.to_nat j) as Hidx.
  { intros j Hj. unfold py_index. by rewrite (proj2 (Z.leb_le _ _)) by lia. }
  destruct (mapM_result_total (λ lag, ov_value <$> of_option IndexError (py_index ordered (Z.of_nat k - lag))) lag_steps) as (ls & Hls & Hall).
  { intros lag Hin. rewrite Forall_forall in Hlags. specialize (Hlags lag Hin). rewrite Hidx by lia.
    destruct (lookup_lt_is_Some_2 ordered (Z.to_nat (Z.of_nat k - lag))) as [x Hx]; [lia|]. exists (ov_value x). by rewrite Hx. }
  unfold feature_row, mbind, result_bind. rewrite Hidx, Nat2Z.id, Ho by lia. cbn [of_option]. rewrite Hls. eexists. split; [reflexivity|].
  split; cbn [fr_time target lags].
  - exists o. split_and!; try done. rewrite Forall_forall in Hcut. apply Hcut. by eapply list_elem_of_lookup_2.
  - apply Forall2_same_length_lookup_2; [by eapply Forall2_length|]. intros i lag v Hl Hv.
    pose proof (Forall2_lookup_lr _ _ _ _ _ _ Hall Hl Hv) as Hr. simpl in Hr.
    rewrite Forall_lookup in Hlags. specialize (Hlags i lag Hl). rewrite Hidx in Hr by lia.
    replace (Z.to_nat (Z.of_nat k - lag)) with (k - Z.to_nat lag)%nat in Hr by lia.
    destruct (ordered !! (k - Z.to_nat lag)%nat) as [p|] eqn:Ep; [|done]. injection Hr as <-. exists p. split_and!; [done..|].
    eapply (increasing_lookup ordered (k - Z.to_nat lag) k); [done|lia|done..].
Qed.

(** Lag features never leak the future.  Any history is refused with a [ValueError], or gives one row for
    every observation, in time order, that has as many predecessors as the longest lag; the row's target is that
    observation, before the cutoff, and each lag is the value so many positions earlier, observed strictly before
    the target. *)
Theorem lag_features_correct wall weekday history cutoff lag_steps expected_step :
  let ordered := py_sorted observed_order history in
  let m := Z.to_nat (foldr Z.max 0 lag_steps) in
  match build_lag_features wall weekday history cutoff lag_steps expected_step with
  | Err e => ∃ msg, e = ValueError msg
  | Ok rows => length rows = (length history - m)%nat ∧ ∀ i r, rows !! i = Some r → feature_ok ordered cutoff lag_steps (m + i) r
  end.
Proof.
  intros ordered m. unfold build_lag_features, mbind, result_bind, raise_if.
  destruct (_ || _); [by eexists|]. destruct (existsb (λ s, s <? 1) lag_steps) eqn:Epos; [by eexists|]. cbv zeta. fold ordered.
  destruct (has_duplicates _) eqn:Edup; [by eexists|]. destruct (existsb (λ o, us cutoff <=? us (ov_time o)) ordered) eqn:Eleak; [by eexists|].
  match goal with |- context [if ?b then Err _ else Ok tt] => destruct b end; [by eexists|]. fold m.
  apply existsb_false in Epos. apply existsb_false in Eleak. apply has_duplicates_false in Edup.
  assert (increasing_times ordered) as Hinc by (apply sorted_increasing; [apply py_sorted_sorted, _|done]).
  assert (Forall (λ o, us (ov_time o) < us cutoff) ordered) as Hcut by (eapply Forall_impl; [exact Eleak|]; simpl; lia).
  assert (∀ k, (m <= k < length ordered)%nat → ∃ r, feature_row wall weekday ordered lag_steps k = Ok r ∧ feature_ok ordered cutoff lag_steps k r) as Hf.
  { intros k Hk. apply feature_row_ok; [done|done| |lia]. rewrite Forall_forall in Epos. apply Forall_forall. intros lag Hin.
    specialize (Epos lag Hin). simpl in Epos. pose proof (max_lag lag_steps lag Hin). unfold m in Hk. lia. }
  destruct (mapM_result_total (feature_row wall weekday ordered lag_steps) (seq m (length ordered - m))) as (rows & Hrows & Hall).
  { intros k Hk%elem_of_seq. destruct (Hf k ltac:(lia)) as (r & Hr & _). by exists r. }
  rewrite Hrows. split.
  - rewrite <- (Forall2_length _ _ _ Hall), length_seq. unfold ordered. by rewrite length_py_sorted.
  - intros i r Hi. destruct (Forall2_lookup_r _ _ _ _ _ Hall Hi) as (k & Hk & Hr). apply lookup_seq in Hk as [-> Hk].
    destruct (Hf (m + i)%nat ltac:(lia)) as (r' & Hr' & Hok). rewrite Hr in Hr'. by injection Hr' as ->.
Qed.

Example lag_features_sample :
  (λ rows, map (λ r, (us (fr_time r), map dec_str (lags r))) rows) <$>
    build_lag_features sample_wall (λ _, 0) [obs 7 30; obs 5 10; obs 6 20; obs 8 40] (DT 9 true) [1; 2] (Some 1)
  = Ok [(7, ["20"; "10"]); (8, ["30"; "20"])].
Proof. vm_compute. reflexivity. Qed.
