(* ===== verification/Mpc.v ===== *)
(** * Model-predictive control: [packages/mpc]

    [controller.py]: one cycle of the controller and its exported state; [state_estimator.py]: the
    comparison of planned and observed progress; [horizon.py], [stability.py], [fallback.py],
    [warm_start.py]: the partition of the horizon, the churn score, the fallback choice and the
    allocations a new search can reuse.  MpcRepository has [repository.py].

    Parameters: the clock of the optimizer's search ([expired]) and the content hash, as in Optimizer,
    and the text of a container. *)
From S2P Require Import Prelude PyDecimal PyValue PyText Domain Workloads Scheduling PlanDocument Optimizer.
From Stdlib Require Import QArith.
Local Open Scope Z_scope.

(** ** state_estimator.py *)

Record ObservedState := MkObserved {
  completed_jobs : gset string; running_progress : gmap string dec; available_gpus : Z; battery_soc : dec;
  grid_limit_kw : dec; data_quality : dec; observed_version : string
}.

Record StateDiff := MkStateDiff { removed_jobs : gset string; progress_errors : list (string * dec); material : bool }.

Definition progress_error (observed : ObservedState) (e : string * dec) : option (string * dec) :=
  match running_progress observed !! e.1 with
  | Some p => if dltb (Dec 1 (-2)) (dabs (dsub p e.2)) then Some (e.1, dsub p e.2) else None
  | None => None
  end.

Definition reconcile (planned_progress : list (string * dec)) (observed : ObservedState) : StateDiff :=
  let removed := list_to_set planned_progress.*1 ∖ dom (running_progress observed) ∖ completed_jobs observed in
  let errors := omap (progress_error observed) planned_progress in
  MkStateDiff removed errors (negb (bool_decide (removed = ∅)) || negb (bool_decide (length errors = 0%nat))).

(** ** horizon.py *)

Record HorizonPartition := MkHorizon { locked : list TimeSlot; controllable : list TimeSlot; forecast_only : list TimeSlot }.

Definition horizon_order : TimeSlot → TimeSlot → comparison :=
  cmp_then (cmp_on (λ s, us (starts_at s)) Z.compare) (cmp_on index Z.compare).

Definition partition_horizon (slots : list TimeSlot) (locked_count controllable_count : Z) : result HorizonPartition :=
  raise_if ((locked_count <? 0) || (controllable_count <? 1)) (ValueError "invalid MPC horizon sizes");;
  let ordered := py_sorted horizon_order slots in
  raise_if (has_duplicates (map index ordered)) (ValueError "MPC horizon contains duplicate slots");;
  let l := Z.to_nat locked_count in
  let c := Z.to_nat controllable_count in
  let controllable := take c (drop l ordered) in
  raise_if (bool_decide (length controllable = 0%nat)) (ValueError "MPC horizon has no controllable interval");;
  Ok (MkHorizon (take l ordered) controllable (drop (l + c) ordered)).

(** ** stability.py *)

Record StabilityScore := MkStability { changed_jobs : Z; total_jobs : Z; churn : dec; acceptable : bool }.

(** [{item.job_id: item.slot_indices for item in plan.allocations}] *)
Definition placements (p : SchedulePlan) : gmap string (list Z) :=
  foldl (λ m a, <[alloc_job a := slot_indices a]> m) ∅ (allocations p).

Definition score_stability (previous candidate : SchedulePlan) (maximum_churn : dec) : result StabilityScore :=
  raise_if (negb (dleb (dint 0) maximum_churn && dleb maximum_churn (dint 1))) (ValueError "maximum churn must be in [0,1]");;
  let before := placements previous in
  let after := placements candidate in
  let subjects := dom before ∪ dom after in
  let changed := Z.of_nat (size (base.filter (λ j, before !! j ≠ after !! j) subjects)) in
  c ← ddiv (dint changed) (dint (Z.max 1 (Z.of_nat (size subjects))));
  Ok (MkStability changed (Z.of_nat (size subjects)) c (dleb c maximum_churn)).

(** ** fallback.py *)

Record FallbackDecision := MkFallback {
  fb_mode : string; fb_plan : option SchedulePlan; automation_allowed : bool; fb_reason : string
}.

Definition select_fallback (last_safe_plan : option SchedulePlan) (data_quality_ok emergency_shedding_allowed : bool)
    : FallbackDecision :=
  match last_safe_plan, data_quality_ok with
  | Some p, true => MkFallback "last_safe" (Some p) true "solver unavailable"
  | _, _ =>
      if emergency_shedding_allowed then MkFallback "emergency_shed" None false "manual approval required"
      else MkFallback "hold" None false "no safe automatic fallback"
  end.

(** ** warm_start.py *)

Definition reusable_allocations (previous : SchedulePlan) (r : ScheduleInput) : list Allocation :=
  base.filter (λ a, alloc_job a ∈ map job_id (jobs r) ∧ Forall (λ i, i ∈ map index (slots r)) (slot_indices a))
    (allocations previous).

(** ** controller.py *)

Record MpcCycle := MkCycle {
  cycle_id : Z; started_at : datetime; observed_state : ObservedState; state_diff : StateDiff;
  previous_plan : option SchedulePlan; new_plan : SchedulePlan; current_allocations : list Allocation;
  fallback_status : option string; revision_reasons : list string
}.

Record MpcController := MkController {
  stability_penalty : dec; last_safe : option SchedulePlan; cycles : list MpcCycle; cycle_sequence : Z;
  executed_slots : gset Z
}.
Definition new_controller (penalty : dec) : MpcController := MkController penalty None [] 0 ∅.
Definition default_penalty : dec := Dec 1 (-2).

(** [{(item.job_id, item.slot_indices) for item in plan.allocations}] *)
Definition placement_set (p : SchedulePlan) : gset (string * list Z) :=
  list_to_set (map (λ a, (alloc_job a, slot_indices a)) (allocations p)).

Definition churn_of (left right : SchedulePlan) : result dec :=
  let l := placement_set left in
  let r := placement_set right in
  ddiv (dint (Z.of_nat (size ((l ∖ r) ∪ (r ∖ l))))) (dint (Z.max 1 (Z.of_nat (size (l ∪ r))))).

(** [min(slot.index for slot in slots if slot.index not in executed, default=None)] *)
Definition current_slot (executed : gset Z) (slots : list TimeSlot) : option Z :=
  match base.filter (λ i, i ∉ executed) (map index slots) with
  | [] => None
  | i :: l => Some (foldl Z.min i l)
  end.

Definition dispatch (plan : SchedulePlan) (current : option Z) : list Allocation :=
  match current with
  | None => []
  | Some i => map (λ a, MkAllocation (alloc_job a) [i] (alloc_gpus a) (reason_code a))
                (base.filter (λ a, i ∈ slot_indices a) (allocations plan))
  end.

(** The plan a cycle follows, its fallback status, the new last safe plan, and the reasons it adds. *)
Record choice := MkChoice {
  ch_plan : SchedulePlan; ch_fallback : option string; ch_safe : option SchedulePlan; ch_reasons : list string
}.

Definition choose_plan (previous candidate : option SchedulePlan) (diagnostics : list string) (material : bool)
    : result choice :=
  match candidate with
  | None =>
      match previous with
      | None => Err (RuntimeError "no feasible plan and no tested fallback")
      | Some p => Ok (MkChoice p (Some "last_safe_plan") previous diagnostics)
      end
  | Some plan =>
      c ← match previous with Some p => churn_of p plan | None => Ok (dint 0) end;
      if bool_decide (is_Some previous) && dltb (Dec 5 (-1)) c && negb material
      then Ok (MkChoice (default plan previous) (Some "stability_hold") previous ["PLAN_CHURN_LIMIT"])
      else Ok (MkChoice plan None (Some plan) ["OPTIMIZATION_RESULT"])
  end.

Section controller.
Context (expired : nat → bool) (content_hash : ScheduleInput → string).

Definition quality_blocked : OptimizationResult :=
  MkResult "quality_blocked" None [] "none" (dint 1) [] ["LOW_DATA_QUALITY"].

Definition controller_cycle (request : ScheduleInput) (observed : ObservedState) (started : datetime)
    (planned_progress : list (string * dec)) : M MpcController MpcCycle :=
  c ← mget;
  mguard (existsb (λ s, bool_decide (index s ∈ executed_slots c)) (slots request))
    (ValueError "already executed intervals cannot be rewritten");;
  let diff := reconcile planned_progress observed in
  found ← mlift (optimize expired content_hash request);
  let result := if dltb (data_quality observed) (Dec 6 (-1)) then quality_blocked else found in
  ch ← mlift (choose_plan (last_safe c) (opt_plan result) (opt_diagnostics result) (material diff));
  let current := current_slot (executed_slots c) (slots request) in
  let cycle := MkCycle (cycle_sequence c + 1) started observed diff (last_safe c) (ch_plan ch)
    (dispatch (ch_plan ch) current) (ch_fallback ch)
    ((if material diff then ["OBSERVED_STATE_DIVERGENCE"] else []) ++ ch_reasons ch) in
  mput (MkController (stability_penalty c) (ch_safe ch) (cycles c ++ [cycle]) (cycle_sequence c + 1)
    (match current with Some i => {[i]} ∪ executed_slots c | None => executed_slots c end));;
  mret cycle.

Definition export_state (c : MpcController) : gmap string pyval :=
  {[ "stability_penalty" := VStr (dec_str (stability_penalty c));
     "last_safe" := match last_safe c with Some p => VDict (plan_document p) | None => VNone end;
     "executed_slots" := VList (map VInt (py_sorted Z.compare (elements (executed_slots c))));
     "cycle_sequence" := VInt (cycle_sequence c) ]}.

Context (str_container : pyval → string).

Definition from_state (document : gmap string pyval) : result MpcController :=
  penalty ← PyText.py_decimal str_container (default (VStr "0.01") (document !! "stability_penalty"));
  plan ← match document !! "last_safe" with
         | Some (VDict p) => Some <$> parse_plan str_container false p
         | _ => Ok None
         end;
  executed ← parse_ints (default (VList []) (document !! "executed_slots"));
  sequence ← py_int (VStr (PyText.py_str str_container (default (VInt 0) (document !! "cycle_sequence"))));
  Ok (MkController penalty plan [] sequence (list_to_set executed)).
End controller.

(** ** One cycle *)

Lemma current_slot_spec executed ss : match current_slot executed ss with
  | None => ∀ s, s ∈ ss → index s ∈ executed
  | Some i => (i ∉ executed) ∧ (∃ s, s ∈ ss ∧ index s = i) ∧ ∀ s, s ∈ ss → index s ∉ executed → i <= index s
  end.
Proof.
  unfold current_slot. destruct (base.filter _ _) as [|i l] eqn:E.
  - intros s Hs. destruct (decide (index s ∈ executed)) as [|Hn]; [done|]. exfalso.
    assert (index s ∈ base.filter (λ i, i ∉ executed) (map index ss)) as Hin.
    { apply list_elem_of_filter. split; [done|]. by apply list_elem_of_fmap_2. }
    rewrite E in Hin. by apply elem_of_nil in Hin.
  - assert (∀ k a, foldl Z.min a k ∈ a :: k ∧ ∀ x, x ∈ a :: k → foldl Z.min a k <= x) as Hmin.
    { induction k as [|b k IH]; intros a; simpl.
      - split; [left|]. intros x Hx%list_elem_of_singleton. lia.
      - destruct (IH (Z.min a b)) as [H1 H2]. split.
        + apply elem_of_cons in H1 as [->|H1]; [|set_solver]. destruct (Z.min_spec a b) as [[_ ->]|[_ ->]]; set_solver.
        + intros x Hx. pose proof (H2 (Z.min a b) ltac:(left)) as Hm.
          apply elem_of_cons in Hx as [->|[->|Hx]%elem_of_cons]; [lia..|]. apply H2. by right. }
    destruct (Hmin l i) as [Hin Hle]. rewrite <- E in Hin, Hle. apply list_elem_of_filter in Hin as [Hn Hin].
    apply list_elem_of_fmap in Hin as (s & Hs & Hin). split_and!; [done|by exists s|].
    intros s' Hs' Hn'. apply Hle, list_elem_of_filter. split; [done|]. by apply list_elem_of_fmap_2.
Qed.

(** Which plan a cycle follows. *)
Inductive followed (previous : option SchedulePlan) (candidate : option SchedulePlan) (material : bool) : choice → Prop :=
| follows_new p rs : candidate = Some p → followed previous candidate material (MkChoice p None (Some p) rs)
| follows_safe p st rs : previous = Some p →
    (st = "last_safe_plan" ∧ candidate = None ∨
     st = "stability_hold" ∧ material = false ∧ ∃ q c, candidate = Some q ∧ churn_of p q = Ok c ∧ (1 # 2 < dval c)%Q) →
    followed previous candidate material (MkChoice p (Some st) previous rs).

Lemma choose_plan_spec previous candidate diagnostics material ch :
  choose_plan previous candidate diagnostics material = Ok ch → followed previous candidate material ch.
Proof.
  unfold choose_plan. munfold. destruct candidate as [q|].
  - destruct previous as [p|].
    + destruct (churn_of p q) as [c|] eqn:Ec; [|done]. if_case as E.
      * intros [= <-]. bprop. apply follows_safe; [done|]. right. split_and!; [done..|]. exists q, c. split_and!; [done..|].
        match goal with H : dltb _ _ = true |- _ => apply dltb_true in H; eapply Qle_lt_trans; [|exact H]; vm_compute; discriminate end.
      * intros [= <-]. by apply follows_new.
    + simpl. intros [= <-]. by apply follows_new.
  - destruct previous as [p|]; [|done]. intros [= <-]. apply follows_safe; [done|]. by left.
Qed.

Lemma controller_cycle_spec expired hash r ob st pp c :
  match controller_cycle expired hash r ob st pp c with
  | (c', Err _) => c' = c
  | (c', Ok cy) => ∃ o ch,
      (∀ s, s ∈ slots r → index s ∉ executed_slots c) ∧
      optimize expired hash r = Ok o ∧
      followed (last_safe c) (if dltb (data_quality ob) (Dec 6 (-1)) then None else opt_plan o)
        (material (reconcile pp ob)) ch ∧
      c' = MkController (stability_penalty c) (ch_safe ch) (cycles c ++ [cy]) (cycle_sequence c + 1)
        (match current_slot (executed_slots c) (slots r) with Some i => {[i]} ∪ executed_slots c | None => executed_slots c end) ∧
      cycle_id cy = cycle_sequence c + 1 ∧ previous_plan cy = last_safe c ∧ new_plan cy = ch_plan ch ∧
      fallback_status cy = ch_fallback ch ∧
      current_allocations cy = dispatch (ch_plan ch) (current_slot (executed_slots c) (slots r))
  end.
Proof.
  unfold controller_cycle. munfold. guard_case as E; [done|]. rewrite existsb_false, Forall_forall in E.
  destruct (optimize expired hash r) as [o|] eqn:Eo; [|done].
  destruct (choose_plan _ _ _ _) as [ch|] eqn:Ec; [|done]. exists o, ch. split_and!; try done.
  - intros s Hs. specialize (E s Hs). by bprop.
  - apply choose_plan_spec in Ec. by destruct (dltb (data_quality ob) (Dec 6 (-1))).
Qed.

(** A plan the optimizer returns passed its own validation. *)
Lemma optimize_validated expired hash r o p : optimize expired hash r = Ok o → opt_plan o = Some p → validate_plan r p = Ok tt.
Proof.
  unfold optimize. munfold. destruct (mapM_result _ _) as [options|]; [|done].
  destruct (omap _ _); [|by intros [= <-]].
  destruct (search _ _ _ _ _ _ _) as [ss|]; [|done]. destruct (best ss) as [[bc bch]|].
  - destruct (plan_energy _ _) as [e|]; [|done].
    match goal with |- context [validate_plan r ?q] => destruct (validate_plan r q) as [[]|] eqn:E; [|done] end.
    intros [= <-]. simpl. by intros [= <-].
  - intros [= <-]. by destruct (timed_out ss).
Qed.

Lemma elem_of_dispatch p cur a : a ∈ dispatch p cur ↔
  ∃ i b, cur = Some i ∧ b ∈ allocations p ∧ i ∈ slot_indices b ∧ a = MkAllocation (alloc_job b) [i] (alloc_gpus b) (reason_code b).
Proof.
  unfold dispatch. destruct cur as [i|].
  - rewrite list_elem_of_fmap. split.
    + intros (b & -> & [Hi Hb]%list_elem_of_filter). by exists i, b.
    + intros (? & b & [= <-] & Hb & Hi & ->). exists b. split; [done|]. by apply list_elem_of_filter.
  - split; [by intros ?%elem_of_nil|]. by intros (? & ? & ? & _).
Qed.

(** The controllers that cycles lead to, each with its own search clock. *)
Inductive mpc_reach (hash : ScheduleInput → string) : MpcController → Prop :=
| mpc_reach_new p : mpc_reach hash (new_controller p)
| mpc_reach_cycle c expired r ob st pp : mpc_reach hash c → mpc_reach hash (controller_cycle expired hash r ob st pp c).1.

(** What one recorded cycle promises, given the slots [executed] so far. *)
Record cycle_ok (executed : gset Z) (cy : MpcCycle) : Prop := {
  co_slot : ∃ i, Forall (λ a, slot_indices a = [i] ∧ i ∈ executed) (current_allocations cy);
  co_plan : Forall (λ a, ∃ b i, b ∈ allocations (new_plan cy) ∧ slot_indices a = [i] ∧ i ∈ slot_indices b ∧
    alloc_job b = alloc_job a ∧ alloc_gpus b = alloc_gpus a) (current_allocations cy);
  co_safe : match fallback_status cy with
            | None => ∃ r, validate_plan r (new_plan cy) = Ok tt
            | Some _ => previous_plan cy = Some (new_plan cy)
            end
}.

Definition same_slot (cy1 cy2 : MpcCycle) : Prop :=
  ∃ a b, a ∈ current_allocations cy1 ∧ b ∈ current_allocations cy2 ∧ slot_indices a = slot_indices b.

Record mpc_inv (c : MpcController) : Prop := {
  inv_sequence : cycle_sequence c = Z.of_nat (length (cycles c));
  inv_ids : map cycle_id (cycles c) = seqZ 1 (Z.of_nat (length (cycles c)));
  inv_cycles : Forall (cycle_ok (executed_slots c)) (cycles c);
  inv_once : ∀ i j cy1 cy2, cycles c !! i = Some cy1 → cycles c !! j = Some cy2 → i ≠ j → ¬ same_slot cy1 cy2;
  inv_safe : ∀ p, last_safe c = Some p → ∃ cy, cy ∈ cycles c ∧ fallback_status cy = None ∧ new_plan cy = p
}.

Lemma cycle_ok_mono X Y cy : X ⊆ Y → cycle_ok X cy → cycle_ok Y cy.
Proof.
  intros Hs [(i & H1) H2 H3]. split; [|done..]. exists i. eapply Forall_impl; [exact H1|]. intros a [? ?]. set_solver.
Qed.

Lemma cycle_step_ok expired hash r ob st pp c c' cy : controller_cycle expired hash r ob st pp c = (c', Ok cy) →
  cycle_ok (executed_slots c') cy ∧
  (∀ a, a ∈ current_allocations cy → ∃ i, slot_indices a = [i] ∧ i ∉ executed_slots c).
Proof.
  intros Hc. pose proof (controller_cycle_spec expired hash r ob st pp c) as Hsp. rewrite Hc in Hsp.
  destruct Hsp as (o & ch & Hnew & Ho & Hf & -> & _ & Hprev & Hplan & Hfb & Hcur). simpl.
  pose proof (current_slot_spec (executed_slots c) (slots r)) as Hs. set (cur := current_slot _ _) in *. split.
  - split.
    + exists (default 0 cur). rewrite Hcur, Forall_forall. intros a (i & b & E & _ & _ & ->)%elem_of_dispatch. rewrite E. simpl.
      split; [done|]. set_solver.
    + rewrite Hcur, Hplan, Forall_forall. intros a (i & b & E & Hb & Hi & ->)%elem_of_dispatch. by exists b, i.
    + rewrite Hfb, Hplan, Hprev. destruct Hf as [p rs Hcand|p s rs Hp _]; simpl; [|done]. exists r.
      destruct (dltb _ _); [done|]. by eapply optimize_validated.
  - intros a. rewrite Hcur. intros (i & b & E & _ & _ & ->)%elem_of_dispatch. exists i. split; [done|]. rewrite E in Hs. apply Hs.
Qed.

Lemma controller_cycle_inv expired hash r ob st pp c : mpc_inv c → mpc_inv (controller_cycle expired hash r ob st pp c).1.
Proof.
  intros [Hseq Hids Hcy Honce Hsafe]. pose proof (controller_cycle_spec expired hash r ob st pp c) as Hsp.
  pose proof (cycle_step_ok expired hash r ob st pp c) as Hst.
  destruct (controller_cycle expired hash r ob st pp c) as [c' [cy|e]]; [|by subst c'; split].
  destruct (Hst c' cy eq_refl) as [Hok Hfresh]. clear Hst.
  destruct Hsp as (o & ch & _ & _ & Hf & Hc' & Hid & _ & Hplan & Hfb & _).
  assert (executed_slots c ⊆ executed_slots c') as Hmono by (rewrite Hc'; simpl; case_match; set_solver).
  assert (cycles c' = cycles c ++ [cy]) as Hcs by by rewrite Hc'.
  assert (∀ k cy', cycles c !! k = Some cy' → ¬ same_slot cy' cy ∧ ¬ same_slot cy cy') as Hnew.
  { intros k cy' Hk. rewrite Forall_forall in Hcy. destruct (co_slot _ _ (Hcy cy' (list_elem_of_lookup_2 _ _ _ Hk))) as (i & Hi).
    rewrite Forall_forall in Hi. split; intros (a & b & Ha & Hb & Hab);
      [destruct (Hfresh b Hb) as (j & Hj & Hn); destruct (Hi a Ha)|destruct (Hfresh a Ha) as (j & Hj & Hn); destruct (Hi b Hb)];
      apply Hn; congruence. }
  simpl. split.
  - rewrite Hcs, length_app, Hc'. simpl. lia.
  - rewrite Hcs, map_app, Hids, length_app, Nat2Z.inj_add, seqZ_app by (simpl; lia).
    change (Z.of_nat (length [cy])) with 1. rewrite (seqZ_cons _ 1), (seqZ_nil _ (Z.pred 1)) by lia. simpl. rewrite Hid, Hseq. do 2 f_equal. lia.
  - rewrite Hcs, Forall_app. split; [|by constructor]. eapply Forall_impl; [exact Hcy|]. intros x. by apply cycle_ok_mono.
  - intros i j cy1 cy2. rewrite Hcs. intros H1 H2 Hne.
    apply lookup_app_Some in H1 as [H1|[Hl1 H1]], H2 as [H2|[Hl2 H2]].
    + by eapply Honce.
    + apply list_lookup_singleton_Some in H2 as [_ <-]. by apply (Hnew i cy1).
    + apply list_lookup_singleton_Some in H1 as [_ <-]. by apply (Hnew j cy2).
    + apply list_lookup_singleton_Some in H1 as [? _], H2 as [? _]. lia.
  - intros p. rewrite Hcs, Hc'. simpl. destruct Hf as [q rs _|q s rs Hq _]; simpl in *.
    + intros [= <-]. exists cy. set_solver.
    + intros Hp. destruct (Hsafe p Hp) as (cy' & ? & ? & ?). exists cy'. set_solver.
Qed.

Lemma mpc_reach_inv hash c : mpc_reach hash c → mpc_inv c.
Proof.
  induction 1; [|by apply controller_cycle_inv]. split; simpl; [done..|constructor|done|done].
Qed.


(** What a cycle does.  It fails and changes nothing when one of the requested slots was already
    executed, or when there is neither a plan nor a fallback.  Otherwise it marks the earliest requested
    slot as executed and dispatches, for that slot, the plan it follows: the optimizer's plan, validated
    for this request, when the data quality is at least 0.6 and the plan keeps at least half of the
    placements (or the observed state diverged); else the last safe plan, with the reason. *)
Theorem mpc_cycle_correct expired hash r ob st pp c :
  match controller_cycle expired hash r ob st pp c with
  | (c', Err _) => c' = c
  | (c', Ok cy) =>
      (∀ s, s ∈ slots r → index s ∉ executed_slots c) ∧
      (∀ i, i ∈ executed_slots c' ↔ i ∈ executed_slots c ∨
        (∃ s, s ∈ slots r ∧ index s = i) ∧ ∀ s, s ∈ slots r → i <= index s) ∧
      (∀ a, a ∈ current_allocations cy ↔ ∃ i b, i ∈ executed_slots c' ∖ executed_slots c ∧
        b ∈ allocations (new_plan cy) ∧ i ∈ slot_indices b ∧ a = MkAllocation (alloc_job b) [i] (alloc_gpus b) (reason_code b)) ∧
      ((fallback_status cy = None ∧ (6 # 10 <= dval (data_quality ob))%Q ∧ validate_plan r (new_plan cy) = Ok tt ∧
        last_safe c' = Some (new_plan cy)) ∨
       (last_safe c = Some (new_plan cy) ∧ last_safe c' = last_safe c ∧
        (fallback_status cy = Some "last_safe_plan" ∨
         fallback_status cy = Some "stability_hold" ∧ material (reconcile pp ob) = false)))
  end.
Proof.
  pose proof (controller_cycle_spec expired hash r ob st pp c) as Hsp.
  destruct (controller_cycle expired hash r ob st pp c) as [c' [cy|e]]; [|done].
  destruct Hsp as (o & ch & Hnew & Ho & Hf & -> & _ & _ & Hplan & Hfb & Hcur). split; [done|].
  pose proof (current_slot_spec (executed_slots c) (slots r)) as Hs. set (cur := current_slot _ _) in *. simpl.
  assert (∀ i, cur = Some i ↔ (∃ s, s ∈ slots r ∧ index s = i) ∧ ∀ s, s ∈ slots r → i <= index s) as Hmin.
  { intros i. destruct cur as [j|].
    - destruct Hs as (_ & (s & Hsj & Hj) & Hle). split.
      + intros [= <-]. split; [by exists s|]. auto.
      + intros [(s' & Hs' & Hi) Hle']. f_equal. apply Z.le_antisymm; [rewrite <- Hi; auto|rewrite <- Hj; auto].
    - split; [done|]. intros [(s & Hin & _) _]. by destruct (Hnew s Hin (Hs s Hin)). }
  split_and!.
  - intros i. rewrite <- Hmin. destruct cur; set_solver.
  - intros a. rewrite Hcur, elem_of_dispatch, Hplan. split; intros (i & b & Hi & ?); exists i, b; (split; [|done]).
    + rewrite Hi. rewrite Hi in Hs. set_solver.
    + destruct cur; set_solver.
  - rewrite Hplan, Hfb. destruct Hf as [p rs Hc|p s rs Hp Hw]; simpl.
    + left. destruct (dltb (data_quality ob) (Dec 6 (-1))) eqn:E; [done|]. apply dltb_false in E. split_and!; [done| |by eapply optimize_validated|done].
      etransitivity; [|exact E]. vm_compute. discriminate.
    + right. split_and!; [done..|]. naive_solver.
Qed.

(** ** The exported state *)

Definition forget_cycles (c : MpcController) : MpcController :=
  MkController (stability_penalty c) (last_safe c) [] (cycle_sequence c) (executed_slots c).

Lemma transport_fields tr c : transport tr →
  let doc := tr <$> export_state c in
  doc !! "stability_penalty" = Some (tr (VStr (dec_str (stability_penalty c)))) ∧
  doc !! "last_safe" = Some (tr (match last_safe c with Some p => VDict (plan_document p) | None => VNone end)) ∧
  doc !! "executed_slots" = Some (tr (VList (map VInt (py_sorted Z.compare (elements (executed_slots c)))))) ∧
  doc !! "cycle_sequence" = Some (tr (VInt (cycle_sequence c))).
Proof. intros _ doc. unfold doc, export_state. rewrite !lookup_fmap. by simplify_map_eq. Qed.

(** The state survives the store: kept as it is or as JSON, and with the fields the store adds. *)
Lemma state_roundtrip str_container tr c extra : transport tr → dom (export_state c) ## dom extra →
  from_state str_container (extra ∪ (tr <$> export_state c)) = Ok (forget_cycles c).
Proof.
  intros Htr Hdis. unfold from_state.
  assert (∀ k, k ∈ dom (export_state c) → (extra ∪ (tr <$> export_state c)) !! k = (tr <$> export_state c) !! k) as Hl.
  { intros k Hk. apply lookup_union_r. apply not_elem_of_dom. set_solver. }
  destruct (transport_fields tr c Htr) as (H1 & H2 & H3 & H4).
  rewrite !Hl by (apply elem_of_dom; unfold export_state; by simplify_map_eq). rewrite H1, H2, H3, H4. simpl default.
  pose proof (transport_ints tr (py_sorted Z.compare (elements (executed_slots c))) Htr) as Hi. unfold mbind, result_bind.
  assert (PyText.py_decimal str_container (tr (VStr (dec_str (stability_penalty c)))) = Ok (stability_penalty c)) as ->.
  { destruct Htr; apply py_decimal_str. }
  assert (match Some (tr (match last_safe c with Some p => VDict (plan_document p) | None => VNone end)) with
          | Some (VDict p) => Some <$> parse_plan str_container false p | _ => Ok None end = Ok (last_safe c)) as ->.
  { destruct (last_safe c) as [p|]; [|by destruct Htr]. pose proof (plan_roundtrip str_container tr false p Htr) as Hp.
    destruct Htr.
    - rewrite transported_id in Hp. unfold id. by rewrite Hp.
    - change (json_safe_val (VDict (plan_document p))) with (VDict (transported json_safe_val (plan_document p))). cbv beta iota. by rewrite Hp. }
  rewrite Hi. assert (PyText.py_str str_container (tr (VInt (cycle_sequence c))) = int_str (cycle_sequence c)) as -> by by destruct Htr.
  rewrite int_of_int_str. unfold forget_cycles. do 2 f_equal. apply set_eq. intros i.
  rewrite elem_of_list_to_set, elem_of_py_sorted. set_solver.
Qed.

(** ** Horizon and stability *)

#[global] Instance horizon_order_order : CmpOrder horizon_order.
Proof. unfold horizon_order. apply _. Qed.

(** The horizon partition: with valid sizes and distinct slot indices, the locked, controllable and
    forecast-only parts are the slots in time order cut in that order, the first two of the requested
    sizes as far as the slots go; it fails when the sizes are invalid, an index repeats or nothing is
    left to control. *)
Theorem partition_horizon_correct ss l c :
  match partition_horizon ss l c with
  | Ok h => 0 <= l ∧ 1 <= c ∧ NoDup (map index ss) ∧
      locked h ++ controllable h ++ forecast_only h = py_sorted horizon_order ss ∧
      length (locked h) = Z.to_nat l ∧
      Z.of_nat (length (controllable h)) = Z.min c (Z.of_nat (length ss) - l) ∧ controllable h ≠ []
  | Err _ => l < 0 ∨ c < 1 ∨ ¬ NoDup (map index ss) ∨ Z.of_nat (length ss) <= l
  end.
Proof.
  unfold partition_horizon. munfold. guard_case as E1.
  { bprop. destruct E1; bprop; auto. }
  bprop. set (o := py_sorted horizon_order ss).
  assert (has_duplicates (map index o) = false ↔ NoDup (map index ss)) as Hd.
  { rewrite has_duplicates_false. unfold o. by rewrite (Permutation_map index (py_sorted_perm horizon_order ss)). }
  assert (length o = length ss) as Hlen by apply length_py_sorted.
  guard_case as E2.
  { right; right; left. intros Hn%Hd. congruence. }
  guard_case as E3; bprop.
  - right; right; right. rewrite length_take, length_drop in E3. lia.
  - rewrite length_take, length_drop in E3. split_and!; [done..|by apply Hd| | | |].
    + rewrite <- drop_drop, (take_drop (Z.to_nat c)), take_drop. done.
    + rewrite length_take. lia.
    + rewrite length_take, length_drop. lia.
    + intros E. apply (f_equal length) in E. rewrite length_take, length_drop in E. simpl in E. lia.
Qed.

(** ** Concrete runs *)

Definition good_observation (quality : dec) : ObservedState := MkObserved ∅ ∅ 8 (dint 1) (dint 100) quality "v1".

Definition after_first_cycle : MpcController :=
  (controller_cycle (λ _, false) (λ _, "h") sample_input (good_observation (dint 1)) (DT 0 true) [] (new_controller default_penalty)).1.


(** Slot 0 is executed, so the next request starts at slot 1; the optimizer then looks slots up by their
    position in the request, not by their index, and fails. *)
Example rolling_horizon_fails :
  (controller_cycle (λ _, false) (λ _, "h")
     (MkScheduleInput (jobs sample_input) [sample_slot 1 20; sample_slot 2 30] 1 "f2" "none")
     (good_observation (dint 1)) (DT 3600000000 true) [] after_first_cycle).2 = Err IndexError.
Proof. vm_compute. reflexivity. Qed.

(** In the next interval only slot 1 is left, with room for one GPU, and the data quality is low: the
    controller repeats the last safe plan and dispatches three GPUs there. *)
Definition degraded_request : ScheduleInput :=
  MkScheduleInput (jobs sample_input) [MkTimeSlot 1 (DT 3600000000 true) (dint 1) 1 (dint 100) (dint 0) (dint 0)] 1 "f2" "none".

Example fallback_ignores_capacity :
  match (controller_cycle (λ _, false) (λ _, "h") degraded_request (good_observation (Dec 5 (-1))) (DT 0 true) [] after_first_cycle).2 with
  | Ok cy => fallback_status cy = Some "last_safe_plan" ∧
      map gpu_capacity (slots degraded_request) = [1] ∧ map alloc_gpus (current_allocations cy) = [3]
  | Err _ => False
  end.
Proof. vm_compute. done. Qed.
