(* ===== verification/MpcRepository.v ===== *)
(** * MPC controllers in the store: [packages/mpc/repository.py]

    [MpcRepository] keeps a controller as a resource of the store: a cycle reads the resource, runs the
    controller on the state it holds, writes the new state with If-Match on the etag it read, and records
    the cycle.  Proved against the interface [StoreLaws], so for both stores.  [repo_step] interleaves the
    reads and writes of any number of callers; a read and the cycle computed from it are one step, since
    the cycle touches nothing shared.  The document of a recorded cycle is the parameter
    [cycle_document]: its sets and datetimes have no JSON form of their own. *)
From S2P Require Import Prelude PyDecimal PyValue PyText Domain Scheduling PlanDocument Optimizer Versions Store Mpc.
From stdpp Require Import relations.
Local Open Scope Z_scope.

Definition state_kind : string := "mpc_controller_state".

Section repository.
Context {S : Type} (api : store_api pyval S).
Context (hash : ScheduleInput → string) (str_container : pyval → string) (cycle_document : MpcCycle → gmap string pyval).

Definition repo_create (now : Z) (controller_id tenant_id : string) (penalty : dec) (key : string)
    : M S (string * Z * string) :=
  r ← api_put api now (MkPut state_kind controller_id tenant_id (export_state (new_controller penalty))
        ("mpc-create:" +:+ key) None);
  mret (controller_id, version r, etag r).

(** The put of the new state *)
Definition state_put (controller_id tenant_id key tag : string) (c : MpcController) : put_request pyval :=
  MkPut state_kind controller_id tenant_id (export_state c) ("mpc-state:" +:+ key) (Some tag).

(** The put of the record of a cycle *)
Definition cycle_put (controller_id tenant_id key : string) (cy : MpcCycle) : put_request pyval :=
  MkPut "mpc_cycle" (controller_id +:+ "-" +:+ int_str (cycle_id cy)) tenant_id (cycle_document cy)
    ("mpc-cycle:" +:+ key) None.

Definition repo_get (k : rkey) : M S (StoredResource pyval) := λ s, (s, api_get api k s).

(** The resource of the controller, created when it does not exist *)
Definition repo_open (now : Z) (controller_id tenant_id : string) : M S (StoredResource pyval) := λ s,
  match api_get api (tenant_id, state_kind, controller_id) s with
  | Err (KeyError _) =>
      (repo_create now controller_id tenant_id default_penalty ("implicit-" +:+ controller_id);;
       repo_get (tenant_id, state_kind, controller_id)) s
  | r => (s, r)
  end.

Definition repo_cycle (expired : nat → bool) (now : Z) (controller_id tenant_id : string) (request : ScheduleInput)
    (observed : ObservedState) (started : datetime) (key : string) : M S MpcCycle :=
  resource ← repo_open now controller_id tenant_id;
  controller ← mlift (from_state str_container (body resource));
  let '(controller', outcome) := controller_cycle expired hash request observed started [] controller in
  cycle ← mlift outcome;
  api_put api now (state_put controller_id tenant_id key (etag resource) controller');;
  api_put api now (cycle_put controller_id tenant_id key cycle);;
  mret cycle.

(** ** Interleavings *)

(** A caller that has read the resource with this etag and computed its cycle *)
Record flight := MkFlight {
  fl_id : string; fl_tenant : string; fl_key : string; fl_etag : string; fl_after : MpcController; fl_cycle : MpcCycle
}.

Inductive repo_step : S * list flight → S * list flight → Prop :=
| step_create s fs now id tenant penalty key :
    repo_step (s, fs) ((repo_create now id tenant penalty key s).1, fs)
| step_read s fs id tenant key r c expired request observed started c' cy :
    api_get api (tenant, state_kind, id) s = Ok r → from_state str_container (body r) = Ok c →
    controller_cycle expired hash request observed started [] c = (c', Ok cy) →
    repo_step (s, fs) (s, MkFlight id tenant key (etag r) c' cy :: fs)
| step_commit s fs1 f fs2 now :
    repo_step (s, fs1 ++ f :: fs2)
      ((api_put api now (state_put (fl_id f) (fl_tenant f) (fl_key f) (fl_etag f) (fl_after f)) s).1, fs1 ++ fs2)
| step_other s fs now q : put_kind q ≠ state_kind → repo_step (s, fs) ((api_put api now q s).1, fs).

(** One version follows from another by one cycle. *)
Definition cycle_from (c0 c1 : MpcController) : Prop :=
  ∃ expired request observed started c' cy,
    controller_cycle expired hash request observed started [] c0 = (c', Ok cy) ∧ c1 = forget_cycles c'.

(** A history of controller states: the first is new, each other one cycle after the one before. *)
Definition controller_chain (l : list (StoredResource pyval)) : Prop :=
  ∃ cs, Forall2 (λ r c, from_state str_container (body r) = Ok c) l cs ∧
    (∀ c, cs !! 0%nat = Some c → ∃ p, c = new_controller p) ∧
    ∀ i c0 c1, cs !! i = Some c0 → cs !! (i + 1)%nat = Some c1 → cycle_from c0 c1.

(** ** Invariant *)

Context (inv : S → Prop) `{!StoreLaws api inv}.
Context (tr : pyval → pyval) (Htr : transport tr).
Context (Hstored : ∀ q, api_stored api q = <["id" := VStr (put_id q)]> (tr <$> put_body q)).
Context (Htags : ∀ t k v v' b b', api_tag api t k v b = api_tag api t k v' b' → v = v').

Definition flight_ok (s : S) (f : flight) : Prop :=
  ∃ r c expired request observed started,
    r ∈ api_history api (fl_tenant f, state_kind, fl_id f) s ∧ etag r = fl_etag f ∧
    from_state str_container (body r) = Ok c ∧
    controller_cycle expired hash request observed started [] c = (fl_after f, Ok (fl_cycle f)).

Record repo_inv (x : S * list flight) : Prop := {
  ri_store : inv x.1;
  ri_chain : ∀ t id, controller_chain (api_history api (t, state_kind, id) x.1);
  ri_tagged : ∀ k, tagged api k (api_history api k x.1);
  ri_flights : Forall (flight_ok x.1) x.2
}.

(** What a stored controller state decodes to *)
Lemma stored_state q c : put_body q = export_state c →
  from_state str_container (api_stored api q) = Ok (forget_cycles c).
Proof.
  intros Hb. rewrite Hstored, Hb.
  assert (<["id" := VStr (put_id q)]> (tr <$> export_state c) = {["id" := VStr (put_id q)]} ∪ (tr <$> export_state c)) as ->
    by apply insert_union_singleton_l.
  apply state_roundtrip; [done|]. rewrite dom_singleton_L. apply disjoint_singleton_r. rewrite not_elem_of_dom.
  unfold export_state. by simplify_map_eq.
Qed.

Lemma flight_mono s s' f : (∀ k r, r ∈ api_history api k s → r ∈ api_history api k s') → flight_ok s f → flight_ok s' f.
Proof. intros Hm (r & c & e & rq & ob & st & Hr & H). exists r, c, e, rq, ob, st. split; [by apply Hm|done]. Qed.

Lemma chain_snoc l r p c0 c1 : controller_chain l → last l = Some p → from_state str_container (body p) = Ok c0 →
  from_state str_container (body r) = Ok c1 → cycle_from c0 c1 → controller_chain (l ++ [r]).
Proof.
  intros (cs & Hf & H0 & Hs) Hl Hp Hr Hc. exists (cs ++ [c1]). split_and!.
  - apply Forall2_app; [done|]. by repeat constructor.
  - intros c. destruct cs as [|c2 cs]; [|by apply H0]. apply Forall2_nil_inv_r in Hf as ->. done.
  - intros i a b Ha Hb. assert (length cs = length l) as Hlen by (symmetry; by eapply Forall2_length).
    destruct (decide ((i + 1 < length cs)%nat)) as [Hi|Hi].
    + rewrite lookup_app_l in Ha, Hb by lia. by eapply Hs.
    + pose proof (lookup_lt_Some _ _ _ Hb) as Hlt. rewrite length_app in Hlt. simpl in Hlt.
      rewrite lookup_app_r in Hb by lia. replace (i + 1 - length cs)%nat with 0%nat in Hb by lia. injection Hb as <-.
      rewrite lookup_app_l in Ha by lia. rewrite last_lookup in Hl. replace (pred (length l)) with i in Hl by lia.
      destruct (Forall2_lookup_l _ _ _ _ _ Hf Hl) as (c & Hc' & Hd). congruence.
Qed.

Lemma chain_first r p : from_state str_container (body r) = Ok (new_controller p) → controller_chain [r].
Proof.
  intros Hr. exists [new_controller p]. split_and!; [by repeat constructor| |].
  - intros c [= <-]. by exists p.
  - intros [|i] c0 c1 _; [done|]. by destruct i.
Qed.

(** A put that is not one of the controller's keeps all chains. *)
Lemma chains_frame q s s' : (∀ k, api_history api k s' = api_history api k s) ∨ (∃ r, appended api q s s' r) →
  (∀ r t id, appended api q s s' r → put_target q = (t, state_kind, id) →
     controller_chain (api_history api (t, state_kind, id) s ++ [r])) →
  (∀ t id, controller_chain (api_history api (t, state_kind, id) s)) →
  ∀ t id, controller_chain (api_history api (t, state_kind, id) s').
Proof.
  intros [H|[r H]] Hnew Hc t id; [by rewrite H|]. rewrite (ap_history _ _ _ _ _ H). case_decide as Hk; [|by rewrite app_nil_r].
  by apply Hnew.
Qed.

Lemma repo_step_inv x y : repo_step x y → repo_inv x → repo_inv y.
Proof using StoreLaws0 Htr Hstored Htags.
  intros Hstep [Hi Hch Htg Hfl].
  destruct Hstep as [s fs now id t penalty key|s fs id t key r c ex rq ob st c' cy Hg Hd Hcy|s fs1 f fs2 now|s fs now q Hq]; simpl in *.
  - unfold repo_create. munfold. set (q := MkPut state_kind id t _ _ None).
    destruct (put_cases api inv now q s Hi) as [Hi' Hp]. destruct (api_put api now q s) as [s' res]. simpl in *.
    assert (repo_inv (s', fs)); [|by destruct res]. split; simpl; [done| |by eapply (put_tagged api)|].
    + eapply chains_frame; [done| |done]. intros r t' id' Ha [= <- <-].
      destruct (api_history api (t, state_kind, id) s) as [|x l] eqn:El.
      * simpl. eapply (chain_first r penalty). rewrite (ap_body _ _ _ _ _ Ha). by apply (stored_state q (new_controller penalty)).
      * exfalso. destruct (last_is_Some (x :: l)) as [_ Hls]. destruct Hls as [p Hp']; [done|].
        pose proof (ap_match _ _ _ _ _ Ha p) as Hm. simpl in Hm. unfold put_target in Hm. simpl in Hm. rewrite El in Hm. by apply Hm in Hp'.
    + eapply Forall_impl; [exact Hfl|]. intros f. by apply flight_mono, (put_grows api q).
  - split; [done..|]. constructor; [|done]. exists r, c, ex, rq, ob, st. split_and!; try done. simpl.
    destruct (sl_reads s (t, state_kind, id) Hi) as [_ _ Hget _]. rewrite Hg in Hget.
    destruct (last _) as [r'|] eqn:El; [|done]. injection Hget as ->. by apply last_Some_elem_of.
  - apply Forall_app in Hfl as [Hf1 [Hf Hf2]%Forall_cons]. set (q := state_put _ _ _ _ _).
    destruct (put_cases api inv now q s Hi) as [Hi' Hp]. destruct (api_put api now q s) as [s' res]. simpl in *.
    split; simpl; [done| |by eapply (put_tagged api)|].
    + eapply chains_frame; [done| |done]. intros r t' id' Ha [= <- <-].
      destruct Hf as (r0 & c0 & ex & rq & ob & st & Hr0 & Het & Hdec & Hcyc).
      destruct (last (api_history api (fl_tenant f, state_kind, fl_id f) s)) as [p|] eqn:El.
      * pose proof (ap_match _ _ _ _ _ Ha p El) as [= Hm]. rewrite <- Het in Hm.
        assert (r0 = p) as ->.
        { apply (same_etag api inv Htags s (fl_tenant f, state_kind, fl_id f)); [done|apply Htg|done| |done]. by apply last_Some_elem_of. }
        eapply chain_snoc; [done|done|done| |].
        -- rewrite (ap_body _ _ _ _ _ Ha). by apply (stored_state q (fl_after f)).
        -- by exists ex, rq, ob, st, (fl_after f), (fl_cycle f).
      * apply last_None in El. rewrite El in Hr0. by apply elem_of_nil in Hr0.
    + apply Forall_app. split; (eapply Forall_impl; [eassumption|]; intros g; by apply flight_mono, (put_grows api q)).
  - destruct (put_cases api inv now q s Hi) as [Hi' Hp]. destruct (api_put api now q s) as [s' res]. simpl in *.
    split; simpl; [done| |by eapply (put_tagged api)|].
    + eapply chains_frame; [done| |done]. intros r t id _ Ht. by destruct Hq; injection Ht.
    + eapply Forall_impl; [exact Hfl|]. intros f. by apply flight_mono, (put_grows api q).
Qed.

Lemma cycle_from_spec c0 c1 : cycle_from c0 c1 →
  cycle_sequence c1 = cycle_sequence c0 + 1 ∧ executed_slots c0 ⊆ executed_slots c1.
Proof.
  intros (ex & rq & ob & st & c' & cy & Hc & ->). pose proof (controller_cycle_spec ex hash rq ob st [] c0) as H. rewrite Hc in H.
  destruct H as (o & ch & _ & _ & _ & -> & _). simpl. split; [done|]. case_match; set_solver.
Qed.

Lemma chain_numbers (cs : list MpcController) : (∀ c, cs !! 0%nat = Some c → ∃ p, c = new_controller p) →
  (∀ i c0 c1, cs !! i = Some c0 → cs !! (i + 1)%nat = Some c1 → cycle_from c0 c1) →
  ∀ i c, cs !! i = Some c → cycle_sequence c = Z.of_nat i.
Proof.
  intros H0 Hs i. induction i as [|i IH]; intros c Hc.
  - by destruct (H0 c Hc) as [p ->].
  - destruct (cs !! i) as [c0|] eqn:E; [|apply lookup_ge_None in E; apply lookup_lt_Some in Hc; lia].
    destruct (cycle_from_spec c0 c) as [-> _]; [eapply Hs; [done|]; by rewrite Nat.add_1_r|]. rewrite (IH c0) by done. lia.
Qed.

Lemma chain_executed (cs : list MpcController) : (∀ i c0 c1, cs !! i = Some c0 → cs !! (i + 1)%nat = Some c1 → cycle_from c0 c1) →
  ∀ n i ci cj, cs !! i = Some ci → cs !! (i + n)%nat = Some cj → executed_slots ci ⊆ executed_slots cj.
Proof.
  intros Hs n. induction n as [|n IH]; intros i ci cj Hi Hj.
  - rewrite Nat.add_0_r in Hj. by simplify_eq.
  - destruct (cs !! (i + n)%nat) as [c|] eqn:E; [|apply lookup_ge_None in E; apply lookup_lt_Some in Hj; lia].
    transitivity (executed_slots c); [by eapply IH|]. apply (cycle_from_spec c cj). eapply Hs; [done|].
    by replace (i + n + 1)%nat with (i + Datatypes.S n)%nat by lia.
Qed.

Lemma repo_init_inv : repo_inv (api_init api, []).
Proof using StoreLaws0.
  split; simpl; [apply sl_init| | |constructor].
  - intros t id. rewrite sl_empty. exists []. split_and!; [constructor|done|done].
  - intros k. rewrite sl_empty. constructor.
Qed.

Lemma repo_reach_inv x : rtc repo_step (api_init api, []) x → repo_inv x.
Proof using StoreLaws0 Htr Hstored Htags.
  intros H. cut (∀ y, rtc repo_step y x → repo_inv y → repo_inv x); [eauto using repo_init_inv|].
  clear H. induction 1; eauto using repo_step_inv.
Qed.

(** A call of [cycle] is made of these steps. *)
Lemma repo_cycle_steps ex now id t rq ob st key s fs :
  ∃ fs', rtc repo_step (s, fs) ((repo_cycle ex now id t rq ob st key s).1, fs').
Proof.
  unfold repo_cycle. set (k := (t, state_kind, id)).
  assert (∃ s1, rtc repo_step (s, fs) (s1, fs) ∧ (repo_open now id t s).1 = s1 ∧
    ∀ r, (repo_open now id t s).2 = Ok r → api_get api k s1 = Ok r) as (s1 & Hst & Hs1 & Hr).
  { unfold repo_open. fold k. destruct (api_get api k s) as [r|e] eqn:Eg.
    - exists s. split_and!; [done..|]. by intros r' [= <-].
    - assert (∀ s0 e0, ∃ s1, rtc repo_step (s0, fs) (s1, fs) ∧ (s0, Err e0 : result (StoredResource pyval)).1 = s1 ∧
        ∀ r, (s0, Err e0 : result (StoredResource pyval)).2 = Ok r → api_get api k s1 = Ok r) as Hbad by (intros s0 e0; by exists s0).
      destruct e; try apply Hbad.
      set (s1 := (repo_create now id t default_penalty ("implicit-" +:+ id) s).1). exists s1. split; [apply rtc_once, step_create|].
      unfold s1. munfold. destruct (repo_create now id t default_penalty ("implicit-" +:+ id) s) as [s2 [x|e2]]; done. }
  munfold. destruct (repo_open now id t s) as [s1' [r|e]]; simpl in *; subst s1'; [|by exists fs].
  destruct (from_state str_container (body r)) as [c|] eqn:Ed; [|by exists fs].
  destruct (controller_cycle ex hash rq ob st [] c) as [c' [cy|e]] eqn:Ec; [|by exists fs].
  set (f := MkFlight id t key (etag r) c' cy).
  assert (rtc repo_step (s, fs) ((api_put api now (state_put id t key (etag r) c') s1).1, fs)) as Hst2.
  { etransitivity; [exact Hst|]. eapply rtc_l; [by eapply (step_read s1 fs id t key); [apply Hr| |exact Ec]|].
    apply rtc_once. apply (step_commit s1 [] f fs now). }
  destruct (api_put api now (state_put id t key (etag r) c') s1) as [s2 [x|e]]; simpl in *; [|by exists fs].
  assert (rtc repo_step (s, fs) ((api_put api now (cycle_put id t key cy) s2).1, fs)) as Hst3.
  { eapply rtc_r; [exact Hst2|]. by apply step_other. }
  destruct (api_put api now (cycle_put id t key cy) s2) as [s3 [x'|e]]; simpl in *; by exists fs.
Qed.

(** C18: Concurrent use of one stored controller is linear.  However the reads, writes and creations of any
    number of callers interleave (and whatever else is written to the store), the stored versions of a
    controller are: a new controller, then states that each follow from the one before by one cycle, so the
    [i]-th version has run exactly [i] cycles and the executed slots only grow: a cycle computed from a stale
    read is never committed.  A call of [cycle] is such a sequence of steps.  Assumes that the etag digest
    distinguishes versions. *)
Theorem mpc_repository_linear :
  (∀ s fs t id, rtc repo_step (api_init api, []) (s, fs) →
    ∃ cs, Forall2 (λ r c, from_state str_container (body r) = Ok c) (api_history api (t, state_kind, id) s) cs ∧
      (∀ i c, cs !! i = Some c → cycle_sequence c = Z.of_nat i) ∧
      (∀ i c0 c1, cs !! i = Some c0 → cs !! (i + 1)%nat = Some c1 → cycle_from c0 c1) ∧
      ∀ i n ci cj, cs !! i = Some ci → cs !! (i + n)%nat = Some cj → executed_slots ci ⊆ executed_slots cj) ∧
  (∀ ex now id t rq ob st key s fs, ∃ fs', rtc repo_step (s, fs) ((repo_cycle ex now id t rq ob st key s).1, fs')).
Proof using StoreLaws0 Htr Hstored Htags.
  split; [|apply repo_cycle_steps]. intros s fs t id Hr. apply repo_reach_inv in Hr as [_ Hch _ _].
  destruct (Hch t id) as (cs & Hf & H0 & Hs). exists cs. split_and!; [done|by apply chain_numbers|done|].
  intros i n. by apply chain_executed.
Qed.
End repository.

(** ** Both stores qualify *)

Section stores.
Context (request_digest : string → string → gmap string pyval → string).
Context (etag_digest : string → string → Z → gmap string pyval → string).
Context (txn : ∀ S A, M S A → M S A) (ttl : Z).

Definition json_safe (b : gmap string pyval) : gmap string pyval := json_safe_val <$> b.
Abbreviation mem_documents := (mem_api VStr request_digest etag_digest).
Abbreviation pg_documents := (pg_api VStr request_digest etag_digest json_safe txn ttl).

Lemma mem_stores_documents q : api_stored mem_documents q = <["id" := VStr (put_id q)]> (id <$> put_body q).
Proof. simpl. unfold normalized. by rewrite map_fmap_id. Qed.

Lemma pg_stores_documents q : api_stored pg_documents q = <["id" := VStr (put_id q)]> (json_safe_val <$> put_body q).
Proof. done. Qed.
End stores.

Definition version_tag (t k : string) (v : Z) (b : gmap string pyval) : string := int_str v.
Lemma version_tag_inj t k v v' b b' : version_tag t k v b = version_tag t k v' b' → v = v'.
Proof.
  unfold version_tag. intros H. assert (py_int (VStr (int_str v)) = py_int (VStr (int_str v'))) as Hp by by rewrite H.
  rewrite !int_of_int_str in Hp. congruence.
Qed.

Lemma mpc_repository_linear_witness :
  let api := pg_api VStr (λ k i _, k +:+ i) version_tag json_safe (@atomically) 1000 in
  let s := (repo_create api 0 "c1" "acme" default_penalty "key" (api_init api)).1 in
  ∃ cs, Forall2 (λ r c, from_state (λ _, "") (body r) = Ok c) (api_history api ("acme", state_kind, "c1") s) cs ∧
    ∀ i c, cs !! i = Some c → cycle_sequence c = Z.of_nat i.
Proof.
  intros api s.
  destruct (proj1 (mpc_repository_linear api (λ _, "h") (λ _, "") (λ _, ∅) _ json_safe_val through_json
    (pg_stores_documents _ _ _ _) version_tag_inj) s [] "acme" "c1") as (cs & H1 & H2 & _).
  - apply rtc_once. apply step_create.
  - by exists cs.
Defined.
