(* ===== verification/Landing.v ===== *)
(** * Raw landing, event store and connector offsets

    [packages/ingestion/raw.py]: the raw events a connector delivered, in process and in the table
    [raw_events]; [packages/contracts/events.py]: the append-only event store;
    [packages/connectors/offsets.py]: how far a connector has read; and the tenant check of
    [PostgresRuntime.tenant_connection].  Parameters: the SHA-256 digest of a payload's JSON text and
    the round trip [reload] of a payload through its [jsonb] column. *)
From S2P Require Import Prelude PyValue Domain.
Local Open Scope Z_scope.

(** ** persistence/postgres.py: tenant_connection *)

Definition has_nul (s : string) : bool := existsb (λ c, ord c =? 0) (String.list_ascii_of_string s).
Definition tenant_valid (t : string) : bool := negb (bool_decide (t = "") || has_nul t).

Definition tenant_connection (txn : ∀ S A, M S A → M S A) (t : string) {S A} (block : M S A) : M S A :=
  mguard (negb (tenant_valid t)) (ValueError "invalid tenant ID");; txn _ _ block.

(** ** raw.py *)

Record RawEvent := MkRaw {
  raw_id : string; raw_tenant : string; source : string; received_at : Z;
  payload : list (string * pyval); payload_hash : string
}.

Definition raw_create (digest : list (string * pyval) → string) (id tenant src : string) (received : Z)
    (p : list (string * pyval)) : RawEvent := MkRaw id tenant src received p (digest p).

Definition raw_key (e : RawEvent) : string * string := (raw_tenant e, raw_id e).

Record mem_landing := MkLanding { events : gmap (string * string) RawEvent; ordered : list (string * string) }.
Definition empty_landing : mem_landing := MkLanding ∅ [].

Definition mem_land (e : RawEvent) : M mem_landing bool :=
  s ← mget;
  match events s !! raw_key e with
  | Some prior =>
      mguard (negb (bool_decide (payload_hash prior = payload_hash e)))
        (ValueError "event ID collision with different payload");;
      mret false
  | None => mput (MkLanding (<[raw_key e := e]> (events s)) (ordered s ++ [raw_key e]));; mret true
  end.

Definition mem_raw_get (id t : string) : M mem_landing RawEvent :=
  s ← mget; mlift (of_option (KeyError id) (events s !! (t, id))).

Definition mem_raw_query (t : string) : M mem_landing (list RawEvent) :=
  s ← mget; mret (omap (λ k, events s !! k) (base.filter (λ k, k.1 = t) (ordered s))).

Record raw_row := MkRawRow {
  rw_source : string; rw_received : Z; rw_payload : list (string * pyval); rw_hash : string
}.
Abbreviation raw_table := (gmap (string * string) raw_row).

Section raw_pg.
Context (txn : ∀ S A, M S A → M S A) (reload : list (string * pyval) → list (string * pyval)).

Definition pg_land (e : RawEvent) : M raw_table bool :=
  tenant_connection txn (raw_tenant e) (
    s ← mget;
    match s !! raw_key e with
    | None =>
        mput (<[raw_key e := MkRawRow (source e) (received_at e) (payload e) (payload_hash e)]> s);; mret true
    | Some prior =>
        mguard (negb (bool_decide (rw_hash prior = payload_hash e)))
          (ValueError "event ID collision with different payload");;
        mret false
    end).

Definition row_event (t id : string) (r : raw_row) : RawEvent :=
  MkRaw id t (rw_source r) (rw_received r) (reload (rw_payload r)) (rw_hash r).

Definition pg_raw_get (id t : string) : M raw_table RawEvent :=
  tenant_connection txn t (s ← mget; mlift (of_option (KeyError id) (row_event t id <$> s !! (t, id)))).

(** [ORDER BY received_at, event_id] *)
Definition raw_order : RawEvent → RawEvent → comparison :=
  cmp_then (cmp_on received_at Z.compare) (cmp_on raw_id String.compare).

Definition pg_raw_query (t : string) : M raw_table (list RawEvent) :=
  tenant_connection txn t (
    s ← mget;
    mret (py_sorted raw_order
      (map (λ kv, row_event kv.1.1 kv.1.2 kv.2) (base.filter (λ kv, kv.1.1 = t) (map_to_list s))))).
End raw_pg.

(** ** contracts/events.py *)

Record EventEnvelope := MkEnvelope {
  event_id : string; event_type : string; schema_version : string; occurred_at : datetime; observed_at : datetime;
  env_tenant : string; env_site : string; trace_id : string; env_payload : pyval
}.

(** the field validators of the model *)
Definition envelope_check (e : EventEnvelope) : result EventEnvelope :=
  validate_id (env_tenant e);; validate_id (env_site e);;
  ensure_aware (occurred_at e);; ensure_aware (observed_at e);; Ok e.

Record event_store := MkEventStore { log : list EventEnvelope; event_ids : gset string }.
Definition empty_events : event_store := MkEventStore [] ∅.

Definition event_append (e : EventEnvelope) : M event_store bool :=
  s ← mget;
  if bool_decide (event_id e ∈ event_ids s) then mret false
  else mput (MkEventStore (log s ++ [e]) ({[event_id e]} ∪ event_ids s));; mret true.

Definition event_query (t : string) (kind : option string) (s : event_store) : list EventEnvelope :=
  base.filter (λ e, env_tenant e = t ∧ (kind = None ∨ kind = Some (event_type e))) (log s).

Definition event_verify_chain (s : event_store) : bool := (size (event_ids s) =? length (log s))%nat.

(** ** connectors/offsets.py *)

Record ConnectorOffset := MkOffset { cursor : option string; watermark : option Z }.
Abbreviation offset_key := (string * string * string)%type.

Definition mem_offset_get (k : offset_key) : M (gmap offset_key ConnectorOffset) ConnectorOffset :=
  s ← mget; mret (default (MkOffset None None) (s !! k)).

Definition mem_offset_commit (k : offset_key) (c : option string) (w : Z) : M (gmap offset_key ConnectorOffset) ConnectorOffset :=
  s ← mget; mput (<[k := MkOffset c (Some w)]> s);; mret (MkOffset c (Some w)).

Section offset_pg.
Context (txn : ∀ S A, M S A → M S A).

(** the row [(cursor_value, watermark)] *)
Abbreviation offset_table := (gmap offset_key (option string * option Z)).

Definition pg_offset_get (k : offset_key) : M offset_table ConnectorOffset :=
  tenant_connection txn k.1.1 (
    s ← mget;
    mret (match s !! k with Some r => MkOffset r.1 r.2 | None => MkOffset None None end)).

Definition pg_offset_commit (k : offset_key) (c : option string) (w : Z) : M offset_table ConnectorOffset :=
  tenant_connection txn k.1.1 (s ← mget; mput (<[k := (c, Some w)]> s));;
  mret (MkOffset c (Some w)).
End offset_pg.

(** ** Landing *)

(** Calls in sequence, with the result of each *)
Fixpoint run_all {S A B} (f : A → M S B) (l : list A) (s : S) : S * list (result B) :=
  match l with
  | [] => (s, [])
  | x :: l' => let '(s1, r) := f x s in let '(s2, rs) := run_all f l' s1 in (s2, r :: rs)
  end.

Definition row_of (e : RawEvent) : raw_row := MkRawRow (source e) (received_at e) (payload e) (payload_hash e).

(** the event that holds an id of a tenant: the first one of the history *)
Definition first_landed (h : list RawEvent) (k : string * string) : option RawEvent :=
  head (base.filter (λ e, raw_key e = k) h).

(** what landing [e] after [h] answers *)
Definition land_answer (h : list RawEvent) (e : RawEvent) : result bool :=
  match first_landed h (raw_key e) with
  | None => Ok true
  | Some prior => if bool_decide (payload_hash prior = payload_hash e) then Ok false
                  else Err (ValueError "event ID collision with different payload")
  end.

Definition land_answers (h l : list RawEvent) : list (result bool) := imap (λ i e, land_answer (h ++ take i l) e) l.

Lemma first_landed_snoc h e k : first_landed (h ++ [e]) k =
  match first_landed h k with Some x => Some x | None => if decide (raw_key e = k) then Some e else None end.
Proof.
  unfold first_landed. rewrite filter_app, filter_cons, filter_nil. destruct (base.filter _ h); simpl; [|done]. by case_decide.
Qed.

(** The state after the history [h] *)
Record landed (h : list RawEvent) (s : mem_landing) (db : raw_table) : Prop := {
  ld_events : ∀ k, events s !! k = first_landed h k;
  ld_ordered : NoDup (ordered s);
  ld_members : ∀ k, k ∈ ordered s ↔ is_Some (events s !! k);
  ld_table : db = row_of <$> events s
}.

Lemma first_landed_key h k e : first_landed h k = Some e → raw_key e = k.
Proof.
  unfold first_landed. destruct (base.filter _ h) as [|x l] eqn:E; [done|]. intros [= <-].
  assert (x ∈ base.filter (λ e, raw_key e = k) h) as Hx by (rewrite E; left). by apply list_elem_of_filter in Hx as [? _].
Qed.

Section landing_facts.
Context (txn : ∀ S A, M S A → M S A) `{!Transactional txn} (reload : list (string * pyval) → list (string * pyval)).

Lemma tenant_connection_run {S A} t (m : M S A) s : tenant_valid t = true → tenant_connection txn t m s = atomically m s.
Proof. intros Ht. unfold tenant_connection. munfold. rewrite Ht. simpl. apply txn_atomically. Qed.

Lemma land_step h s db e : landed h s db → tenant_valid (raw_tenant e) = true →
  ∃ s' db', mem_land e s = (s', land_answer h e) ∧ pg_land txn e db = (db', land_answer h e) ∧ landed (h ++ [e]) s' db'.
Proof.
  intros [He Ho Hm ->] Ht. unfold mem_land, pg_land. rewrite tenant_connection_run by done. munfold. unfold atomically.
  rewrite lookup_fmap. unfold land_answer. rewrite <- He.
  destruct (events s !! raw_key e) as [prior|] eqn:E; simpl.
  - case_bool_decide; (eexists _, _; split_and!; [done..|]); split; try done; intros k; rewrite first_landed_snoc, <- He;
      (destruct (events s !! k) eqn:Ek; [done|]; rewrite decide_False; [done|]; congruence).
  - eexists _, _. split_and!; [done..|]. split; simpl.
    + intros k. rewrite first_landed_snoc, <- He, lookup_insert. case_decide as Hk; [by subst k; rewrite E|].
      by destruct (events s !! k).
    + apply NoDup_app. split_and!; [done| |apply NoDup_singleton]. intros k Hk Hk'%list_elem_of_singleton. subst k.
      apply Hm in Hk. rewrite E in Hk. by destruct Hk.
    + intros k. rewrite elem_of_app, list_elem_of_singleton, Hm, lookup_insert_is_Some. destruct (decide (raw_key e = k)); naive_solver.
    + by rewrite fmap_insert.
Qed.

Lemma land_all l : ∀ h s db, landed h s db → Forall (λ e, tenant_valid (raw_tenant e) = true) l →
  ∃ s' db', run_all mem_land l s = (s', land_answers h l) ∧ run_all (pg_land txn) l db = (db', land_answers h l) ∧
    landed (h ++ l) s' db'.
Proof.
  induction l as [|e l IH]; intros h s db Hl Hv; simpl.
  - exists s, db. by rewrite app_nil_r.
  - apply Forall_cons in Hv as [He Hv]. destruct (land_step h s db e Hl He) as (s1 & db1 & -> & -> & Hl1).
    destruct (IH (h ++ [e]) s1 db1 Hl1 Hv) as (s2 & db2 & -> & -> & Hl2). rewrite <- app_assoc in Hl2. exists s2, db2.
    assert (land_answer h e :: land_answers (h ++ [e]) l = land_answers h (e :: l)) as ->; [|done].
    unfold land_answers. simpl. rewrite app_nil_r. f_equal. apply imap_ext. intros i x _. simpl. by rewrite <- app_assoc.
Qed.
End landing_facts.

Definition reloaded (reload : list (string * pyval) → list (string * pyval)) (e : RawEvent) : RawEvent :=
  MkRaw (raw_id e) (raw_tenant e) (source e) (received_at e) (reload (payload e)) (payload_hash e).

Lemma NoDup_keys {A B} (f : A → B) l : NoDup (map f l) → NoDup l.
Proof. apply NoDup_fmap_1. Qed.

Section landing_reads.
Context (txn : ∀ S A, M S A → M S A) `{!Transactional txn} (reload : list (string * pyval) → list (string * pyval)).
Context (h : list RawEvent) (s : mem_landing) (db : raw_table) (Hl : landed h s db).

Lemma landed_key k e : events s !! k = Some e → raw_key e = k.
Proof using Hl. rewrite (ld_events _ _ _ Hl). apply first_landed_key. Qed.

(** The events a tenant reads, in process *)
Lemma mem_reads t : ∃ l, mem_raw_query t s = (s, Ok l) ∧ NoDup (map raw_key l) ∧
  ∀ e, e ∈ l ↔ raw_tenant e = t ∧ first_landed h (raw_key e) = Some e.
Proof using Hl.
  eexists. split; [done|]. set (ks := base.filter (λ k, k.1 = t) (ordered s)).
  assert (map raw_key (omap (λ k, events s !! k) ks) = ks) as Hk.
  { assert (∀ k, k ∈ ks → is_Some (events s !! k)) as Hall.
    { intros k [_ Hk]%list_elem_of_filter. by apply (ld_members _ _ _ Hl). }
    clearbody ks. induction ks as [|k ks IH]; [done|]. simpl. destruct (Hall k) as [e He]; [left|]. rewrite He. simpl.
    rewrite (landed_key k e He). f_equal. apply IH. intros k' Hk'. apply Hall. by right. }
  split; [rewrite Hk; apply NoDup_filter, (ld_ordered _ _ _ Hl)|]. intros e. rewrite list_elem_of_omap. split.
  - intros (k & [Ht Hin]%list_elem_of_filter & He). pose proof (landed_key k e He) as <-.
    rewrite <- (ld_events _ _ _ Hl). done.
  - intros [Ht He]. rewrite <- (ld_events _ _ _ Hl) in He. exists (raw_key e). split; [|done].
    apply list_elem_of_filter. split; [done|]. by apply (ld_members _ _ _ Hl).
Qed.

Lemma pg_landed_reads t : tenant_valid t = true → ∃ l, pg_raw_query txn reload t db = (db, Ok (py_sorted raw_order l)) ∧
  NoDup (map raw_key l) ∧ ∀ e, e ∈ l ↔ ∃ e0, e = reloaded reload e0 ∧ raw_tenant e0 = t ∧ first_landed h (raw_key e0) = Some e0.
Proof using Hl Transactional0.
  intros Ht. unfold pg_raw_query. rewrite tenant_connection_run by done. munfold. unfold atomically. eexists. split; [done|].
  pose proof (ld_table _ _ _ Hl) as Hdb. split.
  - rewrite map_map. rewrite (map_ext _ fst) by (by intros [[??]?]).
    eapply sublist_NoDup; [apply (NoDup_fst_map_to_list db)|]. apply sublist_map, sublist_of_filter.
  - intros e. rewrite list_elem_of_fmap. split.
    + intros ([[t' id'] r] & -> & [Hk Hin]%list_elem_of_filter). simpl in Hk. subst t'. apply elem_of_map_to_list in Hin.
      rewrite Hdb, lookup_fmap in Hin. destruct (events s !! (t, id')) as [e0|] eqn:E; [|done]. injection Hin as <-.
      pose proof (landed_key _ _ E) as Hk. exists e0. rewrite Hk, <- (ld_events _ _ _ Hl). destruct e0. unfold raw_key in Hk. simpl in *.
      by simplify_eq.
    + intros (e0 & -> & Ht0 & He0). rewrite <- (ld_events _ _ _ Hl) in He0. exists (raw_key e0, row_of e0). split; [by destruct e0|].
      apply list_elem_of_filter. split; [done|]. apply elem_of_map_to_list. by rewrite Hdb, lookup_fmap, He0.
Qed.
End landing_reads.

(** Landing is idempotent and the two backends agree.  On any history of deliveries with valid tenants,
    both answer each delivery the same: [True] when the tenant's event id is new, [False] when it is a
    redelivery with the same payload hash, an error when the hash differs; and the first delivery is the
    one that is kept.  Afterwards both read back exactly the first deliveries, the in-process store in
    their order of arrival and the table in the order of [received_at] and id (with payloads as reloaded
    from [jsonb]). *)
Theorem landing_backends_agree (txn : ∀ S A, M S A → M S A) `{!Transactional txn} reload (h : list RawEvent) :
  Forall (λ e, tenant_valid (raw_tenant e) = true) h →
  ∃ s db, run_all mem_land h empty_landing = (s, land_answers [] h) ∧
    run_all (pg_land txn) h ∅ = (db, land_answers [] h) ∧
    (∀ t id, tenant_valid t = true →
      mem_raw_get id t s = (s, of_option (KeyError id) (first_landed h (t, id))) ∧
      pg_raw_get txn reload id t db = (db, of_option (KeyError id) (reloaded reload <$> first_landed h (t, id)))) ∧
    (∀ t, tenant_valid t = true → ∃ l l', mem_raw_query t s = (s, Ok l) ∧ pg_raw_query txn reload t db = (db, Ok l') ∧
      l' ≡ₚ map (reloaded reload) l ∧ StronglySorted (key_le raw_order) l' ∧
      ∀ e, e ∈ l ↔ raw_tenant e = t ∧ first_landed h (raw_key e) = Some e).
Proof.
  intros Hv. destruct (land_all txn h [] empty_landing ∅) as (s & db & Hs & Hdb & Hl); [|done|].
  { split; simpl; [done|constructor| |by rewrite fmap_empty]. intros k. rewrite lookup_empty. split; [by intros ?%elem_of_nil|by intros [? ?]]. }
  exists s, db. split_and!; [done..| |].
  - intros t id Ht. unfold mem_raw_get, pg_raw_get. rewrite tenant_connection_run by done. munfold. unfold atomically.
    rewrite (ld_table _ _ _ Hl), lookup_fmap, (ld_events _ _ _ Hl).
    destruct (first_landed h (t, id)) as [e|] eqn:E; [|done]. split; [done|]. simpl. do 2 f_equal.
    pose proof (first_landed_key h _ _ E) as Hk. destruct e. unfold raw_key in Hk. simpl in Hk. by simplify_eq.
  - intros t Ht. destruct (mem_reads h s db Hl t) as (l & Hq & Hnd & Hin). destruct (pg_landed_reads txn reload h s db Hl t Ht) as (l' & Hq' & Hnd' & Hin').
    exists l, (py_sorted raw_order l'). split_and!; [done|done| |apply py_sorted_sorted, _|done].
    rewrite (py_sorted_perm raw_order). apply NoDup_Permutation; [by eapply NoDup_keys| |].
    + apply (NoDup_keys raw_key). rewrite map_map. exact Hnd.
    + intros e. rewrite Hin', list_elem_of_fmap. split; intros (e0 & -> & ?); exists e0; (split; [done|]); by apply Hin.
Qed.

Definition sample_raw (t id hash : string) (at_ : Z) : RawEvent := MkRaw id t "meter" at_ [("v", VInt 1)] hash.

Lemma landing_backends_agree_witness :
  let h := [sample_raw "acme" "e1" "h1" 5; sample_raw "acme" "e1" "h1" 6; sample_raw "acme" "e1" "h2" 7; sample_raw "beta" "e1" "h2" 8] in
  (run_all mem_land h empty_landing).2 =
    [Ok true; Ok false; Err (ValueError "event ID collision with different payload"); Ok true] ∧
  (run_all mem_land h empty_landing).2 = (run_all (pg_land (@atomically)) h ∅).2.
Proof.
  intros h. destruct (landing_backends_agree (@atomically) id h) as (s & db & H1 & H2 & _); [by repeat constructor|].
  rewrite H1, H2. split; [vm_compute; reflexivity|reflexivity].
Defined.

(** ** The event store *)

Lemma event_append_inv e s : NoDup (map event_id (log s)) → event_ids s = list_to_set (map event_id (log s)) →
  let s' := (event_append e s).1 in
  NoDup (map event_id (log s')) ∧ event_ids s' = list_to_set (map event_id (log s')) ∧
  log s `prefix_of` log s' ∧ event_id e ∈ map event_id (log s').
Proof.
  intros Hnd Hid. unfold event_append. munfold. case_bool_decide as E; simpl; rewrite Hid in E; apply elem_of_list_to_set in E || idtac.
  - done.
  - assert (event_id e ∉ map event_id (log s)) as Hn by set_solver. rewrite map_app. split_and!.
    + apply NoDup_app. split_and!; [done| |apply NoDup_singleton]. intros x Hx ->%list_elem_of_singleton. done.
    + rewrite Hid, list_to_set_app_L. set_solver.
    + by apply prefix_app_r.
    + set_solver.
Qed.

(** Every event id is stored once, nothing stored is ever dropped or reordered, and [verify_chain] holds. *)
Theorem event_store_sound h : let s := (run_all event_append h empty_events).1 in
  event_verify_chain s = true ∧ NoDup (map event_id (log s)) ∧
  (∀ e, e ∈ h → event_id e ∈ map event_id (log s)) ∧ ∀ e, e ∈ log s → e ∈ h.
Proof.
  assert (∀ s, NoDup (map event_id (log s)) → event_ids s = list_to_set (map event_id (log s)) →
    let s' := (run_all event_append h s).1 in
    NoDup (map event_id (log s')) ∧ event_ids s' = list_to_set (map event_id (log s')) ∧ log s `prefix_of` log s' ∧
    (∀ e, e ∈ h → event_id e ∈ map event_id (log s')) ∧ ∀ e, e ∈ log s' → e ∈ log s ∨ e ∈ h) as Hgen.
  { induction h as [|e h IH]; intros s Hnd Hid; simpl.
    - split_and!; [done..|by intros e ?%elem_of_nil|by left].
    - destruct (event_append_inv e s Hnd Hid) as (H1 & H2 & H3 & H4).
      assert (∀ x, x ∈ log (event_append e s).1 → x ∈ log s ∨ x = e) as H5.
      { intros x. unfold event_append. munfold. case_bool_decide; simpl; set_solver. }
      destruct (event_append e s) as [s1 r]. simpl in *. specialize (IH s1 H1 H2).
      destruct (run_all event_append h s1) as [s2 rs]. simpl in *. destruct IH as (J1 & J2 & J3 & J4 & J5).
      split_and!; [done..|by transitivity (log s1)| |set_solver].
      intros x [->|Hx]%elem_of_cons; [|auto]. destruct J3 as [k ->]. rewrite map_app. set_solver. }
  destruct (Hgen empty_events) as (H1 & H2 & _ & H3 & H4); simpl; [constructor|done|]. split_and!; [|done..|set_solver].
  unfold event_verify_chain. rewrite H2, size_list_to_set by done. rewrite length_map. apply Nat.eqb_refl.
Qed.

(** The ids are not scoped by tenant: an event whose id another tenant used is dropped without an error. *)
Example event_id_shared_by_tenants : ∀ a b, event_id a = event_id b → env_tenant a ≠ env_tenant b →
  (run_all event_append [a; b] empty_events).2 = [Ok true; Ok false] ∧
  event_query (env_tenant b) None (run_all event_append [a; b] empty_events).1 = [].
Proof.
  intros a b Hid Ht. unfold event_append. munfold. rewrite Hid. rewrite bool_decide_eq_false_2 by set_solver. simpl.
  rewrite bool_decide_eq_true_2 by set_solver. split; [done|]. unfold event_query. simpl. rewrite filter_cons_False by naive_solver. done.
Qed.

(** ** Offsets *)

(** The two backends hold the same offsets; a committed offset is the one read back, and no other changes. *)
Theorem offsets_agree (txn : ∀ S A, M S A → M S A) `{!Transactional txn} (s : gmap offset_key ConnectorOffset) k c w k' :
  tenant_valid k.1.1 = true → tenant_valid k'.1.1 = true →
  let db := (λ o, (cursor o, watermark o)) <$> s in
  let '(s', r) := mem_offset_commit k c w s in
  let '(db', r') := pg_offset_commit txn k c w db in
  r = r' ∧ r = Ok (MkOffset c (Some w)) ∧ db' = (λ o, (cursor o, watermark o)) <$> s' ∧
  (mem_offset_get k' s').2 = (pg_offset_get txn k' db').2 ∧
  (mem_offset_get k' s').2 = if decide (k' = k) then r else (mem_offset_get k' s).2.
Proof.
  intros Hk Hk'. unfold mem_offset_commit, pg_offset_commit, mem_offset_get, pg_offset_get. munfold.
  rewrite !tenant_connection_run by done. unfold atomically. rewrite fmap_insert. simpl. split_and!; try done.
  - rewrite tenant_connection_run by done. unfold atomically. simpl. destruct (decide (k' = k)) as [->|Hne].
    + by rewrite !lookup_insert_eq.
    + rewrite !lookup_insert_ne, lookup_fmap by done. by destruct (s !! k') as [[]|].
  - case_decide as Hd; [subst; by rewrite lookup_insert_eq|]. by rewrite lookup_insert_ne.
Qed.
