(* ===== verification/TimeSeries.v ===== *)
(** * Normalised signals, time series and data quality

    [packages/ingestion/normalize.py]: raw payloads to points in base units;
    [packages/timeseries/store.py]: the point store, in process and in the table [timeseries_points], with
    its window queries and resampling; [packages/data_quality/service.py]: the quality score of a window.

    A timestamp is an aware datetime, as the normalizer produces, and so its instant in microseconds.  A
    SQL [numeric] keeps the value of a decimal and has no positive exponent.  Parameters:
    [datetime.fromisoformat] and the text of a container.  A value that is not a finite number is not
    modelled. *)
From S2P Require Import Prelude PyDecimal PyFloat PyValue PyText Domain Landing.
From Stdlib Require Import QArith Lqa.
Local Open Scope Z_scope.

(** ** normalize.py *)

Record NormalizedPoint := MkPoint {
  np_id : string; np_tenant : string; np_source : string; metric : string; timestamp : Z; value : dec;
  unit_ : string; raw_event_id : string; raw_payload_hash : string; transformation : string
}.

Definition POWER_FACTORS : list (string * dec) := [("W", Dec 1 (-3)); ("kW", dint 1); ("MW", dint 1000)].
Definition ENERGY_FACTORS : list (string * dec) := [("Wh", Dec 1 (-3)); ("kWh", dint 1); ("MWh", dint 1000)].

Section normalize.
Context (fromisoformat : string → result datetime) (str_container : pyval → string).
#[local] Abbreviation py_str := (PyText.py_str str_container).

(** the fields read inside the [try] block *)
Definition read_signal (p : list (string * pyval)) : result (string * datetime * dec * string) :=
  m ← item "metric" p;
  t ← item "timestamp" p; at_ ← fromisoformat (py_str t);
  v ← item "value" p; x ← PyText.py_decimal str_container v;
  u ← item "unit" p;
  Ok (py_str m, at_, x, py_str u).

Definition to_base_unit (x : dec) (u : string) : dec * string :=
  match od_get u POWER_FACTORS with
  | Some f => (dmul x f, "kW")
  | None => match od_get u ENERGY_FACTORS with
            | Some f => (dmul x f, "kWh")
            | None => (x, u)
            end
  end.

Definition normalize (e : RawEvent) : result NormalizedPoint :=
  match read_signal (payload e) with
  | Err (KeyError _) | Err (ValueError _) => Err (ValueError "invalid raw signal payload")
  | Err x => Err x
  | Ok (m, at_, x, u) =>
      raise_if (negb (aware at_)) (ValueError "signal timestamp must be timezone-aware");;
      let '(x', u') := to_base_unit x u in
      Ok (MkPoint ("norm-" +:+ raw_id e) (raw_tenant e) (source e) m (us at_) x' u' (raw_id e) (payload_hash e)
            (u +:+ "->" +:+ u'))
  end.
End normalize.

(** ** timeseries/store.py *)

Abbreviation series_map := (gmap (string * string) (gmap Z NormalizedPoint)).

Definition mem_append (p : NormalizedPoint) : M series_map bool :=
  s ← mget;
  let key := (np_tenant p, metric p) in
  let series := default ∅ (s !! key) in
  mput (<[key := series]> s);;
  match series !! timestamp p with
  | Some prior =>
      if deqb (value prior) (value p) && bool_decide (unit_ prior = unit_ p) then mret false
      else mraise (ValueError "conflicting point at identical timestamp")
  | None => mput (<[key := <[timestamp p := p]> series]> s);; mret true
  end.

(** the points of a series in a half-open window, by time *)
Definition window (points : gmap Z NormalizedPoint) (start end_ : Z) : list NormalizedPoint :=
  omap (λ m, points !! m)
    (base.filter (λ m, start <= m < end_) (py_sorted Z.compare (map fst (map_to_list points)))).

Definition mem_query (tenant m : string) (start end_ : Z) : M series_map (list NormalizedPoint) :=
  s ← mget; mret (window (default ∅ (s !! (tenant, m))) start end_).

(** a decimal in a [numeric] column *)
Definition to_numeric (d : dec) : dec := if 0 <? dexp d then Dec (coef d * 10 ^ dexp d) 0 else d.

Record point_row := MkPointRow {
  pr_value : dec; pr_unit : string; pr_source : string; pr_event : string; pr_hash : string; pr_transformation : string
}.
Abbreviation point_table := (gmap (string * string * Z) point_row).

Definition point_row_of (p : NormalizedPoint) : point_row :=
  MkPointRow (to_numeric (value p)) (unit_ p) (np_source p) (raw_event_id p) (raw_payload_hash p) (transformation p).
Definition row_point (k : string * string * Z) (r : point_row) : NormalizedPoint :=
  MkPoint ("norm-" +:+ pr_event r) k.1.1 (pr_source r) k.1.2 k.2 (pr_value r) (pr_unit r) (pr_event r) (pr_hash r)
    (pr_transformation r).

Definition point_order : NormalizedPoint → NormalizedPoint → comparison := cmp_on timestamp Z.compare.

Section ts_pg.
Context (txn : ∀ S A, M S A → M S A).

Definition pg_append (p : NormalizedPoint) : M point_table bool :=
  tenant_connection txn (np_tenant p) (
    s ← mget;
    let key := (np_tenant p, metric p, timestamp p) in
    match s !! key with
    | None => mput (<[key := point_row_of p]> s);; mret true
    | Some prior =>
        if deqb (pr_value prior) (value p) && bool_decide (pr_unit prior = unit_ p) then mret false
        else mraise (ValueError "conflicting point at identical timestamp")
    end).

Definition pg_query (tenant m : string) (start end_ : Z) : M point_table (list NormalizedPoint) :=
  tenant_connection txn tenant (
    s ← mget;
    mret (py_sorted point_order (map (λ kr, row_point kr.1 kr.2)
      (base.filter (λ kr, kr.1.1 = (tenant, m) ∧ start <= kr.1.2 < end_) (map_to_list s))))).
End ts_pg.

(** [resample_mean] over the points a query returned *)
Definition bucket_mean (points : list NormalizedPoint) (lo hi : Z) : result (option dec) :=
  let values := map value (base.filter (λ p, lo <= timestamp p < hi) points) in
  match values with
  | [] => Ok None
  | _ => q ← ddiv (dsum values) (dint (Z.of_nat (length values))); Ok (Some q)
  end.

Fixpoint resample_loop (fuel : nat) (points : list NormalizedPoint) (end_ step cursor : Z)
    : result (list (Z * option dec)) :=
  match fuel with
  | O => Err (OtherError "out of fuel")
  | S fuel' =>
      if cursor <? end_ then
        let following := Z.min end_ (cursor + step) in
        mean ← bucket_mean points cursor following;
        rest ← resample_loop fuel' points end_ step following;
        Ok ((cursor, mean) :: rest)
      else Ok []
  end.

(** [resample_mean] on top of a backend's query; the rounds of the loop are the length of the window over
    the step, rounded up *)
Definition resample_mean {S} (query : M S (list NormalizedPoint)) (start end_ step : Z) : M S (list (Z * option dec)) :=
  mguard (step <=? 0) (ValueError "resample step must be positive");;
  points ← query;
  mlift (resample_loop (Datatypes.S (Z.to_nat ((end_ - start + step - 1) / step))) points end_ step start).

(** ** data_quality/service.py *)

Record QualityAssessment := MkQuality {
  score : dec; status : string; missing : Z; stale : Z; duplicates : Z; outliers : Z; conflicts : Z; reasons : list string
}.

Definition count_if {A} (f : A → bool) (l : list A) : Z := Z.of_nat (length (base.filter (λ x, f x = true) l)).

Definition outlier (minimum maximum : option dec) (p : NormalizedPoint) : bool :=
  match minimum with Some m => dltb (value p) m | None => false end
  || match maximum with Some m => dltb m (value p) | None => false end.

(** more than one distinct value at the instant (decimals are equal in a set when they are as numbers) *)
Definition conflicting (points : list NormalizedPoint) (t : Z) : bool :=
  existsb (λ p, existsb (λ q, (timestamp p =? t) && (timestamp q =? t) && negb (deqb (value p) (value q))) points) points.

(** [int((expected_end - expected_start) / expected_step)]: the quotient of two timedeltas is a float *)
Definition expected_points (span step : Z) : result Z :=
  raise_if (step =? 0) (ZeroDivisionError "division by zero");;
  Ok (bin_trunc (if step <? 0 then f64_q (- span) (- step) else f64_q span step)).

Definition quality_status (s : dec) : string :=
  if dleb (Dec 9 (-1)) s then "good" else if dleb (Dec 6 (-1)) s then "degraded" else "bad".

Definition assess (points : list NormalizedPoint) (expected_start expected_end expected_step now stale_after : Z)
    (minimum maximum : option dec) : result QualityAssessment :=
  n ← expected_points (expected_end - expected_start) expected_step;
  let expected := Z.max 1 n in
  let unique := remove_dups (map timestamp points) in
  let total := Z.of_nat (length points) in
  let dup := total - Z.of_nat (length unique) in
  let mis := Z.max 0 (expected - Z.of_nat (length unique)) in
  let sta := count_if (λ p, stale_after <? now - timestamp p) points in
  let out := count_if (outlier minimum maximum) points in
  let con := count_if (conflicting points) unique in
  penalty ← ddiv (dint (mis + sta + dup + out + con)) (dint (Z.max (Z.max expected total) 1));
  let sc := dmax (dint 0) (dsub (dint 1) penalty) in
  Ok (MkQuality sc (quality_status sc) mis sta dup out con
        (omap (λ e : string * Z, if e.2 =? 0 then None else Some e.1)
           [("missing", mis); ("stale", sta); ("duplicate", dup); ("outlier", out); ("conflict", con)])).

(** ** Windows *)

#[global] Instance point_order_order : CmpOrder point_order.
Proof. unfold point_order. apply _. Qed.

(** every point sits at its own instant *)
Definition timed (points : gmap Z NormalizedPoint) : Prop := ∀ t p, points !! t = Some p → timestamp p = t.

Lemma omap_timed points ks : timed points → (∀ k, k ∈ ks → is_Some (points !! k)) →
  map timestamp (omap (λ m, points !! m) ks) = ks.
Proof.
  intros Ht. induction ks as [|k ks IH]; intros Hk; [done|]. simpl. destruct (Hk k) as [p Hp]; [left|]. rewrite Hp. simpl.
  rewrite (Ht _ _ Hp). f_equal. apply IH. intros k' Hk'. apply Hk. by right.
Qed.

Lemma elem_of_window points a b p : timed points →
  p ∈ window points a b ↔ points !! timestamp p = Some p ∧ a <= timestamp p < b.
Proof.
  intros Ht. unfold window. rewrite list_elem_of_omap. split.
  - intros (m & [Hm _]%list_elem_of_filter & Hp). by rewrite (Ht _ _ Hp).
  - intros [Hp Hr]. exists (timestamp p). split; [|done]. apply list_elem_of_filter. split; [done|].
    apply elem_of_py_sorted. apply list_elem_of_fmap. exists (timestamp p, p). split; [done|]. by apply elem_of_map_to_list.
Qed.

Lemma window_keys points a b : timed points →
  map timestamp (window points a b) =
  base.filter (λ m, a <= m < b) (py_sorted Z.compare (map fst (map_to_list points))).
Proof.
  intros Ht. apply omap_timed; [done|]. intros k [_ Hk]%list_elem_of_filter. apply elem_of_py_sorted in Hk.
  apply list_elem_of_fmap in Hk as ([k' p] & -> & Hin). apply elem_of_map_to_list in Hin. simpl. eauto.
Qed.

Lemma StronglySorted_map {A B} (R : relation B) (f : A → B) l :
  StronglySorted R (map f l) ↔ StronglySorted (λ x y, R (f x) (f y)) l.
Proof.
  induction l as [|x l IH]; simpl; [split; constructor|].
  split; intros [Hs Hx]%StronglySorted_inv; constructor; [by apply IH| |by apply IH|].
  - exact (proj1 (Forall_fmap f (R (f x)) l) Hx).
  - exact (proj2 (Forall_fmap f (R (f x)) l) Hx).
Qed.

Lemma StronglySorted_filter {A} (R : relation A) (P : A → Prop) `{∀ x, Decision (P x)} l :
  StronglySorted R l → StronglySorted R (base.filter P l).
Proof.
  induction 1 as [|x l Hs IH Hx]; [constructor|]. rewrite filter_cons. case_decide; [|done]. constructor; [done|].
  rewrite Forall_forall in Hx. apply Forall_forall. intros y [_ Hy]%list_elem_of_filter. auto.
Qed.

Lemma window_sorted points a b : timed points → StronglySorted (key_le point_order) (window points a b).
Proof.
  intros Ht. apply (StronglySorted_map (key_le Z.compare) timestamp). rewrite window_keys by done.
  apply StronglySorted_filter, py_sorted_sorted, _.
Qed.

Lemma window_nodup points a b : timed points → NoDup (map timestamp (window points a b)).
Proof.
  intros Ht. rewrite window_keys by done. apply NoDup_filter. rewrite (py_sorted_perm Z.compare). apply NoDup_fst_map_to_list.
Qed.

Lemma to_numeric_val d : (dval (to_numeric d) == dval d)%Q.
Proof.
  unfold to_numeric. destruct (Z.ltb_spec 0 (dexp d)); [|done]. unfold dval. simpl. rewrite inject_Z_mult, (p10_Z (dexp d)) by lia.
  rewrite (p10_Z 0) by lia. change (inject_Z (10 ^ 0)) with 1%Q. ring.
Qed.

Lemma deqb_numeric a b : deqb (to_numeric a) b = deqb a b.
Proof. apply eq_true_iff_eq. by rewrite !deqb_true, to_numeric_val. Qed.

(** ** The two backends *)

Definition canonical (p : NormalizedPoint) : NormalizedPoint :=
  MkPoint (np_id p) (np_tenant p) (np_source p) (metric p) (timestamp p) (to_numeric (value p)) (unit_ p) (raw_event_id p)
    (raw_payload_hash p) (transformation p).

(** the point named by the normalizer *)
Definition named (p : NormalizedPoint) : Prop := np_id p = "norm-" +:+ raw_event_id p.

Record ts_same (s : series_map) (db : point_table) : Prop := {
  tss_rows : ∀ t m ts, db !! (t, m, ts) = point_row_of <$> default ∅ (s !! (t, m)) !! ts;
  tss_labels : ∀ t m ts p, default ∅ (s !! (t, m)) !! ts = Some p → np_tenant p = t ∧ metric p = m ∧ timestamp p = ts ∧ named p
}.

Inductive ts_op := Append (p : NormalizedPoint) | Query (t m : string) (a b : Z).
Definition op_tenant (op : ts_op) : string := match op with Append p => np_tenant p | Query t _ _ _ => t end.
Definition ts_op_ok (op : ts_op) : Prop :=
  tenant_valid (op_tenant op) = true ∧ match op with Append p => named p | _ => True end.

(** the answer of an operation: whether a point was new, or the points of a window *)
Definition answer : Type := bool + list NormalizedPoint.
Definition canonical_answer (r : result answer) : result answer :=
  match r with Ok (inr l) => Ok (inr (map canonical l)) | _ => r end.

Definition mem_ts (op : ts_op) : M series_map answer :=
  match op with
  | Append p => b ← mem_append p; mret (inl b)
  | Query t m a b => l ← mem_query t m a b; mret (inr l)
  end.

Section ts_facts.
Context (txn : ∀ S A, M S A → M S A) `{!Transactional txn}.

Definition pg_ts (op : ts_op) : M point_table answer :=
  match op with
  | Append p => b ← pg_append txn p; mret (inl b)
  | Query t m a b => l ← pg_query txn t m a b; mret (inr l)
  end.

Lemma same_append s db p : ts_same s db → ts_op_ok (Append p) →
  (mem_append p s).2 = (pg_append txn p db).2 ∧ ts_same (mem_append p s).1 (pg_append txn p db).1.
Proof.
  intros Hsame [Hv Hn]. simpl in *. unfold mem_append, pg_append. rewrite tenant_connection_run by done.
  munfold. unfold atomically. rewrite (tss_rows _ _ Hsame). set (key := (np_tenant p, metric p)).
  set (series := default ∅ (s !! key)) in *.
  assert (∀ db, ts_same s db → ts_same (<[key := series]> s) db) as Hframe.
  { intros db' [H1 H2]. split; intros t m ts; destruct (decide ((t, m) = key)) as [Hk|Hk].
    - rewrite Hk, lookup_insert_eq. simpl. rewrite <- Hk, H1, Hk. done.
    - rewrite lookup_insert_ne by done. apply H1.
    - rewrite Hk, lookup_insert_eq. simpl. intros x Hx. apply (H2 t m). by rewrite Hk.
    - rewrite lookup_insert_ne by done. apply H2. }
  destruct (series !! timestamp p) as [prior|] eqn:Ep; simpl.
  - rewrite deqb_numeric. destruct (_ && _); simpl; (split; [done|by apply Hframe]).
  - split; [done|]. destruct Hsame as [H1 H2]. split; intros t m ts; destruct (decide ((t, m) = key)) as [Hk|Hk].
    + rewrite Hk, lookup_insert_eq. simpl. unfold key in Hk. simplify_eq. destruct (decide (ts = timestamp p)) as [->|Hts].
      * by rewrite !lookup_insert_eq.
      * rewrite !lookup_insert_ne by congruence. apply H1.
    + rewrite (lookup_insert_ne s) by done. rewrite lookup_insert_ne; [apply H1|]. intros [= ? ? ?]. apply Hk. unfold key. congruence.
    + rewrite Hk, lookup_insert_eq. simpl. unfold key in Hk. simplify_eq. intros x. rewrite lookup_insert_Some.
      intros [[<- <-]|[_ Hx]]; [done|]. by apply H2.
    + rewrite lookup_insert_ne by done. apply H2.
Qed.

Lemma row_point_of p : named p → row_point (np_tenant p, metric p, timestamp p) (point_row_of p) = canonical p.
Proof. intros Hn. unfold row_point, point_row_of, canonical. simpl. by rewrite <- Hn. Qed.

Lemma same_query s db t m a b : ts_same s db → tenant_valid t = true →
  pg_query txn t m a b db = (db, Ok (map canonical (window (default ∅ (s !! (t, m))) a b))).
Proof.
  intros [Hr Hlab] Hv. unfold pg_query. rewrite tenant_connection_run by done. munfold. unfold atomically. do 2 f_equal.
  set (points := default ∅ (s !! (t, m))) in *.
  assert (timed points) as Ht by (intros ts p Hp; by apply (Hlab t m ts p)).
  set (rows := map (λ kr, row_point kr.1 kr.2) (base.filter (λ kr, kr.1.1 = (t, m) ∧ a <= kr.1.2 < b) (map_to_list db))).
  assert (∀ p, p ∈ rows ↔ p ∈ map canonical (window points a b)) as Hin.
  { intros p. unfold rows. rewrite !list_elem_of_fmap. split.
    - intros ([[k ts] r] & -> & [[Hk Hts] Hin]%list_elem_of_filter). simpl in *. subst k. apply elem_of_map_to_list in Hin.
      rewrite Hr in Hin. fold points in Hin. destruct (points !! ts) as [p0|] eqn:Ep; [|done]. injection Hin as <-. exists p0.
      destruct (Hlab t m ts p0 Ep) as (<- & <- & <- & Hn). split; [by apply row_point_of|]. by apply elem_of_window.
    - intros (p0 & -> & [Hp0 Hts]%elem_of_window); [|done]. destruct (Hlab t m (timestamp p0) p0 Hp0) as (Ht' & Hm' & _ & Hn).
      exists ((t, m, timestamp p0), point_row_of p0). simpl. split; [by rewrite <- row_point_of, Ht', Hm'|].
      apply list_elem_of_filter. split; [done|]. apply elem_of_map_to_list. rewrite Hr. fold points. by rewrite Hp0. }
  assert (NoDup (map timestamp (map canonical (window points a b)))) as Hnd.
  { rewrite map_map. by apply window_nodup. }
  apply (sorted_unique point_order).
  - apply py_sorted_sorted, _.
  - apply (StronglySorted_map (key_le point_order) canonical). by apply window_sorted.
  - rewrite (py_sorted_perm point_order). apply NoDup_Permutation; [|by eapply NoDup_keys|done].
    unfold rows. apply (NoDup_keys (λ p, (np_tenant p, metric p, timestamp p))). rewrite map_map.
    rewrite (map_ext _ fst) by (by intros [[[??]?]?]).
    eapply sublist_NoDup; [apply (NoDup_fst_map_to_list db)|]. apply sublist_map, sublist_of_filter.
  - intros x y Hx Hy Hxy. rewrite elem_of_py_sorted, Hin in Hx. rewrite elem_of_py_sorted, Hin in Hy.
    apply (NoDup_map_elem timestamp (map canonical (window points a b))); [done..|]. by apply Z.compare_eq in Hxy.
Qed.

Lemma same_op s db op : ts_same s db → ts_op_ok op →
  (pg_ts op db).2 = canonical_answer (mem_ts op s).2 ∧ ts_same (mem_ts op s).1 (pg_ts op db).1.
Proof.
  intros Hs Hok. destruct op as [p|t m a b]; unfold mem_ts, pg_ts, mbind, M_bind, mret, M_ret.
  - destruct (same_append s db p Hs Hok) as [Hr Hs']. destruct (mem_append p s) as [s' [x|e]], (pg_append txn p db) as [db' [y|e']];
      simpl in *; simplify_eq; done.
  - rewrite (same_query s db t m a b Hs (proj1 Hok)). unfold mem_query. munfold. done.
Qed.
End ts_facts.

(** The two time-series stores implement one contract.  On any history of appends and window queries by
    valid tenants they answer alike: an append is new, a repetition of the same value and unit, or a
    conflict; a query returns the same points in time order, with the table's values in [numeric] form. *)
Theorem timeseries_backends_agree (txn : ∀ S A, M S A → M S A) `{!Transactional txn} (h : list ts_op) :
  Forall ts_op_ok h →
  (run_all (pg_ts txn) h ∅).2 = map canonical_answer (run_all mem_ts h ∅).2.
Proof.
  intros Hh. assert (ts_same ∅ ∅) as H0.
  { split; intros t m ts; rewrite lookup_empty; simpl; [by rewrite !lookup_empty|]. intros p. by rewrite lookup_empty. }
  revert H0. generalize (∅ : series_map), (∅ : point_table). induction Hh as [|op h Hop Hh IH]; intros s db Hs; [done|]. simpl.
  destruct (same_op txn s db op Hs Hop) as [Hr Hs']. destruct (mem_ts op s) as [s1 r1], (pg_ts txn op db) as [db1 r2]. simpl in *.
  specialize (IH s1 db1 Hs'). destruct (run_all mem_ts h s1) as [s2 rs], (run_all (pg_ts txn) h db1) as [db2 rs']. simpl in *. by rewrite Hr, IH.
Qed.

Definition sample_point (t : Z) (v : dec) : NormalizedPoint :=
  MkPoint "norm-e1" "acme" "meter" "load" t v "kW" "e1" "h" "kW->kW".

Lemma timeseries_backends_agree_witness :
  let h := [Append (sample_point 7 (Dec 3 1)); Append (sample_point 5 (dint 2)); Append (sample_point 7 (dint 30));
            Append (sample_point 5 (dint 4)); Query "acme" "load" 5 8] in
  (run_all (pg_ts (@atomically)) h ∅).2 =
  [Ok (inl true); Ok (inl true); Ok (inl false); Err (ValueError "conflicting point at identical timestamp");
   Ok (inr [sample_point 5 (dint 2); sample_point 7 (dint 30)])].
Proof. intros h. rewrite (timeseries_backends_agree (@atomically) h); [vm_compute; reflexivity|by repeat constructor]. Defined.

(** ** Resampling *)

(** the buckets [start, start + step), ..., the last one cut at the end *)
Definition buckets (start end_ step : Z) (n : nat) : list (Z * Z) :=
  map (λ i, (start + Z.of_nat i * step, Z.min end_ (start + Z.of_nat i * step + step))) (seq 0 n).

Lemma bucket_mean_ok points lo hi : ∃ o, bucket_mean points lo hi = Ok o ∧
  (o = None ↔ ∀ p, p ∈ points → ¬ (lo <= timestamp p < hi)).
Proof.
  unfold bucket_mean. munfold. set (l := base.filter (λ p, lo <= timestamp p < hi) points).
  assert (∀ p, p ∈ l ↔ lo <= timestamp p < hi ∧ p ∈ points) as Hl by (intros p; unfold l; by rewrite list_elem_of_filter).
  destruct l as [|p l]; simpl.
  - exists None. split; [done|]. split; [|done]. intros _ p Hp Hr. assert (p ∈ []) as Hn by by apply Hl. by apply elem_of_nil in Hn.
  - destruct (ddiv_ok 28 (dsum (value p :: map value l)) (dint (Z.of_nat (S (length (map value l)))))) as [q Hq]; [simpl; lia|].
    unfold ddiv. rewrite Hq. exists (Some q). split; [done|]. split; [done|]. intros Hno. exfalso. destruct (proj1 (Hl p)) as [Hr Hin]; [left|].
    by eapply Hno.
Qed.

Lemma resample_loop_spec points end_ step n : 0 < step → ∀ cursor, cursor + (Z.of_nat n - 1) * step < end_ <= cursor + Z.of_nat n * step ∨ n = 0%nat ∧ end_ <= cursor →
  ∃ l, resample_loop (S n) points end_ step cursor = Ok l ∧
    Forall2 (λ e b, e.1 = b.1 ∧ bucket_mean points b.1 b.2 = Ok e.2) l (buckets cursor end_ step n).
Proof.
  intros Hs. induction n as [|n IH]; intros cursor Hc.
  - exists []. split; [|constructor]. simpl. by rewrite (proj2 (Z.ltb_ge _ _)) by lia.
  - destruct Hc as [Hc|[? _]]; [|done].
    change (resample_loop (S (S n)) points end_ step cursor) with
      (if cursor <? end_ then
         let following := Z.min end_ (cursor + step) in
         mean ← bucket_mean points cursor following;
         rest ← resample_loop (S n) points end_ step following;
         Ok ((cursor, mean) :: rest)
       else Ok []).
    rewrite (proj2 (Z.ltb_lt _ _)) by nia. cbv zeta.
    destruct (bucket_mean_ok points cursor (Z.min end_ (cursor + step))) as (o & Ho & _).
    destruct n as [|n].
    + assert (Z.min end_ (cursor + step) = end_) as Hmin by lia. rewrite Hmin in *.
      assert (resample_loop 1 points end_ step end_ = Ok []) as E by (simpl; by rewrite Z.ltb_irrefl).
      munfold. rewrite Ho. simpl in E. rewrite E. exists [(cursor, o)]. split; [done|].
      assert (buckets cursor end_ step 1 = [(cursor, end_)]) as -> by (unfold buckets; simpl; f_equal; f_equal; lia).
      by repeat constructor.
    + assert (Z.min end_ (cursor + step) = cursor + step) as Hmin by nia. rewrite Hmin in *.
      destruct (IH (cursor + step)) as (l & Hl & Hf); [left; lia|]. unfold mbind, result_bind. rewrite Ho, Hl.
      exists ((cursor, o) :: l). split; [done|]. unfold buckets. rewrite <- cons_seq. cbn [map]. constructor.
      * replace (cursor + Z.of_nat 0 * step) with cursor by lia. rewrite Hmin. done.
      * rewrite <- seq_shift, map_map. unfold buckets in Hf.
        rewrite (map_ext _ (λ i, (cursor + step + Z.of_nat i * step, Z.min end_ (cursor + step + Z.of_nat i * step + step)))); [exact Hf|].
        intros i. f_equal; [|f_equal]; lia.
Qed.

(** Resampling terminates and covers the window.  With a positive step and a non-empty window the loop
    returns one entry per step, [ceil((end - start) / step)] of them; the entry at [start + i * step] is the
    mean of the stored points of the tenant's metric in that bucket, and [None] exactly when it has none;
    every instant of the window lies in exactly one bucket, so every point counts once. *)
Theorem resample_mean_correct (t m : string) (start end_ step : Z) (s : series_map) :
  0 < step → start < end_ →
  let points := window (default ∅ (s !! (t, m))) start end_ in
  let n := Z.to_nat ((end_ - start + step - 1) / step) in
  ∃ l, resample_mean (mem_query t m start end_) start end_ step s = (s, Ok l) ∧ length l = n ∧
    (∀ i b, buckets start end_ step n !! i = Some b → ∃ o, l !! i = Some (b.1, o) ∧
      bucket_mean points b.1 b.2 = Ok o ∧ (o = None ↔ ∀ p, p ∈ points → ¬ (b.1 <= timestamp p < b.2))) ∧
    (∀ x, start <= x < end_ → ∃ i b, buckets start end_ step n !! i = Some b ∧ b.1 <= x < b.2 ∧
      ∀ j b', buckets start end_ step n !! j = Some b' → b'.1 <= x < b'.2 → j = i).
Proof.
  intros Hs Hlt points n. set (q := (end_ - start + step - 1) / step) in *.
  assert (start + (q - 1) * step < end_ <= start + q * step) as Hq.
  { pose proof (Z.div_mod (end_ - start + step - 1) step ltac:(lia)). fold q in H.
    pose proof (Z.mod_pos_bound (end_ - start + step - 1) step Hs). nia. }
  assert (1 <= q) as Hq1 by nia.
  destruct (resample_loop_spec points end_ step n Hs start) as (l & Hl & Hf); [left; unfold n; lia|].
  assert (∀ i b, buckets start end_ step n !! i = Some b →
    (i < n)%nat ∧ b = (start + Z.of_nat i * step, Z.min end_ (start + Z.of_nat i * step + step))) as Hb.
  { intros i b Hi. pose proof (lookup_lt_Some _ _ _ Hi) as Hlt'. unfold buckets in *. rewrite length_map, length_seq in Hlt'.
    rewrite list_lookup_fmap, lookup_seq_lt in Hi by done. by injection Hi as <-. }
  exists l. split_and!.
  - unfold resample_mean, mem_query. munfold. rewrite (proj2 (Z.leb_gt _ _)) by lia. fold q n points. by rewrite Hl.
  - apply Forall2_length in Hf. rewrite Hf. unfold buckets. by rewrite length_map, length_seq.
  - intros i b Hi. destruct (Forall2_lookup_r _ _ _ _ _ Hf Hi) as ([c o] & Hc & He & Ho). simpl in *. subst c. exists o. split_and!; [done..|].
    destruct (bucket_mean_ok points b.1 b.2) as (o' & Ho' & Hn). assert (o = o') as -> by congruence. done.
  - intros x Hx. set (k := (x - start) / step). assert (start + k * step <= x < start + k * step + step ∧ 0 <= k) as [Hk Hk0].
    { pose proof (Z.div_mod (x - start) step ltac:(lia)) as Hd. fold k in Hd. pose proof (Z.mod_pos_bound (x - start) step Hs). nia. }
    assert (k < q) as Hkq by nia.
    exists (Z.to_nat k), (start + Z.of_nat (Z.to_nat k) * step, Z.min end_ (start + Z.of_nat (Z.to_nat k) * step + step)). split_and!.
    + unfold buckets. rewrite list_lookup_fmap, lookup_seq_lt by (unfold n; lia). done.
    + simpl. rewrite Z2Nat.id by lia. lia.
    + simpl. rewrite Z2Nat.id by lia. lia.
    + intros j b' Hj Hin. destruct (Hb j b' Hj) as [Hjn ->]. simpl in Hin. assert (Z.of_nat j = k) by nia. lia.
Qed.

Lemma resample_mean_correct_witness :
  let s := {[("acme", "load") := {[0 := sample_point 0 (dint 2); 3 := sample_point 3 (dint 4); 20 := sample_point 20 (dint 5)]}]} in
  (resample_mean (mem_query "acme" "load" 0 25) 0 25 10 s).2 =
    Ok [(0, Some (dint 3)); (10, None); (20, Some (dint 5))] ∧
  ∃ l, (resample_mean (mem_query "acme" "load" 0 25) 0 25 10 s).2 = Ok l ∧ length l = 3%nat.
Proof.
  intros s. split; [vm_compute; reflexivity|].
  destruct (resample_mean_correct "acme" "load" 0 25 10 s ltac:(lia) ltac:(lia)) as (l & Hl & Hn & _).
  exists l. rewrite Hl. split; [reflexivity|exact Hn].
Defined.

(** ** Quality *)

Lemma count_if_bounds {A} (f : A → bool) l : 0 <= count_if f l <= Z.of_nat (length l).
Proof. unfold count_if. pose proof (length_filter (λ x, f x = true) l). lia. Qed.

Lemma remove_dups_length `{EqDecision A} (l : list A) : (length (remove_dups l) <= length l)%nat.
Proof. induction l as [|x l IH]; simpl; [done|]. case_decide; simpl; lia. Qed.

(** The quality assessment of a window with a non-zero step always succeeds; its score lies between 0
    and 1; the status follows the score ("good" from 0.9, "degraded" from 0.6, else "bad"); the counts are
    not negative; the reasons name exactly the defects counted; and the score is 1 when there is none. *)
Theorem assess_bounds points a b step now stale_after mn mx : step ≠ 0 →
  ∃ q, assess points a b step now stale_after mn mx = Ok q ∧
    (0 <= dval (score q) <= 1)%Q ∧
    (status q = "good" ↔ (9 # 10 <= dval (score q))%Q) ∧ (status q = "bad" ↔ (dval (score q) < 6 # 10)%Q) ∧
    Forall (Z.le 0) [missing q; stale q; duplicates q; outliers q; conflicts q] ∧
    (∀ r, r ∈ reasons q ↔ ∃ n, n ≠ 0 ∧ (r, n) ∈ [("missing", missing q); ("stale", stale q); ("duplicate", duplicates q);
       ("outlier", outliers q); ("conflict", conflicts q)]) ∧
    (reasons q = [] → (dval (score q) == 1)%Q).
Proof.
  intros Hstep. unfold assess, expected_points, raise_if, mbind, result_bind. rewrite (proj2 (Z.eqb_neq _ _)) by done. cbv beta iota zeta.
  set (n := bin_trunc _). set (unique := remove_dups _).
  set (mis := Z.max 0 _). set (sta := count_if _ points). set (dup := Z.of_nat (length points) - _).
  set (out := count_if (outlier mn mx) points). set (con := count_if (conflicting points) unique).
  set (den := Z.max (Z.max _ _) 1).
  assert (0 <= mis) by (unfold mis; lia). assert (0 <= sta) by apply count_if_bounds. assert (0 <= out) by apply count_if_bounds.
  assert (0 <= con) by apply count_if_bounds.
  assert (0 <= dup). { unfold dup, unique. pose proof (remove_dups_length (map timestamp points)). rewrite length_map in *. lia. }
  assert (0 < den) by (unfold den; lia).
  destruct (ddiv_ok 28 (dint (mis + sta + dup + out + con)) (dint den)) as [p Hp]; [simpl; lia|]. unfold ddiv. rewrite Hp.
  assert (0 <= dval p)%Q as Hp0.
  { eapply (ddiv_nonneg (dint (mis + sta + dup + out + con)) (dint den)); [simpl; lia| |exact Hp]. rewrite dval_dint.
    change 0%Q with (inject_Z 0). rewrite <- Zle_Qle. lia. }
  set (d := dsub (dint 1) p). assert (dval d <= 1)%Q as Hd1.
  { unfold d. pose proof (dsub_decreases 28 ltac:(lia) (dint 1) p ltac:(by apply fits_dec) Hp0) as Hdd. fold (dsub (dint 1) p) in Hdd.
    rewrite (dval_dint 1) in Hdd. exact Hdd. }
  eexists. split; [reflexivity|]. cbn [score status missing stale duplicates outliers conflicts reasons]. destruct (dmax_val (dint 0) d) as (Hm0 & Hm1 & Hm2). set (sc := dmax (dint 0) d) in *.
  assert (dval (dint 0) == 0)%Q as Hz by by rewrite dval_dint.
  assert (dval (Dec 9 (-1)) == 9 # 10)%Q as H9 by reflexivity. assert (dval (Dec 6 (-1)) == 6 # 10)%Q as H6 by reflexivity.
  split_and!; [lra|lra|..].
  - unfold quality_status. destruct (dleb (Dec 9 (-1)) sc) eqn:E; [apply dleb_true in E|apply dleb_false in E].
    + split; [intros _; lra|done].
    + destruct (dleb (Dec 6 (-1)) sc); (split; [done|intros; lra]).
  - unfold quality_status. destruct (dleb (Dec 9 (-1)) sc) eqn:E; [apply dleb_true in E; split; [done|intros; lra]|].
    destruct (dleb (Dec 6 (-1)) sc) eqn:E6; [apply dleb_true in E6|apply dleb_false in E6].
    + split; [done|intros; lra].
    + split; [intros _; lra|done].
  - by repeat constructor.
  - intros r. rewrite (list_elem_of_omap _ _ r). split.
    + intros ([r' k] & Hin & Hk). simpl in Hk. destruct (Z.eqb_spec k 0); [done|]. injection Hk as ->. by exists k.
    + intros (k & Hk & Hin). exists (r, k). split; [done|]. simpl. by rewrite (proj2 (Z.eqb_neq _ _)).
  - intros Hr. assert (mis = 0 ∧ sta = 0 ∧ dup = 0 ∧ out = 0 ∧ con = 0) as (-> & -> & -> & -> & ->).
    { simpl in Hr. destruct (mis =? 0) eqn:E1; [|done]. destruct (sta =? 0) eqn:E2; [|done]. destruct (dup =? 0) eqn:E3; [|done].
      destruct (out =? 0) eqn:E4; [|done]. destruct (con =? 0) eqn:E5; [|done]. by bprop. }
    assert (dval p == 0)%Q as Hpz.
    { simpl in Hp. rewrite ddiv_zero_num in Hp by (simpl; lia). injection Hp as Hp. rewrite <- Hp. apply dval_0. }
    assert (dval (dint 1) - dval p == dval (dint 1))%Q as He by (rewrite Hpz; lra).
    assert (dval d == dval (dint 1))%Q as Hd.
    { rewrite <- He. apply (dsub_exact 28 ltac:(lia)). apply (fits_proper 28 (dval (dint 1))); [by rewrite He|]. by apply fits_dec. }
    rewrite dval_dint in Hd. change (inject_Z 1) with 1%Q in Hd.
    lra.
Qed.

Lemma assess_bounds_witness :
  (∃ q, assess [sample_point 0 (dint 2); sample_point 10 (dint 9)] 0 40 10 20 15 None (Some (dint 8)) = Ok q ∧
    (0 <= dval (score q) <= 1)%Q) ∧
  assess [sample_point 0 (dint 2); sample_point 10 (dint 9)] 0 40 10 20 15 None (Some (dint 8)) =
    Ok (MkQuality (dint 0) "bad" 2 1 0 1 0 ["missing"; "stale"; "outlier"]).
Proof.
  split; [|vm_compute; reflexivity].
  destruct (assess_bounds [sample_point 0 (dint 2); sample_point 10 (dint 9)] 0 40 10 20 15 None (Some (dint 8)) ltac:(lia))
    as (q & Hq & Hb & _). exists q. split; [exact Hq|exact Hb].
Defined.

(** ** Normalisation *)

Definition base_factor (u : string) : dec :=
  default (dint 1) (union_with (λ a _, Some a) (od_get u POWER_FACTORS) (od_get u ENERGY_FACTORS)).
Definition base_unit (u : string) : string :=
  if bool_decide (u ∈ ["W"; "kW"; "MW"]) then "kW" else if bool_decide (u ∈ ["Wh"; "kWh"; "MWh"]) then "kWh" else u.

Lemma dmul_factor x f : Z.abs (coef x) < 10 ^ 25 → 0 <= coef f <= 1000 → (dval (dmul x f) == dval x * dval f)%Q.
Proof.
  intros Hx Hf. unfold dmul. apply dmul_exact; [lia|]. apply (fits_proper 28 (dval (Dec (coef x * coef f) (dexp x + dexp f)))).
  - unfold dval. simpl. rewrite p10_add, inject_Z_mult. ring.
  - apply fits_dec. simpl coef. rewrite Z.abs_mul, (Z.abs_eq (coef f)) by lia. nia.
Qed.

(** Normalisation is exact.  From an event whose payload has the four fields, an aware timestamp and a
    value of at most 25 digits, the normalizer makes the point of that event (its id, tenant, source and
    payload hash), at the same instant, in the base unit of the unit given (kW, kWh, or the unit itself), and
    its value is the value read times the unit's factor, without rounding. *)
Theorem normalize_exact fromisoformat str_container (e : RawEvent) m at_ x u :
  read_signal fromisoformat str_container (payload e) = Ok (m, at_, x, u) → aware at_ = true → Z.abs (coef x) < 10 ^ 25 →
  ∃ p, normalize fromisoformat str_container e = Ok p ∧ named p ∧ raw_event_id p = raw_id e ∧ np_tenant p = raw_tenant e ∧
    np_source p = source e ∧ raw_payload_hash p = payload_hash e ∧ metric p = m ∧ timestamp p = us at_ ∧
    unit_ p = base_unit u ∧ (dval (value p) == dval x * dval (base_factor u))%Q ∧ transformation p = u +:+ "->" +:+ base_unit u.
Proof.
  intros Hr Ha Hx. unfold normalize. rewrite Hr, Ha. unfold mbind, result_bind, raise_if. simpl negb. cbv iota.
  assert ((to_base_unit x u).2 = base_unit u ∧ (dval (to_base_unit x u).1 == dval x * dval (base_factor u))%Q) as [Hu Hv].
  { unfold to_base_unit, base_unit, base_factor, POWER_FACTORS, ENERGY_FACTORS.
    destruct (decide (u ∈ ["W"; "kW"; "MW"; "Wh"; "kWh"; "MWh"])) as [Hin|Hout].
    - repeat (apply elem_of_cons in Hin as [->|Hin]); try by apply elem_of_nil in Hin.
      all: split; [reflexivity|simpl; by apply dmul_factor].
    - rewrite !bool_decide_eq_false_2 by set_solver. simpl. rewrite !decide_False by set_solver. simpl. split; [done|].
      rewrite dval_dint. change (inject_Z 1) with 1%Q. ring. }
  destruct (to_base_unit x u) as [v u']. simpl in *. subst u'. eexists. split; [reflexivity|]. done.
Qed.

Definition sample_signal (v u : string) : RawEvent :=
  MkRaw "e9" "acme" "meter" 4 [("metric", VStr "load"); ("timestamp", VStr "now"); ("value", VStr v); ("unit", VStr u)] "h9".
Definition sample_clock (_ : string) : result datetime := Ok (DT 77 true).

Lemma normalize_exact_witness :
  normalize sample_clock (λ _, "") (sample_signal "1.50" "MW") =
    Ok (MkPoint "norm-e9" "acme" "meter" "load" 77 (Dec 150000 (-2)) "kW" "e9" "h9" "MW->kW") ∧
  ∃ p, normalize sample_clock (λ _, "") (sample_signal "1.50" "MW") = Ok p ∧ (dval (value p) == 1500)%Q.
Proof.
  split; [vm_compute; reflexivity|].
  destruct (normalize_exact sample_clock (λ _, "") (sample_signal "1.50" "MW") "load" (DT 77 true) (Dec 150 (-2)) "MW")
    as (p & Hp & _ & _ & _ & _ & _ & _ & _ & _ & Hv & _); [vm_compute; reflexivity|reflexivity|simpl; lia|].
  exists p. split; [exact Hp|]. rewrite Hv. vm_compute. reflexivity.
Defined.

(** A value that is no number is not reported as an invalid payload: [Decimal] raises [InvalidOperation],
    which is not a [ValueError]. *)
Example normalize_nonnumeric_escapes :
  normalize sample_clock (λ _, "") (sample_signal "n/a" "kW") = Err InvalidOperation.
Proof. vm_compute. reflexivity. Qed.
