(* ===== verification/Ingestion.v ===== *)
(** * Circuit breaker and ingestion

    [packages/connectors/base.py]: the circuit breaker in front of a connector; [apps/worker/ingestion.py]: landing
    and normalising a batch of raw events behind it.  Times of the monotonic clock are in microseconds; an
    operation is any computation on its world [W], and the pauses between attempts are left out. *)
From S2P Require Import Prelude PyDecimal PyValue PyText Domain Landing TimeSeries.
Local Open Scope Z_scope.

(** ** Circuit breaker *)

Inductive ConnectorState := HEALTHY | DEGRADED | OPEN.
#[global] Instance ConnectorState_eq_dec : EqDecision ConnectorState.
Proof. solve_decision. Defined.

Record CircuitBreaker := MkBreaker { failure_threshold : Z; recovery : Z; failures : Z; opened_at : option Z }.
Definition new_breaker : CircuitBreaker := MkBreaker 3 30000000 0 None.

Definition breaker_state (now : Z) (b : CircuitBreaker) : ConnectorState :=
  match opened_at b with
  | None => if failures b =? 0 then HEALTHY else DEGRADED
  | Some t => if recovery b <=? now - t then DEGRADED else OPEN
  end.

Section execute.
Context {W X : Type} (operation : M W X).
(** the monotonic clock when attempt [i] has failed *)
Context (clock : nat → Z).

Definition reset (b : CircuitBreaker) : CircuitBreaker := MkBreaker (failure_threshold b) (recovery b) 0 None.
Definition one_more_failure (b : CircuitBreaker) : CircuitBreaker :=
  MkBreaker (failure_threshold b) (recovery b) (failures b + 1) (opened_at b).
Definition open_circuit (t : Z) (b : CircuitBreaker) : CircuitBreaker :=
  MkBreaker (failure_threshold b) (recovery b) (failures b) (Some t).

(** [for attempt in range(retries + 1)], [n] rounds left *)
Fixpoint attempts (n i : nat) : M (CircuitBreaker * W) X := λ bw,
  match n with
  | O => (bw, Err (ConnectionError "connector operation failed"))
  | S n' =>
      match operation bw.2 with
      | (w', Ok x) => ((reset bw.1, w'), Ok x)
      | (w', Err _) =>
          let b' := one_more_failure bw.1 in
          if failure_threshold b' <=? failures b' then
            ((open_circuit (clock i) b', w'), Err (ConnectionError "connector operation failed"))
          else attempts n' (S i) (b', w')
      end
  end.

Definition execute (now retries : Z) : M (CircuitBreaker * W) X := λ bw,
  if bool_decide (breaker_state now bw.1 = OPEN) then (bw, Err (ConnectionError "connector circuit is open"))
  else attempts (Z.to_nat (retries + 1)) 0 bw.
End execute.

(** ** Ingestion *)

(** The raw landing and the time series *)
Abbreviation stores := (mem_landing * series_map)%type.

Section ingestion.
Context (fromisoformat : string → result datetime) (str_container : pyval → string).

Record IngestionResult := MkIngestion { accepted_raw : Z; accepted_points : Z; duplicates : Z }.

Definition ingest_event (r : IngestionResult) (e : RawEvent) : M stores IngestionResult := λ s,
  match mem_land e s.1 with
  | (l', Err x) => ((l', s.2), Err x)
  | (l', Ok fresh) =>
      let r1 := if fresh then MkIngestion (accepted_raw r + 1) (accepted_points r) (duplicates r)
                else MkIngestion (accepted_raw r) (accepted_points r) (duplicates r + 1) in
      match normalize fromisoformat str_container e with
      | Err x => ((l', s.2), Err x)
      | Ok p =>
          match TimeSeries.mem_append p s.2 with
          | (m', Err x) => ((l', m'), Err x)
          | (m', Ok added) =>
              ((l', m'), Ok (if added then MkIngestion (accepted_raw r1) (accepted_points r1 + 1) (duplicates r1) else r1))
          end
      end
  end.

Fixpoint process (events_ : list RawEvent) (r : IngestionResult) : M stores IngestionResult :=
  match events_ with
  | [] => mret r
  | e :: rest => r' ← ingest_event r e; process rest r'
  end.

Definition ingest (now : Z) (clock : nat → Z) (events_ : list RawEvent) : M (CircuitBreaker * stores) IngestionResult :=
  execute (process events_ (MkIngestion 0 0 0)) clock now 0.

End ingestion.

(** ** What the breaker does *)

(** The breaker is open, or was, exactly when the failures have reached the threshold. *)
Definition breaker_ok (b : CircuitBreaker) : Prop :=
  0 < failure_threshold b ∧ 0 <= failures b ∧ (opened_at b ≠ None ↔ failure_threshold b <= failures b).

(** An operation that counts its calls *)
Definition counted {W X} (operation : M W X) : M (nat * W) X := λ nw,
  let '(w', r) := operation nw.2 in ((S nw.1, w'), r).

Section breaker_facts.
Context {W X : Type} (operation : M W X) (clock : nat → Z).

(** What [n] attempts from [(b, (c, w))] guarantee *)
Definition attempts_ok (n : nat) (b : CircuitBreaker) (c : nat) (out : CircuitBreaker * (nat * W) * result X) : Prop :=
  breaker_ok out.1.1 ∧ failure_threshold out.1.1 = failure_threshold b ∧ recovery out.1.1 = recovery b ∧
  (c <= out.1.2.1 <= c + n)%nat ∧ (n ≠ O → c < out.1.2.1)%nat ∧
  Z.of_nat out.1.2.1 <= Z.of_nat c + Z.max 1 (failure_threshold b - failures b) ∧
  match out.2 with
  | Ok _ => failures out.1.1 = 0 ∧ opened_at out.1.1 = None
  | Err e => e = ConnectionError "connector operation failed"
  end.

Lemma attempts_spec n : ∀ i b c w, breaker_ok b → attempts_ok n b c (attempts (counted operation) clock n i (b, (c, w))).
Proof.
  induction n as [|n IH]; intros i b c w Hb; [unfold attempts_ok; simpl; split_and!; try done; lia|].
  pose proof Hb as (Ht & Hf & Ho). cbn [attempts]. unfold counted at 1. cbn [fst snd].
  destruct (operation w) as [w' [x|e]].
  - unfold attempts_ok, breaker_ok. simpl. split_and!; try done; try lia. split; [done|lia].
  - cbn [one_more_failure failure_threshold failures]. destruct (Z.leb_spec (failure_threshold b) (failures b + 1)).
    + unfold attempts_ok, breaker_ok. simpl. split_and!; try done; lia.
    + assert (breaker_ok (one_more_failure b)) as Hb'.
      { unfold breaker_ok. simpl. split_and!; [done|lia|]. split; [intros H1%Ho; lia|lia]. }
      specialize (IH (S i) (one_more_failure b) (S c) w' Hb'). unfold attempts_ok in *. simpl in *.
      destruct IH as (? & ? & ? & ? & ? & ? & ?). split_and!; try done; lia.
Qed.
End breaker_facts.

(** C31: The circuit breaker.  From a breaker whose failures have reached the threshold exactly when it has opened, a call
    keeps it so.  While the circuit is open the operation is not called and the call fails at once; otherwise, with
    a non-negative number of retries, it is called at least once and at most once more than the retries, and no
    more often than it takes to reach the threshold, so only once when a circuit that was open is tried again.
    A success resets the breaker, and every failure is reported as a [ConnectionError]. *)
Theorem breaker_guards {W X : Type} (operation : M W X) (clock : nat → Z) (now retries : Z) (b : CircuitBreaker) (w : W)
    (Hb : breaker_ok b) (Hr : 0 <= retries) :
  let out := execute (counted operation) clock now retries (b, (0%nat, w)) in
  breaker_ok out.1.1 ∧
  (breaker_state now b = OPEN → out = ((b, (0%nat, w)), Err (ConnectionError "connector circuit is open"))) ∧
  (breaker_state now b ≠ OPEN →
     1 <= Z.of_nat out.1.2.1 <= Z.min (retries + 1) (Z.max 1 (failure_threshold b - failures b)) ∧
     match out.2 with
     | Ok _ => breaker_state now out.1.1 = HEALTHY
     | Err e => e = ConnectionError "connector operation failed"
     end).
Proof.
  unfold execute. simpl. case_bool_decide as Ho; [split_and!; done|].
  destruct (attempts_spec operation clock (Z.to_nat (retries + 1)) 0 b 0 w Hb) as (H1 & _ & _ & H2 & H3 & H4 & H5).
  split_and!; [done|done|]. intros _. assert (Z.to_nat (retries + 1) ≠ O) as Hn by lia. specialize (H3 Hn). split; [lia|].
  destruct (attempts _ _ _ _ _) as [[b' cw] [x|e]]; simpl in *; [|done]. destruct H5 as [Hf Hop]. unfold breaker_state. by rewrite Hop, Hf.
Qed.

Lemma breaker_guards_witness :
  let out := execute (counted (λ n : nat, (S n, @Err nat TypeError))) (λ _, 7) 0 5 (new_breaker, (0%nat, 0%nat)) in
  out.1.2.1 = 3%nat ∧ breaker_state 8 out.1.1 = OPEN ∧ breaker_state 30000007 out.1.1 = DEGRADED ∧ breaker_ok out.1.1.
Proof.
  split; [by vm_compute|]. split; [by vm_compute|]. split; [by vm_compute|].
  apply (breaker_guards (λ n : nat, (S n, @Err nat TypeError)) (λ _, 7) 0 5 new_breaker 0%nat);
    [split_and!; [done|done|]; split; [done|]; simpl; lia|lia].
Defined.

(** ** What ingestion does *)

Section ingestion_facts.
Context (fromisoformat : string → result datetime) (str_container : pyval → string).

#[local] Abbreviation norm := (normalize fromisoformat str_container).
#[local] Abbreviation run_events := (process fromisoformat str_container).

(** The event has been landed, and its point is in the series. *)
Definition settled (s : stores) (e : RawEvent) : Prop :=
  (∃ prior, events s.1 !! raw_key e = Some prior ∧ payload_hash prior = payload_hash e) ∧
  ∃ p series q, norm e = Ok p ∧ s.2 !! (np_tenant p, metric p) = Some series ∧ series !! timestamp p = Some q ∧
    deqb (value q) (value p) = true ∧ unit_ q = unit_ p.

(** What is stored stays. *)
Definition extends (s s' : stores) : Prop :=
  (∀ k e, events s.1 !! k = Some e → events s'.1 !! k = Some e) ∧
  (∀ k series t q, s.2 !! k = Some series → series !! t = Some q → ∃ series', s'.2 !! k = Some series' ∧ series' !! t = Some q).

#[local] Instance extends_preorder : PreOrder extends.
Proof.
  split.
  - intros s. split; [done|]. eauto.
  - intros s1 s2 s3 [H1 H2] [H3 H4]. split; [eauto|]. intros k series t q Hs Hq.
    destruct (H2 _ _ _ _ Hs Hq) as (series' & Hs' & Hq'). eauto.
Qed.

Lemma settled_extends s s' e : extends s s' → settled s e → settled s' e.
Proof.
  intros [H1 H2] [(prior & Hp & Hh) (p & series & q & Hn & Hs & Hq & ? & ?)]. split; [exists prior; auto|].
  destruct (H2 _ _ _ _ Hs Hq) as (series' & ? & ?). by exists p, series', q.
Qed.

Lemma land_spec e l : let '(l', r) := mem_land e l in
  (∀ k x, events l !! k = Some x → events l' !! k = Some x) ∧
  (is_ok r = true → ∃ prior, events l' !! raw_key e = Some prior ∧ payload_hash prior = payload_hash e).
Proof.
  unfold mem_land, mget, mput, mret, M_ret, mguard, raise_if, mbind, M_bind. destruct (events l !! raw_key e) as [prior|] eqn:E.
  - destruct (bool_decide _) eqn:Eb; simpl; (split; [done|]); [|done]. intros _. bprop. eauto.
  - simpl. split.
    + intros k x Hk. rewrite lookup_insert_ne; [done|]. congruence.
    + intros _. exists e. by rewrite lookup_insert_eq.
Qed.

Lemma append_spec p m : let '(m', r) := TimeSeries.mem_append p m in
  (∀ k series t q, m !! k = Some series → series !! t = Some q → ∃ series', m' !! k = Some series' ∧ series' !! t = Some q) ∧
  (is_ok r = true → ∃ series q, m' !! (np_tenant p, metric p) = Some series ∧ series !! timestamp p = Some q ∧
     deqb (value q) (value p) = true ∧ unit_ q = unit_ p).
Proof.
  unfold TimeSeries.mem_append, mget, mput, mret, M_ret, mraise, mbind, M_bind. set (key := (np_tenant p, metric p)).
  assert (∀ (t : Z) new k series u q, m !! k = Some series → series !! u = Some q →
    (∀ q', default ∅ (m !! key) !! t = Some q' → new !! t = Some q') → (∀ u, u ≠ t → new !! u = default ∅ (m !! key) !! u) →
    (default ∅ (m !! key) !! t = None ∨ new !! t = default ∅ (m !! key) !! t) →
    ∃ series', (<[key := new]> m : series_map) !! k = Some series' ∧ series' !! u = Some q) as Hins.
  { intros t new k series u q Hs Hq Ht Hu _. destruct (decide (k = key)) as [->|Hk]; [|exists series; by rewrite lookup_insert_ne].
    exists new. rewrite lookup_insert_eq. split; [done|]. rewrite Hs in *. simpl in *. destruct (decide (u = t)) as [->|]; [by apply Ht|by rewrite Hu]. }
  destruct (default ∅ (m !! key) !! timestamp p) as [prior|] eqn:E.
  - destruct (deqb (value prior) (value p) && _) eqn:Ed; simpl; (split; [|]); try done.
    + intros k series t q Hs Hq. eapply (Hins (timestamp p)); eauto.
    + intros _. bprop. exists (default ∅ (m !! key)), prior. by rewrite lookup_insert_eq.
    + intros k series t q Hs Hq. eapply (Hins (timestamp p)); eauto.
  - simpl. split.
    + intros k series t q Hs Hq. eapply (Hins (timestamp p)); eauto; [congruence|]. intros u Hu. by rewrite lookup_insert_ne.
    + intros _. exists (<[timestamp p := p]> (default ∅ (m !! key))), p. rewrite !lookup_insert_eq. split_and!; try done.
      apply deqb_true. reflexivity.
Qed.

Lemma ingest_event_spec r e s : let '(s', out) := ingest_event fromisoformat str_container r e s in
  extends s s' ∧ ∀ r', out = Ok r' → settled s' e ∧ accepted_raw r' + duplicates r' = accepted_raw r + duplicates r + 1.
Proof.
  unfold ingest_event. pose proof (land_spec e s.1) as Hl. destruct (mem_land e s.1) as [l' [fresh|x]]; destruct Hl as [Hl1 Hl2];
    [|split; [split; [done|eauto]|done]]. destruct (norm e) as [p|x] eqn:En; [|split; [split; [done|eauto]|done]].
  pose proof (append_spec p s.2) as Ha. destruct (TimeSeries.mem_append p s.2) as [m' [added|x]].
  - destruct Ha as [Ha1 Ha2]. split; [done|]. intros r' [= <-].
    destruct (Hl2 eq_refl) as (prior & ? & ?), (Ha2 eq_refl) as (series & q & ? & ? & ? & ?). split.
    + split; [by exists prior|]. by exists p, series, q.
    + destruct fresh, added; simpl; lia.
  - destruct Ha as [Ha1 _]. split; [done|done].
Qed.

Lemma process_spec l : ∀ r s, let '(s', out) := run_events l r s in
  extends s s' ∧ ∀ r', out = Ok r' → Forall (settled s') l ∧
    accepted_raw r' + duplicates r' = accepted_raw r + duplicates r + Z.of_nat (length l).
Proof.
  induction l as [|e l IH]; intros r s; simpl.
  { split; [done|]. intros r' [= <-]. split; [constructor|lia]. }
  unfold mbind, M_bind. pose proof (ingest_event_spec r e s) as He.
  destruct (ingest_event _ _ r e s) as [s1 [r1|x]]; [|by split; [apply He|]]. destruct He as [He1 He2].
  destruct (He2 _ eq_refl) as [Hset Hsum]. specialize (IH r1 s1). destruct (run_events l r1 s1) as [s2 out]. destruct IH as [Hx Hok].
  split; [by etransitivity|]. intros r' Hr'. destruct (Hok _ Hr') as [Hall Hsum']. split; [|lia]. constructor; [by eapply settled_extends|done].
Qed.

(** Events already settled are only counted as duplicates. *)
Lemma ingest_settled r e s : settled s e →
  ingest_event fromisoformat str_container r e s = (s, Ok (MkIngestion (accepted_raw r) (accepted_points r) (duplicates r + 1))).
Proof.
  intros [(prior & Hp & Hh) (p & series & q & Hn & Hs & Hq & Hd & Hu)]. unfold ingest_event, mem_land, mget, mguard, raise_if, mret, M_ret, mbind, M_bind.
  rewrite Hp, bool_decide_true by done. simpl. rewrite Hn. unfold TimeSeries.mem_append, mget, mput, mret, M_ret, mbind, M_bind.
  rewrite Hs. simpl. rewrite Hq, Hd, bool_decide_true by done. simpl. rewrite insert_id by done. by destruct s.
Qed.

Lemma process_settled l : ∀ r s, Forall (settled s) l →
  run_events l r s = (s, Ok (MkIngestion (accepted_raw r) (accepted_points r) (duplicates r + Z.of_nat (length l)))).
Proof.
  induction l as [|e l IH]; intros r s Hl; cbn [process length]; [unfold mret, M_ret; destruct r; simpl; do 3 f_equal; lia|].
  apply Forall_cons in Hl as [He Hl]. unfold mbind, M_bind. rewrite ingest_settled by done. rewrite IH by done.
  cbn [accepted_raw accepted_points duplicates length]. do 3 f_equal. lia.
Qed.
End ingestion_facts.

(** Ingestion loses nothing and counts everything once.  When a batch is ingested, every event has been landed and
    its normalised point is in the time series, the accepted and the duplicate events add up to the batch, the
    breaker is closed, and ingesting the same batch again, at any time and with the breaker as it then is, changes
    no stored event or point and counts every event as a duplicate. *)
Theorem ingest_idempotent (fromisoformat : string → result datetime) (str_container : pyval → string)
    (now : Z) (clock : nat → Z) (batch : list RawEvent) (b b' : CircuitBreaker) (s s' : stores) (r : IngestionResult)
    (Hrun : ingest fromisoformat str_container now clock batch (b, s) = ((b', s'), Ok r)) :
  Forall (settled fromisoformat str_container s') batch ∧ extends s s' ∧
  accepted_raw r + duplicates r = Z.of_nat (length batch) ∧ failures b' = 0 ∧ opened_at b' = None ∧
  ∀ now' clock', ingest fromisoformat str_container now' clock' batch (b', s') = ((b', s'), Ok (MkIngestion 0 0 (Z.of_nat (length batch)))).
Proof.
  unfold ingest, execute in *. simpl in *. case_bool_decide as Ho; [done|]. change (Z.to_nat (0 + 1)) with 1%nat in *. cbn [attempts fst snd] in *.
  pose proof (process_spec fromisoformat str_container batch (MkIngestion 0 0 0) s) as Hp.
  destruct (process _ _ batch _ s) as [s1 [r1|e]]; [|by case_match]. injection Hrun as <- <- <-. destruct Hp as [Hx Hok].
  destruct (Hok _ eq_refl) as [Hall Hsum]. simpl in Hsum. split_and!; [done|done|lia|done|done|]. intros now' clock'.
  rewrite bool_decide_false by done. rewrite process_settled by done. simpl. unfold reset. simpl. by rewrite Z.add_0_l.
Qed.

Definition toy_iso (t : string) : result datetime := z ← py_int (VStr t); Ok (DT z true).
Definition meter_event (tenant id at_ : string) (v : pyval) : RawEvent :=
  MkRaw id tenant "meter" 0 [("metric", VStr "grid"); ("timestamp", VStr at_); ("value", v); ("unit", VStr "kW")] (tenant +:+ id).
Definition empty_stores : stores := (empty_landing, ∅).
Definition toy_ingest (now : Z) (batch : list RawEvent) : M (CircuitBreaker * stores) IngestionResult :=
  ingest toy_iso (λ _, "") now (λ _, now) batch.

Lemma ingest_idempotent_witness :
  let batch := [meter_event "acme" "e1" "10" (VInt 5); meter_event "acme" "e2" "20" (VStr "7.5"); meter_event "acme" "e1" "10" (VInt 5)] in
  let out := toy_ingest 0 batch (new_breaker, empty_stores) in
  out.2 = Ok (MkIngestion 2 2 1) ∧ (toy_ingest 9 batch out.1).2 = Ok (MkIngestion 0 0 3).
Proof.
  intros batch out. split; [by vm_compute|].
  destruct (ingest_idempotent toy_iso (λ _, "") 0 (λ _, 0) batch new_breaker out.1.1 empty_stores out.1.2 (MkIngestion 2 2 1)
    ltac:(by vm_compute)) as (_ & _ & _ & _ & _ & H).
  unfold toy_ingest. rewrite (surjective_pairing out.1). rewrite (H 9 (λ _, 9)). reflexivity.
Defined.

(** An event that cannot be normalised stops every batch that contains it: the events after it are never landed, and
    each attempt counts as a failure of the connector.  After three of them the breaker, which the API shares among
    tenants, refuses the events of every tenant until it recovers. *)
Lemma poison_event_blocks fromisoformat str_container r before bad after s e : normalize fromisoformat str_container bad = Err e →
  is_ok (process fromisoformat str_container (before ++ bad :: after) r s).2 = false ∧
  (process fromisoformat str_container (before ++ bad :: after) r s).1 = (process fromisoformat str_container (before ++ [bad]) r s).1.
Proof.
  intros Hbad. revert r s. induction before as [|x before IH]; intros r s; simpl; unfold mbind, M_bind.
  - unfold ingest_event. destruct (mem_land bad s.1) as [l' [fresh|x]]; [|done]. by rewrite Hbad.
  - destruct (ingest_event _ _ r x s) as [s1 [r1|err]]; [|done]. apply IH.
Qed.

Theorem poison_event_opens_circuit :
  let bad := [meter_event "acme" "e1" "10" (VStr "full"); meter_event "acme" "e2" "20" (VInt 5)] in
  let s1 := (toy_ingest 0 bad (new_breaker, empty_stores)).1 in
  let s2 := (toy_ingest 1 bad s1).1 in let s3 := (toy_ingest 2 bad s2).1 in
  events s3.2.1 !! ("acme", "e2") = None ∧
  (toy_ingest 3 [meter_event "other" "e9" "10" (VInt 1)] s3).2 = Err (ConnectionError "connector circuit is open").
Proof. by vm_compute. Qed.
