(* ===== verification/Simulator.v ===== *)
(** * The simulated cluster and energy system

    [apps/simulator]: the GPU cluster that queues and runs workloads ([cluster.py]), the battery and grid of a
    site ([energy.py]) and the virtual clock ([clock.py]).  The arrival model draws from Python's generator
    and is left out. *)
From S2P Require Import Prelude PyDecimal Domain.
From Stdlib Require Import QArith Lqa.
Local Open Scope Z_scope.

(** ** cluster.py *)

Record SimulatedWorkload := MkWorkload {
  wl_id : string; gpu_count : Z; runtime_steps : Z; power_kw_per_gpu : dec; urgent : bool
}.

Record cluster := MkCluster {
  total_gpus : Z; failed_gpus : Z; running : list (SimulatedWorkload * Z); queued : list SimulatedWorkload
}.

Record AllocationState := MkAllocation {
  al_running : list SimulatedWorkload; al_queued : list SimulatedWorkload; available_gpus : Z
}.

Definition new_cluster (gpus : Z) : result cluster :=
  raise_if (gpus <? 1) (ValueError "simulated cluster requires GPUs");;
  Ok (MkCluster gpus 0 [] []).

(** [sum(job.gpu_count for job, _ in self._running)] *)
Definition used_gpus (l : list (SimulatedWorkload * Z)) : Z := foldr (λ e n, gpu_count e.1 + n) 0 l.

(** the loop of [_schedule]: the running jobs, the pending ones and the GPUs still available *)
Definition schedule_one (acc : list (SimulatedWorkload * Z) * list SimulatedWorkload * Z) (job : SimulatedWorkload)
    : list (SimulatedWorkload * Z) * list SimulatedWorkload * Z :=
  let '(run, pending, available) := acc in
  if gpu_count job <=? available then (run ++ [(job, runtime_steps job)], pending, available - gpu_count job)
  else (run, pending ++ [job], available).

Definition reschedule (c : cluster) : cluster :=
  let available := total_gpus c - failed_gpus c - used_gpus (running c) in
  let '(run, pending, _) := foldl schedule_one (running c, [], available) (queued c) in
  MkCluster (total_gpus c) (failed_gpus c) run pending.

Definition cluster_submit (workloads : list SimulatedWorkload) (c : cluster) : cluster :=
  reschedule (MkCluster (total_gpus c) (failed_gpus c) (running c) (queued c ++ workloads)).

Definition fail_gpus (count : Z) (c : cluster) : cluster * result unit :=
  if (count <? 0) || (total_gpus c <? count) then (c, Err (ValueError "invalid simulated GPU failure count"))
  else (MkCluster (total_gpus c) count (running c) (queued c), Ok tt).

(** the running jobs after one step, and the ids completed by it *)
Definition finished (e : SimulatedWorkload * Z) : option string := if e.2 <=? 1 then Some (wl_id e.1) else None.
Definition advance (e : SimulatedWorkload * Z) : option (SimulatedWorkload * Z) :=
  if e.2 <=? 1 then None else Some (e.1, e.2 - 1).

Definition cluster_step (c : cluster) : cluster * list string :=
  (reschedule (MkCluster (total_gpus c) (failed_gpus c) (omap advance (running c)) (queued c)), omap finished (running c)).

Definition cluster_snapshot (c : cluster) : AllocationState :=
  MkAllocation (map fst (running c)) (queued c) (Z.max 0 (total_gpus c - failed_gpus c - used_gpus (running c))).

(** ** energy.py *)

Record EnergyStep := MkEnergyStep {
  facility_kw : dec; pv_kw : dec; battery_kw : dec; grid_kw : dec; unserved_kw : dec; battery_soc : dec
}.
Record energy_system := MkEnergySystem { capacity : dec; soc : dec }.

Definition min_soc : dec := Dec 1 (-1).

Definition new_energy_system (cap initial : dec) : result energy_system :=
  raise_if (dleb cap (dint 0) || negb (dleb (dint 0) initial && dleb initial (dint 1)))
    (ValueError "invalid simulated battery configuration");;
  Ok (MkEnergySystem cap initial).

Definition energy_step (facility pv grid_limit duration : dec) (s : energy_system) : energy_system * result EnergyStep :=
  if dltb (dmin (dmin (dmin facility pv) grid_limit) duration) (dint 0) || deqb duration (dint 0)
  then (s, Err (ValueError "invalid simulated energy interval"))
  else
    let net := dsub facility pv in
    match ddiv (dmul (dsub (soc s) min_soc) (capacity s)) duration with
    | Err e => (s, Err e)
    | Ok avail =>
        let available_discharge := dmax (dint 0) avail in
        let discharge := dmin (dmax (dsub net grid_limit) (dint 0)) available_discharge in
        let grid := dmin (dmax (dsub net discharge) (dint 0)) grid_limit in
        let unserved := dmax (dsub (dsub net discharge) grid) (dint 0) in
        match ddiv (dmul discharge duration) (capacity s) with
        | Err e => (s, Err e)
        | Ok drop_ =>
            let s' := MkEnergySystem (capacity s) (dmax min_soc (dsub (soc s) drop_)) in
            (s', Ok (MkEnergyStep facility pv (dfix 28 (dopp discharge)) grid unserved (soc s')))
        end
    end.

(** ** clock.py *)

Record VirtualClock := MkClock { now : datetime; step_size : Z; speed : Q; clock_running : bool }.

Definition clock_check (c : VirtualClock) : result VirtualClock :=
  raise_if (negb (aware (now c))) (ValueError "virtual clock requires a timezone-aware start");;
  raise_if (step_size c <=? 0) (ValueError "virtual clock step must be positive");;
  raise_if (Qle_bool (speed c) 0) (ValueError "virtual clock speed must be positive");;
  Ok c.

Definition clock_start (c : VirtualClock) : VirtualClock := MkClock (now c) (step_size c) (speed c) true.
Definition clock_pause (c : VirtualClock) : VirtualClock := MkClock (now c) (step_size c) (speed c) false.
Definition clock_step (count : Z) (c : VirtualClock) : VirtualClock * result datetime :=
  if count <? 1 then (c, Err (ValueError "virtual clock step count must be positive"))
  else let t := DT (us (now c) + step_size c * count) (aware (now c)) in
       (MkClock t (step_size c) (speed c) (clock_running c), Ok t).

(** ** The schedule loop *)

Lemma used_gpus_app l k : used_gpus (l ++ k) = used_gpus l + used_gpus k.
Proof. induction l as [|e l IH]; simpl; lia. Qed.

Definition workloads_of (c : cluster) : list SimulatedWorkload := map fst (running c) ++ queued c.

Definition nonneg_jobs (l : list SimulatedWorkload) : Prop := Forall (λ w, 0 <= gpu_count w) l.

(** what the loop leaves: the jobs are split between the two lists; the GPUs taken are accounted for; no
    pending job would still fit *)
Lemma cluster_schedule_loop jobs : ∀ run pending available, nonneg_jobs jobs → Forall (λ w, available < gpu_count w) pending →
  ∃ started pending' available', foldl schedule_one (run, pending, available) jobs = (run ++ started, pending', available') ∧
    map fst started ++ pending' ≡ₚ pending ++ jobs ∧ Forall (λ e, e.2 = runtime_steps e.1) started ∧
    available' = available - used_gpus started ∧ (available' = available ∨ 0 <= available') ∧
    Forall (λ w, available' < gpu_count w) pending'.
Proof.
  induction jobs as [|w jobs IH]; intros run pending available Hn Hp; simpl.
  - exists [], pending, available. rewrite !app_nil_r. simpl. split_and!; try done; [lia|by left].
  - apply Forall_cons in Hn as [Hw Hn]. destruct (Z.leb_spec (gpu_count w) available) as [Hle|Hgt].
    + destruct (IH (run ++ [(w, runtime_steps w)]) pending (available - gpu_count w)) as (st & pe & av & Hf & Hperm & Hrt & Hav & Hor & Hpe);
        [done|eapply Forall_impl; [exact Hp|simpl; lia]|].
      exists ((w, runtime_steps w) :: st), pe, av. rewrite Hf, <- app_assoc. simpl. split_and!; try done.
      * rewrite Hperm. by rewrite Permutation_middle.
      * by constructor.
      * lia.
      * lia.
    + destruct (IH run (pending ++ [w]) available) as (st & pe & av & Hf & Hperm & Hrest); [done|apply Forall_app; split; [done|by repeat constructor]|].
      exists st, pe, av. split_and!; try apply Hrest; [done|]. rewrite Hperm. by rewrite <- app_assoc.
Qed.

Lemma reschedule_spec c : nonneg_jobs (queued c) →
  ∃ started, running (reschedule c) = running c ++ started ∧ Forall (λ e, e.2 = runtime_steps e.1) started ∧
    total_gpus (reschedule c) = total_gpus c ∧ failed_gpus (reschedule c) = failed_gpus c ∧
    workloads_of (reschedule c) ≡ₚ workloads_of c ∧
    map fst started ++ queued (reschedule c) ≡ₚ queued c ∧
    (used_gpus (running (reschedule c)) = used_gpus (running c) ∨
     used_gpus (running (reschedule c)) <= total_gpus c - failed_gpus c) ∧
    Forall (λ w, total_gpus c - failed_gpus c - used_gpus (running (reschedule c)) < gpu_count w) (queued (reschedule c)).
Proof.
  intros Hn. unfold reschedule.
  destruct (cluster_schedule_loop (queued c) (running c) [] (total_gpus c - failed_gpus c - used_gpus (running c)))
    as (st & pe & av & Hf & Hperm & Hrt & Hav & Hor & Hpe); [done..|].
  rewrite Hf. exists st. unfold workloads_of. simpl. rewrite used_gpus_app. split_and!; try done.
  - rewrite map_app, <- app_assoc. by apply Permutation_app_head.
  - lia.
  - eapply Forall_impl; [exact Hpe|]. simpl. lia.
Qed.

(** ** Histories *)

Inductive cluster_op := Submit (l : list SimulatedWorkload) | Fail (n : Z) | Step.

Definition cluster_run (op : cluster_op) (c : cluster) : cluster * list string :=
  match op with
  | Submit l => (cluster_submit l c, [])
  | Fail n => ((fail_gpus n c).1, [])
  | Step => cluster_step c
  end.

(** a history from a state: the state reached and every id completed on the way *)
Fixpoint cluster_history (h : list cluster_op) (c : cluster) : cluster * list string :=
  match h with
  | [] => (c, [])
  | op :: h' => let '(c', done) := cluster_run op c in let '(c'', done') := cluster_history h' c' in (c'', done ++ done')
  end.

Definition submitted (h : list cluster_op) : list SimulatedWorkload :=
  flat_map (λ op, match op with Submit l => l | _ => [] end) h.

Record cluster_ok (c : cluster) : Prop := {
  ok_failed : 0 <= failed_gpus c <= total_gpus c;
  ok_used : used_gpus (running c) <= total_gpus c;
  ok_nonneg : nonneg_jobs (workloads_of c)
}.

Lemma nonneg_perm l k : l ≡ₚ k → nonneg_jobs k → nonneg_jobs l.
Proof. unfold nonneg_jobs. by intros ->. Qed.

Lemma advance_cons w n l : omap advance ((w, n) :: l) = if n <=? 1 then omap advance l else (w, n - 1) :: omap advance l.
Proof. cbn. unfold advance at 1. simpl. by destruct (n <=? 1). Qed.

Lemma finished_cons w n l : omap finished ((w, n) :: l) = if n <=? 1 then wl_id w :: omap finished l else omap finished l.
Proof. cbn. unfold finished at 1. simpl. by destruct (n <=? 1). Qed.

Lemma advance_finish l : map wl_id (map fst l) ≡ₚ omap finished l ++ map wl_id (map fst (omap advance l)).
Proof.
  induction l as [|[w n] l IH]; [done|]. rewrite advance_cons, finished_cons. cbn [map fst]. destruct (n <=? 1); cbn [map fst].
  - rewrite IH. done.
  - rewrite <- Permutation_middle. by constructor.
Qed.

Lemma advance_used l : nonneg_jobs (map fst l) → used_gpus (omap advance l) <= used_gpus l.
Proof.
  unfold nonneg_jobs. induction l as [|[w n] l IH]; [done|]. intros [Hw Hl]%Forall_cons. rewrite advance_cons.
  specialize (IH Hl). cbn in Hw. destruct (n <=? 1); unfold used_gpus in *; cbn [foldr fst]; lia.
Qed.

Lemma advance_nonneg l : nonneg_jobs (map fst l) → nonneg_jobs (map fst (omap advance l)).
Proof.
  unfold nonneg_jobs. induction l as [|[w n] l IH]; [done|]. intros [Hw Hl]%Forall_cons. rewrite advance_cons.
  destruct (n <=? 1); [auto|]. constructor; auto.
Qed.

(** rescheduling keeps the invariant and the jobs, and leaves no queued job that would fit *)
Lemma reschedule_ok c : cluster_ok c → cluster_ok (reschedule c) ∧ workloads_of (reschedule c) ≡ₚ workloads_of c ∧
  Forall (λ w, available_gpus (cluster_snapshot (reschedule c)) < gpu_count w ∨
    total_gpus c - failed_gpus c < used_gpus (running (reschedule c))) (queued (reschedule c)).
Proof.
  intros [Hf Hu Hn]. destruct (reschedule_spec c) as (st & Hr & _ & Ht & Hfl & Hperm & _ & Hor & Hq).
  { unfold nonneg_jobs, workloads_of in *. by apply Forall_app in Hn as [_ ?]. }
  split_and!; [|done|].
  - split; [rewrite Ht, Hfl; done|rewrite Ht; lia|by eapply nonneg_perm].
  - eapply Forall_impl; [exact Hq|]. intros w Hw. simpl in *. rewrite Ht, Hfl. lia.
Qed.

Lemma cluster_run_ok op c : cluster_ok c → nonneg_jobs (submitted [op]) →
  cluster_ok (cluster_run op c).1 ∧
  (cluster_run op c).2 ++ map wl_id (workloads_of (cluster_run op c).1) ≡ₚ map wl_id (workloads_of c ++ submitted [op]).
Proof.
  intros [Hf Hu Hn] Hs. destruct op as [l|n|]; simpl in *; rewrite ?app_nil_r in *.
  - unfold cluster_submit. destruct (reschedule_ok (MkCluster (total_gpus c) (failed_gpus c) (running c) (queued c ++ l))) as (H1 & H2 & _).
    { split; [done..|]. unfold workloads_of in *. simpl. rewrite app_assoc. by apply Forall_app. }
    split; [done|]. rewrite H2. unfold workloads_of. simpl. by rewrite app_assoc.
  - unfold fail_gpus. destruct (_ || _) eqn:E; simpl; [done|]. bprop. split; [|done]. split; simpl; [lia|done|done].
  - set (c1 := MkCluster _ _ _ _). apply Forall_app in Hn as [Hn1 Hn2].
    destruct (reschedule_ok c1) as (H1 & H2 & _).
    { split; simpl; [done|pose proof (advance_used _ Hn1); lia|]. apply Forall_app. split; [by apply advance_nonneg|done]. }
    split; [done|]. rewrite H2. unfold workloads_of, c1. simpl. rewrite !map_app, app_assoc. apply Permutation_app_tail. symmetry. apply advance_finish.
Qed.

Lemma submitted_cons op h : submitted (op :: h) = submitted [op] ++ submitted h.
Proof. unfold submitted. simpl. by rewrite app_nil_r. Qed.

Lemma cluster_history_ok h : ∀ c, cluster_ok c → nonneg_jobs (submitted h) →
  let '(c', completed) := cluster_history h c in
  cluster_ok c' ∧ completed ++ map wl_id (workloads_of c') ≡ₚ map wl_id (workloads_of c ++ submitted h).
Proof.
  induction h as [|op h IH]; intros c Hc Hn; [by simpl; rewrite app_nil_r|].
  rewrite submitted_cons in *. cbn [cluster_history]. apply Forall_app in Hn as [Hn1 Hn2].
  destruct (cluster_run_ok op c Hc Hn1) as [Hc1 Hp1]. destruct (cluster_run op c) as [c1 d1]. cbn [fst snd] in *.
  specialize (IH c1 Hc1 Hn2). destruct (cluster_history h c1) as [c2 d2]. destruct IH as [Hc2 Hp2]. split; [done|].
  rewrite <- app_assoc, Hp2, !map_app, app_assoc, Hp1, map_app. by rewrite !app_assoc.
Qed.

Lemma new_cluster_ok gpus c : new_cluster gpus = Ok c → cluster_ok c ∧ c = MkCluster gpus 0 [] [].
Proof.
  unfold new_cluster. munfold. guard_case as E; [done|]. intros [= <-]. bprop. split; [|done]. split; simpl; [lia|lia|constructor].
Qed.

Lemma cluster_run_total op c : total_gpus (cluster_run op c).1 = total_gpus c.
Proof.
  destruct op as [l|n|]; simpl; unfold cluster_submit, reschedule, fail_gpus; [|by destruct (_ || _)|];
    by destruct (foldl _ _ _) as [[??]?].
Qed.

Lemma cluster_history_total h : ∀ c, total_gpus (cluster_history h c).1 = total_gpus c.
Proof.
  induction h as [|op h IH]; intros c; simpl; [done|]. pose proof (cluster_run_total op c) as Hr.
  destruct (cluster_run op c) as [c1 d1]. specialize (IH c1). destruct (cluster_history h c1). simpl in *. by rewrite IH.
Qed.

(** The simulated cluster loses no job and never overcommits.  After any history of submissions, GPU
    failures and steps from a new cluster, every job submitted is exactly one of completed, running or
    queued; the GPUs in use do not exceed the cluster's; and after a further submission or step no queued
    job would fit in the GPUs that are available, unless failed GPUs are still in use. *)
Theorem cluster_conserves gpus (c0 : cluster) (h : list cluster_op) : new_cluster gpus = Ok c0 → nonneg_jobs (submitted h) →
  let '(c, completed) := cluster_history h c0 in
  completed ++ map wl_id (map fst (running c) ++ queued c) ≡ₚ map wl_id (submitted h) ∧
  used_gpus (running c) <= gpus ∧ total_gpus c = gpus ∧
  Forall (λ w, available_gpus (cluster_snapshot (cluster_step c).1) < gpu_count w ∨
    gpus - failed_gpus c < used_gpus (running (cluster_step c).1)) (queued (cluster_step c).1).
Proof.
  intros [Hok ->]%new_cluster_ok Hn. pose proof (cluster_history_ok h _ Hok Hn) as Hh. pose proof (cluster_history_total h (MkCluster gpus 0 [] [])) as Ht.
  destruct (cluster_history h _) as [c completed]. simpl in Ht. destruct Hh as [[Hf Hu Hnn] Hp]. split_and!; [done|by rewrite <- Ht|done|].
  pose proof Hnn as [Hn1 Hn2]%Forall_app. unfold cluster_step. simpl fst. set (c1 := MkCluster _ _ _ _).
  destruct (reschedule_ok c1) as (_ & _ & Hq); [|by rewrite <- Ht].
  split; simpl; [done|pose proof (advance_used _ Hn1); lia|]. apply Forall_app. split; [by apply advance_nonneg|done].
Qed.

Definition sample_job (i : string) (g n : Z) : SimulatedWorkload := MkWorkload i g n (Dec 6 (-1)) false.

Lemma cluster_conserves_witness :
  let h := [Submit [sample_job "a" 3 2; sample_job "b" 2 1; sample_job "c" 1 1]; Step; Fail 2; Step] in
  new_cluster 4 = Ok (MkCluster 4 0 [] []) ∧
  (cluster_history h (MkCluster 4 0 [] [])).2 = ["c"; "a"] ∧
  (cluster_history h (MkCluster 4 0 [] [])).2 ++ map wl_id (workloads_of (cluster_history h (MkCluster 4 0 [] [])).1) ≡ₚ ["a"; "b"; "c"].
Proof.
  intros h. split; [reflexivity|]. split; [vm_compute; reflexivity|].
  assert (nonneg_jobs (submitted h)) as Hn by (repeat constructor; simpl; lia).
  pose proof (cluster_conserves 4 (MkCluster 4 0 [] []) h eq_refl Hn) as Hc.
  destruct (cluster_history h _) as [c d]. exact (proj1 Hc).
Defined.

(** ** Draining the queue *)

(** the steps still owed to the jobs of the cluster *)
Definition owed_running (l : list (SimulatedWorkload * Z)) : Z := foldr (λ e n, Z.max 1 e.2 + n) 0 l.
Definition owed_queued (l : list SimulatedWorkload) : Z := foldr (λ w n, Z.max 1 (runtime_steps w) + n) 0 l.
Definition owed (c : cluster) : Z := owed_running (running c) + owed_queued (queued c).

Lemma owed_running_app l k : owed_running (l ++ k) = owed_running l + owed_running k.
Proof. induction l as [|e l IH]; simpl; lia. Qed.
Lemma owed_queued_app l k : owed_queued (l ++ k) = owed_queued l + owed_queued k.
Proof. induction l as [|e l IH]; simpl; lia. Qed.
Lemma owed_queued_perm l k : l ≡ₚ k → owed_queued l = owed_queued k.
Proof. induction 1; simpl; lia. Qed.
Lemma owed_bounds c : Z.of_nat (length (running c)) + Z.of_nat (length (queued c)) <= owed c.
Proof.
  unfold owed. assert (Z.of_nat (length (running c)) <= owed_running (running c)) by (induction (running c); simpl; lia).
  assert (Z.of_nat (length (queued c)) <= owed_queued (queued c)) by (induction (queued c); simpl; lia). lia.
Qed.

Lemma owed_started l : Forall (λ e, e.2 = runtime_steps e.1) l → owed_running l = owed_queued (map fst l).
Proof. induction 1 as [|[w n] l Hw _ IH]; simpl in *; [done|]. by rewrite Hw, IH. Qed.

Lemma owed_advance l : owed_running (omap advance l) = owed_running l - Z.of_nat (length l).
Proof.
  induction l as [|[w n] l IH]; [done|]. rewrite advance_cons. destruct (Z.leb_spec n 1); unfold owed_running in *;
    cbn [foldr fst snd length]; rewrite IH; lia.
Qed.

Lemma owed_step c : nonneg_jobs (queued c) → owed (cluster_step c).1 = owed c - Z.of_nat (length (running c)).
Proof.
  intros Hn. unfold cluster_step. cbn [fst]. set (c1 := MkCluster _ _ _ _).
  destruct (reschedule_spec c1 Hn) as (st & Hr & Hst & _ & _ & _ & Hq & _). unfold owed. rewrite Hr, owed_running_app, (owed_started st Hst).
  apply owed_queued_perm in Hq. rewrite owed_queued_app in Hq. unfold c1 in *. cbn [running queued] in *. rewrite owed_advance. lia.
Qed.

(** every job fits in the GPUs that have not failed *)
Definition all_fit (c : cluster) : Prop := Forall (λ w, gpu_count w <= total_gpus c - failed_gpus c) (workloads_of c).
(** the queue is empty whenever nothing runs *)
Definition busy (c : cluster) : Prop := running c = [] → queued c = [].

Lemma all_fit_step c : cluster_ok c → all_fit c → cluster_ok (cluster_step c).1 ∧ all_fit (cluster_step c).1 ∧ busy (cluster_step c).1.
Proof.
  intros Hok Hf. destruct (cluster_run_ok Step c Hok ltac:(constructor)) as [Hok' _]. split; [done|].
  unfold cluster_step in *. cbn [fst] in *. destruct Hok as [Hfl Hu Hn]. apply Forall_app in Hn as [Hn1 Hn2]. set (c1 := MkCluster _ _ _ _) in *.
  destruct (reschedule_spec c1) as (st & Hr & _ & Ht & Hfa & Hp & _ & _ & Hq); [done|].
  assert (all_fit c1) as Hf1.
  { unfold all_fit, workloads_of in *. apply Forall_app in Hf as [Hfr Hfq]. apply Forall_app. split; [|done].
    unfold c1. cbn [running total_gpus failed_gpus]. clear -Hfr. induction (running c) as [|[w n] l IH]; [done|]. rewrite advance_cons.
    apply Forall_cons in Hfr as [H1 H2]. destruct (n <=? 1); [auto|]. constructor; auto. }
  split; [unfold all_fit; by rewrite Ht, Hfa, Hp|]. intros He. rewrite He in Hq. simpl in Hq.
  destruct (queued (reschedule c1)) as [|w q] eqn:Eq; [done|]. apply Forall_cons in Hq as [Hw _].
  unfold all_fit in Hf1. rewrite <- Hp in Hf1. unfold workloads_of in Hf1. rewrite Eq in Hf1. apply Forall_app in Hf1 as [_ [Hw' _]%Forall_cons].
  simpl in Hw, Hw'. lia.
Qed.

Lemma drain n : ∀ c, cluster_ok c → all_fit c → busy c → owed c <= Z.of_nat n →
  running (cluster_history (replicate n Step) c).1 = [] ∧ queued (cluster_history (replicate n Step) c).1 = [].
Proof.
  induction n as [|n IH]; intros c Hok Hf Hb Ho; pose proof (owed_bounds c) as Hob.
  - destruct (running c) eqn:Er, (queued c) eqn:Eq; simpl in *; try lia. done.
  - cbn [replicate cluster_history cluster_run]. destruct (all_fit_step c Hok Hf) as (Hok' & Hf' & Hb').
    assert (owed (cluster_step c).1 <= Z.of_nat n) as Ho'.
    { rewrite owed_step by apply (proj1 (Forall_app _ _ _) (ok_nonneg c Hok)).
      destruct (running c) as [|e l] eqn:Er; [|simpl; lia]. unfold owed. rewrite Er, (Hb Er). simpl. lia. }
    destruct (cluster_step c) as [c1 d1]. cbn [fst] in *. specialize (IH c1 Hok' Hf' Hb' Ho').
    by destruct (cluster_history (replicate n Step) c1) as [c2 d2].
Qed.

(** C36: The simulated cluster drains.  Whatever happened before, if every job it holds fits in the GPUs that
    have not failed, then after as many steps as are owed to the jobs, and one more, nothing is running or
    queued, and every job held has been completed exactly once. *)
Theorem cluster_drains gpus (c0 : cluster) (h : list cluster_op) (n : nat) : new_cluster gpus = Ok c0 → nonneg_jobs (submitted h) →
  let c := (cluster_history h c0).1 in
  all_fit c → owed c < Z.of_nat n →
  let '(c', completed) := cluster_history (replicate n Step) c in
  running c' = [] ∧ queued c' = [] ∧ completed ≡ₚ map wl_id (workloads_of c).
Proof.
  intros [Hok0 _]%new_cluster_ok Hn c Hf Ho. pose proof (cluster_history_ok h c0 Hok0 Hn) as Hh.
  assert (cluster_ok c) as Hok. { unfold c. destruct (cluster_history h c0). apply Hh. } clearbody c. clear Hh.
  destruct n as [|n]; [pose proof (owed_bounds c); lia|]. destruct (all_fit_step c Hok Hf) as (Hok' & Hf' & Hb').
  pose proof (drain n (cluster_step c).1 Hok' Hf' Hb') as [Hr Hq].
  { rewrite owed_step by apply (proj1 (Forall_app _ _ _) (ok_nonneg c Hok)). lia. }
  assert (nonneg_jobs (submitted (replicate (S n) Step)) ∧ submitted (replicate (S n) Step) = []) as [Hs Hs0].
  { assert (submitted (replicate (S n) Step) = []) as -> by (clear; induction (S n) as [|k IHk]; [done|exact IHk]). by split; [constructor|]. }
  pose proof (cluster_history_ok (replicate (S n) Step) c Hok Hs) as Hh. rewrite Hs0, app_nil_r in Hh.
  cbn [replicate cluster_history cluster_run] in *. destruct (cluster_step c) as [c1 d1]. cbn [fst] in *.
  destruct (cluster_history (replicate n Step) c1) as [c2 d2]. cbn [fst] in *. destruct Hh as [_ Hp]. split_and!; [done..|].
  unfold workloads_of at 1 in Hp. rewrite Hr, Hq in Hp. simpl in Hp. by rewrite app_nil_r in Hp.
Qed.

Lemma cluster_drains_witness :
  let c := cluster_submit [sample_job "a" 3 2; sample_job "b" 2 1; sample_job "c" 1 1] (MkCluster 4 0 [] []) in
  (∃ c', cluster_history (replicate 5 Step) c = (c', ["c"; "a"; "b"])) ∧
  let '(c', completed) := cluster_history (replicate 5 Step) c in
  running c' = [] ∧ queued c' = [] ∧ completed ≡ₚ ["a"; "c"; "b"].
Proof.
  intros c. split; [eexists; vm_compute; reflexivity|].
  exact (cluster_drains 4 (MkCluster 4 0 [] []) [Submit [sample_job "a" 3 2; sample_job "b" 2 1; sample_job "c" 1 1]] 5 eq_refl
    ltac:(repeat constructor; simpl; lia) ltac:(repeat constructor; simpl; lia) ltac:(vm_compute; reflexivity)).
Defined.

(** ** The energy system *)

(** the discharge is not negative, and nothing when the grid limit suffices *)
Lemma discharge_facts (net limit ad : dec) : (0 <= dval ad)%Q →
  (0 <= dval (dmin (dmax (dsub net limit) (dint 0)) ad))%Q ∧
  (dval net <= dval limit → dval (dmin (dmax (dsub net limit) (dint 0)) ad) == 0)%Q.
Proof.
  intros Had. destruct (dmax_val (dsub net limit) (dint 0)) as (Hm1 & Hm2 & Hm3).
  destruct (dmin_val (dmax (dsub net limit) (dint 0)) ad) as (Hn1 & Hn2 & Hn3). change (dval (dint 0)) with 0%Q in *.
  assert (0 <= dval (dmin (dmax (dsub net limit) (dint 0)) ad))%Q as H0 by (destruct Hn3 as [-> | ->]; done). split; [done|].
  intros Hle. pose proof (dsub_nonpos net limit Hle). destruct Hm3 as [Hm3|Hm3]; rewrite Hm3 in *; change (dval (dint 0)) with 0%Q in *; lra.
Qed.

(** One interval of the simulated energy system.  From a legal state and interval the step succeeds; the
    state of charge stays between the reserve of 10% and 1; the grid stays within its limit; nothing is
    negative; the battery only discharges, and a net load within the grid limit is served by the grid alone. *)
Theorem energy_step_bounds cap initial (sys : energy_system) (facility pv limit duration : dec) :
  new_energy_system cap initial = Ok sys →
  (0 <= dval facility)%Q → (0 <= dval pv)%Q → (0 <= dval limit)%Q → (0 < dval duration)%Q →
  ∃ sys' r, energy_step facility pv limit duration sys = (sys', Ok r) ∧ capacity sys' = cap ∧ soc sys' = battery_soc r ∧
    (1 # 10 <= dval (soc sys') <= 1)%Q ∧ (0 <= dval (grid_kw r) <= dval limit)%Q ∧ (0 <= dval (unserved_kw r))%Q ∧
    (dval (battery_kw r) <= 0)%Q ∧
    (dval (dsub facility pv) <= dval limit → dval (battery_kw r) == 0 ∧ dval (grid_kw r) == dval (dmax (dsub facility pv) (dint 0)))%Q.
Proof.
  unfold new_energy_system. munfold. guard_case as E; [done|]. intros [= <-] Hfac Hpv Hlim Hdur. bprop. dprop.
  change (dval (dint 0)) with 0%Q in *. change (dval (dint 1)) with 1%Q in *.
  assert (0 < coef duration)%Z as Hcd by (by apply coef_pos). assert (0 < coef cap)%Z as Hcc by (by apply coef_pos).
  unfold energy_step. simpl capacity. simpl soc.
  assert (dltb (dmin (dmin (dmin facility pv) limit) duration) (dint 0) || deqb duration (dint 0) = false) as ->.
  { apply orb_false_iff. split; dprop; change (dval (dint 0)) with 0%Q; [|lra].
    destruct (dmin_val (dmin (dmin facility pv) limit) duration) as (_ & _ & [-> | ->]); [|lra].
    destruct (dmin_val (dmin facility pv) limit) as (_ & _ & [-> | ->]); [|lra].
    by destruct (dmin_val facility pv) as (_ & _ & [-> | ->]). }
  destruct (ddiv_ok 28 (dmul (dsub initial min_soc) cap) duration) as [avail Ha]; [lia|]. unfold ddiv at 1. rewrite Ha.
  set (net := dsub facility pv). set (ad := dmax (dint 0) avail). set (dis := dmin (dmax (dsub net limit) (dint 0)) ad).
  destruct (discharge_facts net limit ad) as [Hd0 Hdz]; [destruct (dmax_val (dint 0) avail); done|]. fold dis in Hd0, Hdz.
  destruct (ddiv_ok 28 (dmul dis duration) cap) as [dr Hdr]; [lia|]. unfold ddiv. rewrite Hdr.
  assert (0 <= dval dr)%Q as Hdr0. { eapply ddiv_nonneg; [exact Hcc| |exact Hdr]. apply dmul_nonneg; [lia|done|lra]. }
  eexists _, _. split; [reflexivity|]. simpl. split_and!; [done..| | | | | | |].
  - by destruct (dmax_val min_soc (dsub initial dr)).
  - destruct (dmax_val min_soc (dsub initial dr)) as (_ & _ & [-> | ->]); [by vm_compute|].
    transitivity (dval (dsub (dint 1) (dint 0))); [|by vm_compute]. by apply (dsub_mono 28 ltac:(lia)).
  - destruct (dmin_val (dmax (dsub net dis) (dint 0)) limit) as (_ & _ & [-> | ->]); [|done].
    by destruct (dmax_val (dsub net dis) (dint 0)) as (_ & Hm & _).
  - by destruct (dmin_val (dmax (dsub net dis) (dint 0)) limit) as (_ & Hm & _).
  - by destruct (dmax_val (dsub (dsub net dis) (dmin (dmax (dsub net dis) (dint 0)) limit)) (dint 0)) as (_ & Hm & _).
  - rewrite dfix_opp by lia. pose proof (dfix_nonneg 28 ltac:(lia) dis Hd0). lra.
  - intros Hle. specialize (Hdz Hle). split.
    + rewrite dfix_opp, dfix_fits; [rewrite Hdz; lra|lia|..|lia]. eapply fits_proper; [symmetry; exact Hdz|]. apply fits_0; lia.
    + assert (dval (dsub net dis) == dval net)%Q as Hn.
      { assert (dval net - dval dis == dval net)%Q as He by (rewrite Hdz; lra). unfold dsub. rewrite dsub_exact; [done|lia|].
        eapply fits_proper; [symmetry; exact He|]. destruct (dsub_spec 28 facility pv) as (x & Hx & _). unfold net, dsub. rewrite Hx.
        apply dfix_fits_res. lia. }
      destruct (dmax_val (dsub net dis) (dint 0)) as (Ha1 & Ha2 & Ha3), (dmax_val net (dint 0)) as (Hb1 & Hb2 & Hb3).
      destruct (dmin_val (dmax (dsub net dis) (dint 0)) limit) as (Hc1 & Hc2 & Hc3). change (dval (dint 0)) with 0%Q in *. lra.
Qed.

Lemma energy_step_bounds_witness :
  let '(s', r) := energy_step (dint 100) (dint 20) (dint 50) (dint 1) (MkEnergySystem (dint 200) (Dec 5 (-1))) in
  (∃ x, r = Ok x ∧ (0 <= dval (grid_kw x) <= dval (dint 50))%Q ∧ (dval (battery_kw x) == -30)%Q) ∧ (dval (soc s') == 35 # 100)%Q.
Proof.
  destruct (energy_step_bounds (dint 200) (Dec 5 (-1)) (MkEnergySystem (dint 200) (Dec 5 (-1))) (dint 100) (dint 20) (dint 50) (dint 1))
    as (s' & r & H & _ & _ & _ & Hg & _); [reflexivity|by vm_compute..|]. rewrite H. revert H.
  vm_compute (energy_step _ _ _ _ _). intros [= <- <-]. split; [|reflexivity]. eexists. split; [reflexivity|]. split; [exact Hg|reflexivity].
Defined.
