(* ===== verification/Engine.v ===== *)
(** * The simulation engine

    [packages/simulation/engine.py]: the simulator of a site in steps of some minutes, its runs and snapshots.  Arithmetic is that of binary64 as in PyFloat
    (rounding half to even; no overflow to infinity, no signed zero).  Parameters: the sine of the C library, Python's
    random generator (a state, its seeding and its next number), the text of a float and the decimal it denotes, the
    ISO text of a time and the digest of a list of events. *)
From Stdlib Require Import QArith Lqa.
From S2P Require Import Prelude PyDecimal PyFloat PyValue PyText Domain Access.
Local Open Scope Z_scope.

(** ** Binary64 arithmetic *)

Definition fint (z : Z) : bin := f64_q z 1.
Definition flit (n k : Z) : bin := f64_of_dec (Dec n k).
Definition fadd (a b : bin) : bin := f64_q (bin_num a * bin_den b + bin_num b * bin_den a) (bin_den a * bin_den b).
Definition fneg (a : bin) : bin := Bin (- bman a) (bexp a).
Definition fsub (a b : bin) : bin := fadd a (fneg b).
Definition fmul (a b : bin) : bin := f64_q (bin_num a * bin_num b) (bin_den a * bin_den b).
Definition fdiv (a b : bin) : result bin :=
  if bin_num b =? 0 then Err (ZeroDivisionError "float division by zero")
  else Ok (f64_q (Z.sgn (bin_num b) * bin_num a * bin_den b) (bin_den a * Z.abs (bin_num b))).
Definition fltb (a b : bin) : bool := bin_num a * bin_den b <? bin_num b * bin_den a.
(** [max(a, b)] and [min(a, b)]: the first unless the second is beyond it *)
Definition fmax (a b : bin) : bin := if fltb a b then b else a.
Definition fmin (a b : bin) : bin := if fltb b a then b else a.
(** [round(x, 6)] *)
Definition fround6 (x : bin) : bin :=
  let n := bin_num x * 1000000 in
  f64_q (if n <? 0 then - half_even (- n) (bin_den x) else half_even n (bin_den x)) 1000000.
(** the value of a float as a decimal *)
Definition dec_of_bin (x : bin) : dec :=
  if bexp x <? 0 then Dec (bman x * 5 ^ (- bexp x)) (bexp x) else Dec (bman x * 2 ^ bexp x) 0.
(** [math.pi] *)
Definition pi : bin := Bin 7074237752028440 (-51).

(** ** Configuration and state *)

Record SimulationConfig := MkConfig {
  seed : Z; duration_hours : Z; step_minutes : Z; gpu_count : Z; pv_capacity_kw : dec; battery_capacity_kwh : dec;
  environment : string; real_endpoints : list string
}.
(** The defaults of the dataclass, for a seed and a duration *)
Definition default_config (seed hours : Z) : SimulationConfig := MkConfig seed hours 15 16 (dint 100) (dint 200) "simulator" [].

Definition simulation_config (c : SimulationConfig) : result SimulationConfig :=
  raise_if (negb (bool_decide (environment c = "simulator"))) (ValueError "simulator requires environment=simulator");;
  raise_if (negb (bool_decide (real_endpoints c = []))) (PermissionError "real endpoints are prohibited in simulator");;
  raise_if ((step_minutes c <=? 0) || (duration_hours c <=? 0)) (ValueError "simulation time settings must be positive");;
  Ok c.

Record SimulationState := MkState { st_step : Z; st_timestamp : datetime; battery_soc : dec; active_jobs : Z; st_events : list document }.

(** [datetime(2026, 1, 1, tzinfo=UTC)] *)
Definition simulation_start : datetime := DT 1767225600000000 true.
Definition hour_of (t : datetime) : Z := (us t / 3600000000) mod 24.
Definition minute_of (t : datetime) : Z := (us t / 60000000) mod 60.
Definition total_steps (c : SimulationConfig) : Z := duration_hours c * 60 / step_minutes c.

Section engine.
Context {R : Type} (rng_seed : Z → R) (rng_next : R → bin * R).
Context (sin : bin → bin) (float_repr : bin → string) (float_dec : bin → dec) (iso : datetime → string) (event_hash : list document → string).

Record Simulator := MkSimulator { sim_config : SimulationConfig; sim_state : SimulationState; sim_random : R; sim_running : bool }.

Definition new_simulator (c : SimulationConfig) : Simulator :=
  MkSimulator c (MkState 0 simulation_start (Dec 5 (-1)) 0 []) (rng_seed (seed c)) false.
Definition set_running (b : bool) (s : Simulator) : Simulator := MkSimulator (sim_config s) (sim_state s) (sim_random s) b.
Definition start : Simulator → Simulator := set_running true.
Definition pause : Simulator → Simulator := set_running false.

Definition is_fault (fault : pyval) (name : string) : bool := py_eq fault (VStr name).
(** [fault in {...}] of a set raises for a list or a dict *)
Definition hashable (v : pyval) : bool := match v with VList _ | VDict _ => false | _ => true end.

(** The solar power, as forecast and as it is *)
Definition pv_forecast (c : SimulationConfig) (t : datetime) : result bin :=
  fraction ← fdiv (fint (minute_of t)) (fint 60);
  let hour := fadd (fint (hour_of t)) fraction in
  angle ← fdiv (fmul pi (fsub hour (fint 6))) (fint 12);
  Ok (fmul (fmax (fint 0) (sin angle)) (f64_of_dec (pv_capacity_kw c))).
Definition pv_actual (c : SimulationConfig) (fault : pyval) (forecast : bin) : bin :=
  if is_fault fault "pv_surplus" then fmax forecast (fmul (f64_of_dec (pv_capacity_kw c)) (flit 9 (-1)))
  else if is_fault fault "pv_error" then fmul forecast (flit 4 (-1)) else forecast.

(** Jobs that arrive and complete, and the generator after the draws *)
Definition job_flow (fault : pyval) (active : Z) (r : R) : Z * R :=
  let '(x, r) := rng_next r in
  let arrivals := (if fltb x (flit 12 (-2)) then 1 else 0) + (if is_fault fault "job_burst" then 8 else if is_fault fault "urgent_job" then 1 else 0) in
  let '(completions, r) :=
    if active =? 0 then (0, r) else let '(y, r) := rng_next r in ((if fltb y (flit 8 (-2)) then 1 else 0), r) in
  (Z.max 0 (active + arrivals - completions), r).

Record power := MkPower {
  pw_compute : bin; pw_facility : bin; pw_charge : bin; pw_discharge : bin; pw_net : bin
}.
Definition power_of (c : SimulationConfig) (fault : pyval) (active : Z) (soc : dec) (pv : bin) : power :=
  let compute := fmul (fint (Z.min (gpu_count c) (active * 2))) (flit 6 (-1)) in
  let compute := if is_fault fault "gpu_failure" then fmul compute (flit 5 (-1)) else compute in
  let facility := fadd (fmul compute (flit 125 (-2))) (fint 8) in
  let net := fsub facility pv in
  let charge := fmin (fmax (fneg net) (fint 0)) (fint 30) in
  let discharge := if dltb (Dec 2 (-1)) soc then fmin (fmax net (fint 0)) (fint 30) else fint 0 in
  if is_fault fault "battery_unavailable" then MkPower compute facility (fint 0) (fint 0) net
  else MkPower compute facility charge discharge net.

(** The state of charge after the step, kept between 10% and 90% *)
Definition next_soc (c : SimulationConfig) (soc : dec) (p : power) : result dec :=
  loss ← fdiv (pw_discharge p) (flit 95 (-2));
  delta ← fdiv (fmul (fsub (fmul (pw_charge p) (flit 95 (-2))) loss) (fint (step_minutes c))) (fint 60);
  change ← fdiv delta (f64_of_dec (battery_capacity_kwh c));
  Ok (float_dec (fmin (flit 9 (-1)) (fmax (flit 1 (-1)) (fadd (f64_of_dec soc) change)))).

Definition vfloat (x : bin) : pyval := VFloat (dec_of_bin x) (float_repr x).
Definition grid_limit (fault : pyval) : option bin :=
  if is_fault fault "grid_derating" then Some (fint 20) else if is_fault fault "island_mode" then Some (fint 0) else None.

Definition step_event (s : SimulationState) (fault : pyval) (active : Z) (soc : dec) (pv forecast : bin) (p : power) : document :=
  let grid := fmax (fint 0) (fsub (fadd (pw_net p) (pw_charge p)) (pw_discharge p)) in
  let limit := grid_limit fault in
  let grid := match limit with Some l => fmin grid l | None => grid end in
  let supply := fadd (fadd grid pv) (pw_discharge p) in
  let demand := fadd (pw_facility p) (pw_charge p) in
  let unserved := fmax (fint 0) (fsub demand supply) in
  [("sequence", VInt (st_step s)); ("timestamp", VStr (iso (st_timestamp s))); ("active_jobs", VInt active);
   ("compute_kw", vfloat (fround6 (pw_compute p))); ("facility_kw", vfloat (fround6 (pw_facility p)));
   ("pv_kw", vfloat (fround6 pv)); ("forecast_pv_kw", vfloat (fround6 forecast)); ("grid_kw", vfloat (fround6 grid));
   ("grid_limit_kw", match limit with Some l => vfloat l | None => VNone end); ("unserved_kw", vfloat (fround6 unserved));
   ("price_per_kwh", vfloat (if is_fault fault "high_price" then flit 8 (-1) else flit 1 (-1)));
   ("battery_soc", VStr (dec_str soc)); ("fault", fault); ("urgent_job", VBool (is_fault fault "urgent_job"))].

(** The jobs are updated before the battery, so a step that raises leaves them, and the draws, behind *)
Definition step (fault : pyval) : M Simulator document := λ s,
  let c := sim_config s in
  let st := sim_state s in
  if total_steps c <=? st_step st then (s, Err StopIteration)
  else
    match pv_forecast c (st_timestamp st) with
    | Err e => (s, Err e)
    | Ok forecast =>
        let pv := pv_actual c fault forecast in
        let '(active, r) := job_flow fault (active_jobs st) (sim_random s) in
        let p := power_of c fault active (battery_soc st) pv in
        match next_soc c (battery_soc st) p with
        | Err e => (MkSimulator c (MkState (st_step st) (st_timestamp st) (battery_soc st) active (st_events st)) r (sim_running s), Err e)
        | Ok soc =>
            if negb (hashable fault) then
              (MkSimulator c (MkState (st_step st) (st_timestamp st) soc active (st_events st)) r (sim_running s), Err TypeError)
            else
              let e := step_event st fault active soc pv forecast p in
              (MkSimulator c (MkState (st_step st + 1) (dt_add (st_timestamp st) (step_minutes c * 60000000)) soc active (st_events st ++ [e]))
                 r (sim_running s), Ok e)
        end
    end.

(** [while self.state.step < self.total_steps], at most [fuel] times *)
Fixpoint run_loop (fuel : nat) (faults : Z → pyval) : M Simulator unit := λ s,
  match fuel with
  | O => (s, Ok tt)
  | S fuel' =>
      if st_step (sim_state s) <? total_steps (sim_config s) then
        (step (faults (st_step (sim_state s)));; run_loop fuel' faults) s
      else (s, Ok tt)
  end.
Definition run (faults : Z → pyval) : M Simulator (list document) := λ s,
  let s := start s in
  match run_loop (Z.to_nat (total_steps (sim_config s) - st_step (sim_state s))) faults s with
  | (s', Ok _) => (pause s', Ok (st_events (sim_state s')))
  | (s', Err e) => (s', Err e)
  end.

Record snapshot_doc := MkSnapshot { sn_config : SimulationConfig; sn_state : SimulationState; sn_random : R }.
Definition snapshot (s : Simulator) : snapshot_doc := MkSnapshot (sim_config s) (sim_state s) (sim_random s).
End engine.

Arguments Simulator : clear implicits.
Arguments MkSimulator {R} _ _ _ _.
Arguments sim_config {R} _.
Arguments sim_state {R} _.
Arguments sim_random {R} _.
Arguments sim_running {R} _.

(** [restore]: numbers of the two configurations compare by value *)
Definition config_eqb (a b : SimulationConfig) : bool :=
  (seed a =? seed b) && (duration_hours a =? duration_hours b) && (step_minutes a =? step_minutes b) && (gpu_count a =? gpu_count b)
  && deqb (pv_capacity_kw a) (pv_capacity_kw b) && deqb (battery_capacity_kwh a) (battery_capacity_kwh b)
  && bool_decide (environment a = environment b) && bool_decide (real_endpoints a = real_endpoints b).
Definition restore {R} (sn : snapshot_doc (R := R)) : M (Simulator R) unit := λ s,
  if negb (config_eqb (sn_config sn) (sim_config s)) then (s, Err (ValueError "snapshot configuration mismatch"))
  else (MkSimulator (sim_config s) (sn_state sn) (sn_random sn) (sim_running s), Ok tt).

(** ** What a simulator keeps *)

(** [Decimal(repr(x))]: the shortest decimal that rounds to the float, so it grows with the float *)
Record shortest_decimal (float_dec : bin → dec) : Prop := {
  sd_mono : ∀ x y, fltb y x = false → dleb (float_dec x) (float_dec y) = true;
  sd_tenth : float_dec (flit 1 (-1)) = Dec 1 (-1);
  sd_nine : float_dec (flit 9 (-1)) = Dec 9 (-1)
}.

Definition soc_ok (d : dec) : Prop := dleb (Dec 1 (-1)) d = true ∧ dleb d (Dec 9 (-1)) = true.

Lemma fltb_asym x y : fltb x y = true → fltb y x = false.
Proof. unfold fltb. rewrite Z.ltb_lt, Z.ltb_ge. lia. Qed.

Lemma clamped float_dec x : shortest_decimal float_dec → soc_ok (float_dec (fmin (flit 9 (-1)) (fmax (flit 1 (-1)) x))).
Proof.
  intros [Hm H1 H9]. set (y := fmin _ _). assert (fltb y (flit 1 (-1)) = false ∧ fltb (flit 9 (-1)) y = false) as [Hl Hu].
  { unfold y, fmin, fmax. destruct (fltb (flit 1 (-1)) x) eqn:E1.
    - destruct (fltb x (flit 9 (-1))) eqn:E2; [by split; apply fltb_asym|by split; vm_compute].
    - destruct (fltb (flit 1 (-1)) (flit 9 (-1))) eqn:E2; by split; vm_compute. }
  split; [rewrite <-H1|rewrite <-H9]; by apply Hm.
Qed.

Section invariant.
Context {R : Type} (rng_seed : Z → R) (rng_next : R → bin * R).
Context (sin : bin → bin) (float_repr : bin → string) (float_dec : bin → dec) (iso : datetime → string).
Hypothesis Hshort : shortest_decimal float_dec.
#[local] Abbreviation step := (step rng_next sin float_repr float_dec iso).
#[local] Abbreviation run_loop := (run_loop rng_next sin float_repr float_dec iso).
#[local] Abbreviation run := (run rng_next sin float_repr float_dec iso).
#[local] Abbreviation new_simulator := (new_simulator rng_seed).

Definition time_after (c : SimulationConfig) (n : Z) : datetime := dt_add simulation_start (n * (step_minutes c * 60000000)).

(** The events are numbered from zero, one for each step; the battery stays between 10% and 90%. *)
Record sim_ok (s : Simulator R) : Prop := {
  so_config : simulation_config (sim_config s) = Ok (sim_config s);
  so_steps : Z.of_nat (length (st_events (sim_state s))) = st_step (sim_state s) ∧ st_step (sim_state s) <= total_steps (sim_config s);
  so_time : st_timestamp (sim_state s) = time_after (sim_config s) (st_step (sim_state s));
  so_events : ∀ i e, st_events (sim_state s) !! i = Some e →
    od_get "sequence" e = Some (VInt (Z.of_nat i)) ∧ od_get "timestamp" e = Some (VStr (iso (time_after (sim_config s) (Z.of_nat i)))) ∧
    ∃ soc, od_get "battery_soc" e = Some (VStr (dec_str soc)) ∧ soc_ok soc;
  so_battery : soc_ok (battery_soc (sim_state s));
  so_jobs : 0 <= active_jobs (sim_state s)
}.

Lemma total_steps_nonneg c : simulation_config c = Ok c → 0 <= total_steps c.
Proof using Type.
  unfold simulation_config. intros (? & _ & (? & _ & (? & H & _)%bind_ok)%bind_ok)%bind_ok. unfold raise_if in H.
  destruct (_ || _) eqn:E; [done|]. apply orb_false_iff in E as [E1%Z.leb_gt E2%Z.leb_gt]. apply Z.div_pos; lia.
Qed.

Lemma new_simulator_ok c : simulation_config c = Ok c → sim_ok (new_simulator c).
Proof using Type. intros Hc. pose proof (total_steps_nonneg c Hc). split; cbn; try done. Qed.

Lemma job_flow_nonneg fault active r : 0 <= (job_flow rng_next fault active r).1.
Proof using Type. unfold job_flow. destruct (rng_next r). destruct (active =? 0); [|destruct (rng_next _)]; cbn; lia. Qed.

Lemma next_soc_ok c soc p d : next_soc float_dec c soc p = Ok d → soc_ok d.
Proof using Hshort. unfold next_soc. intros (a & _ & (b & _ & (e & _ & [= <-])%bind_ok)%bind_ok)%bind_ok. by apply clamped. Qed.

(** A step that succeeds appends its event *)
Lemma step_spec fault s : match step fault s with
  | (s', Ok e) => st_step (sim_state s) < total_steps (sim_config s) ∧ sim_config s' = sim_config s ∧ sim_running s' = sim_running s ∧
      st_step (sim_state s') = st_step (sim_state s) + 1 ∧ st_timestamp (sim_state s') = dt_add (st_timestamp (sim_state s)) (step_minutes (sim_config s) * 60000000) ∧
      st_events (sim_state s') = st_events (sim_state s) ++ [e] ∧ soc_ok (battery_soc (sim_state s')) ∧ 0 <= active_jobs (sim_state s') ∧
      od_get "sequence" e = Some (VInt (st_step (sim_state s))) ∧ od_get "timestamp" e = Some (VStr (iso (st_timestamp (sim_state s)))) ∧
      od_get "battery_soc" e = Some (VStr (dec_str (battery_soc (sim_state s'))))
  | (s', Err _) => sim_config s' = sim_config s ∧ st_step (sim_state s') = st_step (sim_state s) ∧ st_events (sim_state s') = st_events (sim_state s)
  end.
Proof using Hshort.
  unfold Engine.step. destruct (total_steps (sim_config s) <=? _) eqn:Et; [done|]. apply Z.leb_gt in Et. destruct (pv_forecast _ _ _) as [f|]; [|done].
  pose proof (job_flow_nonneg fault (active_jobs (sim_state s)) (sim_random s)) as Hj. destruct (job_flow _ _ _ _) as [a r]. cbn in Hj.
  destruct (next_soc _ _ _ _) as [d|] eqn:Ed; [|done]. destruct (hashable fault); [|done]. cbn. apply next_soc_ok in Ed. split_and!; done.
Qed.

Lemma step_ok fault s s' e : sim_ok s → step fault s = (s', Ok e) → sim_ok s'.
Proof using Hshort.
  intros [Hc [Hl Ht] Hti He Hb Hj] Hs. pose proof (step_spec fault s) as H. rewrite Hs in H.
  destruct H as (H1 & H2 & _ & H3 & H4 & H5 & H6 & H7 & H8 & H9 & H10). split; rewrite ?H2, ?H3, ?H4, ?H5; try done.
  - rewrite length_app. cbn. lia.
  - rewrite Hti. unfold time_after, dt_add. cbn. f_equal. lia.
  - intros i x [Hi|[Hi Hx]]%lookup_app_Some; [by apply He|]. destruct (i - _)%nat as [|n] eqn:En; [|done]. injection Hx as <-.
    assert (st_step (sim_state s) = Z.of_nat i) as Hn by lia. rewrite H8, H9, H10, Hti, Hn. split_and!; [done|done|]. by eexists.
Qed.

Lemma fdiv_ok a b : bin_num b ≠ 0 → ∃ c, fdiv a b = Ok c.
Proof using Type. intros H. unfold fdiv. destruct (Z.eqb_spec (bin_num b) 0); [done|]. by eexists. Qed.

(** A step is made whenever time is left, the battery has a capacity and the fault is a name *)
Lemma step_made fault s : st_step (sim_state s) < total_steps (sim_config s) → bin_num (f64_of_dec (battery_capacity_kwh (sim_config s))) ≠ 0 → hashable fault = true →
  ∃ s' e, step fault s = (s', Ok e).
Proof using Type.
  intros Ht Hb Hf. unfold Engine.step. destruct (Z.leb_spec (total_steps (sim_config s)) (st_step (sim_state s))); [lia|].
  assert (∃ f, pv_forecast sin (sim_config s) (st_timestamp (sim_state s)) = Ok f) as [f ->].
  { unfold pv_forecast. destruct (fdiv_ok (fint (minute_of (st_timestamp (sim_state s)))) (fint 60)) as [a ->]; [by vm_compute|]. unfold mbind, result_bind.
    match goal with |- context [fdiv ?x (fint 12)] => destruct (fdiv_ok x (fint 12)) as [b ->]; [by vm_compute|] end. by eexists. }
  destruct (job_flow _ _ _ _) as [a r]. set (p := power_of _ _ _ _ _).
  assert (∃ d, next_soc float_dec (sim_config s) (battery_soc (sim_state s)) p = Ok d) as [d ->].
  { unfold next_soc. destruct (fdiv_ok (pw_discharge p) (flit 95 (-2))) as [x ->]; [by vm_compute|].
    unfold mbind, result_bind. match goal with |- context [fdiv ?x (fint 60)] => destruct (fdiv_ok x (fint 60)) as [y ->]; [by vm_compute|] end.
    destruct (fdiv_ok y _ Hb) as [z ->]. by eexists. }
  rewrite Hf. by eexists _, _.
Qed.

Definition time_left (s : Simulator R) : nat := Z.to_nat (total_steps (sim_config s) - st_step (sim_state s)).

Lemma run_loop_step faults n s : (0 < time_left s)%nat →
  run_loop (S n) faults s = (step (faults (st_step (sim_state s)));; run_loop n faults) s.
Proof using Type. unfold time_left. intros H. cbn [Engine.run_loop]. destruct (Z.ltb_spec (st_step (sim_state s)) (total_steps (sim_config s))); [done|lia]. Qed.

Lemma run_loop_done faults n s : time_left s = 0%nat → run_loop n faults s = (s, Ok tt).
Proof using Type. unfold time_left. intros H. destruct n as [|n]; [done|]. cbn [Engine.run_loop]. destruct (Z.ltb_spec (st_step (sim_state s)) (total_steps (sim_config s))); [lia|done]. Qed.

Lemma run_loop_ok faults : (∀ n, hashable (faults n) = true) → ∀ n s, sim_ok s → bin_num (f64_of_dec (battery_capacity_kwh (sim_config s))) ≠ 0 →
  ∃ s', run_loop n faults s = (s', Ok tt) ∧ sim_ok s' ∧ sim_config s' = sim_config s ∧ time_left s' = (time_left s - n)%nat.
Proof using Hshort.
  intros Hf n. induction n as [|n IH]; intros s Hok Hb; [exists s; split_and!; try done; lia|].
  destruct (decide (time_left s = 0%nat)) as [Hz|Hz]; [rewrite run_loop_done by done; exists s; split_and!; try done; lia|].
  rewrite run_loop_step by lia. destruct (step_made (faults (st_step (sim_state s))) s) as (s1 & e & Hs); [unfold time_left in Hz; lia|done|done|].
  pose proof (step_ok _ _ _ _ Hok Hs) as Hok1. pose proof (step_spec (faults (st_step (sim_state s))) s) as H. rewrite Hs in H. destruct H as (_ & Hc & _ & Hn & _).
  destruct (IH s1 Hok1) as (s' & Hr & Hok' & Hc' & Ht); [by rewrite Hc|]. exists s'. unfold mbind, M_bind. rewrite Hs. split_and!; [done|done|congruence|].
  rewrite Ht. unfold time_left in *. rewrite Hc, Hn. lia.
Qed.

Lemma run_loop_split faults n m s : run_loop (n + m) faults s = (run_loop n faults;; run_loop m faults) s.
Proof using Type.
  revert s. induction n as [|n IH]; intros s; [done|]. cbn [Nat.add]. destruct (decide (time_left s = 0%nat)) as [Hz|Hz].
  { unfold mbind, M_bind. by rewrite (run_loop_done faults (S n)), !run_loop_done. }
  rewrite run_loop_step by lia. unfold mbind, M_bind. rewrite run_loop_step by lia. unfold mbind, M_bind. destruct (step _ s) as [s1 [e|e]]; [|done].
  rewrite IH. unfold mbind, M_bind. done.
Qed.

Lemma time_left_length s : sim_ok s → length (st_events (sim_state s)) = (Z.to_nat (total_steps (sim_config s)) - time_left s)%nat.
Proof using Type. intros [_ [Hl Ht] _ _ _ _]. unfold time_left. lia. Qed.

Lemma run_resumed faults s n : (∀ n, hashable (faults n) = true) → sim_ok s → bin_num (f64_of_dec (battery_capacity_kwh (sim_config s))) ≠ 0 →
  ∃ s', run faults s = (s', Ok (st_events (sim_state s'))) ∧ sim_ok s' ∧ sim_running s' = false ∧ time_left s' = 0%nat ∧ sim_config s' = sim_config s ∧
    run faults (run_loop n faults (start s)).1 = (s', Ok (st_events (sim_state s'))).
Proof using Hshort.
  intros Hf Hok Hb.
  assert (∀ b s0, sim_ok s0 → sim_ok (set_running b s0)) as Hrun by (intros b s0 [? ? ? ? ? ?]; by split).
  destruct (run_loop_ok faults Hf (time_left s) (start s)) as (s1 & Hl & Hok1 & Hc & Ht); [by apply Hrun|done|].
  destruct (run_loop_ok faults Hf n (start s)) as (s2 & Hl2 & Hok2 & Hc2 & Ht2); [by apply Hrun|done|].
  assert (sim_running s1 = true ∧ sim_running s2 = true) as [Hr1 Hr2].
  { assert (∀ k s0, sim_running (run_loop k faults s0).1 = sim_running s0) as Hkeep.
    2:{ pose proof (Hkeep (time_left s) (start s)) as K1. pose proof (Hkeep n (start s)) as K2. rewrite Hl in K1. rewrite Hl2 in K2. done. }
    intros k. induction k as [|k IH]; intros s0; [done|]. destruct (decide (time_left s0 = 0%nat)); [by rewrite run_loop_done|]. rewrite run_loop_step by lia. unfold mbind, M_bind.
    unfold Engine.step. destruct (_ <=? _); [done|]. destruct (pv_forecast _ _ _); [|done]. destruct (job_flow _ _ _ _). destruct (next_soc _ _ _ _); [|done].
    destruct (hashable _); [|done]. cbn. by rewrite IH. }
  exists (pause s1). split_and!.
  - unfold Engine.run. change (Z.to_nat _) with (time_left s). by rewrite Hl.
  - by apply Hrun.
  - done.
  - change (time_left (pause s1)) with (time_left s1). change (time_left (start s)) with (time_left s) in Ht. lia.
  - done.
  - rewrite Hl2. cbn [fst]. unfold Engine.run. change (Z.to_nat _) with (time_left s2).
    assert (start s2 = s2) as -> by (destruct s2; cbn in *; by subst). change (time_left (start s)) with (time_left s) in *.
    destruct (decide (n <= time_left s)%nat) as [Hn|Hn].
    + assert (run_loop (n + time_left s2) faults (start s) = (s1, Ok tt)) as Hs by (rewrite Ht2; by replace (n + (time_left s - n))%nat with (time_left s) by lia).
      rewrite run_loop_split in Hs. revert Hs. unfold mbind, M_bind. rewrite Hl2. by intros ->.
    + assert (run_loop (time_left s + (n - time_left s)) faults (start s) = (s2, Ok tt)) as Hs by (by replace (time_left s + (n - time_left s))%nat with n by lia).
      rewrite run_loop_split in Hs. revert Hs. unfold mbind, M_bind. rewrite Hl, (run_loop_done _ _ s1) by lia. intros [= ->]. by rewrite run_loop_done by lia.
Qed.

(** The events record the faults of a schedule *)
Definition injected (faults : Z → pyval) (s : Simulator R) : Prop :=
  ∀ i e, st_events (sim_state s) !! i = Some e → od_get "fault" e = Some (faults (Z.of_nat i)).

Lemma step_injected faults s s' e : sim_ok s → injected faults s → step (faults (st_step (sim_state s))) s = (s', Ok e) → injected faults s'.
Proof using Type.
  intros [_ [Hl _] _ _ _ _] Hi. unfold Engine.step. destruct (_ <=? _); [done|]. destruct (pv_forecast _ _ _); [|done]. destruct (job_flow _ _ _ _).
  destruct (next_soc _ _ _ _); [|done]. destruct (hashable _); [|done]. cbn [negb]. intros [= <- <-] i x. cbn [sim_state st_events].
  intros [Hx|[Hx1 Hx2]]%lookup_app_Some; [by apply Hi|]. destruct (i - _)%nat as [|n] eqn:En; [|done]. injection Hx2 as <-.
  assert (st_step (sim_state s) = Z.of_nat i) as -> by lia. done.
Qed.

Lemma run_loop_injected faults n : ∀ s s', sim_ok s → injected faults s → run_loop n faults s = (s', Ok tt) → injected faults s'.
Proof using Hshort.
  induction n as [|n IH]; intros s s' Hok Hi; [by intros [= <-]|]. destruct (decide (time_left s = 0%nat)); [rewrite run_loop_done by done; by intros [= <-]|].
  rewrite run_loop_step by lia. unfold mbind, M_bind. destruct (step _ s) as [s1 [e|e]] eqn:Es; [|done]. apply IH; [by eapply step_ok|by eapply step_injected].
Qed.

Lemma run_injected faults s s' events : sim_ok s → injected faults s → run faults s = (s', Ok events) → injected faults s'.
Proof using Hshort.
  intros Hok Hi. unfold Engine.run. destruct (run_loop _ _ _) as [s1 [[]|e]] eqn:El; [|done]. intros [= <- _].
  change (injected faults s1). eapply (run_loop_injected faults _ (start s)); [|exact Hi|exact El]. destruct Hok. by split.
Qed.
End invariant.
