(* ===== verification/Operations.v ===== *)
(** * Idempotent API operations with leases

    [packages/persistence/operations.py]: [OperationIdempotency.execute_once] records a request under
    [(tenant, key)] before running its callback, and replays the recorded response afterwards.  The table row
    carries a lease: a request whose worker crashed may be taken over once the lease has expired.

    The callback is a parameter: its outcome is an input of the model.  Other parameters: the digest of the
    intent, the text recorded for an exception, and [serial], the JSON form in which a response is stored.
    Transactions run one after the other; two requests that insert the same row at once are ordered, where
    the code lets the second fail on the unique key. *)
From S2P Require Import Prelude PyValue Domain Landing.
Local Open Scope Z_scope.

Section operations.
Context {V : Type}.

Inductive op_status := OpStarted | OpSucceeded | OpFailed.
#[global] Instance op_status_eq_dec : EqDecision op_status.
Proof. solve_decision. Defined.

Record op_row := MkOpRow {
  row_operation : string; row_hash : string; row_status : op_status; row_response : option V; row_error : option string;
  lease_expires_at : Z
}.
#[local] Abbreviation op_table := (gmap (string * string) op_row).

(** what a caller asks: the identity of the request *)
Record request := MkRequest { rq_tenant : string; rq_key : string; rq_operation : string; rq_digest : string }.
Definition rq_ident (r : request) : string * string := (rq_tenant r, rq_key r).

(** the outcome of the first transaction: a recorded response, or leave to run the callback *)
Inductive begun := Replay (response : option V) | RunCallback.

(** the constructor's check of the lease *)
Definition operations_lease (l : Z) : result Z := raise_if (l <=? 0) (ValueError "operation lease must be positive");; Ok l.

Definition request_guard (r : request) : result unit :=
  raise_if (bool_decide (rq_tenant r = "") || (String.length (rq_key r) <? 8)%nat || bool_decide (rq_operation r = ""))
    (ValueError "tenant, operation and an idempotency key of at least 8 characters are required").

Definition check_identity (row_op row_digest : string) (r : request) : result unit :=
  raise_if (negb (bool_decide (row_op = rq_operation r)) || negb (bool_decide (row_digest = rq_digest r)))
    (ValueError "idempotency key reused with a different API operation").

(** ** In process *)

Abbreviation op_memory := (gmap (string * string) (string * string * V)).

(** [callback] is what the callback does when it is called; the second component of the answer says whether
    it was *)
Definition execute_memory (r : request) (callback : result V) : M op_memory (V * bool) :=
  m ← mget;
  match m !! rq_ident r with
  | Some (previous_operation, previous_digest, v) =>
      mlift (check_identity previous_operation previous_digest r);; mret (v, false)
  | None => v ← mlift callback; mput (<[rq_ident r := (rq_operation r, rq_digest r, v)]> m);; mret (v, true)
  end.

Definition mem_execute_once (r : request) (callback : result V) : M op_memory (V * bool) :=
  mlift (request_guard r);; execute_memory r callback.

(** ** In the table [api_operations] *)

Context (txn : ∀ S A, M S A → M S A) (serial : V → V) (lease : Z).

Definition lease_active (now : Z) (row : op_row) : bool :=
  bool_decide (row_status row = OpStarted) && (now <? lease_expires_at row).

Definition op_begin (now : Z) (r : request) : M op_table begun :=
  mlift (request_guard r);;
  tenant_connection txn (rq_tenant r) (
    t ← mget;
    match t !! rq_ident r with
    | Some row =>
        mlift (check_identity (row_operation row) (row_hash row) r);;
        if bool_decide (row_status row = OpSucceeded) then mret (Replay (row_response row))
        else
          mguard (lease_active now row) (RuntimeError "matching API operation is already in progress");;
          mput (<[rq_ident r := MkOpRow (row_operation row) (row_hash row) OpStarted None None (now + lease)]> t);;
          mret RunCallback
    | None =>
        mput (<[rq_ident r := MkOpRow (rq_operation r) (rq_digest r) OpStarted None None (now + lease)]> t);;
        mret RunCallback
    end).

(** the callback raised: [error] is the text [Type: message] cut to 4000 characters *)
Definition op_fail (r : request) (error : string) : M op_table unit :=
  tenant_connection txn (rq_tenant r) (
    t ← mget;
    match t !! rq_ident r with
    | Some row =>
        if bool_decide (row_hash row = rq_digest r) then
          mput (<[rq_ident r := MkOpRow (row_operation row) (row_hash row) OpFailed (row_response row)
            (Some (String.substring 0 4000 error)) (lease_expires_at row)]> t)
        else mret tt
    | None => mret tt
    end).

Definition op_succeed (r : request) (v : V) : M op_table unit :=
  tenant_connection txn (rq_tenant r) (
    t ← mget;
    match t !! rq_ident r with
    | Some row =>
        if bool_decide (row_hash row = rq_digest r) && bool_decide (row_status row = OpStarted) then
          mput (<[rq_ident r := MkOpRow (row_operation row) (row_hash row) OpSucceeded (Some (serial v)) (row_error row)
            (lease_expires_at row)]> t)
        else mraise (RuntimeError "API operation lease was lost before completion")
    | None => mraise (RuntimeError "API operation lease was lost before completion")
    end).

(** the whole method, with no other caller in between; [exn_text] is the text of an exception *)
Definition op_execute_once (exn_text : exn → string) (now : Z) (r : request) (callback : result V)
    : M op_table (option V * bool) :=
  b ← op_begin now r;
  match b with
  | Replay v => mret (v, false)
  | RunCallback =>
      match callback with
      | Err e => op_fail r (exn_text e);; mraise e
      | Ok v => op_succeed r v;; mret (Some v, true)
      end
  end.

(** ** Interleaved callers

    A configuration: the table, the clock, the callbacks running (each with the lease its first transaction
    took), and the successful runs so far, latest first.  A worker may crash at any moment. *)
Record flight := MkFlight { fl_request : request; fl_expires : Z }.
Record op_config := MkOps {
  ops_table : op_table; ops_clock : Z; ops_flights : gmap nat flight; ops_log : list (request * V)
}.
Definition ops_init : op_config := MkOps ∅ 0 ∅ [].

Definition live (now : Z) (f : flight) : Prop := now < fl_expires f.

(** [may_end] says when a running callback may end and record its outcome *)
Context (may_end : Z → flight → Prop).

Inductive op_step : op_config → op_config → Prop :=
| OpTick c d : 0 <= d → op_step c (MkOps (ops_table c) (ops_clock c + d) (ops_flights c) (ops_log c))
| OpBegin c i r t' : ops_flights c !! i = None → op_begin (ops_clock c) r (ops_table c) = (t', Ok RunCallback) →
    op_step c (MkOps t' (ops_clock c) (<[i := MkFlight r (ops_clock c + lease)]> (ops_flights c)) (ops_log c))
| OpAnswered c r t' x : op_begin (ops_clock c) r (ops_table c) = (t', x) → x ≠ Ok RunCallback →
    op_step c (MkOps t' (ops_clock c) (ops_flights c) (ops_log c))
| OpSucceed c i f v t' x : ops_flights c !! i = Some f → may_end (ops_clock c) f →
    op_succeed (fl_request f) v (ops_table c) = (t', x) →
    op_step c (MkOps t' (ops_clock c) (delete i (ops_flights c)) ((fl_request f, v) :: ops_log c))
| OpFail c i f e t' x : ops_flights c !! i = Some f → may_end (ops_clock c) f →
    op_fail (fl_request f) e (ops_table c) = (t', x) →
    op_step c (MkOps t' (ops_clock c) (delete i (ops_flights c)) (ops_log c))
| OpCrash c i : op_step c (MkOps (ops_table c) (ops_clock c) (delete i (ops_flights c)) (ops_log c)).
End operations.
Arguments op_row : clear implicits.
Arguments begun : clear implicits.
Arguments op_config : clear implicits.

(** ** The transactions *)

Section op_facts.
Context {V : Type} (txn : ∀ S A, M S A → M S A) `{!Transactional txn} (serial : V → V) (lease : Z).
#[local] Abbreviation op_table := (gmap (string * string) (op_row V)).

Definition accepted (r : request) : Prop := request_guard r = Ok tt ∧ tenant_valid (rq_tenant r) = true.
Definition started_row (r : request) (expires : Z) : op_row V :=
  MkOpRow (rq_operation r) (rq_digest r) OpStarted None None expires.

Lemma check_identity_ok o d r : check_identity o d r = Ok tt ↔ o = rq_operation r ∧ d = rq_digest r.
Proof. unfold check_identity, raise_if. repeat case_bool_decide; simpl; naive_solver. Qed.

(** the first transaction, on an accepted request *)
Lemma op_begin_accepted (now : Z) (r : request) (t : op_table) : accepted r →
  op_begin txn lease now r t =
  match t !! rq_ident r with
  | None => (<[rq_ident r := started_row r (now + lease)]> t, Ok RunCallback)
  | Some row =>
      match check_identity (row_operation row) (row_hash row) r with
      | Err e => (t, Err e)
      | Ok _ =>
          if bool_decide (row_status row = OpSucceeded) then (t, Ok (Replay (row_response row)))
          else if lease_active now row then (t, Err (RuntimeError "matching API operation is already in progress"))
          else (<[rq_ident r := started_row r (now + lease)]> t, Ok RunCallback)
      end
  end.
Proof.
  intros [Hg Hv]. unfold op_begin, mbind, M_bind, mlift. rewrite Hg. rewrite tenant_connection_run by done.
  unfold atomically, mget, mguard, mput, mret, M_ret, raise_if. destruct (t !! rq_ident r) as [row|]; [|done].
  destruct (check_identity (row_operation row) (row_hash row) r) as [[]|e] eqn:Ec; [|done]. apply check_identity_ok in Ec as [Ho Hd].
  destruct (bool_decide (row_status row = OpSucceeded)); [done|]. destruct (lease_active now row); [done|].
  unfold started_row. by rewrite Ho, Hd.
Qed.

Lemma op_begin_refused (now : Z) (r : request) (t : op_table) : ¬ accepted r → ∃ e, op_begin txn lease now r t = (t, Err e).
Proof.
  intros Hn. unfold op_begin, mbind, M_bind, mlift. destruct (request_guard r) as [[]|e] eqn:Eg; [|by eexists].
  unfold tenant_connection, mbind, M_bind, mguard, raise_if. destruct (tenant_valid (rq_tenant r)) eqn:Ev; [by destruct Hn|by eexists].
Qed.

Lemma op_begin_run (now : Z) (r : request) (t t' : op_table) : op_begin txn lease now r t = (t', Ok RunCallback) →
  accepted r ∧ t' = <[rq_ident r := started_row r (now + lease)]> t ∧
  ∀ row, t !! rq_ident r = Some row → row_status row ≠ OpSucceeded ∧ lease_active now row = false.
Proof.
  intros H. destruct (decide (request_guard r = Ok tt ∧ tenant_valid (rq_tenant r) = true)) as [Ha|Ha].
  2:{ destruct (op_begin_refused now r t Ha). congruence. }
  split; [done|]. rewrite op_begin_accepted in H by done. destruct (t !! rq_ident r) as [row|]; [|injection H as <-; by split].
  destruct (check_identity _ _ _); [|done]. case_bool_decide; [done|]. destruct (lease_active now row) eqn:El; [done|].
  injection H as <-. split; [done|]. by intros ? [= <-].
Qed.

Lemma op_begin_same (now : Z) (r : request) (t t' : op_table) (x : result (begun V)) : op_begin txn lease now r t = (t', x) → x ≠ Ok RunCallback → t' = t.
Proof.
  intros H Hx. destruct (decide (request_guard r = Ok tt ∧ tenant_valid (rq_tenant r) = true)) as [Ha|Ha].
  2:{ destruct (op_begin_refused now r t Ha). congruence. }
  rewrite op_begin_accepted in H by done. repeat case_match; simplify_eq; done.
Qed.

Lemma op_succeed_started (r : request) (v : V) (t : op_table) (row : op_row V) : accepted r → t !! rq_ident r = Some row → row_hash row = rq_digest r →
  row_status row = OpStarted →
  op_succeed txn serial r v t =
    (<[rq_ident r := MkOpRow (row_operation row) (row_hash row) OpSucceeded (Some (serial v)) (row_error row) (lease_expires_at row)]> t, Ok tt).
Proof.
  intros [_ Hv] Hrow Hh Hs. unfold op_succeed. rewrite tenant_connection_run by done. munfold. unfold atomically. rewrite Hrow.
  by rewrite !bool_decide_eq_true_2.
Qed.

Lemma op_fail_found (r : request) (e : string) (t : op_table) (row : op_row V) : accepted r → t !! rq_ident r = Some row → row_hash row = rq_digest r →
  op_fail txn r e t =
    (<[rq_ident r := MkOpRow (row_operation row) (row_hash row) OpFailed (row_response row) (Some (String.substring 0 4000 e))
       (lease_expires_at row)]> t, Ok tt).
Proof.
  intros [_ Hv] Hrow Hh. unfold op_fail. rewrite tenant_connection_run by done. munfold. unfold atomically. rewrite Hrow.
  by rewrite bool_decide_eq_true_2.
Qed.

(** ** The invariant of timely histories *)

Definition succeeded_row (row : op_row V) (r : request) (v : V) : Prop :=
  row_operation row = rq_operation r ∧ row_hash row = rq_digest r ∧ row_status row = OpSucceeded ∧ row_response row = Some (serial v).

Record ops_inv (c : op_config V) : Prop := {
  inv_live : ∀ i f, ops_flights c !! i = Some f → accepted (fl_request f) ∧
    (live (ops_clock c) f → ∃ row, ops_table c !! rq_ident (fl_request f) = Some row ∧ row_status row = OpStarted ∧
      row_operation row = rq_operation (fl_request f) ∧ row_hash row = rq_digest (fl_request f) ∧ lease_expires_at row = fl_expires f);
  inv_uniq : ∀ i j f g, ops_flights c !! i = Some f → ops_flights c !! j = Some g → live (ops_clock c) f → live (ops_clock c) g →
    rq_ident (fl_request f) = rq_ident (fl_request g) → i = j;
  inv_log : ∀ r v, (r, v) ∈ ops_log c → accepted r ∧ ∃ row, ops_table c !! rq_ident r = Some row ∧ succeeded_row row r v;
  inv_once : NoDup (map (λ e, rq_ident e.1) (ops_log c))
}.

(** a row that is not a recorded success belongs to no entry of the log *)
Lemma not_logged c k : ops_inv c → (∀ row, ops_table c !! k = Some row → row_status row ≠ OpSucceeded) →
  ∀ r v, (r, v) ∈ ops_log c → rq_ident r ≠ k.
Proof. intros Hi Hk r v Hl <-. destruct (inv_log c Hi r v Hl) as (_ & row & Hrow & _ & _ & Hs & _). by eapply Hk. Qed.

Lemma inv_begin c i r t' : ops_inv c → ops_flights c !! i = None → op_begin txn lease (ops_clock c) r (ops_table c) = (t', Ok RunCallback) →
  ops_inv (MkOps t' (ops_clock c) (<[i := MkFlight r (ops_clock c + lease)]> (ops_flights c)) (ops_log c)).
Proof.
  intros Hi Hfree (Ha & -> & Hrow)%op_begin_run.
  assert (∀ j g, ops_flights c !! j = Some g → live (ops_clock c) g → rq_ident (fl_request g) ≠ rq_ident r) as Hno.
  { intros j g Hg Hl Heq. destruct (inv_live c Hi j g Hg) as [_ Hx]. destruct (Hx Hl) as (row & Hr & Hs & _ & _ & He).
    rewrite Heq in Hr. destruct (Hrow row Hr) as [_ Hact]. unfold lease_active in Hact.
    rewrite bool_decide_eq_true_2 in Hact by done. unfold live in Hl. simpl in Hact. lia. }
  assert (∀ r' v, (r', v) ∈ ops_log c → rq_ident r' ≠ rq_ident r) as Hnl by (apply not_logged; [done|naive_solver]).
  split; simpl.
  - intros j f. rewrite lookup_insert_Some. intros [[<- <-]|[Hne Hf]].
    + split; [done|]. intros _. eexists. simpl. rewrite lookup_insert_eq. done.
    + destruct (inv_live c Hi j f Hf) as [Haf Hx]. split; [done|]. intros Hl. rewrite lookup_insert_ne; [by apply Hx|].
      intros Heq. by eapply Hno.
  - intros j k f g. rewrite !lookup_insert_Some. intros [[<- <-]|[Hne Hf]] [[<- <-]|[Hne' Hg]] Hl Hl' Heq; [done|..].
    + exfalso. by eapply Hno.
    + exfalso. by eapply Hno.
    + by eapply (inv_uniq c Hi).
  - intros r' v Hin. destruct (inv_log c Hi r' v Hin) as [Ha' Hx]. split; [done|]. rewrite lookup_insert_ne; [done|].
    intros Heq. by eapply Hnl.
  - apply (inv_once c Hi).
Qed.

(** the row of a live flight replaced when the flight ends *)
Lemma inv_end c i f row' log' : ops_inv c → ops_flights c !! i = Some f → live (ops_clock c) f →
  (log' = ops_log c ∨ ∃ v, log' = (fl_request f, v) :: ops_log c ∧ succeeded_row row' (fl_request f) v) →
  ops_inv (MkOps (<[rq_ident (fl_request f) := row']> (ops_table c)) (ops_clock c) (delete i (ops_flights c)) log').
Proof.
  intros Hi Hf Hl Hlog. destruct (inv_live c Hi i f Hf) as [Ha Hx]. destruct (Hx Hl) as (row & Hr & Hs & _).
  assert (∀ r' v, (r', v) ∈ ops_log c → rq_ident r' ≠ rq_ident (fl_request f)) as Hnl.
  { apply not_logged; [done|]. intros row0 Hr0. rewrite Hr in Hr0. injection Hr0 as <-. by rewrite Hs. }
  split; simpl.
  - intros j g. rewrite lookup_delete_Some. intros [Hne Hg]. destruct (inv_live c Hi j g Hg) as [Hag Hxg]. split; [done|].
    intros Hlg. rewrite lookup_insert_ne; [by apply Hxg|]. intros Heq. apply Hne. by eapply (inv_uniq c Hi).
  - intros j k g g'. rewrite !lookup_delete_Some. intros [_ Hg] [_ Hg']. by eapply (inv_uniq c Hi).
  - assert (∀ r v, (r, v) ∈ ops_log c → accepted r ∧
      ∃ row0, <[rq_ident (fl_request f) := row']> (ops_table c) !! rq_ident r = Some row0 ∧ succeeded_row row0 r v) as Hold.
    { intros r v Hin. destruct (inv_log c Hi r v Hin) as [Hr' Hrow]. split; [done|]. rewrite lookup_insert_ne; [done|].
      intros Heq. by eapply Hnl. }
    destruct Hlog as [->|(v & -> & Hsr)]; [done|]. intros r' v' [[= -> ->]|Hin]%elem_of_cons; [|by apply Hold]. split; [done|].
    exists row'. by rewrite lookup_insert_eq.
  - destruct Hlog as [->|(v & -> & Hsr)]; [apply (inv_once c Hi)|]. simpl. constructor; [|apply (inv_once c Hi)].
    intros ([r' v'] & Heq & Hin)%list_elem_of_fmap. by eapply Hnl.
Qed.

Lemma ops_step_inv c c' : op_step txn serial lease live c c' → ops_inv c → ops_inv c'.
Proof.
  intros Hstep Hi. destruct Hstep as [c d Hd|c i r t' Hfree Hb|c r t' x Hb Hx|c i f v t' x Hf Hl Ht|c i f e t' x Hf Hl Ht|c i].
  - destruct Hi as [H1 H2 H3 H4]. split; simpl; [|..|done|done].
    + intros i f Hf. destruct (H1 i f Hf) as [Ha Hx]. split; [done|]. intros Hl. apply Hx. unfold live in *. lia.
    + intros i j f g Hf Hg Hlf Hlg. apply H2; [done..| |]; unfold live in *; lia.
  - by apply inv_begin.
  - rewrite (op_begin_same _ _ _ _ _ Hb Hx). by destruct c.
  - destruct (inv_live c Hi i f Hf) as [Ha Hx]. destruct (Hx Hl) as (row & Hr & Hs & Ho & Hh & He).
    rewrite (op_succeed_started _ v _ row Ha Hr Hh Hs) in Ht. injection Ht as <- _. apply inv_end; [done..|]. right. exists v. done.
  - destruct (inv_live c Hi i f Hf) as [Ha Hx]. destruct (Hx Hl) as (row & Hr & Hs & Ho & Hh & He).
    rewrite (op_fail_found _ e _ row Ha Hr Hh) in Ht. injection Ht as <- _. apply inv_end; [done..|]. by left.
  - destruct Hi as [H1 H2 H3 H4]. split; simpl; [..|done|done].
    + intros j f. rewrite lookup_delete_Some. intros [_ Hf]. exact (H1 j f Hf).
    + intros j k f g. rewrite !lookup_delete_Some. intros [_ Hf] [_ Hg]. exact (H2 j k f g Hf Hg).
Qed.

Lemma ops_reach_inv c : rtc (op_step txn serial lease live) ops_init c → ops_inv c.
Proof.
  intros Hr. assert (ops_inv ops_init) as H0.
  { split; simpl; [intros i f; by rewrite lookup_empty|intros i j f g; by rewrite lookup_empty|intros r v H; by apply elem_of_nil in H|constructor]. }
  revert H0. induction Hr; eauto using ops_step_inv.
Qed.
End op_facts.

(** C17: API operations run at most once as long as callbacks end within their lease, whatever the interleaving
    of callers, crashes, takeovers and failures: no request identity has two successful runs; two callbacks
    whose leases are both live never belong to the same identity; and once a request has succeeded, asking
    again with the same operation and intent replays the recorded response without changing the table, while
    another operation or intent under the same key is refused. *)
Theorem operations_at_most_once {V} (txn : ∀ S A, M S A → M S A) `{!Transactional txn} (serial : V → V) lease (c : op_config V) :
  rtc (op_step txn serial lease live) ops_init c →
  NoDup (map (λ e, rq_ident e.1) (ops_log c)) ∧
  (∀ i j f g, ops_flights c !! i = Some f → ops_flights c !! j = Some g → live (ops_clock c) f → live (ops_clock c) g →
    rq_ident (fl_request f) = rq_ident (fl_request g) → i = j) ∧
  (∀ r v now, (r, v) ∈ ops_log c →
    op_begin txn lease now r (ops_table c) = (ops_table c, Ok (Replay (Some (serial v)))) ∧
    ∀ r', rq_ident r' = rq_ident r → request_guard r' = Ok tt → (rq_operation r', rq_digest r') ≠ (rq_operation r, rq_digest r) →
      op_begin txn lease now r' (ops_table c) =
        (ops_table c, Err (ValueError "idempotency key reused with a different API operation"))).
Proof.
  intros Hr. pose proof (ops_reach_inv txn serial lease c Hr) as Hi. split_and!; [apply (inv_once _ _ Hi)|apply (inv_uniq _ _ Hi)|].
  intros r v now Hin. destruct (inv_log _ _ Hi r v Hin) as (Ha & row & Hrow & Ho & Hh & Hs & Hv). split.
  - rewrite op_begin_accepted by done. rewrite Hrow, (proj2 (check_identity_ok _ _ _)) by done. by rewrite bool_decide_eq_true_2, Hv.
  - intros r' Hid Hg Hne. rewrite (op_begin_accepted txn lease now r' (ops_table c)).
    + rewrite Hid, Hrow. unfold check_identity, raise_if. repeat case_bool_decide; simpl; congruence.
    + split; [done|]. destruct Ha as [_ Ha]. unfold rq_ident in Hid. injection Hid as -> _. done.
Qed.

(** ** Executable histories *)

Inductive op_command (V : Type) := DoTick (d : Z) | DoBegin (i : nat) (r : request) | DoSucceed (i : nat) (v : V) | DoFail (i : nat) (e : string) | DoCrash (i : nat).
Arguments DoTick {V} d.
Arguments DoBegin {V} i r.
Arguments DoSucceed {V} i v.
Arguments DoFail {V} i e.
Arguments DoCrash {V} i.

Section op_run.
Context {V : Type} (txn : ∀ S A, M S A → M S A) (serial : V → V) (lease : Z).
Context (may_end : Z → flight → Prop) (ends : Z → flight → bool) (ends_may : ∀ now f, ends now f = true → may_end now f).

Definition op_do (cmd : op_command V) (c : op_config V) : option (op_config V) :=
  match cmd with
  | DoTick d => if 0 <=? d then Some (MkOps (ops_table c) (ops_clock c + d) (ops_flights c) (ops_log c)) else None
  | DoBegin i r =>
      match ops_flights c !! i, op_begin txn lease (ops_clock c) r (ops_table c) with
      | None, (t, Ok RunCallback) =>
          Some (MkOps t (ops_clock c) (<[i := MkFlight r (ops_clock c + lease)]> (ops_flights c)) (ops_log c))
      | _, _ => None
      end
  | DoSucceed i v =>
      match ops_flights c !! i with
      | Some f => if ends (ops_clock c) f then
          Some (MkOps (op_succeed txn serial (fl_request f) v (ops_table c)).1 (ops_clock c) (delete i (ops_flights c))
            ((fl_request f, v) :: ops_log c)) else None
      | None => None
      end
  | DoFail i e =>
      match ops_flights c !! i with
      | Some f => if ends (ops_clock c) f then
          Some (MkOps (op_fail txn (fl_request f) e (ops_table c)).1 (ops_clock c) (delete i (ops_flights c)) (ops_log c)) else None
      | None => None
      end
  | DoCrash i => Some (MkOps (ops_table c) (ops_clock c) (delete i (ops_flights c)) (ops_log c))
  end.

Fixpoint op_run (cmds : list (op_command V)) (c : op_config V) : option (op_config V) :=
  match cmds with [] => Some c | cmd :: cmds' => op_do cmd c ≫= op_run cmds' end.

Lemma op_do_step cmd c c' : op_do cmd c = Some c' → op_step txn serial lease may_end c c'.
Proof.
  destruct cmd as [d|i r|i v|i e|i]; simpl.
  - destruct (Z.leb_spec 0 d); [|done]. intros [= <-]. by apply OpTick.
  - destruct (ops_flights c !! i) eqn:Ei; [done|]. destruct (op_begin _ _ _ _ _) as [t [[|]|]] eqn:Eb; try done.
    intros [= <-]. by apply OpBegin.
  - destruct (ops_flights c !! i) as [f|] eqn:Ei; [|done]. destruct (ends _ f) eqn:Ee; [|done]. intros [= <-].
    destruct (op_succeed txn serial (fl_request f) v (ops_table c)) as [t x] eqn:Es. by eapply OpSucceed; [..|exact Es]; [|apply ends_may].
  - destruct (ops_flights c !! i) as [f|] eqn:Ei; [|done]. destruct (ends _ f) eqn:Ee; [|done]. intros [= <-].
    destruct (op_fail txn (fl_request f) e (ops_table c)) as [t x] eqn:Es. by eapply OpFail; [..|exact Es]; [|apply ends_may].
  - intros [= <-]. apply OpCrash.
Qed.

Lemma op_run_reach cmds : ∀ c c', op_run cmds c = Some c' → rtc (op_step txn serial lease may_end) c c'.
Proof.
  induction cmds as [|cmd cmds IH]; simpl; intros c c'; [intros [= <-]; apply rtc_refl|].
  destruct (op_do cmd c) as [c1|] eqn:E; [|done]. simpl. intros H. eapply rtc_l; [by eapply op_do_step|by apply IH].
Qed.
End op_run.

(** a caller crashes, another takes over after the lease and succeeds *)
Definition sample_request : request := MkRequest "ten_acme" "op-key-01" "plan.execute" "d1".
Definition is_live (now : Z) (f : flight) : bool := now <? fl_expires f.

Lemma is_live_live now f : is_live now f = true → live now f.
Proof. unfold is_live, live. lia. Qed.

Lemma operations_at_most_once_witness :
  ∃ c, op_run (@atomically) id 120 is_live [DoBegin 0 sample_request; DoCrash 0; DoTick 130; DoBegin 1 sample_request; DoSucceed 1 7] ops_init = Some c ∧
  op_begin (@atomically) 120 500 sample_request (ops_table c) = (ops_table c, Ok (Replay (Some 7))).
Proof.
  destruct (op_run (@atomically) id 120 is_live [DoBegin 0 sample_request; DoCrash 0; DoTick 130; DoBegin 1 sample_request; DoSucceed 1 7] ops_init)
    as [c|] eqn:E; [|vm_compute in E; discriminate].
  exists c. split; [reflexivity|]. pose proof (op_run_reach _ _ _ live is_live is_live_live _ _ _ E) as Hr.
  destruct (operations_at_most_once (@atomically) id 120 c Hr) as (_ & _ & H). apply H. vm_compute in E. injection E as <-. left.
Defined.

(** Without that assumption an operation can succeed twice.  The failure is recorded whatever the status of the
    row: a worker that outlived its lease and fails turns the success of the worker that took over into a
    failure, and the next request runs the callback again. *)
Example late_failure_repeats_success : let r := sample_request in
  ops_log <$> op_run (@atomically) id 120 (λ _ _, true)
    [DoBegin 0 r; DoTick 130; DoBegin 1 r; DoSucceed 1 7; DoFail 0 "TimeoutError: late"; DoBegin 2 r; DoSucceed 2 8] ops_init
  = Some [(r, 8); (r, 7)].
Proof. vm_compute. reflexivity. Qed.

(** After a failure the table keeps the identity of the request and refuses another operation under the key; in
    process nothing is kept and the other operation runs. *)
Example failed_key_backends_differ :
  let r := sample_request in let r' := MkRequest "ten_acme" "op-key-01" "plan.cancel" "d2" in
  let '(m, _) := mem_execute_once r (Err (ValueError "boom")) (∅ : gmap (string * string) (string * string * Z)) in
  let '(t, _) := op_execute_once (@atomically) id 120 (λ _, "ValueError: boom") 0 r (Err (ValueError "boom")) ∅ in
  (mem_execute_once r' (Ok 7) m).2 = Ok (7, true) ∧
  (op_execute_once (@atomically) id 120 (λ _, "") 0 r' (Ok 7) t).2 = Err (ValueError "idempotency key reused with a different API operation").
Proof. vm_compute. done. Qed.
