(* ===== verification/Platform.v ===== *)
(** * Versioned configuration, notifications, backups

    [packages/admin/versioned_config.py], [packages/notifications/service.py], [packages/dr/service.py] and
    [apps/simulator/snapshots.py].  A Python dict with string keys whose order is not observed is a [gmap]; the
    JSON encoder, its decoder and SHA-256 are parameters. *)
From S2P Require Import Prelude PyDecimal PyValue PyText Domain.
Local Open Scope Z_scope.

(** ** Versioned configuration *)

Abbreviation config := (gmap string pyval).

Record ConfigVersion := MkConfigVersion {
  cv_version : Z; cv_values : config; cv_actor : string; cv_created : datetime; cv_hash : string
}.
Record VersionedConfig := MkVersioned { allowed_keys : gset string; versions : list ConfigVersion }.
Definition new_config (allowed : gset string) : VersionedConfig := MkVersioned allowed [].

Section config.
(** [sha256(json.dumps(values, sort_keys=True))]; raises on values that are no JSON *)
Context (digest : config → result string).

Definition latest_values (s : VersionedConfig) : config := default ∅ (cv_values <$> last (versions s)).

Definition update (values : config) (actor : string) (now : datetime) : M VersionedConfig ConfigVersion := λ s,
  if negb (bool_decide (dom values ⊆ allowed_keys s)) then (s, Err (ValueError "unknown configuration keys"))
  else
    let current := values ∪ latest_values s in
    match digest current with
    | Err e => (s, Err e)
    | Ok h =>
        let v := MkConfigVersion (Z.of_nat (length (versions s)) + 1) current actor now h in
        (MkVersioned (allowed_keys s) (versions s ++ [v]), Ok v)
    end.

Definition version_at (n : Z) (s : VersionedConfig) : option ConfigVersion :=
  if (1 <=? n) && (n <=? Z.of_nat (length (versions s))) then versions s !! Z.to_nat (n - 1) else None.

Definition rollback (target_version : Z) (actor : string) (now : datetime) : M VersionedConfig ConfigVersion := λ s,
  match version_at target_version s with
  | None => (s, Err (ValueError "unknown configuration version"))
  | Some v => update (cv_values v) actor now s
  end.

Definition current (s : VersionedConfig) : result ConfigVersion := of_option IndexError (last (versions s)).

Inductive config_op := Update (values : config) | Rollback (target : Z).
Definition config_step (s : VersionedConfig) (o : config_op * string * datetime) : VersionedConfig :=
  let '(o, actor, now) := o in
  match o with Update vs => (update vs actor now s).1 | Rollback t => (rollback t actor now s).1 end.

(** What a version changed: values given by a caller, or all the values of an earlier version *)
Definition config_change (ops : list (config_op * string * datetime)) (older : list ConfigVersion) (delta : config) : Prop :=
  (∃ actor now, (Update delta, actor, now) ∈ ops) ∨ (∃ v, v ∈ older ∧ delta = cv_values v).

Record version_sound (allowed : gset string) (ops : list (config_op * string * datetime)) (l : list ConfigVersion) (i : nat)
    (v : ConfigVersion) : Prop := {
  vs_number : cv_version v = Z.of_nat i + 1;
  vs_keys : dom (cv_values v) ⊆ allowed;
  vs_hash : digest (cv_values v) = Ok (cv_hash v);
  vs_change : ∃ delta, config_change ops (take i l) delta ∧ cv_values v = delta ∪ default ∅ (cv_values <$> last (take i l))
}.

Definition config_sound (allowed : gset string) (ops : list (config_op * string * datetime)) (s : VersionedConfig) : Prop :=
  allowed_keys s = allowed ∧ ∀ i v, versions s !! i = Some v → version_sound allowed ops (versions s) i v.

Lemma update_cases vs actor now s :
  (∃ e, update vs actor now s = (s, Err e)) ∨
  (∃ h, dom vs ⊆ allowed_keys s ∧ digest (vs ∪ latest_values s) = Ok h ∧
     let v := MkConfigVersion (Z.of_nat (length (versions s)) + 1) (vs ∪ latest_values s) actor now h in
     update vs actor now s = (MkVersioned (allowed_keys s) (versions s ++ [v]), Ok v)).
Proof.
  unfold update. case_bool_decide as Hd; simpl; [|by left; eexists].
  destruct (digest _) as [h|e] eqn:Eh; [right; by exists h|left; by exists e].
Qed.

Lemma version_sound_weaken allowed ops ops' l k i v : (i < length l)%nat → ops ⊆ ops' →
  version_sound allowed ops l i v → version_sound allowed ops' (l ++ k) i v.
Proof.
  intros Hi Hops [Hn Hk Hh (delta & Hc & Hv)]. split; [done..|].
  exists delta. rewrite take_app_le by lia. split; [|done].
  destruct Hc as [(a & t & Hin)|Hin]; [left; exists a, t; by apply Hops|by right].
Qed.

Lemma config_sound_more allowed ops ops' s : ops ⊆ ops' → config_sound allowed ops s → config_sound allowed ops' s.
Proof.
  intros Hops [Ha Hv]. split; [done|]. intros i v Hi. rewrite <-(app_nil_r (versions s)).
  eapply version_sound_weaken; [by eapply lookup_lt_Some|exact Hops|by apply Hv].
Qed.

Lemma latest_allowed allowed ops s : config_sound allowed ops s → dom (latest_values s) ⊆ allowed.
Proof.
  intros [Ha Hv]. unfold latest_values. destruct (last (versions s)) as [v|] eqn:El; simpl; [|set_solver].
  rewrite last_lookup in El. by destruct (Hv _ _ El).
Qed.

Lemma update_sound allowed ops ops' vs actor now s : config_sound allowed ops s → ops ⊆ ops' →
  config_change ops' (versions s) vs → config_sound allowed ops' (update vs actor now s).1.
Proof.
  intros Hs Hops Hc. pose proof (latest_allowed _ _ _ Hs) as Hl. pose proof (config_sound_more _ _ _ _ Hops Hs) as Hkeep.
  destruct (update_cases vs actor now s) as [[e ->]|(h & Hd & Hh & ->)]; [done|]. destruct Hs as [Ha Hv].
  split; [done|]. intros i v [Hi|[Hge Hi]]%lookup_app_Some; cbn in *.
  { eapply version_sound_weaken; [by eapply lookup_lt_Some|done|by apply Hv]. }
  apply list_lookup_singleton_Some in Hi as [Hz <-]. assert (i = length (versions s)) as -> by lia.
  split; cbn; [done|rewrite dom_union; set_solver|done|].
  exists vs. by rewrite take_app_length.
Qed.

Lemma config_step_sound allowed ops s o : config_sound allowed ops s → config_sound allowed (ops ++ [o]) (config_step s o).
Proof.
  intros Hs. destruct o as [[[vs|t] actor] now]; cbn.
  - eapply update_sound; [done|set_solver|]. left. exists actor, now. set_solver.
  - assert (config_sound allowed (ops ++ [(Rollback t, actor, now)]) s) as Hkeep
      by (eapply config_sound_more; [|exact Hs]; set_solver).
    unfold rollback, version_at. if_case as E; [|done].
    destruct (versions s !! _) as [v|] eqn:Ev; [|done].
    eapply update_sound; [done|set_solver|]. right. exists v. split; [by eapply list_elem_of_lookup_2|done].
Qed.

Lemma config_run_sound allowed ops : config_sound allowed ops (foldl config_step (new_config allowed) ops).
Proof.
  induction ops as [|o ops IH] using rev_ind; [by split|]. rewrite foldl_app. by apply config_step_sound.
Qed.

Lemma config_step_keeps s o : versions s `prefix_of` versions (config_step s o).
Proof.
  assert (∀ vs a t, versions s `prefix_of` versions (update vs a t s).1) as Hu.
  { intros vs a t. destruct (update_cases vs a t s) as [[e ->]|(h & _ & _ & ->)]; [done|by eexists]. }
  destruct o as [[[vs|t] actor] now]; cbn; [done|]. unfold rollback. by case_match.
Qed.

Lemma config_run_keeps ops s : versions s `prefix_of` versions (foldl config_step s ops).
Proof.
  revert s. induction ops as [|o ops IH]; intros s; [done|]. etrans; [apply config_step_keeps|apply IH].
Qed.
End config.

(** The versions of a configuration after any sequence of updates and rollbacks are numbered from 1, hold only
    allowed keys, carry the digest of their values, are each the preceding version overridden by the update's values
    or by those of an earlier version, and are never changed by what follows. *)
Theorem config_versions_sound (digest : config → result string) (allowed : gset string)
    (before after : list (config_op * string * datetime)) :
  let s := foldl (config_step digest) (new_config allowed) before in
  let s' := foldl (config_step digest) (new_config allowed) (before ++ after) in
  (∀ i v, versions s !! i = Some v → version_sound digest allowed before (versions s) i v) ∧ versions s `prefix_of` versions s'.
Proof.
  intros s s'. split; [apply config_run_sound|]. unfold s'. rewrite foldl_app. apply config_run_keeps.
Qed.

(** A rollback restores a version exactly when every key set since then was already set in that version ... *)
Lemma rollback_restores_iff digest t actor now s v : (rollback digest t actor now s).2 = Ok v →
  ∃ target, version_at t s = Some target ∧
    (cv_values v = cv_values target ↔ dom (latest_values s) ⊆ dom (cv_values target)).
Proof.
  unfold rollback. destruct (version_at t s) as [target|] eqn:Et; [|done]. intros Hv. exists target. split; [done|].
  destruct (update_cases digest (cv_values target) actor now s) as [[e He]|(h & _ & _ & He)]; rewrite He in Hv; [done|].
  injection Hv as <-. cbn. split.
  - intros Heq k Hk. rewrite <-Heq, dom_union. set_solver.
  - intros Hd. apply map_eq. intros k. destruct (cv_values target !! k) as [x|] eqn:Ek.
    + by apply lookup_union_Some_l.
    + rewrite lookup_union_r by done. apply not_elem_of_dom. apply not_elem_of_dom in Ek. set_solver.
Qed.

(** ... and otherwise keeps them: a key added by version 2 survives the rollback to version 1. *)
Theorem rollback_keeps_later_keys :
  let now := DT 0 true in
  let digest (c : config) := Ok (int_str (Z.of_nat (size c))) in
  let s := foldl (config_step digest) (new_config {["a"; "b"]})
    [(Update {["a" := VInt 1]}, "x", now); (Update {["b" := VInt 2]}, "x", now); (Rollback 1, "x", now)] in
  map cv_values (versions s) = [{["a" := VInt 1]}; {["a" := VInt 1; "b" := VInt 2]}; {["a" := VInt 1; "b" := VInt 2]}].
Proof. vm_compute. reflexivity. Qed.

(** ** Notifications *)

Record Route := MkRoute {
  route_event : string; channel : string; destination : string; minimum_severity : Z;
  suppress_for : Z; escalation_after : option Z
}.
Record NotificationRouter := MkRouter { routes : list Route; sent : gmap (string * string) datetime }.
Definition new_router : NotificationRouter := MkRouter [] ∅.
Definition add_route (r : Route) (n : NotificationRouter) : NotificationRouter := MkRouter (routes n ++ [r]) (sent n).

Record notification := MkNotification { note_event : string; note_channel : string; note_destination : string; note_status : string }.
Record event := MkEvent { event_id : string; event_type : string; severity : Z; event_now : datetime }.

Definition applies (e : event) (r : Route) : bool :=
  bool_decide (route_event r = event_type e) && negb (severity e <? minimum_severity r).

(** [last and now - last < route.suppress_for] *)
Definition suppressed (e : event) (r : Route) (m : gmap (string * string) datetime) : result bool :=
  match m !! (event_type e, destination r) with
  | Some t => d ← dt_sub (event_now e) t; Ok (d <? suppress_for r)
  | None => Ok false
  end.

(** The loop over the routes; the result is the routes a message was made for. *)
Fixpoint deliver (e : event) (rs : list Route) : M (gmap (string * string) datetime) (list Route) := λ m,
  match rs with
  | [] => (m, Ok [])
  | r :: rest =>
      if negb (applies e r) then deliver e rest m
      else
        match suppressed e r m with
        | Err x => (m, Err x)
        | Ok true => deliver e rest m
        | Ok false =>
            match deliver e rest (<[(event_type e, destination r) := event_now e]> m) with
            | (m', Ok l) => (m', Ok (r :: l))
            | (m', Err x) => (m', Err x)
            end
        end
  end.

Definition note_of (e : event) (r : Route) : notification := MkNotification (event_id e) (channel r) (destination r) "routed".

Definition route (e : event) : M NotificationRouter (list notification) := λ n,
  match deliver e (routes n) (sent n) with
  | (m, Ok l) => (MkRouter (routes n) m, Ok (map (note_of e) l))
  | (m, Err x) => (MkRouter (routes n) m, Err x)
  end.

(** Histories of a router: routes are added, events are routed, and what is sent is logged with its event. *)
Definition entry_key (p : event * notification) : string * string := (event_type p.1, note_destination p.2).
Definition router_step (s : NotificationRouter * list (event * notification)) (op : Route + event)
    : NotificationRouter * list (event * notification) :=
  let '(n, log) := s in
  match op with
  | inl r => (add_route r n, log)
  | inr e => let '(n', out) := route e n in (n', log ++ match out with Ok l => map (pair e) l | Err _ => [] end)
  end.

(** Two entries of a log, in order: what is sent to one destination for one type of event is [w] apart. *)
Definition spaced (w : Z) (p q : event * notification) : Prop :=
  us (event_now p.1) <= us (event_now q.1) ∧ (entry_key p = entry_key q → us (event_now p.1) + w <= us (event_now q.1)).

Definition sent_of (log : list (event * notification)) : gmap (string * string) datetime :=
  foldl (λ m p, <[entry_key p := event_now p.1]> m) ∅ log.

Record log_inv (w now : Z) (m : gmap (string * string) datetime) (log : list (event * notification)) : Prop := {
  li_sent : m = sent_of log;
  li_past : Forall (λ p, aware (event_now p.1) = true ∧ us (event_now p.1) <= now) log;
  li_spaced : StronglySorted (spaced w) log
}.

Lemma sent_of_snoc log p : sent_of (log ++ [p]) = <[entry_key p := event_now p.1]> (sent_of log).
Proof. unfold sent_of. by rewrite foldl_app. Qed.

Lemma sent_of_inv k t log : sent_of log !! k = Some t → ∃ p, p ∈ log ∧ entry_key p = k ∧ event_now p.1 = t.
Proof.
  induction log as [|p log IH] using rev_ind; [done|]. rewrite sent_of_snoc. intros [[<- <-]|[_ Ht]]%lookup_insert_Some.
  - exists p. split; [set_solver|done].
  - destruct (IH Ht) as (q & Hq & ?). exists q. split; [set_solver|done].
Qed.

Lemma sent_of_last w p log : StronglySorted (spaced w) log → p ∈ log →
  ∃ t, sent_of log !! entry_key p = Some t ∧ us (event_now p.1) <= us t.
Proof.
  induction log as [|q log IH] using rev_ind; [set_solver|].
  intros (Hall & Hs & _)%StronglySorted_app Hp. rewrite sent_of_snoc.
  destruct (decide (entry_key q = entry_key p)) as [->|Hne].
  - exists (event_now q.1). rewrite lookup_insert_eq. split; [done|].
    apply elem_of_app in Hp as [Hp|Hp%list_elem_of_singleton]; [|by subst]. by apply (Hall p q Hp); set_solver.
  - rewrite lookup_insert_ne by done. apply IH; [done|].
    apply elem_of_app in Hp as [?|Hp%list_elem_of_singleton]; [done|by subst].
Qed.

Lemma log_inv_now w now now' m log : now <= now' → log_inv w now m log → log_inv w now' m log.
Proof. intros Hle [? Hp ?]. split; [done| |done]. eapply Forall_impl; [exact Hp|]. cbn. intros ? []. split; [done|lia]. Qed.

(** One more message, [w] after the last one to its destination *)
Lemma log_inv_snoc w e r m log : aware (event_now e) = true → log_inv w (us (event_now e)) m log →
  (∀ t, m !! (event_type e, destination r) = Some t → us t + w <= us (event_now e)) →
  log_inv w (us (event_now e)) (<[(event_type e, destination r) := event_now e]> m) (log ++ [(e, note_of e r)]).
Proof.
  intros Ha [-> Hp Hs] Hgap. split.
  - by rewrite sent_of_snoc.
  - apply Forall_app. split; [done|]. apply Forall_singleton. cbn. split; [done|lia].
  - apply StronglySorted_app. split; [|split; [done|by repeat constructor]].
    intros p q Hin ->%list_elem_of_singleton. rewrite Forall_forall in Hp. split; [by apply Hp|].
    intros Hk. destruct (sent_of_last w p log Hs Hin) as (t & Ht & Hle). rewrite Hk in Ht. cbn in *.
    specialize (Hgap _ Ht). lia.
Qed.

(** [r] was served: a message for it, or one to its destination that is younger than its suppression time *)
Definition served (e : event) (r : Route) (l : list Route) (m : gmap (string * string) datetime) : Prop :=
  r ∈ l ∨ ∃ t, m !! (event_type e, destination r) = Some t ∧ us (event_now e) - us t < suppress_for r.

Lemma suppressed_spec w e r m log : aware (event_now e) = true → log_inv w (us (event_now e)) m log →
  ∃ b, suppressed e r m = Ok b ∧
    if b then ∃ t, m !! (event_type e, destination r) = Some t ∧ us (event_now e) - us t < suppress_for r
    else ∀ t, m !! (event_type e, destination r) = Some t → us t + suppress_for r <= us (event_now e).
Proof.
  intros Ha [-> Hp _]. unfold suppressed. destruct (sent_of log !! _) as [t|] eqn:Et; [|by exists false].
  destruct (sent_of_inv _ _ _ Et) as (p & Hin & _ & <-). rewrite Forall_forall in Hp. destruct (Hp p Hin) as [Hpa ?].
  unfold dt_sub. rewrite Ha, Hpa. cbn. eexists. split; [done|]. destruct (_ <? _) eqn:Elt; bprop; [by eauto|].
  intros t [= <-]. lia.
Qed.

Lemma deliver_spec w e rs : aware (event_now e) = true → Forall (λ r, w <= suppress_for r) rs → ∀ m log,
  log_inv w (us (event_now e)) m log →
  ∃ l m', deliver e rs m = (m', Ok l) ∧ log_inv w (us (event_now e)) m' (log ++ map (λ r, (e, note_of e r)) l) ∧
    (∀ k t, m !! k = Some t → ∃ t', m' !! k = Some t' ∧ us t <= us t') ∧
    ∀ r, r ∈ rs → applies e r = true → served e r l m'.
Proof.
  intros Ha. induction 1 as [|r rs Hw Hrs IH]; intros m log Hinv.
  { exists [], m. rewrite app_nil_r. split_and!; [done|done| |set_solver]. intros k t ?. exists t. split; [done|lia]. }
  cbn. destruct (applies e r) eqn:Eap; cbn.
  2:{ destruct (IH m log Hinv) as (l & m' & -> & Hinv' & Hm & Hsv). exists l, m'. split_and!; [done..|].
      intros r' [->|?]%elem_of_cons ?; [congruence|by apply Hsv]. }
  destruct (suppressed_spec w e r m log Ha Hinv) as (b & Hb & Hgap). rewrite Hb. destruct b.
  - destruct (IH m log Hinv) as (l & m' & -> & Hinv' & Hm & Hsv). exists l, m'. split_and!; [done..|].
    intros r' [->|?]%elem_of_cons Hap; [|by apply Hsv]. right.
    destruct Hgap as (t & Ht & ?). destruct (Hm _ _ Ht) as (t' & Ht' & ?). exists t'. split; [done|lia].
  - assert (Hinv1 := log_inv_snoc w e r m log Ha Hinv). destruct (IH _ _ ltac:(apply Hinv1; intros t Ht; specialize (Hgap t Ht); lia))
      as (l & m' & -> & Hinv' & Hm & Hsv). exists (r :: l), m'.
    rewrite <-app_assoc in Hinv'. split_and!; [done|exact Hinv'| |].
    + intros k t Hk. destruct (decide (k = (event_type e, destination r))) as [->|Hne].
      * destruct (Hm (event_type e, destination r) (event_now e)) as (t' & ? & ?); [apply lookup_insert_eq|].
        exists t'. split; [done|]. destruct Hinv as [-> Hp _]. apply sent_of_inv in Hk as (p & Hin & _ & <-).
        rewrite Forall_forall in Hp. specialize (Hp p Hin). lia.
      * apply Hm. by rewrite lookup_insert_ne.
    + intros r' [->|?]%elem_of_cons Hap; [left; left|]. destruct (Hsv r') as [?|?]; [done..|left; by right|by right].
Qed.

Definition events_of (ops : list (Route + event)) : list event := omap (λ op, match op with inr e => Some e | inl _ => None end) ops.
Definition routes_of (ops : list (Route + event)) : list Route := omap (λ op, match op with inl r => Some r | inr _ => None end) ops.
Definition router_run (ops : list (Route + event)) : NotificationRouter * list (event * notification) :=
  foldl router_step (new_router, []) ops.
Definition in_order (e f : event) : Prop := us (event_now e) <= us (event_now f).

Lemma route_spec w e n log : aware (event_now e) = true → Forall (λ r, w <= suppress_for r) (routes n) →
  log_inv w (us (event_now e)) (sent n) log →
  ∃ out n', route e n = (n', Ok out) ∧ routes n' = routes n ∧ log_inv w (us (event_now e)) (sent n') (log ++ map (pair e) out) ∧
    ∀ r, r ∈ routes n → applies e r = true → note_of e r ∈ out ∨
      ∃ p, p ∈ log ++ map (pair e) out ∧ entry_key p = (event_type e, destination r) ∧
        us (event_now e) - us (event_now p.1) < suppress_for r.
Proof.
  intros Ha Hr Hinv. destruct (deliver_spec w e (routes n) Ha Hr _ _ Hinv) as (l & m & Hd & Hinv' & _ & Hsv).
  unfold route. rewrite Hd. exists (map (note_of e) l), (MkRouter (routes n) m). rewrite map_map.
  split_and!; [done..|]. intros r Hin Hap. destruct (Hsv r Hin Hap) as [?|(t & Ht & ?)].
  - left. by apply list_elem_of_fmap_2.
  - right. destruct Hinv' as [-> _ _]. apply sent_of_inv in Ht as (p & ? & ? & <-). by exists p.
Qed.

Lemma router_run_inv w ops : Forall (λ r, w <= suppress_for r) (routes_of ops) →
  Forall (λ e, aware (event_now e) = true) (events_of ops) → StronglySorted in_order (events_of ops) →
  let '(n, log) := router_run ops in
  routes n = routes_of ops ∧ ∀ now, Forall (λ e, us (event_now e) <= now) (events_of ops) → log_inv w now (sent n) log.
Proof.
  unfold router_run, routes_of, events_of. induction ops as [|op ops IH] using rev_ind.
  { split; [done|]. intros now _. split; [done|constructor..]. }
  rewrite !omap_app, !Forall_app, StronglySorted_app, foldl_app. intros [Hr1 Hr2] [Ha1 Ha2] (Hord & Hs1 & _).
  specialize (IH Hr1 Ha1 Hs1). destruct (foldl router_step (new_router, []) ops) as [n log]. destruct IH as [Hrn Hinv].
  destruct op as [r|e]; cbn in *.
  - split; [by rewrite Hrn|]. intros now [Hn _]%Forall_app. by apply Hinv.
  - rewrite Forall_singleton in Ha2. destruct (route_spec w e n log Ha2) as (out & n' & -> & Hrn' & Hinv' & _).
    + by rewrite Hrn.
    + apply Hinv. apply Forall_forall. intros e' He'. apply (Hord e' e He'). set_solver.
    + split; [by rewrite Hrn', Hrn, app_nil_r|]. intros now [_ Hn]%Forall_app. rewrite Forall_singleton in Hn. by eapply log_inv_now.
Qed.

Lemma sorted_lookup {A} (R : A → A → Prop) l i j p q : StronglySorted R l → (i < j)%nat → l !! i = Some p → l !! j = Some q → R p q.
Proof.
  intros Hs. revert i j. induction Hs as [|x l Hs IH Hx]; [done|]. intros [|i] [|j] Hij Hi Hj; [lia| |lia|by eapply (IH i j); [lia|..]].
  injection Hi as ->. rewrite Forall_forall in Hx. apply Hx. by eapply list_elem_of_lookup_2.
Qed.

(** Notifications, after any sequence of added routes and routed events in the order of time: when every route
    suppresses for at least [w], two messages to the same destination for the same type of event are at least [w]
    apart; and an event of sufficient severity that follows is sent on every matching route, unless a message for its
    type went to the route's destination within the suppression time of that route. *)
Theorem notifications_spaced (w : Z) (ops : list (Route + event)) (e : event)
    (Hw : ∀ r, inl r ∈ ops → w <= suppress_for r) (Ha : ∀ f, inr f ∈ ops ++ [inr e] → aware (event_now f) = true)
    (Hs : StronglySorted in_order (events_of (ops ++ [inr e]))) :
  let '(n, log) := router_run ops in
  (∀ i j p q, (i < j)%nat → log !! i = Some p → log !! j = Some q → entry_key p = entry_key q →
     us (event_now p.1) + w <= us (event_now q.1)) ∧
  ∃ out, (route e n).2 = Ok out ∧ ∀ r, inl r ∈ ops → applies e r = true → note_of e r ∈ out ∨
    ∃ p, p ∈ log ++ map (pair e) out ∧ entry_key p = (event_type e, destination r) ∧
      us (event_now e) - us (event_now p.1) < suppress_for r.
Proof.
  assert (∀ r, r ∈ routes_of ops ↔ inl r ∈ ops) as Hro by (intros; unfold routes_of; rewrite list_elem_of_omap; split;
    [intros ([] & ? & ?); naive_solver|intros; by eexists]).
  assert (∀ l f, f ∈ events_of l ↔ inr f ∈ l) as Heo by (intros; unfold events_of; rewrite list_elem_of_omap; split;
    [intros ([] & ? & ?); naive_solver|intros; by eexists]).
  unfold events_of in Hs at 1. rewrite omap_app, StronglySorted_app in Hs. destruct Hs as (Hord & Hs & _).
  assert (Forall (λ r, w <= suppress_for r) (routes_of ops)) as Hr by (apply Forall_forall; intros r Hin; apply Hw; by apply Hro).
  pose proof (router_run_inv w ops Hr) as Hrun. destruct (router_run ops) as [n log].
  destruct Hrun as [Hn Hinv]; [apply Forall_forall; intros f Hf%Heo; apply Ha; set_solver|done|].
  assert (log_inv w (us (event_now e)) (sent n) log) as Hlog.
  { apply Hinv, Forall_forall. intros f Hf. apply (Hord f e Hf). cbn. set_solver. }
  split.
  - intros i j p q Hij Hi Hj Hk. destruct Hlog as [_ _ Hsp].
    destruct (sorted_lookup _ _ i j p q Hsp Hij Hi Hj) as [_ Hgap]. by apply Hgap.
  - destruct (route_spec w e n log) as (out & n' & -> & _ & _ & Hsv); [apply Ha; set_solver|by rewrite Hn|done|].
    exists out. split; [done|]. intros r Hin. apply Hsv. rewrite Hn. by apply Hro.
Qed.

Definition mail (w : Z) : Route := MkRoute "outage" "mail" "ops@example" 2 w None.
Definition outage (id : string) (t : Z) : event := MkEvent id "outage" 3 (DT t true).
Definition sample_ops : list (Route + event) := [inl (mail 60); inr (outage "e1" 0); inr (outage "e2" 30); inr (outage "e3" 70)].

Lemma notifications_spaced_witness :
  map (λ p : event * notification, event_id p.1) (router_run sample_ops).2 = ["e1"; "e3"] ∧
  (let '(n, log) := router_run sample_ops in
   ∃ out, (route (outage "e4" 80) n).2 = Ok out ∧ ∀ r, inl r ∈ sample_ops → applies (outage "e4" 80) r = true →
     note_of (outage "e4" 80) r ∈ out ∨ ∃ p, p ∈ log ++ map (pair (outage "e4" 80)) out ∧
       entry_key p = ("outage", destination r) ∧ 80 - us (event_now p.1) < suppress_for r).
Proof.
  split; [vm_compute; reflexivity|].
  refine (proj2 (notifications_spaced 60 sample_ops (outage "e4" 80) _ _ _)).
  - unfold sample_ops. intros r Hr. repeat (apply elem_of_cons in Hr as [Hr|Hr]; [simplify_eq; cbn; lia|]). set_solver.
  - unfold sample_ops. intros f Hf. cbn in Hf. repeat (apply elem_of_cons in Hf as [Hf|Hf]; [by simplify_eq|]). set_solver.
  - unfold in_order. cbn. repeat constructor; cbn; lia.
Defined.

(** ** Backups and snapshots *)

Record Backup := MkBackup { created_at : datetime; backup_of : pyval; sha256 : string }.
Record SnapshotEnvelope := MkEnvelope { schema_version : string; env_state : pyval; env_sha256 : string }.

Section backup.
(** [json.dumps] with sorted keys (with [default=str] in [dumps_str]), [json.loads], and SHA-256 of the text *)
Context (dumps dumps_str : pyval → result string) (loads : string → result pyval) (sha : string → string).

Definition backup_state (state : pyval) (now : datetime) : result Backup :=
  payload ← dumps state; v ← loads payload; Ok (MkBackup now v (sha payload)).
Definition verify_backup (b : Backup) : result bool :=
  payload ← dumps (backup_of b); Ok (bool_decide (sha payload = sha256 b)).

Definition create_snapshot (state : pyval) : result SnapshotEnvelope :=
  text ← dumps_str state; normalized ← loads text; payload ← dumps normalized; Ok (MkEnvelope "1.0" normalized (sha payload)).
Definition verify_snapshot (s : SnapshotEnvelope) : result bool :=
  payload ← dumps (env_state s); Ok (bool_decide (schema_version s = "1.0") && bool_decide (sha payload = env_sha256 s)).

(** What is written can be read back, and is written the same again. *)
Hypothesis json_roundtrip : ∀ v text, dumps v = Ok text → ∃ v', loads text = Ok v' ∧ dumps v' = Ok text.
Hypothesis sha_collision_free : ∀ a b, sha a = sha b → a = b.

Lemma verified_backup b : verify_backup b = Ok true ↔ ∃ payload, dumps (backup_of b) = Ok payload ∧ sha payload = sha256 b.
Proof.
  unfold verify_backup, mbind, result_bind. destruct (dumps _) as [t|]; [|naive_solver].
  split; [intros [= H]; bprop; by exists t|intros (p & [= <-] & H); by rewrite bool_decide_true].
Qed.

(** A backup of a state that can be written verifies, and a backup that verifies under the digest of the original holds
    the same document, to the letter of its JSON text: no change of the stored state goes unnoticed. *)
Theorem backup_verifies (state state' : pyval) (now : datetime) (text : string) (Hd : dumps state = Ok text) :
  ∃ b, backup_state state now = Ok b ∧ verify_backup b = Ok true ∧ dumps (backup_of b) = Ok text ∧
    (verify_backup (MkBackup now state' (sha256 b)) = Ok true ↔ dumps state' = Ok text).
Proof using json_roundtrip sha_collision_free.
  destruct (json_roundtrip _ _ Hd) as (v & Hl & Hv). exists (MkBackup now v (sha text)).
  unfold backup_state, mbind, result_bind. rewrite Hd, Hl, !verified_backup. cbn. split_and!; [done|by exists text|done|].
  split; [intros (p & Hp & <-%sha_collision_free); done|intros ?; by exists text].
Qed.

Lemma snapshot_verifies (state : pyval) (s : SnapshotEnvelope) : create_snapshot state = Ok s → verify_snapshot s = Ok true.
Proof using Type.
  unfold create_snapshot, verify_snapshot, mbind, result_bind. intros H.
  repeat (case_match; simplify_eq/=); by rewrite !bool_decide_true.
Qed.
End backup.

(** ** Reconciliation of a restored state *)

Record Reconciliation := MkReconciliation {
  missing_external : list string; unexpected_external : list string; mismatched : list string; safe : bool
}.

Definition mismatches (planned actual : config) (k : string) : bool :=
  match planned !! k, actual !! k with Some v, Some w => negb (py_eq v w) | _, _ => false end.

Definition reconcile_restore (planned actual : config) : Reconciliation :=
  let missing := py_sorted String.compare (elements (dom planned ∖ dom actual)) in
  let unexpected := py_sorted String.compare (elements (dom actual ∖ dom planned)) in
  let differ := py_sorted String.compare (base.filter (λ k, mismatches planned actual k = true) (elements (dom planned ∩ dom actual))) in
  MkReconciliation missing unexpected differ (bool_decide (missing = []) && bool_decide (differ = [])).

(** Reconciliation after a restore: it is safe exactly when every planned resource exists with the planned value;
    otherwise the resources that do not, and only they, are reported, each once and in order, the absent ones apart
    from those that differ; resources nobody planned are reported without making the restore unsafe. *)
Theorem reconcile_restore_exact (planned actual : config) :
  let r := reconcile_restore planned actual in
  (safe r = true ↔ ∀ k v, planned !! k = Some v → ∃ w, actual !! k = Some w ∧ py_eq v w = true) ∧
  (∀ k, k ∈ missing_external r ↔ is_Some (planned !! k) ∧ actual !! k = None) ∧
  (∀ k, k ∈ unexpected_external r ↔ is_Some (actual !! k) ∧ planned !! k = None) ∧
  (∀ k, k ∈ mismatched r ↔ ∃ v w, planned !! k = Some v ∧ actual !! k = Some w ∧ py_eq v w = false) ∧
  Forall (λ l, NoDup l ∧ StronglySorted (key_le String.compare) l) [missing_external r; unexpected_external r; mismatched r].
Proof.
  intros r.
  assert (∀ k, k ∈ missing_external r ↔ is_Some (planned !! k) ∧ actual !! k = None) as Hmiss.
  { intros k. cbn. rewrite elem_of_py_sorted, elem_of_elements, elem_of_difference, elem_of_dom, not_elem_of_dom. done. }
  assert (∀ k, k ∈ mismatched r ↔ ∃ v w, planned !! k = Some v ∧ actual !! k = Some w ∧ py_eq v w = false) as Hdiff.
  { intros k. cbn. rewrite elem_of_py_sorted, list_elem_of_filter, elem_of_elements, elem_of_intersection, !elem_of_dom.
    unfold mismatches, is_Some. destruct (planned !! k), (actual !! k); rewrite ?negb_true_iff; naive_solver. }
  split_and!; [|done| |done|].
  - unfold safe. cbn. rewrite andb_true_iff, !bool_decide_eq_true. change (missing_external r = [] ∧ mismatched r = [] ↔
      ∀ k v, planned !! k = Some v → ∃ w, actual !! k = Some w ∧ py_eq v w = true). split.
    + intros [Hm Hd] k v Hk. destruct (actual !! k) as [w|] eqn:Ew.
      * exists w. split; [done|]. apply not_false_iff_true. intros Hne. assert (k ∈ mismatched r) by (apply Hdiff; eauto).
        rewrite Hd in *. set_solver.
      * assert (k ∈ missing_external r) by (apply Hmiss; eauto). rewrite Hm in *. set_solver.
    + intros H. split; apply elem_of_nil_inv; intros k Hk.
      * apply Hmiss in Hk as [[v Hv] Hn]. destruct (H k v Hv) as (w & ? & _). congruence.
      * apply Hdiff in Hk as (v & w & Hv & Hw & Hne). destruct (H k v Hv) as (w' & ? & ?). congruence.
  - intros k. cbn. rewrite elem_of_py_sorted, elem_of_elements, elem_of_difference, elem_of_dom, not_elem_of_dom. done.
  - repeat constructor; cbn; try apply py_sorted_sorted; try apply _; rewrite py_sorted_perm;
      try apply NoDup_filter; apply NoDup_elements.
Qed.
