(* ===== verification/Sites.v ===== *)
(** * Sites, regions and migrations

    [packages/multisite/model.py], [packages/multisite/optimizer.py], [packages/sovereignty/service.py] and
    [packages/region_packs/base.py]. *)
From Stdlib Require Import QArith Lqa.
From S2P Require Import Prelude PyDecimal PyText Domain Workloads Tariffs.
Local Open Scope Z_scope.

Record Site := MkSite {
  site_id : string; region : string; available_gpus : Z; grid_limit_kw : dec; energy_price : dec; carbon_intensity : dec;
  site_online : bool
}.
Record SiteLink := MkSiteLink {
  link_source : string; link_destination : string; bandwidth_gbps : dec; latency_ms : dec; transfer_cost_per_gb : dec;
  link_online : bool
}.
Record MigrationDecision := MkMigration {
  allowed : bool; mig_source : string; mig_destination : string; transfer_hours : option dec; compute_savings : dec;
  transfer_cost : dec; net_savings : dec; reasons : list string; approval_required : bool
}.

(** [if condition: reasons.append(reason)] *)
Definition reason_if (b : bool) (reason : string) : list string := if b then [reason] else [].

Definition transfer_time (link : SiteLink) (size_gb : dec) : result (option dec) :=
  if dltb (dint 0) (bandwidth_gbps link)
  then h ← ddiv (dmul size_gb (dint 8)) (dmul (bandwidth_gbps link) (dint 3600)); Ok (Some h)
  else Ok None.

Definition migration_reasons (j : Job) (source destination : Site) (link : SiteLink) (hours : option dec) (remaining_hours net : dec)
    : list string :=
  reason_if (negb (site_online source) || negb (site_online destination) || negb (link_online link)) "SITE_OR_LINK_UNAVAILABLE" ++
  reason_if (negb (bool_decide (site_id destination ∈ allowed_sites j))) "SOVEREIGNTY" ++
  reason_if (available_gpus destination <? gpu_count (request j)) "GPU_CAPACITY" ++
  reason_if (negb (bool_decide (link_source link = site_id source)) || negb (bool_decide (link_destination link = site_id destination)))
    "LINK_DIRECTION" ++
  reason_if (match hours with None => true | Some h => dleb remaining_hours h end) "TRANSFER_TIME" ++
  reason_if (dleb net (dint 0)) "NO_NET_SAVINGS".

Definition evaluate_migration (j : Job) (source destination : Site) (link : SiteLink) (checkpoint_size_gb remaining_hours : dec)
    : result MigrationDecision :=
  hours ← transfer_time link checkpoint_size_gb;
  let compute_kwh := dmul (dmul (power_kw_per_gpu (request j)) (dint (gpu_count (request j)))) remaining_hours in
  let savings := dmul compute_kwh (dsub (energy_price source) (energy_price destination)) in
  let cost := dmul checkpoint_size_gb (transfer_cost_per_gb link) in
  let net := dsub savings cost in
  let rs := migration_reasons j source destination link hours remaining_hours net in
  Ok (MkMigration (bool_decide (rs = [])) (site_id source) (site_id destination) hours savings cost net rs true).

Record ResidencyPolicy := MkResidency { data_class : string; allowed_regions : gset string; export_controlled : bool }.

Definition enforce_residency (p : ResidencyPolicy) (source_region destination_region : string) : result unit :=
  raise_if (negb (bool_decide (destination_region ∈ allowed_regions p))) (PermissionError "data residency violation");;
  raise_if (export_controlled p && negb (bool_decide (source_region = destination_region)))
    (PermissionError "export-controlled data cannot cross regions").

Section region.
(** The tz database, as [Tariffs.calculate] takes it *)
Context (utc_offset : string → Z → result Z).

(** [StandardRegionPack] *)
Definition region_validate (t : TariffPlan) : result unit :=
  raise_if (dltb (dint 1) (tax_rate t)) (ValueError "tax rate cannot exceed 100%").
Definition region_normalize (t : TariffPlan) : result TariffPlan := region_validate t;; Ok t.
Definition region_calculate (t : TariffPlan) (intervals : list MeterInterval) : result CostBreakdown :=
  region_validate t;; calculate utc_offset t intervals (dint 0) (dint 0) (dint 0).
Definition money_text (name : string) (m : Money) : string := name +:+ "=" +:+ dec_str (amount m) +:+ " " +:+ currency m.
Definition region_explain (c : CostBreakdown) : list string :=
  [money_text "energy" (cost_energy c); money_text "demand" (cost_demand c); money_text "total" (cost_total c)].
End region.

(** ** Migration decisions *)

Lemma reason_if_nil b s : reason_if b s = [] ↔ b = false.
Proof. by destruct b. Qed.

Lemma transfer_time_total link size : ∃ h, transfer_time link size = Ok h ∧
  (h = None ↔ (dval (bandwidth_gbps link) <= 0)%Q).
Proof.
  unfold transfer_time. destruct (dltb _ _) eqn:Eb.
  - apply dltb_true in Eb. rewrite dval_dint in Eb. change (inject_Z 0) with 0%Q in Eb.
    assert (0 < dval (dmul (bandwidth_gbps link) (dint 3600)))%Q as Hp.
    { unfold dmul. destruct (dmul_spec 28 (bandwidth_gbps link) (dint 3600)) as (s & -> & Hs). apply dfix_pos; [lia|].
      rewrite Hs, dval_dint. apply Qmult_lt_0_compat; [done|reflexivity]. }
    destruct (ddiv_ok 28 (dmul size (dint 8)) (dmul (bandwidth_gbps link) (dint 3600))) as [q Hq].
    { intros Hz%dval_zero_iff. rewrite Hz in Hp. done. }
    exists (Some q). unfold ddiv. rewrite Hq. cbn. split; [done|]. split; [done|]. intros Hle. exfalso. lra.
  - apply dltb_false in Eb. rewrite dval_dint in Eb. by exists None.
Qed.

Lemma dmul_nonpos_r a b : (0 <= dval a → dval b <= 0 → dval (dmul a b) <= 0)%Q.
Proof.
  intros Ha Hb. unfold dmul. destruct (dmul_spec 28 a b) as (s & -> & Hs). apply dfix_le_fits; [lia|by apply fits_0|].
  rewrite Hs. nra.
Qed.

(** When a migration is worth it: what [evaluate_migration] tests, with the transfer time and the net savings it computed *)
Record migration_ok (j : Job) (source destination : Site) (link : SiteLink) (hours : option dec) (remaining net : dec) : Prop := {
  mo_online : site_online source = true ∧ site_online destination = true ∧ link_online link = true;
  mo_sovereign : site_id destination ∈ allowed_sites j;
  mo_capacity : gpu_count (request j) <= available_gpus destination;
  mo_link : link_source link = site_id source ∧ link_destination link = site_id destination;
  mo_time : ∃ h, hours = Some h ∧ (dval h < dval remaining)%Q;
  mo_saves : (0 < dval net)%Q
}.

Lemma no_reasons j source destination link hours remaining net :
  migration_reasons j source destination link hours remaining net = [] ↔ migration_ok j source destination link hours remaining net.
Proof.
  unfold migration_reasons. rewrite !app_nil, !reason_if_nil. split.
  - intros (H1 & H2 & H3 & H4 & H5 & H6). bprop. apply dleb_false in H6. rewrite dval_dint in H6. split; [done|done|done|done| |done].
    destruct hours as [h|]; [|done]. exists h. split; [done|by apply dleb_false].
  - intros [(Ho1 & Ho2 & Ho3) H2 H3 [Hl1 Hl2] (h' & -> & H5) H6]. rewrite Ho1, Ho2, Ho3, !bool_decide_true by done.
    split_and!; try done; [by apply Z.ltb_ge|by apply dleb_false|]. apply dleb_false. by rewrite dval_dint.
Qed.

Lemma dsub_pos a b : (0 < dval (dsub a b) → dval b < dval a)%Q.
Proof. intros Hab. apply Qnot_le_lt. intros Hle%dsub_nonpos. lra. Qed.

(** Positive net savings come from a price difference. *)
Lemma savings_from_prices kwh cost p q : (0 <= dval kwh → 0 <= dval cost → 0 < dval (dsub (dmul kwh (dsub p q)) cost) → dval q < dval p)%Q.
Proof.
  intros Hk Hc Hnet%dsub_pos. apply Qnot_le_lt. intros Hle%dsub_nonpos. pose proof (dmul_nonpos_r _ _ Hk Hle). lra.
Qed.

(** A migration is always decided; it is allowed exactly when source, destination and link are online, the
    destination is an allowed site with enough GPUs, the link leads from the one to the other, the checkpoint arrives
    before the remaining time is over and the net savings are positive.  Then the transfer costs less than the energy
    it saves, so energy is cheaper at the destination; a refusal names at least one reason; and approval is required. *)
Theorem migration_exact (j : Job) (source destination : Site) (link : SiteLink) (size remaining : dec)
    (Hsize : (0 <= dval size)%Q) (Hprice : (0 <= dval (transfer_cost_per_gb link))%Q) (Hgpus : 0 <= gpu_count (request j))
    (Hpower : (0 <= dval (power_kw_per_gpu (request j)))%Q) (Hrem : (0 <= dval remaining)%Q) :
  ∃ d, evaluate_migration j source destination link size remaining = Ok d ∧
    (allowed d = true ↔ migration_ok j source destination link (transfer_hours d) remaining (net_savings d)) ∧
    (allowed d = true → (dval (transfer_cost d) < dval (compute_savings d))%Q ∧
       (dval (energy_price destination) < dval (energy_price source))%Q) ∧
    (allowed d = false ↔ reasons d ≠ []) ∧ approval_required d = true.
Proof.
  unfold evaluate_migration, mbind, result_bind. destruct (transfer_time_total link size) as (h & -> & _). eexists.
  split; [reflexivity|]. cbn [allowed reasons approval_required transfer_hours net_savings transfer_cost compute_savings].
  rewrite bool_decide_eq_true, bool_decide_eq_false, no_reasons. split_and!; [done| |done|done].
  intros [_ _ _ _ _ Hnet]. split; [by apply dsub_pos|]. eapply savings_from_prices; [| |exact Hnet].
  - apply dmul_nonneg; [lia| |done]. apply dmul_nonneg; [lia|done|]. rewrite dval_dint. rewrite <-Zle_Qle with (x:=0). done.
  - by apply dmul_nonneg.
Qed.

Definition sample_job : Job :=
  MkJob "j1" "t1" "p1" TRAINING (MkResourceRequest 4 None 8 (dint 64) (dint 10) (Dec 5 (-1))) (MkSla (DT 0 true) 50 None None)
    (DT 0 true) {["s1"; "s2"]} ∅ [] true [].
Definition sample_site (id : string) (price : Z) : Site := MkSite id "eu" 8 (dint 100) (Dec price (-2)) (dint 0) true.
Definition sample_link : SiteLink := MkSiteLink "s1" "s2" (dint 10) (dint 5) (Dec 1 (-2)) true.

Lemma migration_exact_witness :
  map allowed (omap (λ r, match r with Ok d => Some d | Err _ => None end)
    [evaluate_migration sample_job (sample_site "s1" 30) (sample_site "s2" 10) sample_link (dint 100) (dint 8);
     evaluate_migration sample_job (sample_site "s1" 10) (sample_site "s2" 30) sample_link (dint 100) (dint 8)]) = [true; false] ∧
  ∃ d, evaluate_migration sample_job (sample_site "s1" 30) (sample_site "s2" 10) sample_link (dint 100) (dint 8) = Ok d ∧
    (allowed d = true ↔ migration_ok sample_job (sample_site "s1" 30) (sample_site "s2" 10) sample_link (transfer_hours d) (dint 8) (net_savings d)).
Proof.
  split; [vm_compute; reflexivity|].
  destruct (migration_exact sample_job (sample_site "s1" 30) (sample_site "s2" 10) sample_link (dint 100) (dint 8)) as (d & Hd & Hiff & _);
    [vm_compute; discriminate|vm_compute; discriminate|cbn; lia|vm_compute; discriminate|vm_compute; discriminate|].
  by exists d.
Defined.

(** ** Data residency *)

Lemma residency_exact p s d : enforce_residency p s d = Ok tt ↔
  d ∈ allowed_regions p ∧ (export_controlled p = true → s = d).
Proof.
  unfold enforce_residency, mbind, result_bind, raise_if. case_bool_decide; cbn; [|naive_solver].
  destruct (export_controlled p); cbn; [|naive_solver]. case_bool_decide; naive_solver.
Qed.

(** Data under export control never leaves its region, through any number of permitted transfers. *)
Lemma export_control_holds p l s : export_controlled p = true →
  foldM_result (λ from to_, enforce_residency p from to_;; Ok to_) l s = Ok (List.last l s) → Forall (s =.) l.
Proof.
  intros Hx. revert s. induction l as [|d l IH]; intros s; [constructor|]. cbn.
  destruct (enforce_residency p s d) as [[]|] eqn:E; cbn; [|done]. apply residency_exact in E as [_ E]. specialize (E Hx) as ->.
  intros H. constructor; [done|]. apply IH. rewrite H. f_equal. by destruct l.
Qed.

(** A region pack calculates what the calculator does, for the tariffs it accepts: a normalised tariff is unchanged. *)
Lemma region_pack_spec utc_offset t intervals :
  match region_normalize t with
  | Ok t' => t' = t ∧ (dval (tax_rate t) <= 1)%Q ∧ region_calculate utc_offset t intervals = calculate utc_offset t intervals (dint 0) (dint 0) (dint 0)
  | Err e => e = ValueError "tax rate cannot exceed 100%" ∧ region_calculate utc_offset t intervals = Err e
  end.
Proof.
  unfold region_normalize, region_calculate, region_validate, raise_if. destruct (dltb _ _) eqn:E; [done|].
  apply dltb_false in E. rewrite dval_dint in E. done.
Qed.

(** The reason SOVEREIGNTY looks at the allowed sites only: a job whose data must stay in the region eu may move to a
    site of the region us. *)
Theorem migration_ignores_regions :
  let j := MkJob "j1" "t1" "p1" TRAINING (MkResourceRequest 4 None 8 (dint 64) (dint 10) (Dec 5 (-1))) (MkSla (DT 0 true) 50 None None)
    (DT 0 true) {["s1"; "s2"]} {["eu"]} [] true [] in
  let dest := MkSite "s2" "us" 8 (dint 100) (Dec 10 (-2)) (dint 0) true in
  ¬ (region dest ∈ data_regions j) ∧
  is_ok (enforce_residency (MkResidency "private" (data_regions j) true) "eu" (region dest)) = false ∧
  ∃ d, evaluate_migration j (sample_site "s1" 30) dest sample_link (dint 100) (dint 8) = Ok d ∧ allowed d = true.
Proof.
  split_and!; [by apply (bool_decide_unpack _)|vm_compute; reflexivity|].
  eexists. split; [vm_compute; reflexivity|reflexivity].
Qed.
