(* ===== verification/Insight.v ===== *)
(** * What-if studies and counterfactuals

    [packages/whatif/service.py] and [packages/explain/counterfactual.py] rerun the optimizer on a changed request. *)
From Stdlib Require Import QArith Lqa.
From S2P Require Import Prelude PyDecimal PyValue PyText Domain Workloads Scheduling Optimizer.
Local Open Scope Z_scope.

(** ** What-if studies and counterfactuals *)

Definition with_slots (r : ScheduleInput) (ss : list TimeSlot) : ScheduleInput :=
  MkScheduleInput (jobs r) ss (topology_version r) (forecast_version r) (baseline_name r).

Record WhatIfResult := MkWhatIf { isolated : bool; changed_parameters : list (string * string); what_if_result : OptimizationResult }.
Record Counterfactual := MkCounterfactual {
  cf_parameter : string; cf_original : dec; cf_changed : dec; objective_delta : option dec; cf_result : OptimizationResult
}.

Section studies.
Context (content_hash : ScheduleInput → string).

(** [int(Decimal(slot.gpu_capacity) * multiplier)], [slot.power_capacity_kw * multiplier] *)
Definition scale_capacity (m : dec) (s : TimeSlot) : TimeSlot :=
  MkTimeSlot (index s) (starts_at s) (duration_hours s) (dtrunc (dmul (dint (gpu_capacity s)) m)) (dmul (power_capacity_kw s) m)
    (price_per_kwh s) (carbon_kg_per_kwh s).
Definition capacity_scenario (m : dec) (r : ScheduleInput) : ScheduleInput := with_slots r (map (scale_capacity m) (slots r)).

Definition run_what_if (expired : nat → bool) (r : ScheduleInput) (m : dec) : result WhatIfResult :=
  raise_if (dleb m (dint 0)) (ValueError "capacity multiplier must be positive");;
  o ← optimize expired content_hash (capacity_scenario m r);
  Ok (MkWhatIf true [("capacity_multiplier", dec_str m)] o).

Definition scale_price (m : dec) (s : TimeSlot) : TimeSlot :=
  MkTimeSlot (index s) (starts_at s) (duration_hours s) (gpu_capacity s) (power_capacity_kw s) (dmul (price_per_kwh s) m) (carbon_kg_per_kwh s).
Definition price_scenario (m : dec) (r : ScheduleInput) : ScheduleInput := with_slots r (map (scale_price m) (slots r)).

(** The two runs have a clock each. *)
Definition change_slot_prices (expired expired' : nat → bool) (r : ScheduleInput) (m : dec) : result Counterfactual :=
  raise_if (dleb m (dint 0)) (ValueError "price multiplier must be positive");;
  original ← optimize expired content_hash r;
  changed ← optimize expired' content_hash (price_scenario m r);
  let delta := match opt_plan original, opt_plan changed with
               | Some p, Some q => Some (dsub (estimated_cost q) (estimated_cost p))
               | _, _ => None end in
  Ok (MkCounterfactual "price_multiplier" (dint 1) m delta changed).
End studies.

(** ** Requests whose slots offer less, or cost more *)

(** [s'] offers no more than [s], for the same time *)
Record tightens (s' s : TimeSlot) : Prop := {
  ti_index : index s' = index s;
  ti_start : starts_at s' = starts_at s;
  ti_duration : duration_hours s' = duration_hours s;
  ti_gpus : gpu_capacity s' <= gpu_capacity s;
  ti_power : (dval (power_capacity_kw s') <= dval (power_capacity_kw s))%Q
}.

Section tighter.
Context (r : ScheduleInput) (f : TimeSlot → TimeSlot) (Hf : ∀ s, s ∈ slots r → tightens (f s) s).
#[local] Abbreviation r' := (with_slots r (map f (slots r))).

Lemma eligible_tighter j s : s ∈ slots r → eligible j (f s) = true → eligible j s = true.
Proof using Hf.
  intros Hs. destruct (Hf s Hs) as [_ Hst _ Hg Hp]. unfold eligible, before_deadline. rewrite Hst, !andb_true_iff, !Z.leb_le, !dleb_true.
  intros [[? ?] ?]. split_and!; [done|lia|lra].
Qed.

Lemma slot_of n s : slots r' !! n = Some s → ∃ s0, slots r !! n = Some s0 ∧ s0 ∈ slots r ∧ s = f s0.
Proof using Type.
  cbn. rewrite list_lookup_fmap. intros (s0 & Hs & ->)%fmap_Some. exists s0. split_and!; [done|by eapply list_elem_of_lookup_2|done].
Qed.

Lemma placement_tighter j c : placement r' j c → placement r j c.
Proof using Hf.
  intros [Hsort Hs Hlen Hrun]. split; [done| | |done].
  - eapply Forall_impl; [exact Hs|]. intros i (n & s & -> & (s0 & Hn & Hin & ->)%slot_of & He). exists n, s0. split_and!; [done..|].
    by apply eligible_tighter.
  - destruct Hlen as (first & rest & Hsl & Hk). cbn in Hsl. destruct (slots r) as [|s0 ss] eqn:Es; [done|].
    injection Hsl as <- _. exists s0, ss. split; [done|]. rewrite <-Hk. f_equal. symmetry. apply Hf. set_solver.
Qed.

Lemma feasible_tighter choices : feasible r' choices → feasible r choices.
Proof using Hf.
  intros [Hp Hc]. split; [eapply Forall2_impl; [exact Hp|]; apply placement_tighter|].
  intros n s Hn. etrans; [apply (Hc n (f s)); cbn; by rewrite list_lookup_fmap, Hn|].
  apply Hf. by eapply list_elem_of_lookup_2.
Qed.
End tighter.

Lemma dtrunc_bounds a n : (0 <= dval a → dval a <= inject_Z n → (0 <= dtrunc a <= n)%Z)%Q.
Proof.
  intros H0 Hn. apply dval_sign in H0. apply dceil_spec in Hn. unfold dceil, dtrunc in *. destruct (0 <=? dexp a) eqn:E; bprop.
  - split; [|done]. unfold align. apply Z.mul_nonneg_nonneg; [done|]. apply Z.pow_nonneg. lia.
  - assert (0 < 10 ^ (- dexp a)) by (apply pow10_pos; lia).
    split; [by apply Z.quot_pos|]. etrans; [|exact Hn]. rewrite Z.quot_div_nonneg by lia.
    pose proof (Z.div_opp_l_z (coef a) (10 ^ (- dexp a)) ltac:(lia)). pose proof (Z.div_opp_l_nz (coef a) (10 ^ (- dexp a)) ltac:(lia)).
    destruct (decide (coef a mod 10 ^ (- dexp a) = 0)); lia.
Qed.

Lemma dmul_shrinks a m : fits 28 (dval a) → (0 <= dval a → 0 <= dval m → dval m <= 1 → dval (dmul a m) <= dval a)%Q.
Proof.
  intros Hfit Ha Hm0 Hm. unfold dmul. destruct (dmul_spec 28 a m) as (s & -> & Hs). apply dfix_le_fits; [lia|done|]. rewrite Hs. nra.
Qed.

Lemma dmul_grows a m : fits 28 (dval a) → (0 <= dval a → 1 <= dval m → dval a <= dval (dmul a m))%Q.
Proof.
  intros Hfit Ha Hm. unfold dmul. destruct (dmul_spec 28 a m) as (s & -> & Hs). apply dfix_ge_fits; [lia|done|]. rewrite Hs. nra.
Qed.

(** Capacities and prices of at most 28 digits, and powers that are not negative: products with them round monotonically. *)
Record in_context (r : ScheduleInput) : Prop := {
  ic_gpus : Forall (λ s, gpu_capacity s < 10 ^ 28) (slots r);
  ic_power : Forall (λ s, fits 28 (dval (power_capacity_kw s)) ∧ (0 <= dval (power_capacity_kw s))%Q) (slots r);
  ic_price : Forall (λ s, fits 28 (dval (price_per_kwh s))) (slots r)
}.

(** A change of the slots that keeps their number, times and durations *)
Lemma with_slots_wf r f : well_formed r → (∀ s, s ∈ slots r → index (f s) = index s ∧ duration_hours (f s) = duration_hours s ∧ 0 <= gpu_capacity (f s)) →
  well_formed (with_slots r (map f (slots r))).
Proof.
  intros [Hi Hc Hd Hj Hg] Hf. split; [|apply Forall_map, Forall_forall; intros s Hs; cbn; by apply Hf| |done|done].
  - intros n s (s0 & Hn & Hin & ->)%slot_of. rewrite (proj1 (Hf s0 Hin)). by apply Hi.
  - apply Forall_map, Forall_forall. intros s Hs. cbn. destruct (Hf s Hs) as (_ & -> & _). rewrite Forall_forall in Hd. by apply Hd.
Qed.

Lemma scenario_nonneg c m : 0 <= c → (0 < dval m)%Q → 0 <= dtrunc (dmul (dint c) m).
Proof.
  intros Hc Hm. assert (0 <= dval (dmul (dint c) m))%Q as H.
  { apply dmul_nonneg; [lia| |lra]. rewrite dval_dint. rewrite <-Zle_Qle with (x:=0). done. }
  pose proof (dtrunc_bounds _ (dceil (dmul (dint c) m)) H) as Hb. apply Hb. by apply dceil_spec.
Qed.

Lemma scale_capacity_tightens m r s : (0 < dval m)%Q → (dval m <= 1)%Q → in_context r → 0 <= gpu_capacity s → s ∈ slots r → tightens (scale_capacity m s) s.
Proof.
  intros H0 Hm [Hg Hp _] Hc Hs. rewrite !Forall_forall in *. specialize (Hg s Hs). destruct (Hp s Hs) as [Hfit Hpow].
  split; cbn; [done..| |apply dmul_shrinks; [done|done|lra|done]].
  assert (0 <= dval (dint (gpu_capacity s)))%Q as Hc' by (rewrite dval_dint, <-Zle_Qle with (x:=0); done).
  apply dtrunc_bounds; [apply dmul_nonneg; [lia|done|lra]|]. rewrite <-dval_dint. apply dmul_shrinks; [|done|lra|done].
  apply fits_dec. cbn. lia.
Qed.

(** A capacity study: on a well-formed request with non-negative prices, powers and runtimes, and a positive
    multiplier, it always returns, and its result is right for the request with every slot's GPUs and power scaled: a
    plan is feasible there, with status optimal none is cheaper, infeasible means that no assignment exists.  With less
    capacity nothing becomes possible: a plan of a study with a multiplier of at most 1 is a valid plan of the original
    request, and where the original has no feasible assignment the study returns no plan. *)
Theorem what_if_correct (expired : nat → bool) (hash : ScheduleInput → string) (r : ScheduleInput) (m : dec)
    (Hwf : well_formed r) (Hp : priceable r) (Hm : (0 < dval m)%Q) :
  ∃ o, run_what_if hash expired r m = Ok (MkWhatIf true [("capacity_multiplier", dec_str m)] o) ∧
    result_ok (capacity_scenario m r) o ∧
    ((dval m <= 1)%Q → in_context r → ∀ p, opt_plan o = Some p →
       validate_plan r p = Ok tt ∧ ∃ choices, feasible r choices ∧ allocations p = allocations_of r choices).
Proof.
  assert (well_formed (capacity_scenario m r)) as Hwf'.
  { apply with_slots_wf; [done|]. intros s Hs. cbn. split_and!; [done..|]. apply scenario_nonneg; [|done].
    pose proof (wf_capacity r Hwf) as Hc. rewrite Forall_forall in Hc. by apply Hc. }
  assert (priceable (capacity_scenario m r)) as Hp'.
  { destruct Hp as [Hs Hj]. split; [|done]. apply Forall_map. eapply Forall_impl; [exact Hs|]. done. }
  destruct (optimize_result expired hash _ Hwf' Hp') as (o & Ho & Hr & _). exists o.
  unfold run_what_if, raise_if, mbind, result_bind. rewrite (proj2 (dleb_false m (dint 0))) by by rewrite dval_dint.
  cbv iota. rewrite Ho. split_and!; [done|done|]. intros Hle Hc p Hpl. unfold result_ok in Hr. rewrite Hpl in Hr.
  destruct Hr as (choices & Hfe & Hal & _). apply feasible_tighter in Hfe as Hfe'.
  2:{ intros s Hs. eapply scale_capacity_tightens; [done..| |done]. pose proof (wf_capacity r Hwf) as Hcap. rewrite Forall_forall in Hcap. by apply Hcap. }
  split; [by apply (feasible_validates r choices)|by exists choices].
Qed.

(** ** Prices *)

(** [s'] is the same slot at a price that is no lower *)
Definition dearer (s s' : TimeSlot) : Prop :=
  duration_hours s' = duration_hours s ∧ (dval (price_per_kwh s) <= dval (price_per_kwh s'))%Q.

Lemma dsum_mono l l' : Forall2 (λ a b, dval a <= dval b)%Q l l' → ∀ a b, (dval a <= dval b)%Q →
  (dval (foldl dadd a l) <= dval (foldl dadd b l'))%Q.
Proof.
  induction 1 as [|x y l l' Hxy Hl IH]; intros a b Hab; [done|]. cbn. apply IH. apply dadd_mono; [lia|done|done].
Qed.

Lemma slot_cost_mono r j n s s' : priceable r → 0 <= gpu_count (request j) → j ∈ jobs r → slots r !! n = Some s → dearer s s' →
  (dval (slot_cost j s) <= dval (slot_cost j s'))%Q.
Proof.
  intros [Hs Hj] Hg Hin Hn [Hd Hpr]. rewrite !Forall_forall in *. destruct (Hj j Hin) as [Hp _].
  destruct (Hs s) as [Hdur Hpos]; [by eapply list_elem_of_lookup_2|].
  assert (0 <= dval (slot_energy j s))%Q as He.
  { unfold slot_energy. repeat apply dmul_nonneg; try done; try lia; apply dval_sign; cbn; lia. }
  unfold slot_cost. replace (slot_energy j s') with (slot_energy j s) by (unfold slot_energy; by rewrite Hd).
  apply dmul_mono; [lia|done|done|lra|done].
Qed.

Section prices.
Context (r : ScheduleInput) (f : TimeSlot → TimeSlot) (Hp : priceable r) (Hg : Forall (λ j, 0 <= gpu_count (request j)) (jobs r)).
Context (Hf : ∀ s, s ∈ slots r → dearer s (f s)).
#[local] Abbreviation r' := (with_slots r (map f (slots r))).

Lemma choice_cost_mono j c : j ∈ jobs r → placement r j c →
  ∃ x y, choice_cost r j c = Ok x ∧ choice_cost r' j c = Ok y ∧ (dval x <= dval y)%Q.
Proof using All.
  intros Hj [_ Hsl _ _]. rewrite Forall_forall in Hg. unfold choice_cost.
  assert (∃ l l', mapM_result (λ i, s ← slot_at r i; Ok (slot_cost j s)) c = Ok l ∧
    mapM_result (λ i, s ← slot_at r' i; Ok (slot_cost j s)) c = Ok l' ∧ Forall2 (λ a b, dval a <= dval b)%Q l l') as (l & l' & -> & -> & Hll).
  { induction Hsl as [|i c (n & s & -> & Hn & _) Hsl (l & l' & Hl & Hl' & Hf2)]; [by exists [], []|].
    exists (slot_cost j s :: l), (slot_cost j (f s) :: l'). cbn [mapM_result]. rewrite !slot_at_nat. cbn [slots with_slots].
    rewrite list_lookup_fmap, Hn. cbn. unfold mbind, result_bind in *. rewrite Hl, Hl'. split_and!; [done..|]. constructor; [|done].
    eapply slot_cost_mono; [done|by apply Hg|done|done|]. apply Hf. by eapply list_elem_of_lookup_2. }
  exists (dsum l), (dsum l'). split_and!; [done..|]. apply dsum_mono; [done|lra].
Qed.

Lemma total_cost_mono choices : Forall2 (placement r) (jobs r) choices → (dval (total_cost r choices) <= dval (total_cost r' choices))%Q.
Proof using All.
  intros Hpl. unfold total_cost. cbn [jobs with_slots]. apply dsum_mono; [|lra]. rewrite Forall2_fmap_l, Forall2_fmap_r.
  apply Forall_Forall2_diag. apply Forall_forall. intros [j c] Hin. unfold compose, cost_or_zero. cbn [fst snd].
  pose proof (proj1 (Forall_forall _ _) (Forall2_zip _ _ _ Hpl) _ Hin) as Hpc. cbn [fst snd] in Hpc.
  destruct (choice_cost_mono j c) as (x & y & -> & -> & Hxy); [by eapply elem_of_zip_l|done|done].
Qed.
End prices.

Lemma scale_price_same m r s : s ∈ slots r → tightens (scale_price m s) s ∧ tightens s (scale_price m s).
Proof. intros _. split; split; cbn; done || lra. Qed.

(** The counterfactual has the same feasible assignments. *)
Lemma price_scenario_feasible m r choices : feasible (price_scenario m r) choices ↔ feasible r choices.
Proof.
  split; [apply feasible_tighter; intros s Hs; by apply (scale_price_same m r)|]. intros [Hpl Hc]. split.
  - eapply Forall2_impl; [exact Hpl|]. intros j c [Hsort Hs (first & rest & Hsl & Hk) Hrun]. split; [done| | |done].
    + eapply Forall_impl; [exact Hs|]. intros i (n & s & -> & Hn & He). exists n, (scale_price m s). cbn.
      rewrite list_lookup_fmap, Hn. done.
    + cbn. rewrite Hsl. by exists (scale_price m first), (map (scale_price m) rest).
  - intros n s (s0 & Hn & _ & ->)%slot_of. by apply (Hc n s0).
Qed.

Lemma price_scenario_priceable m r : (0 <= dval m)%Q → priceable r → priceable (price_scenario m r).
Proof.
  intros Hm [Hs Hj]. split; [|done]. apply Forall_map. eapply Forall_impl; [exact Hs|]. intros s [? ?]. cbn. split; [done|].
  apply dmul_nonneg; [lia|done|done].
Qed.

(** The optimal cost of the dearer request is no lower. *)
Lemma optimum_mono r f o o' p p' : priceable r → Forall (λ j, 0 <= gpu_count (request j)) (jobs r) → (∀ s, s ∈ slots r → dearer s (f s)) →
  (∀ choices, feasible (with_slots r (map f (slots r))) choices → feasible r choices) →
  result_ok r o → result_ok (with_slots r (map f (slots r))) o' → opt_plan o = Some p → opt_plan o' = Some p' → opt_status o = "optimal" →
  (dval (estimated_cost p) <= dval (estimated_cost p'))%Q.
Proof.
  intros Hp Hg Hf Hfe Hr Hr' Ep Ep' Hs. unfold result_ok in *. rewrite Ep, Hs in Hr. rewrite Ep' in Hr'.
  destruct Hr as (c & _ & _ & _ & Hc & [|[_ Hopt]]); [done|]. destruct Hr' as (c' & Hc' & _ & _ & Hcost & _).
  rewrite Hc, Hcost. eapply Qle_trans; [by apply Hopt, Hfe|]. apply total_cost_mono; try done. apply Hfe, Hc'.
Qed.

(** A run that completes finds a plan exactly when there is one. *)
Lemma complete_result r o : opt_status o = "optimal" ∨ opt_status o = "infeasible" → result_ok r o →
  is_Some (opt_plan o) ↔ ∃ choices, feasible r choices.
Proof.
  unfold result_ok. intros Hdone. destruct (opt_plan o) as [p|].
  - intros (c & Hc & _). split; [by exists c|by eauto].
  - intros [Hs|[_ Hno]]; [destruct Hdone as [E|E]; by rewrite E in Hs|]. split; [by intros []|]. intros (c & Hc). by destruct (Hno c).
Qed.

(** A price counterfactual: on a well-formed request with non-negative prices, powers and runtimes, and a positive
    multiplier, it always returns, and its result is right for the request at the changed prices; the assignments that
    are possible do not depend on the prices.  If both runs complete, they find plans for the same requests, and with a
    multiplier of at least 1 the reported difference of the optimal costs is not negative (prices of at most 28 digits). *)
Theorem price_counterfactual_correct (expired expired' : nat → bool) (hash : ScheduleInput → string) (r : ScheduleInput) (m : dec)
    (Hwf : well_formed r) (Hp : priceable r) (Hm : (0 < dval m)%Q) :
  ∃ c, change_slot_prices hash expired expired' r m = Ok c ∧ result_ok (price_scenario m r) (cf_result c) ∧
    (∀ choices, feasible (price_scenario m r) choices ↔ feasible r choices) ∧
    ((∀ k, expired k = false) → (∀ k, expired' k = false) →
       (is_Some (objective_delta c) ↔ ∃ choices, feasible r choices) ∧
       ((1 <= dval m)%Q → in_context r → ∀ d, objective_delta c = Some d → (0 <= dval d)%Q)).
Proof.
  assert (well_formed (price_scenario m r)) as Hwf'.
  { apply with_slots_wf; [done|]. intros s Hs. cbn. split_and!; [done..|].
    pose proof (wf_capacity r Hwf) as Hc. rewrite Forall_forall in Hc. by apply Hc. }
  assert (priceable (price_scenario m r)) as Hp' by (apply price_scenario_priceable; [lra|done]).
  destruct (optimize_result expired hash r Hwf Hp) as (o & Ho & Hr & Hdone).
  destruct (optimize_result expired' hash _ Hwf' Hp') as (o' & Ho' & Hr' & Hdone').
  unfold change_slot_prices, raise_if, mbind, result_bind. rewrite (proj2 (dleb_false m (dint 0))) by by rewrite dval_dint.
  cbv iota. rewrite Ho, Ho'. eexists. split; [done|]. cbn [cf_result objective_delta]. split_and!; [done|apply price_scenario_feasible|].
  intros Hx Hx'. specialize (Hdone Hx). specialize (Hdone' Hx'). split.
  - apply complete_result in Hr, Hr'; try done. setoid_rewrite price_scenario_feasible in Hr'. rewrite <-Hr.
    destruct (opt_plan o), (opt_plan o'); rewrite !is_Some_alt in *; cbn in *; tauto.
  - intros Hm1 [_ _ Hpr] d. destruct (opt_plan o) as [p|] eqn:Ep; [|done]. destruct (opt_plan o') as [p'|] eqn:Ep'; [|done].
    intros [= <-]. apply dsub_nonneg; [lia|]. apply (optimum_mono r (scale_price m) o o'); try done; [apply Hwf| | |].
    + intros s Hs. split; [done|]. rewrite Forall_forall in Hpr. destruct Hp as [Hsl _]. rewrite Forall_forall in Hsl.
      apply dmul_grows; [by apply Hpr|by apply Hsl|done].
    + intros choices. apply price_scenario_feasible.
    + destruct Hdone as [?|E]; [done|]. unfold result_ok in Hr. rewrite Ep, E in Hr. naive_solver.
Qed.

Lemma sample_in_context : in_context sample_input.
Proof.
  split; apply Forall_forall; intros s Hs; cbn in Hs; repeat (apply elem_of_cons in Hs as [->|Hs]; [|]); try by apply elem_of_nil in Hs.
  all: try (split; [|vm_compute; discriminate]); try apply fits_dec; vm_compute; reflexivity.
Qed.

Lemma what_if_correct_witness :
  match run_what_if (λ _, "h") (λ _, false) sample_input (Dec 5 (-1)) with
  | Ok w => ∃ o, what_if_result w = o ∧ result_ok (capacity_scenario (Dec 5 (-1)) sample_input) o
  | Err _ => False
  end.
Proof.
  destruct (what_if_correct (λ _, false) (λ _, "h") sample_input (Dec 5 (-1)) sample_well_formed sample_priceable) as (o & -> & Hr & _);
    [vm_compute; reflexivity|]. by exists o.
Defined.

Lemma price_counterfactual_correct_witness :
  match change_slot_prices (λ _, "h") (λ _, false) (λ _, false) sample_input (dint 2) with
  | Ok c => ∃ d, objective_delta c = Some d ∧ (0 <= dval d)%Q ∧ d = Dec 250 (-2)
  | Err _ => False
  end.
Proof.
  destruct (price_counterfactual_correct (λ _, false) (λ _, false) (λ _, "h") sample_input (dint 2) sample_well_formed sample_priceable)
    as (c & Hc & _ & _ & Hd); [vm_compute; reflexivity|].
  destruct Hd as [_ Hd]; [done|done|]. rewrite Hc. assert (objective_delta c = Some (Dec 250 (-2))) as E.
  { vm_compute in Hc. injection Hc as <-. reflexivity. }
  exists (Dec 250 (-2)). split_and!; [done| |done]. apply Hd; [vm_compute; discriminate|apply sample_in_context|done].
Defined.
