(* ===== verification/Evaluation.v ===== *)
(** * Explanations, benchmarks, reports, evaluation and replay

    [packages/explain/constraints.py] and [packages/explain/service.py] explain a result; [packages/benchmark] and
    [packages/reports/service.py] compare plans; [packages/evaluator/metrics.py] and [packages/replay/service.py]
    evaluate recorded events.  Digests of JSON text are parameters. *)
From Stdlib Require Import QArith Lqa.
From S2P Require Import Prelude PyDecimal PyValue PyText Domain Workloads Scheduling Optimizer.
Local Open Scope Z_scope.

(** ** explain/constraints.py *)

Record ConstraintSlack := MkSlack {
  slack_id : string; slack_limit : dec; slack_actual : dec; slack : dec; binding : bool; near_binding : bool
}.

Definition explain_constraint (id : string) (actual limit tolerance : dec) : result ConstraintSlack :=
  raise_if (dltb limit (dint 0) || dltb tolerance (dint 0)) (ValueError "constraint limit and tolerance cannot be negative");;
  let s := dsub limit actual in
  let b := dleb s (dint 0) in
  near ← (if b then Ok false else q ← ddiv s (dmax (dabs limit) (dint 1)); Ok (dleb q tolerance));
  Ok (MkSlack id limit actual s b near).

Definition binding_constraints (l : list ConstraintSlack) : list string :=
  map slack_id (base.filter (λ c, (binding c || near_binding c) = true) l).

(** ** explain/service.py *)

Record Explanation := MkExplanation {
  primary_reason : string; supporting_factors : list string; conflicting_factors : list string; ex_binding : list string;
  objective_impact : list (string * dec); uncertainty : list string; provenance : list (string * string)
}.

Definition reason_codes (p : SchedulePlan) : list string :=
  py_sorted String.compare (elements (list_to_set (map reason_code (allocations p)) : gset string)).

Definition explain_plan (o : OptimizationResult) (input_hash_ model_version : string) (forecast_quality : dec) : Explanation :=
  let prov := [("input_hash", input_hash_); ("model_version", model_version); ("solver", opt_solver o)] in
  match opt_plan o with
  | None => MkExplanation "INFEASIBLE" [] (opt_diagnostics o) (opt_diagnostics o) (opt_breakdown o) [] prov
  | Some p =>
      let reasons := reason_codes p in
      MkExplanation (default "NO_ACTION" (head reasons)) (tail reasons) [] (opt_diagnostics o) (opt_breakdown o)
        (if dltb forecast_quality (Dec 9 (-1)) then ["forecast_quality=" +:+ dec_str forecast_quality] else []) prov
  end.

(** [binding_constraints(slacks, tolerance)] of the service: a dict of slacks *)
Definition tight_constraints (slacks : list (string * dec)) (tolerance : dec) : list string :=
  py_sorted String.compare (map fst (base.filter (λ kv : string * dec, dleb (dabs kv.2) tolerance = true) slacks)).

(** ** benchmark/runner.py, benchmark/report.py *)

Record BenchmarkResult := MkBenchmark { bench_seed : Z; bench_hash : string; bench_plans : list SchedulePlan; cheapest : string }.
Definition plan_order : SchedulePlan → SchedulePlan → comparison :=
  cmp_then (cmp_on estimated_cost dcompare) (cmp_on strategy String.compare).

Definition benchmark (hash : ScheduleInput → string) (r : ScheduleInput) (seed : Z) : result BenchmarkResult :=
  p ← schedule_fifo hash r; q ← schedule_priority_edf hash r; w ← schedule_price_aware hash r;
  let hashes : gset string := list_to_set (map input_hash [p; q; w]) in
  raise_if (negb (bool_decide (size hashes = 1%nat))) (RuntimeError "benchmark strategies used different inputs");;
  Ok (MkBenchmark seed (input_hash p) [p; q; w] (strategy (py_min_from plan_order p [q; w]))).

Record StrategyComparison := MkComparison {
  cmp_baseline : string; cmp_candidate : string; cost_savings : dec; energy_savings_kwh : dec; scheduled_job_delta : Z; violation_delta : Z
}.
Definition planned_jobs (p : SchedulePlan) : gset string := list_to_set (map alloc_job (allocations p)).
Definition compare_strategies (b c : SchedulePlan) : StrategyComparison :=
  MkComparison (strategy b) (strategy c) (dsub (estimated_cost b) (estimated_cost c)) (dsub (energy_intent_kwh b) (energy_intent_kwh c))
    (Z.of_nat (size (planned_jobs c)) - Z.of_nat (size (planned_jobs b)))
    (Z.of_nat (length (violations c)) - Z.of_nat (length (violations b))).

(** ** reports/service.py *)

Record SavingsReport := MkReport {
  baseline_name_ : string; baseline_cost : dec; candidate_cost : dec; savings : dec; savings_percent : dec; rep_assumptions : list string;
  rep_uncertainty : list string; rep_provenance : list (string * string); content_hash_ : string
}.

Section report.
Context (digest : list (string * string) → string).

Definition build_savings_report (b c : SchedulePlan) (tariff_version run_id : string) (unc : list string) : result SavingsReport :=
  raise_if (mem (strategy b) [""; "none"]) (ValueError "a named baseline is required");;
  let s := dsub (estimated_cost b) (estimated_cost c) in
  percent ← (if dbool (estimated_cost b) then ddiv s (estimated_cost b) else Ok (dint 0));
  let body := [("baseline_name", strategy b); ("baseline_cost", dec_str (estimated_cost b)); ("candidate_cost", dec_str (estimated_cost c));
               ("tariff_version", tariff_version); ("run_id", run_id)] in
  Ok (MkReport (strategy b) (estimated_cost b) (estimated_cost c) s percent (assumptions c) unc
        [("baseline_input_hash", input_hash b); ("candidate_input_hash", input_hash c); ("tariff_version", tariff_version); ("run_id", run_id)]
        (digest body)).

Definition grounded_narrative (r : SavingsReport) : string :=
  "Against " +:+ baseline_name_ r +:+ ", the candidate changes estimated cost from " +:+ dec_str (baseline_cost r) +:+ " to " +:+
  dec_str (candidate_cost r) +:+ ", a difference of " +:+ dec_str (savings r) +:+ ". Assumptions: " +:+
  (match rep_assumptions r with [] => "none recorded" | l => if bool_decide (String.concat ", " l = "") then "none recorded" else String.concat ", " l end) +:+ ".".
End report.

(** ** evaluator/metrics.py *)

Record Evaluation := MkEvaluation {
  energy_cost : dec; peak_grid_kw : dec; sla_violations : Z; average_gpu_utilization : dec; renewable_fraction : dec; hard_violations : Z
}.

Section evaluate.
Context (str_container : pyval → string).
#[local] Abbreviation document := (list (string * pyval)).

(** [Decimal(str(item[k]))], [Decimal(str(item.get(k, v)))] *)
Definition number (k : string) (d : document) : result dec := v ← item k d; PyText.py_decimal str_container v.
Definition number_or (k : string) (v : pyval) (d : document) : result dec := PyText.py_decimal str_container (default v (od_get k d)).

Definition event_cost (d : document) : result dec :=
  g ← number "grid_kw" d; p ← number_or "price_per_kwh" (VStr "0.1") d; Ok (dmul (dmul g (Dec 25 (-2))) p).

(** The condition under which an event counts as a hard violation, evaluated from left to right *)
Definition violates (d : document) : result bool :=
  soc ← number "battery_soc" d;
  if dltb soc (Dec 1 (-1)) then Ok true else if dltb (Dec 9 (-1)) soc then Ok true
  else
    u ← number_or "unserved_kw" (VInt 0) d;
    if dltb (Dec 1 (-3)) u then Ok true
    else match default VNone (od_get "grid_limit_kw" d) with
         | VNone => Ok false
         | v => g ← number "grid_kw" d; l ← PyText.py_decimal str_container v; Ok (dltb l g)
         end.

Definition evaluate_events (events : list document) : result Evaluation :=
  match events with
  | [] => Ok (MkEvaluation (dint 0) (dint 0) 0 (dint 0) (dint 0) 0)
  | _ =>
      grid ← mapM_result (number "grid_kw") events;
      pv ← mapM_result (number "pv_kw") events;
      facility ← mapM_result (number "facility_kw") events;
      compute ← mapM_result (number "compute_kw") events;
      costs ← mapM_result event_cost events;
      let total_energy := dmul (dsum facility) (Dec 25 (-2)) in
      share ← ddiv (dmul (dsum pv) (Dec 25 (-2))) (dmax total_energy (Dec 1 (-3)));
      load ← ddiv (dsum compute) (dmul (dint (Z.of_nat (length events))) (Dec 96 (-1)));
      hard ← mapM_result violates events;
      Ok (MkEvaluation (dsum costs) (match grid with g :: gs => py_max_from dcompare g gs | [] => dint 0 end) 0
            (dmin (dint 1) load) (dmin (dint 1) share) (Z.of_nat (length (base.filter (λ b, b = true) hard))))
  end.

(** ** replay/service.py *)

Record ReplayResult := MkReplay { event_count : Z; event_hash : string; evaluation : Evaluation }.
Context (digest : list document → result string).

(** The sort key of an event: a text and a number.  Events with keys of other types are not modelled. *)
Definition event_key (d : document) : result (string * Z) :=
  t ← item "timestamp" d; n ← item "sequence" d;
  match t, n with VStr t, VInt n => Ok (t, n) | _, _ => Err (OtherError "unmodelled event key") end.
Definition event_order : (string * Z) * document → (string * Z) * document → comparison :=
  cmp_then (cmp_on (λ x, x.1.1) String.compare) (cmp_on (λ x, x.1.2) Z.compare).

Definition replay (events : list document) : result ReplayResult :=
  keys ← mapM_result event_key events;
  let ordered := map snd (py_sorted event_order (zip keys events)) in
  h ← digest ordered;
  e ← evaluate_events ordered;
  Ok (MkReplay (Z.of_nat (length ordered)) h e).
End evaluate.

(** ** Explanations *)

Lemma dsub_sign a b : (dval (dsub a b) <= 0 ↔ dval a <= dval b)%Q.
Proof.
  split; [|apply dsub_nonpos]. intros H. apply Qnot_lt_le. intros Hlt. unfold dsub in H.
  destruct (dsub_spec 28 a b) as (s & Es & Hs). rewrite Es in H. pose proof (dfix_pos 28 ltac:(lia) s) as Hp.
  assert (0 < dval (dfix 28 s))%Q by (apply Hp; lra). lra.
Qed.

Lemma dint_1 : (dval (dint 1) == 1)%Q.
Proof. reflexivity. Qed.

(** Explaining a constraint always succeeds for a limit and a tolerance that are not negative; it is binding exactly
    when the limit is reached, near binding only when it is not. *)
Lemma explain_constraint_spec id actual limit tol : (0 <= dval limit → 0 <= dval tol →
  ∃ c, explain_constraint id actual limit tol = Ok c ∧ (binding c = true ↔ dval limit <= dval actual) ∧ (near_binding c = true → binding c = false))%Q.
Proof.
  intros Hl Ht. unfold explain_constraint, raise_if, mbind, result_bind.
  rewrite (proj2 (dltb_false limit (dint 0))) by by rewrite dval_dint. rewrite (proj2 (dltb_false tol (dint 0))) by by rewrite dval_dint. cbv iota beta.
  destruct (dleb (dsub limit actual) (dint 0)) eqn:Eb; cbn [orb].
  - eexists. split; [done|]. cbn. split; [|done]. split; [|done]. intros _. apply dleb_true in Eb. rewrite dval_dint in Eb. by apply dsub_sign.
  - destruct (dmax_val (dabs limit) (dint 1)) as (_ & H1 & _). rewrite dint_1 in H1.
    destruct (ddiv_ok 28 (dsub limit actual) (dmax (dabs limit) (dint 1))) as [q Hq].
    { intros Hz%dval_zero_iff. lra. }
    unfold ddiv. rewrite Hq. eexists. split; [done|]. cbn. split; [|done]. split; [done|]. intros H%dsub_sign.
    apply dleb_false in Eb. rewrite dval_dint in Eb. change (inject_Z 0) with 0%Q in Eb. lra.
Qed.

(** The reasons of an explanation are the reason codes of the plan, each once and in order. *)
Lemma explain_plan_reasons o h v q p : opt_plan o = Some p → allocations p ≠ [] →
  let e := explain_plan o h v q in
  NoDup (primary_reason e :: supporting_factors e) ∧ StronglySorted (key_le String.compare) (primary_reason e :: supporting_factors e) ∧
  ∀ c, c ∈ primary_reason e :: supporting_factors e ↔ ∃ a, a ∈ allocations p ∧ reason_code a = c.
Proof.
  intros Hp Hne. unfold explain_plan. rewrite Hp. cbn.
  assert (reason_codes p ≠ []) as Hr.
  { destruct (allocations p) as [|a l] eqn:Ea; [done|]. intros Hn. assert (reason_code a ∈ reason_codes p) as Hin.
    { unfold reason_codes. rewrite elem_of_py_sorted, elem_of_elements, elem_of_list_to_set, Ea. left. }
    rewrite Hn in Hin. set_solver. }
  assert (default "NO_ACTION" (head (reason_codes p)) :: tail (reason_codes p) = reason_codes p) as -> by (by destruct (reason_codes p)).
  split_and!.
  - unfold reason_codes. rewrite py_sorted_perm. apply NoDup_elements.
  - apply py_sorted_sorted. apply _.
  - intros c. unfold reason_codes. rewrite elem_of_py_sorted, elem_of_elements, elem_of_list_to_set, list_elem_of_fmap. naive_solver.
Qed.

(** ** Benchmarks and reports *)

#[global] Instance plan_order_order : CmpOrder plan_order.
Proof. apply _. Qed.

Lemma schedule_named hash r js strat price p : schedule hash r js strat price = Ok p → strategy p = strat ∧ input_hash p = hash r.
Proof.
  unfold schedule, mbind, result_bind. destruct (foldM_result _ _ _); [|done]. destruct (validate_plan _ _); [|done]. by intros [= <-].
Qed.

(** A benchmark of a well-formed request always succeeds: the three strategies see the same input (the check of
    their hashes never fails), each gives a plan that places or leaves out every job exactly once and passes
    validation, and the strategy named cheapest is one of them with the least cost. *)
Theorem benchmark_correct (hash : ScheduleInput → string) (r : ScheduleInput) (seed : Z) (Hwf : well_formed r) :
  ∃ b, benchmark hash r seed = Ok b ∧ bench_hash b = hash r ∧ map strategy (bench_plans b) = ["fifo"; "priority_edf"; "price_aware"] ∧
    Forall (good_schedule r) (bench_plans b) ∧
    ∃ p, p ∈ bench_plans b ∧ strategy p = cheapest b ∧ Forall (λ q, dval (estimated_cost p) <= dval (estimated_cost q))%Q (bench_plans b).
Proof.
  destruct (schedule_good hash r (py_sorted fifo_order (jobs r)) "fifo" false Hwf) as (p & Hp & Gp); [apply py_sorted_perm|].
  destruct (schedule_good hash r (py_sorted edf_order (jobs r)) "priority_edf" false Hwf) as (q & Hq & Gq); [apply py_sorted_perm|].
  destruct (schedule_good hash r (py_sorted edf_order (jobs r)) "price_aware" true Hwf) as (w & Hw & Gw); [apply py_sorted_perm|].
  destruct (schedule_named _ _ _ _ _ _ Hp) as [Np Ip], (schedule_named _ _ _ _ _ _ Hq) as [Nq Iq], (schedule_named _ _ _ _ _ _ Hw) as [Nw Iw].
  unfold benchmark, schedule_fifo, schedule_priority_edf, schedule_price_aware, mbind, result_bind. rewrite Hp, Hq, Hw.
  assert (size (list_to_set (map input_hash [p; q; w]) : gset string) = 1%nat) as Hs.
  { cbn. rewrite Ip, Iq, Iw. replace ({[hash r]} ∪ ({[hash r]} ∪ ({[hash r]} ∪ ∅))) with ({[hash r]} : gset string) by set_solver.
    apply size_singleton. }
  rewrite Hs. cbn [bool_decide]. eexists. split; [done|]. cbn [bench_hash bench_plans cheapest map]. rewrite Np, Nq, Nw. split_and!; [done|done|by rewrite !Forall_cons, Forall_nil|].
  destruct (py_min_from_spec plan_order p [q; w]) as [Hin Hmin]. eexists. split; [exact Hin|]. split; [done|].
  eapply Forall_impl; [exact Hmin|]. intros x Hx. apply dleb_true. unfold dleb. unfold plan_order, cmp_then, cmp_on in Hx.
  destruct (dcompare _ _); done.
Qed.

Lemma benchmark_correct_witness :
  well_formed sample_input ∧
  ∃ b, benchmark (λ _, "h") sample_input 7 = Ok b ∧ bench_hash b = "h" ∧ Forall (good_schedule sample_input) (bench_plans b).
Proof.
  split; [apply sample_well_formed|].
  destruct (benchmark_correct (λ _, "h") sample_input 7 sample_well_formed) as (b & Hb & Hh & _ & Hg & _). exists b. exact (conj Hb (conj Hh Hg)).
Defined.

(** A savings report: positive savings mean that the candidate is cheaper, and the percentage has the sign of the
    savings; a baseline that costs nothing gives 0 percent. *)
Lemma savings_report_spec digest b c tv run unc r : build_savings_report digest b c tv run unc = Ok r →
  strategy b ≠ "" ∧ strategy b ≠ "none" ∧ baseline_cost r = estimated_cost b ∧ candidate_cost r = estimated_cost c ∧
  (0 < dval (savings r) ↔ dval (candidate_cost r) < dval (baseline_cost r))%Q ∧
  (0 < dval (baseline_cost r) → (0 <= dval (savings r) → 0 <= dval (savings_percent r)) ∧ (dval (savings r) <= 0 → dval (savings_percent r) <= 0))%Q ∧
  (dval (baseline_cost r) == 0 → dval (savings_percent r) == 0)%Q.
Proof.
  unfold build_savings_report, raise_if, mbind, result_bind. destruct (mem _ _) eqn:Em; [done|]. apply mem_false in Em.
  destruct (if dbool _ then _ else _) as [q|] eqn:Eq; [|done]. intros [= <-]. cbn -[dval dsub dint].
  split_and!; [set_solver|set_solver|done|done| | |].
  - split; [intros H; apply Qnot_le_lt; intros Hle%dsub_sign; lra|]. intros H. apply Qnot_le_lt. intros Hle%dsub_sign. lra.
  - intros Hpos. pose proof (coef_pos _ Hpos) as Hc. unfold dbool in Eq. rewrite (proj2 (Z.eqb_neq _ _)) in Eq by lia. cbn in Eq.
    split; intros Hs; [by eapply ddiv_nonneg|by eapply ddiv_nonpos].
  - intros Hz%dval_zero_iff. unfold dbool in Eq. rewrite Hz in Eq. cbn in Eq. injection Eq as <-. by rewrite dval_dint.
Qed.

(** ** Evaluation and replay *)

Lemma filter_none {A} (P : A → Prop) `{∀ x, Decision (P x)} l : length (base.filter P l) = 0%nat ↔ Forall (λ x, ¬ P x) l.
Proof.
  rewrite length_zero_iff_nil. induction l as [|x l IH]; [by split; constructor|]. rewrite filter_cons, Forall_cons. case_decide; naive_solver.
Qed.

Section evaluation.
Context (str_container : pyval → string).
#[local] Abbreviation evaluate := (evaluate_events str_container).
#[local] Abbreviation reads k d x := (number str_container k d = Ok x).

(** What a field of all the events holds *)
Definition all_nonneg (k : string) (events : list (list (string * pyval))) : Prop :=
  ∀ d x, d ∈ events → reads k d x → (0 <= dval x)%Q.

Lemma field_nonneg k events l : mapM_result (number str_container k) events = Ok l → all_nonneg k events → (0 <= dval (dsum l))%Q.
Proof.
  intros Hl%mapM_result_Forall2 Hn. apply dsum_nonneg_from; [|by vm_compute]. apply Forall_forall. intros x Hx.
  destruct (list_elem_of_lookup_1 _ _ Hx) as [i Hi]. destruct (Forall2_lookup_r _ _ _ _ _ Hl Hi) as (d & Hd & Hr).
  apply (Hn d); [by eapply list_elem_of_lookup_2|done].
Qed.

Lemma capped q : (dval (dmin (dint 1) q) <= 1)%Q ∧ (0 <= dval q → 0 <= dval (dmin (dint 1) q))%Q.
Proof.
  unfold dmin. destruct (dltb q (dint 1)) eqn:E; [apply dltb_true in E; rewrite dint_1 in E; split; [lra|done]|].
  rewrite dint_1. split; lra.
Qed.

Lemma peak_spec g gs : let m := py_max_from dcompare g gs in m ∈ g :: gs ∧ Forall (λ x, dval x <= dval m)%Q (g :: gs).
Proof.
  destruct (py_max_from_spec dcompare g gs) as [Hin Hmax]. split; [done|]. eapply Forall_impl; [exact Hmax|].
  intros x Hx. apply dleb_true. unfold dleb. cbn in Hx. by case_match.
Qed.

Record evaluation_ok (events : list (list (string * pyval))) (e : Evaluation) : Prop := {
  ev_peak : events ≠ [] → (∃ d, d ∈ events ∧ reads "grid_kw" d (peak_grid_kw e)) ∧
    ∀ d g, d ∈ events → reads "grid_kw" d g → (dval g <= dval (peak_grid_kw e))%Q;
  ev_shares : (dval (renewable_fraction e) <= 1)%Q ∧ (dval (average_gpu_utilization e) <= 1)%Q;
  ev_renewable : all_nonneg "pv_kw" events → (0 <= dval (renewable_fraction e))%Q;
  ev_utilization : all_nonneg "compute_kw" events → (0 <= dval (average_gpu_utilization e))%Q;
  ev_hard : 0 <= hard_violations e <= Z.of_nat (length events);
  ev_clean : hard_violations e = 0 ↔ ∀ d, d ∈ events → violates str_container d = Ok false;
  ev_sla : sla_violations e = 0
}.

Lemma events_positive {A} (l : list A) : l ≠ [] → (0 < coef (dmul (dint (Z.of_nat (length l))) (Dec 96 (-1))))%Z.
Proof.
  intros Hl. apply coef_pos. unfold dmul. destruct (dmul_spec 28 (dint (Z.of_nat (length l))) (Dec 96 (-1))) as (s & -> & Hs).
  apply dfix_pos; [lia|]. rewrite Hs. apply Qmult_lt_0_compat; [|reflexivity]. rewrite dval_dint, <-Zlt_Qlt with (x:=0).
  destruct l; [done|cbn; lia].
Qed.

Lemma energy_positive x : (0 < coef (dmax x (Dec 1 (-3))))%Z.
Proof.
  apply coef_pos. destruct (dmax_val x (Dec 1 (-3))) as (_ & H & _). eapply Qlt_le_trans; [|exact H]. reflexivity.
Qed.

Lemma evaluate_spec events e : evaluate events = Ok e → evaluation_ok events e.
Proof.
  assert (events = [] ∨ events ≠ []) as [->|Hne] by (destruct events; auto).
  { intros [= <-]. split; cbn [hard_violations sla_violations length].
    - intros H. by destruct H.
    - split; vm_compute; discriminate.
    - intros _. vm_compute. discriminate.
    - intros _. vm_compute. discriminate.
    - lia.
    - split; [intros _ d Hd; by apply elem_of_nil in Hd|reflexivity].
    - reflexivity. }
  destruct (events) as [|d0 ds] eqn:Ev; [done|]. rewrite <-Ev in Hne |- *. unfold evaluate_events, mbind, result_bind. rewrite Ev at 1.
  destruct (mapM_result (number str_container "grid_kw") events) as [grid|] eqn:Eg; [|done].
  destruct (mapM_result (number str_container "pv_kw") events) as [pv|] eqn:Ep; [|done].
  destruct (mapM_result (number str_container "facility_kw") events) as [fac|] eqn:Ef; [|done].
  destruct (mapM_result (number str_container "compute_kw") events) as [comp|] eqn:Ec; [|done].
  destruct (mapM_result (event_cost str_container) events) as [costs|]; [|done].
  destruct (ddiv (dmul (dsum pv) _) _) as [share|] eqn:Es; [|done]. destruct (ddiv (dsum comp) _) as [load|] eqn:El; [|done].
  destruct (mapM_result (violates str_container) events) as [hard|] eqn:Eh; [|done]. intros [= <-].
  apply mapM_result_Forall2 in Eg, Eh. pose proof (Forall2_length _ _ _ Eh) as Hlen.
  split; cbn -[dval dmin dint]; [intros _| |intros Hn|intros Hn| | |done].
  - destruct grid as [|g gs]; [by apply Forall2_nil_inv_r in Eg|]. destruct (peak_spec g gs) as [Hin Hmax]. split.
    + destruct (list_elem_of_lookup_1 _ _ Hin) as [i Hi]. destruct (Forall2_lookup_r _ _ _ _ _ Eg Hi) as (d & Hd & Hr).
      exists d. split; [by eapply list_elem_of_lookup_2|done].
    + intros d x Hd Hr. destruct (list_elem_of_lookup_1 _ _ Hd) as [i Hi]. destruct (Forall2_lookup_l _ _ _ _ _ Eg Hi) as (y & Hy & Hr').
      rewrite Hr in Hr'. injection Hr' as ->. rewrite Forall_forall in Hmax. apply Hmax. by eapply list_elem_of_lookup_2.
  - split; apply capped.
  - apply capped. eapply ddiv_nonneg; [apply energy_positive| |exact Es]. apply dmul_nonneg; [lia| |by vm_compute]. by eapply field_nonneg.
  - apply capped. eapply ddiv_nonneg; [by apply (events_positive events)| |exact El]. by eapply field_nonneg.
  - rewrite Hlen. pose proof (length_filter (λ b, b = true) hard). lia.
  - transitivity (length (base.filter (λ b, b = true) hard) = 0%nat); [lia|]. rewrite filter_none, Forall_forall. split.
    + intros H d Hd. destruct (list_elem_of_lookup_1 _ _ Hd) as [i Hi]. destruct (Forall2_lookup_l _ _ _ _ _ Eh Hi) as (b & Hb & ->).
      f_equal. apply not_true_is_false, H. by eapply list_elem_of_lookup_2.
    + intros H b Hb. destruct (list_elem_of_lookup_1 _ _ Hb) as [i Hi]. destruct (Forall2_lookup_r _ _ _ _ _ Eh Hi) as (d & Hd & Hv).
      rewrite (H d) in Hv by by eapply list_elem_of_lookup_2. by injection Hv as <-.
Qed.
End evaluation.

(** An evaluation does not depend on the order of the events. *)
#[global] Instance evaluation_ok_perm str_container : Proper ((≡ₚ) ==> eq ==> impl) (evaluation_ok str_container).
Proof.
  intros l k Hp e _ <- [H1 H2 H3 H4 H5 H6 H7]. assert (∀ d, d ∈ l ↔ d ∈ k) as Hin by (intros; by rewrite Hp).
  assert (∀ f, all_nonneg str_container f k → all_nonneg str_container f l) as Hnn.
  { intros f Hf d x Hd. apply Hf. by apply Hin. }
  split; [|done|auto|auto|by rewrite <-Hp| |done].
  - intros Hne. destruct H1 as [(d & Hd & Hr) Hmax]; [intros ->; apply Hne; by apply Permutation_nil|]. split.
    + exists d. split; [by apply Hin|done].
    + intros d' g Hd'. apply Hmax. by apply Hin.
  - rewrite H6. split; intros H d Hd; apply H; by apply Hin.
Qed.

#[global] Instance event_order_order : CmpOrder event_order.
Proof. apply _. Qed.

Lemma keyed_events str_events ks : mapM_result event_key str_events = Ok ks →
  zip ks str_events = map (λ d, (match event_key d with Ok k => k | Err _ => (EmptyString, 0) end, d)) str_events ∧
  ks = map (λ d, match event_key d with Ok k => k | Err _ => (EmptyString, 0) end) str_events.
Proof.
  intros H%mapM_result_Forall2. induction H as [|d k l ks Hk Hl [IH1 IH2]]; [done|]. cbn. rewrite Hk, IH1, <-IH2. done.
Qed.

Lemma zip_fst_inj {A B} (l : list A) (k : list B) x y : NoDup l → x ∈ zip l k → y ∈ zip l k → x.1 = y.1 → x = y.
Proof.
  intros Hnd [i Hi]%list_elem_of_lookup [j Hj]%list_elem_of_lookup Heq.
  apply lookup_zip_with_Some in Hi as (a & b & -> & Ha & Hb), Hj as (a' & b' & -> & Ha' & Hb'). cbn in Heq. subst a'.
  pose proof (NoDup_lookup _ _ _ _ Hnd Ha Ha') as ->. congruence.
Qed.

Lemma replay_order_unique events events' ks ks' : events ≡ₚ events' → mapM_result event_key events = Ok ks → mapM_result event_key events' = Ok ks' →
  NoDup ks → py_sorted event_order (zip ks events) = py_sorted event_order (zip ks' events').
Proof.
  intros Hp Hk Hk' Hnd. apply (sorted_unique event_order); [apply py_sorted_sorted, _..| |].
  - rewrite !py_sorted_perm. destruct (keyed_events _ _ Hk) as [-> _], (keyed_events _ _ Hk') as [-> _]. by rewrite Hp.
  - intros x y Hx%elem_of_py_sorted Hy%elem_of_py_sorted Heq. apply (zip_fst_inj ks events); [done..|].
    unfold event_order, cmp_then, cmp_on in Heq. destruct (String.compare _ _) eqn:Es; try done.
    apply String.compare_eq_iff in Es. apply Z.compare_eq_iff in Heq. destruct x as [[? ?] ?], y as [[? ?] ?]. cbn in *. congruence.
Qed.

(** A replay does not depend on the order in which the events arrive, when no two of them have the same timestamp
    and sequence number: it gives the same count, digest and evaluation, or the same error.  An evaluation it returns
    reports the true peak of the grid power, shares of at most 1 (not negative for non-negative powers), and no
    hard violation exactly when every event is within the limits. *)
Theorem replay_deterministic (str_container : pyval → string) (digest : list (list (string * pyval)) → result string)
    (events events' : list (list (string * pyval))) (ks : list (string * Z)) (Hp : events ≡ₚ events')
    (Hk : mapM_result event_key events = Ok ks) (Hnd : NoDup ks) :
  replay str_container digest events = replay str_container digest events' ∧
  ∀ out, replay str_container digest events = Ok out →
    event_count out = Z.of_nat (length events) ∧ evaluation_ok str_container events (evaluation out).
Proof.
  assert (∃ ks', mapM_result event_key events' = Ok ks') as [ks' Hk'].
  { apply mapM_result_Forall2 in Hk. assert (∀ d, d ∈ events' → ∃ k, event_key d = Ok k) as Hall.
    { intros d Hd. rewrite <-Hp in Hd. destruct (list_elem_of_lookup_1 _ _ Hd) as [i Hi].
      destruct (Forall2_lookup_l _ _ _ _ _ Hk Hi) as (k & _ & ?). by exists k. }
    clear Hp Hk. induction events' as [|d l IH]; [by exists []|]. destruct (Hall d) as [k Ek]; [left|].
    destruct IH as [ks' IH]; [intros x Hx; apply Hall; by right|]. exists (k :: ks'). cbn. by rewrite Ek, IH. }
  unfold replay, mbind, result_bind. rewrite Hk, Hk', (replay_order_unique events events' ks ks') by done. split; [done|].
  rewrite <-(replay_order_unique events events' ks ks') by done. intros out.
  assert (map snd (py_sorted event_order (zip ks events)) ≡ₚ events) as Hperm.
  { rewrite py_sorted_perm, (proj1 (keyed_events _ _ Hk)), map_map. cbn. by rewrite map_id. }
  destruct (digest _) as [h|]; [|done]. destruct (evaluate_events _ _) as [e|] eqn:Ee; [|done]. intros [= <-]. cbn [event_count evaluation].
  split; [by rewrite Hperm|]. rewrite <-Hperm at 1. by apply evaluate_spec.
Qed.

Definition toy_event (seq grid soc : Z) : list (string * pyval) :=
  [("timestamp", VStr "2026-01-01"); ("sequence", VInt seq); ("grid_kw", VInt grid); ("pv_kw", VInt 5); ("facility_kw", VInt 20);
   ("compute_kw", VInt 4); ("battery_soc", VDec (Dec soc (-2)))].

Lemma replay_deterministic_witness :
  replay (λ _, "") (λ l, Ok (int_str (Z.of_nat (length l)))) [toy_event 2 30 50; toy_event 1 40 95] =
  replay (λ _, "") (λ l, Ok (int_str (Z.of_nat (length l)))) [toy_event 1 40 95; toy_event 2 30 50] ∧
  match replay (λ _, "") (λ l, Ok (int_str (Z.of_nat (length l)))) [toy_event 2 30 50; toy_event 1 40 95] with
  | Ok out => hard_violations (evaluation out) = 1 ∧ peak_grid_kw (evaluation out) = dint 40
  | Err _ => False
  end.
Proof.
  split; [|vm_compute; done].
  apply (replay_deterministic (λ _, "") (λ l, Ok (int_str (Z.of_nat (length l)))) _ _ [("2026-01-01", 2); ("2026-01-01", 1)]).
  - apply Permutation_swap.
  - reflexivity.
  - apply (bool_decide_unpack _). vm_compute. exact I.
Defined.
