(* ===== verification/Scenarios.v ===== *)
(** * Scenarios, fault operators and the simulator's commands

    [packages/scenarios/schema.py] and [compiler.py]: the check of a scenario document and its run;
    [packages/simulation/sdk.py]: the commands of a simulator; [packages/faults/operators.py]. *)
From S2P Require Import Prelude PyDecimal PyFloat PyValue PyText Settings Domain Access Engine Evaluation.
Local Open Scope Z_scope.

Definition ALLOWED_FAULTS : gset string :=
  {["high_price"; "pv_surplus"; "job_burst"; "urgent_job"; "pv_error"; "battery_unavailable"; "gpu_failure"; "grid_derating"; "island_mode"]}.
Definition required_fields : gset string := {["name"; "version"; "seed"; "duration_hours"]}.

Record FaultSpec := MkFault { fault_step : Z; fault_kind : string; fault_target : string }.
Record ScenarioDocument := MkScenario { sc_name : string; sc_version : string; sc_seed : Z; sc_hours : Z; sc_faults : list FaultSpec }.

Section scenarios.
Context (str_container : pyval → string).
#[local] Abbreviation text := (py_str str_container).

(** the text of a sorted list of texts *)
Definition listed (l : list string) : string := str_container (VList (map VStr (py_sorted String.compare l))).

Definition parse_fault (v : pyval) : result FaultSpec :=
  match v with
  | VDict item =>
      s ← PyText.item "step" item; n ← py_int s; k ← PyText.item "kind" item;
      Ok (MkFault n (text k) (text (default (VStr "site") (od_get "target" item))))
  | _ => Err TypeError
  end.

Definition validate_document (d : document) : result ScenarioDocument :=
  let missing := required_fields ∖ list_to_set d.*1 in
  raise_if (negb (bool_decide (missing = ∅))) (ValueError ("scenario fields missing: " +:+ listed (elements missing)));;
  v ← item "version" d;
  raise_if (negb (bool_decide (text v = "1.0.0"))) (ValueError "unsupported scenario version");;
  h ← item "duration_hours" d; duration ← py_int h;
  raise_if ((duration <? 1) || (168 <? duration)) (ValueError "scenario duration must be between 1 and 168 hours");;
  raw ← (match default (VList []) (od_get "faults" d) with VList l => Ok l | _ => Err (ValueError "scenario faults must be a list") end);
  faults ← mapM_result parse_fault raw;
  raise_if (existsb (λ f, fault_step f <? 0) faults) (ValueError "fault step cannot be negative");;
  let unsupported := list_to_set (map fault_kind faults) ∖ ALLOWED_FAULTS in
  raise_if (negb (bool_decide (unsupported = ∅))) (ValueError ("unsupported scenario faults: " +:+ listed (elements unsupported)));;
  name ← item "name" d; s ← item "seed" d; seed ← py_int s;
  Ok (MkScenario (text name) (text v) seed duration faults).

Definition compile_scenario (d : document) : result ScenarioDocument :=
  validated ← validate_document d;
  raise_if (existsb (λ f, sc_hours validated * 4 <=? fault_step f) (sc_faults validated)) (ValueError "fault occurs outside scenario");;
  Ok validated.

(** [{fault.step: fault.kind for fault in scenario.faults}] and its [get] *)
Definition fault_schedule (faults : list FaultSpec) : list (Z * string) := foldl (λ acc f, od_set (fault_step f) (fault_kind f) acc) [] faults.
Definition scheduled (schedule : list (Z * string)) (n : Z) : pyval := match od_get n schedule with Some k => VStr k | None => VNone end.

Section run.
Context {R : Type} (rng_seed : Z → R) (rng_next : R → bin * R).
Context (sin : bin → bin) (float_repr : bin → string) (float_dec : bin → dec) (iso : datetime → string).
#[local] Abbreviation run := (run rng_next sin float_repr float_dec iso).
#[local] Abbreviation step := (step rng_next sin float_repr float_dec iso).

Definition run_scenario (sc : ScenarioDocument) : result (list document * Evaluation) :=
  c ← simulation_config (default_config (sc_seed sc) (sc_hours sc));
  events ← (run (scheduled (fault_schedule (sc_faults sc))) (new_simulator rng_seed c)).2;
  e ← evaluate_events str_container events;
  Ok (events, e).

(** ** sdk.py *)

Inductive sdk_result := SdkEvent (e : document) | SdkSnapshot (s : snapshot_doc (R := R)) | SdkDone | SdkEvents (l : list document).

(** The parameters of a command: a fault, a snapshot or a schedule *)
Record parameters := MkParameters { pm_fault : pyval; pm_snapshot : option (snapshot_doc (R := R)); pm_schedule : list (Z * string) }.

Definition command (name : string) (p : parameters) : M (Simulator R) sdk_result :=
  if bool_decide (name = "step") then e ← step (pm_fault p); mret (SdkEvent e)
  else if bool_decide (name = "snapshot") then λ s, (s, Ok (SdkSnapshot (snapshot s)))
  else if bool_decide (name = "restore") then sn ← mlift (of_option (KeyError "snapshot") (pm_snapshot p)); restore sn;; mret SdkDone
  else if bool_decide (name = "run") then l ← run (scheduled (pm_schedule p)); mret (SdkEvents l)
  else mraise (ValueError ("unsupported simulator command " +:+ name)).

Definition observe (s : Simulator R) : document :=
  let st := sim_state s in
  [("step", VInt (st_step st)); ("timestamp", VStr (iso (st_timestamp st))); ("battery_soc", VStr (dec_str (battery_soc st))); ("active_jobs", VInt (active_jobs st))].
End run.
End scenarios.

(** ** operators.py *)

Record FaultOperator := MkOperator { op_kind : string; op_target : string; op_magnitude : pyval }.
Definition apply_operator (o : FaultOperator) (state : document) : result document :=
  match default (VList []) (od_get "faults" state) with
  | VList existing =>
      Ok (od_set "faults" (VList (existing ++ [VDict [("kind", VStr (op_kind o)); ("target", VStr (op_target o)); ("magnitude", op_magnitude o)]])) state)
  | _ => Err (ValueError "fault state must contain a list of faults")
  end.

(** ** A compiled scenario runs to its end *)

Lemma compiled_faults str_container d sc : compile_scenario str_container d = Ok sc →
  1 <= sc_hours sc <= 168 ∧ ∀ f, f ∈ sc_faults sc → 0 <= fault_step f < sc_hours sc * 4 ∧ fault_kind f ∈ ALLOWED_FAULTS.
Proof.
  unfold compile_scenario, validate_document.
  intros (v & (? & _ & (ver & _ & (? & _ & (h & _ & (dur & _ & (u1 & E1 & Hv)%bind_ok)%bind_ok)%bind_ok)%bind_ok)%bind_ok)%bind_ok & Hc)%bind_ok. revert Hv.
  intros (raw & _ & (faults & _ & (u2 & E2 & (u3 & E3 & (nm & _ & (sd & _ & (seed & _ & [= <-])%bind_ok)%bind_ok)%bind_ok)%bind_ok)%bind_ok)%bind_ok)%bind_ok.
  apply bind_ok in Hc as (u4 & E4 & [= <-]). destruct u1, u2, u3, u4. cbn [sc_hours sc_faults] in *.
  apply guard_last in E1 as B1, E2 as B2, E3 as B3, E4 as B4.
  apply orb_false_iff in B1 as [B1%Z.ltb_ge B1'%Z.ltb_ge]. split; [lia|]. intros f Hf. rewrite existsb_false, Forall_forall in B2, B4.
  specialize (B2 f Hf). specialize (B4 f Hf). apply Z.ltb_ge in B2. apply Z.leb_gt in B4. split; [lia|].
  apply negb_false_iff, bool_decide_eq_true in B3. destruct (decide (fault_kind f ∈ ALLOWED_FAULTS)) as [|Hn]; [done|]. exfalso.
  assert (fault_kind f ∈ (∅ : gset string)) as Hx; [|by apply elem_of_empty in Hx]. rewrite <-B3. apply elem_of_difference. split; [|done].
  apply elem_of_list_to_set, list_elem_of_fmap. by exists f.
Qed.

Lemma schedule_get faults : ∀ acc n, od_get n (foldl (λ acc f, od_set (fault_step f) (fault_kind f) acc) acc faults) =
  match last (base.filter (λ f, fault_step f = n) faults) with Some f => Some (fault_kind f) | None => od_get n acc end.
Proof.
  induction faults as [|f faults IH]; intros acc n; [done|]. cbn [foldl]. rewrite IH, filter_cons. case_decide as Hd.
  - subst n. rewrite last_cons. destruct (last _); [done|]. apply od_get_set_eq.
  - destruct (last _); [done|]. by apply od_get_set_ne.
Qed.

Lemma config_eqb_refl c : config_eqb c c = true.
Proof.
  assert (∀ x, deqb x x = true) as Hd by (intros x; apply deqb_true; reflexivity). unfold config_eqb. rewrite !Z.eqb_refl, !Hd, !bool_decide_true by done. done.
Qed.

(** C38: A scenario that compiles runs to its end, with exactly its faults.  Its run yields one event for every quarter
    of an hour, numbered from zero, so each of its faults falls on an event; an event has the last fault that the
    scenario lists for its step, or none; and the battery stays between 10% and 90% throughout.  A run that is
    interrupted at any step, and continued from a snapshot by a simulator of the same configuration, yields the same
    events.  (The decimal of a float is the shortest one that rounds to it.) *)
Theorem scenario_run_exact (str_container : pyval → string) {R : Type} (rng_seed : Z → R) (rng_next : R → bin * R)
    (sin : bin → bin) (float_repr : bin → string) (float_dec : bin → dec) (iso : datetime → string) (Hshort : shortest_decimal float_dec)
    (d : document) (sc : ScenarioDocument) (Hc : compile_scenario str_container d = Ok sc) :
  let c := default_config (sc_seed sc) (sc_hours sc) in
  let faults := scheduled (fault_schedule (sc_faults sc)) in
  ∃ events,
    run_scenario str_container rng_seed rng_next sin float_repr float_dec iso sc = (e ← evaluate_events str_container events; Ok (events, e)) ∧
    Z.of_nat (length events) = sc_hours sc * 4 ∧
    (∀ f, f ∈ sc_faults sc → 0 <= fault_step f < Z.of_nat (length events) ∧ fault_kind f ∈ ALLOWED_FAULTS) ∧
    (∀ i e, events !! i = Some e →
       od_get "sequence" e = Some (VInt (Z.of_nat i)) ∧
       od_get "fault" e = Some (match last (base.filter (λ f, fault_step f = Z.of_nat i) (sc_faults sc)) with Some f => VStr (fault_kind f) | None => VNone end) ∧
       ∃ soc, od_get "battery_soc" e = Some (VStr (dec_str soc)) ∧ soc_ok soc) ∧
    ∀ n s, sim_config s = c →
      let interrupted := (run_loop rng_next sin float_repr float_dec iso n faults (start (new_simulator rng_seed c))).1 in
      (restore (snapshot interrupted);; run rng_next sin float_repr float_dec iso faults) s =
      run rng_next sin float_repr float_dec iso faults interrupted ∧
      (run rng_next sin float_repr float_dec iso faults interrupted).2 = Ok events.
Proof.
  intros c faults. destruct (compiled_faults _ _ _ Hc) as [Hh Hf].
  assert (simulation_config c = Ok c) as Hcfg.
  { unfold simulation_config, c, default_config. cbn. destruct (Z.leb_spec (sc_hours sc) 0); [lia|done]. }
  assert (∀ n, hashable (faults n) = true) as Hhash by (intros n; unfold faults, scheduled; by destruct (od_get n _)).
  destruct (run_resumed rng_next sin float_repr float_dec iso Hshort faults (new_simulator rng_seed c) 0 Hhash
    (new_simulator_ok rng_seed iso c Hcfg) ltac:(by vm_compute)) as (s' & Hr & Hok & _ & Hleft & Hcf & _).
  exists (st_events (sim_state s')).
  assert (Z.of_nat (length (st_events (sim_state s'))) = sc_hours sc * 4) as Hlen.
  { pose proof (time_left_length iso s' Hok) as Hl. rewrite Hleft, Hcf in Hl. rewrite Hl. cbn [new_simulator sim_config]. unfold total_steps, c. cbn. 
    replace (sc_hours sc * 60) with (sc_hours sc * 4 * 15) by lia. rewrite Z.div_mul by lia. lia. }
  split_and!.
  - unfold run_scenario. fold c faults. rewrite Hcfg. cbn [mbind result_bind]. unfold mbind, result_bind. by rewrite Hr.
  - done.
  - intros f Hin. destruct (Hf f Hin). split; [lia|done].
  - intros i e He. destruct (so_events _ _ Hok i e He) as (E1 & _ & E3). split_and!; [done| |done].
    assert (injected faults s') as Hinj.
    { eapply run_injected; [done| | |exact Hr]; [by apply new_simulator_ok|]. intros j x Hx. done. }
    rewrite (Hinj i e He). f_equal. unfold faults, scheduled, fault_schedule. rewrite schedule_get. by destruct (last _).
  - intros n s Hs interrupted.
    destruct (run_resumed rng_next sin float_repr float_dec iso Hshort faults (new_simulator rng_seed c) n Hhash
      (new_simulator_ok rng_seed iso c Hcfg) ltac:(by vm_compute)) as (s2 & Hr2 & Hok2 & _ & _ & Hcf2 & Hres). rewrite Hr in Hr2. injection Hr2 as <-.
    split; [|unfold interrupted; by rewrite Hres]. destruct (run_loop_ok rng_next sin float_repr float_dec iso Hshort faults Hhash n (start (new_simulator rng_seed c)))
      as (s3 & Hl3 & _ & Hc3 & _); [|by vm_compute|]. { destruct (new_simulator_ok rng_seed iso c Hcfg). by split. }
    unfold interrupted. rewrite Hl3. cbn [fst]. change (sim_config (start (new_simulator rng_seed c))) with c in Hc3.
    unfold mbind, M_bind, restore, snapshot. cbn [sn_config sn_state sn_random]. rewrite Hs, Hc3, config_eqb_refl. cbn [negb].
    destruct s3 as [c3 st3 r3 b3]. cbn in Hc3. by subst c3.
Qed.


Definition toy_dec (x : bin) : dec := if fltb x (flit 5 (-1)) then Dec 1 (-1) else Dec 9 (-1).
Lemma toy_shortest : shortest_decimal toy_dec.
Proof.
  split; [|reflexivity..]. intros x y Hxy. unfold toy_dec. destruct (fltb y (flit 5 (-1))) eqn:Ey; [|by destruct (fltb x _)].
  assert (fltb x (flit 5 (-1)) = true) as ->; [|done]. unfold fltb in *. apply Z.ltb_ge in Hxy. apply Z.ltb_lt in Ey. apply Z.ltb_lt.
  change (bin_num (flit 5 (-1))) with 4503599627370496 in *. change (bin_den (flit 5 (-1))) with 9007199254740992 in *.
  assert (0 < bin_den x ∧ 0 < bin_den y) as [Hx Hy] by (split; apply Z.pow_pos_nonneg; lia). nia.
Qed.
Definition toy_scenario : document :=
  [("name", VStr "outage"); ("version", VStr "1.0.0"); ("seed", VInt 7); ("duration_hours", VInt 1);
   ("faults", VList [VDict [("step", VInt 1); ("kind", VStr "pv_error")]; VDict [("step", VInt 1); ("kind", VStr "island_mode")]])].

Lemma scenario_run_exact_witness :
  ∃ sc events, compile_scenario (λ _, "") toy_scenario = Ok sc ∧ length events = 4%nat ∧
    map (od_get "fault") events = [Some VNone; Some (VStr "island_mode"); Some VNone; Some VNone].
Proof.
  destruct (compile_scenario (λ _, "") toy_scenario) as [sc|] eqn:Ec; [|vm_compute in Ec; discriminate].
  destruct (scenario_run_exact (λ _, "") (λ z, z) (λ r, (flit 5 (-2), r + 1)) (λ x, x) (λ _, "0.5") toy_dec (λ _, "t") toy_shortest _ _ Ec)
    as (events & _ & Hl & _ & He & _).
  vm_compute in Ec. injection Ec as <-. cbn [sc_hours sc_faults] in *.
  exists (MkScenario "outage" "1.0.0" 7 1 [MkFault 1 "pv_error" "site"; MkFault 1 "island_mode" "site"]), events.
  assert (length events = 4%nat) as Hlen by lia. split_and!; [done|done|].
  destruct events as [|e0 [|e1 [|e2 [|e3 [|]]]]]; try done. cbn [map].
  destruct (He 0%nat e0 eq_refl) as (_ & -> & _). destruct (He 1%nat e1 eq_refl) as (_ & -> & _).
  destruct (He 2%nat e2 eq_refl) as (_ & -> & _). destruct (He 3%nat e3 eq_refl) as (_ & -> & _). vm_compute. reflexivity.
Defined.
