(* ===== verification/Api.v ===== *)
(** * The API's shared operations: [apps/api/main.py]

    The process state behind the handlers and the operations they share: the ban on inline secrets, a written
    resource with its audit record ([mutate]), an audited operation that runs once per idempotency key
    ([audited_operation]), and the collections and configuration routes built from them.

    The store is any [store_api] and the approval workflow any state; the audit log and the operation records
    are the in-process ones.  A response document is represented by what it is built from ([response]).  Digests
    of audit records and intents are parameters, and a datetime in a document is its text [dt_text]. *)
From S2P Require Import Prelude PyDecimal PyValue PyText Domain Settings Access Approval AuditLog Versions Store PlanDocument Operations.
Local Open Scope Z_scope.

(** ** Inline secrets *)

(** [str(key).lower().replace("-", "_")] *)
Definition normalize_key (k : string) : string :=
  String.string_of_list_ascii (map (λ c, if ord c =? 45 then chr 95 else to_lower c) (String.list_ascii_of_string k)).

Definition secret_names : list string := ["password"; "secret"; "token"; "private_key"; "credentials"].
Definition secret_suffixes : list string := ["_password"; "_secret"; "_token"; "_private_key"].
Definition secret_key (k : string) : bool :=
  let n := normalize_key k in
  negb (bool_decide (n = "credential_ref")) && (mem n secret_names || existsb (λ x, str_suffix x n) secret_suffixes).

Fixpoint reject_inline_secrets (v : pyval) (path : string) {struct v} : result unit :=
  let fix fields (kvs : list (string * pyval)) : result unit :=
    match kvs with
    | [] => Ok tt
    | (key, item) :: rest =>
        raise_if (secret_key key)
          (ValueError ("inline secret material is prohibited at " +:+ path +:+ "." +:+ key +:+ "; use credential_ref"));;
        reject_inline_secrets item (path +:+ "." +:+ key);;
        fields rest
    end in
  let fix items (l : list pyval) (index : Z) : result unit :=
    match l with
    | [] => Ok tt
    | item :: rest => reject_inline_secrets item (path +:+ "[" +:+ int_str index +:+ "]");; items rest (index + 1)
    end in
  match v with
  | VDict kvs => fields kvs
  | VList l => items l 0
  | _ => Ok tt
  end.

(** ** State and responses *)

Abbreviation rbody := (gmap string pyval).

Inductive response :=
| RResource (d : rbody)
| RApproval (a : ApprovalRequest)
| RSubmitted (plan : rbody) (approval : option ApprovalRequest)
| RDecided (a : ApprovalRequest) (plan : option rbody)
| RRolledBack (d : rbody) (from_version : Z).

Record api_state (S A : Type) := MkState {
  st_store : S; st_approvals : A; st_audit : list AuditRecord; st_ops : gmap (string * string) (string * string * response)
}.
Arguments MkState {S A} _ _ _ _.
Arguments st_store {S A} _.
Arguments st_approvals {S A} _.
Arguments st_audit {S A} _.
Arguments st_ops {S A} _.

Record ResourceRequest := MkResourceRequest { body_id : string; body_data : document }.

(** [serialize] *)
Definition serialize (r : StoredResource pyval) : rbody :=
  <["tenant_id" := VStr (res_tenant r)]> (<["etag" := VStr (etag r)]> (<["version" := VInt (version r)]> (body r))).

Section api.
Context {S A : Type} (api : store_api pyval S).
Context (audit_digest : audit_source → string) (intent_digest : pyval → string).

#[local] Abbreviation state := (api_state S A).

(** Running an operation of one component on the process state *)
Definition on_store {X} (m : M S X) : M state X := λ st,
  let '(s', r) := m (st_store st) in (MkState s' (st_approvals st) (st_audit st) (st_ops st), r).
Definition on_approvals {X} (m : M A X) : M state X := λ st,
  let '(a', r) := m (st_approvals st) in (MkState (st_store st) a' (st_audit st) (st_ops st), r).

Definition store_get (kd id tenant : string) : M state (StoredResource pyval) := λ st,
  (st, api_get api (tenant, kd, id) (st_store st)).

Definition audit_success (now : Z) (c : ApiContext) (action_ resource_ : string) : M state AuditRecord := λ st,
  let '(log, r) := AuditLog.mem_append audit_digest (DT now true)
    (MkEntry (ctx_actor c) (ctx_tenant c) action_ resource_ "success" (ctx_correlation c)) (st_audit st) in
  (MkState (st_store st) (st_approvals st) log (st_ops st), r).

Definition key_or (fallback : string) (c : ApiContext) : string := if given (ctx_key c) then default "" (ctx_key c) else fallback.

Definition mutate_put (kd : string) (b : ResourceRequest) (c : ApiContext) : put_request pyval :=
  MkPut kd (body_id b) (ctx_tenant c) (list_to_map (body_data b)) (key_or "missing" c) (ctx_if_match c).

Definition mutate (now : Z) (kd : string) (b : ResourceRequest) (c : ApiContext) : M state rbody :=
  mlift (reject_inline_secrets (VDict (body_data b)) "body");;
  r ← on_store (api_put api now (mutate_put kd b c));
  audit_success now c (kd +:+ ".write") (body_id b);;
  mret (serialize r).

(** [audited_operation]: [OperationIdempotency.execute_once] around the callback and its audit record *)
Definition audited_operation (now : Z) (c : ApiContext) (operation resource_ : string) (intent : pyval)
    (callback : M state response) : M state response := λ st,
  let rq := MkRequest (ctx_tenant c) (key_or "missing-idempotency-key" c) operation (intent_digest intent) in
  match request_guard rq with
  | Err e => (st, Err e)
  | Ok _ =>
      match st_ops st !! rq_ident rq with
      | Some (previous_operation, previous_digest, v) =>
          (st, check_identity previous_operation previous_digest rq;; Ok v)
      | None =>
          match (v ← callback; audit_success now c operation resource_;; mret v) st with
          | (st', Err e) => (st', Err e)
          | (st', Ok v) =>
              (MkState (st_store st') (st_approvals st') (st_audit st')
                 (<[rq_ident rq := (rq_operation rq, rq_digest rq, v)]> (st_ops st')), Ok v)
          end
      end
  end.

Definition require_if_match (c : ApiContext) (current : StoredResource pyval) : result unit :=
  raise_if (bool_decide (ctx_if_match c = None)) (RuntimeError "If-Match is required for this state transition");;
  raise_if (negb (bool_decide (ctx_if_match c = Some (etag current)))) (RuntimeError "If-Match optimistic concurrency conflict").

(** [{key: value for key, value in body.items() if key != "id"}] *)
Definition without_id (b : rbody) : rbody := delete "id" b.

(** ** Collections *)

Definition GENERIC_COLLECTIONS : list (string * string) :=
  [("/v1/jobs", "job"); ("/v1/reservations", "reservation"); ("/v1/tariffs", "tariff"); ("/v1/energy/assets", "energy_asset");
   ("/v1/connectors", "connector"); ("/v1/mpc/controllers", "mpc_controller"); ("/v1/tenants", "tenant"); ("/v1/users", "user");
   ("/v1/roles", "role"); ("/v1/budgets", "budget"); ("/v1/notifications/routes", "notification_route");
   ("/v1/admin/connectors", "admin_connector"); ("/v1/admin/models", "admin_model"); ("/v1/admin/solvers", "admin_solver");
   ("/v1/emergency/events", "emergency_event")].

(** The [create] that [register_collection] makes for a kind *)
Definition collection_create (now : Z) (kd : string) (b : ResourceRequest) (c : ApiContext) : M state rbody := λ st,
  let published :=
    match api_get api (ctx_tenant c, kd, body_id b) (st_store st) with
    | Ok r => Ok (py_eq (default VNone (body r !! "status")) (VStr "published"))
    | Err (KeyError _) => Ok false
    | Err e => Err e
    end in
  if bool_decide (kd = "tariff") then
    match published with
    | Ok true => (st, Err (ValueError "published tariff versions are immutable; create a new tariff ID"))
    | Ok false => mutate now kd b c st
    | Err e => (st, Err e)
    end
  else mutate now kd b c st.

Definition update_admin_config (now : Z) (b : ResourceRequest) (c : ApiContext) : M state rbody := mutate now "admin_config" b c.

Definition rollback_put (c : ApiContext) (config_id : string) (target : StoredResource pyval) : put_request pyval :=
  MkPut "admin_config" config_id (ctx_tenant c) (without_id (body target)) (key_or "missing" c) (ctx_if_match c).

Definition rollback_callback (now : Z) (config_id : string) (target_version : Z) (c : ApiContext) : M state response :=
  current ← store_get "admin_config" config_id (ctx_tenant c);
  mguard (negb (bool_decide (Some (etag current) = ctx_if_match c))) (RuntimeError "If-Match optimistic concurrency conflict");;
  target ← (λ st : state, (st, api_get_version api (ctx_tenant c, "admin_config", config_id) target_version (st_store st)));
  restored ← on_store (api_put api now (rollback_put c config_id target));
  mret (RRolledBack (serialize restored) target_version).

Definition rollback_admin_config (now : Z) (config_id : string) (target_version : Z) (c : ApiContext) : M state response :=
  mguard (bool_decide (ctx_if_match c = None)) (RuntimeError "If-Match is required for configuration rollback");;
  audited_operation now c "admin_config.rollback" config_id
    (VDict [("target_version", VInt target_version); ("if_match", VStr (default "" (ctx_if_match c)))])
    (rollback_callback now config_id target_version c).
End api.

(** ** No inline secrets *)

(** [k] is a key of a dict somewhere in [v]. *)
Inductive occurs : pyval → string → Prop :=
| occurs_here kvs k v : (k, v) ∈ kvs → occurs (VDict kvs) k
| occurs_field kvs k v k' : (k, v) ∈ kvs → occurs v k' → occurs (VDict kvs) k'
| occurs_item l v k : v ∈ l → occurs v k → occurs (VList l) k.

Lemma occurs_dict_cons key item rest k : occurs (VDict ((key, item) :: rest)) k ↔ k = key ∨ occurs item k ∨ occurs (VDict rest) k.
Proof.
  split.
  - inversion 1 as [? ? v Hin|? k1 v ? Hin Hocc|]; subst; apply elem_of_cons in Hin as [[= -> ->]|Hin]; auto.
    + right. right. by eapply occurs_here.
    + right. right. by eapply occurs_field.
  - intros [->|[H|H]]; [eapply occurs_here; by left|eapply occurs_field; [by left|done]|].
    inversion H; subst; [eapply occurs_here; by right|eapply occurs_field; [by right|done]].
Qed.

Lemma occurs_list_cons item rest k : occurs (VList (item :: rest)) k ↔ occurs item k ∨ occurs (VList rest) k.
Proof.
  split.
  - inversion 1 as [| |? v ? Hin Hocc]; subst. apply elem_of_cons in Hin as [->|Hin]; [by left|]. right. by eapply occurs_item.
  - intros [H|H]; [eapply occurs_item; [by left|done]|]. inversion H; subst. eapply occurs_item; [by right|done].
Qed.

Definition clean (v : pyval) : Prop := ∀ k, occurs v k → secret_key k = false.
Definition refused (r : result unit) (P : Prop) : Prop := (r = Ok tt ∧ P) ∨ (∃ msg, r = Err (ValueError msg)) ∧ ¬ P.

(** A test, then two parts, against the conjunction of what they decide *)
Lemma refused_seq (b : bool) msg r1 r2 (P1 P2 Q : Prop) : refused r1 P1 → refused r2 P2 → (Q ↔ b = false ∧ P1 ∧ P2) →
  refused (raise_if b (ValueError msg);; r1;; r2) Q.
Proof.
  intros H1 H2 HQ. unfold raise_if, mbind, result_bind. destruct b; [right; split; [eauto|naive_solver]|].
  destruct H1 as [[-> ?]|[[m ->] ?]]; [|right; split; [eauto|naive_solver]].
  destruct H2 as [[-> ?]|[[m ->] ?]]; [left|right; split; [eauto|]]; naive_solver.
Qed.

Lemma reject_exact : ∀ v path, refused (reject_inline_secrets v path) (clean v).
Proof.
  fix IH 1. intros [| | | | | |l|kvs] path; try (left; split; [done|]; by inversion 1).
  - simpl. generalize 0. induction l as [|item rest IHl]; intros index.
    + left. split; [done|]. intros k Hk. inversion Hk as [| |? ? ? Hin]. by apply elem_of_nil in Hin.
    + apply (refused_seq false "" _ _ _ _ _ (IH item _) (IHl (index + 1))). unfold clean. setoid_rewrite occurs_list_cons. naive_solver.
  - simpl. induction kvs as [|[key item] rest IHl].
    + left. split; [done|]. intros k Hk. inversion Hk as [? ? ? Hin|? ? ? ? Hin|]; by apply elem_of_nil in Hin.
    + apply (refused_seq _ _ _ _ _ _ _ (IH item _) IHl). unfold clean. setoid_rewrite occurs_dict_cons. naive_solver.
Qed.

(** Inline secrets are found wherever they are.  A document passes the check exactly when no key of any dict
    inside it, at any depth, names secret material; otherwise the check raises [ValueError]. *)
Theorem inline_secrets_exact (v : pyval) (path : string) :
  (reject_inline_secrets v path = Ok tt ↔ ∀ k, occurs v k → secret_key k = false) ∧
  (∀ e, reject_inline_secrets v path = Err e → ∃ msg, e = ValueError msg).
Proof. destruct (reject_exact v path) as [[-> H]|[[m ->] H]]; split; naive_solver. Qed.

Example secret_samples :
  map secret_key ["Password"; "db-password"; "credential_ref"; "Credential-Ref"; "tokens"; "api_TOKEN"; "max_tokens"]
  = [true; true; false; false; false; true; false].
Proof. by vm_compute. Qed.

(** ** Audited operations *)

Section facts.
Context {S A : Type} (api : store_api pyval S) (inv : S → Prop) `{!StoreLaws api inv}.
Context (audit_digest : audit_source → string) (intent_digest : pyval → string).

#[local] Abbreviation state := (api_state S A).
#[local] Abbreviation operate := (audited_operation (S:=S) (A:=A) audit_digest intent_digest).

(** The entry of a successful operation *)
Definition success_entry (c : ApiContext) (operation resource_ : string) : audit_entry :=
  MkEntry (ctx_actor c) (ctx_tenant c) operation resource_ "success" (ctx_correlation c).

Lemma audited_run now c operation resource_ intent callback st st' v :
  operate now c operation resource_ intent callback st = (st', Ok v) →
  let ident := (ctx_tenant c, key_or "missing-idempotency-key" c) in
  st_ops st' !! ident = Some (operation, intent_digest intent, v) ∧
  (st' = st ∨ ∃ st1, callback st = (st1, Ok v) ∧ st_store st' = st_store st1 ∧ st_approvals st' = st_approvals st1 ∧
     st_audit st' = st_audit st1 ++ [chained audit_digest (last_hash (st_audit st1)) (DT now true) (success_entry c operation resource_)]).
Proof.
  unfold audited_operation. set (rq := MkRequest _ _ _ _). destruct (request_guard rq) as [[]|]; [|done].
  destruct (st_ops st !! rq_ident rq) as [[[po pd] pv]|] eqn:Eo.
  - unfold check_identity, raise_if, mbind, result_bind. destruct (_ || _) eqn:Ec; [done|]. intros [= <- <-]. bprop. simpl in *. subst.
    split; [done|by left].
  - unfold mbind, M_bind, mret, M_ret. destruct (callback st) as [st1 [v1|e]] eqn:Ecb; [|done].
    destruct (audit_success audit_digest now c operation resource_ st1) as [st2 [rec|e]] eqn:Ea; [|done].
    intros [= <- <-]. unfold audit_success, AuditLog.mem_append in Ea. injection Ea as <- _. simpl.
    split; [by rewrite lookup_insert_eq|]. right. exists st1. done.
Qed.

Lemma audited_replay now c operation resource_ intent callback st v :
  request_guard (MkRequest (ctx_tenant c) (key_or "missing-idempotency-key" c) operation (intent_digest intent)) = Ok tt →
  st_ops st !! (ctx_tenant c, key_or "missing-idempotency-key" c) = Some (operation, intent_digest intent, v) →
  operate now c operation resource_ intent callback st = (st, Ok v).
Proof.
  intros Hg Ho. unfold audited_operation. rewrite Hg. unfold rq_ident. simpl. rewrite Ho.
  unfold check_identity, raise_if, mbind, result_bind. simpl. by rewrite !bool_decide_true.
Qed.

Lemma audited_guard now c operation resource_ intent callback st st' v :
  operate now c operation resource_ intent callback st = (st', Ok v) →
  request_guard (MkRequest (ctx_tenant c) (key_or "missing-idempotency-key" c) operation (intent_digest intent)) = Ok tt.
Proof. unfold audited_operation. by destruct (request_guard _) as [[]|]. Qed.
End facts.

(** An audited operation leaves the store as it was or as its callback leaves it. *)
Lemma audited_store {S A : Type} audit_digest intent_digest now c operation resource_ intent (callback : M (api_state S A) response) (st : api_state S A) (R : S → Prop) :
  R (st_store st) → R (st_store (callback st).1) →
  R (st_store (audited_operation audit_digest intent_digest now c operation resource_ intent callback st).1).
Proof.
  intros H0 H1. unfold audited_operation. destruct (request_guard _) as [[]|]; [|done]. destruct (st_ops st !! _) as [[[? ?] ?]|]; [done|].
  unfold mbind, M_bind, mret, M_ret. destruct (callback st) as [st1 [v|e]]; [|done]. unfold audit_success, AuditLog.mem_append. done.
Qed.

(** A written resource changes the store by its put alone. *)
Lemma mutate_store {S A : Type} (api : store_api pyval S) audit_digest now kd b c (st : api_state S A) (R : S → Prop) :
  R (st_store st) → R (api_put api now (mutate_put kd b c) (st_store st)).1 → R (st_store (mutate api audit_digest now kd b c st).1).
Proof.
  intros H0 H1. unfold mutate, mbind, M_bind, mlift. destruct (reject_inline_secrets _ _) as [[]|]; [|done]. unfold on_store.
  destruct (api_put _ _ _ _) as [s' [r|e]]; exact H1.
Qed.

(** C27: An audited operation takes effect once and is on the record.  When it succeeds, either it was a repeat and
    nothing changed, or the callback ran and succeeded, and exactly one record of this actor and operation was
    added to the audit log after whatever the callback did.  From then on, in any state that still has the
    operation records, the same key with the same operation and intent answers the same response without running
    a callback, and another operation or intent under that key is refused, also without running anything. *)
Theorem audited_operation_once {S A : Type} (audit_digest : audit_source → string) (intent_digest : pyval → string)
    (now : Z) (c : ApiContext) (operation resource_ : string) (intent : pyval) (callback : M (api_state S A) response)
    (st st' : api_state S A) (v : response)
    (Hrun : audited_operation audit_digest intent_digest now c operation resource_ intent callback st = (st', Ok v)) :
  (st' = st ∨ ∃ st1, callback st = (st1, Ok v) ∧ st_store st' = st_store st1 ∧ st_approvals st' = st_approvals st1 ∧
     st_audit st' = st_audit st1 ++ [chained audit_digest (last_hash (st_audit st1)) (DT now true) (success_entry c operation resource_)]) ∧
  ∀ now' c' operation' resource' intent' (callback' : M (api_state S A) response) (st'' : api_state S A), st_ops st' ⊆ st_ops st'' →
    ctx_tenant c' = ctx_tenant c → ctx_key c' = ctx_key c →
    audited_operation audit_digest intent_digest now' c' operation' resource' intent' callback' st'' =
      (st'', if decide (operation' = operation ∧ intent_digest intent' = intent_digest intent) then Ok v
             else if decide (operation' = "") then Err (ValueError "tenant, operation and an idempotency key of at least 8 characters are required")
             else Err (ValueError "idempotency key reused with a different API operation")).
Proof.
  pose proof (audited_guard _ _ _ _ _ _ _ _ _ _ _ Hrun) as Hg. destruct (audited_run _ _ _ _ _ _ _ _ _ _ _ Hrun) as [Ho Hst].
  split; [exact Hst|]. intros now' c' op' res' int' cb' st'' Hsub Ht Hk.
  assert (key_or "missing-idempotency-key" c' = key_or "missing-idempotency-key" c) as Hkey by (unfold key_or; by rewrite Hk).
  assert (st_ops st'' !! (ctx_tenant c', key_or "missing-idempotency-key" c') = Some (operation, intent_digest intent, v)) as Ho'.
  { rewrite Ht, Hkey. by eapply lookup_weaken. }
  unfold audited_operation. unfold request_guard, raise_if in *. simpl in *. rewrite Ht, Hkey in *.
  destruct (bool_decide (ctx_tenant c = "") || _) eqn:E1; [done|]. simpl in *. case_bool_decide as Eop; [done|]. clear Hg.
  destruct (decide (op' = operation ∧ intent_digest int' = intent_digest intent)) as [[-> Hint]|Hne].
  - rewrite Hint, bool_decide_false by done. unfold rq_ident. simpl. rewrite Ho'.
    unfold check_identity, raise_if, mbind, result_bind. simpl. by rewrite !bool_decide_true.
  - destruct (decide (op' = "")) as [->|Hop]; [done|]. rewrite bool_decide_false by done. unfold rq_ident. simpl. rewrite Ho'.
    unfold check_identity, raise_if, mbind, result_bind. simpl.
    destruct (decide (operation = op')) as [->|]; [|by rewrite bool_decide_false].
    rewrite bool_decide_true by done. simpl. by rewrite bool_decide_false by naive_solver.
Qed.

Lemma audited_operation_once_witness :
  let c := MkContext "acme" "bob" {["operator"]} "corr-1" (Some "key-0001") None in
  let st0 := MkState 0%nat 0%nat [] ∅ in
  let run := audited_operation (λ _, "hash") (λ _, "digest") 5 c "plan.touch" "plan-1" VNone
    (λ st : api_state nat nat, (MkState (st_store st + 1)%nat (st_approvals st) (st_audit st) (st_ops st), Ok (RResource ∅))) in
  st_store (run st0).1 = 1%nat ∧ run (run st0).1 = ((run st0).1, Ok (RResource ∅)) ∧ length (st_audit (run st0).1) = 1%nat.
Proof.
  intros c st0 run. split; [reflexivity|]. split; [|reflexivity].
  destruct (audited_operation_once (λ _, "hash") (λ _, "digest") 5 c "plan.touch" "plan-1" VNone
    (λ st : api_state nat nat, (MkState (st_store st + 1)%nat (st_approvals st) (st_audit st) (st_ops st), Ok (RResource ∅)))
    st0 (run st0).1 (RResource ∅) eq_refl) as [_ H].
  exact (H 5 c "plan.touch" "plan-1" VNone _ (run st0).1 (reflexivity _) eq_refl eq_refl).
Defined.

(** ** Stored documents *)

Lemma json_safe_idem : ∀ v, json_safe_val (json_safe_val v) = json_safe_val v.
Proof.
  fix IH 1. intros [| | | | | |l|kvs]; try reflexivity.
  - simpl. f_equal. induction l as [|v l IHl]; simpl; [reflexivity|]. f_equal; [apply IH|exact IHl].
  - simpl. f_equal. induction kvs as [|[k v] kvs IHl]; simpl; [reflexivity|]. f_equal; [f_equal; apply IH|exact IHl].
Qed.

Lemma transport_idem tr v : transport tr → tr (tr v) = tr v.
Proof. intros []; [done|apply json_safe_idem]. Qed.

Lemma transport_str tr s : transport tr → tr (VStr s) = VStr s.
Proof. by intros []. Qed.

Section documents.
Context {S A : Type} (api : store_api pyval S) (inv : S → Prop) `{!StoreLaws api inv}.
Context (audit_digest : audit_source → string) (intent_digest : pyval → string).
Context (tr : pyval → pyval) (Htr : transport tr).
Context (Hstored : ∀ q, api_stored api q = <["id" := VStr (put_id q)]> (tr <$> put_body q)).

(** Every stored body carries its id and is what a round trip of itself gives. *)
Definition documents_ok (s : S) : Prop :=
  ∀ k, Forall (λ r, tr <$> body r = body r ∧ body r !! "id" = Some (VStr k.2)) (api_history api k s).

Lemma stored_document q : tr <$> api_stored api q = api_stored api q ∧ api_stored api q !! "id" = Some (VStr (put_id q)).
Proof using Htr Hstored.
  rewrite Hstored, lookup_insert_eq. split; [|done]. rewrite fmap_insert, (transport_str tr _ Htr), <- map_fmap_compose. f_equal.
  apply map_fmap_ext. intros i x _. simpl. by apply transport_idem.
Qed.

Lemma put_documents now q s : inv s → documents_ok s → documents_ok (api_put api now q s).1.
Proof using StoreLaws0 Htr Hstored.
  intros Hi Hd k. destruct (put_cases api inv now q s Hi) as [_ [H|[r H]]]; [by rewrite H|].
  rewrite (ap_history _ _ _ _ _ H). apply Forall_app. split; [apply Hd|]. case_decide as Hk; [|constructor]. subst k.
  repeat constructor; rewrite (ap_body _ _ _ _ _ H); apply stored_document.
Qed.

Lemma run_documents ops : documents_ok (run api ops (api_init api)) ∧ inv (run api ops (api_init api)).
Proof using StoreLaws0 Htr Hstored.
  assert (documents_ok (api_init api) ∧ inv (api_init api)) as H0.
  { split; [|apply sl_init]. intros k. rewrite sl_empty. constructor. }
  revert H0. generalize (api_init api) as s. unfold run.
  induction ops as [|[now q] ops IH]; intros s [Hd Hi]; [done|]. apply IH. split; [by apply put_documents|].
  by destruct (put_cases api inv now q s Hi).
Qed.

(** A restored document is the one it was taken from. *)
Lemma restore_document c id r : tr <$> body r = body r → body r !! "id" = Some (VStr id) →
  api_stored api (rollback_put c id r) = body r.
Proof using Hstored.
  intros Hb Hid. rewrite Hstored. simpl. unfold without_id. apply map_eq. intros k. destruct (decide (k = "id")) as [->|Hk].
  - by rewrite lookup_insert_eq.
  - rewrite lookup_insert_ne, lookup_fmap, lookup_delete_ne by done. rewrite <- lookup_fmap. by rewrite Hb.
Qed.
End documents.

(** C28: A configuration rollback restores a version without losing one.  In a store reached by puts, a rollback
    that succeeds either was a repeat and leaves the store's histories as they were, or appends one version to the
    history of the configuration: its document is exactly that of the target version, its predecessor is the
    version that If-Match named, and the versions before it are untouched. *)
Theorem config_rollback_restores {S A : Type} (api : store_api pyval S) (inv : S → Prop) `{!StoreLaws api inv}
    (audit_digest : audit_source → string) (intent_digest : pyval → string) (tr : pyval → pyval) (Htr : transport tr)
    (Hstored : ∀ q, api_stored api q = <["id" := VStr (put_id q)]> (tr <$> put_body q))
    (ops : list (Z * put_request pyval)) (now : Z) (config_id : string) (target_version : Z) (c : ApiContext)
    (st st' : api_state S A) (v : response) (Hst : st_store st = run api ops (api_init api))
    (Hrun : rollback_admin_config api audit_digest intent_digest now config_id target_version c st = (st', Ok v)) :
  let k := (ctx_tenant c, "admin_config", config_id) in
  let before := api_history api k (st_store st) in
  (∀ k', api_history api k' (st_store st') = api_history api k' (st_store st)) ∨
  ∃ current target r, last before = Some current ∧ ctx_if_match c = Some (etag current) ∧
    1 <= target_version ∧ before !! Z.to_nat (target_version - 1) = Some target ∧
    api_history api k (st_store st') = before ++ [r] ∧ body r = body target ∧
    (∀ k', k' ≠ k → api_history api k' (st_store st') = api_history api k' (st_store st)).
Proof.
  intros k before. destruct (run_documents api inv tr Htr Hstored ops) as [Hd Hi]. rewrite <- Hst in Hd, Hi.
  revert Hrun. unfold rollback_admin_config, mguard, raise_if, mbind at 1, M_bind at 1. case_bool_decide as Hm; [done|]. intros Hrun.
  destruct (audited_run _ _ _ _ _ _ _ _ _ _ _ Hrun) as [_ [->|(st1 & Hcb & Hs & _)]]; [by left|]. rewrite Hs. clear Hrun Hs.
  revert Hcb. unfold rollback_callback, store_get, on_store, mguard, mret, M_ret, raise_if, mbind, M_bind. fold k.
  destruct (sl_reads (st_store st) k Hi) as [_ _ Hget Hver]. rewrite Hget, Hver. fold before.
  destruct (last before) as [current|] eqn:El; [|done]. simpl. case_bool_decide as Et; [|done]. simpl.
  destruct (1 <=? target_version) eqn:E1; [|done]. destruct (before !! _) as [target|] eqn:Eg; [|done]. simpl.
  pose proof (sl_put now (rollback_put c config_id target) (st_store st) Hi) as Hp.
  destruct (api_put api now (rollback_put c config_id target) (st_store st)) as [s' [r|e]]; [|done]. intros [= <- _]. simpl.
  destruct Hp as [_ [H|H]]; [by left|]. right. exists current, target, r. bprop. split_and!; try done.
  - rewrite (ap_history _ _ _ _ _ H). by rewrite decide_True.
  - rewrite (ap_body _ _ _ _ _ H). specialize (Hd k). fold before in Hd. rewrite Forall_forall in Hd.
    destruct (Hd target) as [H1 H2]; [by eapply list_elem_of_lookup_2|]. by eapply restore_document.
  - intros k' Hk'. rewrite (ap_history _ _ _ _ _ H). rewrite decide_False by done. by rewrite app_nil_r.
Qed.

(** A store with toy digests *)
Abbreviation toy_store := (mem_api VStr (λ kd id (b : gmap string pyval), kd +:+ "/" +:+ id) (λ t kd v (b : gmap string pyval), int_str v)).

Lemma toy_stored q : api_stored toy_store q = <["id" := VStr (put_id q)]> (id <$> put_body q).
Proof. cbn [api_stored mem_api]. unfold normalized. by rewrite map_fmap_id. Qed.

Definition config_put (n : Z) (key : string) (m : option string) : put_request pyval :=
  MkPut "admin_config" "cfg" "acme" {["limit" := VInt n]} key m.

Lemma config_rollback_restores_witness :
  let st := MkState (run toy_store [(0, config_put 1 "k1" None); (1, config_put 2 "k2" (Some "1"))] (api_init toy_store)) tt [] ∅ in
  let c := MkContext "acme" "bob" {["admin"]} "corr-1" (Some "key-0001") (Some "2") in
  let out := rollback_admin_config toy_store (λ _, "hash") (λ _, "digest") 5 "cfg" 1 c st in
  is_ok out.2 = true ∧ map (λ r, body r !! "limit") (api_history toy_store ("acme", "admin_config", "cfg") (st_store out.1))
    = [Some (VInt 1); Some (VInt 2); Some (VInt 1)] ∧
  ((∀ k', api_history toy_store k' (st_store out.1) = api_history toy_store k' (st_store st)) ∨
   ∃ current target r, last (api_history toy_store ("acme", "admin_config", "cfg") (st_store st)) = Some current ∧ Some "2" = Some (etag current) ∧
    1 <= 1 ∧ api_history toy_store ("acme", "admin_config", "cfg") (st_store st) !! Z.to_nat (1 - 1) = Some target ∧
    api_history toy_store ("acme", "admin_config", "cfg") (st_store out.1) = api_history toy_store ("acme", "admin_config", "cfg") (st_store st) ++ [r] ∧
    body r = body target ∧
    (∀ k', k' ≠ ("acme", "admin_config", "cfg") → api_history toy_store k' (st_store out.1) = api_history toy_store k' (st_store st))).
Proof.
  intros st c out. split; [by vm_compute|]. split; [by vm_compute|]. destruct (out.2) as [v|] eqn:E; [|by vm_compute in E].
  exact (config_rollback_restores toy_store mem_inv (λ _, "hash") (λ _, "digest") id direct toy_stored
    [(0, config_put 1 "k1" None); (1, config_put 2 "k2" (Some "1"))] 5 "cfg" 1 c st out.1 v eq_refl
    (eq_trans (surjective_pairing out) (f_equal (pair out.1) E))).
Defined.

(** A published tariff is not written through its collection, whatever If-Match says. *)
Lemma published_tariff_immutable {S A : Type} (api : store_api pyval S) (audit_digest : audit_source → string) now b c (st : api_state S A) r :
  api_get api (ctx_tenant c, "tariff", body_id b) (st_store st) = Ok r → body r !! "status" = Some (VStr "published") →
  collection_create api audit_digest now "tariff" b c st
  = (st, Err (ValueError "published tariff versions are immutable; create a new tariff ID")).
Proof. intros Hg Hs. unfold collection_create. rewrite bool_decide_true by done. rewrite Hg, Hs. done. Qed.
