(* ===== verification/Governance.v ===== *)
(** * Governed plans, approvals and actions in the API: [apps/api/main.py], [apps/worker/main.py]

    The handlers under [/v1/plans], [/v1/approvals] and [/v1/actions], composed of the resource store, the
    approval workflow, the action guard and the idempotency store, and the worker's [resource_put] job.

    The handlers are proved against interfaces: [StoreLaws] for the store and [ApprovalLaws] for the approval
    workflow, which both its backends discharge.  [gov_step] interleaves the reads and writes of any number of
    requests: a write is prepared from what a request read and may reach the store any time later.
    [datetime.fromisoformat] and the text of a datetime are parameters. *)
From S2P Require Import Prelude PyDecimal PyValue PyText Domain Settings Access Approval Guard Plans AuditLog Versions Store PlanDocument Operations Api.
From stdpp Require Import relations.
Local Open Scope Z_scope.

(** ** What the approval workflow promises *)

Record approval_api (A : Type) := MkApprovalApi {
  aa_init : A;
  aa_create : ApprovalRequest → M A unit;
  (** tenant, approval, then the arguments of the call *)
  aa_approve : string → string → string → string → datetime → M A ApprovalRequest;
  aa_reject : string → string → M A ApprovalRequest;
  aa_modify : string → string → string → datetime → gset string → Z → M A ApprovalRequest;
  aa_get : string → string → M A ApprovalRequest;
  (** the request a tenant sees under an id *)
  aa_view : A → string → string → option ApprovalRequest
}.
Arguments aa_init {A} _.
Arguments aa_create {A} _ _ _.
Arguments aa_approve {A} _ _ _ _ _ _ _.
Arguments aa_reject {A} _ _ _ _.
Arguments aa_modify {A} _ _ _ _ _ _ _ _.
Arguments aa_get {A} _ _ _ _.
Arguments aa_view {A} _ _ _ _.

Definition aa_step {A} (aa : approval_api A) (o : approval_op) (a : A) : A :=
  match o with
  | OpCreate r => (aa_create aa r a).1
  | OpApprove t id actor role now => (aa_approve aa t id actor role now a).1
  | OpReject t id => (aa_reject aa t id a).1
  | OpModify t id actor e roles n => (aa_modify aa t id actor e roles n a).1
  end.

Class ApprovalLaws {A} (aa : approval_api A) (ainv : A → Prop) : Prop := {
  al_init : ainv (aa_init aa);
  al_step : ∀ o a, op_fresh o → ainv a → ainv (aa_step aa o a);
  al_sound : ∀ a t id r, ainv a → aa_view aa a t id = Some r → sound_request r;
  (** a decided request stays as it is *)
  al_settled : ∀ o a t id r, op_fresh o → ainv a → aa_view aa a t id = Some r → req_status r ≠ PENDING →
    ∃ r', aa_view aa (aa_step aa o a) t id = Some r' ∧ r' ≡ r;
  al_approve : ∀ t id actor role now a a' r, ainv a → aa_approve aa t id actor role now a = (a', Ok r) → aa_view aa a' t id = Some r;
  al_reject : ∀ t id a a' r, ainv a → aa_reject aa t id a = (a', Ok r) → aa_view aa a' t id = Some r ∧ req_status r = REJECTED;
  al_get : ∀ t id a, ainv a → (aa_get aa t id a).1 = a ∧ ∀ r, (aa_get aa t id a).2 = Ok r → aa_view aa a t id = Some r
}.

(** The machine of one request: what it returns is its new state, and it does not touch a decided one. *)
Lemma spec_approve_returns actor role now r x : (spec_approve actor role now r).2 = Ok x → x = (spec_approve actor role now r).1.
Proof.
  unfold spec_approve. munfold. guard_case as Ep; [done|]. destruct (dt_leb _ _) as [[]|]; simpl; try done.
  guard_case as Ea; [done|]. guard_case as Er; [done|]. if_case as Em; by intros [= <-].
Qed.
Lemma spec_reject_returns r x : (spec_reject r).2 = Ok x → x = (spec_reject r).1 ∧ req_status x = REJECTED.
Proof.
  unfold spec_reject. munfold. if_case as E; [intros [= <-]; by bprop|]. guard_case as Ep; [done|]. by intros [= <-].
Qed.
Lemma spec_approve_settled actor role now r : req_status r ≠ PENDING → (spec_approve actor role now r).1 = r.
Proof. intros H. unfold spec_approve. munfold. by rewrite bool_decide_false. Qed.
Lemma spec_reject_settled r : req_status r ≠ PENDING → (spec_reject r).1 = r.
Proof. intros H. unfold spec_reject. munfold. case_bool_decide; [done|]. by rewrite bool_decide_false. Qed.
Lemma spec_modify_settled actor e roles n r : req_status r ≠ PENDING → (spec_modify actor e roles n r).1 = r.
Proof. intros H. unfold spec_modify, validate_modification. munfold. by rewrite bool_decide_false. Qed.

(** *** In process *)

Definition mem_approvals : approval_api mem_requests := MkApprovalApi _ ∅ mem_create
  (λ _ id actor role now, mem_approve id actor role now) (λ _ id, mem_reject id)
  (λ _ id actor e roles n, mem_modify id actor e roles n) (λ _ id, Approval.mem_get id) (λ s _ id, s !! id).

Lemma on_request_view id (m : M ApprovalRequest ApprovalRequest) s id' r : s !! id' = Some r → (req_status r ≠ PENDING → (m r).1 = r) →
  req_status r ≠ PENDING → (on_request id m s).1 !! id' = Some r.
Proof.
  intros Hs Hm Hr. unfold on_request. destruct (s !! id) as [r0|] eqn:E; [|done]. simpl. destruct (decide (id' = id)) as [->|Hne].
  - rewrite lookup_insert_eq. f_equal. rewrite Hs in E. injection E as <-. by apply Hm.
  - by rewrite lookup_insert_ne.
Qed.

#[global] Instance mem_approval_laws : ApprovalLaws mem_approvals mem_sound.
Proof.
  split.
  - apply map_Forall_empty.
  - intros o a Hf Hs. destruct o; simpl; by apply (mem_step_sound a _ Hf Hs).
  - intros a t id r Hs Hr. by apply (Hs id).
  - intros o a t id r Hf _ Hr Hp. exists r. split; [|done]. simpl in Hr.
    destruct o as [r0|t0 id0 actor role now|t0 id0|t0 id0 actor e roles n]; simpl.
    + unfold mem_create. munfold. destruct (create_guard r0) as [[]|]; [|done]. simpl.
      destruct (a !! req_id r0) as [old|] eqn:E; simpl; [done|]. rewrite lookup_insert_ne; [done|]. congruence.
    + rewrite mem_approve_spec. apply on_request_view; [done| |done]. apply spec_approve_settled.
    + rewrite mem_reject_spec. apply on_request_view; [done| |done]. apply spec_reject_settled.
    + rewrite mem_modify_spec. apply on_request_view; [done| |done]. apply spec_modify_settled.
  - intros t id actor role now a a' r _. cbn [aa_approve aa_view mem_approvals]. rewrite mem_approve_spec. unfold on_request.
    destruct (a !! id) as [r0|]; [|done]. intros [= <- Hr]. rewrite lookup_insert_eq. f_equal. symmetry. by eapply spec_approve_returns.
  - intros t id a a' r _. cbn [aa_reject aa_view mem_approvals]. rewrite mem_reject_spec. unfold on_request.
    destruct (a !! id) as [r0|]; [|done]. intros [= <- Hr]. rewrite lookup_insert_eq. apply spec_reject_returns in Hr as [-> ?]. done.
  - intros t id a _. simpl. unfold Approval.mem_get, mem_lookup. munfold. split; [done|]. by destruct (a !! id) as [r0|]; intros r [= <-].
Qed.

(** *** PostgreSQL *)

Section pg_approvals.
Context (txn : ∀ S A, M S A → M S A) `{!Transactional txn}.

Definition pg_approvals : approval_api approval_db := MkApprovalApi _ (MkDb ∅ []) (pg_create txn) (pg_approve txn) (pg_reject txn)
  (pg_modify txn) (Approval.pg_get txn) pg_view.

(** A call for a tenant that is not named only raises. *)
Lemma pg_runs_or_refused t id m (op : M approval_db ApprovalRequest) : (t ≠ "" → pg_runs t id m op) →
  (t = "" → ∀ db, ∃ e, op db = (db, Err e)) → ∀ db,
  (∃ e, op db = (db, Err e)) ∨
  ∃ r db' x, pg_view db t id = Some r ∧ op db = (db', Ok x) ∧ (∃ y, (m r).2 = Ok y) ∧ x ≡ (m r).1 ∧ pg_view db' t id = Some x ∧
    ∀ t' id', (t', id') ≠ (t, id) → pg_view db' t' id' = pg_view db t' id'.
Proof.
  intros Hrun Href db. destruct (decide (t = "")) as [Ht|Ht]; [left; by apply Href|]. specialize (Hrun Ht db).
  destruct (pg_view db t id) as [r|] eqn:Ev; [|left; eauto]. destruct (m r) as [r' [y|e]] eqn:Em; [|left; eauto].
  destruct Hrun as (db' & x & H1 & H2 & H3 & H4 & _). right. exists r, db', x. rewrite Em. split_and!; eauto.
Qed.

Lemma approve_or_refused t id actor role now db :
  let op := pg_approve txn t id actor role now in let m := spec_approve actor role now in
  (∃ e, op db = (db, Err e)) ∨
  ∃ r db' x, pg_view db t id = Some r ∧ op db = (db', Ok x) ∧ (∃ y, (m r).2 = Ok y) ∧ x ≡ (m r).1 ∧ pg_view db' t id = Some x ∧
    ∀ t' id', (t', id') ≠ (t, id) → pg_view db' t' id' = pg_view db t' id'.
Proof. apply pg_runs_or_refused; [apply pg_approve_runs|]. intros -> db0. eauto. Qed.

Lemma reject_or_refused t id db :
  let op := pg_reject txn t id in
  (∃ e, op db = (db, Err e)) ∨
  ∃ r db' x, pg_view db t id = Some r ∧ op db = (db', Ok x) ∧ (∃ y, (spec_reject r).2 = Ok y) ∧ x ≡ (spec_reject r).1 ∧ pg_view db' t id = Some x ∧
    ∀ t' id', (t', id') ≠ (t, id) → pg_view db' t' id' = pg_view db t' id'.
Proof. apply pg_runs_or_refused; [apply pg_reject_runs|]. intros -> db0. eauto. Qed.

Lemma modify_or_refused t id actor e roles n db :
  let op := pg_modify txn t id actor e roles n in let m := spec_modify actor e roles n in
  (∃ e, op db = (db, Err e)) ∨
  ∃ r db' x, pg_view db t id = Some r ∧ op db = (db', Ok x) ∧ (∃ y, (m r).2 = Ok y) ∧ x ≡ (m r).1 ∧ pg_view db' t id = Some x ∧
    ∀ t' id', (t', id') ≠ (t, id) → pg_view db' t' id' = pg_view db t' id'.
Proof. apply pg_runs_or_refused; [apply pg_modify_runs|]. intros -> db0. eauto. Qed.

(** A call that runs a machine leaving decided requests alone leaves all decided requests alone. *)
Lemma pg_settled (op : M approval_db ApprovalRequest) m t id db t' id' r' :
  ((∃ e, op db = (db, Err e)) ∨
   ∃ r db' x, pg_view db t id = Some r ∧ op db = (db', Ok x) ∧ (∃ y, (m r).2 = Ok y) ∧ x ≡ (m r).1 ∧ pg_view db' t id = Some x ∧
     ∀ t' id', (t', id') ≠ (t, id) → pg_view db' t' id' = pg_view db t' id') →
  ((m : M ApprovalRequest ApprovalRequest) r').1 = r' → pg_view db t' id' = Some r' →
  ∃ x, pg_view (op db).1 t' id' = Some x ∧ x ≡ r'.
Proof.
  intros [[e ->]|(r & db' & x & Hv & -> & _ & Hx & Hv' & Ho)] Hm Hr; [by exists r'|]. simpl.
  destruct (decide ((t', id') = (t, id))) as [[= -> ->]|Hne]; [|exists r'; by rewrite Ho].
  rewrite Hv in Hr. injection Hr as ->. rewrite Hm in Hx. by exists x.
Qed.

#[global] Instance pg_approval_laws : ApprovalLaws pg_approvals pg_sound.
Proof using Transactional0.
  split.
  - split; [constructor|done].
  - intros o a Hf Hs. pose proof (pg_step_sound a o Hf Hs) as H. by destruct o.
  - intros a t id r [_ Hs] Hr. by eapply Hs.
  - intros o a t id r Hf _ Hr Hp. simpl in Hr.
    destruct o as [r0|t0 id0 actor role now|t0 id0|t0 id0 actor e roles n]; simpl.
    + exists r. split; [|done]. unfold pg_create. munfold. destruct (create_guard r0) as [[]|]; [|done]. simpl.
      rewrite txn_atomically. unfold atomically. munfold.
      destruct (db_approvals a !! (req_tenant_id r0, req_id r0)) as [old|] eqn:E; simpl; [by destruct (_ && _)|].
      rewrite pg_view_update. rewrite decide_False; [done|]. intros [= -> ->]. unfold pg_view in Hr. by rewrite E in Hr.
    + eapply pg_settled; [apply approve_or_refused|by apply spec_approve_settled|done].
    + eapply pg_settled; [apply reject_or_refused|by apply spec_reject_settled|done].
    + eapply pg_settled; [apply modify_or_refused|by apply spec_modify_settled|done].
  - intros t id actor role now a a' r _ H. cbn in H |- *.
    destruct (approve_or_refused t id actor role now a) as [[e He]|(r0 & db' & x & _ & He & _ & _ & Hv & _)]; congruence.
  - intros t id a a' r _ H. cbn in H |- *.
    destruct (reject_or_refused t id a) as [[e He]|(r0 & db' & x & _ & He & [y Hy] & [_ Hx] & Hv & _)]; [congruence|].
    rewrite H in He. injection He as -> ->. split; [done|]. apply spec_reject_returns in Hy as [-> Hs].
    unfold with_approvals in Hx. destruct x, (spec_reject r0).1. simpl in *. congruence.
  - intros t id a _. cbn [aa_get aa_view pg_approvals]. destruct (decide (t = "")) as [->|Ht]; [done|].
    rewrite pg_get_spec by done. split; [done|]. unfold of_option. cbn [snd]. by destruct (pg_view a t id) as [v|]; intros r [= <-].
Qed.
End pg_approvals.

(** ** Plans *)

Definition field (k : string) (b : rbody) : pyval := default VNone (b !! k).

Definition risk_of_int (z : Z) : result RiskLevel :=
  if z =? 0 then Ok L0 else if z =? 1 then Ok L1 else if z =? 2 then Ok L2 else if z =? 3 then Ok L3 else if z =? 4 then Ok L4
  else Err (ValueError "not a valid RiskLevel").

(** [list(v)] *)
Definition list_of (v : pyval) : result pyval := l ← py_iter v; Ok (VList l).

(** The document that [create_governed_plan] stores *)
Definition governed_document (c : ApiContext) (data : document) : result document :=
  z ← py_int (default (VInt 0) (od_get "risk" data));
  risk ← risk_of_int z;
  policies ← list_of (default (VList []) (od_get "policy_versions" data));
  violations ← list_of (default (VList []) (od_get "hard_violations" data));
  approvers ← py_int (default (VInt 0) (od_get "required_approvers" data));
  let d := od_set "created_by" (VStr (ctx_actor c)) (od_set "required_approvers" (VInt approvers)
    (od_set "hard_violations" violations (od_set "policy_versions" policies
    (od_set "risk" (VInt (risk_int risk)) (od_set "state" (VStr "draft") data))))) in
  raise_if (negb (py_bool (get "site_id" d)) || negb (py_bool (get "state_version" d)))
    (ValueError "plan requires site_id and state_version");;
  Ok d.

Record ApprovalSubmission := MkSubmission { sub_expires_at : datetime; sub_roles : gset string; sub_count : Z }.

Section handlers.
Context {S A : Type} (api : store_api pyval S) (aa : approval_api A).
Context (audit_digest : audit_source → string) (intent_digest : pyval → string).
Context (dt_text : datetime → string) (fromisoformat : string → result datetime) (str_container : pyval → string).

#[local] Abbreviation state := (api_state S A).
#[local] Abbreviation operate := (audited_operation (S:=S) (A:=A) audit_digest intent_digest).
#[local] Abbreviation text := (py_str str_container).

Definition utc (now : Z) : datetime := DT now true.
(** [f"{context.idempotency_key}:plan"] *)
Definition plan_key (c : ApiContext) : string := opt_text (ctx_key c) +:+ ":plan".

Definition create_governed_plan (now : Z) (b : ResourceRequest) (c : ApiContext) : M state rbody :=
  data ← mlift (governed_document c (body_data b));
  mutate api audit_digest now "plan" (MkResourceRequest (body_id b) data) c.

(** The checks and the write of [validate] on the plan that was read *)
Definition validate_put (now : Z) (c : ApiContext) (plan_id : string) (current : StoredResource pyval) : result (put_request pyval) :=
  require_if_match c current;;
  raise_if (negb (py_eq (field "state" (body current)) (VStr "draft"))) (ValueError "only a draft plan can be validated");;
  raise_if (py_bool (field "hard_violations" (body current))) (ValueError "plan with hard violations cannot be validated");;
  raise_if (negb (py_bool (field "policy_versions" (body current)))) (ValueError "plan validation requires exact policy versions");;
  Ok (MkPut "plan" plan_id (ctx_tenant c)
    (<["validated_by" := VStr (ctx_actor c)]> (<["validated_at" := VStr (dt_text (utc now))]>
      (<["state" := VStr "validated"]> (without_id (body current))))) (plan_key c) (ctx_if_match c)).

(** A prepared write, and the response it gives *)
Definition commit_plan (now : Z) (q : result (put_request pyval)) : M state rbody :=
  q ← mlift q; updated ← on_store (api_put api now q); mret (serialize updated).

Definition version_intent (current : StoredResource pyval) : pyval :=
  VDict [("version", VInt (version current)); ("etag", VStr (etag current))].

Definition validate_governed_plan (now : Z) (plan_id : string) (c : ApiContext) : M state response :=
  current ← store_get api "plan" plan_id (ctx_tenant c);
  operate now c "plan.validate" plan_id (version_intent current)
    (d ← commit_plan now (validate_put now c plan_id current); mret (RResource d)).

Definition plan_risk (b : rbody) : result RiskLevel :=
  v ← of_option (KeyError "risk") (b !! "risk"); z ← py_int v; risk_of_int z.

Definition approval_id_of (plan_id : string) (current : StoredResource pyval) : string :=
  "approval-" +:+ plan_id +:+ "-" +:+ int_str (version current + 1).

Definition submit_put (c : ApiContext) (plan_id : string) (current : StoredResource pyval) (risk : RiskLevel) : result (put_request pyval) :=
  require_if_match c current;;
  raise_if (negb (py_eq (field "state" (body current)) (VStr "validated"))) (ValueError "only a validated plan can enter approval");;
  Ok (MkPut "plan" plan_id (ctx_tenant c)
    (<["approval_id" := if 2 <=? risk_int risk then VStr (approval_id_of plan_id current) else VNone]>
      (<["state" := VStr (if 2 <=? risk_int risk then "pending_approval" else "approved")]> (without_id (body current))))
    (plan_key c) (ctx_if_match c)).

Definition submission_request (c : ApiContext) (plan_id approval_id : string) (risk : RiskLevel) (sub : ApprovalSubmission) : ApprovalRequest :=
  MkApprovalRequest approval_id plan_id (ctx_tenant c) risk (ctx_actor c) (sub_expires_at sub) (sub_roles sub) (sub_count sub) [] PENDING.

Definition submission_intent (sub : ApprovalSubmission) : document :=
  [("expires_at", VStr (dt_text (sub_expires_at sub))); ("required_roles", VList (map VStr (elements (sub_roles sub))));
   ("required_count", VInt (sub_count sub))].

Definition submit_callback (now : Z) (plan_id : string) (sub : ApprovalSubmission) (c : ApiContext) (current : StoredResource pyval)
    (risk : RiskLevel) : M state response :=
  d ← commit_plan now (submit_put c plan_id current risk);
  if 2 <=? risk_int risk then
    let request := submission_request c plan_id (approval_id_of plan_id current) risk sub in
    on_approvals (aa_create aa request);;
    mret (RSubmitted d (Some request))
  else mret (RSubmitted d None).

(** An approval expiry must be in the future. *)
Definition future (now : Z) (sub : ApprovalSubmission) : result unit :=
  late ← dt_leb (sub_expires_at sub) (utc now);
  raise_if late (ValueError "approval expiry must be in the future").

Definition submit_plan_approval (now : Z) (plan_id : string) (sub : ApprovalSubmission) (c : ApiContext) : M state response :=
  mlift (future now sub);;
  current ← store_get api "plan" plan_id (ctx_tenant c);
  risk ← mlift (plan_risk (body current));
  operate now c "plan.submit_approval" plan_id (VDict (("version", VInt (version current)) :: submission_intent sub))
    (submit_callback now plan_id sub c current risk).

(** ** Approvals *)

Definition modify_approval (now : Z) (approval_id : string) (sub : ApprovalSubmission) (c : ApiContext) : M state response :=
  mlift (future now sub);;
  operate now c "approval.modify" approval_id (VDict (submission_intent sub))
    (a ← on_approvals (aa_modify aa (ctx_tenant c) approval_id (ctx_actor c) (sub_expires_at sub) (sub_roles sub) (sub_count sub));
     mret (RApproval a)).

Definition parse_approval (b : ResourceRequest) (c : ApiContext) : result ApprovalRequest :=
  plan_id ← item "plan_id" (body_data b);
  z ← item "risk" (body_data b) ≫= py_int;
  risk ← risk_of_int z;
  expires ← item "expires_at" (body_data b) ≫= λ v, fromisoformat (text v);
  roles_ ← item "required_roles" (body_data b) ≫= py_iter;
  n ← item "required_count" (body_data b) ≫= py_int;
  Ok (MkApprovalRequest (body_id b) (text plan_id) (ctx_tenant c) risk (ctx_actor c) expires (list_to_set (map text roles_)) n [] PENDING).

Definition create_approval (now : Z) (b : ResourceRequest) (c : ApiContext) : M state response :=
  request ← mlift (parse_approval b c);
  operate now c "approval.create" (req_id request) (VDict (body_data b))
    (on_approvals (aa_create aa request);; mret (RApproval request)).

(** The write that carries a decision over to the plan *)
Definition decide_put (c : ApiContext) (plan_id : string) (plan : StoredResource pyval) (target stamp : string) (at_ : datetime) : put_request pyval :=
  MkPut "plan" plan_id (ctx_tenant c)
    (<[stamp := VStr (dt_text at_)]> (<["state" := VStr target]> (without_id (body plan)))) (plan_key c) (Some (etag plan)).

Definition settle_plan (now : Z) (c : ApiContext) (plan_id target stamp : string) (at_ : datetime) : M state (option rbody) := λ st,
  match api_get api (ctx_tenant c, "plan", plan_id) (st_store st) with
  | Err (KeyError _) => (st, Ok None)
  | Err e => (st, Err e)
  | Ok plan =>
      if py_eq (field "state" (body plan)) (VStr "pending_approval") then
        (d ← commit_plan now (Ok (decide_put c plan_id plan target stamp at_)); mret (Some d)) st
      else (st, Ok None)
  end.

Definition approve_callback (now : Z) (approval_id role : string) (b : ResourceRequest) (c : ApiContext) : M state response :=
  at_ ← mlift (item "now" (body_data b) ≫= λ v, fromisoformat (text v));
  a ← on_approvals (aa_approve aa (ctx_tenant c) approval_id (ctx_actor c) role at_);
  if bool_decide (req_status a = APPROVED) then
    d ← settle_plan now c (req_plan_id a) "approved" "approved_at" at_; mret (RDecided a d)
  else mret (RDecided a None).

Definition approve_request (now : Z) (approval_id : string) (b : ResourceRequest) (c : ApiContext) : M state response :=
  role ← mlift (text <$> item "role" (body_data b));
  mguard (negb (bool_decide (role ∈ ctx_roles c))) (PermissionError "approval role is not assigned to authenticated identity");;
  operate now c "approval.approve" approval_id (VDict (body_data b)) (approve_callback now approval_id role b c).

Definition reject_callback (now : Z) (approval_id : string) (c : ApiContext) : M state response :=
  request ← on_approvals (aa_get aa (ctx_tenant c) approval_id);
  mguard (negb (bool_decide (req_tenant_id request = ctx_tenant c))) (PermissionError "cross-tenant approval access");;
  rejected ← on_approvals (aa_reject aa (ctx_tenant c) approval_id);
  d ← settle_plan now c (req_plan_id rejected) "rejected" "rejected_at" (utc now);
  mret (RDecided rejected d).

Definition reject_request (now : Z) (approval_id : string) (b : ResourceRequest) (c : ApiContext) : M state response :=
  operate now c "approval.reject" approval_id (VDict (body_data b)) (reject_callback now approval_id c).

(** ** Interleaved requests

    A configuration: the store, the approvals, and the writes that requests have prepared and not yet made. *)

(** A write prepared from what the store and the approvals show *)
Inductive prepared (s : S) (a : A) : put_request pyval → Prop :=
| prepare_validate now c id current q :
    api_get api (ctx_tenant c, "plan", id) s = Ok current → validate_put now c id current = Ok q → prepared s a q
| prepare_submit c id current risk q :
    api_get api (ctx_tenant c, "plan", id) s = Ok current → plan_risk (body current) = Ok risk →
    submit_put c id current risk = Ok q → prepared s a q
| prepare_decide c approval_id r plan target stamp at_ :
    aa_view aa a (ctx_tenant c) approval_id = Some r →
    (req_status r = APPROVED ∧ target = "approved" ∧ stamp = "approved_at" ∨
     req_status r = REJECTED ∧ target = "rejected" ∧ stamp = "rejected_at") →
    api_get api (ctx_tenant c, "plan", req_plan_id r) s = Ok plan →
    py_eq (field "state" (body plan)) (VStr "pending_approval") = true →
    prepared s a (decide_put c (req_plan_id r) plan target stamp at_).

Abbreviation gov_config := (S * A * list (put_request pyval))%type.

Inductive gov_step : gov_config → gov_config → Prop :=
| gov_draft s a fs now b c data : governed_document c (body_data b) = Ok data →
    gov_step (s, a, fs) ((api_put api now (mutate_put "plan" (MkResourceRequest (body_id b) data) c) s).1, a, fs)
| gov_prepare s a fs q : prepared s a q → gov_step (s, a, fs) (s, a, q :: fs)
| gov_write s a fs1 q fs2 now : gov_step (s, a, fs1 ++ q :: fs2) ((api_put api now q s).1, a, fs1 ++ fs2)
| gov_drop s a fs1 q fs2 : gov_step (s, a, fs1 ++ q :: fs2) (s, a, fs1 ++ fs2)
| gov_approval s a fs o : op_fresh o → gov_step (s, a, fs) (s, aa_step aa o a, fs)
| gov_other s a fs now q : put_kind q ≠ "plan" → gov_step (s, a, fs) ((api_put api now q s).1, a, fs).
End handlers.

(** ** How a plan's versions follow one another *)

Lemma list_to_map_od_get (d : document) k : (list_to_map d : rbody) !! k = od_get k d.
Proof.
  induction d as [|[k' v] d IH]; simpl; [apply lookup_empty|]. case_decide as Hk; [subst; apply lookup_insert_eq|].
  by rewrite lookup_insert_ne.
Qed.

Lemma risk_of_int_range z r : risk_of_int z = Ok r → risk_int r = z.
Proof. unfold risk_of_int. repeat (case_match; [bprop; subst; by intros [= <-]|]). done. Qed.

(** The fields that no handler but the creation writes *)
Definition kept_fields : list string :=
  ["risk"; "policy_versions"; "hard_violations"; "required_approvers"; "created_by"; "site_id"; "state_version"; "schedule"].
Definition kept (b0 b1 : rbody) : Prop := Forall (λ k, b1 !! k = b0 !! k) kept_fields.

Lemma kept_not_id k : k ∈ kept_fields → k ≠ "id".
Proof. unfold kept_fields. intros Hk ->. set_solver. Qed.

Definition in_state (b : rbody) (s : string) : Prop := b !! "state" = Some (VStr s).

(** What the creation guarantees of a document *)
Definition draft_document (b : rbody) : Prop :=
  in_state b "draft" ∧ (∃ l, b !! "policy_versions" = Some (VList l)) ∧ (∃ l, b !! "hard_violations" = Some (VList l)) ∧
  (∃ r, b !! "risk" = Some (VInt (risk_int r))).

Section chains.
Context {A : Type} (aa : approval_api A).

(** [b1] follows [b0] by one governed step of the plan [id] of tenant [t]. *)
Inductive advance (a : A) (t id : string) (b0 b1 : rbody) : Prop :=
| advance_validate : in_state b0 "draft" → in_state b1 "validated" → py_bool (field "hard_violations" b0) = false →
    py_bool (field "policy_versions" b0) = true → advance a t id b0 b1
| advance_submit r : in_state b0 "validated" → in_state b1 "pending_approval" → plan_risk b0 = Ok r → 2 <= risk_int r → advance a t id b0 b1
| advance_skip r : in_state b0 "validated" → in_state b1 "approved" → plan_risk b0 = Ok r → risk_int r < 2 → advance a t id b0 b1
| advance_decide r approval_id target : in_state b0 "pending_approval" → in_state b1 target →
    aa_view aa a t approval_id = Some r → req_plan_id r = id →
    (req_status r = APPROVED ∧ target = "approved" ∨ req_status r = REJECTED ∧ target = "rejected") → advance a t id b0 b1.

(** A plan's history: every version is a draft as the creation makes it, or follows its predecessor. *)
Definition governed (a : A) (k : rkey) (l : list (StoredResource pyval)) : Prop :=
  ∀ i r, l !! i = Some r → draft_document (body r) ∨
    ∃ j p, i = S j ∧ l !! j = Some p ∧ advance a k.1.1 k.2 (body p) (body r) ∧ kept (body p) (body r).

Lemma governed_nil a k : governed a k [].
Proof. intros i r. by rewrite lookup_nil. Qed.

Lemma governed_snoc a k l r : governed a k l →
  (draft_document (body r) ∨ ∃ p, last l = Some p ∧ advance a k.1.1 k.2 (body p) (body r) ∧ kept (body p) (body r)) →
  governed a k (l ++ [r]).
Proof.
  intros Hl Hr i x Hx. apply lookup_app_Some in Hx as [Hx|[Hlen Hx]].
  - destruct (Hl i x Hx) as [?|(j & p & -> & Hp & ?)]; [by left|]. right. exists j, p. split; [done|]. split; [|done].
    by apply lookup_app_l_Some.
  - apply list_lookup_singleton_Some in Hx as [Hi <-]. destruct Hr as [?|(p & Hp & ?)]; [by left|]. right.
    rewrite last_lookup in Hp. assert (l ≠ []) as Hne by (by intros ->). destruct l as [|y l]; [done|]. simpl in *.
    exists (length l), p. split; [lia|]. split; [|done]. by apply (lookup_app_l_Some (y :: l)).
Qed.

(** Advancing survives steps of the workflow that leave decided requests alone. *)
Lemma advance_mono a a' t id b0 b1 :
  (∀ x r, aa_view aa a t x = Some r → req_status r ≠ PENDING → ∃ r', aa_view aa a' t x = Some r' ∧ r' ≡ r) →
  advance a t id b0 b1 → advance a' t id b0 b1.
Proof.
  intros Hmono [? ? ? ?|? ? ? ? ?|? ? ? ? ?|r x target ? ? Hview Hplan Hst].
  - by apply advance_validate.
  - by eapply advance_submit.
  - by eapply advance_skip.
  - destruct (Hmono x r) as (r' & Hr' & [_ Heq]); [done|destruct Hst as [[-> _]|[-> _]]; done|].
    assert (req_plan_id r' = req_plan_id r ∧ req_status r' = req_status r) as [Hp Hs].
    { destruct r, r'. unfold with_approvals in Heq. simpl in *. by injection Heq. }
    eapply (advance_decide _ _ _ _ _ r'); [done..|congruence|]. by rewrite Hs.
Qed.

Lemma kept_lookup b0 b1 k : kept b0 b1 → k ∈ kept_fields → b1 !! k = b0 !! k.
Proof. intros H Hk. unfold kept in H. rewrite Forall_forall in H. by apply H. Qed.

(** What a governed version satisfies *)
Record version_ok (a : A) (t id : string) (b : rbody) : Prop := {
  vo_state : ∃ s, in_state b s ∧ s ∈ ["draft"; "validated"; "pending_approval"; "approved"; "rejected"];
  vo_policies : ∃ l, b !! "policy_versions" = Some (VList l) ∧ (in_state b "draft" ∨ l ≠ []);
  vo_violations : ∃ l, b !! "hard_violations" = Some (VList l) ∧ (in_state b "draft" ∨ l = []);
  vo_risk : ∃ r, b !! "risk" = Some (VInt (risk_int r)) ∧ (in_state b "approved" → 2 <= risk_int r →
    ∃ approval_id x, aa_view aa a t approval_id = Some x ∧ req_status x = APPROVED ∧ req_plan_id x = id)
}.

Lemma in_state_eq b s s' : in_state b s → in_state b s' → s = s'.
Proof. unfold in_state. intros -> [= ?]. done. Qed.

Lemma plan_risk_int b r : b !! "risk" = Some (VInt (risk_int r)) → plan_risk b = Ok r.
Proof. unfold plan_risk. intros ->. by destruct r. Qed.

Lemma draft_version_ok a t id b : draft_document b → version_ok a t id b.
Proof.
  intros (Hs & [lp Hp] & [lv Hv] & [r Hr]). split; [exists "draft"; set_solver|exists lp; auto|exists lv; auto|].
  exists r. split; [done|]. intros Happ. by pose proof (in_state_eq _ _ _ Hs Happ).
Qed.

Lemma advance_version_ok a t id b0 b1 : version_ok a t id b0 → advance a t id b0 b1 → kept b0 b1 → version_ok a t id b1.
Proof.
  intros [_ (lp & Hp & Hp') (lv & Hv & Hv') (r & Hr & _)] Hadv Hk.
  pose proof (kept_lookup _ _ "policy_versions" Hk ltac:(set_solver)) as Kp. pose proof (kept_lookup _ _ "hard_violations" Hk ltac:(set_solver)) as Kv.
  pose proof (kept_lookup _ _ "risk" Hk ltac:(set_solver)) as Kr. rewrite Hp in Kp. rewrite Hv in Kv. rewrite Hr in Kr.
  assert (∀ s, in_state b0 s → s ≠ "draft" → lp ≠ [] ∧ lv = []) as Hlater.
  { intros s Hs Hne. split; [destruct Hp' as [E|?]|destruct Hv' as [E|?]]; try done; destruct Hne; by eapply in_state_eq. }
  assert (lp ≠ [] ∧ lv = []) as [Hlp Hlv].
  { destruct Hadv as [H0 _ Hhv Hpv|? H0|? H0|? ? ? H0]; [|by apply (Hlater _ H0)..].
    unfold field in *. rewrite Hv in Hhv. rewrite Hp in Hpv. simpl in *. bprop. by destruct lp, lv. }
  split; [|exists lp; auto|exists lv; auto|exists r; split; [done|]].
  - destruct Hadv as [? ? ? ?|? ? ? ? ?|? ? ? ? ?|? ? target ? ? ? ? Ht]; [exists "validated"|exists "pending_approval"|exists "approved"|exists target];
      (split; [done|]); set_solver.
  - intros Happ Hrisk. destruct Hadv as [? H1 ? ?|? ? H1 ? ?|r' ? H1 Hr' Hlt|x aid target ? H1 Hv1 Hp1 Ht].
    + by pose proof (in_state_eq _ _ _ H1 Happ).
    + by pose proof (in_state_eq _ _ _ H1 Happ).
    + rewrite (plan_risk_int _ _ Hr) in Hr'. injection Hr' as <-. lia.
    + exists aid, x. destruct Ht as [[? _]|[_ ->]]; [done|]. by pose proof (in_state_eq _ _ _ H1 Happ).
Qed.

Lemma governed_versions a k l i r : governed a k l → l !! i = Some r → version_ok a k.1.1 k.2 (body r).
Proof.
  intros Hg. revert r. induction i as [|i IH]; intros r Hr; destruct (Hg _ _ Hr) as [Hd|(j & p & Hj & Hp & Ha & Hk)].
  - by apply draft_version_ok.
  - done.
  - by apply draft_version_ok.
  - injection Hj as <-. eapply advance_version_ok; [by apply IH|done..].
Qed.
End chains.

(** ** The invariant of interleaved requests *)

Section governance.
Context {S A : Type} (api : store_api pyval S) (inv : S → Prop) `{!StoreLaws api inv}.
Context (aa : approval_api A) (ainv : A → Prop) `{!ApprovalLaws aa ainv}.
Context (dt_text : datetime → string).
Context (tr : pyval → pyval) (Htr : transport tr).
Context (Hstored : ∀ q, api_stored api q = <["id" := VStr (put_id q)]> (tr <$> put_body q)).
Context (Htags : ∀ t k v v' b b', api_tag api t k v b = api_tag api t k v' b' → v = v').

#[local] Abbreviation step := (gov_step api aa dt_text).
#[local] Abbreviation plans_of := (λ t id, api_history api (t, "plan", id)).

(** A prepared write advances a version that it names by If-Match. *)
Definition write_ok (s : S) (a : A) (q : put_request pyval) : Prop :=
  put_kind q = "plan" ∧ ∃ r, r ∈ api_history api (put_target q) s ∧ if_match q = Some (etag r) ∧
    advance aa a (put_tenant q) (put_id q) (body r) (api_stored api q) ∧ kept (body r) (api_stored api q).

Record gov_inv (x : S * A * list (put_request pyval)) : Prop := {
  gi_store : inv x.1.1;
  gi_approvals : ainv x.1.2;
  gi_documents : documents_ok api tr x.1.1;
  gi_tagged : ∀ k, tagged api k (api_history api k x.1.1);
  gi_governed : ∀ t id, governed aa x.1.2 (t, "plan", id) (plans_of t id x.1.1);
  gi_writes : Forall (write_ok x.1.1 x.1.2) x.2
}.

Lemma stored_lookup q k : k ≠ "id" → api_stored api q !! k = tr <$> put_body q !! k.
Proof using Hstored. intros Hk. rewrite Hstored, lookup_insert_ne by done. apply lookup_fmap. Qed.

Lemma put_in_state q s : put_body q !! "state" = Some (VStr s) → in_state (api_stored api q) s.
Proof using Hstored Htr. intros H. unfold in_state. rewrite stored_lookup, H by done. simpl. by rewrite (transport_str tr _ Htr). Qed.

Lemma stored_kept q b : tr <$> b = b → Forall (λ k, put_body q !! k = b !! k) kept_fields → kept b (api_stored api q).
Proof using Hstored.
  intros Hb H. unfold kept. rewrite Forall_forall in H |- *. intros k Hk. rewrite stored_lookup by by apply kept_not_id.
  rewrite (H k Hk), <- lookup_fmap. by rewrite Hb.
Qed.

Lemma field_state b s : py_eq (field "state" b) (VStr s) = true → in_state b s.
Proof. intros H%py_eq_str. unfold field in H. unfold in_state. destruct (b !! "state"); simpl in *; [by subst|done]. Qed.

Lemma if_match_ok c (r : StoredResource pyval) : require_if_match c r = Ok tt → ctx_if_match c = Some (etag r).
Proof. unfold require_if_match. rewrite guard_passed, guard_last. intros [_ H]. by bprop. Qed.

Lemma get_latest s k r : inv s → api_get api k s = Ok r → r ∈ api_history api k s.
Proof using StoreLaws0.
  intros Hi Hg. destruct (sl_reads s k Hi) as [_ _ Hget _]. rewrite Hg in Hget. destruct (last _) as [r'|] eqn:El; [|done].
  injection Hget as ->. by apply last_Some_elem_of.
Qed.

Lemma prepared_ok s a q : inv s → documents_ok api tr s → prepared api aa dt_text s a q → write_ok s a q.
Proof using All.
  intros Hi Hd Hp. destruct Hp as [now c id cur q Hg Hq|c id cur risk q Hg Hr Hq|c aid r plan target stamp at_ Hv Hst Hg Hpend].
  - pose proof (get_latest _ _ _ Hi Hg) as Hin. specialize (Hd (ctx_tenant c, "plan", id)). rewrite Forall_forall in Hd. destruct (Hd _ Hin) as [Hb _].
    unfold validate_put, mbind, result_bind in Hq. destruct (require_if_match c cur) as [[]|] eqn:Em; [|done]. unfold raise_if in Hq.
    destruct (py_eq _ (VStr "draft")) eqn:Es; [|done]. simpl in Hq. destruct (py_bool (field "hard_violations" _)) eqn:Eh; [done|].
    destruct (py_bool (field "policy_versions" _)) eqn:Ep; [|done]. injection Hq as <-. split; [done|]. exists cur.
    split_and!; [done|by apply if_match_ok| |].
    + apply advance_validate; [by apply field_state| |done..]. apply put_in_state. simpl. by simplify_map_eq.
    + apply stored_kept; [done|]. unfold kept_fields, without_id. repeat constructor; simpl; by simplify_map_eq.
  - pose proof (get_latest _ _ _ Hi Hg) as Hin. specialize (Hd (ctx_tenant c, "plan", id)). rewrite Forall_forall in Hd. destruct (Hd _ Hin) as [Hb _].
    unfold submit_put, mbind, result_bind in Hq. destruct (require_if_match c cur) as [[]|] eqn:Em; [|done]. unfold raise_if in Hq.
    destruct (py_eq _ (VStr "validated")) eqn:Es; [|done]. injection Hq as <-. split; [done|]. exists cur.
    split_and!; [done|by apply if_match_ok| |].
    + destruct (Z.leb_spec 2 (risk_int risk)).
      * eapply advance_submit; [by apply field_state| |done..]. apply put_in_state. simpl. by simplify_map_eq.
      * eapply advance_skip; [by apply field_state| |done..]. apply put_in_state. simpl. by simplify_map_eq.
    + apply stored_kept; [done|]. unfold kept_fields, without_id. repeat constructor; simpl; by simplify_map_eq.
  - pose proof (get_latest _ _ _ Hi Hg) as Hin. specialize (Hd (ctx_tenant c, "plan", req_plan_id r)). rewrite Forall_forall in Hd. destruct (Hd _ Hin) as [Hb _].
    split; [done|]. exists plan. assert (stamp ≠ "state" ∧ stamp ∉ kept_fields) as [Hs1 Hs2].
    { destruct Hst as [(_ & _ & ->)|(_ & _ & ->)]; unfold kept_fields; split; set_solver. }
    split_and!; [done|done| |].
    + eapply (advance_decide _ _ _ _ _ _ r aid target); [by apply field_state| |done|done|naive_solver].
      apply put_in_state. simpl. by simplify_map_eq.
    + apply stored_kept; [done|]. rewrite Forall_forall. intros k Hk. simpl. unfold without_id.
      rewrite !lookup_insert_ne, lookup_delete_ne by (unfold kept_fields in *; set_solver). done.
Qed.

Lemma governed_document_ok c b data : governed_document c (body_data b) = Ok data →
  draft_document (api_stored api (mutate_put "plan" (MkResourceRequest (body_id b) data) c)).
Proof using Htr Hstored.
  unfold governed_document, list_of, mbind, result_bind. destruct (py_int _) as [z|]; [|done]. destruct (risk_of_int z) as [risk|]; [|done].
  destruct (py_iter _) as [lp|]; [|done]. destruct (py_iter _) as [lv|]; [|done]. destruct (py_int _) as [n|]; [|done].
  unfold raise_if. destruct (_ || _); [done|]. intros [= <-].
  assert (∀ k v d, (list_to_map (od_set k v d) : rbody) = <[k := v]> (list_to_map d)) as Hset.
  { intros k v d. apply map_eq. intros k'. rewrite list_to_map_od_get. destruct (decide (k' = k)) as [->|Hne].
    - by rewrite od_get_set_eq, lookup_insert_eq.
    - rewrite od_get_set_ne, lookup_insert_ne by done. by rewrite list_to_map_od_get. }
  assert (∀ l, ∃ l', tr (VList l) = VList l') as Hlist by (destruct Htr; simpl; eauto).
  assert (∀ z, tr (VInt z) = VInt z) as Hint by by destruct Htr.
  set (q := mutate_put _ _ _). assert (∀ k, k ≠ "id" → api_stored api q !! k = tr <$> put_body q !! k) as Hl by apply stored_lookup.
  unfold draft_document. rewrite !Hl by done. unfold q, mutate_put. simpl. rewrite !Hset. split_and!.
  - apply put_in_state. simpl. by simplify_map_eq.
  - simplify_map_eq. destruct (Hlist lp) as [l' ->]. eauto.
  - simplify_map_eq. destruct (Hlist lv) as [l' ->]. eauto.
  - simplify_map_eq. rewrite Hint. eauto.
Qed.

Lemma write_ok_mono s s' a a' q : (∀ k r, r ∈ api_history api k s → r ∈ api_history api k s') →
  (∀ t x r, aa_view aa a t x = Some r → req_status r ≠ PENDING → ∃ r', aa_view aa a' t x = Some r' ∧ r' ≡ r) →
  write_ok s a q → write_ok s' a' q.
Proof. intros Hs Ha (Hk & r & Hr & Hm & Hadv & Hkept). split; [done|]. exists r. split_and!; eauto using advance_mono. Qed.

Lemma view_refl a : ∀ t x r, aa_view aa a t x = Some r → req_status r ≠ PENDING → ∃ r', aa_view aa a t x = Some r' ∧ r' ≡ r.
Proof. intros t x r Hr _. by exists r. Qed.

(** A put keeps the invariant when what it appends to a plan's history is governed. *)
Lemma gov_put now q s a fs fs' : gov_inv (s, a, fs) → fs' ⊆ fs →
  (∀ r, appended api q s (api_put api now q s).1 r → put_kind q = "plan" →
     draft_document (body r) ∨ ∃ p, last (api_history api (put_target q) s) = Some p ∧
       advance aa a (put_tenant q) (put_id q) (body p) (body r) ∧ kept (body p) (body r)) →
  gov_inv ((api_put api now q s).1, a, fs').
Proof using All.
  intros [Hi Ha Hd Ht Hg Hw] Hsub Hnew. simpl in *. destruct (put_cases api inv now q s Hi) as [Hi' Hp].
  split; simpl; [done|done|by eapply put_documents|by eapply put_tagged| |].
  - intros t id. destruct Hp as [H|[r H]]; [by rewrite H|]. rewrite (ap_history _ _ _ _ _ H). case_decide as Hk; [|by rewrite app_nil_r].
    injection Hk as -> Hkd ->. apply governed_snoc; [done|]. specialize (Hnew r H (eq_sym Hkd)). unfold put_target in Hnew. by rewrite <- Hkd in Hnew.
  - apply Forall_forall. intros f Hf. rewrite Forall_forall in Hw. eapply write_ok_mono; [|apply view_refl|by apply Hw, Hsub].
    by eapply put_grows.
Qed.

Lemma gov_step_inv x y : step x y → gov_inv x → gov_inv y.
Proof using All.
  intros Hstep HI. destruct Hstep as [s a fs now b c data Hdoc|s a fs q Hp|s a fs1 q fs2 now|s a fs1 q fs2|s a fs o Ho|s a fs now q Hq].
  - eapply gov_put; [done|done|]. intros r Hr _. left. rewrite (ap_body _ _ _ _ _ Hr). by apply governed_document_ok.
  - destruct HI as [Hi Ha Hd Ht Hg Hw]. split; simpl in *; try done. constructor; [|done]. by apply prepared_ok.
  - eapply gov_put; [done|set_solver|]. intros r Hr _. right. destruct HI as [Hi Ha Hd Ht Hg Hw]. simpl in *.
    apply Forall_app in Hw as [_ [(Hk & r0 & Hr0 & Hm & Hadv & Hkept) _]%Forall_cons].
    rewrite (ap_body _ _ _ _ _ Hr). pose proof (ap_match _ _ _ _ _ Hr) as Hmatch.
    destruct (last (api_history api (put_target q) s)) as [p|] eqn:El.
    + exists p. specialize (Hmatch p eq_refl). rewrite Hm in Hmatch. injection Hmatch as He.
      assert (r0 = p) as -> by (eapply (same_etag api inv Htags); [done|apply Ht|done|by apply last_Some_elem_of|done]). done.
    + apply last_None in El. rewrite El in Hr0. by apply elem_of_nil in Hr0.
  - destruct HI as [Hi Ha Hd Ht Hg Hw]. split; simpl in *; try done. apply Forall_app in Hw as [? [_ ?]%Forall_cons]. by apply Forall_app.
  - destruct HI as [Hi Ha Hd Ht Hg Hw]. simpl in *.
    assert (∀ t x r, aa_view aa a t x = Some r → req_status r ≠ PENDING → ∃ r', aa_view aa (aa_step aa o a) t x = Some r' ∧ r' ≡ r) as Hm
      by (intros t x r Hr Hp; exact (al_settled o a t x r Ho Ha Hr Hp)).
    split; simpl; [done|by apply al_step|done|done| |].
    + intros t id i r Hr. destruct (Hg t id i r Hr) as [?|(j & p & ? & ? & ? & ?)]; [by left|]. right. exists j, p. split_and!; try done.
      eapply advance_mono; [|done]. apply Hm.
    + eapply Forall_impl; [exact Hw|]. intros q. by apply write_ok_mono.
  - eapply gov_put; [done|done|]. intros r Hr Hk. done.
Qed.

Lemma gov_init : gov_inv (api_init api, aa_init aa, []).
Proof using All.
  split; simpl; [apply sl_init|apply al_init| | | |constructor].
  - intros k. rewrite sl_empty. constructor.
  - intros k. rewrite sl_empty. constructor.
  - intros t id. rewrite sl_empty. apply governed_nil.
Qed.

Lemma gov_reach x : rtc step (api_init api, aa_init aa, []) x → gov_inv x.
Proof using All.
  assert (∀ y z, rtc step y z → gov_inv y → gov_inv z) as Hgen.
  { induction 1 as [|y z w Hyz _ IH]; [done|]. intros Hy. eapply IH, gov_step_inv; done. }
  intros H. eapply Hgen; [done|apply gov_init].
Qed.
End governance.

(** The state of [PlanLifecycle] that a text names *)
Definition state_named (s : string) : option PlanState :=
  if decide (s = "draft") then Some DRAFT else if decide (s = "validated") then Some VALIDATED
  else if decide (s = "pending_approval") then Some PENDING_APPROVAL else if decide (s = "approved") then Some PLAN_APPROVED
  else if decide (s = "rejected") then Some PLAN_REJECTED else None.

Lemma advance_transition {A} (aa : approval_api A) a t id b0 b1 : advance aa a t id b0 b1 →
  ∃ s0 s1 x0 x1, in_state b0 s0 ∧ in_state b1 s1 ∧ state_named s0 = Some x0 ∧ state_named s1 = Some x1 ∧ x1 ∈ PLAN_TRANSITIONS x0.
Proof.
  intros [H0 H1 _ _|r H0 H1 _ _|r H0 H1 _ _|r x target H0 H1 _ _ Ht].
  - exists "draft", "validated", DRAFT, VALIDATED. split_and!; try done. set_solver.
  - exists "validated", "pending_approval", VALIDATED, PENDING_APPROVAL. split_and!; try done. set_solver.
  - exists "validated", "approved", VALIDATED, PLAN_APPROVED. split_and!; try done. set_solver.
  - destruct Ht as [[_ ->]|[_ ->]].
    + exists "pending_approval", "approved", PENDING_APPROVAL, PLAN_APPROVED. split_and!; try done. set_solver.
    + exists "pending_approval", "rejected", PENDING_APPROVAL, PLAN_REJECTED. split_and!; try done. set_solver.
Qed.

(** C3: Plans are governed under any interleaving.  Whatever requests the API serves, with their reads, their
    writes and the votes of the approval workflow interleaved in any order, and with writes lost or late: every
    version in the history of a plan is a draft, or follows the version before it by a transition that the plan
    life cycle allows, with risk, policies and violations unchanged.  A version past draft has at least one exact
    policy version and no hard violation.  An approved version has a risk below L2, or the workflow holds an
    approved request that names the plan, with the votes its own risk demands, by distinct people other than the
    requester.  This holds for every store with the laws of [StoreLaws] and every workflow with those of
    [ApprovalLaws]. *)
Theorem governed_plans_safe {S A : Type} (api : store_api pyval S) (inv : S → Prop) `{!StoreLaws api inv}
    (aa : approval_api A) (ainv : A → Prop) `{!ApprovalLaws aa ainv} (dt_text : datetime → string)
    (tr : pyval → pyval) (Htr : transport tr)
    (Hstored : ∀ q, api_stored api q = <["id" := VStr (put_id q)]> (tr <$> put_body q))
    (Htags : ∀ t k v v' b b', api_tag api t k v b = api_tag api t k v' b' → v = v')
    (s : S) (a : A) (fs : list (put_request pyval))
    (Hreach : rtc (gov_step api aa dt_text) (api_init api, aa_init aa, []) (s, a, fs)) (t id : string) :
  let l := api_history api (t, "plan", id) s in
  (∀ i p r, l !! i = Some p → l !! Datatypes.S i = Some r →
     in_state (body r) "draft" ∨
     kept (body p) (body r) ∧ ∃ s0 s1 x0 x1, in_state (body p) s0 ∧ in_state (body r) s1 ∧
       state_named s0 = Some x0 ∧ state_named s1 = Some x1 ∧ x1 ∈ PLAN_TRANSITIONS x0) ∧
  (∀ r, r ∈ l → ¬ in_state (body r) "draft" →
     (∃ v vs, body r !! "policy_versions" = Some (VList (v :: vs))) ∧ body r !! "hard_violations" = Some (VList [])) ∧
  (∀ r, r ∈ l → in_state (body r) "approved" →
     ∃ risk, body r !! "risk" = Some (VInt (risk_int risk)) ∧
       (2 <= risk_int risk → ∃ approval_id x, aa_view aa a t approval_id = Some x ∧ req_status x = APPROVED ∧
          req_plan_id x = id ∧ four_eyes x)).
Proof.
  intros l. pose proof (gov_reach api inv aa ainv dt_text tr Htr Hstored Htags _ Hreach) as [Hi Ha _ _ Hg _]. simpl in *. specialize (Hg t id). fold l in Hg.
  split_and!.
  - intros i p r Hp Hr. destruct (Hg _ _ Hr) as [[Hd _]|(j & p' & [= <-] & Hp' & Hadv & Hk)]; [by left|]. right.
    rewrite Hp in Hp'. injection Hp' as <-. split; [done|]. by eapply advance_transition.
  - intros r [i Hr]%list_elem_of_lookup_1 Hnd. destruct (governed_versions _ _ _ _ _ _ Hg Hr) as [_ (lp & Hp & Hp') (lv & Hv & Hv') _].
    destruct Hp' as [?|Hp']; [done|]. destruct Hv' as [?| ->]; [done|]. split; [|done]. destruct lp as [|v vs]; [done|]. eauto.
  - intros r [i Hr]%list_elem_of_lookup_1 Happ. destruct (governed_versions _ _ _ _ _ _ Hg Hr) as [_ _ _ (risk & Hrisk & Hok)].
    exists risk. split; [done|]. intros H2. destruct (Hok Happ H2) as (aid & x & Hx & Hst & Hid). exists aid, x. split_and!; try done.
    by eapply sound_four_eyes, al_sound.
Qed.

(** ** The handlers take these steps *)

(** The requests of the routes, with the clock of each *)
Inductive api_request :=
| ReqCollection (now : Z) (kd : string) (b : ResourceRequest) (c : ApiContext)
| ReqCreatePlan (now : Z) (b : ResourceRequest) (c : ApiContext)
| ReqValidatePlan (now : Z) (plan_id : string) (c : ApiContext)
| ReqSubmitPlan (now : Z) (plan_id : string) (sub : ApprovalSubmission) (c : ApiContext)
| ReqModifyApproval (now : Z) (approval_id : string) (sub : ApprovalSubmission) (c : ApiContext)
| ReqCreateApproval (now : Z) (b : ResourceRequest) (c : ApiContext)
| ReqApprove (now : Z) (approval_id : string) (b : ResourceRequest) (c : ApiContext)
| ReqReject (now : Z) (approval_id : string) (b : ResourceRequest) (c : ApiContext).

Section serving.
Context {S A : Type} (api : store_api pyval S) (inv : S → Prop) `{!StoreLaws api inv}.
Context (aa : approval_api A) (ainv : A → Prop) `{!ApprovalLaws aa ainv}.
Context (audit_digest : audit_source → string) (intent_digest : pyval → string).
Context (dt_text : datetime → string) (fromisoformat : string → result datetime) (str_container : pyval → string).

#[local] Abbreviation state := (api_state S A).
#[local] Abbreviation step := (gov_step api aa dt_text).

Definition discard {X} (m : M state X) : state → state := λ st, (m st).1.

(** A collection route has one of the kinds of [GENERIC_COLLECTIONS]. *)
Definition serve (r : api_request) : state → state :=
  match r with
  | ReqCollection now kd b c =>
      if mem kd (map snd GENERIC_COLLECTIONS) then discard (collection_create api audit_digest now kd b c) else id
  | ReqCreatePlan now b c => discard (create_governed_plan api audit_digest now b c)
  | ReqValidatePlan now id c => discard (validate_governed_plan api audit_digest intent_digest dt_text now id c)
  | ReqSubmitPlan now id sub c => discard (submit_plan_approval api aa audit_digest intent_digest dt_text now id sub c)
  | ReqModifyApproval now id sub c => discard (modify_approval aa audit_digest intent_digest dt_text now id sub c)
  | ReqCreateApproval now b c => discard (create_approval aa audit_digest intent_digest fromisoformat str_container now b c)
  | ReqApprove now id b c => discard (approve_request api aa audit_digest intent_digest dt_text fromisoformat str_container now id b c)
  | ReqReject now id b c => discard (reject_request api aa audit_digest intent_digest dt_text now id b c)
  end.

Definition sound_state (st : state) : Prop := inv (st_store st) ∧ ainv (st_approvals st).
Definition view_of (st : state) : S * A * list (put_request pyval) := (st_store st, st_approvals st, []).

(** Run at [st], [m] takes steps of the relation. *)
Definition tracks {X} (st : state) (m : M state X) : Prop :=
  sound_state st → sound_state (m st).1 ∧ rtc step (view_of st) (view_of (m st).1).

Lemma tracks_pure {X} st (m : M state X) : view_of (m st).1 = view_of st → tracks st m.
Proof. intros H Hs. unfold view_of in *. injection H as H1 H2. unfold sound_state. rewrite H1, H2. done. Qed.

Lemma tracks_bind {X Y} st (m : M state X) (f : X → M state Y) : tracks st m →
  (∀ x, (m st).2 = Ok x → tracks (m st).1 (f x)) → tracks st (m ≫= f).
Proof.
  intros Hm Hf Hs. destruct (Hm Hs) as [Hs1 Hr]. unfold mbind, M_bind. destruct (m st) as [st1 [x|e]]; [|done]. simpl in *.
  destruct (Hf x eq_refl Hs1) as [Hs2 Hr2]. split; [done|]. by etransitivity.
Qed.

Lemma tracks_audit st now c op res : tracks st (audit_success audit_digest now c op res).
Proof. by apply tracks_pure. Qed.

(** A write that is prepared here, then made *)
Lemma tracks_put st now q : prepared api aa dt_text (st_store st) (st_approvals st) q → tracks st (on_store (api_put api now q)).
Proof using StoreLaws0.
  intros Hp [Hi Ha]. unfold on_store. destruct (put_cases api inv now q (st_store st) Hi) as [Hi' _].
  destruct (api_put api now q (st_store st)) as [s' r] eqn:E. simpl in *. split; [done|]. unfold view_of. simpl.
  eapply rtc_l; [by apply gov_prepare|]. eapply rtc_l; [apply (gov_write _ _ _ _ _ [] q [] now)|]. by rewrite E.
Qed.

Lemma tracks_other st now q : put_kind q ≠ "plan" → tracks st (on_store (A:=A) (api_put api now q)).
Proof using StoreLaws0.
  intros Hq [Hi Ha]. unfold on_store. destruct (put_cases api inv now q (st_store st) Hi) as [Hi' _].
  destruct (api_put api now q (st_store st)) as [s' r] eqn:E. simpl in *. split; [done|]. unfold view_of. simpl.
  eapply rtc_l; [by apply (gov_other _ _ _ _ _ _ now q)|]. by rewrite E.
Qed.

Lemma tracks_draft st now b c data : governed_document c (body_data b) = Ok data →
  tracks st (on_store (A:=A) (api_put api now (mutate_put "plan" (MkResourceRequest (body_id b) data) c))).
Proof using StoreLaws0.
  intros Hq [Hi Ha]. unfold on_store. set (q := mutate_put _ _ _). destruct (put_cases api inv now q (st_store st) Hi) as [Hi' _].
  destruct (api_put api now q (st_store st)) as [s' r] eqn:E. simpl in *. split; [done|]. unfold view_of. simpl.
  eapply rtc_l; [by apply (gov_draft _ _ _ _ _ _ now b c data)|]. fold q. by rewrite E.
Qed.

Lemma tracks_approval {X} st (m : M A X) o : op_fresh o → (∀ a, (m a).1 = aa_step aa o a) → tracks st (on_approvals m).
Proof using ApprovalLaws0.
  intros Ho Hm [Hi Ha]. unfold on_approvals. pose proof (Hm (st_approvals st)) as E. destruct (m (st_approvals st)) as [a' r]. simpl in *. subst a'.
  split; [split; [done|by apply al_step]|]. by apply rtc_once, (gov_approval _ _ _ (st_store st) (st_approvals st) [] o).
Qed.

Lemma tracks_commit st now q : (∀ q', q = Ok q' → prepared api aa dt_text (st_store st) (st_approvals st) q') → tracks st (commit_plan api now q).
Proof using StoreLaws0.
  intros Hq. unfold commit_plan. apply tracks_bind; [by apply tracks_pure|]. simpl. intros q' E.
  apply tracks_bind; [by apply tracks_put, Hq|]. intros r _. by apply tracks_pure.
Qed.

Lemma tracks_operate st now c op res intent callback : tracks st callback →
  tracks st (audited_operation audit_digest intent_digest now c op res intent callback).
Proof.
  intros Hc Hs. destruct (Hc Hs) as [Hs1 Hr]. unfold audited_operation. destruct (request_guard _) as [[]|]; [|done].
  destruct (st_ops st !! _) as [[[po pd] pv]|]; [done|]. unfold mbind, M_bind. destruct (callback st) as [st1 [v|e]]; [|done]. done.
Qed.

Lemma tracks_settle st now c r approval_id target stamp at_ :
  aa_view aa (st_approvals st) (ctx_tenant c) approval_id = Some r →
  (req_status r = APPROVED ∧ target = "approved" ∧ stamp = "approved_at" ∨
   req_status r = REJECTED ∧ target = "rejected" ∧ stamp = "rejected_at") →
  tracks st (settle_plan api dt_text now c (req_plan_id r) target stamp at_).
Proof using StoreLaws0.
  intros Hv Hst. unfold tracks, settle_plan. destruct (api_get api _ (st_store st)) as [plan|e] eqn:Eg; [|destruct e; done].
  destruct (py_eq _ _) eqn:Ep; [|done]. apply tracks_bind; [|intros; by apply tracks_pure].
  apply tracks_commit. intros q' [= <-]. by eapply prepare_decide.
Qed.

Lemma tracks_mutate st now kd b c : kd ≠ "plan" → tracks st (mutate api audit_digest now kd b c).
Proof using StoreLaws0.
  intros Hk. unfold mutate. apply tracks_bind; [by apply tracks_pure|]. simpl. intros _ _. apply tracks_bind; [by apply tracks_other|].
  intros r _. apply tracks_bind; [apply tracks_audit|]. intros rec _. by apply tracks_pure.
Qed.

Lemma tracks_create st now b c : tracks st (create_governed_plan api audit_digest now b c).
Proof using StoreLaws0.
  unfold create_governed_plan. apply tracks_bind; [by apply tracks_pure|]. simpl. intros data Hd. unfold mutate.
  apply tracks_bind; [by apply tracks_pure|]. simpl. intros _ _. apply tracks_bind; [by apply tracks_draft|].
  intros r _. apply tracks_bind; [apply tracks_audit|]. intros rec _. by apply tracks_pure.
Qed.

Lemma tracks_validate st now id c : tracks st (validate_governed_plan api audit_digest intent_digest dt_text now id c).
Proof using StoreLaws0.
  unfold validate_governed_plan. apply tracks_bind; [by apply tracks_pure|]. simpl. intros current Hg. apply tracks_operate.
  apply tracks_bind; [|intros; by apply tracks_pure]. apply tracks_commit. intros q Hq. by eapply prepare_validate.
Qed.

Lemma tracks_submit st now id sub c : tracks st (submit_plan_approval api aa audit_digest intent_digest dt_text now id sub c).
Proof using StoreLaws0 ApprovalLaws0.
  unfold submit_plan_approval. apply tracks_bind; [by apply tracks_pure|]. simpl. intros _ _. apply tracks_bind; [by apply tracks_pure|].
  simpl. intros current Hg. apply tracks_bind; [by apply tracks_pure|]. simpl. intros risk Hr. apply tracks_operate. unfold submit_callback.
  apply tracks_bind; [apply tracks_commit; intros q Hq; by eapply prepare_submit|]. intros d _. destruct (2 <=? risk_int risk); [|by apply tracks_pure].
  apply tracks_bind; [|intros; by apply tracks_pure]. by apply (tracks_approval _ _ (OpCreate (submission_request c id (approval_id_of id current) risk sub))).
Qed.

Lemma tracks_modify st now id sub c : tracks st (modify_approval (S:=S) aa audit_digest intent_digest dt_text now id sub c).
Proof using ApprovalLaws0.
  unfold modify_approval. apply tracks_bind; [by apply tracks_pure|]. simpl. intros _ _. apply tracks_operate.
  apply tracks_bind; [|intros; by apply tracks_pure]. by apply (tracks_approval _ _ (OpModify (ctx_tenant c) id (ctx_actor c) (sub_expires_at sub) (sub_roles sub) (sub_count sub))).
Qed.

Lemma tracks_create_approval st now b c :
  tracks st (create_approval (S:=S) aa audit_digest intent_digest fromisoformat str_container now b c).
Proof using ApprovalLaws0.
  unfold create_approval. apply tracks_bind; [by apply tracks_pure|]. simpl. intros request Hr. apply tracks_operate.
  apply tracks_bind; [|intros; by apply tracks_pure]. apply (tracks_approval _ _ (OpCreate request)); [|done]. simpl.
  unfold parse_approval, mbind, result_bind in Hr. repeat (case_match; [|done]). injection Hr as <-. done.
Qed.

Lemma tracks_approve st now id b c :
  tracks st (approve_request api aa audit_digest intent_digest dt_text fromisoformat str_container now id b c).
Proof using StoreLaws0 ApprovalLaws0.
  unfold approve_request. apply tracks_bind; [by apply tracks_pure|]. simpl. intros role _. apply tracks_bind; [by apply tracks_pure|]. simpl. intros _ _.
  apply tracks_operate. unfold approve_callback. apply tracks_bind; [by apply tracks_pure|]. simpl. intros at_ _.
  intros Hs. apply tracks_bind; [by apply (tracks_approval _ _ (OpApprove (ctx_tenant c) id (ctx_actor c) role at_))| |done].
  unfold on_approvals. destruct (aa_approve aa _ id _ role at_ (st_approvals st)) as [a' res] eqn:Ea. simpl. intros a ->. case_bool_decide as Hst; [|by apply tracks_pure].
  apply tracks_bind; [|intros; by apply tracks_pure]. eapply (tracks_settle _ _ _ a id); [|by left]. simpl. eapply al_approve; [apply Hs|done].
Qed.

Lemma tracks_reject st now id b c : tracks st (reject_request api aa audit_digest intent_digest dt_text now id b c).
Proof using StoreLaws0 ApprovalLaws0.
  unfold reject_request. apply tracks_operate. unfold reject_callback. intros Hs. revert Hs. apply tracks_bind.
  { intros Hs. unfold on_approvals. destruct (al_get (ctx_tenant c) id (st_approvals st) (proj2 Hs)) as [E _].
    destruct (aa_get aa _ id (st_approvals st)) as [a' r]. simpl in E. subst a'. by destruct st. }
  intros request _. apply tracks_bind; [by apply tracks_pure|]. intros _ _. simpl.
  set (st1 := (on_approvals (aa_get aa (ctx_tenant c) id) st).1). generalize st1. clear st1. intros st1 Hs.
  apply tracks_bind; [by apply (tracks_approval _ _ (OpReject (ctx_tenant c) id))| |done].
  unfold on_approvals. destruct (aa_reject aa _ id (st_approvals st1)) as [a' res] eqn:Ea. simpl. intros a ->.
  apply tracks_bind; [|intros; by apply tracks_pure]. destruct (al_reject _ _ _ _ _ (proj2 Hs) Ea) as [Hv Hst].
  eapply (tracks_settle _ _ _ a id); [done|by right].
Qed.

Lemma tracks_serve r st : sound_state st → sound_state (serve r st) ∧ rtc step (view_of st) (view_of (serve r st)).
Proof using StoreLaws0 ApprovalLaws0.
  destruct r as [now kd b c| | | | | | |]; simpl; unfold discard.
  - destruct (mem kd _) eqn:Em; [|done]. apply mem_true in Em. assert (kd ≠ "plan") as Hk by (intros ->; simpl in Em; set_solver).
    unfold collection_create. case_bool_decide; [|by apply tracks_mutate].
    set (p := match api_get _ _ _ with Ok _ => _ | Err _ => _ end). destruct p as [[]|]; [done| |done]. by apply tracks_mutate.
  - apply tracks_create.
  - apply tracks_validate.
  - apply tracks_submit.
  - apply tracks_modify.
  - apply tracks_create_approval.
  - apply tracks_approve.
  - apply tracks_reject.
Qed.

Lemma serve_reach rs st : sound_state st → sound_state (foldl (λ st r, serve r st) st rs) ∧
  rtc step (view_of st) (view_of (foldl (λ st r, serve r st) st rs)).
Proof using StoreLaws0 ApprovalLaws0.
  revert st. induction rs as [|r rs IH]; intros st Hs; [done|]. simpl. destruct (tracks_serve r st Hs) as [Hs1 H1].
  destruct (IH _ Hs1) as [Hs2 H2]. split; [done|]. by etransitivity.
Qed.
End serving.

(** C9: The handlers refine the interleaved steps.  A request to a plan, approval or collection route, run to its
    end, is a sequence of the steps of [gov_step] (reading, writing, voting), and so is any sequence of requests
    served from the empty process: what holds of every reachable configuration holds of the running API. *)
Theorem plan_handlers_refine {S A : Type} (api : store_api pyval S) (inv : S → Prop) `{!StoreLaws api inv}
    (aa : approval_api A) (ainv : A → Prop) `{!ApprovalLaws aa ainv}
    (audit_digest : audit_source → string) (intent_digest : pyval → string) (dt_text : datetime → string)
    (fromisoformat : string → result datetime) (str_container : pyval → string) :
  (∀ r st, sound_state inv ainv st →
     rtc (gov_step api aa dt_text) (view_of st) (view_of (serve api aa audit_digest intent_digest dt_text fromisoformat str_container r st))) ∧
  (∀ rs, let st := foldl (λ st r, serve api aa audit_digest intent_digest dt_text fromisoformat str_container r st)
           (MkState (api_init api) (aa_init aa) [] ∅) rs in
     rtc (gov_step api aa dt_text) (api_init api, aa_init aa, []) (st_store st, st_approvals st, [])).
Proof.
  split.
  - intros r st Hs. by apply (tracks_serve api inv aa ainv audit_digest intent_digest dt_text fromisoformat str_container r st Hs).
  - intros rs st. apply (serve_reach api inv aa ainv audit_digest intent_digest dt_text fromisoformat str_container rs
      (MkState (api_init api) (aa_init aa) [] ∅)). split; [apply sl_init|apply al_init].
Qed.

(** ** A run *)

Definition toy_context_of (actor role key : string) (m : option string) : ApiContext :=
  MkContext "acme" actor {[role]} "corr-1" (Some key) m.
Definition toy_submission : ApprovalSubmission := MkSubmission (DT 1000 true) {["safety_admin"]} 2.
Definition vote (role : string) : ResourceRequest := MkResourceRequest "vote" [("role", VStr role); ("now", VStr "5")].
Definition toy_plan (risk : Z) : ResourceRequest :=
  MkResourceRequest "p1" [("site_id", VStr "s1"); ("state_version", VStr "v1"); ("risk", VInt risk); ("policy_versions", VList [VStr "pol@1"])].

(** A plan of risk L4 created, validated and submitted for two approvals *)
Definition submitted : list api_request :=
  [ReqCreatePlan 0 (toy_plan 4) (toy_context_of "alice" "planner" "key-0001" None);
   ReqValidatePlan 1 "p1" (toy_context_of "alice" "planner" "key-0002" (Some "1"));
   ReqSubmitPlan 2 "p1" toy_submission (toy_context_of "alice" "planner" "key-0003" (Some "2"))].
Definition two_votes : list api_request :=
  [ReqApprove 5 "approval-p1-3" (vote "safety_admin") (toy_context_of "bob" "safety_admin" "key-0004" None);
   ReqApprove 6 "approval-p1-3" (vote "safety_admin") (toy_context_of "carol" "safety_admin" "key-0005" None)].

Abbreviation toy_serve := (serve toy_store mem_approvals (λ _, "hash") (λ v, "digest") (λ d, int_str (us d)) (λ _, Ok (DT 5 true)) (λ _, "")).
Definition toy_run (rs : list api_request) : api_state (Store.mem_store pyval) mem_requests :=
  foldl (λ st r, toy_serve r st) (MkState (api_init toy_store) (aa_init mem_approvals) [] ∅) rs.
(** The states of the versions of the plan *)
Definition plan_states (st : api_state (Store.mem_store pyval) mem_requests) : list pyval :=
  map (λ r, field "state" (body r)) (api_history toy_store ("acme", "plan", "p1") (st_store st)).

Lemma toy_tags (t k : string) (v v' : Z) (b b' : rbody) : api_tag toy_store t k v b = api_tag toy_store t k v' b' → v = v'.
Proof.
  cbn [api_tag mem_api]. intros H. assert (py_int (VStr (int_str v)) = py_int (VStr (int_str v'))) as E by by rewrite H.
  rewrite !int_of_int_str in E. by injection E.
Qed.

Lemma plan_handlers_refine_witness :
  plan_states (toy_run (submitted ++ two_votes)) = [VStr "draft"; VStr "validated"; VStr "pending_approval"; VStr "approved"] ∧
  rtc (gov_step toy_store mem_approvals (λ d, int_str (us d))) (api_init toy_store, aa_init mem_approvals, [])
    (st_store (toy_run (submitted ++ two_votes)), st_approvals (toy_run (submitted ++ two_votes)), []).
Proof.
  split; [by vm_compute|].
  exact (proj2 (plan_handlers_refine toy_store mem_inv mem_approvals mem_sound (λ _, "hash") (λ v, "digest") (λ d, int_str (us d))
    (λ _, Ok (DT 5 true)) (λ _, "")) (submitted ++ two_votes)).
Defined.

Lemma governed_plans_safe_witness :
  plan_states (toy_run (submitted ++ two_votes)) = [VStr "draft"; VStr "validated"; VStr "pending_approval"; VStr "approved"] ∧
  ∀ r, r ∈ api_history toy_store ("acme", "plan", "p1") (st_store (toy_run (submitted ++ two_votes))) → in_state (body r) "approved" →
     ∃ risk, body r !! "risk" = Some (VInt (risk_int risk)) ∧
       (2 <= risk_int risk → ∃ approval_id x, aa_view mem_approvals (st_approvals (toy_run (submitted ++ two_votes))) "acme" approval_id = Some x ∧
          req_status x = APPROVED ∧ req_plan_id x = "p1" ∧ four_eyes x).
Proof.
  split; [by vm_compute|].
  refine (proj2 (proj2 (governed_plans_safe toy_store mem_inv mem_approvals mem_sound (λ d, int_str (us d)) id direct toy_stored toy_tags
    (st_store (toy_run (submitted ++ two_votes))) (st_approvals (toy_run (submitted ++ two_votes))) [] _ "acme" "p1"))).
  apply (serve_reach toy_store mem_inv mem_approvals mem_sound (λ _, "hash") (λ v, "digest") (λ d, int_str (us d)) (λ _, Ok (DT 5 true)) (λ _, "")
    (submitted ++ two_votes) (MkState (api_init toy_store) (aa_init mem_approvals) [] ∅)).
  split; [apply sl_init|apply al_init].
Defined.

(** A plan is approved by any approval that names it.  [approve_request] does not compare the approval with the
    one that the plan was submitted under, and [create_approval] takes the plan and the risk from its caller: here
    a second request of risk L0, created by the author of the plan for the vote of one operator, approves a plan of
    risk L4, while its own request, which asks for two safety administrators, is still pending. *)
Definition weak_request : ResourceRequest :=
  MkResourceRequest "weak" [("plan_id", VStr "p1"); ("risk", VInt 0); ("expires_at", VStr "later"); ("required_roles", VList [VStr "operator"]);
    ("required_count", VInt 0)].
Theorem weak_approval_suffices :
  let st := (foldl (λ st r, serve toy_store mem_approvals (λ _, "hash") (λ v, "digest") (λ d, int_str (us d))
      (λ s, Ok (DT (if decide (s = "later") then 1000 else 5) true)) (λ _, "") r st) (MkState (api_init toy_store) (aa_init mem_approvals) [] ∅)
    (submitted ++ [ReqCreateApproval 3 weak_request (toy_context_of "alice" "planner" "key-0006" None);
                   ReqApprove 5 "weak" (vote "operator") (toy_context_of "dave" "operator" "key-0007" None)])) in
  plan_states st = [VStr "draft"; VStr "validated"; VStr "pending_approval"; VStr "approved"] ∧
  map (λ r, field "risk" (body r)) (api_history toy_store ("acme", "plan", "p1") (st_store st)) = [VInt 4; VInt 4; VInt 4; VInt 4] ∧
  req_status <$> aa_view mem_approvals (st_approvals st) "acme" "approval-p1-3" = Some PENDING ∧
  (λ r, (req_risk r, approvals r)) <$> aa_view mem_approvals (st_approvals st) "acme" "weak" = Some (L0, [("dave", "operator")]).
Proof. by vm_compute. Qed.

(** A submission whose approval cannot be created leaves the plan waiting for it.  The plan is stored as pending
    before the workflow refuses a request that asks for fewer approvals than the risk demands, and no other
    submission is accepted afterwards. *)
Theorem refused_submission_strands_plan :
  let low := MkSubmission (DT 1000 true) {["safety_admin"]} 1 in
  let st := toy_run [ReqCreatePlan 0 (toy_plan 4) (toy_context_of "alice" "planner" "key-0001" None);
                     ReqValidatePlan 1 "p1" (toy_context_of "alice" "planner" "key-0002" (Some "1"))] in
  let submit := submit_plan_approval toy_store mem_approvals (λ _, "hash") (λ v, "digest") (λ d, int_str (us d)) 2 "p1" in
  let out := submit low (toy_context_of "alice" "planner" "key-0003" (Some "2")) st in
  out.2 = Err (ValueError "approval count below risk minimum") ∧
  plan_states out.1 = [VStr "draft"; VStr "validated"; VStr "pending_approval"] ∧
  aa_view mem_approvals (st_approvals out.1) "acme" "approval-p1-3" = None ∧
  (submit toy_submission (toy_context_of "alice" "planner" "key-0004" (Some "3")) out.1).2 = Err (ValueError "only a validated plan can enter approval").
Proof. by vm_compute. Qed.
