(* ===== verification/Actions.v ===== *)
(** * Actions in the API: [apps/api/main.py]

    Parsing, dry run, execution and cancellation of an action: the composition of the approval workflow, the
    action guard, the idempotency store and the executors.  The state is the approval workflow, the in-process
    idempotency store, the simulator's state and the world [W] of the provider behind the guarded executor.

    [datetime.fromisoformat], the digest of an intent and what the guarded executor consults (files, token
    library, registry, provider) are parameters.  A bound that is not a finite number raises. *)
From S2P Require Import Prelude PyDecimal PyValue PyText Domain Settings Access Approval Guard Idempotency Versions Store Api Governance.
Local Open Scope Z_scope.

(** [dict(v)] of a mapping, or of a sequence of pairs whose first items are texts *)
Definition pair_of (v : pyval) : result (string * pyval) :=
  l ← py_iter v;
  match l with
  | [VStr k; x] => Ok (k, x)
  | [_; _] => Err TypeError
  | _ => Err (ValueError "dictionary update sequence element has the wrong length")
  end.
Definition dict_of (v : pyval) : result document :=
  match v with
  | VDict kvs => Ok kvs
  | _ => l ← py_iter v; ps ← mapM_result pair_of l; Ok (foldl (λ d kv, od_set kv.1 kv.2 d) [] ps)
  end.

(** [v[i]] for a small index *)
Definition py_at (i : nat) (v : pyval) : result pyval :=
  match v with
  | VList l => of_option IndexError (l !! i)
  | VStr _ => l ← py_iter v; of_option IndexError (l !! i)
  | VDict _ => Err (KeyError "index")
  | _ => Err TypeError
  end.

(** What the executors of the process consult *)
Record executor_env := MkExecutorEnv {
  key_file_exists : bool; registry_integrity : bool; verify_token : string → result dict; revocations : option dict
}.

Inductive exec_result := Simulated (e : evidence) | Provided (d : dict).

(** The fields of the settings that the guarded executor reads *)
Definition guard_settings (s : Settings) : Guard.settings :=
  Guard.MkSettings (Settings.external_writes_allowed s) (Settings.release_certificate s)
    (match Settings.release_commit s with Some c => VStr c | None => VNone end) (Settings.executor_url s) (Settings.executor_target s).

Section actions.
Context {A W : Type} (aa : approval_api A).
Context (fromisoformat : string → result datetime) (str_container : pyval → string) (intent_digest : pyval → string).
Context (s : Settings) (env : executor_env) (post : string → dict → string → string → M W pyval) (post_dry_run : string → dict → M W pyval).

#[local] Abbreviation text := (py_str str_container).

Record act_state := MkActState { as_approvals : A; as_idem : Idempotency.mem_store exec_result; as_world : dict * W }.

Definition parse_bound (kv : string * pyval) : result (string * (dec * dec)) :=
  lo ← py_at 0 kv.2 ≫= PyText.py_decimal str_container;
  hi ← py_at 1 kv.2 ≫= PyText.py_decimal str_container;
  Ok (kv.1, (lo, hi)).

Definition parse_action (action_id : string) (data : document) (tenant_id : string) : result Action :=
  plan_id ← item "plan_id" data;
  target ← item "target" data;
  kind ← item "kind" data;
  expected ← item "expected_state_version" data;
  params ← item "parameters" data ≫= dict_of;
  raw_bounds ← dict_of (default (VDict []) (od_get "bounds" data));
  bs ← mapM_result parse_bound raw_bounds;
  timeout ← py_int (default (VInt 30) (od_get "timeout_seconds" data));
  key ← item "idempotency_key" data;
  z ← item "risk" data ≫= py_int;
  risk ← risk_of_int z;
  created ← item "created_at" data ≫= λ v, fromisoformat (text v);
  Ok (MkAction action_id (text plan_id) tenant_id (text target) (text kind) (text expected) params bs timeout (text key) risk created
    (match od_get "compensation_kind" data with Some VNone | None => None | Some v => Some (text v) end)).

(** [ActionGuard(frozenset({"schedule_job", "set_dispatch_plan"}))] with its default age limit *)
Definition action_whitelist : gset string := {["schedule_job"; "set_dispatch_plan"]}.
Definition action_max_age : Z := 300000000.

Definition simulator_allowed : bool := mem (environment s) ["test"; "simulator"].

Definition dry_run_executor (a : Action) : M (dict * W) dict := λ w,
  if bool_decide (action_target a = "simulator") then
    if simulator_allowed then (w, Ok (sim_dry_run (action_kind a) (parameters a)))
    else (w, Err (PermissionError "simulator actions cannot be used by a production API"))
  else
    let '(w2, r) := guarded_dry_run post_dry_run (guard_settings s) (action_target a) (action_kind a) (parameters a) w.2 in ((w.1, w2), r).

Definition execute_with_adapter (a : Action) : M (dict * W) exec_result := λ w,
  if bool_decide (action_target a = "simulator") then
    if simulator_allowed then
      let '(w1, r) := sim_execute (action_kind a) (parameters a) w.1 in ((w1, w.2), Simulated <$> r)
    else (w, Err (PermissionError "simulator actions cannot be executed by a production API"))
  else
    let '(w2, r) := guarded_execute (key_file_exists env) (registry_integrity env) (verify_token env) (revocations env) post text
      (guard_settings s) (action_target a) (action_kind a) (parameters a) (idempotency_key a) w.2 in
    ((w.1, w2), Provided <$> r).

(** The approval named by the request, if any *)
Definition named_approval (data : document) (tenant : string) : M A (option ApprovalRequest) :=
  if py_bool (get "approval_id" data) then r ← aa_get aa tenant (text (get "approval_id" data)); mret (Some r) else mret None.

(** What both handlers do before an executor is asked: the action, and the decision of the guard on it *)
Definition guarded_action (action_id : string) (b : ResourceRequest) (c : ApiContext) : M A (Action * GuardDecision) :=
  action ← mlift (parse_action action_id (body_data b) (ctx_tenant c));
  approval ← named_approval (body_data b) (ctx_tenant c);
  current ← mlift (item "current_state_version" (body_data b));
  now ← mlift (item "now" (body_data b) ≫= λ v, fromisoformat (text v));
  decision ← mlift (guard_evaluate action_whitelist action_max_age action (text current) now approval);
  mret (action, decision).

Definition on_workflow {X} (m : M A X) : M act_state X := λ st,
  let '(a', r) := m (as_approvals st) in (MkActState a' (as_idem st) (as_world st), r).
Definition on_world {X} (m : M (dict * W) X) : M act_state X := λ st,
  let '(w', r) := m (as_world st) in (MkActState (as_approvals st) (as_idem st) w', r).

Definition dry_run_action (action_id : string) (b : ResourceRequest) (c : ApiContext) : M act_state (GuardDecision * dict) :=
  ad ← on_workflow (guarded_action action_id b c);
  d ← on_world (dry_run_executor ad.1);
  mret (ad.2, d).

Definition action_intent (a : Action) : pyval := VDict [("action", VStr (action_id a)); ("parameters", VDict (parameters a))].

Definition execute_once (a : Action) (tenant : string) : M act_state exec_result := λ st,
  let '(sw, r) := Idempotency.mem_execute_once tenant (idempotency_key a) (action_id a) (intent_digest (action_intent a))
    (execute_with_adapter a) (as_idem st, as_world st) in
  (MkActState (as_approvals st) sw.1 sw.2, r).

Definition execute_action (action_id : string) (b : ResourceRequest) (c : ApiContext) : M act_state exec_result :=
  ad ← on_workflow (guarded_action action_id b c);
  mguard (negb (allowed ad.2)) (PermissionError "Action Guard rejected");;
  execute_once ad.1 (ctx_tenant c).

(** The callback of [cancel_action], which runs as an audited operation *)
Definition cancel_callback (action_id : string) (b : ResourceRequest) (c : ApiContext) : M act_state cancellation := λ st,
  let reason_ := py_strip (text (default (VStr "") (od_get "reason" (body_data b)))) in
  let '(i', r) := Idempotency.mem_cancel action_id (ctx_tenant c) (ctx_actor c) reason_ (as_idem st) in
  (MkActState (as_approvals st) i' (as_world st), r).
Definition cancel_action (action_id : string) (b : ResourceRequest) (c : ApiContext) : M act_state cancellation :=
  mguard (negb (bool_decide (body_id b = action_id))) (ValueError "action ID mismatch");;
  cancel_callback action_id b c.
End actions.

Arguments act_state : clear implicits.
Arguments MkActState {A W} _ _ _.
Arguments as_approvals {A W} _.
Arguments as_idem {A W} _.
Arguments as_world {A W} _.

Section facts.
Context {A W : Type} (aa : approval_api A) (ainv : A → Prop) `{!ApprovalLaws aa ainv}.
Context (fromisoformat : string → result datetime) (str_container : pyval → string) (intent_digest : pyval → string).
Context (s : Settings) (env : executor_env) (post : string → dict → string → string → M W pyval).

Lemma parse_action_fields id data t a : parse_action fromisoformat str_container id data t = Ok a → action_id a = id ∧ action_tenant_id a = t.
Proof. unfold parse_action, mbind, result_bind. repeat (case_match; [|done]). by intros [= <-]. Qed.

Lemma named_approval_spec data t a : ainv a →
  (named_approval aa str_container data t a).1 = a ∧
  ∀ approval, (named_approval aa str_container data t a).2 = Ok approval →
    ∀ r, approval = Some r → aa_view aa a t (py_str str_container (get "approval_id" data)) = Some r.
Proof using ApprovalLaws0.
  intros Ha. unfold named_approval. destruct (py_bool _); [|split; [done|]; by intros ? [= <-]].
  destruct (al_get t (py_str str_container (get "approval_id" data)) a Ha) as [H1 H2].
  unfold mbind, M_bind. destruct (aa_get aa _ _ a) as [a' [r|e]]; simpl in *; subst; (split; [done|]); [|done].
  intros ? [= <-] r' [= <-]. by apply H2.
Qed.

(** What the guard has seen when it decided *)
Record guarded_by (id : string) (b : ResourceRequest) (c : ApiContext) (a : A) (action : Action) (d : GuardDecision) : Prop := {
  gb_action : parse_action fromisoformat str_container id (body_data b) (ctx_tenant c) = Ok action;
  gb_decision : ∃ approval current now,
    guard_evaluate action_whitelist action_max_age action current now approval = Ok d ∧
    ∀ r, approval = Some r → aa_view aa a (ctx_tenant c) (py_str str_container (get "approval_id" (body_data b))) = Some r
}.

Lemma guarded_action_spec id b c a : ainv a →
  (guarded_action aa fromisoformat str_container id b c a).1 = a ∧
  ∀ action d, (guarded_action aa fromisoformat str_container id b c a).2 = Ok (action, d) → guarded_by id b c a action d.
Proof using ApprovalLaws0.
  intros Ha. unfold guarded_action. unfold mlift, mret, M_ret, mbind, M_bind.
  destruct (parse_action _ _ id _ _) as [action|] eqn:Ep; [|done].
  destruct (named_approval_spec (body_data b) (ctx_tenant c) a Ha) as [H1 H2].
  destruct (named_approval aa str_container _ _ a) as [a' [approval|e]]; simpl in *; subst a'; [|done].
  destruct (item "current_state_version" _) as [cur|]; [|done]. destruct (result_bind _ _ _ _) as [now|]; [|done].
  destruct (guard_evaluate _ _ action _ now approval) as [d|] eqn:Eg; [|done]. split; [done|]. intros action' d' [= <- <-].
  split; [done|]. exists approval, (py_str str_container cur), now. split; [done|]. intros r Hr. by eapply H2.
Qed.

(** The world changes only through an executor that is open to the action. *)
Definition executor_open (a : Action) (w w' : dict * W) : Prop :=
  action_target a = "simulator" ∧ environment s ∈ ["test"; "simulator"] ∧ w'.2 = w.2 ∨
  gates_open (key_file_exists env) (registry_integrity env) (verify_token env) (revocations env) (guard_settings s) (action_target a) ∧ w'.1 = w.1.

Lemma execute_with_adapter_spec a w : let out := execute_with_adapter str_container s env post a w in
  out.1 = w ∨ executor_open a w out.1.
Proof.
  unfold execute_with_adapter, executor_open, simulator_allowed. case_bool_decide as Ht.
  - destruct (mem _ _) eqn:Em; [|by left]. right. left. apply mem_true in Em.
    by destruct (sim_execute (action_kind a) (parameters a) w.1) as [w1 r].
  - pose proof (guarded_execute_gates (key_file_exists env) (registry_integrity env) (verify_token env) (revocations env) post (py_str str_container)
      (guard_settings s) (action_target a) (action_kind a) (parameters a) (idempotency_key a) w.2) as Hg.
    destruct (guarded_execute _ _ _ _ post _ _ _ _ _ _ w.2) as [w2 r]. simpl in *.
    destruct Hg as [[-> _]|Hg]; [left; by destruct w|right; by right].
Qed.

Lemma execute_once_spec a t (st : act_state A W) : let out := execute_once str_container intent_digest s env post a t st in
  as_approvals out.1 = as_approvals st ∧
  (as_world out.1 = as_world st ∨
   cancellations (as_idem st) !! (t, action_id a) = None ∧ results (as_idem st) !! (t, idempotency_key a) = None ∧
   executor_open a (as_world st) (as_world out.1)).
Proof.
  unfold execute_once, Idempotency.mem_execute_once.
  destruct (Idempotency.mem_begin t (idempotency_key a) (action_id a) _ _) as [i1 [[v|]|e]] eqn:Eb; simpl; [by split; [|left]| |by split; [|left]].
  assert (cancellations (as_idem st) !! (t, action_id a) = None ∧ results (as_idem st) !! (t, idempotency_key a) = None) as [Hc Hr].
  { unfold Idempotency.mem_begin in Eb. unfold mget, mguard, mret, M_ret, mput, raise_if, mbind, M_bind in Eb. simpl in Eb.
    case_bool_decide as Hc; [done|]. destruct (results (as_idem st) !! _) as [[pd r]|] eqn:Er.
    - by destruct (negb _).
    - split; [|done]. by apply eq_None_not_Some. }
  pose proof (execute_with_adapter_spec a (as_world st)) as Hx.
  destruct (execute_with_adapter str_container s env post a (as_world st)) as [w' [v|e]]; simpl in *; (split; [done|]); destruct Hx as [->|Hx]; auto.
Qed.
End facts.


(** A process of the simulator environment, with a workflow that holds an approval until time 1000 *)
Definition toy_env : executor_env := MkExecutorEnv false false (λ _, Err (OtherError "PyJWTError")) None.
Definition simulator_settings : Settings :=
  match from_env {["COMPUTEWEAVER_ENV" := "simulator"]} with Ok s => s | Err _ => toy_settings end.
Definition toy_time (t : string) : result datetime := z ← py_int (VStr t); Ok (DT z true).
Definition toy_approvals : mem_requests :=
  foldl Approval.mem_step ∅ [OpCreate (MkApprovalRequest "apr-1" "p1" "acme" L2 "alice" (DT 1000 true) {["safety_admin"]} 1 [] PENDING);
    OpApprove "acme" "apr-1" "bob" "safety_admin" (DT 10 true)].
Definition toy_action (now : string) : ResourceRequest :=
  MkResourceRequest "act-1" [("plan_id", VStr "p1"); ("target", VStr "simulator"); ("kind", VStr "set_dispatch_plan");
    ("expected_state_version", VStr "v1"); ("parameters", VDict [("dispatch_kw", VInt 5)]);
    ("bounds", VDict [("dispatch_kw", VList [VInt 0; VStr "10.5"])]); ("idempotency_key", VStr "key-0001"); ("risk", VInt 2);
    ("created_at", VStr "900"); ("approval_id", VStr "apr-1"); ("current_state_version", VStr "v1"); ("now", VStr now)].
Definition toy_act_state : act_state mem_requests unit := MkActState toy_approvals mem_empty ([], tt).
Definition toy_execute (now : string) : M (act_state mem_requests unit) exec_result :=
  execute_action mem_approvals toy_time (λ _, "") (λ _, "digest") simulator_settings toy_env (λ _ _ _ _, mraise IndexError) "act-1" (toy_action now)
    (toy_context_of "dave" "operator" "key-0009" None).


(** The clock and the state version that the guard judges by are those of the request body.  The same action under
    the same approval, which expires at 1000, is refused when the caller says it is 1001 and executed when the
    caller says it is 999, whatever the time is. *)
Theorem caller_clock_decides :
  (toy_execute "1001" toy_act_state).2 = Err (PermissionError "Action Guard rejected") ∧
  is_ok (toy_execute "999" toy_act_state).2 = true.
Proof. by vm_compute. Qed.

(** The risk of an action is the caller's too: said to be L1, the same action runs without any approval. *)
Definition unapproved_action (risk : Z) : ResourceRequest :=
  MkResourceRequest "act-1" (od_set "approval_id" VNone (od_set "risk" (VInt risk) (body_data (toy_action "950")))).
Theorem caller_risk_decides :
  let run risk := (execute_action mem_approvals toy_time (λ _, "") (λ _, "digest") simulator_settings toy_env (λ _ _ _ _, mraise IndexError) "act-1"
      (unapproved_action risk) (toy_context_of "dave" "operator" "key-0009" None) toy_act_state).2 in
  run 2 = Err (PermissionError "Action Guard rejected") ∧ is_ok (run 1) = true.
Proof. by vm_compute. Qed.
