(* ===== verification/Sessions.v ===== *)
(** * Simulation sessions in the store: [packages/simulation/session.py]

    A session keeps a simulator as a resource: an operation reads it, restores the simulator, operates it and writes
    the new state with If-Match on the etag it read; snapshots are resources of their own, addressed by the digest of
    their content.  Proved against [StoreLaws], so for both stores, and for any interleaving of the reads and writes
    of any number of callers.  The state of the random generator as JSON and the digest of a document are parameters. *)
From S2P Require Import Prelude PyDecimal PyFloat PyValue PyText Settings Domain Access Actions PlanDocument Versions Store MpcRepository Engine Scenarios.
From stdpp Require Import relations.
Local Open Scope Z_scope.

Definition session_kind : string := "simulation_session".
Definition snapshot_kind : string := "simulation_snapshot".

Section sessions.
Context {R : Type} (rng_seed : Z → R) (rng_next : R → bin * R).
Context (sin : bin → bin) (float_repr : bin → string) (float_dec : bin → dec) (iso : datetime → string) (event_hash : list document → string).
Context (rng_state : R → pyval) (rng_set : pyval → result R) (fromisoformat : string → result datetime) (str_container : pyval → string).
Context (body_digest : gmap string pyval → string).
#[local] Abbreviation text := (py_str str_container).
#[local] Abbreviation step := (step rng_next sin float_repr float_dec iso).
#[local] Abbreviation sim_ok := (sim_ok (R := R) iso).

Definition config_document (c : SimulationConfig) : document :=
  [("seed", VInt (seed c)); ("duration_hours", VInt (duration_hours c)); ("step_minutes", VInt (step_minutes c)); ("gpu_count", VInt (gpu_count c));
   ("pv_capacity_kw", VStr (dec_str (pv_capacity_kw c))); ("battery_capacity_kwh", VStr (dec_str (battery_capacity_kwh c)));
   ("environment", VStr (environment c)); ("real_endpoints", VList (map VStr (real_endpoints c)))].
Definition state_document (s : SimulationState) : document :=
  [("step", VInt (st_step s)); ("timestamp", VStr (iso (st_timestamp s))); ("battery_soc", VStr (dec_str (battery_soc s)));
   ("active_jobs", VInt (active_jobs s)); ("events", VList (map VDict (st_events s)))].
Definition serialize_simulator (s : Simulator R) : gmap string pyval :=
  {["config" := VDict (config_document (sim_config s)); "state" := VDict (state_document (sim_state s));
    "random_state" := rng_state (sim_random s); "running" := VBool (sim_running s);
    "event_hash" := VStr (event_hash (st_events (sim_state s)))]}.

Definition parse_config (d : document) : result SimulationConfig :=
  let int k := v ← item k d; py_int v in
  let decimal k := v ← item k d; PyText.py_decimal str_container v in
  seed ← int "seed"; hours ← int "duration_hours"; minutes ← int "step_minutes"; gpus ← int "gpu_count";
  pv ← decimal "pv_capacity_kw"; battery ← decimal "battery_capacity_kwh";
  env ← item "environment" d;
  endpoints ← py_iter (default (VList []) (od_get "real_endpoints" d));
  simulation_config (MkConfig seed hours minutes gpus pv battery (text env) (map text endpoints)).
Definition parse_state (d : document) : result SimulationState :=
  n ← item "step" d; n ← py_int n;
  t ← item "timestamp" d; t ← fromisoformat (text t);
  soc ← item "battery_soc" d; soc ← PyText.py_decimal str_container soc;
  jobs ← item "active_jobs" d; jobs ← py_int jobs;
  ev ← item "events" d; ev ← py_iter ev; events ← mapM_result dict_of ev;
  Ok (MkState n t soc jobs events).

Definition field (k : string) (b : gmap string pyval) : result pyval := of_option (KeyError k) (b !! k).
Definition restore_simulator (b : gmap string pyval) : result (Simulator R) :=
  c ← field "config" b; c ← dict_of c; c ← parse_config c;
  st ← field "state" b; st ← dict_of st; st ← parse_state st;
  r ← field "random_state" b; r ← rng_set r;
  let running := match b !! "running" with Some v => py_bool v | None => false end in
  h ← field "event_hash" b;
  raise_if (negb (py_eq h (VStr (event_hash (st_events st))))) (ValueError "persisted simulation event hash does not match state");;
  Ok (MkSimulator c st r running).

(** ** SimulationRepository *)

(** The operations that leave a new state, with their results *)
Definition apply_operation (operation : string) (fault : pyval) (s : Simulator R) : result (Simulator R * document) :=
  if bool_decide (operation = "start") then Ok (start s, [("status", VStr "running")])
  else if bool_decide (operation = "pause") then Ok (pause s, [("status", VStr "paused")])
  else if bool_decide (operation = "step") then
    match step fault s with (s', Ok e) => Ok (s', e) | (_, Err e) => Err e end
  else Err (ValueError ("unsupported simulation operation " +:+ operation)).

Context {S : Type} (api : store_api pyval S).

Definition tags (r : StoredResource pyval) (d : document) : document := od_set "etag" (VStr (etag r)) (od_set "version" (VInt (version r)) d).

Definition create_put (id tenant key : string) (c : SimulationConfig) : put_request pyval :=
  MkPut session_kind id tenant (serialize_simulator (new_simulator rng_seed c)) ("simulation-create:" +:+ key) None.
Definition session_create (now : Z) (id tenant key : string) (c : SimulationConfig) : M S document :=
  r ← api_put api now (create_put id tenant key c);
  mret (tags r [("id", VStr id); ("status", VStr "created"); ("environment", VStr (environment c))]).

Definition save_put (id tenant key tag : string) (s : Simulator R) : put_request pyval :=
  MkPut session_kind id tenant (serialize_simulator s) ("simulation-operation:" +:+ key) (Some tag).
Definition session_save (now : Z) (resource : StoredResource pyval) (key : string) (s : Simulator R) : M S (StoredResource pyval) :=
  api_put api now (save_put (res_id resource) (res_tenant resource) key (etag resource) s).

Definition snapshot_put (id tenant key : string) (b : gmap string pyval) : put_request pyval :=
  MkPut snapshot_kind (body_digest b) tenant {["simulation_id" := VStr id; "session" := VDict (map_to_list b)]} ("simulation-snapshot:" +:+ key) None.
Definition session_snapshot (now : Z) (id tenant key : string) (resource : StoredResource pyval) : M S document :=
  api_put api now (snapshot_put id tenant key (body resource));;
  st ← mlift (field "state" (body resource)); st ← mlift (dict_of st);
  h ← mlift (field "event_hash" (body resource));
  mret (tags resource [("snapshot_token", VStr (body_digest (body resource))); ("state", VDict st); ("event_hash", h)]).

(** The simulator of a snapshot of this simulation *)
Definition snapshot_simulator (id : string) (snap : StoredResource pyval) : result (Simulator R) :=
  owner ← field "simulation_id" (body snap);
  raise_if (negb (py_eq owner (VStr id))) (ValueError "snapshot belongs to a different simulation");;
  v ← field "session" (body snap); d ← dict_of v;
  restore_simulator (list_to_map d).
Definition session_get (k : rkey) : M S (StoredResource pyval) := λ s, (s, api_get api k s).
Definition session_restore (now : Z) (id tenant key token : string) (current : StoredResource pyval) : M S document :=
  snap ← session_get (tenant, snapshot_kind, token);
  simulator ← mlift (snapshot_simulator id snap);
  updated ← session_save now current key simulator;
  mret (tags updated [("status", VStr "restored"); ("event_hash", VStr (event_hash (st_events (sim_state simulator))))]).

Definition session_operate (now : Z) (id tenant operation key : string) (parameters : document) : M S document :=
  resource ← session_get (tenant, session_kind, id);
  simulator ← mlift (restore_simulator (body resource));
  if bool_decide (operation = "snapshot") then session_snapshot now id tenant key resource
  else if bool_decide (operation = "restore") then
    token ← mlift (item "snapshot_token" parameters); session_restore now id tenant key (text token) resource
  else
    sr ← mlift (apply_operation operation (get "fault" parameters) simulator);
    updated ← session_save now resource key sr.1;
    mret (tags updated sr.2).

(** ** A stored simulator is restored *)

(** JSON text keeps a value *)
Definition plain_val (v : pyval) : Prop := json_safe_val v = v.

Record session_ok (s : Simulator R) : Prop := {
  se_sim : sim_ok s;
  se_events : Forall (λ e, plain_val (VDict e)) (st_events (sim_state s))
}.

Hypothesis Hiso : ∀ t, aware t = true → fromisoformat (iso t) = Ok t.
Hypothesis Hrng : ∀ r, rng_set (rng_state r) = Ok r ∧ plain_val (rng_state r).

Lemma dicts_back (l : list document) : mapM_result dict_of (map VDict l) = Ok l.
Proof using Type. rewrite (mapM_result_map dict_of VDict id) by done. by rewrite map_id. Qed.

Lemma parse_config_back c : simulation_config c = Ok c → parse_config (config_document c) = Ok c.
Proof using Type.
  intros Hc. unfold parse_config, item, config_document. simpl. munfold. rewrite !py_decimal_str, map_map, map_id. by destruct c.
Qed.

Lemma parse_state_back s : aware (st_timestamp s) = true → parse_state (state_document s) = Ok s.
Proof using Hiso.
  intros Ha. unfold parse_state, item, state_document. simpl. munfold. rewrite Hiso, py_decimal_str, dicts_back by done. by destruct s.
Qed.

Lemma restore_back b s : session_ok s →
  (∀ k, k ∈ ["config"; "state"; "random_state"; "running"; "event_hash"] → b !! k = serialize_simulator s !! k) → restore_simulator b = Ok s.
Proof using Type Hiso Hrng.
  intros [Hs _] Hb. unfold restore_simulator, field. rewrite !Hb by (apply mem_true; reflexivity).
  unfold serialize_simulator. simplify_map_eq. unfold mbind, result_bind, of_option. cbn [dict_of].
  rewrite parse_config_back by apply (so_config _ _ Hs). rewrite parse_state_back by (by rewrite (so_time _ _ Hs)).
  destruct (Hrng (sim_random s)) as [-> _]. rewrite bool_decide_true by done. by destruct s.
Qed.

Lemma map_plain (l : list pyval) : Forall plain_val l → map json_safe_val l = l.
Proof using Type. induction 1 as [|v l Hv Hl IH]; [done|]. cbn. by rewrite Hv, IH. Qed.

Lemma serialize_plain s k v : session_ok s → serialize_simulator s !! k = Some v → plain_val v.
Proof using Hrng.
  intros [_ He] Hk. unfold serialize_simulator in Hk. repeat (apply lookup_insert_Some in Hk as [[_ <-]|[_ Hk]]); try (apply lookup_singleton_Some in Hk as [_ <-]); try done.
  - unfold plain_val, config_document. cbn [json_safe_val map fst snd]. by rewrite map_map.
  - unfold plain_val, state_document. cbn [json_safe_val map fst snd]. by rewrite map_plain by (by apply Forall_fmap).
  - apply Hrng.
Qed.

Hypothesis Hshort : shortest_decimal float_dec.

Lemma new_session_ok c : simulation_config c = Ok c → session_ok (new_simulator rng_seed c).
Proof using Type. intros Hc. split; [by apply new_simulator_ok|by constructor]. Qed.

Lemma step_event_plain st fault active soc pv forecast p : plain_val fault →
  plain_val (VDict (step_event float_repr iso st fault active soc pv forecast p)).
Proof using Type.
  intros Hf. unfold plain_val, step_event, vfloat. cbn [json_safe_val map fst snd]. rewrite Hf. by destruct (grid_limit fault).
Qed.

Lemma apply_operation_ok op fault s s' d : plain_val fault → session_ok s → apply_operation op fault s = Ok (s', d) →
  session_ok s' ∧ sim_config s' = sim_config s.
Proof using Hshort.
  intros Hf [Hs He]. unfold apply_operation. repeat case_bool_decide; try done.
  - intros [= <- _]. split; [split; [by destruct Hs|done]|done].
  - intros [= <- _]. split; [split; [by destruct Hs|done]|done].
  - destruct (step fault s) as [s1 [e|e]] eqn:Es; [|done]. intros [= <- <-].
    split; [split; [by eapply step_ok|]|].
    + revert Es. unfold Engine.step. destruct (_ <=? _); [done|]. destruct (pv_forecast _ _ _); [|done]. destruct (job_flow _ _ _ _).
      destruct (next_soc _ _ _ _); [|done]. destruct (hashable _); [|done]. cbn [negb]. intros [= <- <-]. cbn [sim_state st_events].
      apply Forall_app. split; [done|]. constructor; [|done]. by apply step_event_plain.
    + pose proof (step_spec rng_next sin float_repr float_dec iso Hshort fault s) as Hsp. rewrite Es in Hsp. apply Hsp.
Qed.

(** ** Interleavings *)

(** The writes of any number of callers.  A caller writes from a version it has read: any version so far, since
    others may have written in between.  Faults come from a request, so they are JSON values. *)
Inductive session_step : S → S → Prop :=
| sess_create s now id t key c : simulation_config c = Ok c → session_step s (session_create now id t key c s).1
| sess_save s now id t key op fault r c c' d :
    r ∈ api_history api (t, session_kind, id) s → restore_simulator (body r) = Ok c → plain_val fault →
    apply_operation op fault c = Ok (c', d) → session_step s (session_save now r key c' s).1
| sess_snapshot s now id t key r :
    r ∈ api_history api (t, session_kind, id) s → session_step s (session_snapshot now id t key r s).1
| sess_restore s now id t key r token snap c :
    r ∈ api_history api (t, session_kind, id) s → snap ∈ api_history api (t, snapshot_kind, token) s →
    snapshot_simulator id snap = Ok c → session_step s (session_save now r key c s).1
| sess_other s now q : put_kind q ≠ session_kind → put_kind q ≠ snapshot_kind → session_step s (api_put api now q s).1.

(** One version follows another: an operation on it, or a version from before. *)
Definition follows (cs : list (Simulator R)) (c0 c1 : Simulator R) : Prop :=
  (∃ op fault d, apply_operation op fault c0 = Ok (c1, d)) ∨ c1 ∈ cs.

Definition session_body (id : string) (s : Simulator R) : gmap string pyval := <["id" := VStr id]> (serialize_simulator s).

(** A history of session [id] with the states it holds *)
Record session_chain (id : string) (l : list (StoredResource pyval)) (cs : list (Simulator R)) : Prop := {
  sc_bodies : Forall2 (λ r c, body r = session_body id c ∧ session_ok c) l cs;
  sc_first : ∀ c, cs !! 0%nat = Some c → c = new_simulator rng_seed (sim_config c);
  sc_config : ∀ c c', c ∈ cs → c' ∈ cs → sim_config c = sim_config c';
  sc_next : ∀ i c0 c1, cs !! i = Some c0 → cs !! (i + 1)%nat = Some c1 → follows (take (i + 1) cs) c0 c1
}.

Context (inv : S → Prop) `{!StoreLaws api inv}.
Context (tr : pyval → pyval) (Htr : ∀ v, plain_val v → tr v = v).
Context (Hstored : ∀ q, api_stored api q = <["id" := VStr (put_id q)]> (tr <$> put_body q)).
Context (Htags : ∀ t k v v' b b', api_tag api t k v b = api_tag api t k v' b' → v = v').

(** A snapshot holds a version of the session it names. *)
Definition snapshot_of (s : S) (t : string) (snap : StoredResource pyval) : Prop :=
  ∃ id r, r ∈ api_history api (t, session_kind, id) s ∧ body snap !! "simulation_id" = Some (VStr id) ∧
    body snap !! "session" = Some (VDict (map_to_list (body r))).

Record sessions_inv (s : S) : Prop := {
  si_store : inv s;
  si_chain : ∀ t id, ∃ cs, session_chain id (api_history api (t, session_kind, id) s) cs;
  si_tagged : ∀ k, tagged api k (api_history api k s);
  si_snapshots : ∀ t token snap, snap ∈ api_history api (t, snapshot_kind, token) s → snapshot_of s t snap
}.

Lemma restore_body id c : session_ok c → restore_simulator (session_body id c) = Ok c.
Proof using Type Hiso Hrng.
  intros Hc. apply restore_back; [done|]. intros k Hk. unfold session_body. rewrite lookup_insert_ne; [done|].
  intros <-. revert Hk. apply mem_false. reflexivity.
Qed.

Lemma body_plain id c k v : session_ok c → session_body id c !! k = Some v → plain_val v.
Proof using Hrng.
  intros Hc. unfold session_body. intros [[_ <-]|[_ H]]%lookup_insert_Some; [done|by eapply serialize_plain].
Qed.

(** The body of a session's new version *)
Lemma stored_session q c : session_ok c → put_body q = serialize_simulator c → api_stored api q = session_body (put_id q) c.
Proof using Hrng Htr Hstored.
  intros Hc Hb. rewrite Hstored, Hb. unfold session_body. f_equal. rewrite <-(map_fmap_id (serialize_simulator c)) at 2.
  apply map_fmap_ext. intros k v Hk. apply Htr. by eapply serialize_plain.
Qed.

Lemma dict_plain b : (∀ k v, b !! k = Some v → plain_val v) → plain_val (VDict (map_to_list b)).
Proof using Type.
  intros Hb. unfold plain_val. cbn [json_safe_val]. f_equal. rewrite <-(map_id (map_to_list b)) at 2. apply map_ext_in.
  intros [k v] Hkv. cbn. f_equal. apply (Hb k). apply elem_of_map_to_list. by apply list_elem_of_In.
Qed.

Lemma chain_restores id l cs r : session_chain id l cs → r ∈ l →
  ∃ c i, cs !! i = Some c ∧ l !! i = Some r ∧ body r = session_body id c ∧ session_ok c ∧ restore_simulator (body r) = Ok c.
Proof using Type Hiso Hrng.
  intros [Hb _ _ _] [i Hi]%list_elem_of_lookup. destruct (Forall2_lookup_l _ _ _ _ _ Hb Hi) as (c & Hc & Hbody & Hok).
  exists c, i. split_and!; try done. rewrite Hbody. by apply restore_body.
Qed.

Lemma snapshot_restores s t token id snap c cs : sessions_inv s → snap ∈ api_history api (t, snapshot_kind, token) s →
  snapshot_simulator id snap = Ok c → session_chain id (api_history api (t, session_kind, id) s) cs → c ∈ cs.
Proof using Type Hiso Hrng.
  intros [_ Hch _ Hsn] Hsnap Hc Hcs. destruct (Hsn t token snap Hsnap) as (id0 & r & Hr & Hid & Hse).
  unfold snapshot_simulator, field in Hc. rewrite Hid, Hse in Hc. unfold mbind, result_bind, of_option, raise_if, dict_of in Hc.
  destruct (py_eq (VStr id0) (VStr id)) eqn:E; [|done]. cbn [negb] in Hc. rewrite list_to_map_to_list in Hc.
  assert (id0 = id) as -> by (cbn in E; by apply bool_decide_eq_true in E).
  destruct (chain_restores _ _ _ _ Hcs Hr) as (c' & i & Hi & _ & _ & _ & Hre).
  rewrite Hre in Hc. injection Hc as <-. by eapply list_elem_of_lookup_2.
Qed.

Lemma session_chain_first id r c : body r = session_body id (new_simulator rng_seed c) → simulation_config c = Ok c →
  session_chain id [r] [new_simulator rng_seed c].
Proof using Type.
  intros Hb Hc. split.
  - constructor; [|constructor]. split; [done|by apply new_session_ok].
  - by intros c' [= <-].
  - by intros c1 c2 ->%list_elem_of_singleton ->%list_elem_of_singleton.
  - intros [|i] c0 c1 _; [done|]. by destruct i.
Qed.

Lemma session_chain_snoc id l cs r p c0 c1 : session_chain id l cs → last l = Some p → body p = session_body id c0 → session_ok c0 →
  body r = session_body id c1 → session_ok c1 → sim_config c1 = sim_config c0 → follows cs c0 c1 → session_chain id (l ++ [r]) (cs ++ [c1]).
Proof using str_container Hiso Hrng.
  intros [Hb Hf Hc Hn] Hl Hp Hok0 Hr Hok1 Hcfg Hfo. pose proof (Forall2_length _ _ _ Hb) as Hlen.
  assert (last cs = Some c0) as Hlast.
  { rewrite last_lookup in Hl. rewrite last_lookup, <-Hlen. destruct (Forall2_lookup_l _ _ _ _ _ Hb Hl) as (c & Hcl & Hcb & Hco). rewrite Hcl. f_equal.
    pose proof (restore_body id c Hco) as H1. pose proof (restore_body id c0 Hok0) as H2. rewrite <-Hcb, Hp, H2 in H1. congruence. }
  pose proof (last_Some_elem_of _ _ Hlast) as Hin. split.
  - apply Forall2_app; [done|]. by constructor; [|constructor].
  - intros c. destruct cs as [|c2 cs]; [done|apply Hf].
  - assert (∀ c, c ∈ cs ++ [c1] → sim_config c = sim_config c0) as Hall.
    { intros c [Hx| ->%list_elem_of_singleton]%elem_of_app; [by apply Hc|done]. }
    intros c c' Hx Hy. by rewrite (Hall c Hx), (Hall c' Hy).
  - intros i a b Ha Hb'. destruct (decide ((i + 1 < length cs)%nat)) as [Hi|Hi].
    + rewrite lookup_app_l in Ha, Hb' by lia. rewrite take_app_le by lia. by apply Hn.
    + pose proof (lookup_lt_Some _ _ _ Hb') as Hlt. rewrite length_app in Hlt. simpl in Hlt.
      assert (i + 1 = length cs)%nat as Hi1 by lia. rewrite Hi1 in Hb' |- *. rewrite lookup_app_r, Nat.sub_diag in Hb' by lia. injection Hb' as <-.
      rewrite lookup_app_l in Ha by lia. rewrite last_lookup in Hlast. replace (pred (length cs)) with i in Hlast by lia.
      rewrite take_app_length. congruence.
Qed.

(** Sessions and snapshots after a put *)
Lemma put_sessions now q s : sessions_inv s →
  (∀ r, appended api q s (api_put api now q s).1 r → put_kind q = session_kind →
     ∃ cs, session_chain (put_id q) (api_history api (put_target q) s ++ [r]) cs) →
  (∀ r, appended api q s (api_put api now q s).1 r → put_kind q = snapshot_kind → snapshot_of s (put_tenant q) r) →
  sessions_inv (api_put api now q s).1.
Proof using StoreLaws0.
  intros [Hi Hch Htg Hsn] Hse Hsp. destruct (put_cases api inv now q s Hi) as [Hi' Hp]. destruct (api_put api now q s) as [s' res]. cbn [fst] in *.
  assert (∀ t snap, snapshot_of s t snap → snapshot_of s' t snap) as Hmono.
  { intros t snap (id & r & Hr & H). exists id, r. split; [by eapply (put_grows api q)|done]. }
  split; [done| |by eapply (put_tagged api)|].
  - intros t id. destruct Hp as [Hp|[r Hp]]; [rewrite Hp; apply Hch|]. rewrite (ap_history _ _ _ _ _ Hp). case_decide as Hk; [|rewrite app_nil_r; apply Hch].
    rewrite Hk. injection Hk as -> Hkind ->. by apply Hse.
  - intros t token snap Hx. apply Hmono. destruct Hp as [Hp|[r Hp]]; [rewrite Hp in Hx; by eapply Hsn|]. rewrite (ap_history _ _ _ _ _ Hp) in Hx.
    apply elem_of_app in Hx as [Hx|Hx]; [by eapply Hsn|]. case_decide as Hk; [|by apply elem_of_nil in Hx].
    apply list_elem_of_singleton in Hx as ->. injection Hk as -> Hkind _. by apply Hsp.
Qed.

(** A conditional write of a state that follows from the version read *)
Lemma save_sessions now t id key r c0 c1 s : sessions_inv s → r ∈ api_history api (t, session_kind, id) s →
  restore_simulator (body r) = Ok c0 → session_ok c1 → sim_config c1 = sim_config c0 →
  (∀ cs, session_chain id (api_history api (t, session_kind, id) s) cs → follows cs c0 c1) → sessions_inv (session_save now r key c1 s).1.
Proof using StoreLaws0 str_container Hiso Hrng Htr Hstored Htags.
  intros Hinv Hr Hc0 Hok1 Hcfg Hfo. pose proof Hinv as [Hi Hch Htg _]. destruct (sl_reads s (t, session_kind, id) Hi) as [_ Hown _ _].
  rewrite Forall_forall in Hown. pose proof (Hown r Hr) as Hkey. injection Hkey as Ht _ Hid. unfold session_save. rewrite Ht, Hid.
  apply put_sessions; [done| |by intros]. intros r' Ha _. destruct (Hch t id) as [cs Hcs].
  change (put_target _) with (t, session_kind, id). cbn [put_id save_put].
  destruct (last (api_history api (t, session_kind, id) s)) as [p|] eqn:El; [|apply last_None in El; rewrite El in Hr; by apply elem_of_nil in Hr].
  pose proof (ap_match _ _ _ _ _ Ha p El) as [= Hm]. assert (r = p) as ->.
  { eapply (same_etag api inv Htags); [done|apply Htg|done|by apply last_Some_elem_of|done]. }
  destruct (chain_restores _ _ _ _ Hcs Hr) as (c & i & _ & _ & Hb & Hok & Hre). rewrite Hre in Hc0. injection Hc0 as ->.
  exists (cs ++ [c1]). eapply session_chain_snoc; [done..| |done|done|by apply Hfo].
  rewrite (ap_body _ _ _ _ _ Ha). by apply (stored_session (save_put id t key (etag p) c1)).
Qed.

Lemma session_step_inv s s' : session_step s s' → sessions_inv s → sessions_inv s'.
Proof using StoreLaws0 str_container Hiso Hrng Hshort Htr Hstored Htags.
  intros Hstep Hinv. pose proof Hinv as [Hi Hch Htg Hsn].
  destruct Hstep as [s now id t key c Hc|s now id t key op fault r c c' d Hr Hre Hf Ho|s now id t key r Hr|s now id t key r token snap c Hr Hs Hc|s now q Hq1 Hq2].
  - assert (sessions_inv (api_put api now (create_put id t key c) s).1) as H.
    { apply put_sessions; [done| |by intros]. intros r Ha _. change (put_target _) with (t, session_kind, id). cbn [put_id create_put].
      destruct (api_history api (t, session_kind, id) s) as [|x l] eqn:El.
      - exists [new_simulator rng_seed c]. apply session_chain_first; [|done]. rewrite (ap_body _ _ _ _ _ Ha).
        apply (stored_session (create_put id t key c)); [by apply new_session_ok|done].
      - exfalso. destruct (proj2 (last_is_Some (x :: l))) as [p Hp]; [done|].
        pose proof (ap_match _ _ _ _ _ Ha p) as Hm. change (put_target _) with (t, session_kind, id) in Hm. rewrite El in Hm. by apply Hm in Hp. }
    unfold session_create, mbind, M_bind. by destruct (api_put _ _ _ _) as [s' [r|e]].
  - destruct (Hch t id) as [cs Hcs]. destruct (chain_restores _ _ _ _ Hcs Hr) as (c0 & i & _ & _ & _ & Hok & Hre0).
    rewrite Hre0 in Hre. injection Hre as ->. destruct (apply_operation_ok _ _ _ _ _ Hf Hok Ho) as [Hok' Hcf].
    eapply save_sessions; [done..|]. intros cs' _. left. by eexists _, _, _.
  - assert (sessions_inv (api_put api now (snapshot_put id t key (body r)) s).1) as H.
    { apply put_sessions; [done|by intros|]. intros r' Ha _. exists id, r. rewrite (ap_body _ _ _ _ _ Ha), Hstored.
      cbn [put_body put_id put_tenant snapshot_put]. split_and!; [done| |].
      - rewrite lookup_insert_ne, lookup_fmap by done. simplify_map_eq. f_equal. by apply Htr.
      - rewrite lookup_insert_ne, lookup_fmap by done. simplify_map_eq. f_equal. apply Htr, dict_plain.
        destruct (Hch t id) as [cs Hcs]. destruct (chain_restores _ _ _ _ Hcs Hr) as (c & i & _ & _ & -> & Hok & _). intros k v. by apply body_plain. }
    unfold session_snapshot, mbind, M_bind. destruct (api_put _ _ _ _) as [s' [x|e]]; [|done]. cbn [fst] in H.
    unfold mlift. destruct (field _ _) as [v|]; [|done]. destruct (dict_of v); [|done]. by destruct (field _ _).
  - destruct (Hch t id) as [cs Hcs]. pose proof (snapshot_restores _ _ _ _ _ _ _ Hinv Hs Hc Hcs) as Hin.
    destruct (chain_restores _ _ _ _ Hcs Hr) as (c0 & i & Hi0 & _ & _ & Hok & Hre). pose proof Hcs as [Hb _ Hcf _].
    pose proof Hin as [j Hj]%list_elem_of_lookup. destruct (Forall2_lookup_r _ _ _ _ _ Hb Hj) as (rj & _ & _ & Hokc).
    eapply save_sessions; [done..| |].
    + apply Hcf; by eapply list_elem_of_lookup_2.
    + intros cs' Hcs'. right. by eapply snapshot_restores.
  - apply put_sessions; [done|by intros..].
Qed.

Lemma sessions_reach_inv s : rtc session_step (api_init api) s → sessions_inv s.
Proof using StoreLaws0 str_container Hiso Hrng Hshort Htr Hstored Htags.
  intros H. cut (∀ s0, rtc session_step s0 s → sessions_inv s0 → sessions_inv s).
  - intros Hcut. apply (Hcut _ H). split; [apply sl_init| | |].
    + intros t id. exists []. rewrite sl_empty. split; [constructor|done|intros c c' Hc; by apply elem_of_nil in Hc|done].
    + intros k. rewrite sl_empty. constructor.
    + intros t token snap. rewrite sl_empty. intros Hx. by apply elem_of_nil in Hx.
  - clear H. induction 1; eauto using session_step_inv.
Qed.

Lemma read_version k r s : inv s → api_get api k s = Ok r → r ∈ api_history api k s.
Proof using StoreLaws0.
  intros Hi Hg. destruct (sl_reads s k Hi) as [_ _ Hget _]. rewrite Hg in Hget. destruct (last _) as [r'|] eqn:El; [|done].
  injection Hget as ->. by apply last_Some_elem_of.
Qed.

(** A call of [operate] makes at most one of these steps. *)
Lemma session_operate_steps now id t op key ps s : inv s → plain_val (get "fault" ps) →
  rtc session_step s (session_operate now id t op key ps s).1.
Proof using StoreLaws0.
  intros Hi Hf. unfold session_operate. unfold mbind at 1, M_bind at 1. unfold session_get.
  destruct (api_get api (t, session_kind, id) s) as [r|e] eqn:Eg; [|done]. pose proof (read_version _ _ _ Hi Eg) as Hr.
  unfold mlift at 1. unfold mbind at 1, M_bind at 1. destruct (restore_simulator (body r)) as [c|] eqn:Ec; [|done].
  case_bool_decide; [by apply rtc_once, sess_snapshot|]. case_bool_decide.
  - unfold mbind at 1, M_bind at 1, mlift at 1. destruct (item "snapshot_token" ps) as [tok|]; [|done].
    unfold session_restore. unfold mbind at 1, M_bind at 1. unfold session_get. destruct (api_get api (t, snapshot_kind, _) s) as [snap|] eqn:Es; [|done].
    unfold mbind at 1, M_bind at 1, mlift at 1. destruct (snapshot_simulator id snap) as [c1|] eqn:E1; [|done].
    assert (session_step s (session_save now r key c1 s).1) as Hst by (eapply sess_restore; [done|by eapply read_version|done]).
    unfold mbind, M_bind. destruct (session_save now r key c1 s) as [s' [u|e]]; by apply rtc_once.
  - unfold mbind at 1, M_bind at 1, mlift at 1. destruct (apply_operation op (get "fault" ps) c) as [[c1 d]|] eqn:E1; [|done].
    assert (session_step s (session_save now r key c1 s).1) as Hst by (by eapply sess_save).
    unfold mlift, mbind, M_bind. cbn [fst]. destruct (session_save now r key c1 s) as [s' [u|e]]; by apply rtc_once.
Qed.

(** C19: Concurrent use of stored simulations is linear.  However the creations, operations, snapshots and restores of
    any number of callers interleave, the stored versions of a simulation are: the new simulator of a valid
    configuration, then states that each come from the version just before by start, pause or one step, or go back to
    an earlier version of the same simulation; all keep the configuration and the invariants of a simulator (numbered
    events, one per step, a battery between 10% and 90%).  A snapshot restores exactly to a version its own simulation
    had, and to no other simulation.  A call of [operate] is such a step.  Assumes that JSON keeps a generator state,
    and that the etag digest distinguishes versions. *)
Theorem simulation_sessions_linear s : rtc session_step (api_init api) s →
  (∀ t id, ∃ cs, Forall2 (λ r c, restore_simulator (body r) = Ok c) (api_history api (t, session_kind, id) s) cs ∧ Forall sim_ok cs ∧
     (∀ c, cs !! 0%nat = Some c → c = new_simulator rng_seed (sim_config c)) ∧
     (∀ c c', c ∈ cs → c' ∈ cs → sim_config c = sim_config c') ∧
     (∀ i c0 c1, cs !! i = Some c0 → cs !! (i + 1)%nat = Some c1 → follows (take (i + 1) cs) c0 c1) ∧
     ∀ token snap c, snap ∈ api_history api (t, snapshot_kind, token) s → snapshot_simulator id snap = Ok c → c ∈ cs) ∧
  ∀ now id t op key ps, plain_val (get "fault" ps) → rtc session_step s (session_operate now id t op key ps s).1.
Proof using StoreLaws0 str_container Hiso Hrng Hshort Htr Hstored Htags.
  intros Hinv%sessions_reach_inv. split; [|intros; apply session_operate_steps; [apply Hinv|done]]. intros t id.
  destruct (si_chain _ Hinv t id) as [cs Hcs]. exists cs. pose proof Hcs as [Hb Hf Hc Hn]. split_and!; try done.
  - eapply Forall2_impl; [exact Hb|]. intros r c [-> Hok]. by apply restore_body.
  - eapply Forall2_Forall_r; [exact Hb|]. apply Forall_forall. intros r _ c [_ [Hok _]]. exact Hok.
  - intros token snap c Hs Hsc. by eapply snapshot_restores.
Qed.
End sessions.

(** ** A session over the relational store *)

Definition toy_config : SimulationConfig := MkConfig 7 1 15 4 (Dec 50 0) (Dec 100 0) "simulator" [].
Definition toy_text (t : datetime) : string := int_str (us t).
Definition toy_read_time (t : string) : result datetime := u ← py_int (VStr t); Ok (DT u true).
Definition toy_store := pg_api VStr (λ k i _, k +:+ i) version_tag json_safe (@atomically) 1000.
Definition toy_digest_body (b : gmap string pyval) : string := match b !! "event_hash" with Some (VStr h) => h | _ => "" end.
Definition toy_event_hash (l : list document) : string := int_str (Z.of_nat (length l)).
Definition toy_operate (op key : string) (ps : document) :=
  session_operate (λ r, (flit 5 (-2), r + 1)) (λ x, x) (λ _, "0.5") toy_dec toy_text toy_event_hash VInt py_int toy_read_time (λ _, "")
    toy_digest_body toy_store 0 "sim" "acme" op key ps.
Definition toy_create := session_create id toy_text toy_event_hash VInt toy_store 0 "sim" "acme" "k" toy_config.
Definition toy_session :=
  toy_create;; toy_operate "step" "k1" [];; toy_operate "snapshot" "k2" [];; toy_operate "step" "k3" [];;
  toy_operate "restore" "k4" [("snapshot_token", VStr "1")].

(** The steps each version has taken: a step, a snapshot, a step, a restore *)
Example toy_session_runs :
  map (λ r, match body r !! "state" with Some (VDict d) => od_get "step" d | _ => None end)
    (api_history toy_store ("acme", session_kind, "sim") (toy_session (api_init toy_store)).1) =
  [Some (VInt 0); Some (VInt 1); Some (VInt 2); Some (VInt 1)].
Proof. vm_compute. reflexivity. Qed.

(** A second snapshot of an unchanged session has the same token, so its write needs an If-Match it does not send. *)
Example second_snapshot_conflicts :
  ((toy_create;; toy_operate "snapshot" "k1" [];; toy_operate "snapshot" "k2" []) (api_init toy_store)).2 =
  Err (RuntimeError "If-Match optimistic concurrency conflict").
Proof. vm_compute. reflexivity. Qed.

Lemma simulation_sessions_linear_witness :
  let l := api_history toy_store ("acme", session_kind, "sim") (toy_operate "step" "k1" [] (toy_create (api_init toy_store)).1).1 in
  ∃ c0 c1, map (λ r, restore_simulator toy_event_hash py_int toy_read_time (λ _, "") (body r)) l = [Ok c0; Ok c1] ∧
    c0 = new_simulator id (sim_config c1) ∧ Engine.sim_ok toy_text c1.
Proof.
  intros l.
  assert (∀ z : Z, py_int (VInt z) = Ok z ∧ plain_val (VInt z)) as Hrng by done.
  assert (∀ t, aware t = true → toy_read_time (toy_text t) = Ok t) as Hiso.
  { intros [u a] Ha. cbn in Ha. subst a. unfold toy_read_time, toy_text. by rewrite int_of_int_str. }
  pose proof (λ s, simulation_sessions_linear id (λ r, (flit 5 (-2), r + 1)) (λ x, x) (λ _, "0.5") toy_dec toy_text toy_event_hash VInt py_int
    toy_read_time (λ _, "") toy_digest_body toy_store Hiso Hrng toy_shortest _ json_safe_val (λ v Hv, Hv) (pg_stores_documents _ _ _ _) version_tag_inj s) as H.
  set (s1 := (toy_create (api_init toy_store)).1) in *.
  assert (rtc (session_step id (λ r, (flit 5 (-2), r + 1)) (λ x, x) (λ _, "0.5") toy_dec toy_text toy_event_hash VInt py_int
    toy_read_time (λ _, "") toy_digest_body toy_store) (api_init toy_store) s1) as H1 by (by apply rtc_once, sess_create).
  pose proof (proj2 (H s1 H1) 0 "sim" "acme" "step" "k1" [] eq_refl) as H2.
  pose proof (transitivity (R := rtc _) H1 H2) as H3.
  destruct (proj1 (H _ H3) "acme" "sim") as (cs & Hcs & Hok & H0 & Hcf & _).
  change (Forall2 (λ r c, restore_simulator toy_event_hash py_int toy_read_time (λ _, "") (body r) = Ok c) l cs) in Hcs.
  assert (length l = 2%nat) as Hl by (by vm_compute).
  destruct l as [|r0 [|r1 [|]]]; try done. inversion Hcs as [|? c0 ? ? Hr0 Hcs1]. subst. inversion Hcs1 as [|? c1 ? ? Hr1 Hcs2]. subst. inversion Hcs2. subst.
  exists c0, c1. cbn [map]. rewrite Hr0, Hr1. split_and!; [done| |].
  - rewrite (H0 c0 eq_refl) at 1. f_equal. apply Hcf; set_solver.
  - by apply Forall_cons in Hok as [_ [Hok _]%Forall_cons].
Defined.
