(* ===== verification/Worker.v ===== *)
(** * The worker: [apps/worker/main.py], and the route that feeds it

    [Worker.run_once] claims a durable job, runs its handler and records the outcome; [default_handlers] are the
    kinds of jobs; [enqueue_system_job] of [apps/api/main.py] accepts them.  The optimization handler, in
    Runs, is a parameter, as are the text of an exception and the transaction runner. *)
From S2P Require Import Prelude PyValue PyText Domain Settings Access Approval Jobs Versions Store Api Governance Actions.
Local Open Scope Z_scope.

Section worker.
Context {S : Type} (api : store_api pyval S).
Context (canon : pyval → string) (txn : ∀ S A, M S A → M S A).
Context (str_container : pyval → string) (exn_text : exn → string).

#[local] Abbreviation text := (py_str str_container).

(** The job's payload as a dict *)
Definition payload_of (job : DurableJob) : result document := match dj_payload job with VDict d => Ok d | _ => Err TypeError end.

(** An If-Match that is no text never equals an etag, and neither does a missing one. *)
Definition match_of (v : pyval) : option string := match v with VStr t => Some t | _ => None end.

Definition resource_put_of (job : DurableJob) : result (put_request pyval) :=
  p ← payload_of job;
  kd ← item "kind" p;
  id ← item "resource_id" p;
  b ← item "body" p ≫= dict_of;
  Ok (MkPut (text kd) (text id) (dj_tenant_id job) (list_to_map b) ("job:" +:+ dj_key job) (match_of (get "if_match" p))).

Definition resource_put (now : Z) (job : DurableJob) : M S pyval :=
  q ← mlift (resource_put_of job);
  r ← api_put api now q;
  mret (VDict [("resource_id", VStr (res_id r)); ("version", VInt (version r)); ("etag", VStr (etag r))]).

Definition heartbeat_handler (job : DurableJob) : M S pyval := mret (VDict [("status", VStr "ok"); ("job_id", VInt (dj_id job))]).

Context (optimization_handler : DurableJob → M S pyval).

Definition default_handlers (now : Z) (kind_ : string) : option (DurableJob → M S pyval) :=
  if decide (kind_ = "resource_put") then Some (resource_put now)
  else if decide (kind_ = "heartbeat") then Some heartbeat_handler
  else if decide (kind_ = "optimization_run") then Some optimization_handler
  else None.

Record worker_state := MkWorker { wk_queue : queue; wk_store : S; processed : Z }.

(** [handler = self.handlers[job.kind]; result = await handler(job)] *)
Definition handle (handlers : string → option (DurableJob → M S pyval)) (job : DurableJob) : M S pyval :=
  match handlers (dj_kind job) with Some h => h job | None => mraise (KeyError (dj_kind job)) end.

(** The [except] clause: the failure is recorded *)
Definition record_failure (now : Z) (job : DurableJob) (worker_id : string) (e : exn) : M worker_state bool := λ st,
  let '(q, r) := fail txn now job worker_id (exn_text e) (wk_queue st) in
  (MkWorker q (wk_store st) (processed st), match r with Ok _ => Ok true | Err e' => Err e' end).

(** [now]: the clock of the claim; [later]: that of the record of a failure *)
Definition run_once (handlers : string → option (DurableJob → M S pyval)) (now later : Z) (locked : gset Z) (worker_id : string)
    : M worker_state bool := λ st,
  match claim txn now locked worker_id 60 (wk_queue st) with
  | (q1, Err e) => (MkWorker q1 (wk_store st) (processed st), Err e)
  | (q1, Ok None) => (MkWorker q1 (wk_store st) (processed st), Ok false)
  | (q1, Ok (Some job)) =>
      match handle handlers job (wk_store st) with
      | (s1, Err e) => record_failure later job worker_id e (MkWorker q1 s1 (processed st))
      | (s1, Ok v) =>
          match succeed txn job worker_id v q1 with
          | (q2, Ok _) => (MkWorker q2 s1 (processed st + 1), Ok true)
          | (q2, Err e) => record_failure later job worker_id e (MkWorker q2 s1 (processed st))
          end
      end
  end.

(** ** The route that accepts a job *)

Definition system_job (data : document) : result (string * document) :=
  kd ← text <$> item "kind" data;
  raise_if (negb (mem kd ["resource_put"; "heartbeat"; "optimization_run"])) (ValueError "unsupported durable job kind");;
  payload ← dict_of (default (VDict []) (od_get "payload" data));
  Ok (kd, payload).

(** The callback of [enqueue_system_job], which runs as an audited operation *)
Definition enqueue_callback (now : Z) (b : ResourceRequest) (c : ApiContext) (kd : string) (payload : document) : M queue Z :=
  attempts ← mlift (py_int (default (VInt 5) (od_get "max_attempts" (body_data b))));
  enqueue canon txn (ctx_tenant c) kd (VDict payload) (key_or (body_id b) c) attempts now.

Definition enqueue_system_job (now : Z) (b : ResourceRequest) (c : ApiContext) : M queue Z :=
  kp ← mlift (system_job (body_data b));
  enqueue_callback now b c kp.1 kp.2.
End worker.

Arguments worker_state : clear implicits.
Arguments MkWorker {S} _ _ _.
Arguments wk_queue {S} _.
Arguments wk_store {S} _.
Arguments processed {S} _.

(** ** One round *)

Section facts.
Context {S : Type} (txn : ∀ S A, M S A → M S A) `{!Transactional txn} (exn_text : exn → string).
Context (handlers : string → option (DurableJob → M S pyval)).

Lemma claim_run now locked worker_id q :
  (candidates q now locked = [] ∧ claim txn now locked worker_id 60 q = (q, Ok None)) ∨
  ∃ id r l, candidates q now locked = (id, r) :: l ∧
    claim txn now locked worker_id 60 q =
      (MkQueue (<[id := claimed_row worker_id (now + 60000000) r]> (rows q)) (next_id q),
       Ok (Some (job_of id (claimed_row worker_id (now + 60000000) r) (now + 60000000)))).
Proof using Transactional0.
  unfold claim, mguard, raise_if, mget, mput, mret, M_ret, mbind, M_bind. simpl. rewrite !txn_atomically. unfold atomically.
  destruct (candidates q now locked) as [|[id r] l]; [by left|]. right. exists id, r, l. split; reflexivity.
Qed.

(** The row of a claimed job after its handler ran *)
Definition recorded (later : Z) (job : DurableJob) (row : job_row) (out : result pyval) : job_row :=
  match out with Ok v => done_row v row | Err e => failed_row later job (exn_text e) row end.

Lemma record_outcome later job worker_id q (s : S) n (out : result pyval) row : rows q !! dj_id job = Some row → jr_tenant row = dj_tenant_id job →
  jr_status row = JRunning → jr_leased_by row = Some worker_id →
  match out with
  | Err e => record_failure txn exn_text later job worker_id e (MkWorker q s n)
  | Ok v => match succeed txn job worker_id v q with
            | (q2, Ok _) => (MkWorker q2 s (n + 1), Ok true)
            | (q2, Err e) => record_failure txn exn_text later job worker_id e (MkWorker q2 s n)
            end
  end = (MkWorker (MkQueue (<[dj_id job := recorded later job row out]> (rows q)) (next_id q)) s (if is_ok out then n + 1 else n), Ok true).
Proof using Transactional0.
  intros Hr Ht Hst Hl. destruct out as [v|e]; simpl.
  - unfold succeed. rewrite txn_atomically. unfold atomically, mbind, M_bind. by rewrite (update_leased_held _ _ _ _ row).
  - unfold record_failure, fail. rewrite txn_atomically. unfold atomically, mbind, M_bind. simpl. by rewrite (update_leased_held _ _ _ _ row).
Qed.
End facts.

(** C29: A worker's round records what happened.  When no other worker interferes, a round never raises: it answers
    false, with queue and store untouched, exactly when no job is due; otherwise it takes the first due job, runs
    its handler on the store, and the job's row ends succeeded with the handler's result, or, when the handler
    raised or there is none for its kind, failed with the error: waiting for a later attempt, or a dead letter when
    the attempts are used up.  No other row changes, and the counter counts the successes. *)
Theorem worker_round_recorded {S : Type} (txn : ∀ S A, M S A → M S A) (Htxn : Transactional txn) (exn_text : exn → string)
    (handlers : string → option (DurableJob → M S pyval)) (now later : Z) (locked : gset Z) (worker_id : string) (st : worker_state S) :
  let out := run_once txn exn_text handlers now later locked worker_id st in
  (candidates (wk_queue st) now locked = [] ∧ out = (st, Ok false)) ∨
  ∃ id r l, candidates (wk_queue st) now locked = (id, r) :: l ∧
    let row := claimed_row worker_id (now + 60000000) r in let job := job_of id row (now + 60000000) in
    let ran := handle handlers job (wk_store st) in
    out.2 = Ok true ∧ wk_store out.1 = ran.1 ∧ rows (wk_queue out.1) = <[id := recorded exn_text later job row ran.2]> (rows (wk_queue st)) ∧
    processed out.1 = processed st + (if is_ok ran.2 then 1 else 0) ∧
    jr_status (recorded exn_text later job row ran.2) =
      (if is_ok ran.2 then JSucceeded else if jr_max_attempts r <=? jr_attempt r + 1 then JDeadLetter else JPending).
Proof.
  unfold run_once. destruct (claim_run txn now locked worker_id (wk_queue st)) as [[Hc ->]|(id & r & l & Hc & ->)].
  { left. split; [done|]. by destruct st. }
  right. exists id, r, l. split; [done|]. cbv zeta. set (row := claimed_row worker_id (now + 60000000) r). set (job := job_of id row (now + 60000000)).
  destruct (handle handlers job (wk_store st)) as [s1 res] eqn:Eh.
  pose proof (record_outcome txn exn_text later job worker_id (MkQueue (<[id := row]> (rows (wk_queue st))) (next_id (wk_queue st))) s1 (processed st) res row) as Hrec.
  simpl in Hrec. rewrite lookup_insert_eq in Hrec. specialize (Hrec eq_refl eq_refl eq_refl eq_refl).
  destruct res as [v|e]; simpl in *; rewrite Hrec; simpl; rewrite insert_insert_eq; (split_and!; [done|done|done|lia|done]).
Qed.

(** A resource job that is run again changes nothing more.  If a worker ran the job's handler on the PostgreSQL
    store and then lost the job, another run of it after any other writes, while the store still keeps the job's
    idempotency record, answers the same and leaves the store as it is. *)
Theorem resource_job_retry_safe (of_str : string → pyval) (request_digest : string → string → gmap string pyval → string)
    (etag_digest : string → string → Z → gmap string pyval → string) (json_safe : gmap string pyval → gmap string pyval)
    (txn : ∀ S A, M S A → M S A) (Htxn : Transactional txn) (ttl : Z) (Httl : 0 < ttl) (str_container : pyval → string)
    (job : DurableJob) (now : Z) (s s' : pg_store pyval) (v : pyval)
    (Hrun : resource_put (pg_api of_str request_digest etag_digest json_safe txn ttl) str_container now job s = (s', Ok v)) :
  ∃ deadline, now < deadline ∧ ∀ ops now', Forall (λ o, o.1 < deadline) ops → now' < deadline →
    let s'' := run (pg_api of_str request_digest etag_digest json_safe txn ttl) ops s' in
    resource_put (pg_api of_str request_digest etag_digest json_safe txn ttl) str_container now' job s'' = (s'', Ok v).
Proof.
  unfold resource_put, mlift, mbind, M_bind, mret, M_ret in *. destruct (resource_put_of str_container job) as [q|]; [|done].
  destruct (api_put _ now q s) as [s1 [r|e]] eqn:Ep; [|done]. injection Hrun as <- <-.
  destruct (pg_put_records _ _ _ _ _ _ _ _ _ _ _ Httl Ep) as (row & Hrow & Hnow & Hr & Hhash).
  exists (expires_at row). split; [done|]. intros ops now' Hops Hnow'. cbv zeta.
  rewrite (pg_put_replays _ _ _ _ _ _ now' q _ row); [by rewrite Hr|by apply pg_run_remembers|done|done].
Qed.

(** A job that writes a resource *)
Definition toy_job_request (kd id : string) (data : document) : ResourceRequest :=
  MkResourceRequest "job-1" [("kind", VStr "resource_put");
    ("payload", VDict [("kind", VStr kd); ("resource_id", VStr id); ("body", VDict data)])].
Definition toy_queue (b : ResourceRequest) : queue :=
  (enqueue_system_job (λ _, "") (@atomically) (λ _, "") 0 b (toy_context_of "pat" "planner" "key-0001" None) empty_queue).1.
Abbreviation toy_round b := (run_once (@atomically) (λ _, "error") (default_handlers toy_store (λ _, "") (λ _, mraise TypeError) 5) 5 6 ∅ "w1"
  (MkWorker (toy_queue b) (api_init toy_store) 0)).

Lemma worker_round_recorded_witness :
  let b := toy_job_request "site" "s1" [("name", VStr "north")] in
  (toy_round b).2 = Ok true ∧ processed (toy_round b).1 = 1 ∧ jr_status <$> rows (wk_queue (toy_round b).1) !! 1 = Some JSucceeded ∧
  ((candidates (toy_queue b) 5 ∅ = [] ∧ toy_round b = (MkWorker (toy_queue b) (api_init toy_store) 0, Ok false)) ∨
   ∃ id r l, candidates (toy_queue b) 5 ∅ = (id, r) :: l).
Proof.
  intros b. split; [by vm_compute|]. split; [by vm_compute|]. split; [by vm_compute|].
  destruct (worker_round_recorded (@atomically) atomically_transactional (λ _, "error")
    (default_handlers toy_store (λ _, "") (λ _, mraise TypeError) 5) 5 6 ∅ "w1" (MkWorker (toy_queue b) (api_init toy_store) 0))
    as [H|(id & r & l & H & _)]; [left; exact H|right; by exists id, r, l].
Defined.

Definition toy_job : DurableJob :=
  MkDurableJob 1 "acme" "resource_put" (VDict [("kind", VStr "site"); ("resource_id", VStr "s1"); ("body", VDict [("name", VStr "north")])]) "key-0001" 1 5 60.
Abbreviation toy_pg := (pg_api VStr (λ kd id (b : gmap string pyval), kd +:+ "/" +:+ id) (λ t kd v (b : gmap string pyval), int_str v) id (@atomically) 100).

Lemma resource_job_retry_safe_witness :
  let s' := (resource_put toy_pg (λ _, "") 1 toy_job (api_init toy_pg)).1 in
  ∃ v, resource_put toy_pg (λ _, "") 1 toy_job (api_init toy_pg) = (s', Ok v) ∧
  ∃ deadline, 1 < deadline ∧ ∀ ops now', Forall (λ o, o.1 < deadline) ops → now' < deadline →
    resource_put toy_pg (λ _, "") now' toy_job (run toy_pg ops s') = (run toy_pg ops s', Ok v).
Proof.
  intros s'. exists (VDict [("resource_id", VStr "s1"); ("version", VInt 1); ("etag", VStr "1")]).
  assert (resource_put toy_pg (λ _, "") 1 toy_job (api_init toy_pg) = (s', Ok (VDict [("resource_id", VStr "s1"); ("version", VInt 1); ("etag", VStr "1")]))) as H
    by by vm_compute.
  split; [exact H|].
  exact (resource_job_retry_safe VStr (λ kd id (b : gmap string pyval), kd +:+ "/" +:+ id) (λ t kd v (b : gmap string pyval), int_str v) id (@atomically)
    atomically_transactional 100 ltac:(lia) (λ _, "") toy_job 1 (api_init toy_pg) s' _ H).
Defined.

(** Durable jobs bypass governance.  The route that accepts jobs asks only for a role that may write, and the worker
    writes a resource of any kind without the checks of that kind's routes: a planner can store a plan as approved
    that nobody validated or voted on, and can write roles, which their own route keeps to administrators, with a
    password inside. *)
Definition smuggled_plan : ResourceRequest := toy_job_request "plan" "p1" [("state", VStr "approved"); ("risk", VInt 4)].
Definition smuggled_role : ResourceRequest := toy_job_request "role" "root" [("name", VStr "pat"); ("password", VStr "x")].
Theorem durable_jobs_bypass_governance :
  authorize_request "POST" "/v1/system/jobs" {["planner"]} = Ok tt ∧
  map (λ r, field "state" (body r)) (api_history toy_store ("acme", "plan", "p1") (wk_store (toy_round smuggled_plan).1)) = [VStr "approved"] ∧
  authorize_request "POST" "/v1/roles" {["planner"]} = Err (PermissionError "role is not authorized for this operation") ∧
  length (api_history toy_store ("acme", "role", "root") (wk_store (toy_round smuggled_role).1)) = 1%nat ∧
  is_ok (reject_inline_secrets (VDict [("name", VStr "pat"); ("password", VStr "x")]) "body") = false.
Proof. by vm_compute. Qed.
