(* ===== verification/Certification.v ===== *)
(** * Release certification

    [packages/certification/service.py]: the certificate of a release from its gate results, its content hash
    and the checks of a stored certificate; [signing.py]: release tokens.  Lifecycle has the repository.

    A file of the repository is its document; [write_evidence] and [verify_evidence] (the SHA-256 sidecar, the
    JUnit report, atomic replacement) are taken to keep it, and the JSON text of a document to keep its values.
    Parameters: the digests of a certificate body and of an artifact set, and the JWT library.  Release has the
    collection of gate evidence from the file system. *)
From S2P Require Import Prelude PyValue Domain.
Local Open Scope Z_scope.

(** ** service.py *)

Record GateResult := MkGate { gate_name : string; passed : bool; evidence : list string; reason : option string }.
#[global] Instance gate_eq_dec : EqDecision GateResult.
Proof. solve_decision. Defined.

#[local] Abbreviation hashes := (list (string * string)).
#[local] Abbreviation json := (list (string * pyval)).

(** the body a certificate's hash is taken of *)
Record cert_body := MkBody {
  release_id : string; commit : string; generated_at : datetime; expires_at : datetime; status : string;
  gates : list GateResult; risks : list string; evidence_hashes : hashes; artifacts : hashes;
  test_summary : json; scenario_metrics : json; approvals : list json
}.
Record CertificationResult := MkCert { body : cert_body; certificate_hash : string; signature : option string }.

Definition MANDATORY_GATES : list string :=
  ["build"; "tests"; "contracts"; "security"; "scenarios"; "performance"; "backup_restore"; "external_integrations"; "acceptance"].

Definition is_hex (c : Ascii.ascii) : bool := is_digit c || ((97 <=? ord c) && (ord c <=? 102)).
Definition is_sha256 (s : string) : bool := (String.length s =? 64)%nat && forallb is_hex (String.list_ascii_of_string s).

(** [IMMUTABLE_REVISION.fullmatch]: 7 to 64 hexadecimal digits, or ["sha256:"] and 64 of them *)
Definition immutable_revision (s : string) : bool :=
  (forallb is_hex (String.list_ascii_of_string s) && (7 <=? String.length s)%nat && (String.length s <=? 64)%nat)
  || (bool_decide (String.substring 0 7 s = "sha256:") && is_sha256 (String.substring 7 (String.length s - 7) s)).

(** [dict(sorted(d.items()))] *)
Definition sort_dict (d : hashes) : hashes := py_sorted (cmp_on fst String.compare) d.

(** every evidence hash is an artifact hash, unchanged *)
Definition artifacts_cover (a e : hashes) : bool := forallb (λ kv, bool_decide (od_get kv.1 a = Some kv.2)) e.

Definition unbound (e : hashes) (g : GateResult) : bool :=
  bool_decide (evidence g = []) || existsb (λ r, match od_get r e with None => true | Some _ => false end) (evidence g).

(** [by_name.get(name, ...)]: the last gate result of that name *)
Definition declared_gate (results : list GateResult) (name : string) : GateResult :=
  default (MkGate name false [] (Some "mandatory evidence missing"))
    (last (base.filter (λ g, gate_name g = name) results)).
Definition effective_gate (e : hashes) (g : GateResult) : GateResult :=
  if passed g && unbound e g then MkGate (gate_name g) false (evidence g) (Some "evidence content hash is missing") else g.

Definition effective_gates (e : hashes) (results : list GateResult) : list GateResult :=
  map (λ n, effective_gate e (declared_gate results n)) MANDATORY_GATES.

Definition gates_status (gs : list GateResult) : string := if forallb passed gs then "CERTIFIED" else "NOT_CERTIFIED".

Definition thirty_days : Z := 30 * 86400 * 1000000.
Definition after_30_days (t : datetime) : datetime := DT (us t + thirty_days) (aware t).

Section certification.
Context (digest : cert_body → string).

Definition certify_release (rel com : string) (at_ : datetime) (results : list GateResult) (accepted : list string)
    (hashes_ arts : hashes) (tests metrics : json) (apps : list json) (sig : option string) : result CertificationResult :=
  raise_if (negb (aware at_)) (ValueError "certificate generation time must be timezone-aware");;
  let e := sort_dict hashes_ in
  let a := sort_dict (match arts with [] => e | _ => arts end) in
  raise_if (existsb (λ kv, negb (is_sha256 kv.2)) e) (ValueError "evidence hashes must be lowercase SHA-256 digests");;
  raise_if (existsb (λ kv, negb (is_sha256 kv.2)) a) (ValueError "artifact hashes must be lowercase SHA-256 digests");;
  raise_if (negb (artifacts_cover a e)) (ValueError "artifact hashes must include every evidence hash unchanged");;
  let gs := effective_gates e results in
  let b := MkBody rel com at_ (after_30_days at_) (gates_status gs) gs accepted e a tests metrics apps in
  Ok (MkCert b (digest b) sig).

Definition verify_certificate (c : CertificationResult) : bool := bool_decide (digest (body c) = certificate_hash c).

(** the checks of [certificate_from_document]; the document is the fields that [asdict] wrote, and an empty
    signature reads as none *)
Definition certificate_from_document (d : CertificationResult) : result CertificationResult :=
  let b := body d in
  let c := MkCert b (certificate_hash d) (match signature d with Some s => if bool_decide (s = "") then None else Some s | None => None end) in
  raise_if (negb (aware (generated_at b)) || negb (aware (expires_at b))) (ValueError "certificate timestamps must be timezone-aware");;
  raise_if (negb (bool_decide (expires_at b = after_30_days (generated_at b)))) (ValueError "certificate validity period must be exactly 30 days");;
  raise_if (negb (bool_decide (map gate_name (gates b) = MANDATORY_GATES))) (ValueError "certificate mandatory gate set is invalid");;
  raise_if (negb (bool_decide (status b = gates_status (gates b)))) (ValueError "certificate status does not match its mandatory gates");;
  raise_if (bool_decide (status b = "CERTIFIED") && negb (immutable_revision (commit b)))
    (ValueError "certified releases require an immutable source revision");;
  raise_if (existsb (λ kv, negb (is_sha256 kv.2)) (evidence_hashes b)) (ValueError "certificate evidence hash is invalid");;
  raise_if (existsb (λ kv, negb (is_sha256 kv.2)) (artifacts b)) (ValueError "certificate artifact hash is invalid");;
  raise_if (negb (artifacts_cover (artifacts b) (evidence_hashes b))) (ValueError "certificate artifact set does not cover its evidence hashes");;
  raise_if (existsb (λ g, passed g && unbound (evidence_hashes b) g) (gates b)) (ValueError "a passing certificate gate has unbound evidence");;
  raise_if (negb (verify_certificate c)) (ValueError "certificate content hash is invalid");;
  Ok c.

(** ** signing.py *)

Record token_claims := MkClaims {
  cl_sub : string; cl_iat : Z; cl_exp : Z; cl_jti : string; cl_status : string; cl_commit : string; cl_release : string;
  cl_certificate_hash : string; cl_artifact_set_hash : string
}.

Context (artifact_digest : hashes → string).
Context (jwt_encode : token_claims → string → option string → string) (jwt_decode : string → result token_claims).

Definition release_claims (c : CertificationResult) (issued : datetime) : token_claims :=
  MkClaims (release_id (body c)) (us issued) (us (expires_at (body c))) (certificate_hash c) (status (body c))
    (commit (body c)) (release_id (body c)) (certificate_hash c) (artifact_digest (artifacts (body c))).
Definition key_header (key_id : option string) : option string :=
  match key_id with Some k => if bool_decide (k = "") then None else Some k | None => None end.

Definition issue_release_token (c : CertificationResult) (key_mode : Z) (algorithm : string) (key_id : option string)
    (issued : datetime) : result string :=
  raise_if (negb (aware issued)) (ValueError "release token issue time must be timezone-aware");;
  raise_if (negb (mem algorithm ["RS256"; "ES256"; "EdDSA"])) (ValueError "unsupported release signing algorithm");;
  raise_if (negb (bool_decide (status (body c) = "CERTIFIED")) || negb (verify_certificate c))
    (ValueError "only a verified CERTIFIED result can be signed");;
  raise_if (us (expires_at (body c)) <=? us issued) (ValueError "expired release certificates cannot be signed");;
  raise_if (negb (immutable_revision (commit (body c)))) (ValueError "release tokens require an immutable source revision");;
  raise_if (negb (Z.land (Z.land key_mode 511) 63 =? 0)) (PermissionError "release signing key must not be group/world accessible");;
  Ok (jwt_encode (release_claims c issued) algorithm (key_header key_id)).

Definition attach_release_signature (c : CertificationResult) (token : string) : CertificationResult :=
  MkCert (body c) (certificate_hash c) (Some token).

(** with [now] not given, as [publish] calls it *)
Definition verify_release_token (token : string) (expected : option CertificationResult) : result token_claims :=
  cl ← jwt_decode token;
  raise_if (negb (bool_decide (cl_status cl = "CERTIFIED"))) (ValueError "release token is not certified");;
  raise_if (negb (bool_decide (cl_jti cl = cl_certificate_hash cl))) (ValueError "release token identifier does not match its certificate");;
  match expected with
  | None => Ok cl
  | Some c =>
      raise_if (negb (verify_certificate c)) (ValueError "expected release certificate is invalid");;
      raise_if (negb (bool_decide (cl_release cl = release_id (body c))) || negb (bool_decide (cl_commit cl = commit (body c)))
                || negb (bool_decide (cl_certificate_hash cl = certificate_hash c)))
        (ValueError "release token does not match the expected certificate");;
      raise_if (negb (bool_decide (cl_artifact_set_hash cl = artifact_digest (artifacts (body c)))))
        (ValueError "release token artifact set does not match the certificate");;
      Ok cl
  end.
End certification.

(** ** Certificates *)

Lemma sort_dict_perm d : sort_dict d ≡ₚ d.
Proof. apply py_sorted_perm. Qed.

Lemma od_get_sorted r d : (∃ v, od_get r (sort_dict d) = Some v) ↔ r ∈ d.*1.
Proof.
  rewrite <- (sort_dict_perm d). destruct (od_get r (sort_dict d)) as [v|] eqn:E.
  - split; [intros _|by eauto]. apply od_get_elem_of in E. apply list_elem_of_fmap. by exists (r, v).
  - apply od_get_None in E. naive_solver.
Qed.

Lemma unbound_false e g : unbound (sort_dict e) g = false ↔ evidence g ≠ [] ∧ ∀ r, r ∈ evidence g → r ∈ e.*1.
Proof.
  unfold unbound. rewrite orb_false_iff, bool_decide_eq_false, existsb_false, Forall_forall. split.
  - intros [H1 H2]. split; [done|]. intros r Hr. specialize (H2 r Hr). apply od_get_sorted. destruct (od_get r (sort_dict e)); [by eauto|done].
  - intros [H1 H2]. split; [done|]. intros r Hr. apply H2, od_get_sorted in Hr as [v ->]. done.
Qed.

(** the result given last for a gate, where there is one *)
Definition gate_given (results : list GateResult) (n : string) : option GateResult := last (base.filter (λ g, gate_name g = n) results).

Lemma declared_name results n : gate_name (declared_gate results n) = n.
Proof.
  unfold declared_gate. destruct (last _) as [g|] eqn:E; simpl; [|done]. apply last_Some_elem_of in E. by apply list_elem_of_filter in E as [? _].
Qed.

Lemma effective_name e g : gate_name (effective_gate e g) = gate_name g.
Proof. unfold effective_gate. by destruct (_ && _). Qed.

Lemma effective_passed e g : passed (effective_gate e g) = passed g && negb (unbound e g).
Proof. unfold effective_gate. destruct (passed g) eqn:E, (unbound e g); simpl; try done. Qed.

Lemma effective_gates_names e results : map gate_name (effective_gates e results) = MANDATORY_GATES.
Proof.
  unfold effective_gates. rewrite map_map. rewrite (map_ext _ id); [by rewrite map_id|]. intros n. by rewrite effective_name, declared_name.
Qed.

(** the gates all pass exactly when every mandatory gate was given, passed, with bound evidence *)
Lemma effective_gates_certified hs results :
  gates_status (effective_gates (sort_dict hs) results) = "CERTIFIED" ↔
  ∀ n, n ∈ MANDATORY_GATES → ∃ g, gate_given results n = Some g ∧ passed g = true ∧ evidence g ≠ [] ∧ ∀ r, r ∈ evidence g → r ∈ hs.*1.
Proof.
  assert (∀ gs, gates_status gs = "CERTIFIED" ↔ Forall (λ g, passed g = true) gs) as ->.
  { intros gs. unfold gates_status. rewrite <- forallb_true_iff. by destruct (forallb passed gs). }
  unfold effective_gates. rewrite Forall_map, Forall_forall. split; intros H n Hn; specialize (H n Hn).
  - rewrite effective_passed in H. unfold declared_gate in *. change (last _) with (gate_given results n) in *.
    destruct (gate_given results n) as [g|]; simpl in *; [|done]. apply andb_true_iff in H as [Hp Hu%negb_true_iff].
    apply unbound_false in Hu as [He Hr]. by exists g.
  - destruct H as (g & Hg & Hp & He & Hr). rewrite effective_passed. unfold declared_gate. change (last _) with (gate_given results n). rewrite Hg. simpl.
    rewrite Hp. simpl. apply negb_true_iff. by apply unbound_false.
Qed.

Lemma effective_gates_bound e results : existsb (λ g, passed g && unbound e g) (effective_gates e results) = false.
Proof.
  apply existsb_false, Forall_map, Forall_forall. intros n _. unfold effective_gate.
  destruct (passed (declared_gate results n) && unbound e (declared_gate results n)) eqn:E; simpl; done.
Qed.

(** A certificate says what the gates say.  Whatever the inputs, a certificate that is issued lists the
    mandatory gates in order, expires after 30 days and verifies against its own hash; it is CERTIFIED exactly
    when the last result given for every mandatory gate passed and names evidence that is not empty and all
    hashed; and read back from its document it is accepted and unchanged, provided that it carries no empty
    signature and, if it is CERTIFIED, that its revision is immutable. *)
Theorem certify_release_correct digest rel com at_ results accepted hs arts tests metrics apps sig c :
  certify_release digest rel com at_ results accepted hs arts tests metrics apps sig = Ok c →
  map gate_name (gates (body c)) = MANDATORY_GATES ∧ us (expires_at (body c)) = us at_ + 30 * 86400 * 1000000 ∧
  verify_certificate digest c = true ∧
  (status (body c) = "CERTIFIED" ↔ ∀ n, n ∈ MANDATORY_GATES → ∃ g, gate_given results n = Some g ∧ passed g = true ∧ evidence g ≠ [] ∧
     ∀ r, r ∈ evidence g → r ∈ hs.*1) ∧
  (sig ≠ Some "" → (status (body c) = "CERTIFIED" → immutable_revision com = true) → certificate_from_document digest c = Ok c).
Proof.
  unfold certify_release, mbind, result_bind, raise_if. cbv zeta. guards. intros [= <-]. cbn [body gates status expires_at certificate_hash].
  set (e := sort_dict hs) in *. set (a := sort_dict (match arts with [] => e | _ => arts end)) in *. set (gs := effective_gates e results) in *.
  split_and!; [apply effective_gates_names|done|unfold verify_certificate; by rewrite bool_decide_eq_true_2|apply effective_gates_certified|].
  intros Hsig Himm. unfold certificate_from_document, verify_certificate, mbind, result_bind, raise_if. cbv zeta.
  assert ((match sig with Some s => if bool_decide (s = "") then None else Some s | None => None end) = sig) as Hs.
  { destruct sig as [s|]; [|done]. rewrite bool_decide_eq_false_2; [done|congruence]. }
  assert (bool_decide (gates_status gs = "CERTIFIED") && negb (immutable_revision com) = false) as Hi.
  { case_bool_decide as Eb; [|done]. by rewrite (Himm Eb). }
  cbn [body signature certificate_hash generated_at expires_at gates status commit evidence_hashes artifacts]. apply negb_false_iff in Eg.
  rewrite Hs, Eg, (bool_decide_eq_true_2 _ (effective_gates_names e results)), Hi, Eg0, Eg1, Eg2. pose proof (effective_gates_bound e results) as Hub. fold gs in Hub. rewrite Hub.
  cbn [aware after_30_days]. rewrite Eg. by rewrite !bool_decide_eq_true_2.
Qed.

Definition sample_hash : string := "0123456789abcdef0123456789abcdef0123456789abcdef0123456789abcdef".
Definition sample_gates : list GateResult := map (λ n, MkGate n true ["evidence/all.json"] None) MANDATORY_GATES.
Definition sample_certificate (digest : cert_body → string) (sig : option string) : result CertificationResult :=
  certify_release digest "r-1.0" "0123abc" (DT 5 true) sample_gates [] [("evidence/all.json", sample_hash)] [] [] [] [] sig.

Lemma certify_release_correct_witness :
  ∃ c, sample_certificate (λ b, release_id b +:+ status b) None = Ok c ∧ status (body c) = "CERTIFIED" ∧
    certificate_from_document (λ b, release_id b +:+ status b) c = Ok c.
Proof.
  destruct (sample_certificate (λ b, release_id b +:+ status b) None) as [c|x] eqn:E; [|vm_compute in E; discriminate].
  exists c. pose proof E as E'. unfold sample_certificate in E.
  destruct (certify_release_correct _ _ _ _ _ _ _ _ _ _ _ _ _ E) as (_ & _ & _ & Hs & Hd).
  vm_compute in E'. injection E' as <-. split; [reflexivity|]. split; [reflexivity|]. apply Hd; [discriminate|reflexivity].
Defined.

(** A release token binds its certificate.  A token can be issued only for a CERTIFIED certificate that
    verifies and has not expired, with a supported algorithm and a private key that others cannot read; and if
    the JWT library decodes what it encoded, the token verifies against the certificate it was issued for, and
    against no certificate with another release, commit or hash. *)
Theorem release_token_roundtrip digest artifact_digest jwt_encode jwt_decode (c : CertificationResult) mode alg key (issued : datetime) token :
  let claims := release_claims artifact_digest c issued in
  jwt_decode (jwt_encode claims alg (key_header key)) = Ok claims →
  issue_release_token digest artifact_digest jwt_encode c mode alg key issued = Ok token →
  status (body c) = "CERTIFIED" ∧ us issued < us (expires_at (body c)) ∧ Z.land mode 63 = 0 ∧ alg ∈ ["RS256"; "ES256"; "EdDSA"] ∧
  is_ok (verify_release_token digest artifact_digest jwt_decode token (Some (attach_release_signature c token))) = true ∧
  ∀ c', is_ok (verify_release_token digest artifact_digest jwt_decode token (Some c')) = true →
    release_id (body c') = release_id (body c) ∧ commit (body c') = commit (body c) ∧ certificate_hash c' = certificate_hash c ∧
    digest (body c') = digest (body c) ∧ artifact_digest (artifacts (body c')) = artifact_digest (artifacts (body c)).
Proof.
  intros claims Hjwt. unfold issue_release_token, mbind, result_bind, raise_if. guards. intros [= <-]. fold claims.
  apply orb_false_iff in Eg1 as [Hst%negb_false_iff Hver%negb_false_iff]. apply bool_decide_eq_true in Hst. bprop.
  rewrite <- Z.land_assoc in Eg4. change (Z.land 511 63) with 63 in Eg4.
  unfold verify_release_token. split_and!; [done|done|done|by apply mem_true| |]; unfold mbind, result_bind, raise_if; rewrite Hjwt; simpl; rewrite Hst.
  - unfold attach_release_signature, verify_certificate in *. simpl in *. rewrite Hver. by rewrite !bool_decide_eq_true_2.
  - intros c'. rewrite !(bool_decide_eq_true_2 (_ = _)) by done. simpl. guards.
    intros _. unfold verify_certificate in *. bprop. split_and!; congruence.
Qed.

Lemma release_token_roundtrip_witness :
  let digest := λ b, release_id b +:+ status b in let arts := λ _ : list (string * string), "a" in
  let encode := λ cl (_ : string) (_ : option string), cl_jti cl in
  ∃ c token, sample_certificate digest None = Ok c ∧ issue_release_token digest arts encode c 384 "ES256" None (DT 9 true) = Ok token ∧
    is_ok (verify_release_token digest arts (λ _, Ok (release_claims arts c (DT 9 true))) token (Some (attach_release_signature c token))) = true.
Proof.
  intros digest arts encode. destruct (sample_certificate digest None) as [c|x] eqn:E; [|vm_compute in E; discriminate].
  destruct (issue_release_token digest arts encode c 384 "ES256" None (DT 9 true)) as [token|x] eqn:Et;
    [|vm_compute in E; injection E as <-; vm_compute in Et; discriminate].
  exists c, token. split; [reflexivity|]. split; [exact Et|].
  exact (proj1 (proj2 (proj2 (proj2 (proj2 (release_token_roundtrip digest arts encode (λ _, Ok (release_claims arts c (DT 9 true))) c 384 "ES256" None (DT 9 true) token eq_refl Et)))))).
Defined.
