(* ===== verification/Lifecycle.v ===== *)
(** * The certification repository

    [packages/certification/lifecycle.py]: runs, published certificates, revocations and the chain of lifecycle
    events, one document per release in each category.  The repository's lock makes each method one step.
    Parameters: those of the certificates and tokens, and the digest of an event's body. *)
From S2P Require Import Prelude PyValue Domain Certification.
Local Open Scope Z_scope.

#[local] Abbreviation json := (list (string * pyval)).

(** what an event's hash is taken of, and the event *)
Record event_body := MkEventBody {
  event_type : string; ev_release : string; occurred_at : datetime; actor_id : string; payload : json; previous_hash : string
}.
Record CertificationEvent := MkEvent { ev_body : event_body; event_hash : string }.

Record revocation := MkRevocation {
  rv_release : string; rv_certificate_hash : string; revoked_at : datetime; rv_actor : string; rv_reason : string
}.

Record repository := MkRepo {
  events_of : gmap string (list CertificationEvent);
  runs : gmap string CertificationResult;
  certificates : gmap string CertificationResult;
  revocations : gmap string revocation;
  registry : list revocation
}.
Definition empty_repo : repository := MkRepo ∅ ∅ ∅ ∅ [].

(** [RELEASE_ID.fullmatch] *)
Definition is_alnum (c : Ascii.ascii) : bool := is_lower c || is_digit c || ((65 <=? ord c) && (ord c <=? 90)).
Definition is_release_char (c : Ascii.ascii) : bool := is_alnum c || (ord c =? 46) || (ord c =? 95) || (ord c =? 45).
Definition release_id_ok (s : string) : bool :=
  match String.list_ascii_of_string s with
  | [] => false
  | c :: rest => is_alnum c && forallb is_release_char rest && (length rest <=? 127)%nat
  end.

Definition validate_release_id (s : string) : result unit :=
  raise_if (negb (release_id_ok s)) (ValueError "release_id contains unsupported characters").

Definition EVENT_TYPES : list string := ["CertificationStarted"; "GateFailed"; "ReleaseCertified"; "CertificationRevoked"].

(** [_load_verified] of a document that is not there *)
Definition missing_document : exn :=
  ValueError "certification repository integrity check failed: evidence document or SHA-256 sidecar is missing".
Definition load_verified {A} (o : option A) : result A := of_option missing_document o.

Definition FileExistsError (msg : string) : exn := OtherError ("FileExistsError: " +:+ msg).

Section lifecycle.
Context (digest : cert_body → string) (artifact_digest : list (string * string) → string).
Context (jwt_decode : string → result token_claims) (event_digest : event_body → string).

(** the hash the next event of a release is chained to *)
Definition chain_head (l : list CertificationEvent) : string := match last l with Some e => event_hash e | None => "GENESIS" end.

Definition append_event (kind rel actor : string) (p : json) (at_ : datetime) : M repository CertificationEvent :=
  mguard (negb (mem kind EVENT_TYPES)) (ValueError "unsupported certification lifecycle event");;
  mlift (validate_release_id rel);;
  mguard (negb (aware at_)) (ValueError "certification event timestamp must be timezone-aware");;
  s ← mget;
  let l := default [] (events_of s !! rel) in
  let b := MkEventBody kind rel at_ actor p (chain_head l) in
  let e := MkEvent b (event_digest b) in
  mput (MkRepo (<[rel := l ++ [e]]> (events_of s)) (runs s) (certificates s) (revocations s) (registry s));;
  mret e.

Fixpoint append_failures (rel actor : string) (at_ : datetime) (gs : list GateResult) : M repository unit :=
  match gs with
  | [] => mret tt
  | g :: gs' =>
      (if passed g then mret tt
       else append_event "GateFailed" rel actor
              [("gate", VStr (gate_name g)); ("reason", match reason g with Some r => VStr r | None => VNone end);
               ("evidence", VList (map VStr (evidence g)))] at_;; mret tt);;
      append_failures rel actor at_ gs'
  end.

Definition certificate_payload (c : CertificationResult) : json :=
  [("commit", VStr (commit (body c))); ("certificate_hash", VStr (certificate_hash c))].

Definition save_run (c : CertificationResult) (actor : string) : M repository unit :=
  let rel := release_id (body c) in
  mlift (validate_release_id rel);;
  s ← mget;
  mguard (bool_decide (is_Some (certificates s !! rel))) (FileExistsError "a published release cannot be recertified in place");;
  match runs s !! rel with
  | Some d =>
      existing ← mlift (certificate_from_document digest d);
      mguard (negb (bool_decide (certificate_hash existing = certificate_hash c)))
        (FileExistsError "a different certification run already exists for this release")
  | None =>
      append_event "CertificationStarted" rel actor (certificate_payload c) (generated_at (body c));;
      append_failures rel actor (generated_at (body c)) (gates (body c));;
      s' ← mget;
      mput (MkRepo (events_of s') (<[rel := c]> (runs s')) (certificates s') (revocations s') (registry s'))
  end.

Definition load_run (rel : string) : M repository CertificationResult :=
  mlift (validate_release_id rel);;
  s ← mget; d ← mlift (load_verified (runs s !! rel)); mlift (certificate_from_document digest d).

Definition revocation_of (rel : string) : M repository (option revocation) :=
  mlift (validate_release_id rel);; s ← mget; mret (revocations s !! rel).

(** [now] is the instant of [datetime.now(UTC)], which the event takes *)
Definition publish (c : CertificationResult) (actor : string) (now : Z) : M repository unit :=
  mguard (negb (bool_decide (status (body c) = "CERTIFIED"))
          || match signature c with None => true | Some sig => bool_decide (sig = "") end)
    (ValueError "publishing requires a signed CERTIFIED result");;
  mlift (verify_release_token digest artifact_digest jwt_decode (default "" (signature c)) (Some c));;
  run ← load_run (release_id (body c));
  mguard (negb (bool_decide (certificate_hash run = certificate_hash c)))
    (ValueError "published certificate does not match the saved certification run");;
  rv ← revocation_of (release_id (body c));
  mguard (bool_decide (is_Some rv)) (ValueError "a revoked release cannot be republished");;
  s ← mget;
  match certificates s !! release_id (body c) with
  | Some d =>
      existing ← mlift (certificate_from_document digest d);
      mguard (negb (bool_decide (certificate_hash existing = certificate_hash c)))
        (FileExistsError "a different certificate already exists for this release")
  | None =>
      mput (MkRepo (events_of s) (runs s) (<[release_id (body c) := c]> (certificates s)) (revocations s) (registry s));;
      append_event "ReleaseCertified" (release_id (body c)) actor (certificate_payload c) (DT now true);; mret tt
  end.

Definition get_certificate (rel : string) : M repository CertificationResult :=
  mlift (validate_release_id rel);;
  s ← mget;
  d ← mlift (load_verified (match certificates s !! rel with Some d => Some d | None => runs s !! rel end));
  mlift (certificate_from_document digest d).

(** [_write_revocation_registry]: the revocation documents in the order of their file names *)
Definition registry_order : revocation → revocation → comparison := cmp_on (λ r, rv_release r +:+ ".json") String.compare.
Definition registry_entries (m : gmap string revocation) : list revocation := py_sorted registry_order (map snd (map_to_list m)).

Definition revoke (rel actor why : string) (now : Z) : M repository revocation :=
  mguard (bool_decide (py_strip why = "")) (ValueError "revocation reason is required");;
  mlift (validate_release_id rel);;
  s ← mget;
  match certificates s !! rel with
  | None => mraise (ValueError "only a published certificate can be revoked")
  | Some d =>
      c ← mlift (certificate_from_document digest d);
      mguard (negb (bool_decide (status (body c) = "CERTIFIED"))
              || match signature c with None => true | Some sig => bool_decide (sig = "") end)
        (ValueError "only a signed CERTIFIED release can be revoked");;
      match revocations s !! rel with
      | Some existing =>
          mguard (negb (bool_decide (rv_certificate_hash existing = certificate_hash c)))
            (ValueError "revocation does not match the current certificate");;
          mret existing
      | None =>
          let r := MkRevocation rel (certificate_hash c) (DT now true) actor (py_strip why) in
          mput (MkRepo (events_of s) (runs s) (certificates s) (<[rel := r]> (revocations s)) (registry s));;
          append_event "CertificationRevoked" rel actor
            [("certificate_hash", VStr (certificate_hash c)); ("reason", VStr (py_strip why))] (DT now true);;
          s' ← mget;
          mput (MkRepo (events_of s') (runs s') (certificates s') (revocations s') (registry_entries (revocations s')));;
          mret r
      end
  end.

Fixpoint verify_chain_from (previous : string) (l : list CertificationEvent) : bool :=
  match l with
  | [] => true
  | e :: l' =>
      if negb (bool_decide (previous_hash (ev_body e) = previous)) || negb (bool_decide (event_hash e = event_digest (ev_body e)))
      then false else verify_chain_from (event_hash e) l'
  end.
Definition verify_event_chain (rel : string) : M repository bool :=
  mlift (validate_release_id rel);;
  s ← mget; mret (verify_chain_from "GENESIS" (default [] (events_of s !! rel))).

(** the [published] and [status] fields of [view]; the rest is the certificate's document *)
Definition view_status (rel : string) : M repository (bool * string) :=
  mlift (validate_release_id rel);;
  s ← mget;
  let published := bool_decide (is_Some (certificates s !! rel)) in
  c ← get_certificate rel;
  let st := if negb published && bool_decide (status (body c) = "CERTIFIED") then "READY_FOR_RELEASE" else status (body c) in
  rv ← revocation_of rel;
  mret (published, match rv with Some _ => "REVOKED" | None => st end).
End lifecycle.

(** unfold the operations of the state monad *)
Ltac mrun := unfold mbind, M_bind, mguard, mlift, mget, mput, mret, M_ret, raise_if.

(** ** Events *)

(** the state with the events of one release replaced *)
Definition with_events (s : repository) (rel : string) (l : list CertificationEvent) : repository :=
  MkRepo (<[rel := l]> (events_of s)) (runs s) (certificates s) (revocations s) (registry s).

Definition kinds (l : list CertificationEvent) : list string := map (λ e, event_type (ev_body e)) l.

Lemma with_events_twice s rel l k : with_events (with_events s rel l) rel k = with_events s rel k.
Proof. unfold with_events. simpl. by rewrite insert_insert_eq. Qed.

Section event_facts.
Context (event_digest : event_body → string).

Lemma verify_chain_snoc p l e :
  verify_chain_from event_digest p (l ++ [e]) = true ↔
  verify_chain_from event_digest p l = true ∧
  previous_hash (ev_body e) = match last l with Some e' => event_hash e' | None => p end ∧ event_hash e = event_digest (ev_body e).
Proof.
  revert p. induction l as [|x l IH]; intros p; simpl.
  - repeat case_bool_decide; simpl; naive_solver.
  - destruct (_ || _); [naive_solver|]. rewrite IH. destruct l as [|y l]; [done|].
    change (last (x :: y :: l)) with (last (y :: l)). destruct (last (y :: l)) eqn:E; [done|]. by apply last_None in E.
Qed.

(** an event appended to a release: the chain grows by one link *)
Lemma append_event_ok kind rel actor p at_ s : kind ∈ EVENT_TYPES → release_id_ok rel = true → aware at_ = true →
  let l := default [] (events_of s !! rel) in
  verify_chain_from event_digest "GENESIS" l = true →
  ∃ e, append_event event_digest kind rel actor p at_ s = (with_events s rel (l ++ [e]), Ok e) ∧ event_type (ev_body e) = kind ∧
    verify_chain_from event_digest "GENESIS" (l ++ [e]) = true.
Proof.
  intros Hk Hr Ha l Hl. unfold append_event, mbind, M_bind, mguard, mlift, validate_release_id, raise_if, mget, mput, mret, M_ret.
  rewrite (proj2 (mem_true _ _)) by done. rewrite Hr, Ha. simpl. eexists. split; [reflexivity|]. split; [done|].
  apply verify_chain_snoc. done.
Qed.

Lemma append_failures_ok rel actor at_ gs : release_id_ok rel = true → aware at_ = true → ∀ s,
  let l := default [] (events_of s !! rel) in
  verify_chain_from event_digest "GENESIS" l = true → is_Some (events_of s !! rel) →
  ∃ k, append_failures event_digest rel actor at_ gs s = (with_events s rel (l ++ k), Ok tt) ∧
    kinds k = map (λ _, "GateFailed") (base.filter (λ g, passed g = false) gs) ∧
    verify_chain_from event_digest "GENESIS" (l ++ k) = true.
Proof.
  intros Hr Ha. induction gs as [|g gs IH]; intros s l Hl [l0 Hl0]; cbn [append_failures].
  - exists []. rewrite app_nil_r. split; [|done]. unfold with_events, mret, M_ret. unfold l. rewrite Hl0. simpl. rewrite insert_id by done. by destruct s.
  - destruct (passed g) eqn:Ep.
    + unfold mbind at 1, M_bind at 1. cbn [mret M_ret]. rewrite filter_cons_False by (by rewrite Ep). apply IH; [done|by eexists].
    + rewrite filter_cons_True by done.
      destruct (append_event_ok "GateFailed" rel actor [("gate", VStr (gate_name g)); ("reason", match reason g with Some r => VStr r | None => VNone end);
        ("evidence", VList (map VStr (evidence g)))] at_ s) as (e & He & Hk & Hv); [set_solver|done..|].
      unfold mbind at 1 2, M_bind at 1 2. rewrite He. cbn [mret M_ret].
      destruct (IH (with_events s rel (l ++ [e]))) as (k & Hk' & Hks & Hvk); [simpl; by rewrite lookup_insert_eq|simpl; rewrite lookup_insert_eq; by eexists|].
      fold l in Hk', Hvk. simpl in Hk', Hvk. rewrite lookup_insert_eq in Hk', Hvk. simpl in Hk', Hvk. rewrite <- app_assoc in Hk', Hvk. simpl in Hk', Hvk.
      exists (e :: k). fold l. rewrite Hk', with_events_twice. split; [done|]. split; [|done]. unfold kinds in *. simpl. by rewrite Hk, Hks.
Qed.
End event_facts.

(** ** Histories *)

Inductive life_op :=
| SaveRun (c : CertificationResult) (actor : string)
| Publish (c : CertificationResult) (actor : string) (now : Z)
| Revoke (rel actor why : string) (now : Z).

Section history.
Context (digest : cert_body → string) (artifact_digest : list (string * string) → string).
Context (jwt_decode : string → result token_claims) (event_digest : event_body → string).
#[local] Abbreviation save := (save_run digest event_digest).
#[local] Abbreviation pub := (publish digest artifact_digest jwt_decode event_digest).
#[local] Abbreviation revk := (revoke digest event_digest).
#[local] Abbreviation verify_token := (verify_release_token digest artifact_digest jwt_decode).
#[local] Abbreviation chained := (verify_chain_from event_digest "GENESIS").

Definition life_step (op : life_op) (s : repository) : repository :=
  match op with
  | SaveRun c actor => (save c actor s).1
  | Publish c actor now => (pub c actor now s).1
  | Revoke rel actor why now => (revk rel actor why now s).1
  end.
Definition life_run (h : list life_op) : repository := foldl (λ s op, life_step op s) empty_repo h.

(** the kinds of events a release must have, from its documents *)
Definition expected_kinds (s : repository) (rel : string) : list string :=
  match runs s !! rel with
  | None => []
  | Some run =>
      "CertificationStarted" :: map (λ _, "GateFailed") (base.filter (λ g, passed g = false) (gates (body run)))
      ++ (if bool_decide (is_Some (certificates s !! rel)) then ["ReleaseCertified"] else [])
      ++ (if bool_decide (is_Some (revocations s !! rel)) then ["CertificationRevoked"] else [])
  end.

(** a certificate that may have been published *)
Definition publishable (c : CertificationResult) : Prop :=
  status (body c) = "CERTIFIED" ∧ ∃ token cl, signature c = Some token ∧ token ≠ "" ∧ verify_token token (Some c) = Ok cl.

Record life_inv (s : repository) : Prop := {
  li_run : ∀ rel run, runs s !! rel = Some run → release_id (body run) = rel;
  li_cert : ∀ rel c, certificates s !! rel = Some c → release_id (body c) = rel ∧ publishable c ∧
    ∃ run, runs s !! rel = Some run ∧ is_ok (certificate_from_document digest run) = true ∧ certificate_hash run = certificate_hash c;
  li_revoked : ∀ rel r, revocations s !! rel = Some r → rv_release r = rel ∧
    ∃ c, certificates s !! rel = Some c ∧ rv_certificate_hash r = certificate_hash c;
  li_chain : ∀ rel, chained (default [] (events_of s !! rel)) = true;
  li_kinds : ∀ rel, kinds (default [] (events_of s !! rel)) = expected_kinds s rel;
  li_registry : registry s = registry_entries (revocations s)
}.

(** nothing recorded is ever changed or dropped *)
Record grows (s s' : repository) : Prop := {
  gr_runs : runs s ⊆ runs s';
  gr_certificates : certificates s ⊆ certificates s';
  gr_revocations : revocations s ⊆ revocations s';
  gr_events : ∀ rel, default [] (events_of s !! rel) `prefix_of` default [] (events_of s' !! rel)
}.

Lemma grows_refl s : grows s s.
Proof. by split. Qed.
Lemma grows_trans s1 s2 s3 : grows s1 s2 → grows s2 s3 → grows s1 s3.
Proof.
  intros [A1 A2 A3 A4] [B1 B2 B3 B4]. split; [by etransitivity..|]. intros rel. etransitivity; [apply A4|apply B4].
Qed.

Lemma from_document_hash d c : certificate_from_document digest d = Ok c → certificate_hash c = certificate_hash d ∧ body c = body d ∧
  digest (body c) = certificate_hash c ∧ status (body c) = gates_status (gates (body c)).
Proof.
  unfold certificate_from_document, verify_certificate, mbind, result_bind, raise_if. cbv zeta. guards. intros [= <-]. simpl.
  bprop. done.
Qed.

Lemma save_run_cases c actor s : life_inv s →
  let rel := release_id (body c) in let s' := (save c actor s).1 in
  s' = s ∨ certificates s !! rel = None ∧ runs s !! rel = None ∧
    ∃ k, s' = MkRepo (<[rel := k]> (events_of s)) (<[rel := c]> (runs s)) (certificates s) (revocations s) (registry s) ∧ chained k = true ∧
      kinds k = "CertificationStarted" :: map (λ _, "GateFailed") (base.filter (λ g, passed g = false) (gates (body c))).
Proof.
  intros Hi rel s'. unfold s', save_run. fold rel. mrun. unfold validate_release_id, raise_if. destruct (release_id_ok rel) eqn:Er; [|by left]. cbn [negb].
  case_bool_decide as Ec; [by left|]. destruct (runs s !! rel) as [d|] eqn:Erun.
  { destruct (certificate_from_document digest d); [|by left]. by destruct (negb _); left. }
  apply eq_None_not_Some in Ec. pose proof (li_kinds s Hi rel) as Hk. unfold expected_kinds in Hk. rewrite Erun in Hk.
  assert (default [] (events_of s !! rel) = []) as Hl by (by destruct (default [] (events_of s !! rel))).
  destruct (aware (generated_at (body c))) eqn:Ea.
  2:{ left. unfold append_event. mrun. unfold validate_release_id, raise_if. rewrite Er, Ea. by destruct (negb _). }
  right. split_and!; [done..|].
  destruct (append_event_ok event_digest "CertificationStarted" rel actor (certificate_payload c) (generated_at (body c)) s) as (e & He & Hke & Hv);
    [set_solver|done|done|by rewrite Hl|]. rewrite He, Hl in *. simpl in Hv |- *.
  destruct (append_failures_ok event_digest rel actor (generated_at (body c)) (gates (body c)) Er Ea (with_events s rel [e])) as (k & Hf & Hkk & Hvk).
  { simpl. by rewrite lookup_insert_eq. }
  { simpl. rewrite lookup_insert_eq. by eexists. }
  simpl in Hf, Hvk. rewrite lookup_insert_eq in Hf, Hvk. simpl in Hf, Hvk. rewrite Hf, with_events_twice. exists (e :: k). simpl.
  split; [done|]. split; [done|]. unfold kinds in *. simpl. by rewrite Hke, Hkk.
Qed.

Lemma publish_cases c actor now s : life_inv s →
  let rel := release_id (body c) in let s' := (pub c actor now s).1 in
  s' = s ∨ certificates s !! rel = None ∧ revocations s !! rel = None ∧ publishable c ∧
    (∃ run, runs s !! rel = Some run ∧ is_ok (certificate_from_document digest run) = true ∧ certificate_hash run = certificate_hash c) ∧
    ∃ e, let k := default [] (events_of s !! rel) ++ [e] in
      s' = MkRepo (<[rel := k]> (events_of s)) (runs s) (<[rel := c]> (certificates s)) (revocations s) (registry s) ∧
      chained k = true ∧ event_type (ev_body e) = "ReleaseCertified".
Proof.
  intros Hi rel s'. unfold s', publish. fold rel. unfold mbind at 1, M_bind at 1, mguard at 1, raise_if. destruct (_ || _) eqn:Es; [by left|].
  apply orb_false_iff in Es as [Est Esig]. destruct (signature c) as [token|] eqn:Etok; [|done]. bprop. simpl default.
  unfold mbind at 1, M_bind at 1, mlift at 1. destruct (verify_token token (Some c)) as [cl|] eqn:Ecl; [|by left].
  unfold load_run, revocation_of. mrun. unfold validate_release_id, raise_if. destruct (release_id_ok rel) eqn:Er; [|by left]. cbn [negb].
  unfold load_verified, of_option. destruct (runs s !! rel) as [run|] eqn:Erun; [|by left].
  destruct (certificate_from_document digest run) as [run'|] eqn:Ed; [|by left]. case_bool_decide as Eh; [|by left]. cbn [negb].
  case_bool_decide as Ev; [by left|]. apply eq_None_not_Some in Ev. destruct (certificates s !! rel) as [d|] eqn:Ec.
  { left. destruct (certificate_from_document digest d); [|done]. by destruct (negb _). }
  right. split_and!; [done..| | |].
  - split; [done|]. by exists token, cl.
  - exists run. destruct (from_document_hash _ _ Ed) as (<- & _). by rewrite Ed.
  - destruct (append_event_ok event_digest "ReleaseCertified" rel actor (certificate_payload c) (DT now true)
      (MkRepo (events_of s) (runs s) (<[rel := c]> (certificates s)) (revocations s) (registry s))) as (e & He & Hke & Hv);
      [set_solver|done|done|apply (li_chain s Hi)|]. rewrite He. exists e. simpl in *. done.
Qed.

Lemma revoke_cases rel actor why now s : life_inv s →
  let s' := (revk rel actor why now s).1 in
  s' = s ∨ ∃ c r, certificates s !! rel = Some c ∧ revocations s !! rel = None ∧ rv_release r = rel ∧ rv_certificate_hash r = certificate_hash c ∧
    ∃ e, let k := default [] (events_of s !! rel) ++ [e] in
      s' = MkRepo (<[rel := k]> (events_of s)) (runs s) (certificates s) (<[rel := r]> (revocations s)) (registry_entries (<[rel := r]> (revocations s))) ∧
      chained k = true ∧ event_type (ev_body e) = "CertificationRevoked".
Proof.
  intros Hi s'. unfold s', revoke. mrun. case_bool_decide; [by left|]. unfold validate_release_id, raise_if.
  destruct (release_id_ok rel) eqn:Er; [|by left]. cbn [negb]. destruct (certificates s !! rel) as [d|] eqn:Ec; [|by left].
  destruct (certificate_from_document digest d) as [c|] eqn:Ed; [|by left]. destruct (_ || _); [by left|].
  destruct (revocations s !! rel) as [r|] eqn:Ev; [left; by destruct (negb _)|]. right.
  destruct (from_document_hash _ _ Ed) as (Hh & _).
  destruct (append_event_ok event_digest "CertificationRevoked" rel actor [("certificate_hash", VStr (certificate_hash c)); ("reason", VStr (py_strip why))] (DT now true)
    (MkRepo (events_of s) (runs s) (certificates s) (<[rel := MkRevocation rel (certificate_hash c) (DT now true) actor (py_strip why)]> (revocations s)) (registry s)))
    as (e & He & Hke & Hv); [set_solver|done|done|apply (li_chain s Hi)|]. rewrite He. simpl.
  exists d, (MkRevocation rel (certificate_hash c) (DT now true) actor (py_strip why)). split_and!; [done..|]. exists e. done.
Qed.

(** a property of the events of every release, kept when those of one release change *)
Lemma events_insert (P : string → list CertificationEvent → Prop) rel k (ev : gmap string (list CertificationEvent)) :
  P rel k → (∀ rel', rel' ≠ rel → P rel' (default [] (ev !! rel'))) → ∀ rel', P rel' (default [] (<[rel := k]> ev !! rel')).
Proof. intros H1 H2 rel'. destruct (decide (rel' = rel)) as [->|Hne]; [by rewrite lookup_insert_eq|]. rewrite lookup_insert_ne by done. by apply H2. Qed.

Lemma unrevoked s rel : life_inv s → certificates s !! rel = None → revocations s !! rel = None.
Proof.
  intros Hi Hc. destruct (revocations s !! rel) as [r|] eqn:E; [|done]. destruct (li_revoked s Hi rel r E) as (_ & c & Hc' & _). congruence.
Qed.
Lemma unpublished s rel : life_inv s → runs s !! rel = None → certificates s !! rel = None.
Proof.
  intros Hi Hr. destruct (certificates s !! rel) as [c|] eqn:E; [|done]. destruct (li_cert s Hi rel c E) as (_ & _ & run & Hr' & _). congruence.
Qed.

Lemma inv_save c actor s : life_inv s → life_inv (save c actor s).1 ∧ grows s (save c actor s).1.
Proof.
  intros Hi. destruct (save_run_cases c actor s Hi) as [->|(Hc & Hr & k & -> & Hv & Hk)]; [by split; [|apply grows_refl]|].
  set (rel := release_id (body c)) in *. pose proof (unrevoked s rel Hi Hc) as Hrv. split.
  - split; simpl.
    + intros rel' run. rewrite lookup_insert_Some. intros [[<- <-]|[_ Hrun]]; [done|]. by apply (li_run s Hi).
    + intros rel' c' Hc'. destruct (li_cert s Hi rel' c' Hc') as (H1 & H2 & run & H3 & H4). split_and!; [done..|]. exists run.
      rewrite lookup_insert_ne by congruence. done.
    + apply (li_revoked s Hi).
    + apply (events_insert (λ _ l, chained l = true)); [done|]. intros rel' _. apply (li_chain s Hi).
    + apply (events_insert (λ rel' l, kinds l = expected_kinds _ rel')); unfold expected_kinds; simpl.
      * rewrite lookup_insert_eq, Hc, Hrv, Hk. simpl. by rewrite app_nil_r.
      * intros rel' Hne. rewrite lookup_insert_ne by done. apply (li_kinds s Hi).
    + apply (li_registry s Hi).
  - split; simpl; [by apply insert_subseteq|done..|]. pose proof (li_kinds s Hi rel) as Hk0. unfold expected_kinds in Hk0. rewrite Hr in Hk0.
    apply (events_insert (λ rel' l, default [] (events_of s !! rel') `prefix_of` l)); [|done].
    destruct (default [] (events_of s !! rel)); [apply prefix_nil|done].
Qed.

Lemma inv_publish c actor now s : life_inv s → life_inv (pub c actor now s).1 ∧ grows s (pub c actor now s).1.
Proof.
  intros Hi. destruct (publish_cases c actor now s Hi) as [->|(Hc & Hrv & Hp & (run & Hrun & Hok & Hh) & e & -> & Hv & Hk)]; [by split; [|apply grows_refl]|].
  set (rel := release_id (body c)) in *. split.
  - split; simpl.
    + apply (li_run s Hi).
    + intros rel' c'. rewrite lookup_insert_Some. intros [[<- <-]|[_ Hc']]; [|by apply (li_cert s Hi)]. split_and!; [done..|]. by exists run.
    + intros rel' r Hr. destruct (li_revoked s Hi rel' r Hr) as (H1 & c' & H2 & H3). split; [done|]. exists c'. rewrite lookup_insert_ne by congruence. done.
    + apply (events_insert (λ _ l, chained l = true)); [done|]. intros rel' _. apply (li_chain s Hi).
    + apply (events_insert (λ rel' l, kinds l = expected_kinds _ rel')); unfold expected_kinds; simpl.
      * pose proof (li_kinds s Hi rel) as Hk0. unfold expected_kinds in Hk0. rewrite Hrun, Hc, Hrv in Hk0. simpl in Hk0.
        rewrite Hrun, lookup_insert_eq, Hrv. unfold kinds in *. rewrite map_app, Hk0. simpl. by rewrite app_nil_r, Hk.
      * intros rel' Hne. rewrite lookup_insert_ne by done. apply (li_kinds s Hi).
    + apply (li_registry s Hi).
  - split; simpl; [done|by apply insert_subseteq|done|].
    apply (events_insert (λ rel' l, default [] (events_of s !! rel') `prefix_of` l)); [by apply prefix_app_r|done].
Qed.

Lemma inv_revoke rel actor why now s : life_inv s → life_inv (revk rel actor why now s).1 ∧ grows s (revk rel actor why now s).1.
Proof.
  intros Hi. destruct (revoke_cases rel actor why now s Hi) as [->|(c & r & Hc & Hrv & Hr & Hrh & e & -> & Hv & Hk)]; [by split; [|apply grows_refl]|].
  destruct (li_cert s Hi rel c Hc) as (_ & _ & run & Hrun & _). split.
  - split; simpl.
    + apply (li_run s Hi).
    + apply (li_cert s Hi).
    + intros rel' r'. rewrite lookup_insert_Some. intros [[<- <-]|[_ Hr']]; [|by apply (li_revoked s Hi)]. split; [done|]. by exists c.
    + apply (events_insert (λ _ l, chained l = true)); [done|]. intros rel' _. apply (li_chain s Hi).
    + apply (events_insert (λ rel' l, kinds l = expected_kinds _ rel')); unfold expected_kinds; simpl.
      * pose proof (li_kinds s Hi rel) as Hk0. unfold expected_kinds in Hk0. rewrite Hrun, Hc, Hrv in Hk0. simpl in Hk0.
        rewrite Hrun, Hc, lookup_insert_eq. unfold kinds in *. rewrite map_app, Hk0. simpl. rewrite <- app_assoc. simpl. by rewrite Hk.
      * intros rel' Hne. rewrite lookup_insert_ne by done. apply (li_kinds s Hi).
    + done.
  - split; simpl; [done|done|by apply insert_subseteq|].
    apply (events_insert (λ rel' l, default [] (events_of s !! rel') `prefix_of` l)); [by apply prefix_app_r|done].
Qed.

Lemma life_step_ok op s : life_inv s → life_inv (life_step op s) ∧ grows s (life_step op s).
Proof. destruct op; [apply inv_save|apply inv_publish|apply inv_revoke]. Qed.

Lemma life_run_ok h : ∀ s, life_inv s → life_inv (foldl (λ s op, life_step op s) s h) ∧ grows s (foldl (λ s op, life_step op s) s h).
Proof.
  induction h as [|op h IH]; intros s Hi; simpl; [by split; [|apply grows_refl]|].
  destruct (life_step_ok op s Hi) as [Hi' Hg]. destruct (IH _ Hi') as [H1 H2]. split; [done|]. by eapply grows_trans.
Qed.

Lemma empty_repo_inv : life_inv empty_repo.
Proof. split; simpl; intros; try done; by rewrite lookup_empty in *. Qed.
End history.


(** The whole life of a release: a run, its publication, its revocation; a second publication is refused. *)
Definition toy_digest (b : cert_body) : string := release_id b +:+ status b.
Definition toy_artifacts (_ : list (string * string)) : string := "a".
Definition toy_decode (_ : string) : result token_claims := Ok (MkClaims "r-1.0" 9 99 "r-1.0CERTIFIED" "CERTIFIED" "0123abc" "r-1.0" "r-1.0CERTIFIED" "a").
Definition toy_event (b : event_body) : string := event_type b +:+ "/" +:+ previous_hash b.

Example lifecycle_sample :
  match sample_certificate toy_digest None, sample_certificate toy_digest (Some "token") with
  | Ok c, Ok signed =>
      let s := life_run toy_digest toy_artifacts toy_decode toy_event
        [SaveRun c "ops"; Publish c "ops" 6; Publish signed "ops" 7; Revoke "r-1.0" "ops" " leaked key " 8; Publish signed "ops" 9] in
      kinds (default [] (events_of s !! "r-1.0")) = ["CertificationStarted"; "ReleaseCertified"; "CertificationRevoked"] ∧
      map rv_reason (registry s) = ["leaked key"] ∧
      (view_status toy_digest "r-1.0" s).2 = Ok (true, "REVOKED") ∧
      (publish toy_digest toy_artifacts toy_decode toy_event signed "ops" 9 s).2 = Err (ValueError "a revoked release cannot be republished") ∧
      (save_run toy_digest toy_event c "ops" s).2 = Err (FileExistsError "a published release cannot be recertified in place")
  | _, _ => False
  end.
Proof. vm_compute. done. Qed.
