(* ===== verification/Attestation.v ===== *)
(** * Signed attestations of a release

    [packages/certification/attestations.py]: verification of the signed penetration test and of the owners' votes,
    and the trust policy that names their keys.  Files are a map from a path to its
    content; the JWT library and SHA-256 are parameters, and so is the text of an exception. *)
From S2P Require Import Prelude PyDecimal PyFloat PyValue PyText Certification Settings Domain Access.
Local Open Scope Z_scope.

Abbreviation files := (gmap string string).
Definition os_error : exn := OtherError "OSError".
Definition jwt_error : exn := OtherError "PyJWTError".

Definition HUMAN_ROLES : gset string := {["product_owner"; "security_owner"; "operations_owner"]}.

Record AttestationResult := MkAttestation {
  at_kind : string; at_status : string; at_issuer : option string; at_subject : option string; at_expires : option datetime;
  at_claims : document; at_reason : option string
}.
Definition not_run (kind reason : string) : AttestationResult := MkAttestation kind "NOT_RUN" None None None [] (Some reason).
Definition failed (kind reason : string) : AttestationResult := MkAttestation kind "FAIL" None None None [] (Some reason).

(** What an attestation has to be about *)
Record expectation := MkExpectation {
  ex_release : string; ex_revision : string; ex_issuer : string; ex_subjects : gset string; ex_requester : option string;
  ex_request : option string; ex_artifact : option string
}.

Section attestation.
Context (str_container : pyval → string) (sha : string → string) (exn_text : exn → string).
(** [jwt.decode(token, key, ...)] for the audience of the release gate and an issuer *)
Context (jwt_decode : string → string → string → result document).
#[local] Abbreviation text := (py_str str_container).

Definition read_file (fs : files) (path : string) : result string := of_option os_error (fs !! path).
Definition is_file (fs : files) (path : string) : bool := bool_decide (is_Some (fs !! path)).

Definition is_dict (v : pyval) : option document := match v with VDict d => Some d | _ => None end.

(** [int(findings.get(k, -1)) != 0] *)
Definition open_finding (k : string) (d : document) : result bool :=
  n ← py_int (default (VInt (-1)) (od_get k d)); Ok (negb (n =? 0)).

Definition check_penetration (claims : document) : result unit :=
  match get "open_findings" claims with
  | VDict d =>
      critical ← open_finding "critical" d;
      high ← (if (critical : bool) then Ok true else open_finding "high" d);
      raise_if high (ValueError "penetration test has unresolved critical/high findings")
  | _ => Err (ValueError "penetration test finding summary is missing")
  end.

Definition check_acceptance (requester : option string) (claims : document) : result unit :=
  match get "decisions" claims with
  | VList l =>
      let items := omap is_dict l in
      let accepted : gset string := list_to_set (map (λ d, text (get "role" d)) (base.filter (λ d, py_eq (get "decision" d) (VStr "ACCEPT") = true) items)) in
      let actors := map (λ d, text (get "actor" d)) items in
      raise_if (negb (bool_decide (HUMAN_ROLES ⊆ accepted))) (ValueError "human acceptance is missing a required owner role");;
      raise_if (has_duplicates actors || match requester with Some q => mem q actors | None => false end)
        (PermissionError "human acceptance violates separation of duties")
  | _ => Err (ValueError "human acceptance decisions are missing")
  end.

Definition check_vote (requester : option string) (subject : string) (claims : document) : result unit :=
  let role := text (get "role" claims) in
  let actor := text (get "actor" claims) in
  raise_if (negb (bool_decide (role ∈ HUMAN_ROLES)) || negb (py_eq (get "decision" claims) (VStr "ACCEPT")) || bool_decide (actor = ""))
    (ValueError "human acceptance vote is invalid");;
  raise_if (negb (bool_decide (actor = subject))) (PermissionError "human acceptance vote actor must match signing subject");;
  raise_if (given requester && bool_decide (Some actor = requester)) (PermissionError "release requester cannot accept their own release").

(** The checks that do not depend on the kind *)
Definition check_binding (kind subject : string) (x : expectation) (claims : document) : result unit :=
  raise_if (negb (py_eq (get "kind" claims) (VStr kind))) (ValueError "attestation kind mismatch");;
  raise_if (negb (py_eq (get "release_id" claims) (VStr (ex_release x)))) (ValueError "attestation release mismatch");;
  raise_if (negb (py_eq (get "source_revision" claims) (VStr (ex_revision x)))) (ValueError "attestation source revision mismatch");;
  let request := text (get "request_sha256" claims) in
  let artifact := text (get "artifact_sha256" claims) in
  raise_if (negb (is_sha256 request) || negb (is_sha256 artifact)) (ValueError "attestation evidence digests are invalid");;
  raise_if (given (ex_request x) && negb (bool_decide (Some request = ex_request x))) (ValueError "attestation evidence request digest mismatch");;
  raise_if (given (ex_artifact x) && negb (bool_decide (Some artifact = ex_artifact x))) (ValueError "attestation artifact digest mismatch");;
  raise_if (negb (bool_decide (subject ∈ ex_subjects x))) (PermissionError "attestation signer is not approved");;
  raise_if (given (ex_requester x) && bool_decide (Some subject = ex_requester x))
    (PermissionError "release requester cannot independently attest the release");;
  raise_if (negb (py_eq (get "status" claims) (VStr "PASS"))) (ValueError "attestation does not record PASS").

Definition check_kind (kind subject : string) (x : expectation) (claims : document) : result unit :=
  if bool_decide (kind = "penetration_test") then check_penetration claims
  else if bool_decide (kind = "human_acceptance") then check_acceptance (ex_requester x) claims
  else if bool_decide (kind = "human_acceptance_vote") then check_vote (ex_requester x) subject claims
  else Ok tt.

Definition secret_claims : list string := ["token"; "credential"; "secret"].
Definition safe_claims (claims : document) (token_sha : string) : document :=
  od_set "token_sha256" (VStr token_sha) (base.filter (λ kv : string * pyval, mem kv.1 secret_claims = false) claims).

(** The body of the [try] *)
Definition attested (fs : files) (kind token_path key_path : string) (x : expectation) : result AttestationResult :=
  raw ← read_file fs token_path;
  key ← read_file fs key_path;
  claims ← jwt_decode (py_strip raw) key (ex_issuer x);
  sub ← item "sub" claims;
  let subject := text sub in
  check_binding kind subject x claims;;
  check_kind kind subject x claims;;
  exp ← item "exp" claims;
  f ← float_of_val exp;
  expires ← fromtimestamp f;
  Ok (MkAttestation kind "PASS" (Some (ex_issuer x)) (Some subject) (Some expires) (safe_claims claims (sha raw)) None).

(** [except (OSError, ValueError, PermissionError, jwt.PyJWTError)] *)
Definition attestation_error (e : exn) : bool :=
  match e with
  | ValueError _ | PermissionError _ | AuthenticationError _ => true
  | OtherError _ => bool_decide (e = os_error) || bool_decide (e = jwt_error)
  | _ => false
  end.

Definition verify_attestation (fs : files) (kind token_path key_path : string) (x : expectation) : result AttestationResult :=
  if negb (is_file fs token_path) || negb (is_file fs key_path) then Ok (not_run kind "signed attestation or public key is missing")
  else match attested fs kind token_path key_path x with
       | Ok a => Ok a
       | Err e => if attestation_error e then Ok (failed kind (exn_text e)) else Err e
       end.

Definition artifact_digest (fs : files) (raw : document) : result string :=
  p ← item "artifact_file" raw;
  content ← read_file fs (text p);
  let digest := sha content in
  raise_if (match get "artifact_sha256" raw with VNone => false | v => negb (py_eq v (VStr digest)) end)
    (ValueError "configured artifact digest does not match the artifact file");;
  Ok digest.

(** [frozenset(str(item) for item in entry.get("approved_subjects", []))] *)
Definition approved_subjects (entry : document) : result (gset string) :=
  l ← py_iter (default (VList []) (od_get "approved_subjects" entry)); Ok (list_to_set (map text l)).

(** A configured attestation: the artifact it is about, its token and its key *)
Definition check_entry (fs : files) (kind release revision request : string) (requester : option string) (entry : document) : result AttestationResult :=
  artifact ← artifact_digest fs entry;
  token ← item "token_file" entry;
  key ← item "public_key_file" entry;
  issuer ← item "trusted_issuer" entry;
  subjects ← approved_subjects entry;
  verify_attestation fs kind (text token) (text key)
    (MkExpectation release revision (text issuer) subjects requester (Some request) (Some artifact)).

(** [except (KeyError, OSError, ValueError)]; a PermissionError is an OSError *)
Definition entry_error (e : exn) : bool :=
  match e with
  | ValueError _ | PermissionError _ | AuthenticationError _ | KeyError _ => true
  | OtherError _ => bool_decide (e = os_error)
  | _ => false
  end.

Definition entry_result (fs : files) (kind release revision request : string) (requester : option string) (entry : document) : result AttestationResult :=
  match check_entry fs kind release revision request requester entry with
  | Ok a => Ok a
  | Err e => if entry_error e then Ok (failed kind (exn_text e)) else Err e
  end.

(** ** The votes of the owners *)

Definition role_mismatch (configured : string) (vote : AttestationResult) : bool :=
  bool_decide (at_status vote = "PASS") && negb (bool_decide (configured = "")) && negb (py_eq (get "role" (at_claims vote)) (VStr configured)).

(** One entry of the signatures: the vote and the role it is counted for *)
Definition count_vote (fs : files) (release revision request : string) (requester : option string) (entry : document) : result (AttestationResult * string) :=
  vote ← entry_result fs "human_acceptance_vote" release revision request requester entry;
  let configured := text (default (VStr "") (od_get "role" entry)) in
  let vote :=
    if role_mismatch configured vote
    then MkAttestation "human_acceptance_vote" "FAIL" (at_issuer vote) (at_subject vote) (at_expires vote) (at_claims vote)
           (Some "configured owner role does not match the signed role")
    else vote in
  Ok (vote, text (default (VStr configured) (od_get "role" (at_claims vote)))).

Fixpoint count_votes (fs : files) (release revision request : string) (requester : option string) (signatures : list pyval)
    : result (option (list (AttestationResult * string))) :=
  match signatures with
  | [] => Ok (Some [])
  | VDict entry :: rest =>
      v ← count_vote fs release revision request requester entry;
      vs ← count_votes fs release revision request requester rest;
      Ok (match vs with Some l => Some (v :: l) | None => None end)
  | _ :: _ => Ok None
  end.

Definition decision_of (vote : AttestationResult) : result pyval :=
  role ← item "role" (at_claims vote); decision ← item "decision" (at_claims vote);
  artifact ← item "artifact_sha256" (at_claims vote); token ← item "token_sha256" (at_claims vote);
  Ok (VDict [("role", role); ("actor", match at_subject vote with Some s => VStr s | None => VNone end);
             ("decision", decision); ("artifact_sha256", artifact); ("token_sha256", token)]).

(** [vote.subject] and [vote.reason] count when they are not empty *)
Definition subjects_of (votes : list AttestationResult) : list string := omap (λ v, if given (at_subject v) then at_subject v else None) votes.
Definition reason_of (v : AttestationResult) : string := if given (at_reason v) then default "" (at_reason v) else "owner vote did not pass".
Definition passes (v : AttestationResult) : bool := bool_decide (at_status v = "PASS").
Definition earliest (l : list datetime) : option datetime :=
  match l with [] => None | t :: ts => Some (py_min_from (cmp_on us Z.compare) t ts) end.

Definition human_acceptance_result (fs : files) (release revision request : string) (requester : option string) (raw : document) : result AttestationResult :=
  match get "signatures" raw with
  | VList (s :: ss) =>
      counted ← count_votes fs release revision request requester (s :: ss);
      match counted with
      | None => Ok (failed "human_acceptance" "human acceptance entry is invalid")
      | Some vs =>
          let votes := map fst vs in
          let roles := map snd vs in
          let failures := base.filter (λ v, passes v = false) votes in
          match failures with
          | _ :: _ => Ok (failed "human_acceptance" (String.concat "; " (map reason_of failures)))
          | [] =>
              if negb (length votes =? size HUMAN_ROLES)%nat || has_duplicates roles || negb (bool_decide (list_to_set roles = HUMAN_ROLES))
              then Ok (failed "human_acceptance" "exactly one vote from each owner role is required")
              else if has_duplicates (subjects_of votes) then Ok (failed "human_acceptance" "owner votes must have distinct signing subjects")
              else
                decisions ← mapM_result decision_of votes;
                let issuers : gset string := list_to_set (map (λ v, opt_text (at_issuer v)) votes) in
                Ok (MkAttestation "human_acceptance" "PASS" (Some (String.concat "," (py_sorted String.compare (elements issuers))))
                      (Some (String.concat "," (py_sorted String.compare (subjects_of votes)))) (earliest (omap at_expires votes))
                      [("request_sha256", VStr request); ("decisions", VList decisions)] None)
          end
      end
  | _ => Ok (not_run "human_acceptance" "three independently signed owner votes are missing")
  end.

(** ** The trust policy *)

Definition policy_fields : list string := ["trusted_issuer"; "public_key_file"; "approved_subjects"].

(** [if not policy.get(field): raise ...; entry[field] = policy[field]] for the three fields *)
Definition apply_fields (prefix : string) (policy entry : document) : result document :=
  foldM_result (λ e field,
    raise_if (negb (py_bool (get field policy))) (ValueError (prefix +:+ field +:+ " is missing"));;
    Ok (od_set field (get field policy) e)) policy_fields entry.

Definition apply_owner (owners : document) (v : pyval) : result pyval :=
  match v with
  | VDict entry =>
      let role := text (default (VStr "") (od_get "role" entry)) in
      match get role owners with
      | VDict policy => e ← apply_fields ("human-acceptance trust policy " +:+ role +:+ ".") policy entry; Ok (VDict e)
      | _ => Err (ValueError ("trust policy for " +:+ (if bool_decide (role = "") then "unknown role" else role) +:+ " is missing"))
      end
  | _ => Err (ValueError "human-acceptance signature entry is invalid")
  end.

Definition apply_trust_policy (cfg policy : document) : result document :=
  cfg ← match get "penetration_test" cfg with
        | VDict pen =>
            match get "penetration_test" policy with
            | VDict pp => e ← apply_fields "penetration-test trust policy " pp pen; Ok (od_set "penetration_test" (VDict e) cfg)
            | _ => Err (ValueError "penetration-test trust policy is missing")
            end
        | _ => Ok cfg
        end;
  match get "human_acceptance" cfg with
  | VDict human =>
      match get "signatures" human, get "human_acceptance" policy with
      | VList signatures, VDict owners =>
          raise_if (negb (bool_decide (list_to_set owners.*1 = HUMAN_ROLES)))
            (ValueError "trust policy must define exactly the three required owner roles");;
          l ← mapM_result (apply_owner owners) signatures;
          Ok (od_set "human_acceptance" (VDict (od_set "signatures" (VList l) human)) cfg)
      | _, _ => Err (ValueError "human-acceptance trust policy or signatures are missing")
      end
  | _ => Ok cfg
  end.

(** ** The bundle *)

Record BundleResult := MkBundle {
  bu_status : string; bu_release : string; bu_revision : string; bu_request : option string; bu_results : list AttestationResult
}.

Definition overall (results : list AttestationResult) : string :=
  if existsb (λ r, bool_decide (at_status r = "FAIL")) results then "FAIL"
  else if forallb passes results && match results with [] => false | _ => true end then "PASS" else "NOT_RUN".

Definition bundle_results (fs : files) (release revision request : string) (requester : option string) (cfg : document) : result (list AttestationResult) :=
  pen ← match get "penetration_test" cfg with
        | VDict raw => entry_result fs "penetration_test" release revision request requester raw
        | _ => Ok (not_run "penetration_test" "attestation configuration missing")
        end;
  human ← match get "human_acceptance" cfg with
          | VDict raw => human_acceptance_result fs release revision request requester raw
          | _ => Ok (not_run "human_acceptance" "attestation configuration missing")
          end;
  Ok [pen; human].

Definition verify_attestation_bundle (fs : files) (configuration : document) (expected_request : option string) (policy : option document) : result BundleResult :=
  cfg ← match policy with Some p => apply_trust_policy configuration p | None => Ok configuration end;
  rel ← item "release_id" cfg;
  rev ← item "source_revision" cfg;
  let release := text rel in
  let revision := text rev in
  let q := text (default (VStr "") (od_get "release_requester" cfg)) in
  let requester := if bool_decide (q = "") then None else Some q in
  let request := text (default (VStr "") (od_get "request_sha256" cfg)) in
  let request := if given expected_request && negb (bool_decide (Some request = expected_request)) then "" else request in
  results ← (if is_sha256 request then bundle_results fs release revision request requester cfg
             else
               let st := if py_bool (get "penetration_test" cfg) || py_bool (get "human_acceptance" cfg) then "FAIL" else "NOT_RUN" in
               Ok (map (λ kind, MkAttestation kind st None None None []
                     (Some "bundle request digest is missing or does not match the verified evidence request"))
                   ["penetration_test"; "human_acceptance"]));
  Ok (MkBundle (overall results) release revision (if bool_decide (request = "") then None else Some request) results).
End attestation.

(** ** What a verified attestation is *)

Section verified.
Context (str_container : pyval → string) (sha : string → string) (exn_text : exn → string).
Context (jwt_decode : string → string → string → result document).
(** Where the artifacts are that the entries of a bundle name *)
Context (A : string → Prop).
#[local] Abbreviation text := (py_str str_container).

(** The checked content of an attestation of a kind, under the trust of [policy] (a section of the trust policy or an
    entry that has its fields) *)
Record signed (fs : files) (policy : document) (kind release revision request : string) (requester : option string)
    (claims : document) (subject : string) : Prop := {
  sg_token : ∃ path raw key, fs !! path = Some raw ∧ fs !! text (get "public_key_file" policy) = Some key ∧
    jwt_decode (py_strip raw) key (text (get "trusted_issuer" policy)) = Ok claims;
  sg_subject : ∃ v l, od_get "sub" claims = Some v ∧ text v = subject ∧ py_iter (get "approved_subjects" policy) = Ok l ∧ subject ∈ map text l;
  sg_independent : requester ≠ Some subject;
  sg_bound : get "kind" claims = VStr kind ∧ get "release_id" claims = VStr release ∧ get "source_revision" claims = VStr revision ∧
    text (get "request_sha256" claims) = request ∧ get "status" claims = VStr "PASS";
  sg_artifact : ∃ path content, A path ∧ fs !! path = Some content ∧ text (get "artifact_sha256" claims) = sha content
}.

Definition entry_in (entry : document) : Prop := ∀ p, od_get "artifact_file" entry = Some p → A (text p).
Definition signatures_in (human : document) : Prop := ∀ l e, get "signatures" human = VList l → VDict e ∈ l → entry_in e.
Definition bundle_in (cfg : document) : Prop :=
  (∀ pen, get "penetration_test" cfg = VDict pen → entry_in pen) ∧ (∀ human, get "human_acceptance" cfg = VDict human → signatures_in human).

Lemma check_binding_spec kind subject x claims : check_binding str_container kind subject x claims = Ok tt →
  get "kind" claims = VStr kind ∧ get "release_id" claims = VStr (ex_release x) ∧ get "source_revision" claims = VStr (ex_revision x) ∧
  get "status" claims = VStr "PASS" ∧ subject ∈ ex_subjects x ∧ (given (ex_requester x) = true → ex_requester x ≠ Some subject) ∧
  (given (ex_request x) = true → ex_request x = Some (text (get "request_sha256" claims))) ∧
  (given (ex_artifact x) = true → ex_artifact x = Some (text (get "artifact_sha256" claims))).
Proof using Type.
  unfold check_binding. rewrite !guard_passed, guard_last. intros (H1 & H2 & H3 & _ & H5 & H6 & H7 & H8 & H9).
  apply negb_false_iff, py_eq_str in H1, H2, H3, H9. apply negb_false_iff, bool_decide_eq_true in H7. split_and!; try done.
  - intros Hg. rewrite Hg in H8. cbn in H8. bprop. congruence.
  - intros Hg. rewrite Hg in H5. cbn in H5. bprop. done.
  - intros Hg. rewrite Hg in H6. cbn in H6. bprop. done.
Qed.

Lemma safe_claims_get k claims t : mem k secret_claims = false → k ≠ "token_sha256" → get k (safe_claims claims t) = get k claims.
Proof using Type.
  intros Hs Hk. unfold get, safe_claims. rewrite od_get_set_ne by done. f_equal.
  induction claims as [|[k' v] l IH]; [done|]. rewrite filter_cons. case_decide as Hd; cbn in *.
  - by rewrite IH.
  - rewrite IH. case_decide; [subst; congruence|done].
Qed.

(** A vote or a test that passes was signed, and its checks were made. *)
Lemma verify_attestation_pass fs kind tp kp x a : verify_attestation str_container sha exn_text jwt_decode fs kind tp kp x = Ok a → passes a = true →
  ∃ raw key claims v subject, fs !! tp = Some raw ∧ fs !! kp = Some key ∧ jwt_decode (py_strip raw) key (ex_issuer x) = Ok claims ∧
    od_get "sub" claims = Some v ∧ text v = subject ∧ check_binding str_container kind subject x claims = Ok tt ∧
    check_kind str_container kind subject x claims = Ok tt ∧ at_subject a = Some subject ∧ at_claims a = safe_claims claims (sha raw).
Proof using Type.
  unfold verify_attestation. if_case as E; [by intros [= <-]|]. destruct (attested _ _ _ _ _ _ _ _) as [a'|e] eqn:Ea.
  2:{ if_case as E'; [by intros [= <-]|done]. }
  intros [= ->] _. revert Ea. unfold attested, read_file, mbind, result_bind, of_option, item.
  destruct (fs !! tp) as [raw|]; [|done]. destruct (fs !! kp) as [key|]; [|done]. destruct (jwt_decode _ _ _) as [claims|] eqn:Ej; [|done].
  destruct (od_get "sub" claims) as [v|] eqn:Ev; [|done]. cbn. destruct (check_binding _ _ _ _ _) as [[]|] eqn:Eb; [|done].
  destruct (check_kind _ _ _ _ _) as [[]|] eqn:Ek; [|done]. destruct (od_get "exp" claims) as [ex|]; [|done]. cbn.
  destruct (float_of_val ex) as [f|]; [|done]. destruct (fromtimestamp f) as [t|]; [|done]. intros [= <-].
  exists raw, key, claims, v, (text v). split_and!; done.
Qed.

Lemma check_entry_pass fs kind release revision request requester entry a : (∀ s, sha s ≠ "") → request ≠ "" → requester ≠ Some "" → entry_in entry →
  entry_result str_container sha exn_text jwt_decode fs kind release revision request requester entry = Ok a → passes a = true →
  ∃ claims subject t, signed fs entry kind release revision request requester claims subject ∧
    check_kind str_container kind subject (MkExpectation release revision (text (get "trusted_issuer" entry)) t requester (Some request) None) claims = Ok tt ∧
    at_subject a = Some subject ∧ ∀ k, mem k secret_claims = false → k ≠ "token_sha256" → get k (at_claims a) = get k claims.
Proof using Type.
  intros Hsha Hr Hq Hin. unfold entry_result. destruct (check_entry _ _ _ _ _ _ _ _ _ _ _) as [a'|e] eqn:Ec.
  2:{ if_case as E'; [by intros [= <-]|done]. }
  intros [= ->] Hp. revert Ec. unfold check_entry, artifact_digest, approved_subjects, read_file, mbind, result_bind, of_option, item.
  destruct (od_get "artifact_file" entry) as [p|] eqn:Eart; [|done]. cbn. destruct (fs !! text p) as [content|] eqn:Ef; [|done].
  match goal with |- context [raise_if ?b ?e] => destruct (raise_if b e) as [[]|]; [|done] end.
  destruct (od_get "token_file" entry) as [tk|]; [|done]. destruct (od_get "public_key_file" entry) as [kf|] eqn:Ek; [|done].
  destruct (od_get "trusted_issuer" entry) as [is_|] eqn:Ei; [|done]. cbn.
  destruct (py_iter (default (VList []) (od_get "approved_subjects" entry))) as [l|] eqn:El; [|done]. intros Hv.
  destruct (verify_attestation_pass _ _ _ _ _ _ Hv Hp) as (raw & key & claims & v & subject & Hraw & Hkey & Hj & Hsub & Hvs & Hb & Hkind & Hs & Hcl).
  destruct (check_binding_spec _ _ _ _ Hb) as (B1 & B2 & B3 & B4 & B5 & B6 & B7 & B8). cbn in *.
  exists claims, subject, (list_to_set (map text l)). split_and!; [|exact Hkind|done|intros k H1 H2; rewrite Hcl; by apply safe_claims_get].
  split.
  - exists (text tk), raw, key. unfold get. rewrite Ek, Ei. done.
  - destruct (od_get "approved_subjects" entry) as [sv|] eqn:Es; cbn in El.
    + exists v, l. unfold get. rewrite Es. split_and!; try done. by apply elem_of_list_to_set in B5.
    + injection El as <-. by apply elem_of_list_to_set, elem_of_nil in B5.
  - destruct requester as [q|]; [|done]. apply B6. unfold given. by rewrite bool_decide_false by congruence.
  - split_and!; try done. rewrite bool_decide_false in B7 by done. by injection (B7 eq_refl) as <-.
  - exists (text p), content. split; [by apply Hin|]. split; [done|]. unfold given in B8. rewrite bool_decide_false in B8 by done. by injection (B8 eq_refl) as <-.
Qed.

(** ** The trust policy decides *)

(** membership of a literal in a list of literals *)
#[local] Ltac field_of := first [apply mem_true; reflexivity | apply mem_false; reflexivity].

Definition trusts (policy entry : document) : Prop := ∀ f, f ∈ policy_fields → get f entry = get f policy.
Definition complete (policy : document) : Prop := ∀ f, f ∈ policy_fields → py_bool (get f policy) = true.

Lemma apply_fields_spec prefix policy entry e : apply_fields prefix policy entry = Ok e →
  trusts policy e ∧ complete policy ∧ ∀ k, k ∉ policy_fields → od_get k e = od_get k entry.
Proof using Type.
  unfold apply_fields, policy_fields, trusts, complete. cbn [foldM_result]. unfold mbind, result_bind.
  do 3 (match goal with |- context [raise_if ?b ?x] => let E := fresh "E" in destruct (raise_if b x) as [[]|] eqn:E; [apply guard_last, negb_false_iff in E|done] end;
        cbn [foldM_result]).
  intros [= <-]. split_and!.
  - intros f Hf. repeat (apply elem_of_cons in Hf as [->|Hf]); [..|by apply elem_of_nil in Hf];
      unfold get; rewrite ?od_get_set_eq, ?od_get_set_ne, ?od_get_set_eq, ?od_get_set_ne, ?od_get_set_eq by done; done.
  - intros f Hf. repeat (apply elem_of_cons in Hf as [->|Hf]; [done|]). by apply elem_of_nil in Hf.
  - intros k Hk. rewrite !od_get_set_ne; [done|intros <-; by apply Hk, mem_true..].
Qed.

Lemma signed_trust fs policy entry kind release revision request requester claims subject : trusts policy entry →
  signed fs entry kind release revision request requester claims subject → signed fs policy kind release revision request requester claims subject.
Proof using Type.
  intros Ht [H1 H2 H3 H4 H5]. rewrite !Ht in H1 by field_of. rewrite Ht in H2 by field_of. by split.
Qed.

(** An entry of the signatures under the policy of its role *)
Definition role_of (entry : document) : string := text (default (VStr "") (od_get "role" entry)).
Definition owner_trusted (owners : document) (v : pyval) : Prop :=
  ∃ entry policy, v = VDict entry ∧ get (role_of entry) owners = VDict policy ∧ trusts policy entry ∧ complete policy ∧ entry_in entry.

Lemma apply_owner_spec owners v v' : (∀ e, v = VDict e → entry_in e) → apply_owner str_container owners v = Ok v' → owner_trusted owners v'.
Proof using Type.
  intros Hin. unfold apply_owner. destruct v as [| | | | | | |entry]; try done. fold (role_of entry).
  destruct (get (role_of entry) owners) as [| | | | | | |policy] eqn:Eo; try done. unfold mbind, result_bind.
  destruct (apply_fields _ _ _) as [e|] eqn:Ee; [|done]. intros [= <-]. apply apply_fields_spec in Ee as (Ht & Hc & Hk).
  exists e, policy. split_and!; try done.
  - unfold role_of in *. rewrite Hk; [done|]. field_of.
  - intros p. rewrite Hk by field_of. by apply Hin.
Qed.

Lemma apply_trust_policy_spec cfg policy cfg' : bundle_in cfg → apply_trust_policy str_container cfg policy = Ok cfg' →
  (∀ pen, get "penetration_test" cfg' = VDict pen →
     ∃ pp, get "penetration_test" policy = VDict pp ∧ trusts pp pen ∧ complete pp ∧ entry_in pen) ∧
  (∀ human l, get "human_acceptance" cfg' = VDict human → get "signatures" human = VList l →
     ∃ owners, get "human_acceptance" policy = VDict owners ∧ list_to_set owners.*1 = HUMAN_ROLES ∧ Forall (owner_trusted owners) l) ∧
  (∀ k, k ≠ "penetration_test" → k ≠ "human_acceptance" → od_get k cfg' = od_get k cfg).
Proof using Type.
  intros [Hin1 Hin2]. unfold apply_trust_policy, mbind, result_bind. intros H.
  assert (∃ cfg1, match get "penetration_test" cfg with
        | VDict pen =>
            match get "penetration_test" policy with
            | VDict pp => match apply_fields "penetration-test trust policy " pp pen with Ok e => Ok (od_set "penetration_test" (VDict e) cfg) | Err x => Err x end
            | _ => Err (ValueError "penetration-test trust policy is missing")
            end
        | _ => Ok cfg
        end = Ok cfg1 ∧ (∀ k, k ≠ "penetration_test" → od_get k cfg1 = od_get k cfg) ∧
        (∀ pen, get "penetration_test" cfg1 = VDict pen →
           ∃ pp, get "penetration_test" policy = VDict pp ∧ trusts pp pen ∧ complete pp ∧ entry_in pen)) as (cfg1 & E1 & Hh1 & Hpen).
  { destruct (get "penetration_test" cfg) as [| | | | | | |pen] eqn:Ep; try (exists cfg; split_and!; [done|done|]; intros ? Hc; congruence).
    destruct (get "penetration_test" policy) as [| | | | | | |pp] eqn:Epp; try (cbn in H; done).
    destruct (apply_fields _ pp pen) as [e|] eqn:Ee; [|cbn in H; done]. eexists. split_and!; [done|intros k Hk; by rewrite od_get_set_ne by congruence|].
    intros pen' Hp. unfold get in Hp. rewrite od_get_set_eq in Hp. injection Hp as <-. exists pp. apply apply_fields_spec in Ee as (? & ? & Hk). split_and!; try done.
    intros p. rewrite Hk by field_of. by apply Hin1. }
  rewrite E1 in H. clear E1.
  destruct (get "human_acceptance" cfg1) as [| | | | | | |human] eqn:Eh; try (injection H as <-; split_and!; [done|intros ? ? Hc; congruence|by auto]).
  destruct (get "signatures" human) as [| | | | | |sigs|] eqn:Es; try done. destruct (get "human_acceptance" policy) as [| | | | | | |owners] eqn:Eo; try done.
  match goal with H : context [raise_if ?b ?e] |- _ => destruct (raise_if b e) as [[]|] eqn:Er; [|done] end.
  apply guard_last, negb_false_iff, bool_decide_eq_true in Er. destruct (mapM_result _ sigs) as [l|] eqn:El; [|done]. injection H as <-. split_and!; [| |intros k H1 H2; rewrite od_get_set_ne by congruence; by apply Hh1].
  - intros pen Hp. apply Hpen. unfold get in *. by rewrite od_get_set_ne in Hp.
  - intros human' l' Hh Hl. unfold get in Hh. rewrite od_get_set_eq in Hh. injection Hh as <-. unfold get in Hl. rewrite od_get_set_eq in Hl.
    injection Hl as <-. exists owners. split_and!; try done. apply mapM_result_Forall2 in El.
    apply Forall_forall. intros v Hv. destruct (list_elem_of_lookup_1 _ _ Hv) as [i Hi]. destruct (Forall2_lookup_r _ _ _ _ _ El Hi) as (v0 & Hv0' & Hv0).
    eapply apply_owner_spec; [|done]. intros e ->. eapply Hin2; [by unfold get; rewrite <-(Hh1 "human_acceptance")|done|]. by apply list_elem_of_lookup_2 in Hv0'.
Qed.

(** ** The votes *)

(** A counted vote: signed under the policy of the role, for that role, by a subject that is not empty *)
Definition vote_ok (fs : files) (owners : document) (release revision request : string) (requester : option string)
    (role subject : string) (claims : document) : Prop :=
  ∃ policy, get role owners = VDict policy ∧ complete policy ∧
    signed fs policy "human_acceptance_vote" release revision request requester claims subject ∧
    get "role" claims = VStr role ∧ get "decision" claims = VStr "ACCEPT" ∧ text (get "actor" claims) = subject ∧ subject ≠ "".

Lemma check_vote_spec q subject claims : check_vote str_container q subject claims = Ok tt →
  get "decision" claims = VStr "ACCEPT" ∧ text (get "actor" claims) = subject ∧ subject ≠ "".
Proof using Type.
  unfold check_vote. rewrite !guard_passed, guard_last. intros (H1 & H2 & _). bprop. subst. split_and!; [by apply py_eq_str|done|done].
Qed.

Lemma count_vote_pass fs owners release revision request requester entry policy v role : (∀ s, sha s ≠ "") → request ≠ "" → requester ≠ Some "" →
  list_to_set owners.*1 = HUMAN_ROLES → get (role_of entry) owners = VDict policy → trusts policy entry → complete policy → entry_in entry →
  count_vote str_container sha exn_text jwt_decode fs release revision request requester entry = Ok (v, role) → passes v = true →
  ∃ subject claims, at_subject v = Some subject ∧ role = role_of entry ∧ vote_ok fs owners release revision request requester role subject claims.
Proof using Type.
  intros Hsha Hr Hq Ho Hpol Ht Hcp Hart. unfold count_vote, mbind, result_bind. destruct (entry_result _ _ _ _ _ _ _ _ _ _ _) as [a|] eqn:Ea; [|done].
  fold (role_of entry). destruct (role_mismatch (role_of entry) a) eqn:Em; intros [= <- <-]; [done|]. intros Hp.
  destruct (check_entry_pass _ _ _ _ _ _ _ _ Hsha Hr Hq Hart Ea Hp) as (claims & subject & t & Hs & Hk & Hsub & Hget).
  assert (role_of entry ≠ "") as Hne.
  { intros He. rewrite He in Hpol. unfold get in Hpol. destruct (od_get "" owners) as [x|] eqn:Eg; [|done].
    apply od_get_elem_of in Eg. assert ("" ∈ HUMAN_ROLES) as Hin by (rewrite <-Ho; apply elem_of_list_to_set, list_elem_of_fmap; by exists ("", x)).
    unfold HUMAN_ROLES in Hin. set_solver. }
  unfold role_mismatch in Em. unfold passes in Hp. rewrite Hp, bool_decide_false in Em by done. cbn in Em. apply negb_false_iff, py_eq_str in Em.
  assert (get "role" claims = VStr (role_of entry)) as Hrole by (rewrite <-Hget; [done|reflexivity|done]).
  apply check_vote_spec in Hk as (Hd & Hact & Hsne).
  exists subject, claims. split_and!; [done| |].
  - unfold get in Em. destruct (od_get "role" (at_claims a)) as [x|]; [|done]. cbn in Em. by subst.
  - assert (text (default (VStr (role_of entry)) (od_get "role" (at_claims a))) = role_of entry) as ->.
    { unfold get in Em. destruct (od_get "role" (at_claims a)) as [x|]; [|done]. cbn in Em. by subst. }
    exists policy. split_and!; try done. by eapply signed_trust.
Qed.

(** The three votes that a passing acceptance stands on: role, subject and claims of each *)
Record accepted (fs : files) (owners : document) (release revision request : string) (requester : option string)
    (votes : list (string * (string * document))) : Prop := {
  ac_roles : NoDup (map fst votes) ∧ list_to_set (map fst votes) = HUMAN_ROLES;
  ac_people : NoDup (map (λ v, v.2.1) votes);
  ac_signed : Forall (λ v, vote_ok fs owners release revision request requester v.1 v.2.1 v.2.2) votes
}.

Lemma count_votes_pass fs owners release revision request requester l vs : (∀ s, sha s ≠ "") → request ≠ "" → requester ≠ Some "" →
  list_to_set owners.*1 = HUMAN_ROLES → Forall (owner_trusted owners) l →
  count_votes str_container sha exn_text jwt_decode fs release revision request requester l = Ok (Some vs) →
  Forall (λ v, passes v = true) (map fst vs) →
  ∃ votes, map fst votes = map snd vs ∧ map (λ v, v.2.1) votes = subjects_of (map fst vs) ∧
    Forall (λ v, vote_ok fs owners release revision request requester v.1 v.2.1 v.2.2) votes.
Proof using Type.
  intros Hsha Hr Hq Ho Hl. revert vs. induction Hl as [|w l (entry & policy & -> & Hpol & Ht & Hcp & Hin) Hl IH]; intros vs; cbn [count_votes].
  { intros [= <-] _. by exists []. }
  unfold mbind, result_bind. destruct (count_vote _ _ _ _ _ _ _ _ _ _) as [[v role]|] eqn:Ev; [|done].
  destruct (count_votes _ _ _ _ _ _ _ _ _ l) as [[vs'|]|]; [|done|done]. intros [= <-]. cbn [map fst snd]. intros [Hp Hps]%Forall_cons.
  destruct (IH vs' eq_refl Hps) as (votes & H1 & H2 & H3).
  destruct (count_vote_pass _ _ _ _ _ _ _ _ _ _ Hsha Hr Hq Ho Hpol Ht Hcp Hin Ev Hp) as (subject & claims & Hs & -> & Hok).
  exists ((role_of entry, (subject, claims)) :: votes). cbn [map fst snd]. split_and!; [by rewrite H1| |by constructor].
  unfold subjects_of in *. cbn [omap list_omap]. rewrite Hs. unfold given. destruct Hok as (_ & _ & _ & _ & _ & _ & _ & Hne).
  rewrite bool_decide_false by done. cbn. by rewrite H2.
Qed.

Lemma human_acceptance_pass fs owners release revision request requester raw a : (∀ s, sha s ≠ "") → request ≠ "" → requester ≠ Some "" →
  list_to_set owners.*1 = HUMAN_ROLES → (∀ l, get "signatures" raw = VList l → Forall (owner_trusted owners) l) →
  human_acceptance_result str_container sha exn_text jwt_decode fs release revision request requester raw = Ok a → passes a = true →
  ∃ votes, accepted fs owners release revision request requester votes.
Proof using Type.
  intros Hsha Hr Hq Ho Hl. unfold human_acceptance_result, mbind, result_bind.
  destruct (get "signatures" raw) as [| | | | | |[|s ss]|]; try (intros [= <-]; done).
  destruct (count_votes _ _ _ _ _ _ _ _ _ _) as [[vs|]|] eqn:Ec; [|intros [= <-]; done|done].
  destruct (base.filter (λ v, passes v = false) (map fst vs)) as [|x xs] eqn:Ef; [|intros [= <-]; done].
  if_case as E1; [intros [= <-]; done|]. if_case as E2; [intros [= <-]; done|]. intros _ _.
  apply orb_false_iff in E1 as [[_ E1]%orb_false_iff E3%negb_false_iff%bool_decide_eq_true].
  destruct (count_votes_pass _ _ _ _ _ _ _ _ Hsha Hr Hq Ho (Hl _ eq_refl) Ec) as (votes & H1 & H2 & H3).
  { apply Forall_forall. intros v Hv. apply not_false_iff_true. intros Hn.
    assert (v ∈ base.filter (λ v, passes v = false) (map fst vs)) as Hin by by apply list_elem_of_filter. rewrite Ef in Hin. by apply elem_of_nil in Hin. }
  exists votes. split; [rewrite H1; split; [by apply has_duplicates_false|done]|rewrite H2; by apply has_duplicates_false|done].
Qed.
End verified.

Lemma overall_pass results : overall results = "PASS" → Forall (λ r, passes r = true) results.
Proof.
  unfold overall. if_case as E1; [done|]. destruct (forallb passes results) eqn:E2; [|done]. intros _. by apply forallb_true_iff.
Qed.

Lemma bundle_results_pass str_container sha exn_text jwt_decode fs release revision request requester cfg results :
  bundle_results str_container sha exn_text jwt_decode fs release revision request requester cfg = Ok results → Forall (λ r, passes r = true) results →
  ∃ pen human rp rh, get "penetration_test" cfg = VDict pen ∧ get "human_acceptance" cfg = VDict human ∧
    entry_result str_container sha exn_text jwt_decode fs "penetration_test" release revision request requester pen = Ok rp ∧
    human_acceptance_result str_container sha exn_text jwt_decode fs release revision request requester human = Ok rh ∧
    passes rp = true ∧ passes rh = true.
Proof.
  unfold bundle_results, mbind, result_bind. intros H Hp.
  destruct (match get "penetration_test" cfg with VDict _ => _ | _ => _ end) as [rp|] eqn:E1; [|done].
  destruct (match get "human_acceptance" cfg with VDict _ => _ | _ => _ end) as [rh|] eqn:E2; [|done]. injection H as <-.
  rewrite !Forall_cons in Hp. destruct Hp as (P1 & P2 & _).
  destruct (get "penetration_test" cfg) as [| | | | | | |pen]; try (injection E1 as <-; done).
  destruct (get "human_acceptance" cfg) as [| | | | | | |human]; try (injection E2 as <-; done). by exists pen, human, rp, rh.
Qed.

(** A release bundle passes only on the word of independent, trusted people.  If the verification of a bundle under
    a trust policy, for an expected evidence request, reports PASS, then there is a penetration test without open
    critical or high findings, and one ACCEPT vote for each of the three owner roles, by three different people; each
    of the four is a token that verifies under the key and issuer which the policy names for the test or for that role,
    signed by a subject approved there and other than the requester of the release, bound to the release, its revision,
    the expected request and an artifact by its digest. *)
Theorem attestation_bundle_sound (str_container : pyval → string) (sha : string → string) (exn_text : exn → string)
    (jwt_decode : string → string → string → result document) (Hsha : ∀ s, sha s ≠ "")
    (A : string → Prop) (fs : files) (cfg policy : document) (request : string) (b : BundleResult) (Hr : request ≠ "")
    (HA : bundle_in str_container A cfg)
    (Hb : verify_attestation_bundle str_container sha exn_text jwt_decode fs cfg (Some request) (Some policy) = Ok b) (Hs : bu_status b = "PASS") :
  let q := py_str str_container (default (VStr "") (od_get "release_requester" cfg)) in
  let requester := if bool_decide (q = "") then None else Some q in
  ∃ pp owners claims subject votes,
    get "penetration_test" policy = VDict pp ∧ complete pp ∧ get "human_acceptance" policy = VDict owners ∧ list_to_set owners.*1 = HUMAN_ROLES ∧
    signed str_container sha jwt_decode A fs pp "penetration_test" (bu_release b) (bu_revision b) request requester claims subject ∧
    check_penetration claims = Ok tt ∧
    accepted str_container sha jwt_decode A fs owners (bu_release b) (bu_revision b) request requester votes.
Proof.
  intros q requester. revert Hb. unfold verify_attestation_bundle, mbind, result_bind, item, of_option.
  destruct (apply_trust_policy _ cfg policy) as [cfg'|] eqn:Ep; [|done]. intros Hb.
  apply (apply_trust_policy_spec _ A) in Ep as (Hpen & Hown & Hkeep); [|done]. revert Hb.
  destruct (od_get "release_id" cfg') as [rel|]; [|done]. destruct (od_get "source_revision" cfg') as [rev|]; [|done]. cbv beta iota zeta.
  rewrite (Hkeep "release_requester") by done. fold q. fold requester.
  set (req0 := py_str str_container (default (VStr "") (od_get "request_sha256" cfg'))).
  set (req := if given (Some request) && negb (bool_decide (Some req0 = Some request)) then "" else req0).
  destruct (is_sha256 req) eqn:Eq.
  2:{ intros [= <-]. exfalso. revert Hs. cbn. destruct (py_bool _ || py_bool _); vm_compute; discriminate. }
  assert (req = request) as Hreq.
  { unfold req in *. unfold given in *. rewrite bool_decide_false in * by done. cbn [andb negb] in *.
    case_bool_decide as Hd; cbn [negb] in *; [by injection Hd|]. done. }
  rewrite Hreq. clear Eq Hreq req req0.
  assert (requester ≠ Some "") as Hq by (unfold requester; case_bool_decide; congruence).
  destruct (bundle_results _ _ _ _ _ _ _ _ _ _) as [results|] eqn:Er; [|done]. intros [= <-]. cbn [bu_status bu_release bu_revision] in *.
  apply overall_pass in Hs. destruct (bundle_results_pass _ _ _ _ _ _ _ _ _ _ _ Er Hs) as (pen & human & rp & rh & Ep1 & Eh1 & Hrp & Hrh & Pp & Ph).
  destruct (Hpen pen Ep1) as (pp & Hpp & Htp & Hcp & Hin).
  destruct (check_entry_pass _ _ _ _ A _ _ _ _ _ _ _ _ Hsha Hr Hq Hin Hrp Pp) as (claims & subject & t & Hsg & Hk & _).
  assert (∃ l, get "signatures" human = VList l) as [l Hl].
  { unfold human_acceptance_result in Hrh. destruct (get "signatures" human) as [| | | | | |l|]; try (injection Hrh as <-; done). by exists l. }
  destruct (Hown human l Eh1 Hl) as (owners & Ho1 & Ho2 & Ho3).
  assert (∀ l', get "signatures" human = VList l' → Forall (owner_trusted str_container A owners) l') as Hl2 by (intros l' Hl'; rewrite Hl in Hl'; by injection Hl' as <-).
  eapply human_acceptance_pass in Hrh as (votes & Hv); [|done..].
  exists pp, owners, claims, subject, votes. split_and!; try done. by eapply signed_trust.
Qed.

Definition toy_sha (s : string) : string := "aaaaaaaaaaaaaaaaaaaaaaaaaaaaaaaaaaaaaaaaaaaaaaaaaaaaaaaaaaaaaaaa".
Definition toy_claims (kind subject : string) (extra : document) : document :=
  [("sub", VStr subject); ("kind", VStr kind); ("release_id", VStr "r1"); ("source_revision", VStr "abcdef0"); ("status", VStr "PASS");
   ("request_sha256", VStr (toy_sha "")); ("artifact_sha256", VStr (toy_sha "")); ("exp", VInt 1000)] ++ extra.
Definition toy_vote (role actor : string) : document :=
  toy_claims "human_acceptance_vote" actor [("role", VStr role); ("actor", VStr actor); ("decision", VStr "ACCEPT")].
Definition toy_tokens : gmap string document :=
  {["pen" := toy_claims "penetration_test" "eve" [("open_findings", VDict [("critical", VInt 0); ("high", VInt 0)])];
    "prod" := toy_vote "product_owner" "ann"; "sec" := toy_vote "security_owner" "bob"; "ops" := toy_vote "operations_owner" "cho";
    "ops_ann" := toy_vote "operations_owner" "ann"]}.
Definition toy_jwt (token key issuer : string) : result document :=
  if bool_decide (key = "PEM") && bool_decide (issuer = "ca") then of_option jwt_error (toy_tokens !! token) else Err jwt_error.
Definition toy_fs : files := {["k.pem" := "PEM"; "report" := "text"; "t0" := "pen"; "t1" := "prod"; "t2" := "sec"; "t3" := "ops"; "t4" := "ops_ann"]}.
Definition toy_trust : pyval :=
  VDict [("trusted_issuer", VStr "ca"); ("public_key_file", VStr "k.pem"); ("approved_subjects", VList (map VStr ["ann"; "bob"; "cho"; "eve"]))].
Definition toy_policy : document :=
  [("penetration_test", toy_trust);
   ("human_acceptance", VDict [("product_owner", toy_trust); ("security_owner", toy_trust); ("operations_owner", toy_trust)])].
Definition toy_entry (token role : string) : pyval := VDict [("token_file", VStr token); ("artifact_file", VStr "report"); ("role", VStr role)].
Definition toy_bundle (requester ops : string) : document :=
  [("release_id", VStr "r1"); ("source_revision", VStr "abcdef0"); ("release_requester", VStr requester); ("request_sha256", VStr (toy_sha ""));
   ("penetration_test", VDict [("token_file", VStr "t0"); ("artifact_file", VStr "report")]);
   ("human_acceptance", VDict [("signatures", VList [toy_entry "t1" "product_owner"; toy_entry "t2" "security_owner"; toy_entry ops "operations_owner"])])].
Definition toy_verify (requester ops : string) : result BundleResult :=
  verify_attestation_bundle (λ _, "") toy_sha (λ _, "error") toy_jwt toy_fs (toy_bundle requester ops) (Some (toy_sha "")) (Some toy_policy).

(** The bundle passes; it fails when one person votes for two roles, and when the requester is among the voters. *)
Example bundle_samples :
  map (λ r, match r with Ok b => bu_status b | Err _ => "error" end) [toy_verify "dan" "t3"; toy_verify "dan" "t4"; toy_verify "bob" "t3"; toy_verify "dan" "t9"]
  = ["PASS"; "FAIL"; "FAIL"; "FAIL"].
Proof. vm_compute. reflexivity. Qed.

Lemma attestation_bundle_sound_witness :
  ∃ owners votes, accepted (λ _, "") toy_sha toy_jwt (λ _, True) toy_fs owners "r1" "abcdef0" (toy_sha "") (Some "dan") votes.
Proof.
  destruct (toy_verify "dan" "t3") as [b|] eqn:Eb; [|vm_compute in Eb; discriminate].
  assert (bu_status b = "PASS" ∧ bu_release b = "r1" ∧ bu_revision b = "abcdef0") as (Hs & Hrel & Hrev).
  { vm_compute in Eb. injection Eb as <-. done. }
  destruct (attestation_bundle_sound (λ _, "") toy_sha (λ _, "error") toy_jwt (λ _, ltac:(discriminate)) (λ _, True) toy_fs (toy_bundle "dan" "t3")
    toy_policy (toy_sha "") b ltac:(discriminate) ltac:(by split; repeat intros ?) Eb Hs) as (pp & owners & claims & subject & votes & _ & _ & _ & _ & _ & _ & Hv).
  rewrite Hrel, Hrev in Hv. by exists owners, votes.
Defined.
