(* ===== verification/Evidence.v ===== *)
(** * Evidence files and evidence requests

    [packages/certification/evidence.py]: a JSON document with its SHA-256 sidecar; [requests.py]: the request that
    binds external evidence to a release.  Files are a map from a
    path in the normal form of [pathlib] to its content, and a write replaces a file as a whole.  The JSON encoder and
    decoder, the text of an XML element, SHA-256 and the text of a time are parameters. *)
From S2P Require Import Prelude PyValue PyText Certification Settings Domain Compute Access Actions Attestation.
Local Open Scope Z_scope.

(** ** evidence.py *)

(** [str.split(maxsplit=1)] of a stripped text, which must have two parts *)
Fixpoint take_word (l : list Ascii.ascii) : list Ascii.ascii * list Ascii.ascii :=
  match l with
  | c :: l' => if is_space c then ([], l) else let '(w, r) := take_word l' in (c :: w, r)
  | [] => ([], [])
  end.
Definition split_once (s : string) : result (string * string) :=
  let '(w, r) := take_word (drop_while is_space (String.list_ascii_of_string s)) in
  match drop_while is_space r with
  | [] => Err (ValueError "not enough values to unpack (expected 2)")
  | r' => Ok (String.string_of_list_ascii w, String.string_of_list_ascii r')
  end.

(** [Path(p).parts] without the root, and [Path(p).name] *)
Fixpoint split_slashes (l acc : list Ascii.ascii) : list string :=
  match l with
  | [] => [String.string_of_list_ascii acc]
  | c :: l' => if ord c =? 47 then String.string_of_list_ascii acc :: split_slashes l' [] else split_slashes l' (acc ++ [c])
  end.
Definition path_parts (p : string) : list string :=
  base.filter (λ s, s ≠ "" ∧ s ≠ ".") (split_slashes (String.list_ascii_of_string p) []).
Definition path_name (p : string) : string := default "" (last (path_parts p)).
Definition line_end : string := String.String (chr 10) EmptyString.
Definition sidecar_path (p : string) : string := p +:+ ".sha256".
Definition junit_path (p : string) : string := p +:+ ".junit.xml".

(** An element of [xml.etree] *)
Inductive element : Type := Element (tag : string) (attrib : list (string * string)) (content : option string) (children : list element).

Section evidence.
Context (canonical : document → string) (loads : string → result pyval) (sha : string → string).
Context (str_container : pyval → string) (xml_text : element → string).
#[local] Abbreviation text := (py_str str_container).

(** The checks a report lists *)
Definition gate_as_check (d : document) : document :=
  [("name", default (VStr "gate") (od_get "name" d));
   ("status", VStr (match get "passed" d with VBool true => "PASS" | _ => "FAIL" end)); ("reason", get "reason" d)].
Definition normalized_status (st : string) : string :=
  default st (od_get st [("CERTIFIED", "PASS"); ("NOT_CERTIFIED", "FAIL"); ("PENDING_EXTERNAL_EVIDENCE", "NOT_RUN"); ("SIGNED", "PASS")]).
Definition checks_of (d : document) : list document :=
  match get "checks" d, get "results" d, get "gates" d with
  | VList l, _, _ | _, VList l, _ => omap is_dict l
  | _, _, VList l => map gate_as_check (omap is_dict l)
  | _, _, _ => [[("name", VStr "gate"); ("status", VStr (normalized_status (text (default (VStr "FAIL") (od_get "status" d)))))]]
  end.

Definition has_status (st : string) (d : document) : bool := py_eq (get "status" d) (VStr st).
(** [a or b] *)
Definition py_or (a b : pyval) : pyval := if py_bool a then a else b.

Definition junit_case (suite_name : string) (index : nat) (d : document) : element :=
  let name := text (py_or (get "name" d) (py_or (get "kind" d) (VStr ("check-" +:+ int_str (Z.of_nat index + 1))))) in
  let reason := text (py_or (get "reason" d) (VStr "")) in
  let message fallback := if bool_decide (reason = "") then fallback else reason in
  Element "testcase" [("classname", suite_name); ("name", name)] None
    (if has_status "FAIL" d then [Element "failure" [("message", message "gate failed")] (Some reason) []]
     else if has_status "NOT_RUN" d then [Element "skipped" [("message", message "gate not run")] None []] else []).

Definition count (f : document → bool) (l : list document) : string := int_str (Z.of_nat (length (base.filter (λ d, f d = true) l))).
Definition junit_suite (suite_name : string) (d : document) : element :=
  let checks := checks_of d in
  Element "testsuite" [("name", suite_name); ("tests", int_str (Z.of_nat (length checks))); ("failures", count (has_status "FAIL") checks);
                       ("errors", "0"); ("skipped", count (has_status "NOT_RUN") checks)] None
    (imap (junit_case suite_name) checks).

Definition or_else (k : string) (d : document) (v : pyval) : pyval := default v (od_get k d).

(** The document with its metadata; [at_] is the time, [tools] the tool versions *)
Definition enriched (d : document) (command : string) (at_ : string) (tools : pyval) : document :=
  foldl (λ acc kv, od_set kv.1 kv.2 acc) d
    [("batch", or_else "batch" d (VStr "B20")); ("git_commit", or_else "git_commit" d (get "source_revision" d));
     ("generated_at", or_else "generated_at" d (VStr at_)); ("command", or_else "command" d (VStr command));
     ("result", or_else "result" d (or_else "status" d (VStr "FAIL"))); ("tool_versions", or_else "tool_versions" d tools);
     ("evidence_meta", VDict [("schema_version", VStr "1.0.0"); ("generated_at", VStr at_); ("command", VStr command)])].

Definition write_evidence (p : string) (d : document) (command suite_name at_ : string) (tools : pyval) : M files string := λ fs,
  let e := enriched d command at_ tools in
  let content := canonical e in
  let digest := sha content in
  (<[junit_path p := xml_text (junit_suite suite_name e)]>
     (<[sidecar_path p := digest +:+ "  " +:+ path_name p +:+ line_end]> (<[p := content]> fs)), Ok digest).

Definition unparsable (e : exn) : bool :=
  match e with ValueError _ | PermissionError _ | AuthenticationError _ => true | OtherError _ => bool_decide (e = os_error) | _ => false end.

Definition checked_evidence (fs : files) (p content side : string) : result (option string) :=
  parts ← split_once (py_strip side);
  let '(expected, filename) := parts in
  if negb (bool_decide (py_strip filename = path_name p)) || negb (String.length expected =? 64)%nat
  then Ok (Some "evidence SHA-256 sidecar is malformed")
  else
    same ← compare_digest (sha content) expected;
    if negb same then Ok (Some "evidence SHA-256 mismatch")
    else
      v ← loads content;
      Ok (match v with
          | VDict d =>
              match get "evidence_meta" d with
              | VDict m => if py_eq (get "schema_version" m) (VStr "1.0.0") then None else Some "evidence metadata is missing"
              | _ => Some "evidence metadata is missing"
              end
          | _ => Some "evidence metadata is missing"
          end).

(** [(True, None)], or false with the reason *)
Definition verify_evidence (fs : files) (p : string) : result (option string) :=
  match fs !! p, fs !! sidecar_path p with
  | Some content, Some side =>
      match checked_evidence fs p content side with
      | Err e => if unparsable e then Ok (Some "evidence document could not be parsed") else Err e
      | r => r
      end
  | _, _ => Ok (Some "evidence document or SHA-256 sidecar is missing")
  end.
End evidence.

(** ** requests.py *)

Definition REQUIRED_EXTERNAL_GATES : gset string :=
  {["oidc"; "kubernetes"; "slurm"; "meter"; "ems"; "production_load"; "penetration_test"; "postgres_restore"; "object_restore";
    "product_owner"; "security_owner"; "operations_owner"]}.

Record EvidenceRequest := MkRequest {
  rq_release : string; rq_revision : string; rq_by : string; rq_issued : datetime; rq_expires : datetime; rq_nonce : string;
  rq_requirements : document; rq_artifacts : list (string * string); rq_sha256 : string
}.
(** The body the digest of a request is taken of, with its times as texts *)
Record request_body := MkRequestBody {
  rb_release : string; rb_revision : string; rb_by : string; rb_issued : string; rb_expires : string; rb_nonce : string;
  rb_requirements : document; rb_artifacts : list (string * string)
}.

(** [isinstance(requirements.get(name), dict) and requirements[name].get("required") is True] *)
Definition gate_required (requirements : document) (name : string) : bool :=
  match get name requirements with VDict d => match get "required" d with VBool true => true | _ => false end | _ => false end.
Definition missing_gates (requirements : document) : list string :=
  py_sorted String.compare (elements (REQUIRED_EXTERNAL_GATES ∖ list_to_set requirements.*1)).
Definition disabled_gates (requirements : document) : list string :=
  py_sorted String.compare (base.filter (λ n, gate_required requirements n = false) (elements REQUIRED_EXTERNAL_GATES)).

Definition month : Z := 2592000000000.

Section requests.
Context (iso : datetime → string) (digest : request_body → string) (sha : string → string).
Context (fromisoformat : string → result datetime) (str_container : pyval → string).
(** [sorted] of the paths of the input artifacts *)
Context (sort_paths : list string → list string).
#[local] Abbreviation text := (py_str str_container).

Definition body_of (q : EvidenceRequest) : request_body :=
  MkRequestBody (rq_release q) (rq_revision q) (rq_by q) (iso (rq_issued q)) (iso (rq_expires q)) (rq_nonce q) (rq_requirements q) (rq_artifacts q).

Definition add_artifact (fs : files) (found : list (string * string)) (p : string) : result (list (string * string)) :=
  content ← read_file fs p;
  raise_if (bool_decide (is_Some (od_get (path_name p) found))) (ValueError ("input artifact names must be unique: " +:+ path_name p));;
  Ok (od_set (path_name p) (sha content) found).

Definition create_evidence_request (fs : files) (release revision by_ : string) (requirements : document) (inputs : list string)
    (now : datetime) (valid_for : Z) (nonce : string) : result EvidenceRequest :=
  raise_if (negb (aware now)) (ValueError "evidence request time must be timezone-aware");;
  raise_if (bool_decide (release = "") || bool_decide (by_ = "")) (ValueError "release_id and requested_by are required");;
  raise_if (negb (immutable_revision revision)) (ValueError "external evidence requests require an immutable source revision");;
  raise_if ((valid_for <=? 0) || (month <? valid_for)) (ValueError "evidence request validity must be within 30 days");;
  raise_if (negb (bool_decide (missing_gates requirements = [])))
    (ValueError ("evidence request is missing gate contracts: " +:+ String.concat ", " (missing_gates requirements)));;
  raise_if (negb (bool_decide (disabled_gates requirements = [])))
    (ValueError ("mandatory evidence gates cannot be disabled: " +:+ String.concat ", " (disabled_gates requirements)));;
  artifacts ← foldM_result (add_artifact fs) (sort_paths inputs) [];
  let expires := dt_add now valid_for in
  Ok (MkRequest release revision by_ now expires nonce requirements artifacts
        (digest (MkRequestBody release revision by_ (iso now) (iso expires) nonce requirements artifacts))).

Definition verify_evidence_request (q : EvidenceRequest) (now : datetime) : result bool :=
  lifetime ← dt_sub (rq_expires q) (rq_issued q);
  started ← dt_leb (rq_issued q) now;
  if (started : bool) then
    open_ ← dt_ltb now (rq_expires q);
    Ok (open_ && (0 <? lifetime) && (lifetime <=? month) && bool_decide (digest (body_of q) = rq_sha256 q))
  else Ok false.

Definition request_from_document (d : document) : result EvidenceRequest :=
  release ← item "release_id" d; revision ← item "source_revision" d; by_ ← item "requested_by" d;
  i ← item "issued_at" d; issued ← fromisoformat (text i);
  e ← item "expires_at" d; expires ← fromisoformat (text e);
  nonce ← item "nonce" d;
  r ← item "requirements" d; requirements ← dict_of r;
  a ← item "input_artifacts" d; artifacts ← dict_of a;
  s ← item "request_sha256" d;
  let q := MkRequest (text release) (text revision) (text by_) issued expires (text nonce) requirements
             (foldl (λ acc kv, od_set kv.1 (text kv.2) acc) [] artifacts) (text s) in
  raise_if (negb (aware issued) || negb (aware expires)) (ValueError "evidence request timestamps must be timezone-aware");;
  raise_if (negb (immutable_revision (rq_revision q))) (ValueError "evidence request source revision is not immutable");;
  raise_if (negb (bool_decide (missing_gates requirements = []))) (ValueError "evidence request is missing required gates");;
  raise_if (negb (bool_decide (disabled_gates requirements = []))) (ValueError "evidence request contains a disabled mandatory gate");;
  Ok q.
End requests.

(** ** What is written verifies, what was changed does not *)

Lemma chars_app s t : String.list_ascii_of_string (s +:+ t) = String.list_ascii_of_string s ++ String.list_ascii_of_string t.
Proof. induction s as [|c s IH]; [done|]. change ((String.String c s) +:+ t) with (String.String c (s +:+ t)). cbn. by rewrite IH. Qed.

Definition no_space (s : string) : Prop := Forall (λ c, is_space c = false) (String.list_ascii_of_string s).

Lemma drop_no_space l k : l ≠ [] → Forall (λ c, is_space c = false) l → drop_while is_space (l ++ k) = l ++ k.
Proof. intros Hl Hf. destruct l as [|c l]; [done|]. apply Forall_cons in Hf as [Hc _]. cbn. by rewrite Hc. Qed.

Lemma take_word_app w r : Forall (λ c, is_space c = false) w → match r with c :: _ => is_space c = true | [] => True end → take_word (w ++ r) = (w, r).
Proof. intros Hw Hr. induction Hw as [|c w Hc Hw IH]; cbn; [destruct r as [|c r]; [done|]; cbn; by rewrite Hr|]. by rewrite Hc, IH. Qed.

Lemma no_space_strip s : no_space s → py_strip s = s.
Proof.
  unfold no_space, py_strip. intros H. destruct (String.list_ascii_of_string s) as [|c l] eqn:E.
  { cbn. by rewrite <-(String.string_of_list_ascii_of_string s), E. }
  assert (drop_while is_space (c :: l) = c :: l) as -> by (apply Forall_cons in H as [Hc _]; cbn; by rewrite Hc).
  rewrite <-(app_nil_r (rev (c :: l))), drop_no_space, app_nil_r, rev_involutive; [|by intros ?%(f_equal length); rewrite length_rev in *|by apply Forall_rev].
  by rewrite <-E, String.string_of_list_ascii_of_string.
Qed.

Lemma sidecar_parsed a n : no_space a → no_space n → a ≠ "" → n ≠ "" → split_once (py_strip (a +:+ "  " +:+ n +:+ line_end)) = Ok (a, n).
Proof.
  unfold no_space. intros Ha Hn Ha0 Hn0.
  assert (∀ s, s ≠ "" → String.list_ascii_of_string s ≠ []) as Hne by (intros [|c s]; done).
  unfold py_strip. rewrite !chars_app. change (String.list_ascii_of_string "  ") with [chr 32; chr 32]. change (String.list_ascii_of_string line_end) with [chr 10].
  assert (drop_while is_space (rev (drop_while is_space (String.list_ascii_of_string a ++ [chr 32; chr 32] ++ String.list_ascii_of_string n ++ [chr 10]))) =
    rev (String.list_ascii_of_string a ++ [chr 32; chr 32] ++ String.list_ascii_of_string n)) as Hs.
  { rewrite drop_no_space by auto. rewrite !app_assoc, rev_app_distr. cbn [rev app]. cbn [drop_while]. 
    assert (is_space (chr 10) = true) as -> by reflexivity. rewrite rev_app_distr. apply drop_no_space; [|by apply Forall_rev].
    intros Hr%(f_equal (@rev _)). rewrite rev_involutive in Hr. by apply (Hne n). }
  cbn [app] in Hs |- *. rewrite Hs, rev_involutive. unfold split_once. rewrite String.list_ascii_of_string_of_list_ascii, drop_no_space by auto.
  rewrite take_word_app by done. cbn [drop_while]. assert (is_space (chr 32) = true) as -> by reflexivity.
  rewrite <-(app_nil_r (String.list_ascii_of_string n)) at 1. rewrite drop_no_space, app_nil_r by auto.
  destruct (String.list_ascii_of_string n) as [|c l] eqn:E; [by destruct (Hne n)|]. by rewrite <-E, !String.string_of_list_ascii_of_string.
Qed.

Lemma hex_clean s : is_sha256 s = true → no_space s ∧ is_ascii s = true ∧ s ≠ "" ∧ String.length s = 64%nat.
Proof.
  unfold is_sha256. intros [Hl Hh]%andb_true_iff. apply Nat.eqb_eq in Hl. split_and!; [| |by intros ->|done].
  - apply forallb_true_iff in Hh. eapply Forall_impl; [exact Hh|]. intros c. destruct c as [[] [] [] [] [] [] [] []]; vm_compute; done.
  - unfold is_ascii. apply forallb_true_iff. apply forallb_true_iff in Hh. eapply Forall_impl; [exact Hh|].
    intros c. destruct c as [[] [] [] [] [] [] [] []]; vm_compute; done.
Qed.

Lemma suffix_ne p a b : String.length a ≠ String.length b → p +:+ a ≠ p +:+ b.
Proof.
  assert (∀ s, length (String.list_ascii_of_string s) = String.length s) as Hl by (induction s as [|c s IH]; [done|]; cbn; by rewrite IH).
  intros Hn H%(f_equal (λ s, length (String.list_ascii_of_string s))). rewrite !chars_app, !length_app, !Hl in H. lia.
Qed.
Lemma append_empty p : p +:+ "" = p.
Proof. induction p as [|c p IH]; [done|]. change (String.String c (p +:+ "") = String.String c p). by rewrite IH. Qed.
Lemma sidecar_ne p : sidecar_path p ≠ p.
Proof. unfold sidecar_path. rewrite <-(append_empty p) at 2. by apply suffix_ne. Qed.
Lemma junit_ne p : junit_path p ≠ p ∧ junit_path p ≠ sidecar_path p.
Proof. split; [unfold junit_path; rewrite <-(append_empty p) at 2; by apply suffix_ne|by apply suffix_ne]. Qed.

Lemma or_else_keeps n k d e x v : od_get k d = Some v → od_get k e = Some v → od_get k (od_set n (or_else n d x) e) = Some v.
Proof.
  intros Hd He. destruct (decide (n = k)) as [->|]; [|by rewrite od_get_set_ne]. rewrite od_get_set_eq. unfold or_else. by rewrite Hd.
Qed.

(** Evidence is kept: a document that was written verifies, whatever else is in the directory, and it carries the
    fields of the document it was written from; once the file has other content it no longer verifies. *)
Theorem evidence_file_roundtrip (canonical : document → string) (loads : string → result pyval) (sha : string → string)
    (Hjson : ∀ d, ∃ d', loads (canonical d) = Ok (VDict d') ∧ ∀ k, od_get k d' = json_safe_val <$> od_get k d)
    (Hsha : ∀ s, is_sha256 (sha s) = true) (Hinj : ∀ a b, sha a = sha b → a = b)
    (str_container : pyval → string) (xml_text : element → string)
    (fs : files) (p command suite at_ : string) (d : document) (tools : pyval) (Hp : no_space (path_name p) ∧ path_name p ≠ "") :
  let fs' := (write_evidence canonical sha str_container xml_text p d command suite at_ tools fs).1 in
  verify_evidence loads sha fs' p = Ok None ∧
  (∀ content, verify_evidence loads sha (<[p := content]> fs') p = Ok None → fs' !! p = Some content) ∧
  (∃ d', (content ← of_option os_error (fs' !! p); loads content) = Ok (VDict d') ∧
     ∀ k v, od_get k d = Some v → k ∉ ["evidence_meta"] → od_get k d' = Some (json_safe_val v)).
Proof.
  destruct Hp as [Hn Hn0]. intros fs'. set (e := enriched d command at_ tools). set (c := canonical e). destruct (hex_clean _ (Hsha c)) as (Hs & Hasc & Hs0 & Hlen).
  assert (fs' !! p = Some c) as Hc by (cbn; rewrite !lookup_insert_ne by (apply sidecar_ne || apply junit_ne); apply lookup_insert_eq).
  assert (fs' !! sidecar_path p = Some (sha c +:+ "  " +:+ path_name p +:+ line_end)) as Hside
    by (cbn; rewrite lookup_insert_ne by apply junit_ne; apply lookup_insert_eq).
  assert (∀ fs1 content, checked_evidence loads sha fs1 p content (sha c +:+ "  " +:+ path_name p +:+ line_end) =
    if bool_decide (content = c) then Ok None else Ok (Some "evidence SHA-256 mismatch")) as Hcheck.
  { intros fs1 content. unfold checked_evidence. rewrite sidecar_parsed by done. unfold mbind, result_bind. rewrite no_space_strip, Hlen by done.
    rewrite bool_decide_true by done. cbn [Nat.eqb negb orb]. unfold compare_digest. destruct (hex_clean _ (Hsha content)) as (_ & -> & _). rewrite Hasc. cbn.
    destruct (decide (content = c)) as [->|Hne]; [rewrite !bool_decide_true by done|by rewrite !bool_decide_false by naive_solver]. cbn.
    destruct (Hjson e) as (d' & Hl & Hk). change (canonical e) with c in Hl. rewrite Hl. unfold get. rewrite Hk. unfold e, enriched. cbn [foldl]. rewrite od_get_set_eq. done. }
  split_and!.
  - unfold verify_evidence. rewrite Hc, Hside, Hcheck, bool_decide_true by done. done.
  - intros content. unfold verify_evidence. rewrite lookup_insert_eq, lookup_insert_ne by (intros H; by apply (sidecar_ne p)). rewrite Hside, Hcheck.
    case_bool_decide; [by subst|done].
  - rewrite Hc. destruct (Hjson e) as (d' & Hl & Hk). exists d'. split; [done|]. intros k v Hv Hne. rewrite Hk.
    assert (od_get k e = Some v) as ->; [|done]. unfold e, enriched. cbn [foldl fst snd].
    rewrite (od_get_set_ne "evidence_meta") by set_solver. do 6 (apply or_else_keeps; [exact Hv|]). exact Hv.
Qed.

(** ** Evidence requests *)

Lemma missing_gates_nil r : missing_gates r = [] ↔ REQUIRED_EXTERNAL_GATES ⊆ list_to_set r.*1.
Proof.
  unfold missing_gates. rewrite py_sorted_nil, elements_empty_iff. split.
  - intros H n Hn. destruct (decide (n ∈ (list_to_set r.*1 : gset string))) as [|Hd]; [done|].
    assert (n ∈ (∅ : gset string)) as Hx by (rewrite <-H; by apply elem_of_difference). by apply elem_of_empty in Hx.
  - intros H. apply elem_of_equiv_empty. intros n [Hn Hd]%elem_of_difference. by apply Hd, H.
Qed.

Lemma disabled_gates_nil r : disabled_gates r = [] ↔ ∀ n, n ∈ REQUIRED_EXTERNAL_GATES → gate_required r n = true.
Proof.
  unfold disabled_gates. rewrite py_sorted_nil. split.
  - intros H n Hn. apply not_false_iff_true. intros Hf. assert (n ∈ base.filter (λ n, gate_required r n = false) (elements REQUIRED_EXTERNAL_GATES)) as Hin
      by (apply list_elem_of_filter; split; [done|by apply elem_of_elements]). rewrite H in Hin. by apply elem_of_nil in Hin.
  - intros H. apply elem_of_nil_inv. intros n [Hf Hn%elem_of_elements]%list_elem_of_filter. rewrite H in Hf by done. done.
Qed.

Lemma od_set_new (k v : string) (d : list (string * string)) : k ∉ d.*1 → od_set k v d = d ++ [(k, v)].
Proof.
  induction d as [|[k' v'] d IH]; [done|]. cbn. intros Hk. case_decide as Hd; [set_solver|]. rewrite IH; [done|]. set_solver.
Qed.

Lemma artifacts_reread str_container (l : list (string * string)) : NoDup l.*1 →
  foldl (λ acc kv, od_set kv.1 (py_str str_container kv.2) acc) [] (map (λ kv, (kv.1, VStr kv.2)) l) = l.
Proof.
  intros Hnd. assert (∀ acc, NoDup (acc ++ l).*1 →
    foldl (λ acc kv, od_set kv.1 (py_str str_container kv.2) acc) acc (map (λ kv, (kv.1, VStr kv.2)) l) = acc ++ l) as H; [|by apply (H [])].
  clear Hnd. induction l as [|[k v] l IH]; intros acc Hnd; [by rewrite app_nil_r|]. cbn. rewrite od_set_new.
  - rewrite IH, <-app_assoc; [done|]. by rewrite <-app_assoc.
  - rewrite fmap_app in Hnd. cbn in Hnd. apply NoDup_app in Hnd as (_ & Hd & _). intros Hk. by destruct (Hd k Hk); left.
Qed.

Section request_facts.
Context (iso : datetime → string) (digest : request_body → string) (sha : string → string).
Context (fromisoformat : string → result datetime) (str_container : pyval → string) (sort_paths : list string → list string).
(** [json.dumps(asdict(request), default=str)] writes the times with [str] *)
Context (dt_str : datetime → string).

Definition request_document (q : EvidenceRequest) : document :=
  [("release_id", VStr (rq_release q)); ("source_revision", VStr (rq_revision q)); ("requested_by", VStr (rq_by q));
   ("issued_at", VStr (dt_str (rq_issued q))); ("expires_at", VStr (dt_str (rq_expires q))); ("nonce", VStr (rq_nonce q));
   ("requirements", VDict (rq_requirements q)); ("input_artifacts", VDict (map (λ kv, (kv.1, VStr kv.2)) (rq_artifacts q)));
   ("request_sha256", VStr (rq_sha256 q)); ("status", VStr "PENDING_EXTERNAL_EVIDENCE")].

Record request_ok (q : EvidenceRequest) : Prop := {
  ro_times : aware (rq_issued q) = true ∧ aware (rq_expires q) = true ∧ 0 < us (rq_expires q) - us (rq_issued q) <= month;
  ro_revision : immutable_revision (rq_revision q) = true;
  ro_gates : ∀ n, n ∈ REQUIRED_EXTERNAL_GATES → gate_required (rq_requirements q) n = true;
  ro_names : NoDup (rq_artifacts q).*1;
  ro_digest : rq_sha256 q = digest (body_of iso q)
}.

Lemma created_ok fs release revision by_ requirements inputs now valid nonce q :
  create_evidence_request iso digest sha sort_paths fs release revision by_ requirements inputs now valid nonce = Ok q → request_ok q.
Proof using Type.
  unfold create_evidence_request, mbind, result_bind, raise_if.
  destruct (negb (aware now)) eqn:E1; [done|]. destruct (_ || _) eqn:E2; [done|]. destruct (negb (immutable_revision revision)) eqn:E3; [done|].
  destruct ((valid <=? 0) || _) eqn:E4; [done|]. destruct (negb (bool_decide (missing_gates requirements = []))) eqn:E5; [done|].
  destruct (negb (bool_decide (disabled_gates requirements = []))) eqn:E6; [done|].
  destruct (foldM_result _ _ _) as [artifacts|] eqn:Ea; [|done]. intros [= <-]. bprop. split; cbn.
  - split_and!; [done|done|lia|lia].
  - done.
  - by apply disabled_gates_nil.
  - apply (foldM_result_inv (add_artifact sha fs) (λ l : list (string * string), NoDup l.*1) (sort_paths inputs) [] artifacts); [|constructor|done].
    intros l p l' _ Hl Hp. unfold add_artifact, mbind, result_bind in Hp. destruct (read_file fs p); [|done]. destruct (raise_if _ _); [|done].
    injection Hp as <-. by apply od_set_NoDup.
  - done.
Qed.

Lemma verify_request q now : request_ok q → aware now = true →
  verify_evidence_request iso digest q now = Ok (bool_decide (us (rq_issued q) <= us now < us (rq_expires q))).
Proof using Type.
  intros [(Ha & He & Hl) _ _ _ Hd] Hn. unfold verify_evidence_request, dt_sub, dt_leb, dt_ltb. rewrite Ha, He, Hn. cbn.
  unfold mbind, result_bind. rewrite <-Hd, bool_decide_true, andb_true_r by done.
  rewrite (proj2 (Z.ltb_lt 0 _)), (proj2 (Z.leb_le _ month)) by lia. destruct (Z.leb_spec (us (rq_issued q)) (us now)).
  - rewrite !andb_true_r. f_equal. destruct (Z.ltb_spec (us now) (us (rq_expires q))); case_bool_decide; lia || done.
  - rewrite bool_decide_false by lia. done.
Qed.

Lemma reread_request q : request_ok q → (∀ t, aware t = true → fromisoformat (dt_str t) = Ok t) →
  request_from_document fromisoformat str_container (request_document q) = Ok q.
Proof using Type.
  intros [(Ha & He & Hl) Hr Hg Hn Hd] Hp. unfold request_from_document, item.
  change (od_get "release_id" (request_document q)) with (Some (VStr (rq_release q))).
  change (od_get "source_revision" (request_document q)) with (Some (VStr (rq_revision q))).
  change (od_get "requested_by" (request_document q)) with (Some (VStr (rq_by q))).
  change (od_get "issued_at" (request_document q)) with (Some (VStr (dt_str (rq_issued q)))).
  change (od_get "expires_at" (request_document q)) with (Some (VStr (dt_str (rq_expires q)))).
  change (od_get "nonce" (request_document q)) with (Some (VStr (rq_nonce q))).
  change (od_get "requirements" (request_document q)) with (Some (VDict (rq_requirements q))).
  change (od_get "input_artifacts" (request_document q)) with (Some (VDict (map (λ kv, (kv.1, VStr kv.2)) (rq_artifacts q)))).
  change (od_get "request_sha256" (request_document q)) with (Some (VStr (rq_sha256 q))).
  unfold of_option, mbind, result_bind. cbn [py_str]. rewrite !Hp by done. cbn [dict_of].
  rewrite artifacts_reread, Ha, He by done. cbn [rq_revision negb orb raise_if]. rewrite Hr. cbn [negb raise_if].
  rewrite (bool_decide_true (disabled_gates _ = [])) by by apply disabled_gates_nil. cbn [negb raise_if].
  rewrite bool_decide_true; [destruct q; done|]. apply missing_gates_nil. intros n Hin. specialize (Hg n Hin). unfold gate_required, get in Hg.
  destruct (od_get n (rq_requirements q)) as [x|] eqn:E; [|done]. apply od_get_elem_of in E. apply elem_of_list_to_set, list_elem_of_fmap. by exists (n, x).
Qed.
End request_facts.


Definition toy_iso (t : datetime) : string := if aware t then "Z" +:+ int_str (us t) else "N" +:+ int_str (us t).
Definition toy_read (s : string) : result datetime := z ← py_int (VStr s); Ok (DT z true).
Definition toy_gates : list string := elements REQUIRED_EXTERNAL_GATES.
Definition toy_requirements : document := map (λ n, (n, VDict [("required", VBool true)])) toy_gates.
Definition toy_required (d : document) : bool :=
  bool_decide (d.*1 = toy_gates) &&
  forallb (λ kv : string * pyval, match kv.2 with VDict [(k, VBool true)] => bool_decide (k = "required") | _ => false end) d.
Lemma toy_iso_inj t t' : toy_iso t = toy_iso t' → t = t'.
Proof.
  assert (∀ u u', int_str u = int_str u' → u = u') as Hi.
  { intros u u' H. apply (f_equal (λ s, py_int (VStr s))) in H. rewrite !int_of_int_str in H. by injection H. }
  destruct t as [u []], t' as [u' []]; unfold toy_iso; cbn [aware us String.append]; intros H; injection H; try discriminate; intros ->%Hi; reflexivity.
Qed.
(** a digest that only the body of one request has *)
Definition toy_digest (b : request_body) : string :=
  if bool_decide ((rb_release b, rb_revision b, rb_by b, rb_issued b, rb_expires b, rb_nonce b, rb_artifacts b) =
                  ("r1", "abcdef0", "dan", "Z100", "Z200", "n", [("in.json", "d")])) && toy_required (rb_requirements b) then "x" else "y".

Lemma toy_required_eq d : toy_required d = true → d = toy_requirements.
Proof.
  unfold toy_required, toy_requirements. generalize toy_gates. intros gs [Hk Hv]%andb_true_iff. bprop. subst gs.
  induction d as [|[k v] d IH]; [done|]. cbn in Hv |- *. apply andb_true_iff in Hv as [Hv Hd]. rewrite <-(IH Hd). f_equal. f_equal.
  destruct v as [| | | | | | |[|[k' [|[]| | | | | |]] []]]; try done. bprop. by subst.
Qed.

Definition toy_request : result EvidenceRequest :=
  create_evidence_request toy_iso toy_digest (λ _, "d") id {["dir/in.json" := "content"]} "r1" "abcdef0" "dan" toy_requirements ["dir/in.json"] (DT 100 true) 100 "n".


Section loading.
Context (loads : string → result pyval) (sha : string → string) (iso : datetime → string) (digest : request_body → string).
Context (fromisoformat : string → result datetime) (str_container : pyval → string).

Definition load_verified_request (fs : files) (p : string) (now : datetime) : result EvidenceRequest :=
  problem ← verify_evidence loads sha fs p;
  raise_if (match problem with Some _ => true | None => false end) (ValueError ("evidence request integrity check failed: " +:+ opt_text problem));;
  content ← read_file fs p;
  v ← loads content;
  match v with
  | VDict d =>
      q ← request_from_document fromisoformat str_container d;
      ok ← verify_evidence_request iso digest q now;
      raise_if (negb ok) (ValueError "evidence request is expired or its request digest is invalid");;
      Ok q
  | _ => Err (ValueError "evidence request must be a JSON object")
  end.
End loading.
