(* ===== verification/Material.v ===== *)
(** * Issuing attestations, and the portable material they are verified again from

    [packages/certification/attestations.py]: [issue_attestation], [write_attestation], the verification material that
    evidence embeds (tokens, public keys and the trust policy, bound to the evidence request by their digests), and
    its verification in a temporary directory.  Parameters: the JWT library, SHA-256, JSON, base64, the resolution of
    symbolic links and the name of the temporary directory. *)
From S2P Require Import Prelude PyValue PyText Certification Settings Domain Compute Access Actions Attestation Evidence.
Local Open Scope Z_scope.

Definition token_name (i : nat) : string := "attestation-" +:+ int_str (Z.of_nat i) +:+ ".jwt".
Definition in_dir (dir name : string) : string := dir +:+ "/" +:+ name.

(** [root / p] *)
Definition join_path (root p : string) : string :=
  match p with
  | EmptyString => root
  | String.String c _ => if ord c =? 47 then p else in_dir root p
  end.
(** [p.relative_to(root)] does not raise *)
Definition is_under (root p : string) : bool := bool_decide (path_parts root `prefix_of` path_parts p).

Definition text_or (str_container : pyval → string) (k fallback : string) (d : document) : string :=
  py_str str_container (default (VStr fallback) (od_get k d)).

Section material.
Context (str_container : pyval → string) (sha : string → string) (exn_text : exn → string).
Context (jwt_decode : string → string → string → result document) (loads : string → result pyval).
Context (b64decode : string → result string) (resolve : string → string).
#[local] Abbreviation text := (py_str str_container).
#[local] Abbreviation field := (text_or str_container).

(** ** verify_verification_material *)

(** Writes one embedded key to the temporary directory *)
Definition add_key (bound : list (string * string)) (dir : string) (st : files * list (string * string)) (kv : string * pyval)
    : result (files * list (string * string)) :=
  let '(fs, keys) := st in
  let '(name, raw) := kv in
  match raw with
  | VDict raw =>
      raise_if (negb (bool_decide (path_name name = name))) (ValueError "embedded attestation public key entry is invalid");;
      key ← b64decode (field "pem_b64" "" raw);
      raise_if (negb (py_eq (get "sha256" raw) (VStr (sha key)))) (ValueError "embedded attestation public key digest is invalid");;
      raise_if (negb (bool_decide (od_get name bound = Some (sha key))))
        (ValueError ("attestation public key is not bound to the evidence request: " +:+ name));;
      (* writing to the directory itself or to its parent *)
      raise_if (mem name [""; ".."]) os_error;;
      Ok (<[in_dir dir name := key]> fs, od_set name (in_dir dir name) keys)
  | _ => Err (ValueError "embedded attestation public key entry is invalid")
  end.

Record entries_state := MkEntries { es_files : files; es_penetration : option document; es_signatures : list pyval }.

(** Writes the token of an entry and reconstructs the entry of the bundle; [root] is resolved *)
Definition add_entry (keys : list (string * string)) (dir root : string) (st : entries_state) (entry : nat * pyval) : result entries_state :=
  match entry.2 with
  | VDict e =>
      let token := field "token" "" e in
      raise_if (negb (py_eq (get "token_sha256" e) (VStr (sha token)))) (ValueError "embedded attestation token digest is invalid");;
      key_path ← of_option (ValueError "embedded attestation public key is missing") (od_get (field "public_key_name" "" e) keys);
      let artifact := resolve (join_path root (field "artifact" "" e)) in
      raise_if (negb (is_under root artifact)) (ValueError "embedded attestation artifact escapes the evidence root");;
      raise_if (match es_files st !! artifact with Some c => negb (py_eq (get "artifact_sha256" e) (VStr (sha c))) | None => true end)
        (ValueError "embedded attestation artifact is missing or changed");;
      let token_path := in_dir dir (token_name entry.1) in
      let fs := <[token_path := token +:+ line_end]> (es_files st) in
      let reconstructed := [("token_file", VStr token_path); ("public_key_file", VStr key_path); ("artifact_file", VStr artifact)] in
      Ok (if py_eq (get "kind" e) (VStr "penetration_test") then MkEntries fs (Some reconstructed) (es_signatures st)
          else MkEntries fs (es_penetration st) (es_signatures st ++ [VDict (od_set "role" (VStr (field "role" "" e)) reconstructed)]))
  | _ => Err (ValueError "embedded attestation entry is invalid")
  end.

(** The key file a policy names, among the keys that were written *)
Definition key_name_of (policy : document) : string := path_name (field "public_key_file" "" policy).
Definition rewrite_key (keys : list (string * string)) (policy : document) : document :=
  od_set "public_key_file" (VStr (default "" (od_get (key_name_of policy) keys))) policy.
Definition rewrite_owner (keys : list (string * string)) (v : pyval) : pyval :=
  match v with VDict d => VDict (rewrite_key keys d) | _ => v end.
Definition reconstructed_policy (keys : list (string * string)) (policy : document) : document :=
  let policy := match get "penetration_test" policy with
                | VDict pp => od_set "penetration_test" (VDict (rewrite_key keys pp)) policy
                | _ => policy
                end in
  match get "human_acceptance" policy with
  | VDict owners => od_set "human_acceptance" (VDict (map (λ kv, (kv.1, rewrite_owner keys kv.2)) owners)) policy
  | _ => policy
  end.

Definition kinds_of (entries : list pyval) : list string := map (λ d, text (get "kind" d)) (omap is_dict entries).
Definition roles_of (entries : list pyval) : list string :=
  map (λ d, text (get "role" d)) (base.filter (λ d, py_bool (get "role" d) = true) (omap is_dict entries)).
Definition occurrences (s : string) (l : list string) : nat := length (base.filter (λ x, x = s) l).

Definition embedded_policy (bound : list (string * string)) (material : document) : result (document * string) :=
  raise_if (negb (py_eq (get "schema_version" material) (VStr "1.0.0"))) (ValueError "attestation verification material schema is unsupported");;
  content ← b64decode (field "trust_policy_b64" "" material);
  raise_if (negb (py_eq (get "trust_policy_sha256" material) (VStr (sha content)))) (ValueError "embedded attestation trust policy digest is invalid");;
  raise_if (negb (bool_decide (od_get (field "trust_policy_name" "" material) bound = Some (sha content))))
    (ValueError "embedded attestation trust policy is not bound to the evidence request");;
  v ← loads content;
  match v with
  | VDict policy => Ok (policy, sha content)
  | _ => Err (ValueError "embedded attestation trust policy must be a JSON object")
  end.

(** The keys and the entries, with their numbers checked *)
Definition embedded_entries (material : document) : result (document * list pyval) :=
  match get "public_keys" material, get "entries" material with
  | VDict keys, VList entries =>
      raise_if (negb (occurrences "penetration_test" (kinds_of entries) =? 1)%nat
                || negb (occurrences "human_acceptance_vote" (kinds_of entries) =? size HUMAN_ROLES)%nat)
        (ValueError "attestation verification material requires one penetration test and three owner votes");;
      raise_if (negb (bool_decide (list_to_set (roles_of entries) = HUMAN_ROLES)) || has_duplicates (roles_of entries))
        (ValueError "attestation verification material has invalid owner roles");;
      Ok (keys, entries)
  | _, _ => Err (ValueError "attestation verification material is incomplete")
  end.

Definition reconstructed_bundle (release revision requester request : string) (pen : document) (signatures : list pyval) : document :=
  [("release_id", VStr release); ("source_revision", VStr revision); ("release_requester", VStr requester); ("request_sha256", VStr request);
   ("penetration_test", VDict pen); ("human_acceptance", VDict [("signatures", VList signatures)])].

(** The bundle's result and the digest of the trust policy *)
Definition verify_verification_material (fs : files) (dir : string) (material : document) (evidence_root release revision requester request : string)
    (bound : list (string * string)) : result (BundleResult * string) :=
  pd ← embedded_policy bound material;
  ke ← embedded_entries material;
  st ← foldM_result (add_key bound dir) ke.1 (fs, []);
  let '(fs1, keys) := st in
  es ← foldM_result (add_entry keys dir (resolve evidence_root)) (imap pair ke.2) (MkEntries fs1 None []);
  match es_penetration es with
  | None => Err (ValueError "embedded penetration-test attestation is missing")
  | Some pen =>
      b ← verify_attestation_bundle str_container sha exn_text jwt_decode (es_files es)
            (reconstructed_bundle release revision requester request pen (es_signatures es)) (Some request) (Some (reconstructed_policy keys pd.1));
      Ok (b, pd.2)
  end.
End material.

(** ** What verified material stands on *)

Lemma in_dir_inj dir a b : in_dir dir a = in_dir dir b → a = b.
Proof.
  unfold in_dir. induction dir as [|c dir IH]; intros H; [by injection H|]. apply IH.
  change (String.String c (dir +:+ "/" +:+ a) = String.String c (dir +:+ "/" +:+ b)) in H. by injection H.
Qed.

Lemma od_get_map {V W} (f : V → W) k (d : list (string * V)) : od_get k (map (λ kv, (kv.1, f kv.2)) d) = f <$> od_get k d.
Proof. induction d as [|[k' v] d IH]; [done|]. cbn. case_decide; [done|apply IH]. Qed.

Section sealed.
Context (str_container : pyval → string) (sha : string → string) (jwt_decode : string → string → string → result document).
#[local] Abbreviation text := (py_str str_container).

(** An attestation that the evidence request vouches for: its token verifies under a key whose digest the request
    binds to the name of the key file of the policy; the artifact is a file of the evidence directory. *)
Record sealed (fs : files) (root : string) (bound : list (string * string)) (policy : document)
    (kind release revision request requester : string) (claims : document) (subject : string) : Prop := {
  se_key : ∃ token key, od_get (key_name_of str_container policy) bound = Some (sha key) ∧
    jwt_decode token key (text (get "trusted_issuer" policy)) = Ok claims;
  se_subject : ∃ v l, od_get "sub" claims = Some v ∧ text v = subject ∧ py_iter (get "approved_subjects" policy) = Ok l ∧ subject ∈ map text l;
  se_independent : subject ≠ "" → subject ≠ requester;
  se_bound : get "kind" claims = VStr kind ∧ get "release_id" claims = VStr release ∧ get "source_revision" claims = VStr revision ∧
    text (get "request_sha256" claims) = request ∧ get "status" claims = VStr "PASS";
  se_artifact : ∃ path content, is_under root path = true ∧ fs !! path = Some content ∧ text (get "artifact_sha256" claims) = sha content
}.

(** The vote of an owner role *)
Definition sealed_vote (fs : files) (root : string) (bound : list (string * string)) (owners : document)
    (release revision request requester : string) (v : string * (string * document)) : Prop :=
  ∃ policy, get v.1 owners = VDict policy ∧
    sealed fs root bound policy "human_acceptance_vote" release revision request requester v.2.2 v.2.1 ∧
    get "role" v.2.2 = VStr v.1 ∧ get "decision" v.2.2 = VStr "ACCEPT" ∧ text (get "actor" v.2.2) = v.2.1 ∧ v.2.1 ≠ "".

(** The penetration test and the three votes, for a trust policy *)
Definition vouched (fs : files) (root : string) (bound : list (string * string)) (policy : document)
    (release revision request requester : string) : Prop :=
  ∃ pp owners claims tester votes,
    get "penetration_test" policy = VDict pp ∧ get "human_acceptance" policy = VDict owners ∧
    sealed fs root bound pp "penetration_test" release revision request requester claims tester ∧ check_penetration claims = Ok tt ∧
    NoDup (map fst votes) ∧ list_to_set (map fst votes) = HUMAN_ROLES ∧ NoDup (map (λ v, v.2.1) votes) ∧
    Forall (sealed_vote fs root bound owners release revision request requester) votes.
End sealed.

Section proofs.
Context (str_container : pyval → string) (sha : string → string) (exn_text : exn → string).
Context (jwt_decode : string → string → string → result document) (loads : string → result pyval).
Context (b64decode : string → result string) (resolve : string → string).
Context (dir root : string) (bound : list (string * string)) (fs0 : files).
(** The temporary directory is outside the evidence directory, and no bound input is named like a token in it *)
Hypothesis Hdir : ∀ n, is_under root (in_dir dir n) = false.
Hypothesis Hnames : ∀ i, od_get (token_name i) bound = None.
#[local] Abbreviation text := (py_str str_container).

(** The files of the evidence directory are untouched, and the keys are where their paths say *)
Record written (fs : files) (keys : list (string * string)) : Prop := {
  wr_root : ∀ p, is_under root p = true → fs !! p = fs0 !! p;
  wr_keys : ∀ n p, od_get n keys = Some p → p = in_dir dir n ∧ ∃ key, fs !! p = Some key ∧ od_get n bound = Some (sha key)
}.

Lemma add_key_written st kv st' : written st.1 st.2 → add_key str_container sha b64decode bound dir st kv = Ok st' → written st'.1 st'.2.
Proof using Hdir.
  destruct st as [fs keys], kv as [name raw]. intros [H1 H2]. unfold add_key, mbind, result_bind. destruct raw as [| | | | | | |raw]; try done.
  destruct (raise_if _ _); [|done]. destruct (b64decode _) as [key|]; [|done]. destruct (raise_if _ _); [|done].
  match goal with |- context [raise_if ?b ?e] => destruct (raise_if b e) as [[]|] eqn:Eb; [|done] end.
  apply guard_last, negb_false_iff, bool_decide_eq_true in Eb. destruct (raise_if _ _); [|done]. intros [= <-]. cbn [fst snd] in *. split.
  - intros p Hp. rewrite lookup_insert_ne; [by apply H1|]. intros <-. by rewrite Hdir in Hp.
  - intros n p. destruct (decide (name = n)) as [->|Hn].
    + rewrite od_get_set_eq. intros [= <-]. split; [done|]. exists key. by rewrite lookup_insert_eq.
    + rewrite od_get_set_ne by done. intros Hp. destruct (H2 n p Hp) as (-> & k & Hk & Hb). split; [done|]. exists k.
      rewrite lookup_insert_ne; [done|]. intros He%in_dir_inj. done.
Qed.

Definition artifact_under (p : string) : Prop := is_under root p = true.

Record rebuilt (keys : list (string * string)) (st : entries_state) : Prop := {
  rb_written : written (es_files st) keys;
  rb_pen : ∀ pen, es_penetration st = Some pen → entry_in str_container artifact_under pen;
  rb_sigs : ∀ e, VDict e ∈ es_signatures st → entry_in str_container artifact_under e
}.

Lemma add_entry_rebuilt keys st entry st' : rebuilt keys st →
  add_entry str_container sha resolve keys dir root st entry = Ok st' → rebuilt keys st'.
Proof using Hdir Hnames.
  destruct entry as [i v]. intros [[H1 H2] Hp Hs]. unfold add_entry, mbind, result_bind. cbn [fst snd]. destruct v as [| | | | | | |e]; try done.
  destruct (raise_if _ _); [|done]. destruct (of_option _ _) as [kp|]; [|done].
  match goal with |- context [raise_if ?b ?e] => destruct (raise_if b e) as [[]|] eqn:Eu; [|done] end.
  apply guard_last, negb_false_iff in Eu. destruct (raise_if _ _); [|done]. intros [= <-].
  set (fs := <[in_dir dir (token_name i) := _]> (es_files st)).
  assert (written fs keys) as Hw.
  { split.
    - intros p Hu. unfold fs. rewrite lookup_insert_ne; [by apply H1|]. intros <-. by rewrite Hdir in Hu.
    - intros n p Hn. destruct (H2 n p Hn) as (-> & k & Hk & Hb). split; [done|]. exists k. unfold fs. rewrite lookup_insert_ne; [done|].
      intros <-%in_dir_inj. by rewrite Hnames in Hb. }
  destruct (py_eq _ _); split; cbn [es_files es_penetration es_signatures]; try done.
  - intros pen [= <-] p. cbn. by intros [= <-].
  - intros e' [He|He%list_elem_of_singleton]%elem_of_app; [by apply Hs|]. injection He as ->. intros p. cbn. by intros [= <-].
Qed.

(** From the reconstructed policy and the temporary files back to the embedded policy and the request *)
Lemma signed_sealed fs keys policy kind release revision request requester claims subject : written fs keys →
  complete (rewrite_key str_container keys policy) →
  signed str_container sha jwt_decode artifact_under fs (rewrite_key str_container keys policy) kind release revision request
    (if bool_decide (requester = "") then None else Some requester) claims subject →
  sealed str_container sha jwt_decode fs0 root bound policy kind release revision request requester claims subject.
Proof using Type.
  intros [Hw1 Hw2] Hc [H1 H2 H3 H4 H5]. unfold rewrite_key, get in *.
  rewrite od_get_set_eq in H1. rewrite od_get_set_ne in H1, H2 by done. split.
  - destruct H1 as (path & raw & key & _ & Hk & Hj). cbn in Hk. specialize (Hc "public_key_file" ltac:(unfold policy_fields; clear; set_solver)).
    unfold get in Hc. rewrite od_get_set_eq in Hc. cbn in Hc. destruct (od_get (key_name_of str_container policy) keys) as [p|] eqn:Ep; [|done].
    destruct (Hw2 _ _ Ep) as (-> & k & Hk' & Hb). cbn in Hk. rewrite Hk in Hk'. injection Hk' as ->. by exists (py_strip raw), k.
  - done.
  - intros Hne ->. by rewrite bool_decide_false in H3.
  - done.
  - destruct H5 as (path & content & Ha & Hf & Hd). exists path, content. split_and!; try done. by rewrite <-Hw1.
Qed.

Lemma reconstructed_sections keys policy :
  (∀ pp', get "penetration_test" (reconstructed_policy str_container keys policy) = VDict pp' →
     ∃ pp, get "penetration_test" policy = VDict pp ∧ pp' = rewrite_key str_container keys pp) ∧
  (∀ owners', get "human_acceptance" (reconstructed_policy str_container keys policy) = VDict owners' →
     ∃ owners, get "human_acceptance" policy = VDict owners ∧
       ∀ r p', get r owners' = VDict p' → ∃ p, get r owners = VDict p ∧ p' = rewrite_key str_container keys p).
Proof using Type.
  unfold reconstructed_policy. set (p1 := match get "penetration_test" policy with VDict _ => _ | _ => _ end).
  assert (get "human_acceptance" p1 = get "human_acceptance" policy) as Hh by (unfold p1, get; case_match; try done; by rewrite od_get_set_ne).
  assert (∀ pp', get "penetration_test" p1 = VDict pp' → ∃ pp, get "penetration_test" policy = VDict pp ∧ pp' = rewrite_key str_container keys pp) as Hp.
  { intros pp'. unfold p1. destruct (get "penetration_test" policy) as [| | | | | | |pp] eqn:E; rewrite ?E; try done.
    unfold get. rewrite od_get_set_eq. intros [= <-]. by exists pp. }
  rewrite Hh. destruct (get "human_acceptance" policy) as [| | | | | | |owners] eqn:Eo; try (rewrite Hh; split; [done|intros ? Hx; congruence]). split.
  - intros pp' H. apply Hp. unfold get in *. by rewrite od_get_set_ne in H.
  - intros owners' H. unfold get in H. rewrite od_get_set_eq in H. injection H as <-. exists owners. split; [done|]. intros r p'.
    unfold get. rewrite od_get_map. destruct (od_get r owners) as [v|]; [|done]. cbn. destruct v; try done. intros [= <-]. by eexists.
Qed.
End proofs.

Lemma bundle_binding str_container sha exn_text jwt_decode fs cfg request policy b :
  verify_attestation_bundle str_container sha exn_text jwt_decode fs cfg request (Some policy) = Ok b →
  bu_release b = py_str str_container (get "release_id" cfg) ∧ bu_revision b = py_str str_container (get "source_revision" cfg).
Proof.
  unfold verify_attestation_bundle, mbind, result_bind, item, of_option. destruct (apply_trust_policy _ cfg policy) as [cfg'|] eqn:Ep; [|done].
  apply (apply_trust_policy_spec _ (λ _, True)) in Ep as (_ & _ & Hkeep); [|by split; repeat intros ?].
  rewrite !Hkeep by done. unfold get. destruct (od_get "release_id" cfg) as [rel|]; [|done]. destruct (od_get "source_revision" cfg) as [rev|]; [|done].
  cbv beta iota zeta. match goal with |- (match ?x with Ok _ => _ | Err _ => _ end) = _ → _ => destruct x; [|done] end. by intros [= <-].
Qed.

(** Material that verifies as PASS: the embedded trust policy and the keys are inputs of the evidence request, and the
    penetration test and the owners' votes under that policy are vouched for. *)
Lemma verification_material_sound str_container sha exn_text jwt_decode loads b64decode resolve
    (Hsha : ∀ s, sha s ≠ "") fs dir material evidence_root release revision requester request bound b d :
  (∀ n, is_under (resolve evidence_root) (in_dir dir n) = false) → (∀ i, od_get (token_name i) bound = None) → request ≠ "" →
  verify_verification_material str_container sha exn_text jwt_decode loads b64decode resolve fs dir material evidence_root
    release revision requester request bound = Ok (b, d) → bu_status b = "PASS" →
  ∃ name content policy, od_get name bound = Some (sha content) ∧ loads content = Ok (VDict policy) ∧ d = sha content ∧
    vouched str_container sha jwt_decode fs (resolve evidence_root) bound policy release revision request requester.
Proof.
  intros Hdir Hnames Hr. unfold verify_verification_material, embedded_policy, mbind, result_bind.
  destruct (raise_if _ _); [|done]. destruct (b64decode _) as [content|]; [|done]. destruct (raise_if _ _); [|done].
  match goal with |- context [raise_if ?b ?e] => destruct (raise_if b e) as [[]|] eqn:Eb; [|done] end.
  apply guard_last, negb_false_iff, bool_decide_eq_true in Eb. destruct (loads content) as [[| | | | | | |policy]|] eqn:El; try done.
  destruct (embedded_entries _ _) as [[ks entries]|]; [|done]. cbn [fst snd].
  destruct (foldM_result (add_key _ _ _ _ _) _ _) as [[fs1 keys]|] eqn:Ek; [|done].
  assert (written sha dir (resolve evidence_root) bound fs fs1 keys) as Hw.
  { apply (foldM_result_inv _ (λ st, written sha dir (resolve evidence_root) bound fs st.1 st.2)) in Ek; [done| |by split].
    intros st kv st' _ Hst Hadd. by eapply add_key_written. }
  destruct (foldM_result (add_entry _ _ _ _ _ _) _ _) as [es|] eqn:Ee; [|done].
  assert (rebuilt str_container sha dir (resolve evidence_root) bound fs keys es) as [Hw2 Hpen Hsig].
  { apply (foldM_result_inv _ (rebuilt str_container sha dir (resolve evidence_root) bound fs keys)) in Ee; [done| |].
    - intros st en st' _ Hst Hadd. by eapply add_entry_rebuilt.
    - split; [done|done|]. intros e He. by apply elem_of_nil in He. }
  destruct (es_penetration es) as [pen|] eqn:Ep; [|done].
  destruct (verify_attestation_bundle _ _ _ _ _ _ _ _) as [b'|] eqn:Ev; [|done]. intros [= -> <-] Hs. exists (text_or str_container "trust_policy_name" "" material), content, policy.
  split_and!; try done. destruct (bundle_binding _ _ _ _ _ _ _ _ _ Ev) as [Hrel Hrev]. cbn in Hrel, Hrev.
  apply (attestation_bundle_sound _ _ _ _ Hsha (artifact_under (resolve evidence_root)) _ _ _ _ _ Hr) in Ev as (pp' & owners' & claims & subject & votes & G1 & G2 & G3 & _ & Hsg & Hck & [[Hv1 Hv2] Hv3 Hv4]); [| |done].
  2:{ split; [intros p [= <-]; by apply Hpen|]. intros h [= <-] l e [= <-]. apply Hsig. }
  rewrite Hrel, Hrev in *. change (py_str _ (default _ (od_get "release_requester" _))) with requester in *.
  destruct (reconstructed_sections str_container keys policy) as [R1 R2]. destruct (R1 _ G1) as (pp & Hpp & ->). destruct (R2 _ G3) as (owners & Ho & Hown).
  exists pp, owners, claims, subject, votes. split_and!; try done; [by eapply signed_sealed|].
  eapply Forall_impl; [exact Hv4|]. intros [role [s c]] (p' & Hg & Hc & Hsv & K1 & K2 & K3 & K4). cbn [fst snd] in *.
  destruct (Hown _ _ Hg) as (p & Hp & ->). exists p. split_and!; try done. by eapply signed_sealed.
Qed.

(** ** Issuing an attestation *)

Definition ATTESTATION_KINDS : list string := ["penetration_test"; "human_acceptance"; "human_acceptance_vote"].
(** Seconds since the epoch, as the JWT library writes a time *)
Definition timestamp (t : datetime) : Z := us t / 1000000.
(** [claims.get("role") not in HUMAN_ROLES]: a list or a dict cannot be hashed *)
Definition owner_role (v : pyval) : result bool :=
  match v with VStr r => Ok (bool_decide (r ∈ HUMAN_ROLES)) | VList _ | VDict _ => Err TypeError | _ => Ok false end.

Section issue.
Context (str_container : pyval → string) (sha : string → string) (iso : datetime → string).
Context (jwt_encode : document → string → option string → string).
(** the mode bits of a file *)
Context (mode : string → Z).
Context (loads : string → result pyval) (digest : request_body → string) (fromisoformat : string → result datetime).
Context (b64encode : string → string) (resolve : string → string).
#[local] Abbreviation text := (py_str str_container).
#[local] Abbreviation field := (text_or str_container).

Definition attestation_payload (kind issuer subject release revision request artifact : string) (claims : document) (issued : datetime) (valid_for : Z) : document :=
  foldl (λ acc kv, od_set kv.1 kv.2 acc)
    [("iss", VStr issuer); ("aud", VStr "computeweaver-release-gate"); ("sub", VStr subject); ("iat", VInt (timestamp issued));
     ("exp", VInt (timestamp (dt_add issued valid_for)));
     ("jti", VStr (sha (issuer +:+ ":" +:+ subject +:+ ":" +:+ kind +:+ ":" +:+ release +:+ ":" +:+ request +:+ ":" +:+ iso issued)));
     ("kind", VStr kind); ("release_id", VStr release); ("source_revision", VStr revision); ("request_sha256", VStr request);
     ("artifact_sha256", VStr artifact); ("status", VStr "PASS")] claims.

Definition check_issued_claims (kind subject : string) (claims : document) : result unit :=
  raise_if (bool_decide (kind = "penetration_test") && match get "open_findings" claims with VDict _ => false | _ => true end)
    (ValueError "penetration test finding summary is required");;
  if bool_decide (kind = "human_acceptance_vote") then
    role ← owner_role (get "role" claims);
    raise_if (negb role || negb (py_eq (get "decision" claims) (VStr "ACCEPT")))
      (ValueError "human acceptance vote requires an approved owner role and ACCEPT");;
    raise_if (negb (py_eq (get "actor" claims) (VStr subject))) (PermissionError "human acceptance vote actor must match signing subject")
  else Ok tt.

Definition issue_attestation (fs : files) (kind issuer subject key_path release revision request artifact : string) (claims : document)
    (key_id : option string) (issued : datetime) (valid_for : Z) : result string :=
  raise_if (negb (aware issued)) (ValueError "attestation issue time must be timezone-aware");;
  raise_if (negb (immutable_revision revision)) (ValueError "attestations require an immutable source revision");;
  raise_if (negb (mem kind ATTESTATION_KINDS)) (ValueError "unsupported attestation kind");;
  raise_if (mem "" [issuer; subject; release]) (ValueError "attestation identity and release fields are required");;
  raise_if (negb (is_sha256 request) || negb (is_sha256 artifact)) (ValueError "attestation evidence digests are invalid");;
  raise_if ((valid_for <=? 0) || (month <? valid_for)) (ValueError "attestation validity must be within 30 days");;
  key ← read_file fs key_path;
  raise_if (negb (Z.land (Z.land (mode key_path) 4095) 63 =? 0)) (PermissionError "attestation private key must not be group/world accessible");;
  check_issued_claims kind subject claims;;
  Ok (jwt_encode (attestation_payload kind issuer subject release revision request artifact claims issued valid_for) key (key_header key_id)).

(** [path.exists()] and the exclusive creation *)
Definition write_attestation (path token : string) : M files string := λ fs,
  if is_file fs path then (fs, Err os_error)
  else (<[path := token +:+ line_end]> fs, Ok (sha (token +:+ line_end))).

Definition check_configured (cfg : document) (fa : string * string) : result unit :=
  raise_if (match get fa.1 cfg with VNone => false | v => negb (bool_decide (text v = fa.2)) end)
    (ValueError ("attestation " +:+ fa.1 +:+ " does not match its bound evidence")).

Definition issue_attestation_from_config (fs : files) (cfg : document) (now : datetime) : result string :=
  rp ← item "request_file" cfg;
  problem ← verify_evidence loads sha fs (text rp);
  raise_if (match problem with Some _ => true | None => false end) (ValueError ("evidence request integrity check failed: " +:+ opt_text problem));;
  content ← read_file fs (text rp);
  v ← loads content;
  q ← (match v with VDict d => request_from_document fromisoformat str_container d | _ => Err TypeError end);
  ok ← verify_evidence_request iso digest q now;
  raise_if (negb ok) (ValueError "evidence request is expired or its request digest is invalid");;
  ap ← item "artifact_file" cfg;
  artifact ← read_file fs (text ap);
  foldM_result (λ _ fa, check_configured cfg fa)
    [("release_id", rq_release q); ("source_revision", rq_revision q); ("request_sha256", rq_sha256 q); ("artifact_sha256", sha artifact)] tt;;
  kind ← item "kind" cfg; issuer ← item "issuer" cfg; subject ← item "subject" cfg; key ← item "private_key_file" cfg;
  claims ← dict_of (default (VDict []) (od_get "claims" cfg));
  hours ← py_int (default (VInt 168) (od_get "valid_for_hours" cfg));
  issue_attestation fs (text kind) (text issuer) (text subject) (text key) (rq_release q) (rq_revision q) (rq_sha256 q) (sha artifact) claims
    (if py_bool (get "key_id" cfg) then Some (text (get "key_id" cfg)) else None) now (hours * 3600000000).

(** ** build_verification_material *)

Definition evidence_reference (path root : string) : result string :=
  let root := resolve root in
  let path := resolve path in
  if is_under root path then Ok (String.concat "/" (drop (length (path_parts root)) (path_parts path)))
  else Err (ValueError ("attestation artifact must be stored under " +:+ root)).

Record material_state := MkMaterial { ms_entries : list pyval; ms_keys : document }.

Definition material_entry (fs : files) (root : string) (kind : string) (role : option string) (raw : document) (st : material_state) : result material_state :=
  tk ← item "token_file" raw; kf ← item "public_key_file" raw; af ← item "artifact_file" raw;
  let name := path_name (text kf) in
  key ← read_file fs (text kf);
  let encoded := VStr (b64encode key) in
  raise_if (match od_get name (ms_keys st) with Some (VDict e) => negb (py_eq (get "pem_b64" e) encoded) | _ => false end)
    (ValueError ("attestation public key names must be unique: " +:+ name));;
  token ← read_file fs (text tk);
  reference ← evidence_reference (text af) root;
  artifact ← read_file fs (text af);
  let entry := [("kind", VStr kind); ("token", VStr (py_strip token)); ("token_sha256", VStr (sha (py_strip token))); ("artifact", VStr reference);
                ("artifact_sha256", VStr (sha artifact)); ("public_key_name", VStr name)] in
  Ok (MkMaterial (ms_entries st ++ [VDict (if given role then od_set "role" (VStr (default "" role)) entry else entry)])
        (od_set name (VDict [("pem_b64", encoded); ("sha256", VStr (sha key))]) (ms_keys st))).

Definition material_signature (fs : files) (root : string) (st : material_state) (v : pyval) : result material_state :=
  match v with
  | VDict s => material_entry fs root "human_acceptance_vote" (Some (field "role" "" s)) s st
  | _ => Err (ValueError "human acceptance signature entry is invalid")
  end.

Definition build_verification_material (fs : files) (cfg : document) (policy_path root : string) : result document :=
  content ← read_file fs policy_path;
  v ← loads content;
  match v with
  | VDict policy =>
      resolved ← apply_trust_policy str_container cfg policy;
      st ← (match get "penetration_test" resolved with
            | VDict pen => material_entry fs root "penetration_test" None pen (MkMaterial [] [])
            | _ => Ok (MkMaterial [] [])
            end);
      st ← (match get "human_acceptance" resolved with
            | VDict human => match get "signatures" human with VList l => foldM_result (material_signature fs root) l st | _ => Ok st end
            | _ => Ok st
            end);
      Ok [("schema_version", VStr "1.0.0"); ("trust_policy_name", VStr (path_name policy_path)); ("trust_policy_b64", VStr (b64encode content));
          ("trust_policy_sha256", VStr (sha content)); ("public_keys", VDict (ms_keys st)); ("entries", VList (ms_entries st))]
  | _ => Err (ValueError "attestation trust policy must be a JSON object")
  end.
End issue.

(** ** An issued attestation verifies *)

Definition reserved_claims : list string :=
  ["iss"; "aud"; "sub"; "iat"; "exp"; "jti"; "kind"; "release_id"; "source_revision"; "request_sha256"; "artifact_sha256"; "status"].

Lemma od_get_update k (d claims : document) : NoDup claims.*1 → od_get k (foldl (λ acc kv, od_set kv.1 kv.2 acc) d claims) =
  match od_get k claims with Some v => Some v | None => od_get k d end.
Proof.
  revert d. induction claims as [|[k' v] l IH]; intros d; [done|]. cbn [foldl fst snd fmap list_fmap]. intros [Hk Hl]%NoDup_cons. rewrite IH by done. cbn.
  case_decide as Hd; [subst; rewrite (proj2 (od_get_None _ _) Hk); apply od_get_set_eq|]. by rewrite od_get_set_ne.
Qed.

Lemma strip_line s : no_space s → py_strip (s +:+ line_end) = s.
Proof.
  intros H. destruct (decide (s = "")) as [->|Hs]; [reflexivity|]. assert (String.list_ascii_of_string s ≠ []) as Hl by by destruct s.
  rewrite <-(no_space_strip s H) at 2. unfold py_strip. rewrite chars_app. change (String.list_ascii_of_string line_end) with [chr 10].
  rewrite drop_no_space by done. rewrite rev_app_distr. cbn [rev app drop_while]. assert (is_space (chr 10) = true) as -> by reflexivity.
  rewrite <-(app_nil_r (String.list_ascii_of_string s)) at 2. rewrite drop_no_space, app_nil_r by done. done.
Qed.

Section issued.
Context (str_container : pyval → string) (sha : string → string) (iso : datetime → string) (exn_text : exn → string).
Context (jwt_encode : document → string → option string → string) (jwt_decode : string → string → string → result document) (mode : string → Z).
#[local] Abbreviation text := (py_str str_container).

(** An attestation that was issued and written to a new file passes its verification: for claims that do not use the
    reserved names, an expectation of its release, revision, issuer, request and artifact that approves the signer and
    a requester other than the signer; a vote needs nothing more, the content of the other kinds is checked only then.
    (The JWT library decodes what it encoded, and a token has no white space.) *)
Theorem issued_attestation_verifies (fs : files) (kind issuer subject key_path release revision request artifact : string) (claims : document)
    (key_id : option string) (issued : datetime) (valid_for : Z) (token : string) (x : expectation) (path public_path pub : string)
    (Hissue : issue_attestation sha iso jwt_encode mode fs kind issuer subject key_path release revision request artifact claims key_id issued valid_for = Ok token)
    (Hpub : fs !! public_path = Some pub) (Hnew : fs !! path = None)
    (Hjwt : jwt_decode token pub issuer = Ok (attestation_payload sha iso kind issuer subject release revision request artifact claims issued valid_for))
    (Htoken : no_space token) (Hdict : NoDup claims.*1) (Hclaims : ∀ k, k ∈ reserved_claims → od_get k claims = None)
    (Hx : ex_release x = release ∧ ex_revision x = revision ∧ ex_issuer x = issuer ∧ ex_request x = Some request ∧ ex_artifact x = Some artifact)
    (Happroved : subject ∈ ex_subjects x) (Hindep : ex_requester x ≠ Some subject)
    (Hkind : kind ≠ "human_acceptance_vote" →
       check_kind str_container kind subject x (attestation_payload sha iso kind issuer subject release revision request artifact claims issued valid_for) = Ok tt) :
  let fs' := (write_attestation sha path token fs).1 in
  ∃ a, verify_attestation str_container sha exn_text jwt_decode fs' kind path public_path x = Ok a ∧ at_status a = "PASS" ∧ at_subject a = Some subject ∧
    is_Some (at_expires a).
Proof using Type.
  intros fs'. revert Hissue. unfold issue_attestation.
  intros (u1 & _ & (u2 & _ & (u3 & _ & (u4 & E4 & (u5 & E5 & (u6 & _ & (key & _ & (u8 & _ & (u9 & E9 & Htok)%bind_ok)%bind_ok)%bind_ok)%bind_ok)%bind_ok)%bind_ok)%bind_ok)%bind_ok)%bind_ok.
  destruct u4, u5, u9. apply guard_last in E4, E5. clear u1 u2 u3 u6 u8 Htok. apply orb_false_iff in E5 as [E5 E6]. apply negb_false_iff in E5, E6.
  set (payload := attestation_payload sha iso kind issuer subject release revision request artifact claims issued valid_for) in *.
  assert (∀ k, od_get k payload = match od_get k claims with Some v => Some v | None =>
    od_get k (attestation_payload sha iso kind issuer subject release revision request artifact [] issued valid_for) end) as Hpay by by intros k; apply od_get_update.
  assert (∀ k, k ∈ reserved_claims → get k payload = get k (attestation_payload sha iso kind issuer subject release revision request artifact [] issued valid_for)) as Hres.
  { intros k Hk. unfold get. by rewrite Hpay, Hclaims. }
  destruct Hx as (X1 & X2 & X3 & X4 & X5). assert (fs' !! path = Some (token +:+ line_end) ∧ fs' !! public_path = Some pub) as [F1 F2].
  { unfold fs', write_attestation, is_file. rewrite bool_decide_false by (rewrite Hnew; by intros []). cbn. split; [apply lookup_insert_eq|].
    rewrite lookup_insert_ne; [done|]. intros ->. congruence. }
  assert (get "kind" payload = VStr kind ∧ get "release_id" payload = VStr release ∧ get "source_revision" payload = VStr revision ∧
    get "request_sha256" payload = VStr request ∧ get "artifact_sha256" payload = VStr artifact ∧ get "status" payload = VStr "PASS")
    as (P1 & P2 & P3 & P4 & P5 & P6) by by split_and!; (rewrite Hres by (apply mem_true; reflexivity)).
  assert (∀ s, py_eq (VStr s) (VStr s) = true) as Heq by by intros s'; apply py_eq_str.
  assert (check_binding str_container kind subject x payload = Ok tt) as Hb.
  { unfold check_binding. rewrite !guard_passed, guard_last, P1, P2, P3, P4, P5, P6, X1, X2, X4, X5, !Heq. cbn [py_str].
    rewrite E5, E6, !bool_decide_true by done. split_and!; try done; try apply andb_false_r. rewrite bool_decide_false by congruence. apply andb_false_r. }
  assert (check_kind str_container kind subject x payload = Ok tt) as Hk.
  { destruct (decide (kind = "human_acceptance_vote")) as [->|]; [|by apply Hkind].
    assert (get "role" payload = get "role" claims ∧ get "decision" payload = get "decision" claims ∧ get "actor" payload = get "actor" claims) as (K1 & K2 & K3).
    { unfold get. rewrite !Hpay. by split_and!; destruct (od_get _ claims). }
    revert E9. unfold check_issued_claims. rewrite (bool_decide_false (_ = "penetration_test")), bool_decide_true by done. cbn [andb raise_if].
    intros (? & _ & (role & Er & H)%bind_ok)%bind_ok. apply guard_passed in H as [H1 H2%guard_last].
    apply orb_false_iff in H1 as [Hr H1]. apply negb_false_iff in Hr, H1, H2. apply py_eq_str in H1, H2. subst role.
    unfold check_kind. rewrite !bool_decide_false, bool_decide_true by done. unfold check_vote. rewrite !guard_passed, guard_last, K1, K2, K3, H1, H2.
    destruct (get "role" claims) as [| | | | |r| |]; try done. injection Er as Er. cbn [py_str]. rewrite Er, Heq, (bool_decide_true (subject = subject)) by done.
    apply mem_false in E4. rewrite (bool_decide_false (subject = "")) by (intros ->; apply E4; by right; left). split_and!; try done.
    rewrite bool_decide_false by congruence. apply andb_false_r. }
  unfold verify_attestation, is_file. rewrite F1, F2. cbn [negb orb is_Some]. rewrite !bool_decide_true by eauto. cbn [negb orb].
  assert (item "sub" payload = Ok (VStr subject) ∧ item "exp" payload = Ok (VInt (timestamp (dt_add issued valid_for)))) as [I1 I2].
  { unfold item. by rewrite !Hpay, !Hclaims by (apply mem_true; reflexivity). }
  unfold attested, read_file. rewrite F1, F2, X3. unfold mbind, result_bind, of_option. rewrite strip_line, Hjwt, I1 by done. cbn [py_str].
  rewrite Hb, Hk, I2. cbn [float_of_val fromtimestamp].
  eexists. split; [done|]. by eauto.
Qed.
End issued.

(** The claims come last in the payload: a claim with a reserved name replaces the value that was checked, such as the
    expiry that may be at most 30 days away, the release or the subject. *)
Theorem issued_claims_override (sha : string → string) (iso : datetime → string) (kind issuer subject release revision request artifact : string)
    (issued : datetime) (valid_for : Z) (k : string) (v : pyval) :
  get k (attestation_payload sha iso kind issuer subject release revision request artifact [(k, v)] issued valid_for) = v.
Proof. unfold get, attestation_payload. rewrite od_get_update by (repeat constructor; by intros ?%elem_of_nil). cbn. by rewrite decide_True. Qed.

(** ** Material that was built from a bundle verifies *)

Definition built_fs : files := <["e/report" := "text"]> (<["policy.json" := "policy"]> toy_fs).
Definition built_bundle (ops : string) : document :=
  let entry token role := VDict [("token_file", VStr token); ("artifact_file", VStr "e/report"); ("role", VStr role)] in
  [("penetration_test", VDict [("token_file", VStr "t0"); ("artifact_file", VStr "e/report")]);
   ("human_acceptance", VDict [("signatures", VList [entry "t1" "product_owner"; entry "t2" "security_owner"; entry ops "operations_owner"])])].
Definition built_loads (content : string) : result pyval :=
  if bool_decide (content = "policy") then Ok (VDict toy_policy) else Err (ValueError "Expecting value").
Definition built_verified (ops : string) : result string :=
  material ← build_verification_material (λ _, "") toy_sha built_loads id id built_fs (built_bundle ops) "policy.json" "e";
  r ← verify_verification_material (λ _, "") toy_sha (λ _, "error") toy_jwt built_loads Ok id built_fs "tmp" material "e" "r1" "abcdef0" "dan" (toy_sha "")
        [("policy.json", toy_sha ""); ("k.pem", toy_sha "")];
  Ok (bu_status r.1).
Example built_samples : map built_verified ["t3"; "t4"; "t9"] = [Ok "PASS"; Ok "FAIL"; Err os_error].
Proof. vm_compute. reflexivity. Qed.
