(* ===== verification/Release.v ===== *)
(** * A release certified from the evidence on disk

    [packages/certification/service.py]: the nine gates of [evaluate_production_evidence], the hashes and the summary
    that go into the certificate, and [evaluate_release_from_evidence].  The clock is read once.  Parameters: those of
    Material and Evidence, and the XML parser. *)
From S2P Require Import Prelude PyDecimal PyValue PyText Certification Settings Domain Access Actions Attestation Evidence Material.
Local Open Scope Z_scope.

Definition xml_error : exn := OtherError "ParseError".
Definition attribute_error : exn := OtherError "AttributeError".

(** [all(f(x) for x in l)] and [a and b], which stop at the first false *)
Fixpoint all_result {A} (f : A → result bool) (l : list A) : result bool :=
  match l with [] => Ok true | x :: l' => match f x with Ok true => all_result f l' | r => r end end.
Definition and_then (a b : result bool) : result bool := match a with Ok true => b | _ => a end.

Definition tag (e : element) : string := match e with Element t _ _ _ => t end.
Definition attribute (name : string) (e : element) : option string := match e with Element _ a _ _ => od_get name a end.
Definition children (e : element) : list element := match e with Element _ _ _ l => l end.

Definition truthy (d : option document) : bool := match d with Some (_ :: _) => true | _ => false end.
Definition field_of (k : string) (d : option document) : pyval := match d with Some d => get k d | None => VNone end.
Definition is_true (v : pyval) : bool := match v with VBool true => true | _ => false end.

(** [GIT_OBJECT_ID.fullmatch] of a text *)
Definition git_object_id (v : pyval) : bool :=
  match v with
  | VStr s => ((String.length s =? 40)%nat || (String.length s =? 64)%nat) && forallb is_hex (String.list_ascii_of_string s)
  | _ => false
  end.
Definition is_sha256_val (v : pyval) : bool := match v with VStr s => is_sha256 s | _ => false end.

Definition MAX_XML_EVIDENCE_BYTES : Z := 20 * 1024 * 1024.

(** [evidence_root / relative] *)
Definition at_root (root relative : string) : string := in_dir root relative.
(** [f"B{batch:02d}"] *)
Definition batch_name (n : Z) : string := "B" +:+ (if n <? 10 then "0" else "") +:+ int_str n.
Definition batches (first last : Z) : list Z := seqZ first (last - first).

Section release.
Context (str_container : pyval → string) (sha : string → string) (exn_text : exn → string).
Context (jwt_decode : string → string → string → result document) (loads : string → result pyval).
Context (b64decode : string → result string) (resolve : string → string).
Context (iso : datetime → string) (request_digest : request_body → string) (fromisoformat : string → result datetime) (dt_str : datetime → string).
Context (parse_xml : string → result element) (float_val : pyfloat → pyval) (digest : cert_body → string).
#[local] Abbreviation text := (py_str str_container).

(** ** Documents and test reports *)

Definition safe_xml_root (fs : files) (p : string) : result element :=
  content ← read_file fs p;
  raise_if (MAX_XML_EVIDENCE_BYTES <? Z.of_nat (String.length content)) (ValueError "XML evidence exceeds the 20 MiB limit");;
  let upper := str_upper content in
  raise_if (str_in "<!DOCTYPE" upper || str_in "<!ENTITY" upper) (ValueError "XML evidence cannot contain DTD or entity declarations");;
  parse_xml content.

Definition suites_of (root : element) : list element :=
  if bool_decide (tag root = "testsuite") then [root] else base.filter (λ e, tag e = "testsuite") (children root).
Definition suite_int (name : string) (e : element) : result Z := py_int (VStr (default "0" (attribute name e))).
Definition sum_of (name : string) (suites : list element) : result Z := l ← mapM_result (suite_int name) suites; Ok (foldl Z.add 0 l).

(** [except (OSError, ET.ParseError, ValueError)] *)
Definition xml_caught (e : exn) : bool := unparsable e || bool_decide (e = xml_error).

Definition junit_checked (fs : files) (p : string) : result bool :=
  root ← safe_xml_root fs p;
  let suites := suites_of root in
  and_then (Ok (negb (bool_decide (length suites = 0%nat))))
    (and_then (n ← sum_of "tests" suites; Ok (0 <? n))
       (all_result (λ e, all_result (λ name, n ← suite_int name e; Ok (n =? 0)) ["failures"; "errors"; "skipped"]) suites)).
Definition junit_pass (fs : files) (p : string) : result bool :=
  match junit_checked fs p with Err e => if xml_caught e then Ok false else Err e | r => r end.

(** [_document] and [_verified_document] *)
Definition document_at (fs : files) (p : string) : result (option document) :=
  match fs !! p with
  | None => Ok None
  | Some content =>
      match loads content with
      | Ok (VDict d) => Ok (Some d)
      | Ok _ => Ok None
      | Err (ValueError _) => Ok None
      | Err e => Err e
      end
  end.
Definition verified_document (fs : files) (p : string) : result (option document) :=
  problem ← verify_evidence loads sha fs p;
  match problem with None => document_at fs p | Some _ => Ok None end.

Definition has_field (d : option document) (k v : string) : bool := py_eq (field_of k d) (VStr v).
Definition bound_pass (d : option document) (release revision : string) : bool :=
  truthy d && has_field d "status" "PASS" && has_field d "release_id" release && has_field d "source_revision" revision.

Definition artifact_matches (fs : files) (root : string) (binding : option document) (fa : string * string) : bool :=
  match fs !! at_root root fa.2 with Some c => has_field binding fa.1 (sha c) | None => false end.
Definition test_run_bound (fs : files) (root name revision : string) (artifacts : list (string * string)) : result bool :=
  binding ← verified_document fs (at_root root name);
  Ok (truthy binding && has_field binding "status" "PASS" && has_field binding "source_revision" revision && is_true (field_of "clean" binding)
      && git_object_id (field_of "tree" binding) && forallb (artifact_matches fs root binding) artifacts).

Definition int_field (k : string) (fallback : Z) (d : document) : result Z := py_int (default (VInt fallback) (od_get k d)).
Definition no_violations (d : document) : result bool :=
  and_then (n ← int_field "hard_violations" (-1) d; Ok (n =? 0)) (n ← int_field "sla_violations" (-1) d; Ok (n =? 0)).
Definition scenario_ok (v : pyval) : result bool :=
  match v with
  | VDict item => match get "evaluation" item with VDict e => no_violations e | _ => Ok false end
  | _ => Ok false
  end.
Definition scenario_evidence_pass (fs : files) (root : string) : result bool :=
  summary ← document_at fs (at_root root "B10/batch-run-summary.json");
  episodes ← document_at fs (at_root root "B20/e2e-results/episode-summary.json");
  and_then (Ok (truthy summary && is_true (field_of "passed" summary)))
    (and_then (match field_of "scenarios" summary with
               | VList l => and_then (Ok (length l =? 10)%nat) (all_result scenario_ok l)
               | _ => Ok false
               end)
       (match episodes with
        | Some ((_ :: _) as e) =>
            and_then (n ← int_field "fault_episodes" 0 e; Ok (100 <=? n))
              (and_then (n ← int_field "normal_episodes" 0 e; Ok (50 <=? n)) (no_violations e))
        | _ => Ok false
        end)).

(** ** The batch manifests *)

Definition read_manifest (fs : files) (root : string) (n : Z) : result document :=
  let p := at_root root (batch_name n +:+ "/manifest.json") in
  content ← read_file fs p;
  v ← loads content;
  match v with
  | VDict m =>
      raise_if (negb (py_eq (get "batch" m) (VStr (batch_name n)))) (ValueError ("batch manifest mismatch: " +:+ p));;
      Ok m
  | _ => Err attribute_error
  end.
Definition collect_batch_manifests (fs : files) (root : string) : result (list document) := mapM_result (read_manifest fs root) (batches 1 21).

(** [d.get(k, {}).get(name) == "PASS"] *)
Definition nested_pass (d : document) (k name : string) : result bool :=
  match default (VDict []) (od_get k d) with
  | VDict g => Ok (py_eq (get name g) (VStr "PASS"))
  | _ => Err attribute_error
  end.
Definition manifests_bound (manifests : list document) (revision : string) : bool :=
  (length manifests =? 19)%nat && forallb (λ m, py_eq (get "git_commit" m) (VStr revision)) manifests.
Definition manifest_gate_pass (manifests : list document) (revision name : string) (required : list Z) : result bool :=
  and_then (Ok (manifests_bound manifests revision))
    (all_result (λ n, m ← of_option IndexError (manifests !! Z.to_nat (n - 1)); nested_pass m "mandatory_gates" name) required).

(** ** The nine gates *)

Definition tests_evidence (fs : files) (root revision : string) (manifests : list document) : result bool :=
  and_then (manifest_gate_pass manifests revision "tests" (batches 1 20))
    (and_then (junit_pass fs (at_root root "test-results.xml"))
       (and_then (junit_pass fs (at_root root "postgres-integration.xml"))
          (and_then (test_run_bound fs root "test-run-binding.json" revision [("junit_sha256", "test-results.xml"); ("coverage_sha256", "coverage.xml")])
             (test_run_bound fs root "postgres-integration-binding.json" revision [("junit_sha256", "postgres-integration.xml")])))).

Definition contracts_evidence (fs : files) (root revision : string) (manifests : list document) : result bool :=
  catalog ← document_at fs (at_root root "B02/schema-catalog.json");
  and_then (manifest_gate_pass manifests revision "contracts" (batches 1 20))
    (if truthy catalog && has_field catalog "source_revision" revision then
       match field_of "openapi" catalog with VDict o => n ← int_field "path_count" 0 o; Ok (0 <? n) | _ => Ok false end
     else Ok false).

Definition container_evidence (fs : files) (root revision : string) : result bool :=
  container ← verified_document fs (at_root root "B01/container-images.json");
  match container with
  | Some ((_ :: _) as c) =>
      and_then (Ok (py_eq (get "source_revision" c) (VStr revision)))
        (and_then (nested_pass c "container_build" "status") (nested_pass c "runtime_smoke" "status"))
  | _ => Ok false
  end.

Definition source_evidence (fs : files) (root revision : string) : result bool :=
  b ← verified_document fs (at_root root "B01/source-binding.json");
  Ok (truthy b && has_field b "status" "PASS" && has_field b "source_revision" revision && has_field b "commit" revision
      && is_true (field_of "clean" b) && git_object_id (field_of "tree" b)).

(** The evidence request, when it can be loaded *)
Definition loaded_request (fs : files) (root : string) (now : datetime) : result (option EvidenceRequest) :=
  match load_verified_request loads sha iso request_digest fromisoformat str_container fs (at_root root "B20/evidence-request.json") now with
  | Ok q => Ok (Some q)
  | Err e => if entry_error e then Ok None else Err e
  end.
Definition request_bound (q : option EvidenceRequest) (release revision : string) : bool :=
  match q with Some q => bool_decide (rq_release q = release) && bool_decide (rq_revision q = revision) | None => false end.

Definition verified_attestations (fs : files) (dir root release revision : string) (q : option EvidenceRequest) (attestations : option document)
    : result (option (BundleResult * string)) :=
  match q, field_of "verification_material" attestations with
  | Some q, VDict material =>
      match verify_verification_material str_container sha exn_text jwt_decode loads b64decode resolve fs dir material root release revision
              (rq_by q) (rq_sha256 q) (rq_artifacts q) with
      | Ok v => Ok (Some v)
      | Err e => if entry_error e then Ok None else Err e
      end
  | _, _ => Ok None
  end.

(** The status of an attestation, which counts only until it expires *)
Definition current_status (now : datetime) (a : AttestationResult) : result string :=
  if bool_decide (at_status a = "PASS") then
    match fromisoformat (match at_expires a with Some t => dt_str t | None => "None" end) with
    | Ok t => if negb (aware t) then Ok "FAIL" else expired ← dt_leb t now; Ok (if expired : bool then "FAIL" else "PASS")
    | Err (ValueError _) | Err (KeyError _) => Ok "FAIL"
    | Err e => Err e
    end
  else Ok (at_status a).
Definition attestation_results (now : datetime) (v : option (BundleResult * string)) : result (list (string * string)) :=
  foldM_result (λ found a, st ← current_status now a; Ok (od_set (at_kind a) st found)) (match v with Some (b, _) => bu_results b | None => [] end) [].

Definition attestations_bound (q : option EvidenceRequest) (release revision : string) (attestations : option document)
    (v : option (BundleResult * string)) : bool :=
  match q, v with
  | Some r, Some (b, policy) =>
      request_bound q release revision && bound_pass attestations release revision && has_field attestations "request_sha256" (rq_sha256 r)
      && is_true (field_of "cryptographic_verification" attestations) && bool_decide (bu_status b = "PASS")
      && has_field attestations "trust_policy_sha256" policy && is_sha256_val (field_of "trust_policy_sha256" attestations)
  | _, _ => false
  end.

(** An evidence document of this release, this revision and this request *)
Definition request_evidence (fs : files) (p : string) (release revision : string) (q : option EvidenceRequest) : result (option document * bool) :=
  d ← verified_document fs p;
  Ok (d, request_bound q release revision && bound_pass d release revision
         && match q with Some r => has_field d "request_sha256" (rq_sha256 r) | None => false end).

Definition unless (b : bool) (reason : string) : option string := if b then None else Some reason.

Definition evaluate_production_evidence (fs : files) (dir root release revision : string) (now : datetime) : result (list GateResult) :=
  manifests ← collect_batch_manifests fs root;
  let base := take 19 manifests in
  tests ← tests_evidence fs root revision base;
  contracts ← contracts_evidence fs root revision base;
  scenarios ← and_then (manifest_gate_pass base revision "scenario" (batches 9 20)) (scenario_evidence_pass fs root);
  container ← container_evidence fs root revision;
  let immutable := immutable_revision revision in
  source ← source_evidence fs root revision;
  q ← loaded_request fs root now;
  attestations ← verified_document fs (at_root root "B20/signed-attestations.json");
  v ← verified_attestations fs dir root release revision q attestations;
  found ← attestation_results now v;
  let attested := attestations_bound q release revision attestations v in
  performance ← request_evidence fs (at_root root "B20/production-performance-report.json") release revision q;
  restore ← request_evidence fs (at_root root "B20/restore-rehearsal.json") release revision q;
  external ← request_evidence fs (at_root root "B20/external-integrations.json") release revision q;
  let performance_pass := performance.2 && is_true (field_of "production_evidence" performance.1) in
  let security := attested && bool_decide (od_get "penetration_test" found = Some "PASS") in
  let acceptance := attested && bool_decide (od_get "human_acceptance" found = Some "PASS") in
  Ok [MkGate "build" (tests && container && immutable && source)
        ["evidence/B01/build.log"; "evidence/B01/container-images.json"; "evidence/B01/source-binding.json"]
        (unless (container && immutable && source) "clean immutable source binding or current hardened container build/runtime evidence is missing");
      MkGate "tests" tests
        ["evidence/test-results.xml"; "evidence/postgres-integration.xml"; "evidence/coverage.xml"; "evidence/test-run-binding.json";
         "evidence/postgres-integration-binding.json"] None;
      MkGate "contracts" contracts ["evidence/B02/schema-catalog.json"] None;
      MkGate "security" security ["evidence/B20/signed-attestations.json"]
        (unless security "release-bound independent penetration attestation is missing");
      MkGate "scenarios" scenarios ["evidence/B10/batch-run-summary.json"; "evidence/B20/e2e-results/episode-summary.json"] None;
      MkGate "performance" performance_pass ["evidence/B20/production-performance-report.json"]
        (unless performance_pass "release-bound production load report is missing");
      MkGate "backup_restore" restore.2 ["evidence/B20/restore-rehearsal.json"]
        (unless restore.2 "release-bound database and object restore rehearsal is missing");
      MkGate "external_integrations" external.2 ["evidence/B20/external-integrations.json"]
        (unless external.2 "release-bound OIDC, Kubernetes, Slurm, meter and EMS acceptance is missing");
      MkGate "acceptance" acceptance ["evidence/B20/signed-attestations.json"] (unless acceptance "release-bound human acceptance is missing")].

(** ** The certificate *)

Definition is_absolute (p : string) : bool := match p with String.String c _ => ord c =? 47 | EmptyString => false end.
Definition evidence_path (root reference : string) : string :=
  if is_absolute reference then reference
  else join_path root (String.concat "/" (match path_parts reference with "evidence" :: ps => ps | ps => ps end)).
Definition hash_reference (fs : files) (root : string) (found : list (string * string)) (reference : string) : list (string * string) :=
  match fs !! evidence_path root reference with Some c => od_set reference (sha c) found | None => found end.
Definition collect_gate_evidence_hashes (fs : files) (root : string) (gates : list GateResult) : list (string * string) :=
  sort_dict (foldl (hash_reference fs root) [] (concat (map evidence gates))).

Definition test_counts (fs : files) (p : string) : result document :=
  root ← safe_xml_root fs p;
  mapM_result (λ k, n ← sum_of k (suites_of root); Ok (k, VInt n)) ["tests"; "failures"; "errors"; "skipped"].
Definition line_rate (fs : files) (p : string) : result pyval :=
  root ← safe_xml_root fs p; f ← float_of_val (VStr (default "0" (attribute "line-rate" root))); Ok (float_val f).
(** the value of the [try] block, or the one of its [except] *)
Definition or_invalid {A} (r : result A) (fallback : A) : result A := match r with Err e => if xml_caught e then Ok fallback else Err e | r => r end.

Definition update (d e : document) : document := foldl (λ acc kv, od_set kv.1 kv.2 acc) d e.
Definition decisions_of (v : pyval) : result (list document) :=
  match v with
  | VDict item =>
      match py_eq (get "kind" item) (VStr "human_acceptance"), get "claims" item with
      | true, VDict claims => l ← py_iter (default (VList []) (od_get "decisions" claims)); Ok (omap is_dict l : list document)
      | _, _ => Ok ([] : list document)
      end
  | _ => Ok []
  end.

Record metadata := MkMetadata { md_tests : document; md_metrics : document; md_approvals : list document; md_risks : list string }.

Definition collect_certificate_metadata (fs : files) (root : string) : result metadata :=
  let test_path := at_root root "test-results.xml" in
  let coverage_path := at_root root "coverage.xml" in
  tests ← (if is_file fs test_path then or_invalid (test_counts fs test_path) [("status", VStr "INVALID")] else Ok []);
  tests ← (if is_file fs coverage_path then
             rate ← or_invalid (line_rate fs coverage_path) (VFloat (dint 0) "0.0"); Ok (od_set "line_coverage" rate tests)
           else Ok tests);
  metrics ← foldM_result (λ acc p, d ← document_at fs p; Ok (match d with Some d => update acc d | None => acc end))
    [at_root root "B10/batch-run-summary.json"; at_root root "B20/e2e-results/episode-summary.json"] [];
  attestations ← document_at fs (at_root root "B20/signed-attestations.json");
  results ← py_iter (default (VList []) (attestations ≫= od_get "results"));
  approvals ← mapM_result decisions_of results;
  risks ← document_at fs (at_root root "B20/open-risks.json");
  let d := default [] risks in
  Ok (MkMetadata tests metrics (concat approvals)
        (match default (default (VList []) (od_get "failed_gates" d)) (od_get "risks" d) with VList l => map text l | _ => [] end)).

Definition gate_passed (name : string) (gates : list GateResult) : bool :=
  match base.filter (λ g, gate_name g = name) gates with g :: _ => passed g | [] => false end.

Definition evaluate_release_from_evidence (fs : files) (dir root release revision : string) (generated_at now : datetime) : result CertificationResult :=
  gates ← evaluate_production_evidence fs dir root release revision now;
  let hashes := collect_gate_evidence_hashes fs root gates in
  m ← collect_certificate_metadata fs root;
  let approvals := if gate_passed "acceptance" gates then md_approvals m else [] in
  certify_release digest release revision generated_at gates (md_risks m) hashes hashes (md_tests m) (md_metrics m) approvals None.
End release.

(** ** What the gates stand on *)

Lemma and_then_true a b : and_then a b = Ok true ↔ a = Ok true ∧ b = Ok true.
Proof. unfold and_then. destruct a as [[]|]; naive_solver. Qed.

Lemma all_result_true {A} (f : A → result bool) l : all_result f l = Ok true ↔ Forall (λ x, f x = Ok true) l.
Proof.
  induction l as [|x l IH]; [by split|]. cbn. rewrite Forall_cons, <-IH. destruct (f x) as [[]|]; naive_solver.
Qed.

Lemma has_field_true d k s : has_field d k s = true ↔ field_of k d = VStr s.
Proof. apply py_eq_str. Qed.

Lemma is_true_true v : is_true v = true ↔ v = VBool true.
Proof. split; [|by intros ->]. destruct v as [|[]| | | | | |]; done. Qed.

Section backed.
Context (str_container : pyval → string) (sha : string → string) (exn_text : exn → string).
Context (jwt_decode : string → string → string → result document) (loads : string → result pyval).
Context (b64decode : string → result string) (resolve : string → string).
Context (iso : datetime → string) (request_digest : request_body → string) (fromisoformat : string → result datetime) (dt_str : datetime → string).
Context (parse_xml : string → result element) (float_val : pyfloat → pyval) (digest : cert_body → string).
Context (fs : files) (dir root release revision : string) (now : datetime).

Definition load_request : result EvidenceRequest :=
  load_verified_request loads sha iso request_digest fromisoformat str_container fs (at_root root "B20/evidence-request.json") now.

(** A JUnit report of at least one test, without a failure, an error or a skipped test *)
Definition clean_report (p : string) : Prop :=
  ∃ el n, safe_xml_root parse_xml fs p = Ok el ∧ sum_of "tests" (suites_of el) = Ok n ∧ 0 < n ∧
    ∀ s k, s ∈ suites_of el → k ∈ ["failures"; "errors"; "skipped"] → suite_int k s = Ok 0.

(** The record of a test run on a clean tree of this revision, with the digests of its reports *)
Definition recorded_run (name : string) (reports : list (string * string)) : Prop :=
  ∃ d, verified_document sha loads fs (at_root root name) = Ok (Some d) ∧ get "status" d = VStr "PASS" ∧ get "source_revision" d = VStr revision ∧
    get "clean" d = VBool true ∧
    ∀ k p, (k, p) ∈ reports → ∃ content, fs !! at_root root p = Some content ∧ get k d = VStr (sha content).

(** The source is a clean tree of this commit *)
Definition recorded_source : Prop :=
  ∃ d, verified_document sha loads fs (at_root root "B01/source-binding.json") = Ok (Some d) ∧ get "commit" d = VStr revision ∧
    get "clean" d = VBool true ∧ git_object_id (get "tree" d) = true.

(** Evidence that answers the request *)
Definition answers (q : EvidenceRequest) (name : string) : Prop :=
  ∃ d, verified_document sha loads fs (at_root root name) = Ok (Some d) ∧ get "status" d = VStr "PASS" ∧ get "release_id" d = VStr release ∧
    get "source_revision" d = VStr revision ∧ get "request_sha256" d = VStr (rq_sha256 q).

(** An attestation that has not expired *)
Definition unexpired (a : AttestationResult) : Prop :=
  ∃ t, fromisoformat (match at_expires a with Some t => dt_str t | None => "None" end) = Ok t ∧ aware t = true ∧
    (aware now = true → us now < us t).

Lemma junit_pass_true p : junit_pass parse_xml fs p = Ok true → clean_report p.
Proof using Type.
  unfold junit_pass. destruct (junit_checked _ _ _) as [b|e] eqn:E; [|destruct (xml_caught e); done]. intros [= ->]. revert E.
  unfold junit_checked. intros (el & He & H)%bind_ok. rewrite !and_then_true, all_result_true in H. destruct H as (_ & (n & Hn & [= Hpos])%bind_ok & Hall).
  exists el, n. split_and!; [done|done|by apply Z.ltb_lt|]. intros s k Hs Hk. rewrite Forall_forall in Hall. specialize (Hall s Hs).
  rewrite all_result_true, Forall_forall in Hall. apply Hall, bind_ok in Hk as (z & Hz & [= Hk]). apply Z.eqb_eq in Hk as ->. done.
Qed.

Lemma test_run_true name reports : test_run_bound sha loads fs root name revision reports = Ok true → recorded_run name reports.
Proof using Type.
  unfold test_run_bound. intros ([d|] & Hd & [= H])%bind_ok. rewrite !andb_true_iff, !has_field_true, is_true_true, forallb_true_iff in H.
  destruct H as (((((_ & H1) & H2) & H3) & _) & H4). exists d. split_and!; try done. intros k p Hin. rewrite Forall_forall in H4. specialize (H4 _ Hin).
  unfold artifact_matches in H4. cbn [fst snd] in H4. destruct (fs !! at_root root p) as [c|] eqn:E; [|done]. apply has_field_true in H4. by exists c.
Qed.

Lemma source_true : source_evidence sha loads fs root revision = Ok true → recorded_source.
Proof using Type.
  unfold source_evidence. intros ([d|] & Hd & [= H])%bind_ok. rewrite !andb_true_iff, !has_field_true, is_true_true in H.
  destruct H as (((((_ & _) & _) & H2) & H3) & H4). by exists d.
Qed.

Lemma request_evidence_true q name o : request_evidence sha loads fs (at_root root name) release revision q = Ok (o, true) →
  ∃ r, q = Some r ∧ rq_release r = release ∧ rq_revision r = revision ∧ answers r name.
Proof using Type.
  unfold request_evidence. intros (d & Hd & [= <- H])%bind_ok. destruct q as [r|]; [|done]. rewrite andb_true_iff in H. destruct H as [H Hq].
  unfold request_bound, bound_pass in H. rewrite !andb_true_iff, !bool_decide_eq_true, !has_field_true in H. apply has_field_true in Hq.
  destruct H as ((H1 & H2) & ((_ & H3) & H4) & H5). destruct d as [d|]; [|done]. exists r. split_and!; try done. by exists d.
Qed.

Lemma loaded_request_some q : loaded_request str_container sha loads iso request_digest fromisoformat fs root now = Ok (Some q) → load_request = Ok q.
Proof using Type. unfold loaded_request, load_request. destruct (load_verified_request _ _ _ _ _ _ _ _ _) as [r|e]; [by intros [= ->]|by destruct (entry_error e)]. Qed.

Lemma current_status_pass a : current_status fromisoformat dt_str now a = Ok "PASS" → unexpired a.
Proof using Type.
  unfold current_status, unexpired. case_bool_decide as Hp; [|congruence]. destruct (fromisoformat _) as [t|e]; [|destruct e; done].
  destruct (aware t) eqn:Ea; [|done]. cbn [negb]. intros (x & Hx & [= H])%bind_ok. exists t. split_and!; [done|done|]. intros Hn.
  unfold dt_leb in Hx. rewrite Ea, Hn in Hx. destruct x; [done|]. injection Hx as Hx. by apply Z.leb_gt.
Qed.
End backed.

Section certified.
Context (str_container : pyval → string) (sha : string → string) (exn_text : exn → string).
Context (jwt_decode : string → string → string → result document) (loads : string → result pyval).
Context (b64decode : string → result string) (resolve : string → string).
Context (iso : datetime → string) (request_digest : request_body → string) (fromisoformat : string → result datetime) (dt_str : datetime → string).
Context (parse_xml : string → result element) (float_val : pyfloat → pyval) (digest : cert_body → string).
Context (fs : files) (dir root release revision : string) (now : datetime).
Hypothesis Hsha : ∀ s, sha s ≠ "".
Hypothesis Hdir : ∀ n, is_under (resolve root) (in_dir dir n) = false.

Lemma entry_result_kind fs' kind rel rev req requester entry a :
  entry_result str_container sha exn_text jwt_decode fs' kind rel rev req requester entry = Ok a → at_kind a = kind.
Proof using Type.
  unfold entry_result. destruct (check_entry _ _ _ _ _ _ _ _ _ _ _) as [b|e] eqn:E; [|destruct (entry_error e); [by intros [= <-]|done]].
  intros [= ->]. revert E. unfold check_entry. intros (d & _ & (tk & _ & (kf & _ & (is_ & _ & (subs & _ & H)%bind_ok)%bind_ok)%bind_ok)%bind_ok)%bind_ok.
  revert H. unfold verify_attestation. if_case as E1; [by intros [= <-]|]. destruct (attested _ _ _ _ _ _ _ _) as [b|e] eqn:E2.
  - intros [= ->]. revert E2. unfold attested. intros (raw & _ & (key & _ & (cl & _ & (sub & _ & (u1 & _ & (u2 & _ & (ex & _ & (f & _ & (t & _ & [= <-])%bind_ok)%bind_ok)%bind_ok)%bind_ok)%bind_ok)%bind_ok)%bind_ok)%bind_ok)%bind_ok. done.
  - destruct (attestation_error e); [by intros [= <-]|done].
Qed.

Lemma human_result_kind fs' rel rev req requester raw a :
  human_acceptance_result str_container sha exn_text jwt_decode fs' rel rev req requester raw = Ok a → at_kind a = "human_acceptance".
Proof using Type.
  unfold human_acceptance_result. destruct (get "signatures" raw) as [| | | | | |[|s ss]|]; try (by intros [= <-]).
  intros ([vs|] & _ & H)%bind_ok; [|by injection H as <-]. destruct (base.filter _ _); [|by injection H as <-].
  destruct (_ || _); [by injection H as <-|]. destruct (has_duplicates _); [by injection H as <-|]. apply bind_ok in H as (ds & _ & H). by injection H as <-.
Qed.

Lemma bundle_kinds fs' cfg request policy b : verify_attestation_bundle str_container sha exn_text jwt_decode fs' cfg request policy = Ok b →
  map at_kind (bu_results b) = ["penetration_test"; "human_acceptance"].
Proof using Type.
  unfold verify_attestation_bundle. intros (cfg' & _ & (rel & _ & (rev & _ & (results & Hr & H)%bind_ok)%bind_ok)%bind_ok)%bind_ok. injection H as <-. cbn [bu_results].
  destruct (is_sha256 _); [|by injection Hr as <-]. unfold bundle_results in Hr. apply bind_ok in Hr as (pen & Hp & Hr). apply bind_ok in Hr as (human & Hh & Hr).
  injection Hr as <-. cbn [map]. f_equal; [|f_equal].
  - destruct (get "penetration_test" cfg'); try (by injection Hp as <-). by eapply entry_result_kind.
  - destruct (get "human_acceptance" cfg'); try (by injection Hh as <-). by eapply human_result_kind.
Qed.

(** The attestations of a release: verified again from the embedded material, and none has expired *)
Definition attested_release (q : EvidenceRequest) : Prop :=
  ∃ name content policy results, od_get name (rq_artifacts q) = Some (sha content) ∧ loads content = Ok (VDict policy) ∧
    vouched str_container sha jwt_decode fs (resolve root) (rq_artifacts q) policy release revision (rq_sha256 q) (rq_by q) ∧
    map at_kind results = ["penetration_test"; "human_acceptance"] ∧ Forall (unexpired fromisoformat dt_str now) results.

Lemma attestations_true q doc v found : rq_sha256 q ≠ "" → (∀ i, od_get (token_name i) (rq_artifacts q) = None) →
  verified_attestations str_container sha exn_text jwt_decode loads b64decode resolve fs dir root release revision (Some q) doc = Ok v →
  attestation_results fromisoformat dt_str now v = Ok found →
  attestations_bound (Some q) release revision doc v = true →
  od_get "penetration_test" found = Some "PASS" → od_get "human_acceptance" found = Some "PASS" → attested_release q.
Proof using Hsha Hdir.
  intros Hq Hn. unfold verified_attestations. destruct (field_of "verification_material" doc) as [| | | | | | |material]; try (intros [= <-]; done).
  destruct (verify_verification_material _ _ _ _ _ _ _ _ _ _ _ _ _ _ _ _) as [[b d]|e] eqn:Ev; [|destruct (entry_error e); [intros [= <-]; done|done]].
  intros [= <-] Hf. unfold attestations_bound. rewrite !andb_true_iff, bool_decide_eq_true. intros ((((_ & _) & Hs) & _) & _) Hp Hh.
  destruct (verification_material_sound _ _ _ _ _ _ _ Hsha _ _ _ _ _ _ _ _ _ _ _ Hdir Hn Hq Ev Hs) as (name & content & policy & N1 & N2 & _ & N3).
  assert (map at_kind (bu_results b) = ["penetration_test"; "human_acceptance"]) as Hk.
  { revert Ev. unfold verify_verification_material. intros (pd & _ & (ke & _ & ([fs1 keys] & _ & (es & _ & H)%bind_ok)%bind_ok)%bind_ok)%bind_ok.
    destruct (es_penetration es); [|done]. apply bind_ok in H as (b' & Hb & [= -> _]). by eapply bundle_kinds. }
  exists name, content, policy, (bu_results b). split_and!; try done.
  destruct (bu_results b) as [|a1 [|a2 [|]]] eqn:Er; try done. cbn in Hk. injection Hk as K1 K2. unfold attestation_results in Hf. rewrite Er in Hf. cbn [foldM_result] in Hf.
  apply bind_ok in Hf as (f1 & H1 & Hf). apply bind_ok in H1 as (s1 & H1 & [= <-]). apply bind_ok in Hf as (f2 & H2 & [= <-]). apply bind_ok in H2 as (s2 & H2 & [= <-]).
  rewrite K1, K2 in *. cbn in Hp, Hh. injection Hp as ->. injection Hh as ->.
  constructor; [|constructor; [|done]]; by apply current_status_pass.
Qed.

(** The gates that depend on the evidence request *)
Record externally_backed (q : EvidenceRequest) : Prop := {
  eb_request : load_request str_container sha loads iso request_digest fromisoformat fs root now = Ok q ∧
    verify_evidence_request iso request_digest q now = Ok true ∧ rq_release q = release ∧ rq_revision q = revision;
  eb_external : answers sha loads fs root release revision q "B20/production-performance-report.json" ∧
    answers sha loads fs root release revision q "B20/restore-rehearsal.json" ∧
    answers sha loads fs root release revision q "B20/external-integrations.json";
  eb_people : (∀ i, od_get (token_name i) (rq_artifacts q) = None) → attested_release q
}.

(** What stands behind a certified release *)
Record release_backed (q : EvidenceRequest) (c : CertificationResult) : Prop := {
  bk_external : externally_backed q;
  bk_revision : immutable_revision revision = true ∧ recorded_source sha loads fs root revision;
  bk_tests : clean_report parse_xml fs (at_root root "test-results.xml") ∧ clean_report parse_xml fs (at_root root "postgres-integration.xml") ∧
    recorded_run sha loads fs root revision "test-run-binding.json" [("junit_sha256", "test-results.xml"); ("coverage_sha256", "coverage.xml")] ∧
    recorded_run sha loads fs root revision "postgres-integration-binding.json" [("junit_sha256", "postgres-integration.xml")];
  bk_hashes : ∀ g r, g ∈ gates (body c) → r ∈ evidence g →
    ∃ content, fs !! evidence_path root r = Some content ∧ od_get r (evidence_hashes (body c)) = Some (sha content)
}.

Lemma given_pass gs (names : list string) n g : (∀ n, n ∈ names → ∃ g, gate_given gs n = Some g ∧ passed g = true) → n ∈ names →
  gate_given gs n = Some g → passed g = true.
Proof using Type. intros H Hn Hg. destruct (H n Hn) as (g' & Hg' & Hp). rewrite Hg in Hg'. by injection Hg' as <-. Qed.

Lemma hashed_reference gates_ r v : (r, v) ∈ collect_gate_evidence_hashes sha fs root gates_ →
  ∃ content, fs !! evidence_path root r = Some content ∧ v = sha content.
Proof using Type.
  unfold collect_gate_evidence_hashes. rewrite sort_dict_perm. generalize (concat (map evidence gates_)). intros refs.
  assert (∀ found, NoDup found.*1 → (∀ r v, (r, v) ∈ found → ∃ content, fs !! evidence_path root r = Some content ∧ v = sha content) →
    (r, v) ∈ foldl (hash_reference sha fs root) found refs → ∃ content, fs !! evidence_path root r = Some content ∧ v = sha content) as H.
  { induction refs as [|x refs IH]; intros found Hnd Hf; [by apply Hf|]. cbn. unfold hash_reference at 2.
    destruct (fs !! evidence_path root x) as [c|] eqn:Ec; [|by apply IH]. apply IH; [by apply od_set_NoDup|]. intros r' v' Hin.
    apply elem_of_od_set in Hin as [Hin|[Hin _]]; [injection Hin as -> ->; by exists c|by apply Hf|done]. }
  apply H; [constructor|]. intros r' v' Hn. by apply elem_of_nil in Hn.
Qed.

#[local] Ltac gate_passes H n :=
  match goal with Hn : ∀ n, n ∈ _ → n ∈ _ |- _ => pose proof (given_pass _ _ n _ H ltac:(apply Hn, mem_true; reflexivity) eq_refl); cbn [passed] in * end.

Lemma load_request_verified q : (∀ b, request_digest b ≠ "") →
  load_request str_container sha loads iso request_digest fromisoformat fs root now = Ok q →
  verify_evidence_request iso request_digest q now = Ok true ∧ rq_sha256 q ≠ "".
Proof using Type.
  intros Hdig. unfold load_request, load_verified_request. intros (pr & _ & (u & _ & (ct & _ & (jv & _ & Hj)%bind_ok)%bind_ok)%bind_ok)%bind_ok. destruct jv; try done.
  apply bind_ok in Hj as (q' & _ & Hj). apply bind_ok in Hj as ([] & Hok & [= ->]). split; [done|]. revert Hok. unfold verify_evidence_request.
  intros (lt & _ & ([] & _ & Hok)%bind_ok)%bind_ok; [|done]. apply bind_ok in Hok as (op & _ & [= Hok]). rewrite !andb_true_iff, bool_decide_eq_true in Hok.
  destruct Hok as [_ <-]. apply Hdig.
Qed.

#[local] Abbreviation production := (evaluate_production_evidence str_container sha exn_text jwt_decode loads b64decode resolve iso request_digest fromisoformat dt_str
  parse_xml fs dir root release revision now).

Lemma external_gates_backed gates_ (names : list string) : (∀ b, request_digest b ≠ "") →
  production = Ok gates_ →
  (∀ n, n ∈ ["security"; "performance"; "backup_restore"; "external_integrations"; "acceptance"] → n ∈ names) →
  (∀ n, n ∈ names → ∃ g, gate_given gates_ n = Some g ∧ passed g = true) → ∃ q, externally_backed q.
Proof using Hsha Hdir.
  intros Hdig. unfold evaluate_production_evidence.
  intros (manifests & _ & (tests & _ & (contracts & _ & (scenarios & _ & (container & _ & H)%bind_ok)%bind_ok)%bind_ok)%bind_ok)%bind_ok. revert H.
  intros (source & _ & (q & Hq & (att & _ & (v & Hv & (found & Hf & H)%bind_ok)%bind_ok)%bind_ok)%bind_ok)%bind_ok. revert H.
  intros ([perf p1] & Hp & ([rest p2] & Hr & ([ext p3] & He & [= <-])%bind_ok)%bind_ok)%bind_ok. intros Hnames H. cbn [fst snd] in H.
  gate_passes H "security". gate_passes H "performance". gate_passes H "backup_restore". gate_passes H "external_integrations". gate_passes H "acceptance".
  rewrite !andb_true_iff, ?bool_decide_eq_true in *. destruct_and!. subst.
  apply request_evidence_true in Hp as (r & -> & R1 & R2 & Ap). apply request_evidence_true in Hr as (? & [= <-] & _ & _ & Ar).
  apply request_evidence_true in He as (? & [= <-] & _ & _ & Ae). apply loaded_request_some in Hq. destruct (load_request_verified r Hdig Hq) as [Hver Hne].
  exists r. split; try done. intros Hn. by eapply attestations_true.
Qed.

Lemma production_backed gates_ c : (∀ b, request_digest b ≠ "") → production = Ok gates_ →
  (∀ n, n ∈ MANDATORY_GATES → ∃ g, gate_given gates_ n = Some g ∧ passed g = true) →
  (∀ g r, g ∈ gates (body c) → r ∈ evidence g →
     ∃ content, fs !! evidence_path root r = Some content ∧ od_get r (evidence_hashes (body c)) = Some (sha content)) →
  ∃ q, release_backed q c.
Proof using Hsha Hdir.
  intros Hdig Hev H Hh. assert (∃ q, externally_backed q) as [q Hq].
  { eapply (external_gates_backed gates_ MANDATORY_GATES); try done. intros n Hn. apply mem_true.
    repeat (apply elem_of_cons in Hn as [->|Hn]; [reflexivity|]). by apply elem_of_nil in Hn. }
  revert Hev. unfold evaluate_production_evidence.
  intros (manifests & _ & (tests & Ht & (contracts & _ & (scenarios & _ & (container & _ & Hev)%bind_ok)%bind_ok)%bind_ok)%bind_ok)%bind_ok. revert Hev.
  intros (source & Hs & (q' & _ & (att & _ & (v & _ & (found & _ & Hev)%bind_ok)%bind_ok)%bind_ok)%bind_ok)%bind_ok. revert Hev.
  intros (perf & _ & (rest & _ & (ext & _ & [= <-])%bind_ok)%bind_ok)%bind_ok.
  assert (∀ n, n ∈ MANDATORY_GATES → n ∈ MANDATORY_GATES) as Hnames by done.
  gate_passes H "build". gate_passes H "tests". rewrite !andb_true_iff, ?bool_decide_eq_true in *. destruct_and!. subst.
  unfold tests_evidence in Ht. rewrite !and_then_true in Ht. destruct Ht as (_ & T1 & T2 & T3 & T4).
  exists q. split; try done.
  - split; [done|by apply source_true].
  - split_and!; [by apply junit_pass_true..|by apply test_run_true|by apply test_run_true].
Qed.
End certified.

(** A certified release is backed.  If the evaluation of the evidence on disk certifies a release, then: the
    evidence request verifies now and is for this release and this revision, which is immutable and the commit of a
    clean source tree; the unit and integration reports list at least one test and no failure, error or skipped test,
    and records of runs on this revision carry their digests; the load report, the restore rehearsal and the acceptance
    of the external systems passed for this release, revision and request; a penetration test without open critical or
    high findings and the votes of three different owners, none of them the requester, are vouched for by tokens that
    verify under keys and a trust policy bound to the request, and have not expired; and every file a gate refers to is
    on disk with the digest that the certificate states.  (Digests are not empty, the temporary directory is outside
    the evidence directory, and no input of the request is named like a temporary token file.) *)
Theorem certified_release_backed (str_container : pyval → string) (sha : string → string) (exn_text : exn → string)
    (jwt_decode : string → string → string → result document) (loads : string → result pyval)
    (b64decode : string → result string) (resolve : string → string)
    (iso : datetime → string) (request_digest : request_body → string) (fromisoformat : string → result datetime) (dt_str : datetime → string)
    (parse_xml : string → result element) (float_val : pyfloat → pyval) (digest : cert_body → string)
    (Hsha : ∀ s, sha s ≠ "") (Hdig : ∀ b, request_digest b ≠ "")
    (fs : files) (dir root release revision : string) (generated now : datetime) (c : CertificationResult)
    (Hdir : ∀ n, is_under (resolve root) (in_dir dir n) = false)
    (Hc : evaluate_release_from_evidence str_container sha exn_text jwt_decode loads b64decode resolve iso request_digest fromisoformat dt_str
            parse_xml float_val digest fs dir root release revision generated now = Ok c)
    (Hs : status (body c) = "CERTIFIED") :
  ∃ q, release_backed str_container sha jwt_decode loads resolve iso request_digest fromisoformat dt_str parse_xml fs root release revision now q c.
Proof.
  unfold evaluate_release_from_evidence in Hc. apply bind_ok in Hc as (gs & Hg & Hc). apply bind_ok in Hc as (m & _ & Hc).
  set (hs := collect_gate_evidence_hashes sha fs root gs) in *. unfold certify_release in Hc.
  apply bind_ok in Hc as (? & _ & Hc). apply bind_ok in Hc as (? & _ & Hc). apply bind_ok in Hc as (? & _ & Hc). apply bind_ok in Hc as (? & _ & Hc).
  injection Hc as <-. cbn [body status gates evidence_hashes] in *. pose proof (proj1 (effective_gates_certified _ _) Hs) as Hall.
  eapply production_backed; [done..| |].
  - intros n Hn. destruct (Hall n Hn) as (g & G1 & G2 & _). by exists g.
  - cbn [body gates evidence_hashes]. intros g r Hin Hr. unfold effective_gates in Hin. apply list_elem_of_fmap in Hin as (n & -> & Hn).
    destruct (Hall n Hn) as (g & G1 & G2 & _ & G4). unfold declared_gate in Hr. fold (gate_given gs n) in Hr. rewrite G1 in Hr. cbn [default] in Hr.
    assert (r ∈ evidence g) as Hr' by (revert Hr; unfold effective_gate; by destruct (_ && _)).
    destruct (proj2 (od_get_sorted r hs) (G4 r Hr')) as [v Hv]. apply od_get_elem_of in Hv as Hin. rewrite sort_dict_perm in Hin.
    destruct (hashed_reference _ _ _ _ _ _ Hin) as (content & C1 & ->). by exists content.
Qed.

(** ** A release with complete evidence *)

Definition sample_meta : string * pyval := ("evidence_meta", VDict [("schema_version", VStr "1.0.0")]).
Definition sample_digest : pyval := VStr (toy_sha "").
Definition sample_bound : document :=
  [sample_meta; ("status", VStr "PASS"); ("release_id", VStr "r1"); ("source_revision", VStr "abcdef0"); ("request_sha256", sample_digest);
   ("commit", VStr "abcdef0"); ("clean", VBool true); ("tree", VStr "0123456789012345678901234567890123456789");
   ("production_evidence", VBool true); ("junit_sha256", sample_digest); ("coverage_sha256", sample_digest)].
Definition sample_manifest (n : Z) : string * pyval :=
  (batch_name n +:+ "/manifest.json",
   VDict [("batch", VStr (batch_name n)); ("git_commit", VStr "abcdef0");
          ("mandatory_gates", VDict [("tests", VStr "PASS"); ("contracts", VStr "PASS"); ("scenario", VStr "PASS")])]).
Definition sample_no_violations : document := [("hard_violations", VInt 0); ("sla_violations", VInt 0)].
Definition sample_entry (kind token : string) (role : document) : pyval :=
  VDict ([("kind", VStr kind); ("token", VStr token); ("token_sha256", sample_digest); ("artifact", VStr "report"); ("artifact_sha256", sample_digest);
          ("public_key_name", VStr "k.pem")] ++ role).
Definition sample_material (ops : string) : pyval :=
  VDict [("schema_version", VStr "1.0.0"); ("trust_policy_name", VStr "policy.json"); ("trust_policy_b64", VStr "policy");
         ("trust_policy_sha256", sample_digest); ("public_keys", VDict [("k.pem", VDict [("pem_b64", VStr "PEM"); ("sha256", sample_digest)])]);
         ("entries", VList [sample_entry "penetration_test" "pen" [];
                            sample_entry "human_acceptance_vote" "prod" [("role", VStr "product_owner")];
                            sample_entry "human_acceptance_vote" "sec" [("role", VStr "security_owner")];
                            sample_entry "human_acceptance_vote" ops [("role", VStr "operations_owner")]])].
Definition sample_request : document :=
  [sample_meta; ("release_id", VStr "r1"); ("source_revision", VStr "abcdef0"); ("requested_by", VStr "dan"); ("issued_at", VStr "100");
   ("expires_at", VStr "200"); ("nonce", VStr "n"); ("requirements", VDict toy_requirements);
   ("input_artifacts", VDict [("policy.json", sample_digest); ("k.pem", sample_digest)]); ("request_sha256", sample_digest)].
Definition sample_documents (ops : string) : list (string * pyval) :=
  map sample_manifest (batches 1 21) ++
  [("B02/schema-catalog.json", VDict [("source_revision", VStr "abcdef0"); ("openapi", VDict [("path_count", VInt 3)])]);
   ("B10/batch-run-summary.json", VDict [("passed", VBool true); ("scenarios", VList (replicate 10 (VDict [("evaluation", VDict sample_no_violations)])))]);
   ("B20/e2e-results/episode-summary.json", VDict ([("fault_episodes", VInt 100); ("normal_episodes", VInt 50)] ++ sample_no_violations));
   ("B01/container-images.json", VDict (sample_bound ++ [("container_build", VDict [("status", VStr "PASS")]); ("runtime_smoke", VDict [("status", VStr "PASS")])]));
   ("B01/source-binding.json", VDict sample_bound); ("test-run-binding.json", VDict sample_bound); ("postgres-integration-binding.json", VDict sample_bound);
   ("B20/evidence-request.json", VDict sample_request);
   ("B20/signed-attestations.json", VDict (sample_bound ++ [("cryptographic_verification", VBool true); ("trust_policy_sha256", sample_digest);
                                                            ("verification_material", sample_material ops)]));
   ("B20/production-performance-report.json", VDict sample_bound); ("B20/restore-rehearsal.json", VDict sample_bound);
   ("B20/external-integrations.json", VDict sample_bound)].
(** the content of a document is its path *)
Definition sample_files (ops : string) : files :=
  list_to_map (concat (map (λ kv : string * pyval, [(at_root "e" kv.1, kv.1); (sidecar_path (at_root "e" kv.1), toy_sha "" +:+ "  " +:+ path_name kv.1 +:+ line_end)])
                         (sample_documents ops))
               ++ map (λ p, (at_root "e" p, p)) ["B01/build.log"; "coverage.xml"; "test-results.xml"; "postgres-integration.xml"; "report"]).
Definition sample_loads (ops content : string) : result pyval :=
  if bool_decide (content = "policy") then Ok (VDict toy_policy) else of_option (ValueError "Expecting value") (od_get content (sample_documents ops)).
Definition sample_evaluate (ops skipped : string) (now : Z) : result CertificationResult :=
  evaluate_release_from_evidence (λ _, "") toy_sha (λ _, "error") toy_jwt (sample_loads ops) Ok id toy_iso (λ _, toy_sha "") toy_read (λ t, int_str (us t))
    (λ _, Ok (Element "testsuite" [("tests", "12"); ("skipped", skipped); ("line-rate", "0.5")] None [])) (λ _, VInt 0) (λ _, toy_sha "")
    (sample_files ops) "tmp" "e" "r1" "abcdef0" (DT 300 true) (DT now true).

(** Certified; not when one owner votes twice, when a test was skipped, or when the request has expired *)
Example release_samples :
  map (λ r, match r with Ok c => status (body c) | Err _ => "error" end)
    [sample_evaluate "ops" "0" 150; sample_evaluate "ops_ann" "0" 150; sample_evaluate "ops" "1" 150; sample_evaluate "ops" "0" 250]
  = ["CERTIFIED"; "NOT_CERTIFIED"; "NOT_CERTIFIED"; "NOT_CERTIFIED"].
Proof. vm_compute. reflexivity. Qed.

Lemma outside_tmp n : is_under "e" (in_dir "tmp" n) = false.
Proof.
  unfold is_under, in_dir, path_parts. cbn [String.append String.list_ascii_of_string split_slashes app]. apply bool_decide_eq_false_2. intros [k Hk].
  vm_compute in Hk. discriminate.
Qed.

Lemma certified_release_backed_witness :
  ∃ c q, sample_evaluate "ops" "0" 150 = Ok c ∧
    release_backed (λ _, "") toy_sha toy_jwt (sample_loads "ops") id toy_iso (λ _, toy_sha "") toy_read (λ t, int_str (us t))
      (λ _, Ok (Element "testsuite" [("tests", "12"); ("skipped", "0"); ("line-rate", "0.5")] None [])) (sample_files "ops") "e" "r1" "abcdef0" (DT 150 true) q c ∧
    ∀ i, od_get (token_name i) (rq_artifacts q) = None.
Proof.
  destruct (sample_evaluate "ops" "0" 150) as [c|] eqn:Ec; [|vm_compute in Ec; discriminate].
  assert (status (body c) = "CERTIFIED") as Hs by (vm_compute in Ec; injection Ec as <-; reflexivity).
  destruct (certified_release_backed (λ _, "") toy_sha (λ _, "error") toy_jwt (sample_loads "ops") Ok id toy_iso (λ _, toy_sha "") toy_read (λ t, int_str (us t))
    (λ _, Ok (Element "testsuite" [("tests", "12"); ("skipped", "0"); ("line-rate", "0.5")] None [])) (λ _, VInt 0) (λ _, toy_sha "")
    (λ _, ltac:(discriminate)) (λ _, ltac:(discriminate)) (sample_files "ops") "tmp" "e" "r1" "abcdef0" (DT 300 true) (DT 150 true) c outside_tmp Ec Hs) as [q Hq].
  exists c, q. split_and!; [done|exact Hq|]. intros i. destruct Hq as [[[Hl _] _ _] _ _ _]. unfold load_request in Hl. vm_compute in Hl. injection Hl as <-. reflexivity.
Defined.
