(* ===== verification/Readiness.v ===== *)
(** * External readiness

    [packages/certification/readiness.py]: the report of what is still missing for a release, on top of the gates of
    Release. *)
From S2P Require Import Prelude PyValue PyText Certification Settings Domain Access Attestation Evidence Material Release.
Local Open Scope Z_scope.


Definition EXTERNAL_GATE_NAMES : list string := ["security"; "performance"; "backup_restore"; "external_integrations"; "acceptance"].

Record ReadinessCheck := MkCheck {
  rc_name : string; rc_status : string; rc_evidence : list string; rc_reason : option string; rc_next : option string
}.
Record ExternalReadinessReport := MkReadiness {
  rr_status : string; rr_release : string; rr_revision : string; rr_request : option string; rr_checks : list ReadinessCheck
}.

Definition NEXT_ACTIONS : list (string * string) :=
  [("security", "verify an independent penetration attestation with make verify-attestations");
   ("performance", "run the approved non-local load contract with make production-load");
   ("backup_restore", "run isolated database and object recovery with make restore-rehearsal");
   ("external_integrations", "probe real IdP, Kubernetes, Slurm, meter and EMS with make external-acceptance");
   ("acceptance", "verify distinct product, security and operations owner signatures with make verify-attestations")].
(** [NEXT_ACTIONS[name]] *)
Definition next_action (name : string) : string := default "" (od_get name NEXT_ACTIONS).

Section readiness.
Context (str_container : pyval → string) (sha : string → string) (exn_text : exn → string).
Context (jwt_decode : string → string → string → result document) (loads : string → result pyval).
Context (b64decode : string → result string) (resolve : string → string).
Context (iso : datetime → string) (digest : request_body → string) (fromisoformat : string → result datetime) (dt_str : datetime → string).
Context (parse_xml : string → result element).
#[local] Abbreviation load := (load_verified_request loads sha iso digest fromisoformat str_container).
#[local] Abbreviation production := (evaluate_production_evidence str_container sha exn_text jwt_decode loads b64decode resolve iso digest fromisoformat dt_str parse_xml).

Definition request_path (root : string) : string := root +:+ "/B20/evidence-request.json".
Definition preflight_path (root : string) : string := root +:+ "/B20/production-preflight.json".

Definition request_check (fs : files) (root release revision : string) (now : datetime) : result (ReadinessCheck * option string) :=
  let reference := ["evidence/B20/evidence-request.json"] in
  if negb (is_file fs (request_path root)) then
    Ok (MkCheck "evidence_request" "NOT_RUN" reference (Some "release-bound external evidence request is missing")
          (Some "create the immutable request with make evidence-request"), None)
  else
    match load fs (request_path root) now with
    | Err e =>
        if entry_error e then
          Ok (MkCheck "evidence_request" "FAIL" reference (Some (exn_text e)) (Some "replace the invalid request with make evidence-request"), None)
        else Err e
    | Ok q =>
        if negb (bool_decide (rq_release q = release)) || negb (bool_decide (rq_revision q = revision)) then
          Ok (MkCheck "evidence_request" "FAIL" reference (Some "evidence request is bound to a different release or source revision")
                (Some "create a new request for the current release commit"), None)
        else Ok (MkCheck "evidence_request" "PASS" reference None None, Some (rq_sha256 q))
    end.

Definition preflight_check (fs : files) (root revision : string) : result ReadinessCheck :=
  let reference := ["evidence/B20/production-preflight.json"] in
  let check st reason next := MkCheck "production_preflight" st reference reason next in
  if negb (is_file fs (preflight_path root)) then
    Ok (check "NOT_RUN" (Some "production preflight has not been run") (Some "run PRODUCTION_PREFLIGHT_CONFIG=... make production-preflight"))
  else
    problem ← verify_evidence loads sha fs (preflight_path root);
    match problem with
    | Some reason => Ok (check "FAIL" (Some reason) (Some "rerun production preflight and preserve its SHA-256 sidecar"))
    | None =>
        match (content ← read_file fs (preflight_path root); loads content) with
        | Ok (VDict d) =>
            if negb (py_eq (get "source_revision" d) (VStr revision)) then
              Ok (check "FAIL" (Some "production preflight is bound to a different source revision") (Some "rerun production preflight for the current commit"))
            else
              let st := py_str str_container (or_else "status" d (VStr "FAIL")) in
              Ok (check (if mem st ["PASS"; "FAIL"; "NOT_RUN"] then st else "FAIL")
                    (if bool_decide (st = "PASS") then None else Some "one or more production prerequisites are not satisfied")
                    (if bool_decide (st = "PASS") then None else Some "resolve failed preflight checks before external execution"))
        | Ok _ => Ok (check "FAIL" (Some "preflight is invalid") None)
        | Err e => if unparsable e then Ok (check "FAIL" (Some "preflight is invalid") None) else Err e
        end
    end.

Definition gate_check (gates : list GateResult) (name : string) : result ReadinessCheck :=
  (* [{gate.name: gate for gate in gates}[name]]: the last gate of that name *)
  g ← of_option (KeyError name) (last (base.filter (λ g, gate_name g = name) gates));
  Ok (MkCheck name (if passed g then "PASS" else "FAIL") (evidence g) (reason g) (if passed g then None else Some (next_action name))).

Definition external_checks (fs : files) (dir root release revision : string) (now : datetime) : result (list ReadinessCheck) :=
  match (gates ← production fs dir root release revision now; mapM_result (gate_check gates) EXTERNAL_GATE_NAMES) with
  | Err e =>
      if entry_error e then
        Ok (map (λ n, MkCheck n "NOT_RUN" [] (Some ("certification evidence is incomplete: " +:+ exn_text e)) (Some (next_action n))) EXTERNAL_GATE_NAMES)
      else Err e
  | r => r
  end.

Definition readiness_status (checks : list ReadinessCheck) : string :=
  if forallb (λ c, bool_decide (rc_status c = "PASS")) checks then "PASS"
  else if existsb (λ c, bool_decide (rc_status c = "FAIL")) checks then "FAIL" else "NOT_RUN".

Definition evaluate_external_readiness (fs : files) (dir root release revision : string) (now : datetime) : result ExternalReadinessReport :=
  rq ← request_check fs root release revision now;
  pre ← preflight_check fs root revision;
  ext ← external_checks fs dir root release revision now;
  let checks := rq.1 :: pre :: ext in
  Ok (MkReadiness (readiness_status checks) release revision rq.2 checks).

(** A report of PASS: the evidence request is intact, verifies now and is for this release and revision, its digest is
    the one reported, the preflight of this revision is intact, and the external gates are backed: the reports of the
    load test, the restore rehearsal and the external systems, the penetration test and the owners' votes. *)
Theorem readiness_pass_sound (fs : files) (dir root release revision : string) (now : datetime) (r : ExternalReadinessReport)
    (Hsha : ∀ s, sha s ≠ "") (Hdig : ∀ b, digest b ≠ "") (Hdir : ∀ n, is_under (resolve root) (in_dir dir n) = false)
    (Hr : evaluate_external_readiness fs dir root release revision now = Ok r) (Hs : rr_status r = "PASS") :
  verify_evidence loads sha fs (preflight_path root) = Ok None ∧
  ∃ q, externally_backed str_container sha jwt_decode loads resolve iso digest fromisoformat dt_str fs root release revision now q ∧
    rr_request r = Some (rq_sha256 q).
Proof using Type.
  revert Hr. unfold evaluate_external_readiness. intros ([c1 o] & E1 & (c2 & E2 & (ext & E3 & [= <-])%bind_ok)%bind_ok)%bind_ok. cbn [rr_status rr_request fst snd] in *.
  unfold readiness_status in Hs. destruct (forallb _ _) eqn:Ef; [|by case_match]. apply forallb_true_iff in Ef.
  apply Forall_cons in Ef as [P1 [P2 P3]%Forall_cons]. bprop. split.
  - unfold preflight_check in E2. destruct (negb (is_file _ _)); [injection E2 as <-; done|]. apply bind_ok in E2 as ([x|] & Hv & E2); [injection E2 as <-; done|done].
  - assert (∃ gs, production fs dir root release revision now = Ok gs ∧ ∀ n, n ∈ EXTERNAL_GATE_NAMES → ∃ g, gate_given gs n = Some g ∧ passed g = true) as (gs & Hg & Hp).
    { unfold external_checks in E3. destruct (x ← _; _) as [l|e] eqn:E.
      2:{ destruct (entry_error e); [|done]. injection E3 as <-. exfalso. cbn in P3. apply Forall_cons in P3 as [P3 _]. cbn in P3. by bprop. }
      injection E3 as <-. apply bind_ok in E as (gs & Hg & Em). exists gs. split; [done|]. apply mapM_result_Forall2 in Em. intros n [i Hi]%list_elem_of_lookup_1.
      destruct (Forall2_lookup_l _ _ _ _ _ Em Hi) as (c & Hc & Hgc). unfold gate_check in Hgc. fold (gate_given gs n) in Hgc.
      destruct (gate_given gs n) as [g|]; [|done]. injection Hgc as <-. exists g. split; [done|]. rewrite Forall_lookup in P3. specialize (P3 i _ Hc). cbn in P3. bprop.
      by destruct (passed g). }
    destruct (external_gates_backed str_container sha exn_text jwt_decode loads b64decode resolve iso digest fromisoformat dt_str parse_xml fs dir root release revision now
      Hsha Hdir gs EXTERNAL_GATE_NAMES Hdig Hg (λ n Hn, Hn) Hp) as [q Hq]. exists q. split; [done|]. destruct Hq as [(Hl & _) _ _].
    unfold request_check in E1. destruct (negb (is_file _ _)); [injection E1 as <- <-; done|]. change (request_path root) with (at_root root "B20/evidence-request.json") in E1.
    unfold load_request in Hl. rewrite Hl in E1. destruct (_ || _); [injection E1 as <- <-; done|]. by injection E1 as _ <-.
Qed.
End readiness.
