(* ===== verification/Publication.v ===== *)
(** * The certification routes: [apps/api/main.py]

    Evidence requests, runs, publication and revocation of a release through the API, each an audited operation on the
    certification repository and the files of the evidence root, and the routes that read them.  The state behind them
    is the repository of Lifecycle and the files; the bodies are those the declared field bounds admit.  Parameters:
    those of Release, Evidence and Lifecycle, the mode of the key file, the temporary directory [tmp]. *)
From S2P Require Import Prelude PyDecimal PyValue PyText Settings Domain Access Actions AuditLog Operations Api Attestation Evidence Material Release Readiness Certification Lifecycle.
Local Open Scope Z_scope.

#[local] Abbreviation cert_store := (repository * files)%type.
#[local] Abbreviation state := (api_state (repository * files) unit).

Definition on_repo {X} (m : M repository X) : M state X := on_store (λ s : cert_store, let '(r, x) := m s.1 in ((r, s.2), x)).
Definition on_files {X} (m : M files X) : M state X := on_store (λ s : cert_store, let '(f, x) := m s.2 in ((s.1, f), x)).

Definition require_certification_admin (c : ApiContext) : result unit :=
  raise_if (bool_decide (ctx_roles c ∩ {["admin"; "safety_admin"]} = ∅)) (PermissionError "certification mutation requires admin or safety_admin role").

Definition certification_source_revision (s : Settings) (expected : string) : result string :=
  raise_if (negb (given (release_commit s))) (ValueError "COMPUTEWEAVER_RELEASE_COMMIT is required for certification mutations");;
  raise_if (negb (bool_decide (release_commit s = Some expected))) (RuntimeError "expected source revision does not match the configured release commit");;
  Ok expected.

(** [json.loads(json.dumps(asdict(certificate), default=str))] *)
Definition gate_document (g : GateResult) : document :=
  [("name", VStr (gate_name g)); ("passed", VBool (passed g)); ("evidence", VList (map VStr (evidence g)));
   ("reason", match reason g with Some r => VStr r | None => VNone end)].
Definition hash_document (l : list (string * string)) : document := map (λ kv, (kv.1, VStr kv.2)) l.

Section routes.
Context (str_container : pyval → string) (sha : string → string) (exn_text : exn → string).
Context (jwt_decode : string → string → string → result document) (loads : string → result pyval).
Context (b64decode : string → result string) (resolve : string → string).
Context (iso : datetime → string) (request_digest : request_body → string) (fromisoformat : string → result datetime) (dt_str : datetime → string).
Context (parse_xml : string → result element) (float_val : pyfloat → pyval) (digest : cert_body → string).
Context (artifact_digest : list (string * string) → string) (token_encode : token_claims → string → option string → string).
Context (token_decode : string → result token_claims) (event_digest : event_body → string).
Context (canonical : document → string) (xml_text : element → string) (sort_paths : list string → list string) (tools : pyval).
Context (audit_digest : audit_source → string) (intent_digest : pyval → string) (key_mode : string → Z) (tmp : string).
Context (s : Settings).

#[local] Abbreviation root := (certification_evidence_root s).
#[local] Abbreviation operate := (audited_operation (S := cert_store) (A := unit) audit_digest intent_digest).
#[local] Abbreviation evaluate := (evaluate_release_from_evidence str_container sha exn_text jwt_decode loads b64decode resolve iso request_digest fromisoformat dt_str
  parse_xml float_val digest).

Definition certificate_document (c : CertificationResult) : document :=
  let b := Certification.body c in
  [("release_id", VStr (release_id b)); ("commit", VStr (commit b)); ("generated_at", VStr (dt_str (generated_at b)));
   ("expires_at", VStr (dt_str (expires_at b))); ("status", VStr (status b)); ("gates", VList (map (λ g, VDict (gate_document g)) (gates b)));
   ("risks", VList (map VStr (risks b))); ("evidence_hashes", VDict (hash_document (evidence_hashes b)));
   ("certificate_hash", VStr (certificate_hash c)); ("artifacts", VDict (hash_document (artifacts b))); ("test_summary", VDict (test_summary b));
   ("scenario_metrics", VDict (scenario_metrics b)); ("approvals", VList (map VDict (approvals b)));
   ("signature", match signature c with Some t => VStr t | None => VNone end)].
Definition revocation_document (r : revocation) : document :=
  [("status", VStr "REVOKED"); ("release_id", VStr (rv_release r)); ("certificate_hash", VStr (rv_certificate_hash r));
   ("revoked_at", VStr (iso (revoked_at r))); ("actor_id", VStr (rv_actor r)); ("reason", VStr (rv_reason r))].

(** [CertificationRepository.view] *)
Definition view (rel : string) : M repository document :=
  mlift (validate_release_id rel);;
  repo ← mget;
  let published := bool_decide (is_Some (certificates repo !! rel)) in
  c ← get_certificate digest rel;
  let d := od_set "published" (VBool published) (certificate_document c) in
  let d := if negb published && bool_decide (status (Certification.body c) = "CERTIFIED") then od_set "status" (VStr "READY_FOR_RELEASE") d else d in
  rv ← revocation_of rel;
  mret match rv with
       | Some r => od_set "revocation" (VDict (revocation_document r)) (od_set "status" (VStr "REVOKED") d)
       | None => d
       end.
Definition viewed (rel : string) : M state response := d ← on_repo (view rel); mret (RResource (list_to_map d)).

(** ** Operations *)

Definition evaluated (rel revision : string) (generated now : datetime) : M state CertificationResult := λ st,
  (st, evaluate (st_store st).2 tmp root rel revision generated now).

Definition request_callback (now : Z) (nonce rel revision : string) (requirements : document) (hours : Z) (c : ApiContext) : M state response := λ st,
  let fs := (st_store st).2 in
  let destination := at_root root "B20/evidence-request.json" in
  if is_file fs destination then (st, Err (RuntimeError "an evidence request already exists; rotate it through the governed CLI"))
  else
    match create_evidence_request iso request_digest sha sort_paths fs rel revision (ctx_actor c) requirements [] (DT now true) (hours * 3600000000) nonce with
    | Err e => (st, Err e)
    | Ok q =>
        (on_files (write_evidence canonical sha str_container xml_text destination (request_document dt_str q) "api certification evidence-request"
           "production-evidence-request" (iso (DT now true)) tools);;
         mret (RResource (delete "status" (list_to_map (request_document dt_str q))))) st
    end.
Definition request_certification_evidence (now : Z) (nonce rel expected : string) (requirements : document) (hours : Z) (c : ApiContext) : M state response :=
  mlift (require_certification_admin c);;
  revision ← mlift (certification_source_revision s expected);
  operate now c "certification.evidence_request" rel (VDict [("release_id", VStr rel); ("source_revision", VStr revision)])
    (request_callback now nonce rel revision requirements hours c).

Definition run_callback (now : Z) (rel revision : string) (c : ApiContext) : M state response :=
  result ← evaluated rel revision (DT now true) (DT now true);
  on_repo (save_run digest event_digest result (ctx_actor c));;
  viewed rel.
Definition run_certification (now : Z) (rel expected : string) (c : ApiContext) : M state response :=
  mlift (require_certification_admin c);;
  revision ← mlift (certification_source_revision s expected);
  operate now c "certification.run" rel (VDict [("release_id", VStr rel); ("source_revision", VStr revision)]) (run_callback now rel revision c).

(** The certificate of the saved run, evaluated again and signed *)
Definition signed_certificate (now : Z) (rel revision hash : string) : M state CertificationResult :=
  mguard (negb (given (release_signing_key_file s)) || negb (given (release_public_key_file s)))
    (ValueError "server-side release signing and verification keys are not configured");;
  run ← on_repo (load_run digest rel);
  mguard (negb (bool_decide (commit (Certification.body run) = revision)) || negb (bool_decide (certificate_hash run = hash)))
    (RuntimeError "certification run changed before publication");;
  current ← evaluated rel revision (generated_at (Certification.body run)) (DT now true);
  mguard (negb (bool_decide (certificate_hash current = certificate_hash run))) (RuntimeError "certification evidence changed after the saved run");;
  mguard (negb (bool_decide (status (Certification.body current) = "CERTIFIED"))) (ValueError "all mandatory certification gates must pass before publication");;
  token ← mlift (issue_release_token digest artifact_digest token_encode current (key_mode (default "" (release_signing_key_file s)))
                   (release_signing_algorithm s) (release_signing_key_id s) (DT now true));
  mret (attach_release_signature current token).
Definition publish_callback (now : Z) (rel revision hash : string) (c : ApiContext) : M state response :=
  signed ← signed_certificate now rel revision hash;
  on_repo (publish digest artifact_digest token_decode event_digest signed (ctx_actor c) now);;
  viewed rel.
Definition publish_certification (now : Z) (rel expected hash : string) (c : ApiContext) : M state response :=
  mlift (require_certification_admin c);;
  revision ← mlift (certification_source_revision s expected);
  operate now c "certification.publish" rel
    (VDict [("release_id", VStr rel); ("source_revision", VStr revision); ("certificate_hash", VStr hash)]) (publish_callback now rel revision hash c).

Definition revoke_callback (now : Z) (rel why : string) (c : ApiContext) : M state response :=
  r ← on_repo (revoke digest event_digest rel (ctx_actor c) why now); mret (RResource (list_to_map (revocation_document r))).
Definition revoke_certification (now : Z) (rel why : string) (c : ApiContext) : M state response :=
  mguard (negb (bool_decide ("admin" ∈ ctx_roles c))) (PermissionError "release revocation requires admin role");;
  operate now c "certification.revoke" rel (VDict [("release_id", VStr rel); ("reason", VStr why)]) (revoke_callback now rel why c).

(** ** Reads *)

Definition caught (e : exn) : bool := match e with ValueError _ => true | _ => false end.
Definition unknown_release (rel : string) : exn := KeyError ("certification release not found or invalid: " +:+ rel).
Definition unversioned_gates : list GateResult :=
  [MkGate "build" false [] (Some "current checkout has no Git commit evidence"); MkGate "tests" false [] (Some "invoke make evidence");
   MkGate "contracts" true ["/openapi.json"] None; MkGate "scenarios" true ["deterministic simulator"] None;
   MkGate "security" false [] (Some "external security gate not run"); MkGate "performance" false [] (Some "production load gate not run");
   MkGate "backup_restore" false [] (Some "restore rehearsal not run");
   MkGate "external_integrations" false [] (Some "external connectors are read-only");
   MkGate "acceptance" false [] (Some "signed acceptance unavailable")].

Definition certification (now : Z) (rel : string) (repo : repository) : result document :=
  match (view rel repo).2 with
  | Ok d => Ok d
  | Err e =>
      if negb (caught e) then Err e
      else if bool_decide (environment s = "production") then Err (unknown_release rel)
      else c ← certify_release digest rel "UNVERSIONED" (DT now true) unversioned_gates [] [] [] [] [] [] None; Ok (certificate_document c)
  end.

Definition certification_external_readiness (now : Z) (rel : string) (st : cert_store) : result ExternalReadinessReport :=
  revision ← (match (get_certificate digest rel st.1).2 with
              | Ok c => Ok (commit (Certification.body c))
              | Err e => if negb (caught e) then Err e
                         else if bool_decide (environment s = "production") then Err (unknown_release rel) else Ok "UNVERSIONED"
              end);
  evaluate_external_readiness str_container sha exn_text jwt_decode loads b64decode resolve iso request_digest fromisoformat dt_str parse_xml
    st.2 tmp root rel revision (DT now true).

Definition event_document (e : CertificationEvent) : document :=
  let b := ev_body e in
  [("event_type", VStr (event_type b)); ("release_id", VStr (ev_release b)); ("occurred_at", VStr (dt_str (occurred_at b)));
   ("actor_id", VStr (actor_id b)); ("payload", VDict (payload b)); ("previous_hash", VStr (Lifecycle.previous_hash b)); ("event_hash", VStr (event_hash e))].
Definition certification_events (rel : string) (repo : repository) : result document :=
  match (verify_event_chain event_digest rel repo).2 with
  | Ok valid =>
      Ok [("release_id", VStr rel); ("integrity", VStr (if valid : bool then "PASS" else "FAIL"));
          ("events", VList (map (λ e, VDict (event_document e)) (default [] (events_of repo !! rel))))]
  | Err e => Err e
  end.

(** ** Requests in any order *)

(** The requests that change something, and the evidence that others put under the root *)
Inductive cert_request :=
| ReqEvidence (now : Z) (nonce rel expected : string) (requirements : document) (hours : Z) (c : ApiContext)
| ReqRun (now : Z) (rel expected : string) (c : ApiContext)
| ReqPublish (now : Z) (rel expected hash : string) (c : ApiContext)
| ReqRevoke (now : Z) (rel why : string) (c : ApiContext)
| Deposit (fs : files).

Definition serve (q : cert_request) (st : state) : state :=
  match q with
  | ReqEvidence now nonce rel expected requirements hours c => (request_certification_evidence now nonce rel expected requirements hours c st).1
  | ReqRun now rel expected c => (run_certification now rel expected c st).1
  | ReqPublish now rel expected hash c => (publish_certification now rel expected hash c st).1
  | ReqRevoke now rel why c => (revoke_certification now rel why c st).1
  | Deposit fs => MkState ((st_store st).1, fs) (st_approvals st) (st_audit st) (st_ops st)
  end.
Definition served (fs : files) (h : list cert_request) : state := foldl (λ (st : state) q, serve q st) (MkState (empty_repo, fs) tt [] ∅) h.

(** ** What the operations change *)

Lemma operate_store now c op r i (cb : M state response) st :
  st_store (operate now c op r i cb st).1 = st_store st ∨ st_store (operate now c op r i cb st).1 = st_store (cb st).1.
Proof using Type.
  unfold audited_operation. destruct (request_guard _) as [[]|]; [|by left]. destruct (st_ops st !! _) as [[[? ?] ?]|]; [by left|].
  unfold mbind, M_bind. destruct (cb st) as [st1 [v|e]]; by right.
Qed.

Lemma on_repo_run {X} (m : M repository X) st :
  st_store (on_repo m st).1 = ((m (st_store st).1).1, (st_store st).2) ∧ (on_repo m st).2 = (m (st_store st).1).2.
Proof using Type. unfold on_repo, on_store. by destruct (m (st_store st).1). Qed.

Lemma view_reads rel repo : (view rel repo).1 = repo.
Proof using Type.
  unfold view, get_certificate, revocation_of. mrun. destruct (validate_release_id rel) as [[]|]; [|done]. destruct (load_verified _) as [d|]; [|done].
  by destruct (certificate_from_document digest d).
Qed.

Lemma viewed_store rel st : st_store (viewed rel st).1 = st_store st.
Proof using Type.
  unfold viewed. unfold mbind, M_bind, mret, M_ret. pose proof (proj1 (on_repo_run (view rel) st)) as H. rewrite view_reads in H.
  destruct (on_repo (view rel) st) as [st1 [d|e]]; cbn [fst] in *; rewrite H; by destruct (st_store st).
Qed.

Lemma load_run_reads rel repo : (load_run digest rel repo).1 = repo.
Proof using Type. unfold load_run. mrun. destruct (validate_release_id rel) as [[]|]; [|done]. by destruct (load_verified _). Qed.

Lemma evaluate_names fs dir rel revision generated now c : evaluate fs dir root rel revision generated now = Ok c →
  release_id (Certification.body c) = rel ∧ commit (Certification.body c) = revision.
Proof using Type.
  unfold evaluate_release_from_evidence, certify_release.
  intros (gs & _ & (m & _ & (? & _ & (? & _ & (? & _ & (? & _ & [= <-])%bind_ok)%bind_ok)%bind_ok)%bind_ok)%bind_ok)%bind_ok. done.
Qed.

(** The certificate about to be published comes from the files of this moment. *)
Lemma signed_spec now rel revision hash st : let '(st', r) := signed_certificate now rel revision hash st in
  st_store st' = st_store st ∧ ∀ c, r = Ok c → ∃ generated current token,
    evaluate (st_store st).2 tmp root rel revision generated (DT now true) = Ok current ∧ status (Certification.body current) = "CERTIFIED" ∧
    c = attach_release_signature current token ∧ certificate_hash c = hash.
Proof using Type.
  unfold signed_certificate. unfold mbind at 1, M_bind at 1, mguard at 1, raise_if. destruct (_ || _); [done|]. unfold mbind at 1, M_bind at 1.
  destruct (on_repo_run (load_run digest rel) st) as [H1 _]. rewrite load_run_reads in H1.
  destruct (on_repo (load_run digest rel) st) as [st1 [run|e]]; cbn [fst snd] in *; rewrite <-surjective_pairing in H1; [|done].
  unfold mbind at 1, M_bind at 1, mguard at 1, raise_if. destruct (_ || _) eqn:E1; [done|]. apply orb_false_iff in E1 as [_ Eh]. apply negb_false_iff, bool_decide_eq_true in Eh.
  unfold mbind at 1, M_bind at 1, evaluated. rewrite H1. destruct (evaluate _ _ _ _ _ _ _) as [current|] eqn:Ee; [|done].
  unfold mbind at 1, M_bind at 1, mguard at 1, raise_if. destruct (negb _) eqn:E2; [done|]. apply negb_false_iff, bool_decide_eq_true in E2.
  unfold mbind at 1, M_bind at 1, mguard at 1, raise_if. destruct (negb _) eqn:E3; [done|]. apply negb_false_iff, bool_decide_eq_true in E3.
  unfold mbind, M_bind, mlift. destruct (issue_release_token _ _ _ _ _ _ _ _) as [token|]; [|done]. cbn. split; [done|]. intros c [= <-].
  exists (generated_at (Certification.body run)), current, token. split_and!; try done. cbn. congruence.
Qed.

#[local] Abbreviation life_inv := (life_inv digest artifact_digest token_decode event_digest).
#[local] Abbreviation repo st := (st_store (S := cert_store) st).1.
#[local] Abbreviation evidence_files st := (st_store (S := cert_store) st).2.

(** The repository after a request: unchanged, or after one operation of it that the request was entitled to. *)
Inductive repo_change (q : cert_request) (st : state) : repository → Prop :=
| unchanged : repo_change q st (repo st)
| saved now rel expected c result : q = ReqRun now rel expected c →
    repo_change q st (save_run digest event_digest result (ctx_actor c) (repo st)).1
| published now rel expected hash c generated current token : q = ReqPublish now rel expected hash c →
    ctx_roles c ∩ {["admin"; "safety_admin"]} ≠ ∅ → release_commit s = Some expected →
    evaluate (evidence_files st) tmp root rel expected generated (DT now true) = Ok current →
    status (Certification.body current) = "CERTIFIED" → certificate_hash current = hash →
    repo_change q st (publish digest artifact_digest token_decode event_digest (attach_release_signature current token) (ctx_actor c) now (repo st)).1
| revoked now rel why c : q = ReqRevoke now rel why c → "admin" ∈ ctx_roles c →
    repo_change q st (revoke digest event_digest rel (ctx_actor c) why now (repo st)).1.

Lemma require_admin c : require_certification_admin c = Ok tt → ctx_roles c ∩ {["admin"; "safety_admin"]} ≠ ∅.
Proof using Type. unfold require_certification_admin, raise_if. by case_bool_decide. Qed.

Lemma source_revision expected r : certification_source_revision s expected = Ok r → r = expected ∧ release_commit s = Some expected.
Proof using Type.
  unfold certification_source_revision. intros (? & _ & ([] & H & [= <-])%bind_ok)%bind_ok. apply guard_last in H. apply negb_false_iff, bool_decide_eq_true in H.
  done.
Qed.

(** The guards of a route, and the replay of an operation, leave the repository. *)
Ltac entitled Ea Er :=
  unfold mbind at 1, M_bind at 1, mlift at 1;
  match goal with |- context [require_certification_admin ?c] => destruct (require_certification_admin c) as [[]|] eqn:Ea; [|apply unchanged] end;
  unfold mbind at 1, M_bind at 1, mlift at 1;
  match goal with |- context [certification_source_revision ?s ?e] => destruct (certification_source_revision s e) as [r|] eqn:Er; [|apply unchanged] end;
  apply source_revision in Er as [-> Er]; apply require_admin in Ea.
Ltac operated :=
  match goal with |- context [operate ?a ?b ?d ?e ?f ?g ?st] => destruct (operate_store a b d e f g st) as [Ho|Ho]; rewrite Ho; clear Ho; [apply unchanged|] end.

Lemma evidence_change now nonce rel expected reqs hours c st :
  let q := ReqEvidence now nonce rel expected reqs hours c in repo_change q st (repo (serve q st)).
Proof using Type.
  intros q. cbn [serve q]. unfold request_certification_evidence. entitled Ea Er. operated.
  unfold request_callback. destruct (is_file _ _); [apply unchanged|]. destruct (create_evidence_request _ _ _ _ _ _ _ _ _ _ _ _); [|apply unchanged].
  unfold mbind, M_bind, on_files, on_store, write_evidence. cbn. apply unchanged.
Qed.

Lemma run_change now rel expected c st : let q := ReqRun now rel expected c in repo_change q st (repo (serve q st)).
Proof using Type.
  intros q. cbn [serve q]. unfold run_certification. entitled Ea Er. operated.
  unfold run_callback. unfold mbind at 1, M_bind at 1, evaluated. destruct (evaluate _ _ _ _ _ _ _) as [result|]; [|apply unchanged].
  unfold mbind, M_bind. destruct (on_repo_run (save_run digest event_digest result (ctx_actor c)) st) as [H1 _].
  assert (repo_change q st (save_run digest event_digest result (ctx_actor c) (repo st)).1) as Hc by (by eapply saved).
  destruct (on_repo _ st) as [st1 [[]|e]]; cbn [fst] in *; [rewrite viewed_store|]; by rewrite H1.
Qed.

Lemma publish_change now rel expected hash c st : let q := ReqPublish now rel expected hash c in repo_change q st (repo (serve q st)).
Proof using Type.
  intros q. cbn [serve q]. unfold publish_certification. entitled Ea Er. operated.
  unfold publish_callback. unfold mbind, M_bind. pose proof (signed_spec now rel expected hash st) as Hs.
  destruct (signed_certificate _ _ _ _ st) as [st1 [cert|e]]; destruct Hs as [Hst Hs]; [|cbn [fst]; rewrite Hst; apply unchanged].
  destruct (Hs cert eq_refl) as (generated & current & token & He & Hce & -> & Hh).
  destruct (on_repo_run (publish digest artifact_digest token_decode event_digest (attach_release_signature current token) (ctx_actor c) now) st1) as [H1 _].
  rewrite Hst in H1.
  assert (repo_change q st (publish digest artifact_digest token_decode event_digest (attach_release_signature current token) (ctx_actor c) now (repo st)).1)
    as Hc by (by eapply published).
  destruct (on_repo _ st1) as [st2 [[]|e]]; cbn [fst] in *; [rewrite viewed_store|]; by rewrite H1.
Qed.

Lemma revoke_change now rel why c st : let q := ReqRevoke now rel why c in repo_change q st (repo (serve q st)).
Proof using Type.
  intros q. cbn [serve q]. unfold revoke_certification. unfold mbind at 1, M_bind at 1, mguard at 1, raise_if. case_bool_decide as Ea; cbn [negb]; [|apply unchanged].
  operated. unfold revoke_callback. unfold mbind, M_bind, mret, M_ret. destruct (on_repo_run (revoke digest event_digest rel (ctx_actor c) why now) st) as [H1 _].
  assert (repo_change q st (revoke digest event_digest rel (ctx_actor c) why now (repo st)).1) as Hc by (by eapply revoked).
  destruct (on_repo _ st) as [st1 [r|e]]; cbn [fst] in *; by rewrite H1.
Qed.

Lemma serve_change q st : repo_change q st (repo (serve q st)).
Proof using Type. destruct q; [apply evidence_change|apply run_change|apply publish_change|apply revoke_change|]. cbn. apply unchanged. Qed.

#[local] Abbreviation backed fs := (release_backed str_container sha jwt_decode loads resolve iso request_digest fromisoformat dt_str parse_xml fs root).

(** [q] published [c] from the evidence in place at that moment. *)
Definition publication (q : cert_request) (st : state) (rel : string) (c : CertificationResult) : Prop :=
  ∃ now ctx request, q = ReqPublish now rel (commit (Certification.body c)) (certificate_hash c) ctx ∧
    ctx_roles ctx ∩ {["admin"; "safety_admin"]} ≠ ∅ ∧ release_commit s = Some (commit (Certification.body c)) ∧
    backed (evidence_files st) rel (commit (Certification.body c)) (DT now true) request c ∧
    ∃ run, runs (repo st) !! rel = Some run ∧ certificate_hash run = certificate_hash c.

Hypothesis Hsha : ∀ x, sha x ≠ "".
Hypothesis Hdig : ∀ b, request_digest b ≠ "".
Hypothesis Htmp : ∀ n, is_under (resolve root) (in_dir tmp n) = false.

Lemma change_inv q st r' : repo_change q st r' → life_inv (repo st) → life_inv r'.
Proof using Type. intros [] Hi; [done|by apply inv_save|by apply inv_publish|by apply inv_revoke]. Qed.

Lemma change_certificate q st r' rel c : repo_change q st r' → life_inv (repo st) → certificates r' !! rel = Some c →
  certificates (repo st) !! rel = Some c ∨ publication q st rel c.
Proof using Hsha Hdig Htmp.
  intros [|now rel' expected ctx result _|now rel' expected hash ctx generated current token -> Ha Hr He Hst Hh|now rel' why ctx _ _] Hi Hc; [by left|left| |left].
  - by destruct (save_run_cases digest artifact_digest token_decode event_digest result (ctx_actor ctx) (repo st) Hi) as [E|(_ & _ & k & E & _)]; rewrite E in Hc.
  - destruct (evaluate_names _ _ _ _ _ _ _ He) as [Hrel Hcom].
    destruct (certified_release_backed _ _ _ _ _ _ _ _ _ _ _ _ _ _ Hsha Hdig _ _ _ _ _ _ _ _ Htmp He Hst) as [request Hb].
    destruct (publish_cases digest artifact_digest token_decode event_digest (attach_release_signature current token) (ctx_actor ctx) now (repo st) Hi)
      as [E|(_ & _ & _ & (run & Hrun & _ & Hrh) & e & E & _)]; rewrite E in Hc.
    + by left.
    + cbn [certificates attach_release_signature Certification.body] in Hc, Hrun. rewrite Hrel in Hc, Hrun.
      apply lookup_insert_Some in Hc as [[<- <-]|[_ Hc]]; [right|by left]. exists now, ctx, request. cbn [attach_release_signature Certification.body certificate_hash] in *.
      rewrite Hcom, Hh. split_and!; [done..| |]; [|exists run; by rewrite Hrh]. destruct Hb. by split.
  - by destruct (revoke_cases digest artifact_digest token_decode event_digest rel' (ctx_actor ctx) why now (repo st) Hi) as [E|(? & ? & _ & _ & _ & _ & e & E & _)]; rewrite E in Hc.
Qed.

Lemma change_revocation q st r' rel rv : repo_change q st r' → life_inv (repo st) → revocations r' !! rel = Some rv →
  revocations (repo st) !! rel = Some rv ∨ ∃ now why ctx, q = ReqRevoke now rel why ctx ∧ "admin" ∈ ctx_roles ctx.
Proof using Type.
  intros [|now rel' expected ctx result _|now rel' expected hash ctx generated current token -> Ha Hr He Hst Hh|now rel' why ctx -> Ha] Hi Hc; [by left|left|left|].
  - by destruct (save_run_cases digest artifact_digest token_decode event_digest result (ctx_actor ctx) (repo st) Hi) as [E|(_ & _ & k & E & _)]; rewrite E in Hc.
  - by destruct (publish_cases digest artifact_digest token_decode event_digest (attach_release_signature current token) (ctx_actor ctx) now (repo st) Hi)
      as [E|(_ & _ & _ & _ & e & E & _)]; rewrite E in Hc.
  - destruct (revoke_cases digest artifact_digest token_decode event_digest rel' (ctx_actor ctx) why now (repo st) Hi) as [E|(? & r & _ & _ & _ & _ & e & E & _)];
      rewrite E in Hc; [by left|]. cbn [revocations] in Hc. apply lookup_insert_Some in Hc as [[<- _]|[_ Hc]]; [right|by left]. by exists now, why, ctx.
Qed.

Lemma served_snoc fs h q : served fs (h ++ [q]) = serve q (served fs h).
Proof using Type. unfold served. by rewrite foldl_app. Qed.

Lemma served_inv fs h : life_inv (repo (served fs h)).
Proof using Type.
  induction h as [|q h IH] using rev_ind; [apply empty_repo_inv|]. rewrite served_snoc. eapply change_inv; [apply serve_change|done].
Qed.

End routes.

(** ** A release that is run, published and revoked *)

Definition release_settings : Settings :=
  MkSettings "test" "" "" None None None None "" "" None None None 0 None 0 0 0 false None "" None None None (TlsFlag true) None None
    (Some "public.pem") (Some "key.pem") "ES256" None None (Some "abcdef0") false "" None "e".
Definition admin_context (key : string) : ApiContext := MkContext "acme" "ann" {["admin"]} "c" (Some ("request-" +:+ key)) None.
Definition sample_claims (t : string) : result token_claims := Ok (MkClaims "r1" 0 0 (toy_sha "") "CERTIFIED" "abcdef0" "r1" (toy_sha "") "a").
Definition sample_served :=
  served (λ _, "") toy_sha (λ _, "error") toy_jwt (sample_loads "ops") Ok id toy_iso (λ _, toy_sha "") toy_read (λ t, int_str (us t))
    (λ _, Ok (Element "testsuite" [("tests", "12"); ("skipped", "0"); ("line-rate", "0.5")] None [])) (λ _, VInt 0) (λ _, toy_sha "")
    (λ _, "a") (λ _ _ _, "token") sample_claims (λ _, "event") (λ _, "") (λ _, "") id VNone (λ _, "audit") (λ _, "intent") (λ _, 0) "tmp" release_settings.
Definition sample_history : list cert_request :=
  [ReqPublish 120 "r1" "abcdef0" (toy_sha "") (admin_context "k0"); ReqRun 150 "r1" "abcdef0" (admin_context "k1");
   ReqPublish 160 "r1" "abcdef0" (toy_sha "") (admin_context "k2"); ReqRevoke 170 "r1" "compromised" (admin_context "k3")].

Example sample_published :
  map (λ n, let repo := (st_store (sample_served (sample_files "ops") (take n sample_history))).1 in
            (bool_decide (is_Some (certificates repo !! "r1")), bool_decide (is_Some (revocations repo !! "r1")))) [1; 2; 3; 4]%nat
  = [(false, false); (false, false); (true, false); (true, true)].
Proof. vm_compute. reflexivity. Qed.

