(* ===== verification/Connectors.v ===== *)
(** * Connectors

    [packages/secrets/resolver.py]: credentials by reference; [packages/connectors/meters.py], [prometheus.py],
    [dcgm.py], [kubernetes.py], [slurm.py], [compute/base.py] and [factory.py]: the clients of meters, metrics and clusters.
    A service answers a request with a document ([fetch]: the GET, the check of its status and the JSON text), and
    a probe with a status ([http_status], none when the connection fails).  Parameters: the resolution of a path, the
    environment, digests.  A field that the code passes on unchecked is taken to have its declared type. *)
From S2P Require Import Prelude PyDecimal PyValue PyText Settings Domain Access Actions Attestation Evidence Material Compute Landing.
Local Open Scope Z_scope.

(** ** Text *)

Fixpoint drop_while_suffix (f : Ascii.ascii → bool) (l : list Ascii.ascii) : list Ascii.ascii :=
  match l with
  | [] => []
  | c :: l' => match drop_while_suffix f l' with [] => if f c then [] else [c] | l'' => c :: l'' end
  end.
(** [s.rstrip("/")] *)
Definition rstrip_slash (s : string) : string := String.string_of_list_ascii (drop_while_suffix (λ c, ord c =? 47) (String.list_ascii_of_string s)).
(** [s[:-n]] *)
Definition drop_last (n : nat) (s : string) : string := String.substring 0 (String.length s - n) s.
Definition remove_prefix (p s : string) : string := if String.prefix p s then String.substring (String.length p) (String.length s - String.length p) s else s.
(** [s.split(sep)] for a one-character separator *)
Fixpoint split_chars (sep : Z) (l acc : list Ascii.ascii) : list string :=
  match l with
  | [] => [String.string_of_list_ascii acc]
  | c :: l' => if ord c =? sep then String.string_of_list_ascii acc :: split_chars sep l' [] else split_chars sep l' (acc ++ [c])
  end.
Definition split_on (sep : Z) (s : string) : list string := split_chars sep (String.list_ascii_of_string s) [].
Definition upper (s : string) : string := String.string_of_list_ascii (map to_upper (String.list_ascii_of_string s)).
(** [needle in s] *)
Fixpoint text_contains (needle s : string) : bool :=
  String.prefix needle s || match s with EmptyString => false | String.String _ s' => text_contains needle s' end.
Definition https_url (s : string) : bool := String.prefix "https://" s.
(** an optional text, when it is not empty *)
Definition nonempty (o : option string) : option string := match o with Some s => if bool_decide (s = "") then None else Some s | None => None end.

(** ** resolver.py *)

Definition is_upper (c : Ascii.ascii) : bool := (65 <=? ord c) && (ord c <=? 90).
(** [SECRET_NAME.fullmatch] *)
Definition secret_name_ok (s : string) : bool :=
  match String.list_ascii_of_string s with
  | [] => false
  | c :: l => is_upper c && forallb (λ c, is_upper c || is_digit c || (ord c =? 95)) l && (2 <=? length l)%nat && (length l <=? 80)%nat
  end.
Definition environment_prefix : string := "COMPUTEWEAVER_CONNECTOR_SECRET_".

Section resolver.
Context (resolve_path : string → string) (env : gmap string string) (fs : files) (file_root : string).

Definition resolve_file (reference : string) : result string :=
  let relative := remove_prefix "file://" reference in
  raise_if (bool_decide (relative = "") || String.prefix "/" relative) (ValueError "connector secret file reference must be relative");;
  let root := resolve_path file_root in
  let candidate := resolve_path (in_dir root relative) in
  raise_if (negb (is_under root candidate)) (PermissionError "connector secret path escapes the configured root");;
  raise_if (negb (is_file fs candidate)) (PermissionError "connector credential file is unavailable");;
  Ok candidate.

Definition resolve (reference : string) : result string :=
  if String.prefix "secret://" reference then
    let name := remove_prefix "secret://" reference in
    raise_if (negb (secret_name_ok name)) (ValueError "connector secret name is invalid");;
    of_option (PermissionError "connector credential is unavailable") (nonempty (env !! (environment_prefix +:+ name)))
  else if String.prefix "file://" reference then p ← resolve_file reference; content ← read_file fs p; Ok (py_strip content)
  else Err (ValueError "credential_ref must use secret:// or file://").

(** A credential is the value of a prefixed variable, or the content of a file below the configured root. *)
Theorem credentials_confined reference secret : resolve reference = Ok secret →
  (∃ name, secret_name_ok name = true ∧ env !! (environment_prefix +:+ name) = Some secret ∧ secret ≠ "") ∨
  (∃ p content, is_under (resolve_path file_root) p = true ∧ fs !! p = Some content ∧ secret = py_strip content).
Proof.
  unfold resolve. destruct (String.prefix "secret://" reference).
  - intros (? & Hn & H)%bind_ok. destruct x. apply guard_last, negb_false_iff in Hn. left. eexists. split; [exact Hn|].
    destruct (env !! _) as [v|]; [|done]. cbn [nonempty] in H. case_bool_decide; [done|]. cbn in H. by injection H as ->.
  - destruct (String.prefix "file://" reference); [|done]. intros (p & Hp & (content & Hc & [= <-])%bind_ok)%bind_ok. right. exists p, content.
    unfold resolve_file in Hp. apply bind_ok in Hp as (? & _ & Hp). apply bind_ok in Hp as ([] & Hu & Hp). apply bind_ok in Hp as (? & _ & [= <-]).
    apply guard_last, negb_false_iff in Hu. split_and!; [done| |done]. unfold read_file in Hc. by destruct (fs !! _) as [v|]; cbn in Hc; [injection Hc as ->|].
Qed.
End resolver.

(** ** meters.py *)

Record http_request := MkHttp {
  hr_url : string; hr_path : string; hr_headers : list (string * string); hr_params : list (string * string);
  hr_verify : option string; hr_cert : option (string * string)
}.
(** [f"Bearer {token}"] when there is a token *)
Definition bearer (token : option string) : list (string * string) :=
  match nonempty token with Some t => [("Authorization", "Bearer " +:+ t)] | None => [] end.

(** The certificate authority bundle [None] stands for [True]. *)
Record MeterConnector := MkMeterConnector {
  mc_id : string; mc_url : string; mc_token : option string; mc_ca : option string; mc_cert : option (string * string)
}.
Definition meter_connector (id url : string) (token ca : option string) (cert : option (string * string)) : result MeterConnector :=
  raise_if (negb (https_url url)) (ValueError "meter connector URL must use HTTPS");;
  Ok (MkMeterConnector id (rstrip_slash url) token ca cert).

Section meters.
Context (str_container : pyval → string) (payload_digest source_digest : document → string) (iso : datetime → string).
Context (fetch : http_request → result pyval) (http_status : http_request → option Z).
#[local] Abbreviation text := (py_str str_container).

Definition text_item (k : string) (d : document) : result string := v ← item k d; Ok (text v).

Definition interval_event (m : MeterConnector) (tenant : string) (received : Z) (raw : pyval) : result RawEvent :=
  match raw with
  | VDict r =>
      metric ← text_item "metric" r; timestamp ← text_item "timestamp" r; value ← text_item "value" r; unit ← text_item "unit" r;
      meter ← text_item "meter_id" r;
      let payload := [("metric", VStr metric); ("timestamp", VStr timestamp); ("value", VStr value); ("unit", VStr unit); ("meter_id", VStr meter)] in
      let source_id := if py_bool (get "id" r) then text (get "id" r) else source_digest payload in
      Ok (raw_create payload_digest (mc_id m +:+ ":" +:+ source_id) tenant (mc_id m) received payload)
  | _ => Err (ConnectionError "meter interval must be an object")
  end.

Definition pull_request (m : MeterConnector) (start end_ : datetime) (cursor : option string) : http_request :=
  MkHttp (mc_url m) "/v1/intervals" (("Accept", "application/json") :: bearer (mc_token m))
    (("start", iso start) :: ("end", iso end_) :: match nonempty cursor with Some c => [("cursor", c)] | None => [] end) (mc_ca m) (mc_cert m).

(** The intervals and the cursor of a response *)
Definition interval_page (document : pyval) : result (list pyval * option string) :=
  match document with
  | VDict d =>
      match get "intervals" d, get "next_cursor" d with
      | VList l, VNone => Ok (l, None)
      | VList l, VStr c => Ok (l, Some c)
      | _, _ => Err (ConnectionError "meter response is malformed")
      end
  | _ => Err (ConnectionError "meter response is malformed")
  end.

Definition pull (m : MeterConnector) (tenant : string) (start end_ : datetime) (cursor : option string) (received : Z)
    : result (list RawEvent * option string) :=
  bad ← dt_leb end_ start;
  raise_if bad (ValueError "meter interval end must follow start");;
  document ← fetch (pull_request m start end_ cursor);
  page ← interval_page document;
  events ← mapM_result (interval_event m tenant received) page.1;
  Ok (events, page.2).

Definition meter_probe (m : MeterConnector) : bool :=
  bool_decide (http_status (MkHttp (mc_url m) "/health" (bearer (mc_token m)) [] (mc_ca m) (mc_cert m)) = Some 200).
End meters.

(** ** prometheus.py and dcgm.py *)

Definition attribute_missing : exn := OtherError "AttributeError".
(** [v.get(k, fallback)] *)
Definition get_of (k : string) (fallback v : pyval) : result pyval :=
  match v with VDict d => Ok (default fallback (od_get k d)) | _ => Err attribute_missing end.
(** [v.get(k, fallback) if isinstance(v, dict) else other] *)
Definition get_if_dict (k : string) (fallback other v : pyval) : pyval := match v with VDict d => default fallback (od_get k d) | _ => other end.

Record MetricSample := MkSample { sample_metric : string; sample_labels : list (string * string); sample_at : datetime; sample_value : dec }.
Record PrometheusConnector := MkPrometheus { pc_url : string; pc_queries : list (string * string); pc_token : option string; pc_ca : option string }.

Definition prometheus_connector (url : string) (queries : list (string * string)) (token ca : option string) : result PrometheusConnector :=
  raise_if (negb (https_url url)) (ValueError "Prometheus URL must use HTTPS");;
  raise_if (match queries with [] => true | _ => existsb (λ kv, bool_decide (kv.1 = "") || bool_decide (kv.2 = "")) queries end)
    (ValueError "Prometheus query map cannot be empty");;
  Ok (MkPrometheus (rstrip_slash url) queries token ca).

Definition DCGM_QUERIES : list (string * string) :=
  [("gpu_power_w", "DCGM_FI_DEV_POWER_USAGE"); ("gpu_utilization_ratio", "DCGM_FI_DEV_GPU_UTIL / 100");
   ("gpu_memory_used_bytes", "DCGM_FI_DEV_FB_USED * 1024 * 1024"); ("gpu_temperature_c", "DCGM_FI_DEV_GPU_TEMP");
   ("gpu_ecc_errors", "DCGM_FI_DEV_ECC_DBE_VOL_TOTAL")].
Definition dcgm_connector (url : string) (token ca : option string) : result PrometheusConnector := prometheus_connector url DCGM_QUERIES token ca.

Section prometheus.
Context (str_container : pyval → string) (fetch : http_request → result pyval).
(** [t.timestamp()] as a parameter of a request, and [datetime.fromtimestamp(float(v))] *)
Context (stamp : datetime → string) (from_timestamp : pyval → result datetime).
#[local] Abbreviation text := (py_str str_container).

Definition text_labels (d : document) : list (string * string) := map (λ kv, (kv.1, text kv.2)) d.

(** Entries of another shape are passed over. *)
Definition read_sample (signal : string) (labels : document) (acc : list MetricSample) (raw : pyval) : result (list MetricSample) :=
  match raw with
  | VList [at_; v] =>
      t ← from_timestamp at_; x ← PyText.py_decimal str_container v; Ok (acc ++ [MkSample signal (text_labels labels) t x])
  | _ => Ok acc
  end.
Definition read_series (signal : string) (acc : list MetricSample) (series : pyval) : result (list MetricSample) :=
  match series with
  | VDict s =>
      match default (VDict []) (od_get "metric" s), default (VList []) (od_get "values" s) with
      | VDict labels, VList values => foldM_result (read_sample signal labels) values acc
      | _, _ => Ok acc
      end
  | _ => Ok acc
  end.

Definition query_range (p : PrometheusConnector) (signal : string) (start end_ : datetime) (step_seconds : Z) : result (list MetricSample) :=
  query ← of_option (PermissionError "signal is not in the operator-defined Prometheus allowlist") (od_get signal (pc_queries p));
  bad ← dt_leb end_ start;
  raise_if (bad || (step_seconds <? 1)) (ValueError "invalid Prometheus query interval");;
  document ← fetch (MkHttp (pc_url p) "/api/v1/query_range" (("Accept", "application/json") :: bearer (pc_token p))
    [("query", query); ("start", stamp start); ("end", stamp end_); ("step", int_str step_seconds)] (pc_ca p) None);
  status ← get_of "status" VNone document;
  raise_if (negb (py_eq status (VStr "success"))) (ConnectionError "Prometheus query was not successful");;
  data ← get_of "data" (VDict []) document;
  match get_if_dict "result" VNone VNone data with
  | VList results => foldM_result (read_series signal) results []
  | _ => Err (ConnectionError "Prometheus response is malformed")
  end.
End prometheus.

(** ** kubernetes.py *)

(** As the factory makes it: the bundle [None] stands for [True]. *)
Record KubernetesAdapter := MkKubernetes {
  ka_name : string; ka_nodes : list ComputeNode; ka_url : option string; ka_token : option string; ka_token_file : string;
  ka_ca : option string; ka_tenant : option string; ka_site : option string
}.
Definition service_token_file : string := "/var/run/secrets/kubernetes.io/serviceaccount/token".

Section clusters.
Context (str_container : pyval → string) (fetch : http_request → result pyval) (http_status : http_request → option Z).
Context (env : gmap string string) (fs : files) (snapshot_digest : list ComputeNode → string).
#[local] Abbreviation text := (py_str str_container).

Definition in_cluster_url : option string :=
  match nonempty (env !! "KUBERNETES_SERVICE_HOST") with
  | Some host => Some ("https://" +:+ host +:+ ":" +:+ default "443" (env !! "KUBERNETES_SERVICE_PORT_HTTPS"))
  | None => None
  end.
Definition kubernetes_adapter (name : string) (url token ca tenant site : option string) : KubernetesAdapter :=
  MkKubernetes name [] (match nonempty url with Some u => Some u | None => in_cluster_url end) token service_token_file ca tenant site.

Definition k8s_authorization (a : KubernetesAdapter) : result string :=
  let token := match nonempty (ka_token a) with Some t => Some t | None => py_strip <$> fs !! ka_token_file a end in
  t ← of_option (PermissionError "Kubernetes service account token is unavailable") (nonempty token);
  Ok ("Bearer " +:+ t).
Definition k8s_client (a : KubernetesAdapter) (path : string) (params : list (string * string)) : result http_request :=
  url ← of_option (ValueError "Kubernetes API URL must use HTTPS") (nonempty (ka_url a));
  raise_if (negb (https_url url)) (ValueError "Kubernetes API URL must use HTTPS");;
  auth ← k8s_authorization a;
  let verify := match ka_ca a with Some ca => if is_file fs ca then Some ca else None | None => None end in
  Ok (MkHttp url path [("Authorization", auth); ("Accept", "application/json")] params verify None).

(** One page: its nodes, and where the next page continues *)
Definition node_page (answer : pyval) : result (list document * pyval) :=
  match answer with
  | VDict d =>
      match get "items" d with
      | VList items =>
          Ok (omap (λ v, match v with VDict n => Some n | _ => None end) items,
              get_if_dict "continue" VNone VNone (default (VDict []) (od_get "metadata" d)))
      | _ => Err (ConnectionError "Kubernetes node response is malformed")
      end
  | _ => Err (ConnectionError "Kubernetes node response is malformed")
  end.
(** [while True], at most [fuel] pages *)
Fixpoint node_pages (a : KubernetesAdapter) (fuel : nat) (continuation : pyval) (items : list document) : result (list document) :=
  match fuel with
  | O => Err (OtherError "more pages")
  | S fuel' =>
      rq ← k8s_client a "/api/v1/nodes" (("limit", "500") :: if py_bool continuation then [("continue", text continuation)] else []);
      answer ← fetch rq;
      page ← node_page answer;
      if py_bool page.2 then node_pages a fuel' page.2 (items ++ page.1) else Ok (items ++ page.1)
  end.

Definition numbered_gpus (node_id model : string) (memory power : dec) (n : Z) : list Gpu :=
  map (λ i, MkGpu (node_id +:+ "/gpu-" +:+ int_str i) model memory power []) (seqZ 0 n).

Definition memory_units : list (string * dec) := [("Ki", dint 1024); ("Mi", dint (1024 ^ 2)); ("Gi", dint (1024 ^ 3))].
Definition k8s_memory_gb (value : string) : result dec :=
  match base.filter (λ u, str_suffix u.1 value = true) memory_units with
  | (suffix, factor) :: _ => x ← PyText.py_decimal str_container (VStr (drop_last (String.length suffix) value)); ddiv (dmul x factor) (dint 1000000000)
  | [] => x ← PyText.py_decimal str_container (VStr (if bool_decide (value = "") then "0" else value)); ddiv x (dint 1000000000)
  end.
Definition k8s_cpu_cores (cpu : string) : result Z :=
  if str_suffix "m" cpu then n ← py_int (VStr (drop_last 1 cpu)); Ok (n / 1000)
  else x ← PyText.py_decimal str_container (VStr cpu); Ok (dtrunc x).
Definition ready_condition (c : pyval) : bool :=
  match c with VDict d => py_eq (get "type" d) (VStr "Ready") && py_eq (get "status" d) (VStr "True") | _ => false end.
(** [a or str(labels.get(k, ""))] *)
Definition given_or (o : option string) (fallback : string) : string := match nonempty o with Some s => s | None => fallback end.

Definition k8s_normalize_node (a : KubernetesAdapter) (item : document) : result ComputeNode :=
  let metadata := default (VDict []) (od_get "metadata" item) in
  let status := default (VDict []) (od_get "status" item) in
  match get_if_dict "labels" (VDict []) (VDict []) metadata, get_if_dict "capacity" (VDict []) (VDict []) status with
  | VDict labels, VDict capacity =>
      uid ← get_of "uid" VNone metadata; nm ← get_of "name" VNone metadata;
      let node_id := text (py_or uid nm) in
      raise_if (bool_decide (node_id = "") || bool_decide (node_id = "None")) (ValueError "Kubernetes node has no stable identifier");;
      let label k fallback := text (default (VStr fallback) (od_get k labels)) in
      let tenant := given_or (ka_tenant a) (label "computeweaver.io/tenant" "") in
      let site := given_or (ka_site a) (label "topology.kubernetes.io/region" "") in
      raise_if (bool_decide (tenant = "") || bool_decide (site = "")) (ValueError "Kubernetes node is missing tenant/site mapping labels");;
      gpu_count ← py_int (default (VInt 0) (od_get "nvidia.com/gpu" capacity));
      let model := text (py_or (get "nvidia.com/gpu.product" labels) (py_or (get "nvidia.com/gpu.machine" labels) (VStr "unknown"))) in
      memory ← PyText.py_decimal str_container (default (VStr "0") (od_get "computeweaver.io/gpu-memory-gb" labels));
      power ← PyText.py_decimal str_container (default (VStr "0") (od_get "computeweaver.io/gpu-max-power-kw" labels));
      conditions ← py_iter (get_if_dict "conditions" (VList []) (VList []) status);
      cpu ← k8s_cpu_cores (text (default (VStr "0") (od_get "cpu" capacity)));
      node_memory ← k8s_memory_gb (text (default (VStr "0") (od_get "memory" capacity)));
      Ok (MkComputeNode node_id tenant site (label "computeweaver.io/topology-asset" node_id) (numbered_gpus node_id model memory power gpu_count) cpu
            node_memory (if existsb ready_condition conditions then READY else NODE_FAILED) (text_labels str_container labels))
  | _, _ => Err (ValueError "Kubernetes node metadata is malformed")
  end.

Definition k8s_discover (a : KubernetesAdapter) (fuel : nat) : result (list ComputeNode) :=
  match nonempty (ka_url a) with
  | None => Ok (ka_nodes a)
  | Some _ => items ← node_pages a fuel VNone []; mapM_result (k8s_normalize_node a) items
  end.
Definition k8s_validate_credentials (a : KubernetesAdapter) : bool :=
  match nonempty (ka_url a) with
  | None => match ka_nodes a with [] => false | _ => true end
  | Some _ => match k8s_client a "/version" [] with Ok rq => bool_decide (http_status rq = Some 200) | Err _ => false end
  end.

(** ** slurm.py *)

Record SlurmAdapter := MkSlurm {
  sa_name : string; sa_nodes : list ComputeNode; sa_url : option string; sa_token : option string; sa_user : option string;
  sa_ca : option string; sa_tenant : option string; sa_site : option string; sa_version : string
}.
Definition slurm_adapter (name : string) (url token user ca tenant site : option string) : SlurmAdapter :=
  MkSlurm name [] (rstrip_slash <$> nonempty url) token user ca tenant site "v0.0.42".

Definition slurm_client (a : SlurmAdapter) (path : string) : result http_request :=
  url ← of_option (ValueError "slurmrestd API URL must use HTTPS") (nonempty (sa_url a));
  raise_if (negb (https_url url)) (ValueError "slurmrestd API URL must use HTTPS");;
  token ← of_option (PermissionError "Slurm JWT token is unavailable") (nonempty (sa_token a));
  Ok (MkHttp url path (("X-SLURM-USER-TOKEN", token) :: ("Accept", "application/json") ::
        match nonempty (sa_user a) with Some u => [("X-SLURM-USER-NAME", u)] | None => [] end) [] (sa_ca a) None).

(** [int(text.split("(", 1)[0])], which raises ValueError *)
Definition gres_number (s : string) : option Z :=
  match py_int (VStr (default "" (head (split_on 40 s)))) with Ok n => Some n | Err _ => None end.
(** The GPUs of one entry of a node's generic resources *)
Definition gres_entry (entry : string) : option (Z * string) :=
  if String.prefix "gpu:" entry then
    match split_on 58 entry with
    | _ :: model :: number :: _ => n ← gres_number number; Some (n, model)
    | [_; number] => n ← gres_number number; Some (n, "unknown")
    | _ => None
    end
  else None.
Definition parse_gres (raw : pyval) : Z * string :=
  let entries := match raw with VList l => map text l | _ => split_on 44 (text raw) end in
  default (0, "unknown") (head (omap gres_entry entries)).

Definition slurm_state (state_text : string) : NodeState :=
  let has flags := existsb (λ f, text_contains f (upper state_text)) flags in
  if has ["DOWN"; "FAIL"; "NOT_RESPONDING"] then NODE_FAILED else if has ["DRAIN"; "MAINT"] then MAINTENANCE else READY.

Definition slurm_normalize_node (a : SlurmAdapter) (item : document) : result ComputeNode :=
  let node_id := text (py_or (get "name" item) (py_or (get "node_name" item) (VStr ""))) in
  raise_if (bool_decide (node_id = "")) (ValueError "Slurm node has no name");;
  let tenant := given_or (sa_tenant a) (text (py_or (get "tenant_id" item) (VStr ""))) in
  let site := given_or (sa_site a) (text (py_or (get "site_id" item) (py_or (get "cluster" item) (VStr "")))) in
  raise_if (bool_decide (tenant = "") || bool_decide (site = "")) (ValueError "Slurm node is missing tenant/site mapping");;
  let '(gpu_count, model) := parse_gres (py_or (get "gres" item) (py_or (get "gres_used" item) (VStr ""))) in
  memory ← PyText.py_decimal str_container (default (VInt 0) (od_get "gpu_memory_gb" item));
  power ← PyText.py_decimal str_container (default (VInt 0) (od_get "gpu_max_power_kw" item));
  let state_text := match py_or (get "state" item) (py_or (get "state_flags" item) (VList [])) with
                    | VList l => String.concat " " (map text l)
                    | v => text v
                    end in
  cpus ← py_int (py_or (get "cpus" item) (py_or (get "cpus_effective" item) (VInt 0)));
  real ← PyText.py_decimal str_container (py_or (get "real_memory" item) (VInt 0));
  node_memory ← ddiv real (dint 1024);
  Ok (MkComputeNode node_id tenant site (text (py_or (get "topology_asset_id" item) (VStr node_id)))
        (numbered_gpus node_id model memory power gpu_count) cpus node_memory (slurm_state state_text)
        [("slurm.partition", text (py_or (get "partitions" item) (VStr "")))]).

Definition slurm_discover (a : SlurmAdapter) : result (list ComputeNode) :=
  match nonempty (sa_url a) with
  | None => Ok (sa_nodes a)
  | Some _ =>
      rq ← slurm_client a ("/slurm/" +:+ sa_version a +:+ "/nodes");
      answer ← fetch rq;
      match get_if_dict "nodes" VNone VNone answer with
      | VList l => mapM_result (slurm_normalize_node a) (omap (λ v, match v with VDict n => Some n | _ => None end) l)
      | _ => Err (ConnectionError "Slurm node response is malformed")
      end
  end.
Definition slurm_validate_credentials (a : SlurmAdapter) : bool :=
  match nonempty (sa_url a) with
  | None => match sa_nodes a with [] => false | _ => true end
  | Some _ => match slurm_client a ("/slurm/" +:+ sa_version a +:+ "/ping") with Ok rq => bool_decide (http_status rq = Some 200) | Err _ => false end
  end.

(** ** compute/base.py: the interface of the adapters *)

Inductive compute_adapter :=
| StaticComputeAdapter (name : string) (nodes : list ComputeNode)
| Kubernetes (a : KubernetesAdapter)
| Slurm (a : SlurmAdapter).

Definition adapter_name (a : compute_adapter) : string :=
  match a with StaticComputeAdapter n _ => n | Kubernetes k => ka_name k | Slurm k => sa_name k end.
Definition read_only (a : compute_adapter) : bool := true.
(** [ReadOnlyAdapter.execute] *)
Definition adapter_execute (a : compute_adapter) (action : document) : result unit :=
  Err (PermissionError "external adapter is read-only; use guarded execution").
Definition adapter_dry_run (a : compute_adapter) (action : document) : document :=
  [("adapter", VStr (adapter_name a)); ("read_only", VBool true); ("would_apply", VDict action)].
Definition discover (a : compute_adapter) (pages : nat) : result (list ComputeNode) :=
  match a with StaticComputeAdapter _ ns => Ok ns | Kubernetes k => k8s_discover k pages | Slurm k => slurm_discover k end.
Definition validate_credentials (a : compute_adapter) : bool :=
  match a with StaticComputeAdapter _ _ => true | Kubernetes k => k8s_validate_credentials k | Slurm k => slurm_validate_credentials k end.
Definition snapshot_from (a : compute_adapter) (tenant : string) (topology_version : Z) (ns : list ComputeNode) (now : datetime) : result ComputeSnapshot :=
  build snapshot_digest tenant topology_version (adapter_name a) ns [] now now ∅ ∅.
Definition adapter_snapshot (a : compute_adapter) (pages : nat) (tenant : string) (topology_version : Z) (now : datetime) : result ComputeSnapshot :=
  ns ← discover a pages; snapshot_from a tenant topology_version ns now.
(** the snapshot that [watch] yields *)
Definition watch (a : compute_adapter) (pages : nat) (now : datetime) : result ComputeSnapshot :=
  ns ← discover a pages;
  let configured := match a with StaticComputeAdapter _ _ => None | Kubernetes k => ka_tenant k | Slurm k => sa_tenant k end in
  snapshot_from a (match ns with n :: _ => node_tenant_id n | [] => given_or configured "unknown" end) 1 ns now.

(** ** factory.py *)

Definition factory_mig (v : pyval) : result MigSlice :=
  i ← py_item "id" v; m ← py_item "memory_gb" v; m ← PyText.py_decimal str_container m;
  f ← py_item "compute_fraction" v; f ← PyText.py_decimal str_container f;
  mig_slice_check (MkMigSlice (text i) m f).
Definition factory_gpu (v : pyval) : result Gpu :=
  i ← py_item "id" v; model ← py_item "model" v; m ← py_item "memory_gb" v; m ← PyText.py_decimal str_container m;
  p ← py_item "max_power_kw" v; p ← PyText.py_decimal str_container p;
  slices ← get_of "mig_slices" (VList []) v; slices ← py_iter slices; slices ← mapM_result factory_mig slices;
  gpu_check (MkGpu (text i) (text model) m p slices).
Definition node_state_of (s : string) : result NodeState :=
  if bool_decide (s = "ready") then Ok READY else if bool_decide (s = "maintenance") then Ok MAINTENANCE
  else if bool_decide (s = "failed") then Ok NODE_FAILED else Err (ValueError "not a valid NodeState").
Definition factory_node (tenant : string) (d : document) : result ComputeNode :=
  i ← item "id" d; site ← item "site_id" d; asset ← item "topology_asset_id" d;
  gs ← py_iter (default (VList []) (od_get "gpus" d)); gs ← mapM_result factory_gpu gs;
  cores ← py_int (default (VInt 0) (od_get "cpu_cores" d));
  memory ← PyText.py_decimal str_container (default (VInt 0) (od_get "memory_gb" d));
  state ← node_state_of (text (default (VStr "ready") (od_get "state" d)));
  labels ← dict_of (default (VDict []) (od_get "labels" d));
  Ok (MkComputeNode (text i) tenant (text site) (text asset) gs cores memory state (text_labels str_container labels)).
Definition factory_nodes (v : pyval) (tenant : string) : result (list ComputeNode) :=
  match v with
  | VList ((_ :: _) as l) =>
      let documents := omap (λ v, match v with VDict n => Some n | _ => None end) l in
      ns ← mapM_result (factory_node tenant) documents;
      raise_if (negb (length ns =? length l)%nat) (ValueError "simulator connector node document is invalid");;
      Ok ns
  | _ => Err (ValueError "simulator connector requires at least one node")
  end.

Context (resolve_path : string → string) (file_root : string).
#[local] Abbreviation configuration := (gmap string pyval).
#[local] Abbreviation secret := (resolve resolve_path env fs file_root).
#[local] Abbreviation secret_file := (resolve_file resolve_path fs file_root).

Definition setting (k : string) (c : configuration) : pyval := default VNone (c !! k).
Definition setting_text (k : string) (c : configuration) : string := text (default (VStr "") (c !! k)).
(** a reference that is a text, resolved *)
Definition resolved (k : string) (c : configuration) : result (option string) :=
  match setting k c with VStr r => v ← secret r; Ok (Some v) | _ => Ok None end.
Definition resolved_bundle (c : configuration) : result (option string) :=
  match setting "ca_bundle_ref" c with VStr r => p ← secret_file r; Ok (Some p) | _ => Ok None end.

Definition create_compute_adapter (id : string) (c : configuration) (tenant : string) : result compute_adapter :=
  let kind := setting_text "type" c in
  if bool_decide (kind = "simulator") then ns ← factory_nodes (setting "nodes" c) tenant; Ok (StaticComputeAdapter id ns)
  else
    let endpoint := setting_text "endpoint" c in
    raise_if (negb (https_url endpoint)) (ValueError "external compute connector endpoint must use HTTPS");;
    let service_account := bool_decide (kind = "kubernetes") && py_eq (setting "auth_mode" c) (VStr "service_account") in
    let referenced := match setting "credential_ref" c with VStr _ => true | _ => false end in
    raise_if (negb service_account && negb referenced) (ValueError "external compute connector requires credential_ref");;
    credential ← resolved "credential_ref" c;
    let site := setting_text "site_id" c in
    raise_if (bool_decide (site = "")) (ValueError "external compute connector requires site_id");;
    ca ← resolved_bundle c;
    if bool_decide (kind = "kubernetes") then Ok (Kubernetes (kubernetes_adapter id (Some endpoint) credential ca (Some tenant) (Some site)))
    else if bool_decide (kind = "slurm") then
      Ok (Slurm (slurm_adapter id (Some endpoint) credential (if py_bool (setting "user_name" c) then Some (text (setting "user_name" c)) else None)
                   ca (Some tenant) (Some site)))
    else Err (ValueError ("unsupported compute connector type " +:+ kind)).

Definition create_meter_connector (id : string) (c : configuration) : result MeterConnector :=
  raise_if (negb (py_eq (setting "type" c) (VStr "https_meter"))) (ValueError "connector is not an HTTPS meter");;
  let endpoint := setting_text "endpoint" c in
  token ← resolved "credential_ref" c;
  ca ← resolved_bundle c;
  let certificate_ref := setting "client_certificate_ref" c in
  let key_ref := setting "client_key_ref" c in
  raise_if (negb (Bool.eqb (py_bool certificate_ref) (py_bool key_ref))) (ValueError "meter mTLS certificate and key references must be configured together");;
  certificate ← (if py_bool certificate_ref && py_bool key_ref
                 then f ← secret_file (text certificate_ref); k ← secret_file (text key_ref); Ok (Some (f, k)) else Ok None);
  raise_if (match token, certificate with None, None => true | _, _ => false end)
    (ValueError "meter connector requires a token or mTLS credential references");;
  meter_connector id endpoint token ca certificate.

(** ** Discovery *)

(** The service lists these nodes, from a continuation on, in [n] pages. *)
Inductive paged (a : KubernetesAdapter) : pyval → nat → list document → Prop :=
| last_page continuation rq answer items next :
    k8s_client a "/api/v1/nodes" (("limit", "500") :: if py_bool continuation then [("continue", text continuation)] else []) = Ok rq →
    fetch rq = Ok answer → node_page answer = Ok (items, next) → py_bool next = false → paged a continuation 1 items
| more_pages continuation rq answer items next n rest :
    k8s_client a "/api/v1/nodes" (("limit", "500") :: if py_bool continuation then [("continue", text continuation)] else []) = Ok rq →
    fetch rq = Ok answer → node_page answer = Ok (items, next) → py_bool next = true → paged a next n rest →
    paged a continuation (S n) (items ++ rest).

Lemma node_pages_complete a continuation n items : paged a continuation n items → ∀ fuel acc, (n <= fuel)%nat →
  node_pages a fuel continuation acc = Ok (acc ++ items).
Proof using Type.
  induction 1 as [c rq answer items next Hrq Hf Hp Hn|c rq answer items next n rest Hrq Hf Hp Hn _ IH]; intros [|fuel] acc Hfuel; try lia; cbn [node_pages];
    unfold mbind, result_bind; rewrite Hrq, Hf, Hp; cbn [fst snd]; rewrite Hn; [done|]. rewrite IH by lia. by rewrite app_assoc.
Qed.

(** However many pages the service spreads its nodes over, all are discovered, in order. *)
Theorem kubernetes_discovery_complete a n items fuel : paged a VNone n items → (n <= fuel)%nat → nonempty (ka_url a) ≠ None →
  k8s_discover a fuel = mapM_result (k8s_normalize_node a) items.
Proof using Type.
  intros Hp Hf Hu. unfold k8s_discover. destruct (nonempty (ka_url a)) eqn:E; [|done]. unfold mbind, result_bind.
  by rewrite (node_pages_complete a VNone n items Hp fuel [] Hf).
Qed.

Lemma numbered_ids node_id model memory power n : map gpu_id (numbered_gpus node_id model memory power n) = map (λ i, node_id +:+ "/gpu-" +:+ int_str i) (seqZ 0 n).
Proof using Type. unfold numbered_gpus. by rewrite map_map. Qed.

Lemma given_or_some s fallback : s ≠ "" → given_or (Some s) fallback = s.
Proof using Type. intros Hs. unfold given_or, nonempty. by rewrite bool_decide_false. Qed.

Lemma k8s_node_tenant a item node t : ka_tenant a = Some t → t ≠ "" → k8s_normalize_node a item = Ok node → node_tenant_id node = t.
Proof using Type.
  intros Ha Ht. unfold k8s_normalize_node. destruct (get_if_dict "labels" _ _ _) as [| | | | | | |labels]; try done.
  destruct (get_if_dict "capacity" _ _ _) as [| | | | | | |capacity]; try done.
  intros (uid & _ & (nm & _ & (? & _ & (? & _ & (gc & _ & (mem & _ & (pow & _ & (conds & _ & (cpu & _ & (nmem & _ & [= <-])%bind_ok)%bind_ok)%bind_ok)%bind_ok)%bind_ok)%bind_ok)%bind_ok)%bind_ok)%bind_ok)%bind_ok.
  cbn [node_tenant_id]. rewrite Ha. by apply given_or_some.
Qed.

Lemma slurm_node_tenant a item node t : sa_tenant a = Some t → t ≠ "" → slurm_normalize_node a item = Ok node → node_tenant_id node = t.
Proof using Type.
  intros Ha Ht. unfold slurm_normalize_node. intros (? & _ & (? & _ & H)%bind_ok)%bind_ok. destruct (parse_gres _) as [gc model].
  apply bind_ok in H as (mem & _ & (pow & _ & (cpus & _ & (real & _ & (nmem & _ & [= <-])%bind_ok)%bind_ok)%bind_ok)%bind_ok).
  cbn [node_tenant_id]. rewrite Ha. by apply given_or_some.
Qed.

Lemma factory_node_tenant t d node : factory_node t d = Ok node → node_tenant_id node = t.
Proof using Type.
  unfold factory_node.
  intros (i & _ & (si & _ & (asset & _ & (gs & _ & (gs' & _ & (cores & _ & (memory & _ & (st & _ & (labels & _ & [= <-])%bind_ok)%bind_ok)%bind_ok)%bind_ok)%bind_ok)%bind_ok)%bind_ok)%bind_ok)%bind_ok.
  done.
Qed.

Lemma mapM_all {X Y} (f : X → result Y) (P : Y → Prop) l k : (∀ x y, f x = Ok y → P y) → mapM_result f l = Ok k → Forall P k.
Proof using Type. intros Hf Hk%mapM_result_Forall2. induction Hk; constructor; eauto. Qed.

(** An adapter made for a tenant discovers nodes of that tenant only, whatever the service answers, so its snapshot is
    never refused as one of another tenant; and it executes nothing. *)
Theorem adapters_respect_tenant id c t a pages ns : t ≠ "" → create_compute_adapter id c t = Ok a → discover a pages = Ok ns →
  Forall (λ n, node_tenant_id n = t) ns ∧ adapter_name a = id ∧
  (∀ action, is_ok (adapter_execute a action) = false) ∧
  (∀ v now, adapter_snapshot a pages t v now ≠ Err (PermissionError "snapshot contains cross-tenant node")).
Proof using Type.
  intros Ht Hc Hd. assert (Forall (λ n, node_tenant_id n = t) ns ∧ adapter_name a = id) as [Hns Hid].
  { unfold create_compute_adapter in Hc. case_bool_decide.
    - apply bind_ok in Hc as (nodes & Hn & [= <-]). injection Hd as <-. split; [|done]. unfold factory_nodes in Hn.
      destruct (setting "nodes" c) as [| | | | | |[|v l]|]; try done. apply bind_ok in Hn as (nodes' & Hm & Hn). apply bind_ok in Hn as (? & _ & [= <-]).
      eapply mapM_all; [|exact Hm]. apply factory_node_tenant.
    - apply bind_ok in Hc as (? & _ & (? & _ & (cr & _ & (? & _ & (ca & _ & Hc)%bind_ok)%bind_ok)%bind_ok)%bind_ok). case_bool_decide; [|case_bool_decide; [|done]].
      + injection Hc as <-. split; [|done]. cbn [discover] in Hd. unfold k8s_discover in Hd. destruct (nonempty _) as [u|]; [|injection Hd as <-; constructor].
        apply bind_ok in Hd as (items & _ & Hm). eapply mapM_all; [|exact Hm]. intros ? ?. by apply k8s_node_tenant.
      + injection Hc as <-. split; [|done]. cbn [discover] in Hd. unfold slurm_discover in Hd. destruct (nonempty _) as [u|]; [|injection Hd as <-; constructor].
        apply bind_ok in Hd as (rq & _ & (answer & _ & Hm)%bind_ok). destruct (get_if_dict "nodes" _ _ _) as [| | | | | |l|]; try done.
        eapply mapM_all; [|exact Hm]. intros ? ?. by apply slurm_node_tenant. }
  split_and!; [done|done|done|]. intros v now. unfold adapter_snapshot. rewrite Hd. unfold mbind at 1, result_bind at 1, snapshot_from, build.
  assert (existsb (λ n, negb (bool_decide (node_tenant_id n = t))) ns = false) as ->.
  { apply existsb_false. eapply Forall_impl; [exact Hns|]. intros n ->. by rewrite bool_decide_true. }
  unfold mbind, result_bind, raise_if, dt_sub. rewrite Bool.eqb_reflx. by repeat (case_match; simplify_eq).
Qed.
End clusters.

(** ** Generic resources of Slurm *)

(** The GPUs of an entry without a type but with its sockets, a form that [slurmrestd] uses, are not seen, and of several
    types only the first is. *)
Theorem slurm_gres_missed :
  map (λ s, parse_gres (λ _, "") (VStr s)) ["gpu:a100:4(S:0-1)"; "gpu:4"; "gpu:4(S:0-1)"; "gpu:a100:4,gpu:v100:2"]
  = [(4, "a100"); (4, "unknown"); (0, "unknown"); (4, "a100")].
Proof. vm_compute. reflexivity. Qed.

(** ** A paginated cluster *)

Definition toy_node (name gpus : string) : pyval :=
  VDict [("metadata", VDict [("name", VStr name); ("labels", VDict [("nvidia.com/gpu.product", VStr "H100")])]);
         ("status", VDict [("capacity", VDict [("nvidia.com/gpu", VStr gpus); ("cpu", VStr "1500m"); ("memory", VStr "4Gi")]);
                           ("conditions", VList [VDict [("type", VStr "Ready"); ("status", VStr "True")]])])].
Definition toy_fetch (rq : http_request) : result pyval :=
  match od_get "continue" (hr_params rq) with
  | None => Ok (VDict [("items", VList [toy_node "n1" "2"]); ("metadata", VDict [("continue", VStr "next")])])
  | Some _ => Ok (VDict [("items", VList [toy_node "n2" "1"])])
  end.
Definition toy_cluster : gmap string pyval :=
  {["type" := VStr "kubernetes"; "endpoint" := VStr "https://cluster"; "credential_ref" := VStr "secret://CLUSTER_TOKEN"; "site_id" := VStr "s1"]}.

Example toy_discovery :
  match create_compute_adapter (λ _, "") {[environment_prefix +:+ "CLUSTER_TOKEN" := "token"]} ∅ id "/secrets" "c1" toy_cluster "acme" with
  | Ok a => match discover (λ _, "") toy_fetch ∅ a 5 with
            | Ok ns => map (λ n, (node_id n, node_tenant_id n, map gpu_id (gpus n), node_cpu_cores n, dec_str (node_memory_gb n))) ns
            | Err _ => []
            end
  | Err _ => []
  end = [("n1", "acme", ["n1/gpu-0"; "n1/gpu-1"], 1, "4.294967296"); ("n2", "acme", ["n2/gpu-0"], 1, "4.294967296")].
Proof. vm_compute. reflexivity. Qed.
