(* ===== verification/Synchronization.v ===== *)
(** * Synchronisation of connectors: [apps/api/main.py]

    The routes that pull intervals from a meter into the landing, the series and the offset of the connector, probe a
    connector, and store the inventory of a cluster.  A synchronisation writes in three steps (events and points, then
    the offset, then the record of the operation), so a process may stop between them; the theorem is about the retry. *)
From S2P Require Import Prelude PyDecimal PyValue PyText Settings Domain Access AuditLog Versions Store Operations Api Attestation Compute Landing TimeSeries Ingestion Connectors.
Local Open Scope Z_scope.

(** The breaker with the stores behind it, and the offsets *)
Abbreviation sync_world := ((CircuitBreaker * stores) * gmap offset_key ConnectorOffset)%type.

Section sync.
Context (str_container : pyval → string) (fromisoformat : string → result datetime) (iso : datetime → string).
Context (payload_digest source_digest : document → string).
Context (fetch : http_request → result pyval) (http_status : http_request → option Z).
Context (env : gmap string string) (fs : files) (resolve_path : string → string) (file_root : string).
Context (snapshot_digest : list ComputeNode → string) (snapshot_document : ComputeSnapshot → gmap string pyval).
#[local] Abbreviation text := (py_str str_container).
#[local] Abbreviation meter_of := (create_meter_connector str_container env fs resolve_path file_root).
#[local] Abbreviation pull := (pull str_container payload_digest source_digest iso fetch).
#[local] Abbreviation ingest := (ingest fromisoformat str_container).

Definition offset_of (k : offset_key) (w : sync_world) : ConnectorOffset := default (MkOffset None None) (w.2 !! k).

(** What a synchronisation reports *)
Record sync_result := MkSync { sy_counts : IngestionResult; sy_offset : ConnectorOffset }.

(** [synchronize]: [received] is the time of the response, [now] and [clock] those of the breaker *)
Definition pull_and_ingest (received now : Z) (clock : nat → Z) (m : MeterConnector) (tenant : string) (start end_ : datetime) (cursor : option string)
    : M sync_world (IngestionResult * option string) := λ w,
  match pull m tenant start end_ cursor received with
  | Err e => (w, Err e)
  | Ok (events, next) =>
      let '(bs, r) := ingest now clock events w.1 in
      ((bs, w.2), counts ← r; Ok (counts, next))
  end.
Definition commit_offset (k : offset_key) (c : option string) (w : Z) : M sync_world ConnectorOffset := λ x,
  let '(o, r) := mem_offset_commit k c w x.2 in ((x.1, o), r).
Definition synchronize (received now : Z) (clock : nat → Z) (connector : string) (configuration : gmap string pyval) (tenant stream : string)
    (start end_ : datetime) (cursor : option string) : M sync_world sync_result :=
  m ← mlift (meter_of connector configuration);
  x ← pull_and_ingest received now clock m tenant start end_ cursor;
  offset ← commit_offset (tenant, connector, stream) x.2 (us end_);
  mret (MkSync x.1 offset).

Definition sync_document (connector stream : string) (r : sync_result) : document :=
  [("accepted_raw", VInt (accepted_raw (sy_counts r))); ("accepted_points", VInt (accepted_points (sy_counts r)));
   ("duplicates", VInt (duplicates (sy_counts r))); ("connector_id", VStr connector); ("stream", VStr stream);
   ("cursor", match cursor (sy_offset r) with Some c => VStr c | None => VNone end);
   ("watermark", match watermark (sy_offset r) with Some w => VStr (iso (DT w true)) | None => VNone end)].

(** ** The routes *)

Context {S A : Type} (api : store_api pyval S) (audit_digest : audit_source → string) (intent_digest : pyval → string).
#[local] Abbreviation state := (api_state (S * sync_world) A).
#[local] Abbreviation operate := (audited_operation (S := S * sync_world) (A := A) audit_digest intent_digest).

Definition configured (connector tenant : string) : M state (StoredResource pyval) := λ st,
  (st, api_get api (tenant, "connector", connector) (st_store st).1).
Definition on_world {X} (m : M sync_world X) : M state X := on_store (λ s : S * sync_world, let '(w, x) := m s.2 in ((s.1, w), x)).
Definition on_resources {X} (m : M S X) : M state X := on_store (λ s : S * sync_world, let '(r, x) := m s.1 in ((r, s.2), x)).

(** The interval asked for: from the given start, or from where the last synchronisation ended *)
Definition sync_interval (data : document) (offset : ConnectorOffset) : result (datetime * datetime) :=
  let start_value := get "start" data in
  let missing := match watermark offset with Some _ => false | None => negb (py_bool start_value) end in
  raise_if (missing || negb (py_bool (get "end" data))) (ValueError "connector sync requires start and end timestamps");;
  start ← (if py_bool start_value then fromisoformat (text start_value)
           else match watermark offset with Some w => Ok (DT w true) | None => Err TypeError end);
  end_ ← fromisoformat (text (get "end" data));
  raise_if (negb (aware start) || negb (aware end_)) (ValueError "connector sync timestamps must be timezone-aware");;
  Ok (start, end_).

Definition sync_connector (received now : Z) (clock : nat → Z) (connector : string) (b : ResourceRequest) (c : ApiContext) : M state response := λ st,
  (mguard (negb (bool_decide (connector = body_id b))) (ValueError "connector ID mismatch");;
   configuration ← configured connector (ctx_tenant c);
   let stream := text (default (VStr "intervals") (od_get "stream" (body_data b))) in
   mguard (bool_decide (stream = "") || (120 <? String.length stream)%nat) (ValueError "connector stream is invalid");;
   let offset := offset_of (ctx_tenant c, connector, stream) (st_store st).2 in
   interval ← mlift (sync_interval (body_data b) offset);
   operate now c "connector.sync" connector
     (VDict [("connector_version", VInt (version configuration)); ("stream", VStr stream); ("start", VStr (iso interval.1)); ("end", VStr (iso interval.2));
             ("cursor", match cursor offset with Some x => VStr x | None => VNone end)])
     (r ← on_world (synchronize received now clock connector (body configuration) (ctx_tenant c) stream interval.1 interval.2 (cursor offset));
      mret (RResource (list_to_map (sync_document connector stream r))))) st.

#[local] Abbreviation adapter_of := (create_compute_adapter str_container env fs resolve_path file_root).

Definition probe_document (connector adapter : string) (ro valid : bool) : document :=
  [("connector_id", VStr connector); ("adapter", VStr adapter); ("read_only", VBool ro); ("credentials_valid", VBool valid);
   ("external_probe", VStr (if valid then "PASS" else "FAIL"))].
(** [type(adapter).__name__] *)
Definition adapter_class (a : compute_adapter) : string :=
  match a with StaticComputeAdapter _ _ => "SimulatorComputeAdapter" | Kubernetes _ => "KubernetesAdapter" | Slurm _ => "SlurmAdapter" end.
Definition probe (connector tenant : string) (configuration : gmap string pyval) : result document :=
  if py_eq (setting "type" configuration) (VStr "https_meter") then
    m ← meter_of connector configuration; Ok (probe_document connector "HttpsMeterConnector" true (meter_probe http_status m))
  else
    a ← adapter_of connector configuration tenant;
    Ok (probe_document connector (adapter_class a) (read_only a) (validate_credentials http_status fs a)).
Definition test_compute_connector (now : Z) (connector : string) (c : ApiContext) : M state response :=
  configuration ← configured connector (ctx_tenant c);
  operate now c "connector.test" connector (VDict [("connector_version", VInt (version configuration))])
    (d ← mlift (probe connector (ctx_tenant c) (body configuration)); mret (RResource (list_to_map d))).

Definition snapshot_write (connector tenant key : string) (snap : ComputeSnapshot) (if_match : option string) : put_request pyval :=
  MkPut "compute_snapshot" connector tenant (snapshot_document snap) (key +:+ ":snapshot") if_match.
Definition store_snapshot (now : Z) (pages : nat) (connector : string) (configuration : gmap string pyval) (c : ApiContext) : M state (StoredResource pyval) := λ st,
  (a ← mlift (adapter_of connector configuration (ctx_tenant c));
   mguard (negb (validate_credentials http_status fs a)) (ValueError "compute connector credential validation failed");;
   topology ← mlift (py_int (default (VInt 1) (configuration !! "topology_version")));
   mguard (topology <? 1) (ValueError "compute connector topology_version must be positive");;
   snap ← mlift (adapter_snapshot str_container fetch fs snapshot_digest a pages (ctx_tenant c) topology (DT now true));
   if_match ← mlift (match api_get api (ctx_tenant c, "compute_snapshot", connector) (st_store st).1 with
                     | Ok previous => Ok (Some (etag previous))
                     | Err (KeyError _) => Ok None
                     | Err e => Err e
                     end);
   on_resources (api_put api now (snapshot_write connector (ctx_tenant c) (default "None" (ctx_key c)) snap if_match))) st.
Definition sync_compute_connector (now : Z) (pages : nat) (connector : string) (c : ApiContext) : M state response :=
  configuration ← configured connector (ctx_tenant c);
  operate now c "compute_connector.sync" connector
    (VDict [("connector_version", VInt (version configuration)); ("connector_etag", VStr (etag configuration))])
    (r ← store_snapshot now pages connector (body configuration) c; mret (RResource (serialize r))).

(** ** A synchronisation that is repeated *)

Definition received_again (t : Z) (e : RawEvent) : RawEvent := MkRaw (raw_id e) (raw_tenant e) (source e) t (payload e) (payload_hash e).

Lemma settled_again t s e : settled fromisoformat str_container s e → settled fromisoformat str_container s (received_again t e).
Proof using Type. done. Qed.

Lemma interval_again m tenant t t' raw : interval_event str_container payload_digest source_digest m tenant t' raw =
  (e ← interval_event str_container payload_digest source_digest m tenant t raw; Ok (received_again t' e)).
Proof using Type.
  unfold interval_event, mbind, result_bind. destruct raw as [| | | | | | |r]; try done.
  destruct (text_item _ "metric" r); [|done]. destruct (text_item _ "timestamp" r); [|done]. destruct (text_item _ "value" r); [|done].
  destruct (text_item _ "unit" r); [|done]. by destruct (text_item _ "meter_id" r).
Qed.

(** The service answers a request as before, so the events are the same but for the time of receipt. *)
Lemma pull_again m tenant start end_ c t t' events next : pull m tenant start end_ c t = Ok (events, next) →
  pull m tenant start end_ c t' = Ok (map (received_again t') events, next).
Proof using Type.
  unfold Connectors.pull. intros (bad & H1 & (? & H2 & (answer & H3 & (page & H4 & (evs & H5 & [= <- <-])%bind_ok)%bind_ok)%bind_ok)%bind_ok)%bind_ok.
  unfold mbind, result_bind. rewrite H1. cbn. rewrite H2, H3, H4. assert (mapM_result (interval_event str_container payload_digest source_digest m tenant t') page.1 =
    Ok (map (received_again t') evs)) as ->; [|done].
  apply mapM_result_Forall2. apply mapM_result_Forall2 in H5. induction H5 as [|raw e l k He _ IH]; constructor; [|done].
  rewrite (interval_again m tenant t t' raw), He. done.
Qed.

Lemma ingest_ok now clock events w r : (ingest now clock events w).2 = Ok r →
  Forall (settled fromisoformat str_container (ingest now clock events w).1.2) events ∧ accepted_raw r + duplicates r = Z.of_nat (length events) ∧
  opened_at (ingest now clock events w).1.1 = None ∧ failures (ingest now clock events w).1.1 = 0.
Proof using Type.
  destruct w as [b s]. unfold Ingestion.ingest, execute. cbn [fst snd]. case_bool_decide; [done|]. change (Z.to_nat (0 + 1)) with 1%nat. cbn [attempts fst snd].
  pose proof (process_spec fromisoformat str_container events (MkIngestion 0 0 0) s) as Hp. destruct (process _ _ events _ s) as [s1 [r1|e]]; [|by case_match].
  cbn [fst snd]. intros [= <-]. destruct Hp as [_ Hp]. destruct (Hp r1 eq_refl) as [H1 H2]. cbn in H2. split_and!; [done|lia|done|done].
Qed.

Lemma ingest_again now clock events w : Forall (settled fromisoformat str_container w.2) events → opened_at w.1 = None → failures w.1 = 0 →
  ingest now clock events w = (w, Ok (MkIngestion 0 0 (Z.of_nat (length events)))).
Proof using Type.
  destruct w as [b s]. cbn [fst snd]. intros Hs Ho Hf. unfold Ingestion.ingest, execute. cbn [fst snd].
  rewrite bool_decide_false by (unfold breaker_state; rewrite Ho, Hf; done). change (Z.to_nat (0 + 1)) with 1%nat. cbn [attempts fst snd].
  rewrite process_settled by done. cbn. unfold reset. destruct b as [th rec f o]. cbn in *. subst. done.
Qed.

End sync.

(** ** A meter *)

Definition toy_intervals (rq : http_request) : result pyval :=
  let interval at_ v := VDict [("metric", VStr "grid"); ("timestamp", VStr at_); ("value", VStr v); ("unit", VStr "kW"); ("meter_id", VStr "m"); ("id", VStr at_)] in
  Ok (VDict [("intervals", VList [interval "10" "5"; interval "20" "7.5"]); ("next_cursor", VStr "c1")]).
Definition toy_meter : gmap string pyval :=
  {["type" := VStr "https_meter"; "endpoint" := VStr "https://meter"; "credential_ref" := VStr "secret://METER_TOKEN"]}.
Definition toy_env : gmap string string := {[environment_prefix +:+ "METER_TOKEN" := "token"]}.
Definition toy_sync (received : Z) : M sync_world sync_result :=
  synchronize (λ _, "") toy_iso (λ t, int_str (us t)) (λ _, "hash") (λ _, "digest") toy_intervals toy_env ∅ id "/secrets"
    received 0 (λ _, 0) "c1" toy_meter "acme" "intervals" (DT 0 true) (DT 100 true) None.

