(* ===== verification/Requests.v ===== *)
(** * Requests: [packages/scheduling/serialization.py] and the stateless handlers of [apps/api/main.py]

    [parse_job] and [parse_schedule_input], which read jobs and slots from a JSON document, and the handlers that parse
    a body and compute an answer: baseline schedules, costs, power balance, migrations, island and recovery plans,
    scenarios.  A response is the value it is made from.  Parameters: [fromisoformat] of datetimes, dates and times, the
    text of a container, content hashes.  A field that the code passes on unchecked is taken to have its declared type;
    a [frozenset] whose order is visible is a list without repetition. *)
From S2P Require Import Prelude PyDecimal PyValue PyText Settings Domain Evaluation Engine Scenarios Access Workloads Scheduling PlanDocument Energy Tariffs Sites Actions Api Connectors.
From Stdlib Require Import QArith.
Local Open Scope Z_scope.

(** [WorkloadClass(value)] *)
Definition WORKLOAD_CLASSES : list (string * WorkloadClass) :=
  [("training", TRAINING); ("fine_tuning", FINE_TUNING); ("rl", RL); ("batch_inference", BATCH_INFERENCE);
   ("online_inference", ONLINE_INFERENCE); ("preprocessing", PREPROCESSING); ("evaluation", EVALUATION)].
Definition workload_class_of (v : pyval) : result WorkloadClass :=
  match v with
  | VStr s => of_option (ValueError "not a valid WorkloadClass") (od_get s WORKLOAD_CLASSES)
  | _ => Err (ValueError "not a valid WorkloadClass")
  end.

(** A field that is passed on as it is *)
Definition declared_text (v : pyval) : result (option string) :=
  match v with VNone => Ok None | VStr s => Ok (Some s) | _ => Err (OtherError "not the declared type") end.
Definition declared_int (v : pyval) : result (option Z) :=
  match v with VNone => Ok None | VInt z => Ok (Some z) | _ => Err (OtherError "not the declared type") end.

Section parse.
Context (fromisoformat : string → result datetime) (str_container : pyval → string).

#[local] Abbreviation text := (py_str str_container).
#[local] Abbreviation decimal := (PyText.py_decimal str_container).
#[local] Abbreviation strings := (parse_strings str_container).

(** ** serialization.py *)

Definition parse_request (v : pyval) : result Workloads.ResourceRequest :=
  g ← py_item "gpu_count" v; gpus ← py_int g;
  m ← get_of "gpu_model" VNone v; model ← declared_text m;
  c ← get_of "cpu_cores" (VInt 0) v; cores ← py_int c;
  mem ← get_of "memory_gb" (VInt 0) v; memory ← decimal mem;
  e ← py_item "estimated_hours" v; hours ← decimal e;
  p ← py_item "power_kw_per_gpu" v; power ← decimal p;
  resource_request_check (Workloads.MkResourceRequest gpus model cores memory hours power).

Definition parse_sla (v : pyval) : result Sla :=
  d ← py_item "deadline" v; dl ← fromisoformat (text d);
  p ← get_of "priority" (VInt 50) v; prio ← py_int p;
  l ← get_of "max_latency_ms" VNone v; latency ← declared_int l;
  a ← get_of "availability_target" VNone v;
  target ← match a with VNone => Ok None | _ => x ← decimal a; Ok (Some x) end;
  sla_check (MkSla dl prio latency target).

Definition parse_job (data : pyval) (tenant_id : string) : result Job :=
  rq ← py_item "request" data;
  sl ← py_item "sla" data;
  id ← py_item "id" data;
  project ← py_item "project_id" data;
  k ← py_item "workload_class" data; cls ← workload_class_of k;
  rq ← parse_request rq;
  sl ← parse_sla sl;
  t ← py_item "submitted_at" data; submitted ← fromisoformat (text t);
  sites ← get_of "allowed_sites" (VList []) data; sites ← strings sites;
  regions ← get_of "data_regions" (VList []) data; regions ← strings regions;
  deps ← get_of "dependencies" (VList []) data; deps ← strings deps;
  chk ← get_of "checkpointable" (VBool false) data;
  lb ← get_of "labels" (VDict []) data; lb ← dict_of lb;
  Ok (MkJob (text id) tenant_id (text project) cls rq sl submitted (list_to_set sites) (list_to_set regions) (remove_dups deps)
        (py_bool chk) (text_labels str_container lb)).

Definition parse_slot (v : pyval) : result TimeSlot :=
  i ← py_item "index" v; i ← py_int i;
  t ← py_item "starts_at" v; t ← fromisoformat (text t);
  d ← py_item "duration_hours" v; d ← decimal d;
  g ← py_item "gpu_capacity" v; g ← py_int g;
  p ← py_item "power_capacity_kw" v; p ← decimal p;
  pr ← py_item "price_per_kwh" v; pr ← decimal pr;
  c ← get_of "carbon_kg_per_kwh" (VInt 0) v; c ← decimal c;
  Ok (MkTimeSlot i t d g p pr c).

Definition parse_schedule_input (data : pyval) (tenant_id : string) : result ScheduleInput :=
  js ← py_item "jobs" data; js ← py_iter js; js ← mapM_result (λ v, parse_job v tenant_id) js;
  ss ← py_item "slots" data; ss ← py_iter ss; ss ← mapM_result parse_slot ss;
  t ← py_item "topology_version" data; t ← py_int t;
  f ← py_item "forecast_version" data;
  b ← get_of "baseline_name" (VStr "none") data;
  Ok (MkScheduleInput js ss t (text f) (text b)).

(** ** Documents of requests *)

Context (iso : datetime → string).

Definition optional_value {A} (f : A → pyval) (o : option A) : pyval := match o with Some x => f x | None => VNone end.
Definition class_value (c : WorkloadClass) : string :=
  match c with
  | TRAINING => "training" | FINE_TUNING => "fine_tuning" | RL => "rl" | BATCH_INFERENCE => "batch_inference"
  | ONLINE_INFERENCE => "online_inference" | PREPROCESSING => "preprocessing" | EVALUATION => "evaluation"
  end.
Definition request_value (r : Workloads.ResourceRequest) : pyval :=
  VDict [("gpu_count", VInt (gpu_count r)); ("gpu_model", optional_value VStr (gpu_model r)); ("cpu_cores", VInt (cpu_cores r));
         ("memory_gb", VDec (Workloads.memory_gb r)); ("estimated_hours", VDec (estimated_hours r)); ("power_kw_per_gpu", VDec (power_kw_per_gpu r))].
Definition sla_value (s : Sla) : pyval :=
  VDict [("deadline", VStr (iso (deadline s))); ("priority", VInt (priority s)); ("max_latency_ms", optional_value VInt (max_latency_ms s));
         ("availability_target", optional_value VDec (availability_target s))].
Definition job_value (j : Job) : pyval :=
  VDict [("id", VStr (job_id j)); ("project_id", VStr (project_id j)); ("workload_class", VStr (class_value (workload_class j)));
         ("request", request_value (request j)); ("sla", sla_value (sla j)); ("submitted_at", VStr (iso (submitted_at j)));
         ("allowed_sites", strings_value (elements (allowed_sites j))); ("data_regions", strings_value (elements (data_regions j)));
         ("dependencies", strings_value (dependencies j)); ("checkpointable", VBool (checkpointable j));
         ("labels", VDict (map (λ kv, (kv.1, VStr kv.2)) (labels j)))].
Definition slot_value (s : TimeSlot) : pyval :=
  VDict [("index", VInt (index s)); ("starts_at", VStr (iso (starts_at s))); ("duration_hours", VDec (duration_hours s));
         ("gpu_capacity", VInt (gpu_capacity s)); ("power_capacity_kw", VDec (power_capacity_kw s)); ("price_per_kwh", VDec (price_per_kwh s));
         ("carbon_kg_per_kwh", VDec (carbon_kg_per_kwh s))].
Definition input_value (r : ScheduleInput) : pyval :=
  VDict [("jobs", VList (map job_value (jobs r))); ("slots", VList (map slot_value (slots r))); ("topology_version", VInt (topology_version r));
         ("forecast_version", VStr (forecast_version r)); ("baseline_name", VStr (baseline_name r))].

(** What the constructors of a job admit *)
Record job_ok (j : Job) : Prop := {
  jk_gpus : 0 <= gpu_count (request j);
  jk_cores : 0 <= cpu_cores (request j);
  jk_hours : (0 < dval (estimated_hours (request j)))%Q;
  jk_priority : 0 <= priority (sla j) <= 100;
  jk_dependencies : NoDup (dependencies j)
}.

Lemma request_parsed v r : parse_request v = Ok r → 0 <= gpu_count r ∧ 0 <= cpu_cores r ∧ (0 < dval (estimated_hours r))%Q.
Proof using Type.
  unfold parse_request. intros H. repeat (apply bind_ok in H as (? & _ & H)). unfold resource_request_check in H. cbn [gpu_count cpu_cores estimated_hours] in H.
  destruct (_ || _) eqn:E1; [done|]. destruct (dleb _ _) eqn:E2; [done|]. injection H as <-. apply orb_false_iff in E1 as [E1 E3].
  apply dleb_false in E2. rewrite dval_dint in E2. cbn. split_and!; [lia|lia|exact E2].
Qed.

Lemma sla_parsed v s : parse_sla v = Ok s → 0 <= priority s <= 100.
Proof using Type.
  unfold parse_sla. intros H. repeat (apply bind_ok in H as (? & _ & H)). unfold sla_check in H. cbn [priority] in H.
  destruct (negb _) eqn:E; [done|]. injection H as <-. apply negb_false_iff, andb_true_iff in E as [? ?]. cbn. lia.
Qed.

Lemma job_parsed v t j : parse_job v t = Ok j → job_ok j ∧ job_tenant_id j = t.
Proof using Type.
  unfold parse_job. intros H. do 6 apply bind_ok in H as (? & _ & H). apply bind_ok in H as (rq & Hrq & H). apply bind_ok in H as (sl & Hsl & H).
  repeat (apply bind_ok in H as (? & _ & H)). injection H as <-. destruct (request_parsed _ _ Hrq) as (? & ? & ?). pose proof (sla_parsed _ _ Hsl).
  split; [split|]; cbn; try done. apply NoDup_remove_dups.
Qed.

Lemma class_parsed c : workload_class_of (VStr (class_value c)) = Ok c.
Proof using Type. by destruct c. Qed.

Section written.
Context (Hiso : ∀ t, fromisoformat (iso t) = Ok t) (tr : pyval → pyval) (Htr : transport tr).

Lemma transport_str_value s : tr (VStr s) = VStr s.
Proof using Htr. by destruct Htr. Qed.
Lemma transport_int_value z : tr (VInt z) = VInt z.
Proof using Htr. by destruct Htr. Qed.
Lemma transport_bool_value b : tr (VBool b) = VBool b.
Proof using Htr. by destruct Htr. Qed.
Lemma transport_none : tr VNone = VNone.
Proof using Htr. by destruct Htr. Qed.
Lemma transport_dict d : tr (VDict d) = VDict (transported tr d).
Proof using Htr. destruct Htr; [by rewrite transported_id|done]. Qed.
Lemma transport_list l : tr (VList l) = VList (map tr l).
Proof using Htr. destruct Htr; [|done]. unfold id. by rewrite map_id. Qed.
Lemma transport_decimal_value d : decimal (tr (VDec d)) = Ok d.
Proof using Htr. by apply transport_decimal. Qed.

Lemma request_roundtrip r : 0 <= gpu_count r → 0 <= cpu_cores r → (0 < dval (estimated_hours r))%Q → parse_request (tr (request_value r)) = Ok r.
Proof using Htr.
  intros Hg Hc Hh. unfold request_value. rewrite transport_dict. unfold parse_request, transported, py_item, get_of, item. simpl.
  rewrite !transport_int_value. munfold. rewrite !transport_decimal_value.
  assert (declared_text (tr (optional_value VStr (gpu_model r))) = Ok (gpu_model r)) as ->
    by (destruct (gpu_model r); cbn; by rewrite ?transport_str_value, ?transport_none).
  unfold resource_request_check. destruct r as [g m c me e p]. cbn in *.
  rewrite (proj2 (Z.ltb_ge g 0)), (proj2 (Z.ltb_ge c 0)) by lia. cbn.
  rewrite (proj2 (dleb_false e (dint 0))); [done|]. by rewrite dval_dint.
Qed.

Lemma sla_roundtrip s : 0 <= priority s <= 100 → parse_sla (tr (sla_value s)) = Ok s.
Proof using Htr Hiso.
  intros Hp. unfold sla_value. rewrite transport_dict. unfold parse_sla, transported, py_item, get_of, item. simpl.
  rewrite transport_str_value, transport_int_value. munfold. rewrite Hiso.
  assert (declared_int (tr (optional_value VInt (max_latency_ms s))) = Ok (max_latency_ms s)) as ->
    by (destruct (max_latency_ms s); cbn; by rewrite ?transport_int_value, ?transport_none).
  assert (match tr (optional_value VDec (availability_target s)) with
          | VNone => Ok None
          | _ => match decimal (tr (optional_value VDec (availability_target s))) with Ok x => Ok (Some x) | Err e => Err e end
          end = Ok (availability_target s)) as ->.
  { destruct (availability_target s) as [d|]; cbn; [|by rewrite transport_none]. rewrite transport_decimal_value. by destruct Htr. }
  unfold sla_check. destruct s as [d p l a]. cbn in *. rewrite (proj2 (Z.leb_le 0 p)), (proj2 (Z.leb_le p 100)) by lia. done.
Qed.

Lemma labels_roundtrip (l : list (string * string)) :
  (d ← dict_of (tr (VDict (map (λ kv, (kv.1, VStr kv.2)) l))); Ok (text_labels str_container d)) = Ok l.
Proof using Htr.
  rewrite transport_dict. cbn. f_equal. unfold text_labels, transported. rewrite !map_map. rewrite <-(map_id l) at 2. apply map_ext.
  intros [k v]. cbn. by rewrite transport_str_value.
Qed.

Lemma no_repetition (l : list string) : NoDup l → remove_dups l = l.
Proof using Type. induction 1 as [|x l Hx _ IH]; [done|]. cbn [remove_dups]. rewrite IH. by destruct (decide_rel _ x l). Qed.

Lemma job_roundtrip t j : job_ok j → job_tenant_id j = t → parse_job (tr (job_value j)) t = Ok j.
Proof using Htr Hiso.
  intros [Hg Hc Hh Hp Hd] Ht. unfold job_value. rewrite transport_dict. unfold parse_job, transported, py_item, get_of, item. simpl.
  rewrite !transport_str_value, transport_bool_value. unfold of_option, mbind, result_bind. rewrite class_parsed. cbn [default].
  rewrite request_roundtrip, sla_roundtrip by done. cbn [py_str]. rewrite Hiso.
  rewrite !(transport_strings str_container tr _ Htr). pose proof (labels_roundtrip (labels j)) as Hl. unfold mbind, result_bind in Hl.
  destruct (dict_of _) as [d|]; [|done]. injection Hl as ->. rewrite no_repetition by done.
  destruct j. cbn in *. subst. rewrite !list_to_set_elements_L. done.
Qed.

Lemma slot_roundtrip s : parse_slot (tr (slot_value s)) = Ok s.
Proof using Htr Hiso.
  unfold slot_value. rewrite transport_dict. unfold parse_slot, transported, py_item, get_of, item. simpl.
  rewrite !transport_str_value, !transport_int_value. munfold. rewrite Hiso, !transport_decimal_value. by destruct s.
Qed.

Lemma input_roundtrip t r : Forall (λ j, job_ok j ∧ job_tenant_id j = t) (jobs r) → parse_schedule_input (tr (input_value r)) t = Ok r.
Proof using Htr Hiso.
  intros Hj. unfold input_value. rewrite transport_dict. unfold parse_schedule_input, transported, py_item, get_of, item. simpl.
  rewrite !transport_str_value, !transport_int_value, !transport_list, !map_map. munfold.
  rewrite (mapM_result_map _ (λ j, tr (job_value j)) id).
  2: { intros j Hin. rewrite Forall_forall in Hj. destruct (Hj j Hin). by apply job_roundtrip. }
  rewrite (mapM_result_map _ (λ s, tr (slot_value s)) id) by (intros; apply slot_roundtrip). rewrite !map_id. by destruct r.
Qed.
End written.

Lemma input_parsed v t r : parse_schedule_input v t = Ok r → Forall (λ j, job_ok j ∧ job_tenant_id j = t) (jobs r).
Proof using Type.
  unfold parse_schedule_input. intros H. apply bind_ok in H as (? & _ & H). apply bind_ok in H as (l & _ & H). apply bind_ok in H as (js & Hjs & H).
  repeat (apply bind_ok in H as (? & _ & H)). injection H as <-. cbn. apply mapM_result_Forall2 in Hjs.
  induction Hjs; constructor; [by eapply job_parsed|done].
Qed.
End parse.

(** Requests as documents.  Whatever the body says, the jobs of a parsed request belong to the tenant of the caller, count
    no negative resources, run for a positive time, have a priority in range and no repeated dependency; and every request
    of such jobs is read back from its document, as it is or through JSON text, field for field. *)
Theorem schedule_requests_exact (fromisoformat : string → result datetime) (str_container : pyval → string) (iso : datetime → string)
    (tenant : string) (Hiso : ∀ t, fromisoformat (iso t) = Ok t) :
  (∀ v r, parse_schedule_input fromisoformat str_container v tenant = Ok r → Forall (λ j, job_ok j ∧ job_tenant_id j = tenant) (jobs r)) ∧
  (∀ tr r, transport tr → Forall (λ j, job_ok j ∧ job_tenant_id j = tenant) (jobs r) →
     parse_schedule_input fromisoformat str_container (tr (input_value iso r)) tenant = Ok r).
Proof. split; [intros; by eapply input_parsed|intros; by apply input_roundtrip]. Qed.

Definition aware_clock (t : string) : result datetime :=
  match String.list_ascii_of_string t with
  | c :: l => u ← py_int (VStr (String.string_of_list_ascii l)); Ok (DT u (ord c =? 43))
  | [] => Err (ValueError "empty")
  end.
Definition clock_text (t : datetime) : string := String.String (if aware t then chr 43 else chr 45) (int_str (us t)).

Lemma clock_read t : aware_clock (clock_text t) = Ok t.
Proof.
  unfold aware_clock, clock_text. cbn [String.list_ascii_of_string]. rewrite String.string_of_list_ascii_of_string, int_of_int_str.
  destruct t as [u []]; reflexivity.
Qed.

Lemma schedule_requests_exact_witness :
  parse_schedule_input aware_clock (λ _, "") (json_safe_val (input_value clock_text sample_input)) "ten_acme" = Ok sample_input ∧
  is_ok (parse_schedule_input aware_clock (λ _, "") (json_safe_val (input_value clock_text sample_input)) "other") = true.
Proof.
  split; [|by vm_compute]. apply (proj2 (schedule_requests_exact aware_clock (λ _, "") clock_text "ten_acme" clock_read)); [apply through_json|].
  repeat constructor; cbn; (lia || done).
Defined.

(** ** Handlers *)

Section handlers.
Context (fromisoformat : string → result datetime) (date_fromisoformat time_fromisoformat : string → result Z) (str_container : pyval → string).

#[local] Abbreviation text := (py_str str_container).
#[local] Abbreviation decimal := (PyText.py_decimal str_container).
#[local] Abbreviation parse_input := (parse_schedule_input fromisoformat str_container).

(** [Decimal(str(v[k]))], [Decimal(str(v.get(k, fallback)))] *)
Definition decimal_item (k : string) (v : pyval) : result dec := x ← py_item k v; decimal x.
Definition decimal_get (k : string) (fallback v : pyval) : result dec := x ← get_of k fallback v; decimal x.
Definition text_item (k : string) (v : pyval) : result string := x ← py_item k v; Ok (text x).
Definition int_item (k : string) (v : pyval) : result Z := x ← py_item k v; py_int x.

Section scheduling.
Context (content_hash : ScheduleInput → string).

Definition BASELINE_STRATEGIES : list (string * (ScheduleInput → result SchedulePlan)) :=
  [("fifo", schedule_fifo content_hash); ("priority_edf", schedule_priority_edf content_hash); ("price_aware", schedule_price_aware content_hash)].

Definition baseline_schedule (strat : string) (b : ResourceRequest) (c : ApiContext) : result SchedulePlan :=
  rq ← parse_input (VDict (body_data b)) (ctx_tenant c);
  match plan ← of_option (KeyError strat) (od_get strat BASELINE_STRATEGIES); plan rq with
  | Err (KeyError _) => Err (ValueError ("unknown baseline strategy " +:+ strat))
  | answer => answer
  end.
End scheduling.

(** *** Costs *)

Definition parse_period (v : pyval) : result PricePeriod :=
  n ← text_item "name" v;
  s ← text_item "start_local" v; s ← time_fromisoformat s;
  e ← text_item "end_local" v; e ← time_fromisoformat e;
  p ← decimal_item "price_per_kwh" v;
  days ← get_of "weekdays" (VList (map VInt (seqZ 0 7))) v; days ← parse_ints days;
  Ok (MkPeriod n s e p (list_to_set days)).
Definition parse_periods (v : pyval) : result (list PricePeriod) := l ← py_iter v; mapM_result parse_period l.

(** The tariff plan of a mapping; the periods are read where they are given *)
Definition parse_tariff (get : string → option pyval) (id : string) (version_ : Z) (ps : result (list PricePeriod)) : result TariffPlan :=
  let cur := text (default (VStr "USD") (get "currency")) in
  zone ← of_option (KeyError "timezone") (get "timezone");
  from ← of_option (KeyError "effective_from") (get "effective_from"); from ← date_fromisoformat (text from);
  until ← (if py_bool (default VNone (get "effective_to"))
           then u ← date_fromisoformat (text (default VNone (get "effective_to"))); Ok (Some u) else Ok None);
  ps ← ps;
  demand ← decimal (default (VInt 0) (get "demand_charge_per_kw"));
  capacity ← decimal (default (VInt 0) (get "capacity_charge_per_kw"));
  tax ← decimal (default (VInt 0) (get "tax_rate"));
  feed ← decimal (default (VInt 0) (get "feed_in_price_per_kwh"));
  tariff_check (MkTariff id version_ cur (text zone) from until ps demand capacity tax feed).

Definition parse_interval (v : pyval) : result MeterInterval :=
  s ← text_item "started_at" v; s ← fromisoformat s;
  h ← decimal_get "duration_hours" (VInt 1) v;
  i ← decimal_item "import_kwh" v; e ← decimal_get "export_kwh" (VInt 0) v; p ← decimal_get "peak_kw" (VInt 0) v;
  Ok (MkMeter s h i e p).

Context (utc_offset : string → Z → result Z).

Definition calculate_cost (d : document) : result CostBreakdown :=
  let body := VDict d in
  t ← py_item "tariff" body; ps ← py_item "periods" t; ps ← parse_periods ps;
  id ← text_item "id" t;
  v ← get_of "version" (VInt 1) t; v ← py_int v;
  plan ← parse_tariff (λ k, match t with VDict d => od_get k d | _ => None end) id v (Ok ps);
  is_ ← py_item "intervals" body; is_ ← py_iter is_; is_ ← mapM_result parse_interval is_;
  capacity ← decimal_get "contracted_capacity_kw" (VInt 0) body;
  credit ← decimal_get "demand_response_credit" (VInt 0) body;
  penalty ← decimal_get "demand_response_penalty" (VInt 0) body;
  calculate utc_offset plan is_ capacity credit penalty.

Record cost_comparison := MkCostComparison { cc_baseline : CostBreakdown; cc_candidate : CostBreakdown; cc_savings : dec }.

(** [Decimal(str(x))] of a decimal is the decimal. *)
Definition compare_cost (d : document) : result cost_comparison :=
  l ← item "baseline" d; l ← dict_of l; left ← calculate_cost l;
  r ← item "candidate" d; r ← dict_of r; right ← calculate_cost r;
  Ok (MkCostComparison left right (dsub (amount (cost_total left)) (amount (cost_total right)))).

(** *** Energy and sites *)

Definition DISPATCH_FIELDS : list string :=
  ["grid_import_kw"; "grid_export_kw"; "pv_kw"; "battery_charge_kw"; "battery_discharge_kw"; "generator_kw"; "curtailed_kw"].
(** [Dispatch( **d)] *)
Definition dispatch_of (d : list (string * dec)) : result Dispatch :=
  raise_if (negb (forallb (λ kv, mem kv.1 DISPATCH_FIELDS) d)) TypeError;;
  i ← of_option TypeError (od_get "grid_import_kw" d); e ← of_option TypeError (od_get "grid_export_kw" d);
  p ← of_option TypeError (od_get "pv_kw" d); ch ← of_option TypeError (od_get "battery_charge_kw" d);
  dis ← of_option TypeError (od_get "battery_discharge_kw" d);
  Ok (MkDispatch i e p ch dis (default (dint 0) (od_get "generator_kw" d)) (default (dint 0) (od_get "curtailed_kw" d))).

Record PowerBalanceRequest := MkPowerBalance {
  pb_compute_load : dec; pb_pue : dec; pb_fixed_load : dec; pb_dispatch : list (string * dec); pb_grid : document
}.
Definition power_balance (b : PowerBalanceRequest) : result PowerBalanceResult :=
  let grid := VDict (pb_grid b) in
  id ← text_item "id" grid; asset ← text_item "topology_asset_id" grid;
  import ← decimal_item "import_limit_kw" grid; export ← decimal_get "export_limit_kw" (VInt 0) grid;
  d ← dispatch_of (pb_dispatch b);
  validate_power_balance (pb_compute_load b) (pb_pue b) (pb_fixed_load b) d (MkGrid id asset import export) (Dec 1 (-3)).

Definition parse_site (v : pyval) : result Site :=
  id ← text_item "id" v; r ← text_item "region" v; g ← int_item "available_gpus" v; l ← decimal_item "grid_limit_kw" v;
  p ← decimal_item "energy_price" v; ci ← decimal_item "carbon_intensity" v; on ← get_of "online" (VBool true) v;
  Ok (MkSite id r g l p ci (py_bool on)).
Definition parse_link (v : pyval) : result SiteLink :=
  s ← text_item "source" v; d ← text_item "destination" v; b ← decimal_item "bandwidth_gbps" v; l ← decimal_item "latency_ms" v;
  t ← decimal_item "transfer_cost_per_gb" v; on ← get_of "online" (VBool true) v;
  Ok (MkSiteLink s d b l t (py_bool on)).
Definition migration_evaluation (b : ResourceRequest) (c : ApiContext) : result MigrationDecision :=
  let data := VDict (body_data b) in
  j ← py_item "job" data; j ← parse_job fromisoformat str_container j (ctx_tenant c);
  s ← py_item "source" data; s ← parse_site s;
  d ← py_item "destination" data; d ← parse_site d;
  l ← py_item "link" data; l ← parse_link l;
  size ← decimal_item "checkpoint_size_gb" data; remaining ← decimal_item "remaining_hours" data;
  evaluate_migration j s d l size remaining.
Definition multisite_optimize (b : ResourceRequest) (c : ApiContext) : result MigrationDecision := migration_evaluation b c.

Definition parse_load (v : pyval) : result CriticalLoad :=
  id ← text_item "id" v; p ← decimal_item "power_kw" v; pr ← int_item "priority" v; cr ← py_item "critical" v;
  Ok (MkLoad id p pr (py_bool cr)).
Definition parse_loads (data : pyval) : result (list CriticalLoad) := l ← py_item "loads" data; l ← py_iter l; mapM_result parse_load l.
Definition island_plan (b : ResourceRequest) : result IslandPlan :=
  let data := VDict (body_data b) in
  loads ← parse_loads data;
  battery ← decimal_item "battery_kwh" data; reserved ← decimal_item "reserved_kwh" data;
  generator ← decimal_get "generator_kwh" (VInt 0) data; pv ← decimal_get "pv_kw" (VInt 0) data;
  plan_island_survival loads battery reserved generator pv.
(** The callback of [recovery_plan] *)
Definition recovery_callback (b : ResourceRequest) : result DegradedPlan :=
  loads ← parse_loads (VDict (body_data b));
  available ← decimal_item "available_power_kw" (VDict (body_data b));
  Ok (plan_degraded_mode loads available).

(** *** Scenarios *)

Definition validate_scenario (d : document) : result ScenarioDocument := compile_scenario str_container d.

Section scenario.
Context {R : Type} (rng_seed : Z → R) (rng_next : R → PyFloat.bin * R).
Context (sin : PyFloat.bin → PyFloat.bin) (float_repr : PyFloat.bin → string) (float_dec : PyFloat.bin → dec) (iso : datetime → string).

Definition scenario_run (d : document) : result (Z * Evaluation) :=
  sc ← compile_scenario str_container d;
  answer ← run_scenario str_container rng_seed rng_next sin float_repr float_dec iso sc;
  Ok (Z.of_nat (length answer.1), answer.2).
End scenario.
End handlers.

(** ** Baseline schedules *)

(** A [KeyError], or the error the route makes of one *)
Definition key_error (e : exn) : Prop := (∃ k, e = KeyError k) ∨ ∃ s, e = ValueError ("unknown baseline strategy " +:+ s).
Definition no_key {A} (r : result A) : Prop := ∀ e, r = Err e → ¬ key_error e.

Lemma no_key_ok {A} (x : A) : no_key (Ok x).
Proof. by intros e. Qed.
Lemma no_key_err {A} (e : exn) : ¬ key_error e → no_key (A := A) (Err e).
Proof. by intros H ? [= <-]. Qed.
Lemma no_key_bind {A B} (m : result A) (f : A → result B) : no_key m → (∀ x, m = Ok x → no_key (f x)) → no_key (x ← m; f x).
Proof. intros Hm Hf e. unfold mbind, result_bind. destruct m as [x|e']; [by apply Hf|]. intros [= ->]. by apply Hm. Qed.
Lemma no_key_guard b e : ¬ key_error e → no_key (raise_if b e).
Proof. intros He. unfold raise_if. destruct b; [by apply no_key_err|apply no_key_ok]. Qed.
Lemma no_key_fold {A B} (f : B → A → result B) (I : B → Prop) l : (∀ b x, x ∈ l → I b → no_key (f b x)) → (∀ b x b', x ∈ l → I b → f b x = Ok b' → I b') →
  ∀ b, I b → no_key (foldM_result f l b).
Proof.
  intros Hf Hi. induction l as [|x l IH]; intros b Hb; [apply no_key_ok|]. cbn [foldM_result]. destruct (f b x) as [b'|e] eqn:E.
  - apply IH; [intros; apply Hf; [by right|done]|intros; eapply Hi; [by right|done..]|eapply Hi; [by left|done..]].
  - apply no_key_err. eapply (Hf b x); [by left|done..].
Qed.
Ltac not_key := let k := fresh in let H := fresh in intros [[k H]|[k H]]; discriminate H.
#[local] Hint Resolve no_key_ok : core.
#[local] Hint Extern 1 (no_key (raise_if _ _)) => apply no_key_guard; not_key : core.
#[local] Hint Extern 1 (no_key (Err _)) => apply no_key_err; not_key : core.

Section key_errors.
Context (r : ScheduleInput).

(** An allocation of a job and to slots of the request *)
Definition of_request (a : Allocation) : Prop := alloc_job a ∈ map job_id (jobs r) ∧ Forall (λ i, i ∈ map index (slots r)) (slot_indices a).

Lemma find_known js id : id ∈ map job_id js → is_Some (find_job js id).
Proof using Type.
  unfold find_job. intros H. induction js as [|j js IH] using rev_ind; [by apply elem_of_nil in H|]. rewrite foldl_app. cbn [foldl].
  case_bool_decide; [by eexists|]. apply IH. rewrite map_app, elem_of_app in H. destruct H as [H|H]; [done|]. cbn in H. apply list_elem_of_singleton in H. congruence.
Qed.

Lemma slot_known f ss i : i ∈ map index ss → is_Some (slot_map f ss !! i).
Proof using Type.
  unfold slot_map. intros H. induction ss as [|s ss IH] using rev_ind; [by apply elem_of_nil in H|]. rewrite foldl_app. cbn [foldl].
  destruct (decide (index s = i)) as [->|Hne]; [rewrite lookup_insert_eq; by eexists|]. rewrite lookup_insert_ne by done. apply IH.
  rewrite map_app, elem_of_app in H. destruct H as [H|H]; [done|]. cbn in H. apply list_elem_of_singleton in H. congruence.
Qed.

Lemma selected_known avail j required price s :
  s ∈ py_sorted by_start (py_take required (py_sorted (if (price : bool) then by_price else by_start) (base.filter (λ s, is_candidate avail j s = true) (slots r)))) →
  s ∈ slots r.
Proof using Type.
  rewrite py_sorted_perm. unfold py_take. intros H%elem_of_take. destruct H as (n & H & _). apply list_elem_of_lookup_2 in H.
  rewrite py_sorted_perm in H. by apply list_elem_of_filter in H as [_ ?].
Qed.

Lemma schedule_job_known strat price st j st' : j ∈ jobs r → Forall of_request (allocs st) → schedule_job r strat price st j = Ok st' →
  Forall of_request (allocs st').
Proof using Type.
  intros Hj Ha. unfold schedule_job. destruct (slots r) as [|first rest] eqn:Es; [by intros [= <-]|]. rewrite <-Es.
  intros (q & _ & H)%bind_ok. destruct (_ || _) in H; injection H as <-; [done|]. cbn [allocs].
  assert (∀ l st0, allocs (foldl (take_slot j) st0 l) = allocs st0) as -> by (induction l as [|s l IH]; intros st0; [done|]; cbn; by rewrite IH).
  apply Forall_app. split; [done|]. constructor; [|constructor]. split; cbn; [apply list_elem_of_fmap; by exists j|].
  apply Forall_forall. intros i (s & -> & Hs)%list_elem_of_fmap. apply list_elem_of_fmap. exists s. split; [done|]. by eapply selected_known.
Qed.

Definition has_slots (used : gmap Z Z) : Prop := ∀ i, i ∈ map index (slots r) → is_Some (used !! i).

Lemma validate_slot_keeps j gpus used i used' : has_slots used → validate_slot r j gpus used i = Ok used' → has_slots used'.
Proof using Type.
  intros Hu (s & _ & (x & _ & (? & _ & (? & _ & [= <-])%bind_ok)%bind_ok)%bind_ok)%bind_ok k Hk.
  destruct (decide (i = k)) as [->|]; [rewrite lookup_insert_eq; by eexists|]. rewrite lookup_insert_ne by done. by apply Hu.
Qed.

Lemma validate_no_key p : Forall of_request (allocations p) → no_key (validate_plan r p).
Proof using Type.
  intros Ha. unfold validate_plan. apply no_key_bind; [|auto]. apply (no_key_fold (validate_allocation r) (λ st, has_slots st.1)).
  - intros [used al] a Hin Hi. rewrite Forall_forall in Ha. destruct (Ha a Hin) as [Hj Hs]. unfold validate_allocation.
    apply no_key_bind; [auto|]. intros _ _. apply no_key_bind; [destruct (find_known _ _ Hj) as [j ->]; cbn; auto|]. intros j _.
    apply no_key_bind; [|auto]. apply (no_key_fold _ has_slots); [|intros; by eapply validate_slot_keeps|done].
    intros u i Hin' Hu. unfold validate_slot. apply no_key_bind; [unfold slot_at; destruct (py_index _ _); cbn; auto|]. intros s _.
    rewrite Forall_forall in Hs. destruct (Hu i (Hs i Hin')) as [x ->]. cbn [of_option mbind result_bind].
    apply no_key_bind; [auto|]. intros _ _. apply no_key_bind; auto.
  - intros [used al] a [used' al'] Hin Hi (? & _ & (j & _ & (u & Hu & [= <- <-])%bind_ok)%bind_ok)%bind_ok. cbn [fst] in *.
    eapply (foldM_result_inv _ has_slots); [|exact Hi|exact Hu]. intros; by eapply validate_slot_keeps.
  - intros i Hi. by apply slot_known.
Qed.

Lemma schedule_no_key hash js strat price : js ⊆ jobs r → no_key (schedule hash r js strat price).
Proof using Type.
  intros Hjs. unfold schedule. apply no_key_bind.
  - apply (no_key_fold _ (λ _, True)); [|done|done]. intros st j _ _. unfold schedule_job. destruct (slots r) as [|first rest]; [auto|].
    apply no_key_bind; [|intros q _; destruct (_ || _); auto]. unfold slots_needed. apply no_key_bind; [|auto].
    unfold ddiv, ddiv_ctx. destruct (coef _ =? 0); [destruct (coef _ =? 0); auto|]. destruct (coef _ =? 0); auto.
  - intros st Hst. apply no_key_bind; [|auto]. apply validate_no_key. cbn [allocations].
    apply (foldM_result_inv _ (λ st, Forall of_request (allocs st))) in Hst; [done| |constructor]. intros st1 j st2 Hj H1 H2. eapply schedule_job_known; eauto.
Qed.
End key_errors.

Lemma schedule_strategy hash r js strat price p : schedule hash r js strat price = Ok p → strategy p = strat.
Proof. by intros (? & _ & (? & _ & [= <-])%bind_ok)%bind_ok. Qed.

Definition strategy_names : list string := ["fifo"; "priority_edf"; "price_aware"].

Lemma baseline_known hash strat r : strat ∈ strategy_names →
  ∃ f js price, od_get strat (BASELINE_STRATEGIES hash) = Some f ∧ f r = schedule hash r js strat price ∧ js ≡ₚ jobs r.
Proof.
  intros [->|[->|[->|H%elem_of_nil]%elem_of_cons]%elem_of_cons]%elem_of_cons; [..|done]; eexists _, _, _; (split_and!; [done|done|apply py_sorted_perm]).
Qed.
Lemma baseline_unknown hash strat : strat ∉ strategy_names → od_get strat (BASELINE_STRATEGIES hash) = None.
Proof. intros H. apply od_get_None. exact H. Qed.

(** C11: The baseline route.  A body that is not a schedule request is refused as it is read.  Otherwise "unknown baseline
    strategy" is the answer exactly for a name that is not one of the three, so the handler's [except KeyError] hides no
    other failure; and on a well-formed request each of the three answers a good schedule under its own name, whose jobs
    are those of the request and belong to the caller's tenant. *)
Theorem baseline_route_exact fromisoformat str_container hash strat b c :
  match parse_schedule_input fromisoformat str_container (VDict (body_data b)) (ctx_tenant c) with
  | Err e => baseline_schedule fromisoformat str_container hash strat b c = Err e
  | Ok r =>
      (baseline_schedule fromisoformat str_container hash strat b c = Err (ValueError ("unknown baseline strategy " +:+ strat)) ↔
       strat ∉ strategy_names) ∧
      (well_formed r → strat ∈ strategy_names →
       ∃ p, baseline_schedule fromisoformat str_container hash strat b c = Ok p ∧ strategy p = strat ∧ good_schedule r p ∧
         Forall (λ j, job_tenant_id j = ctx_tenant c) (jobs r))
  end.
Proof.
  unfold baseline_schedule. destruct (parse_schedule_input _ _ _ _) as [r|e] eqn:Ep; [|done]. cbn [mbind result_bind].
  split; [split|].
  - intros H Hin. destruct (baseline_known hash strat r Hin) as (f & js & price & Hf & Hr & Hp). rewrite Hf in H. cbn [of_option mbind result_bind] in H.
    rewrite Hr in H. pose proof (schedule_no_key r hash js strat price) as Hk. specialize (Hk ltac:(intros x; by rewrite Hp)).
    destruct (schedule _ _ _ _ _) as [p|e]; [done|]. specialize (Hk e eq_refl). apply Hk.
    destruct e; try discriminate H; [injection H as ->; right; by eexists|left; by eexists].
  - intros H. by rewrite baseline_unknown.
  - intros Hwf Hin. destruct (baseline_known hash strat r Hin) as (f & js & price & -> & Hr & Hp). cbn [of_option mbind result_bind]. rewrite Hr.
    destruct (schedule_good hash r js strat price Hwf Hp) as (p & Hs & Hg). rewrite Hs. exists p. split_and!; [done|by eapply schedule_strategy|done|].
    eapply Forall_impl; [by eapply input_parsed|]. by intros j [_ ?].
Qed.

Definition sample_body : ResourceRequest := MkResourceRequest "run" [("jobs", VList (map (job_value clock_text) sample_jobs));
  ("slots", VList (map (slot_value clock_text) (slots sample_input))); ("topology_version", VInt 1); ("forecast_version", VStr "f1")].
Definition sample_caller : ApiContext := MkContext "ten_acme" "ann" {["operator"]} "corr" (Some "request-1") None.

Lemma baseline_route_exact_witness :
  (∃ p, baseline_schedule aware_clock (λ _, "") (λ _, "h") "price_aware" sample_body sample_caller = Ok p ∧ good_schedule sample_input p) ∧
  baseline_schedule aware_clock (λ _, "") (λ _, "h") "lifo" sample_body sample_caller = Err (ValueError "unknown baseline strategy lifo").
Proof.
  assert (parse_schedule_input aware_clock (λ _, "") (VDict (body_data sample_body)) (ctx_tenant sample_caller) = Ok sample_input) as Hp by (vm_compute; reflexivity).
  split.
  - pose proof (baseline_route_exact aware_clock (λ _, "") (λ _, "h") "price_aware" sample_body sample_caller) as H. rewrite Hp in H.
    destruct (proj2 H sample_well_formed ltac:(right; right; left)) as (p & Ha & _ & Hg & _). exists p. split; [exact Ha|exact Hg].
  - pose proof (baseline_route_exact aware_clock (λ _, "") (λ _, "h") "lifo" sample_body sample_caller) as H. rewrite Hp in H.
    apply (proj2 (proj1 H)). intros [E|[E|[E|E%elem_of_nil]%elem_of_cons]%elem_of_cons]%elem_of_cons; discriminate E || contradiction.
Defined.
