(* ===== verification/Administration.v ===== *)
(** * Quotas, admission, topology, models and policies through the API: [apps/api/main.py]

    The handlers that configure a tenant's quota, evaluate admission, draft and publish a topology, register, promote and
    roll back forecast models, and validate, publish and try policies.  The components behind them are the operations
    [admin_ops], with an instance for each backend; the theorems hold for any.  Parameters as in Api and Requests; a
    datetime in a document is its text. *)
From S2P Require Import Prelude PyDecimal PyValue PyText Settings Domain Access Workloads Quota Compute Admission PlanDocument Actions Connectors Requests AuditLog Operations Api.
From S2P Require Import Registry Topology Policy.
From Stdlib Require Import QArith.
Local Open Scope Z_scope.

(** ** The components *)

Record admin_ops (Q T Mo P : Type) := MkAdminOps {
  op_configure : string → Quota → M Q unit;
  op_usage : Q → string → usage_row;
  op_create_draft : string → list Asset → list Relationship → M T string;
  op_publish_topology : Z → string → Z → M T TopologySnapshot;
  op_active : string → M T TopologySnapshot;
  op_versions : string → M T (list TopologySnapshot);
  op_register : Z → string → ModelVersion → M Mo unit;
  op_promote : Z → string → string → string → M Mo ModelVersion;
  op_rollback : Z → string → string → M Mo ModelVersion;
  op_tenant_policies : P → string → list Policy.Policy;
  op_publish_policy : Policy.Policy → gset string → M P Policy.Policy
}.
Arguments op_configure {Q T Mo P} _.
Arguments op_usage {Q T Mo P} _.
Arguments op_create_draft {Q T Mo P} _.
Arguments op_publish_topology {Q T Mo P} _.
Arguments op_active {Q T Mo P} _.
Arguments op_versions {Q T Mo P} _.
Arguments op_register {Q T Mo P} _.
Arguments op_promote {Q T Mo P} _.
Arguments op_rollback {Q T Mo P} _.
Arguments op_tenant_policies {Q T Mo P} _.
Arguments op_publish_policy {Q T Mo P} _.

Definition reading {S A} (f : S → result A) : M S A := λ s, (s, f s).

Definition memory_ops (topology_etag : list Asset → list Relationship → Z → string) :
    admin_ops mem_ledger Topology.mem_registry Registry.mem_registry mem_policies := {|
  op_configure := mem_configure; op_usage := mem_usage;
  op_create_draft := mem_create_draft; op_publish_topology now := Topology.mem_publish topology_etag (DT now true);
  op_active t := reading (mem_active t None); op_versions t := reading (λ s, Ok (mem_versions t s));
  op_register _ _ := mem_register; op_promote _ _ := mem_promote; op_rollback _ _ := mem_rollback;
  op_tenant_policies := mem_tenant_policies; op_publish_policy := Policy.mem_publish
|}.

Definition database_ops (topology_etag : list Asset → list Relationship → Z → string) (reload : Asset → result Asset)
    (txn : ∀ S A, M S A → M S A) (pick : list (string * model_row) → option string) :
    admin_ops pg_ledger pg_registry model_table pg_policies := {|
  op_configure := pg_configure txn; op_usage := pg_usage;
  op_create_draft := pg_create_draft txn; op_publish_topology now := Topology.pg_publish topology_etag reload txn (DT now true);
  op_active t := pg_active reload txn t None; op_versions := pg_versions reload txn;
  op_register := pg_register txn; op_promote := pg_promote txn; op_rollback := pg_rollback txn pick;
  op_tenant_policies := pg_tenant_policies; op_publish_policy := Policy.pg_publish txn
|}.

Record components (Q T Mo P : Type) := MkComponents { co_quota : Q; co_topology : T; co_models : Mo; co_policies : P }.
Arguments MkComponents {Q T Mo P} _ _ _ _.
Arguments co_quota {Q T Mo P} _.
Arguments co_topology {Q T Mo P} _.
Arguments co_models {Q T Mo P} _.
Arguments co_policies {Q T Mo P} _.

Definition ASSET_TYPES : list (string * AssetType) :=
  [("organization", ORGANIZATION); ("region", REGION); ("campus", CAMPUS); ("site", SITE); ("data_center", DATA_CENTER); ("room", ROOM);
   ("rack", RACK); ("power_zone", POWER_ZONE); ("cooling_zone", COOLING_ZONE); ("compute_node", COMPUTE_NODE); ("energy_asset", ENERGY_ASSET)].
Definition asset_type_of (v : pyval) : result AssetType :=
  match v with
  | VStr s => of_option (ValueError "not a valid AssetType") (od_get s ASSET_TYPES)
  | _ => Err (ValueError "not a valid AssetType")
  end.
Definition type_value (k : AssetType) : string := default "" (head (omap (λ kv, if bool_decide (kv.2 = k) then Some kv.1 else None) ASSET_TYPES)).
Definition stage_value (s : ModelStage) : string :=
  match s with REGISTERED => "registered" | STAGING => "staging" | PRODUCTION => "production" | ARCHIVED => "archived" end.
Definition enforcement_value (e : Enforcement) : string := match e with HARD => "hard" | SOFT => "soft" end.

Section routes.
Context (fromisoformat : string → result datetime) (dt_text : datetime → string) (str_container : pyval → string).
Context (audit_digest : audit_source → string) (intent_digest : pyval → string).

#[local] Abbreviation text := (py_str str_container).
#[local] Abbreviation decimal := (PyText.py_decimal str_container).
#[local] Abbreviation text_item := (Requests.text_item str_container).
#[local] Abbreviation decimal_item := (Requests.decimal_item str_container).
#[local] Abbreviation decimal_get := (Requests.decimal_get str_container).

Context {Q T Mo P : Type} (ops : admin_ops Q T Mo P).
#[local] Abbreviation parts := (components Q T Mo P).
#[local] Abbreviation state := (api_state (components Q T Mo P) unit).
#[local] Abbreviation operate := (audited_operation (S := components Q T Mo P) (A := unit) audit_digest intent_digest).

Definition on_quota {X} (m : M Q X) : M state X := on_store (λ s : parts,
  let '(q, r) := m (co_quota s) in (MkComponents q (co_topology s) (co_models s) (co_policies s), r)).
Definition on_topology {X} (m : M T X) : M state X := on_store (λ s : parts,
  let '(t, r) := m (co_topology s) in (MkComponents (co_quota s) t (co_models s) (co_policies s), r)).
Definition on_models {X} (m : M Mo X) : M state X := on_store (λ s : parts,
  let '(x, r) := m (co_models s) in (MkComponents (co_quota s) (co_topology s) x (co_policies s), r)).
Definition on_policies {X} (m : M P X) : M state X := on_store (λ s : parts,
  let '(p, r) := m (co_policies s) in (MkComponents (co_quota s) (co_topology s) (co_models s) p, r)).
Definition answer (d : document) : response := RResource (list_to_map d).
(** [if not context.roles.intersection(roles): raise] *)
Definition require_role (c : ApiContext) (allowed : gset string) (message : string) : result unit :=
  raise_if (bool_decide (ctx_roles c ∩ allowed = ∅)) (PermissionError message).

(** *** Quotas *)

Definition parse_quota (v : pyval) : result Quota :=
  g ← int_item "max_gpus" v; h ← decimal_item "max_gpu_hours" v; j ← int_item "max_concurrent_jobs" v; Ok (MkQuota g h j).
Definition quota_document (q : Quota) (u : usage_row) : document :=
  [("max_gpus", VInt (max_gpus q)); ("max_gpu_hours", VDec (max_gpu_hours q)); ("max_concurrent_jobs", VInt (max_concurrent_jobs q));
   ("usage", VList [VInt u.1.1; VDec u.1.2; VInt u.2])].
Definition QUOTA_ROLES : gset string := {["admin"; "tenant_admin"]}.
Definition configure_callback (c : ApiContext) (q : Quota) : M state response :=
  on_quota (op_configure ops (ctx_tenant c) q);;
  u ← on_quota (reading (λ s, Ok (op_usage ops s (ctx_tenant c))));
  mret (answer (quota_document q u)).
Definition configure_quota (now : Z) (b : ResourceRequest) (c : ApiContext) : M state response :=
  mlift (require_role c QUOTA_ROLES "quota changes require tenant admin role");;
  q ← mlift (parse_quota (VDict (body_data b)));
  operate now c "quota.configure" (ctx_tenant c) (VDict (body_data b)) (configure_callback c q).
Definition quota_usage (c : ApiContext) : M state response :=
  u ← on_quota (reading (λ s, Ok (op_usage ops s (ctx_tenant c))));
  mret (answer [("used_gpus", VInt u.1.1); ("used_gpu_hours", VDec u.1.2); ("active_jobs", VInt u.2)]).

(** *** Topology *)

Record TopologyDraftRequest := MkDraftRequest { td_assets : list document; td_relationships : list document }.
Definition parse_asset (tenant : string) (d : document) : result Asset :=
  let v := VDict d in
  id ← text_item "id" v; site ← text_item "site_id" v;
  k ← py_item "kind" v; k ← asset_type_of k;
  i ← py_item "id" v; n ← get_of "name" i v;
  cap ← decimal_get "capacity_kw" (VInt 0) v;
  at_ ← get_of "attributes" (VDict []) v; at_ ← dict_of at_;
  Ok (MkAsset id tenant site k (text n) cap (list_to_map (text_labels str_container at_)) None None).
Definition parse_relationship (d : document) : result Relationship :=
  let v := VDict d in
  p ← text_item "parent_id" v; ch ← text_item "child_id" v; k ← get_of "kind" (VStr "contains") v; Ok (MkRelationship p ch (text k)).
(** [int(draft_id.rsplit("-", 1)[1])] *)
Definition draft_revision (id : string) : result Z := py_int (VStr (default "" (last (split_on 45 id)))).
Definition draft_callback (c : ApiContext) (assets : list Asset) (rels : list Relationship) : M state response :=
  id ← on_topology (op_create_draft ops (ctx_tenant c) assets rels);
  rev ← mlift (draft_revision id);
  mret (answer [("id", VStr id); ("revision", VInt rev); ("valid", VBool true)]).
Definition create_topology_draft (now : Z) (b : TopologyDraftRequest) (c : ApiContext) : M state response :=
  assets ← mlift (mapM_result (parse_asset (ctx_tenant c)) (td_assets b));
  rels ← mlift (mapM_result parse_relationship (td_relationships b));
  operate now c "topology.draft.create" (ctx_tenant c)
    (VDict [("assets", VList (map VDict (td_assets b))); ("relationships", VList (map VDict (td_relationships b)))]) (draft_callback c assets rels).

Definition published_document (s : TopologySnapshot) : document :=
  [("version", VInt (snap_version s)); ("etag", VStr (snap_etag s)); ("published_at", VStr (dt_text (published_at s)))].
Definition publish_topology_callback (now : Z) (expected : Z) (c : ApiContext) : M state response :=
  s ← on_topology (op_publish_topology ops now (ctx_tenant c) expected); mret (answer (published_document s)).
Definition publish_topology (now : Z) (v : string) (expected : Z) (c : ApiContext) : M state response :=
  operate now c "topology.publish" v (VDict [("version", VStr v); ("expected_draft_revision", VInt expected)])
    (publish_topology_callback now expected c).

Definition get_assets (c : ApiContext) : M state (list Asset) := s ← on_topology (op_active ops (ctx_tenant c)); mret (snap_assets s).
Definition get_asset (id : string) (c : ApiContext) : M state Asset := s ← on_topology (op_active ops (ctx_tenant c)); mlift (snapshot_asset s id).
Definition get_topology_graph (c : ApiContext) : M state (Z * list Asset * list Relationship) :=
  s ← on_topology (op_active ops (ctx_tenant c)); mret (snap_version s, snap_assets s, snap_relationships s).
Definition version_entry (s : TopologySnapshot) : document :=
  [("version", VInt (snap_version s)); ("published_at", VStr (dt_text (published_at s))); ("etag", VStr (snap_etag s));
   ("asset_count", VInt (Z.of_nat (length (snap_assets s)))); ("relationship_count", VInt (Z.of_nat (length (snap_relationships s))))].
Definition topology_versions (c : ApiContext) : M state (list document) :=
  l ← on_topology (op_versions ops (ctx_tenant c)); mret (map version_entry l).

(** *** Models *)

Definition model_document (m : ModelVersion) : document :=
  [("name", VStr (name m)); ("version", VStr (version m)); ("artifact_hash", VStr (artifact_hash m)); ("dataset_hash", VStr (dataset_hash m));
   ("created_at", VStr (dt_text (created_at m))); ("stage", VStr (stage_value (stage m)))].
Definition parse_model (b : ResourceRequest) : result ModelVersion :=
  let v := VDict (body_data b) in
  ver ← text_item "version" v; art ← text_item "artifact_hash" v; ds ← text_item "dataset_hash" v;
  t ← text_item "created_at" v; t ← fromisoformat t;
  Ok (MkModel (body_id b) ver art ds t REGISTERED).
Definition register_callback (now : Z) (c : ApiContext) (m : ModelVersion) : M state response :=
  on_models (op_register ops now (ctx_tenant c) m);; mret (answer (model_document m)).
Definition register_model (now : Z) (b : ResourceRequest) (c : ApiContext) : M state response :=
  m ← mlift (parse_model b);
  operate now c "model.register" (name m +:+ "@" +:+ version m) (VDict (body_data b)) (register_callback now c m).

Definition MODEL_ROLES : gset string := {["admin"; "model_admin"; "safety_admin"]}.
Definition promote_callback (now : Z) (n ver : string) (c : ApiContext) : M state response :=
  m ← on_models (op_promote ops now (ctx_tenant c) n ver); mret (answer (model_document m)).
Definition promote_model (now : Z) (n : string) (b : ResourceRequest) (c : ApiContext) : M state response :=
  mlift (require_role c MODEL_ROLES "model promotion requires admin role");;
  ver ← mlift (text_item "version" (VDict (body_data b)));
  operate now c "model.promote" (n +:+ "@" +:+ ver) (VDict (body_data b)) (promote_callback now n ver c).
Definition rollback_model_callback (now : Z) (n : string) (c : ApiContext) : M state response :=
  m ← on_models (op_rollback ops now (ctx_tenant c) n); mret (answer (model_document m)).
Definition rollback_model (now : Z) (n : string) (b : ResourceRequest) (c : ApiContext) : M state response :=
  mlift (require_role c MODEL_ROLES "model rollback requires admin role");;
  operate now c "model.rollback" n (VDict (body_data b)) (rollback_model_callback now n c).

(** *** Policies *)

Definition parse_policy (b : ResourceRequest) (tenant : string) : result Policy.Policy :=
  let v := VDict (body_data b) in
  ver ← int_item "version" v;
  sites ← get_of "site_ids" (VList []) v; sites ← parse_strings str_container sites;
  r1 ← py_item "rule" v; f ← text_item "field" r1;
  r2 ← py_item "rule" v; o ← text_item "operator" r2;
  r3 ← py_item "rule" v; x ← py_item "value" r3;
  e ← py_item "enforcement" v; e ← match e with VStr s => enforcement_of s | _ => Err (ValueError "not a valid Enforcement") end;
  p ← int_item "priority" v; w ← text_item "owner" v;
  Ok (Policy.MkPolicy (body_id b) ver tenant (list_to_set sites) (MkRule f o x) e p w false).
Definition policy_document (p : Policy.Policy) : document :=
  [("id", VStr (pol_id p)); ("version", VInt (pol_version p)); ("tenant_id", VStr (pol_tenant_id p)); ("site_ids", strings_value (elements (site_ids p)));
   ("rule", VDict [("field", VStr (Policy.field (rule p))); ("operator", VStr (operator (rule p))); ("value", value (rule p))]);
   ("enforcement", VStr (enforcement_value (enforcement p))); ("priority", VInt (pol_priority p)); ("owner", VStr (owner p));
   ("published", VBool (Policy.published p))].
Definition validate_policy (b : ResourceRequest) (c : ApiContext) : M state Policy.Policy :=
  p ← mlift (parse_policy b (ctx_tenant c));
  on_policies (reading (λ s, validate_against p (op_tenant_policies ops s (pol_tenant_id p))));;
  mret p.
Definition publish_policy_callback (p : Policy.Policy) (c : ApiContext) : M state response :=
  q ← on_policies (op_publish_policy ops p (ctx_roles c)); mret (answer (policy_document q)).
Definition publish_policy (now : Z) (b : ResourceRequest) (c : ApiContext) : M state response :=
  p ← mlift (parse_policy b (ctx_tenant c));
  operate now c "policy.publish" (policy_name p) (VDict (body_data b)) (publish_policy_callback p c).
Definition dry_run_policy (b : ResourceRequest) (c : ApiContext) : M state PolicyDecision :=
  site ← mlift (text_item "site_id" (VDict (body_data b)));
  fs ← mlift (f ← item "facts" (body_data b); dict_of f);
  on_policies (reading (λ s, Policy.evaluate (op_tenant_policies ops s (ctx_tenant c)) (ctx_tenant c) site fs)).

(** *** Admission *)

Definition parse_gpu (v : pyval) : result Gpu :=
  id ← text_item "id" v; model ← text_item "model" v; m ← decimal_item "memory_gb" v; p ← decimal_item "max_power_kw" v;
  gpu_check (MkGpu id model m p []).
Definition parse_node (tenant : string) (v : pyval) : result ComputeNode :=
  id ← text_item "id" v; site ← text_item "site_id" v; asset ← text_item "topology_asset_id" v;
  gs ← py_item "gpus" v; gs ← py_iter gs; gs ← mapM_result parse_gpu gs;
  cores ← get_of "cpu_cores" (VInt 0) v; cores ← py_int cores;
  memory ← decimal_get "memory_gb" (VInt 0) v;
  Ok (MkComputeNode id tenant site asset gs cores memory READY []).

Context (node_digest : list ComputeNode → string).

(** The snapshot of the body *)
Definition parse_snapshot (body : pyval) (tenant : string) : result ComputeSnapshot :=
  sn ← py_item "snapshot" body;
  ns ← py_item "nodes" sn; ns ← py_iter ns; ns ← mapM_result (parse_node tenant) ns;
  topo ← int_item "topology_version" sn;
  src ← get_of "source" (VStr "api") sn;
  o ← text_item "observed_at" sn; o ← fromisoformat o;
  n ← text_item "now" body; n ← fromisoformat n;
  build node_digest tenant topo (text src) ns [] o n ∅ ∅.

(** [in_memory]: there is no database ([runtime is None]) *)
Definition evaluate_admission `{QuotaService Q} (in_memory : bool) (d : document) (c : ApiContext) : M state AdmissionResult :=
  let body := VDict d in
  job ← mlift (j ← py_item "job" body; parse_job fromisoformat str_container j (ctx_tenant c));
  snap ← mlift (parse_snapshot body (ctx_tenant c));
  (if in_memory
   then q ← mlift (v ← py_item "quota" body; parse_quota v); on_quota (op_configure ops (ctx_tenant c) q)
   else mret tt);;
  n ← mlift (n ← text_item "now" body; fromisoformat n);
  on_quota (Admission.evaluate job snap n).
End routes.

(** ** Administration *)

Inductive admin_request :=
| ReqConfigure (now : Z) (b : ResourceRequest) (c : ApiContext)
| ReqDraft (now : Z) (b : TopologyDraftRequest) (c : ApiContext)
| ReqTopology (now : Z) (v : string) (expected : Z) (c : ApiContext)
| ReqRegister (now : Z) (b : ResourceRequest) (c : ApiContext)
| ReqPromote (now : Z) (n : string) (b : ResourceRequest) (c : ApiContext)
| ReqRollback (now : Z) (n : string) (b : ResourceRequest) (c : ApiContext)
| ReqPolicy (now : Z) (b : ResourceRequest) (c : ApiContext)
| ReqAdmission (d : document) (c : ApiContext).

Section effects.
Context (fromisoformat : string → result datetime) (dt_text : datetime → string) (str_container : pyval → string).
Context (audit_digest : audit_source → string) (intent_digest : pyval → string).
Context (node_digest : list ComputeNode → string).
Context {Q T Mo P : Type} (ops : admin_ops Q T Mo P) `{QS : QuotaService Q}.
#[local] Abbreviation parts := (components Q T Mo P).
#[local] Abbreviation state := (api_state (components Q T Mo P) unit).

(** With a database *)
Definition admin_serve (q : admin_request) (st : state) : state :=
  match q with
  | ReqConfigure now b c => (configure_quota str_container audit_digest intent_digest ops now b c st).1
  | ReqDraft now b c => (create_topology_draft str_container audit_digest intent_digest ops now b c st).1
  | ReqTopology now v expected c => (publish_topology dt_text audit_digest intent_digest ops now v expected c st).1
  | ReqRegister now b c => (register_model fromisoformat dt_text str_container audit_digest intent_digest ops now b c st).1
  | ReqPromote now n b c => (promote_model dt_text str_container audit_digest intent_digest ops now n b c st).1
  | ReqRollback now n b c => (rollback_model dt_text audit_digest intent_digest ops now n b c st).1
  | ReqPolicy now b c => (publish_policy str_container audit_digest intent_digest ops now b c st).1
  | ReqAdmission d c => (evaluate_admission fromisoformat str_container ops node_digest false d c st).1
  end.

(** What a request may do to the components *)
Inductive admin_effect (q : admin_request) (s : parts) : parts → Prop :=
| no_effect : admin_effect q s s
| quota_effect now b c x : q = ReqConfigure now b c → ctx_roles c ∩ QUOTA_ROLES ≠ ∅ → parse_quota str_container (VDict (body_data b)) = Ok x →
    admin_effect q s (MkComponents (op_configure ops (ctx_tenant c) x (co_quota s)).1 (co_topology s) (co_models s) (co_policies s))
| draft_effect now b c assets rels : q = ReqDraft now b c →
    admin_effect q s (MkComponents (co_quota s) (op_create_draft ops (ctx_tenant c) assets rels (co_topology s)).1 (co_models s) (co_policies s))
| topology_effect now v expected c : q = ReqTopology now v expected c →
    admin_effect q s (MkComponents (co_quota s) (op_publish_topology ops now (ctx_tenant c) expected (co_topology s)).1 (co_models s) (co_policies s))
| register_effect now b c m : q = ReqRegister now b c → name m = body_id b → stage m = REGISTERED →
    admin_effect q s (MkComponents (co_quota s) (co_topology s) (op_register ops now (ctx_tenant c) m (co_models s)).1 (co_policies s))
| promote_effect now n b c v : q = ReqPromote now n b c → ctx_roles c ∩ MODEL_ROLES ≠ ∅ →
    admin_effect q s (MkComponents (co_quota s) (co_topology s) (op_promote ops now (ctx_tenant c) n v (co_models s)).1 (co_policies s))
| rollback_effect now n b c : q = ReqRollback now n b c → ctx_roles c ∩ MODEL_ROLES ≠ ∅ →
    admin_effect q s (MkComponents (co_quota s) (co_topology s) (op_rollback ops now (ctx_tenant c) n (co_models s)).1 (co_policies s))
| policy_effect now b c p : q = ReqPolicy now b c → parse_policy str_container b (ctx_tenant c) = Ok p →
    admin_effect q s (MkComponents (co_quota s) (co_topology s) (co_models s) (op_publish_policy ops p (ctx_roles c) (co_policies s)).1)
| admission_effect d c gpus hours key : q = ReqAdmission d c →
    admin_effect q s (MkComponents (qs_reserve (ctx_tenant c) gpus hours key (co_quota s)).1 (co_topology s) (co_models s) (co_policies s)).

Lemma lifted {X Y} (r : result X) (k : X → M state Y) (st : state) (R : parts → Prop) :
  R (st_store st) → (∀ x, r = Ok x → R (st_store (k x st).1)) → R (st_store ((x ← mlift r; k x) st).1).
Proof using Type. intros H0 H1. unfold mbind, M_bind, mlift. destruct r; [by apply H1|done]. Qed.

Lemma role_required c allowed message : require_role c allowed message = Ok tt → ctx_roles c ∩ allowed ≠ ∅.
Proof using Type. unfold require_role. intros H%guard_last. by apply bool_decide_eq_false in H. Qed.

Lemma serve_effect q (st : state) : admin_effect q (st_store st) (st_store (admin_serve q st)).
Proof using Type.
  destruct q as [now b c|now b c|now v expected c|now b c|now n b c|now n b c|now b c|d c]; cbn [admin_serve];
    unfold configure_quota, create_topology_draft, publish_topology, register_model, promote_model, rollback_model, publish_policy.
  - apply lifted; [constructor|]. intros [] Hr%role_required. apply lifted; [constructor|]. intros x Hx.
    apply audited_store; [constructor|]. unfold configure_callback, on_quota, on_store, mbind, M_bind.
    pose proof (quota_effect (ReqConfigure now b c) (st_store st) now b c x eq_refl Hr Hx) as He.
    destruct (op_configure ops (ctx_tenant c) x (co_quota (st_store st))) as [q' [[]|e]]; exact He.
  - apply lifted; [constructor|]. intros a Ha. apply lifted; [constructor|]. intros r Hr. apply audited_store; [constructor|].
    unfold draft_callback, on_topology, on_store, mbind, M_bind.
    pose proof (draft_effect (ReqDraft now b c) (st_store st) now b c a r eq_refl) as He.
    destruct (op_create_draft ops (ctx_tenant c) a r (co_topology (st_store st))) as [t' [i|e]]; [|exact He]. unfold mlift.
    destruct (draft_revision i); exact He.
  - apply audited_store; [constructor|]. unfold publish_topology_callback, on_topology, on_store, mbind, M_bind.
    pose proof (topology_effect (ReqTopology now v expected c) (st_store st) now v expected c eq_refl) as He.
    destruct (op_publish_topology ops now (ctx_tenant c) expected (co_topology (st_store st))) as [t' [i|e]]; exact He.
  - apply lifted; [constructor|]. intros m Hm. apply audited_store; [constructor|]. unfold register_callback, on_models, on_store, mbind, M_bind.
    assert (name m = body_id b ∧ stage m = REGISTERED) as [Hn Hs].
    { unfold parse_model in Hm. repeat (apply bind_ok in Hm as (? & _ & Hm)). by injection Hm as <-. }
    pose proof (register_effect (ReqRegister now b c) (st_store st) now b c m eq_refl Hn Hs) as He.
    destruct (op_register ops now (ctx_tenant c) m (co_models (st_store st))) as [t' [i|e]]; exact He.
  - apply lifted; [constructor|]. intros [] Hr%role_required. apply lifted; [constructor|]. intros v _. apply audited_store; [constructor|].
    unfold promote_callback, on_models, on_store, mbind, M_bind.
    pose proof (promote_effect (ReqPromote now n b c) (st_store st) now n b c v eq_refl Hr) as He.
    destruct (op_promote ops now (ctx_tenant c) n v (co_models (st_store st))) as [t' [i|e]]; exact He.
  - apply lifted; [constructor|]. intros [] Hr%role_required. apply audited_store; [constructor|].
    unfold rollback_model_callback, on_models, on_store, mbind, M_bind.
    pose proof (rollback_effect (ReqRollback now n b c) (st_store st) now n b c eq_refl Hr) as He.
    destruct (op_rollback ops now (ctx_tenant c) n (co_models (st_store st))) as [t' [i|e]]; exact He.
  - apply lifted; [constructor|]. intros p Hp. apply audited_store; [constructor|].
    unfold publish_policy_callback, on_policies, on_store, mbind, M_bind.
    pose proof (policy_effect (ReqPolicy now b c) (st_store st) now b c p eq_refl Hp) as He.
    destruct (op_publish_policy ops p (ctx_roles c) (co_policies (st_store st))) as [t' [i|e]]; exact He.
  - unfold evaluate_admission. apply lifted; [constructor|]. intros job (v & _ & [_ Hj]%job_parsed)%bind_ok. apply lifted; [constructor|]. intros snap _.
    unfold mbind at 1, M_bind at 1, mret, M_ret. apply lifted; [constructor|]. intros n _. unfold on_quota, on_store, Admission.evaluate, mbind, M_bind, mlift.
    destruct (admission_blocking job snap n) as [[|]|]; cbn; [|destruct (st_store st); constructor..]. unfold mret, M_ret.
    rewrite Hj. pose proof (admission_effect (ReqAdmission d c) (st_store st) d c (gpu_count (Workloads.request job)) (demand_hours job) (Some (job_id job)) eq_refl) as He.
    destruct (qs_reserve _ _ _ _ _) as [q' [[]|]]; exact He.
Qed.
End effects.

(** ** The database after any history *)

Section database.
Context (fromisoformat : string → result datetime) (dt_text : datetime → string) (str_container : pyval → string).
Context (audit_digest : audit_source → string) (intent_digest : pyval → string).
Context (topology_etag : list Asset → list Relationship → Z → string) (reload : Asset → result Asset) (Hreload : ∀ a, reload a = Ok a).
Context (txn : ∀ S A, M S A → M S A) `{Htxn : !Transactional txn} (pick : list (string * model_row) → option string).

Context (node_digest : list ComputeNode → string).

#[local] Abbreviation db := (database_ops topology_etag reload txn pick).
#[local] Abbreviation tables := (components pg_ledger pg_registry model_table pg_policies).
#[local] Abbreviation parse_quota := (parse_quota str_container).
#[local] Abbreviation parse_policy := (parse_policy str_container).
#[local] Abbreviation effect := (admin_effect (QS := pg_quota_service txn) str_container db).

Definition empty_tables : tables := MkComponents pg_init (MkPgRegistry ∅ ∅) ∅ ∅.
Definition administered (h : list admin_request) : api_state tables unit :=
  foldl (λ st q, admin_serve (QS := pg_quota_service txn) fromisoformat dt_text str_container audit_digest intent_digest node_digest db q st) (MkState empty_tables tt [] ∅) h.

(** A limit that was set by an administrator of its tenant *)
Definition quota_by_admin (h : list admin_request) (t : string) (x : Quota) : Prop :=
  ∃ now b c, ReqConfigure now b c ∈ h ∧ ctx_tenant c = t ∧ ctx_roles c ∩ QUOTA_ROLES ≠ ∅ ∧ parse_quota (VDict (body_data b)) = Ok x.
(** A model of this name that was put in production by a model administrator of its tenant *)
Definition promoted_by_admin (h : list admin_request) (t n : string) : Prop :=
  ∃ c, ctx_tenant c = t ∧ ctx_roles c ∩ MODEL_ROLES ≠ ∅ ∧ ∃ now b, ReqPromote now n b c ∈ h ∨ ReqRollback now n b c ∈ h.
(** A policy that was published for its tenant, and by a safety administrator when it is hard *)
Definition policy_published (h : list admin_request) (p : Policy.Policy) : Prop :=
  ∃ now b c q, ReqPolicy now b c ∈ h ∧ parse_policy b (ctx_tenant c) = Ok q ∧ p = mark_published q ∧ pol_tenant_id p = ctx_tenant c ∧
    (enforcement p = HARD → "safety_admin" ∈ ctx_roles c).

Record governed (h : list admin_request) (s : tables) : Prop := {
  go_quota : pg_inv (co_quota s);
  go_limits : ∀ t x, pg_limit (co_quota s) t = Some x → quota_by_admin h t x;
  go_one : one_production (co_models s);
  go_models : ∀ t n v r, co_models s !! (t, n, v) = Some r → row_stage r = PRODUCTION → promoted_by_admin h t n;
  go_consistent : conflict_free (pg_values (co_policies s));
  go_policies : ∀ p, p ∈ pg_values (co_policies s) → policy_published h p;
  go_topology : ∃ ops, co_topology s = (pg_registry_run topology_etag reload txn ops).1
}.

Lemma quota_by_admin_mono h q t x : quota_by_admin h t x → quota_by_admin (h ++ [q]) t x.
Proof using Type. intros (now & b & c & Hin & H). exists now, b, c. split; [apply elem_of_app; by left|exact H]. Qed.
Lemma promoted_by_admin_mono h q t n : promoted_by_admin h t n → promoted_by_admin (h ++ [q]) t n.
Proof using Type. intros (c & H1 & H2 & now & b & Hin). exists c. split; [exact H1|]. split; [exact H2|]. exists now, b. rewrite !elem_of_app. destruct Hin; auto. Qed.
Lemma policy_published_mono h q p : policy_published h p → policy_published (h ++ [q]) p.
Proof using Type. intros (now & b & c & x & Hin & H). exists now, b, c, x. split; [apply elem_of_app; by left|exact H]. Qed.

Lemma configured_limit t x (s : pg_ledger) t' x' : pg_limit (pg_configure txn t x s).1 t' = Some x' → pg_limit s t' = Some x' ∨ (t' = t ∧ x' = x).
Proof using Htxn.
  unfold pg_configure, mbind, M_bind, mguard. destruct (quota_negative x); [by left|]. rewrite txn_atomically. unfold atomically, mget, mput, mraise.
  assert (∀ row, lr_max_gpus row = max_gpus x → lr_max_hours row = max_gpu_hours x → lr_max_jobs row = max_concurrent_jobs x →
    pg_limit (PgLedger (<[t := row]> (pg_ledgers s)) (pg_reservations s)) t' = Some x' → pg_limit s t' = Some x' ∨ (t' = t ∧ x' = x)) as Hset.
  { intros row H1 H2 H3. unfold pg_limit. cbn [pg_ledgers]. destruct (decide (t' = t)) as [->|Hne].
    - rewrite lookup_insert_eq. cbn. rewrite H1, H2, H3. intros [= <-]. right. by destruct x.
    - rewrite lookup_insert_ne by done. by left. }
  destruct (pg_ledgers s !! t) as [r|] eqn:Er; [destruct (_ && _); [|by left]|]; by apply Hset.
Qed.

Lemma reserved_limit t g hh k (s : pg_ledger) t' : pg_limit (pg_reserve txn t g hh k s).1 t' = pg_limit s t'.
Proof using Htxn.
  unfold pg_limit. destruct (pg_reserve_cases t g hh k s) as [| | |key r Hk Hres Hr]; try done. cbn [fst pg_ledgers].
  destruct (decide (t' = t)) as [->|]; [by rewrite lookup_insert_eq, Hr|by rewrite lookup_insert_ne].
Qed.

Lemma registered_rows now t m s t' n v r : (pg_register txn now t m s).1 !! (t', n, v) = Some r → row_stage r = PRODUCTION →
  stage m ≠ PRODUCTION → s !! (t', n, v) = Some r.
Proof using Htxn.
  unfold pg_register, tenant_guard, mbind, M_bind, mguard. destruct (bool_decide (t = "")); [done|]. rewrite txn_atomically. unfold atomically, mget, mput.
  destruct (bool_decide (is_Some _)); [done|]. destruct (_ && _); [done|]. cbn [fst snd raise_if].
  destruct (decide ((t', n, v) = (t, name m, version m))) as [->|]; [rewrite lookup_insert_eq; by intros [= <-]|by rewrite lookup_insert_ne].
Qed.

Lemma in_production_rows now t n v s t' n' v' r : (pg_put_in_production now t n v s).1 !! (t', n', v') = Some r → row_stage r = PRODUCTION →
  (t' = t ∧ n' = n) ∨ s !! (t', n', v') = Some r.
Proof using Type.
  rewrite pg_put_in_production_spec. destruct (s !! (t, n, v)) as [r0|]; [|by right]. cbn [fst]. intros H Hp.
  destruct (promoted_production _ _ _ _ _ _ _ _ _ _ H Hp) as [[= -> -> ->]|[_ ?]]; [by left|by right].
Qed.

Lemma promoted_rows now t n v s t' n' v' r : (pg_promote txn now t n v s).1 !! (t', n', v') = Some r → row_stage r = PRODUCTION →
  (t' = t ∧ n' = n) ∨ s !! (t', n', v') = Some r.
Proof using Htxn.
  destruct (decide (t = "")) as [->|Ht]; [by right|]. rewrite pg_promote_spec by done. apply in_production_rows.
Qed.
Lemma rolled_back_rows now t n s t' n' v' r : (pg_rollback txn pick now t n s).1 !! (t', n', v') = Some r → row_stage r = PRODUCTION →
  (t' = t ∧ n' = n) ∨ s !! (t', n', v') = Some r.
Proof using Htxn.
  destruct (decide (t = "")) as [->|Ht]; [by right|]. rewrite pg_rollback_spec by done. destruct (pick _); [apply in_production_rows|by right].
Qed.

Lemma policy_rows (p : Policy.Policy) (roles : gset string) (s : pg_policies) : conflict_free (pg_values s) →
  conflict_free (pg_values (Policy.pg_publish txn p roles s).1) ∧
  ∀ q, q ∈ pg_values (Policy.pg_publish txn p roles s).1 → q ∈ pg_values s ∨ (q = mark_published p ∧ (enforcement p = HARD → "safety_admin" ∈ roles)).
Proof using Htxn.
  intros Hc. unfold Policy.pg_publish, mbind, M_bind, mlift. destruct (publish_guard p roles) as [[]|] eqn:Eg; [|by auto].
  rewrite txn_atomically. unfold atomically, mget, mput, mguard, mret, M_ret.
  destruct (validate_against _ _) as [[]|] eqn:Ev; [|by auto]. destruct (bool_decide _); cbn [raise_if fst snd]; [by auto|].
  assert (∀ q, q ∈ pg_values (<[(pol_tenant_id p, pol_id p, pol_version p) := mark_published p]> s) → q = mark_published p ∨ q ∈ pg_values s) as Hsub.
  { intros q [k Hk]%elem_of_pg_values. apply lookup_insert_Some in Hk as [[_ <-]|[_ Hk]]; [by left|]. right. apply elem_of_pg_values. eauto. }
  split; [by eapply conflict_free_add|]. intros q [->|Hq]%Hsub; [right|by left]. split; [done|]. by apply publish_guard_ok.
Qed.

Lemma registry_snoc ops o : (pg_exec topology_etag reload txn o (pg_registry_run topology_etag reload txn ops).1).1
  = (pg_registry_run topology_etag reload txn (ops ++ [o])).1.
Proof using Type. unfold pg_registry_run. rewrite foldl_snoc. by destruct (pg_exec _ _ _ _ _). Qed.

Lemma governed_step h q s s' : governed h s → effect q s s' → governed (h ++ [q]) s'.
Proof using Htxn.
  intros Hg He. assert (governed (h ++ [q]) s) as [Hq Hl Ho Hm Hc Hp [ops Ht]].
  { destruct Hg. split; eauto using quota_by_admin_mono, promoted_by_admin_mono, policy_published_mono. }
  assert (∀ x, x = q → x ∈ h ++ [q]) as Hin by (intros x ->; apply elem_of_app; right; by left).
  destruct He as [|now b c x -> Hr Hx|now b c a r ->|now v e c ->|now b c m -> Hn Hs|now n b c v -> Hr|now n b c -> Hr|now b c p -> Hx|d c g hh k ->];
    split; cbn [co_quota co_topology co_models co_policies]; eauto.
  - by apply pg_configure_inv.
  - intros t y Hy. destruct (configured_limit _ _ _ _ _ Hy) as [Hold|[-> ->]]; [by apply Hl|]. exists now, b, c. auto.
  - exists (ops ++ [CreateDraft (ctx_tenant c) a r]). rewrite <-registry_snoc, <-Ht. done.
  - exists (ops ++ [Publish (DT now true) (ctx_tenant c) e]). rewrite <-registry_snoc, <-Ht. done.
  - pose proof (pg_run_one txn pick now (ctx_tenant c) (Register m) (co_models s) Ho) as H1. cbn [pg_run] in H1.
    unfold mbind, M_bind in H1. cbn. destruct (pg_register _ _ _ _ _) as [? []]; exact H1.
  - intros t n v r Hv Hst. eapply Hm; [|exact Hst]. eapply registered_rows; [exact Hv|exact Hst|]. by rewrite Hs.
  - pose proof (pg_run_one txn pick now (ctx_tenant c) (Promote n v) (co_models s) Ho) as H1. cbn [pg_run] in H1.
    unfold some_result, mbind, M_bind in H1. cbn. destruct (pg_promote _ _ _ _ _ _) as [? []]; exact H1.
  - intros t n' v' r Hv Hst. destruct (promoted_rows _ _ _ _ _ _ _ _ _ Hv Hst) as [[-> ->]|Hold]; [|by eapply Hm].
    exists c. split_and!; [done|done|]. exists now, b. left. by apply Hin.
  - pose proof (pg_run_one txn pick now (ctx_tenant c) (Rollback n) (co_models s) Ho) as H1. cbn [pg_run] in H1.
    unfold some_result, mbind, M_bind in H1. cbn. destruct (pg_rollback _ _ _ _ _ _) as [? []]; exact H1.
  - intros t n' v' r Hv Hst. destruct (rolled_back_rows _ _ _ _ _ _ _ _ Hv Hst) as [[-> ->]|Hold]; [|by eapply Hm].
    exists c. split_and!; [done|done|]. exists now, b. right. by apply Hin.
  - by apply policy_rows.
  - intros p' Hp'. destruct (proj2 (policy_rows p (ctx_roles c) (co_policies s) Hc) p' Hp') as [Hold|[-> Hh]]; [by apply Hp|].
    exists now, b, c, p. split_and!; [by apply Hin|exact Hx|done| |exact Hh].
    unfold Administration.parse_policy in Hx. repeat (apply bind_ok in Hx as (? & _ & Hx)). by injection Hx as <-.
  - by apply pg_reserve_inv.
  - intros t x Hx. apply Hl. rewrite <-Hx. symmetry. exact (reserved_limit (ctx_tenant c) g hh k (co_quota s) t).
Qed.

Lemma administered_governed h : governed h (st_store (administered h)).
Proof using Htxn.
  induction h as [|q h IH] using rev_ind.
  - split; cbn; [apply pg_inv_init| | | | | |by exists []].
    + intros t x Hx. unfold pg_limit in Hx. cbn in Hx. by rewrite lookup_empty in Hx.
    + intros t n v1 v2 r1 r2 E. by rewrite lookup_empty in E.
    + intros t n v r E. by rewrite lookup_empty in E.
    + intros p q' [k Hk]%elem_of_pg_values. by rewrite lookup_empty in Hk.
    + intros p [k Hk]%elem_of_pg_values. by rewrite lookup_empty in Hk.
  - unfold administered. rewrite foldl_snoc. eapply governed_step; [exact IH|]. apply serve_effect.
Qed.
End database.


(** ** A sample history *)

Definition sample_ctx (actor : string) (roles : gset string) (key : string) : ApiContext := MkContext "acme" actor roles "corr" (Some ("request-" +:+ key)) None.
Definition sample_quota_body : document := [("max_gpus", VInt 8); ("max_gpu_hours", VStr "100"); ("max_concurrent_jobs", VInt 2)].
Definition sample_job_value : pyval :=
  VDict [("id", VStr "job-1"); ("project_id", VStr "prj"); ("workload_class", VStr "online_inference");
         ("request", VDict [("gpu_count", VInt 1); ("estimated_hours", VStr "1.5"); ("power_kw_per_gpu", VStr "0.7")]);
         ("sla", VDict [("deadline", VStr "+7200000000")]); ("submitted_at", VStr "+0")].
Definition sample_node_value : pyval :=
  VDict [("id", VStr "n1"); ("site_id", VStr "s1"); ("topology_asset_id", VStr "rack");
         ("gpus", VList [VDict [("id", VStr "g1"); ("model", VStr "H100"); ("memory_gb", VInt 80); ("max_power_kw", VStr "0.7")]])].
Definition sample_admission_body : document :=
  [("job", sample_job_value); ("now", VStr "+60000000");
   ("snapshot", VDict [("nodes", VList [sample_node_value]); ("topology_version", VInt 1); ("observed_at", VStr "+0")]);
   ("quota", VDict [("max_gpus", VInt 400); ("max_gpu_hours", VInt 1000); ("max_concurrent_jobs", VInt 50)])].
Definition sample_requests : list admin_request :=
  [ReqConfigure 1 (MkResourceRequest "q" sample_quota_body) (sample_ctx "eve" {["operator"]} "k0");
   ReqConfigure 2 (MkResourceRequest "q" sample_quota_body) (sample_ctx "ann" {["tenant_admin"]} "k1");
   ReqDraft 3 (MkDraftRequest [[("id", VStr "hall"); ("site_id", VStr "s1"); ("kind", VStr "room")]; [("id", VStr "rack"); ("site_id", VStr "s1"); ("kind", VStr "rack")]]
     [[("parent_id", VStr "hall"); ("child_id", VStr "rack")]]) (sample_ctx "bob" {["operator"]} "k2");
   ReqTopology 4 "1" 1 (sample_ctx "bob" {["operator"]} "k3");
   ReqRegister 5 (MkResourceRequest "demand" [("version", VStr "v1"); ("artifact_hash", VStr "a"); ("dataset_hash", VStr "d"); ("created_at", VStr "+0")])
     (sample_ctx "bob" {["operator"]} "k4");
   ReqPromote 6 "demand" (MkResourceRequest "x" [("version", VStr "v1")]) (sample_ctx "eve" {["operator"]} "k5");
   ReqPromote 7 "demand" (MkResourceRequest "x" [("version", VStr "v1")]) (sample_ctx "ann" {["model_admin"]} "k6");
   ReqPolicy 8 (MkResourceRequest "soc" [("version", VInt 1); ("rule", VDict [("field", VStr "soc"); ("operator", VStr "gte"); ("value", VInt 1)]);
     ("enforcement", VStr "hard"); ("priority", VInt 5); ("owner", VStr "ann")]) (sample_ctx "ann" {["safety_admin"]} "k7");
   ReqAdmission sample_admission_body (sample_ctx "bob" {["operator"]} "k8")].
Definition sample_tables (n : nat) : components pg_ledger pg_registry model_table pg_policies :=
  st_store (administered aware_clock clock_text (λ _, "") (λ _, "hash") (λ _, "digest") (λ _ _ _, "etag") Ok (@atomically) (λ _, None) (λ _, "d") (take n sample_requests)).

Example sample_administration :
  map (λ n, let s := sample_tables n in
    (max_gpus <$> pg_limit (co_quota s) "acme", (pg_usage (co_quota s) "acme").1.1,
     bool_decide (is_Some (Topology.topology_versions (co_topology s) !! ("acme", 1))),
     row_stage <$> co_models s !! ("acme", "demand", "v1"), length (pg_values (co_policies s)))) [1; 2; 4; 5; 6; 7; 8; 9]%nat
  = [(None, 0, false, None, 0%nat); (Some 8, 0, false, None, 0%nat); (Some 8, 0, true, None, 0%nat); (Some 8, 0, true, Some REGISTERED, 0%nat);
     (Some 8, 0, true, Some REGISTERED, 0%nat); (Some 8, 0, true, Some PRODUCTION, 0%nat); (Some 8, 0, true, Some PRODUCTION, 1%nat);
     (Some 8, 1, true, Some PRODUCTION, 1%nat)].
Proof. vm_compute. reflexivity. Qed.


(** ** Admission through the API *)

(** A job that the route admits belongs to the caller's tenant, fits the snapshot of the request, and its demand is
    reserved inside the quota of that tenant; no other tenant's usage changes.  Without a database the quota is the one
    of the body. *)
Theorem admission_route_sound {Q T Mo P : Type} (ops : admin_ops Q T Mo P) `{QuotaLaws Q} fromisoformat str_container node_digest d c
    (st st' : api_state (components Q T Mo P) unit) r (Hinv : qs_inv (co_quota (st_store st))) :
  evaluate_admission fromisoformat str_container ops node_digest false d c st = (st', Ok r) →
  ∃ job snap now, job_tenant_id job = ctx_tenant c ∧ job_ok job ∧ parse_snapshot fromisoformat str_container node_digest (VDict d) (ctx_tenant c) = Ok snap ∧
    qs_inv (co_quota (st_store st')) ∧
    (∀ t, t ≠ ctx_tenant c → qs_usage (co_quota (st_store st')) t = qs_usage (co_quota (st_store st)) t) ∧
    if bool_decide (Admission.status r = "admitted")
    then feasible job snap now ∧ ∃ x, qs_limit (co_quota (st_store st')) (ctx_tenant c) = Some x ∧ within x (qs_usage (co_quota (st_store st')) (ctx_tenant c))
    else co_quota (st_store st') = co_quota (st_store st).
Proof.
  unfold evaluate_admission. unfold mbind at 1, M_bind at 1, mlift at 1. destruct (_ ≫= _) as [job|] eqn:Ej; [|done].
  apply bind_ok in Ej as (v & _ & [Hok Ht]%job_parsed). unfold mbind at 1, M_bind at 1, mlift at 1.
  destruct (parse_snapshot _ _ _ _ _) as [snap|] eqn:Es; [|done]. unfold mbind at 1, M_bind at 1, mret at 1, M_ret at 1.
  unfold mbind at 1, M_bind at 1, mlift at 1. destruct (_ ≫= _) as [now|] eqn:En; [|done].
  unfold on_quota, on_store. pose proof (admission_sound job snap now (co_quota (st_store st)) Hinv) as Hs.
  pose proof (qs_reserve_frame (job_tenant_id job) (gpu_count (Workloads.request job)) (demand_hours job) (Some (job_id job)) (co_quota (st_store st))) as Hf.
  destruct (Admission.evaluate job snap now (co_quota (st_store st))) as [q' [r'|]] eqn:Ee; [|done]. intros [= <- <-].
  destruct Hs as (Hi & _ & _ & Ha & Hr). exists job, snap, now. cbn [st_store co_quota]. split_and!; try done.
  - intros t Hne. destruct (decide (Admission.status r' = "admitted")) as [He|He].
    + destruct (Ha He) as (_ & _ & Hres & _). rewrite Hres in Hf. cbn in Hf. apply Hf. congruence.
    + by destruct (Hr He) as [-> _].
  - rewrite <-Ht. case_bool_decide as He; [destruct (Ha He) as (? & _ & _ & ?); done|by destruct (Hr He)].
Qed.

Lemma evaluated_quotas job snap now (s : mem_ledger) : mem_quotas (Admission.evaluate job snap now s).1 = mem_quotas s.
Proof.
  unfold Admission.evaluate, mbind, M_bind, mlift. destruct (admission_blocking job snap now) as [[|]|]; [|done..]. cbn [qs_reserve mem_quota_service].
  destruct (mem_reserve_cases (job_tenant_id job) (gpu_count (Workloads.request job)) (demand_hours job) (Some (job_id job)) s); done.
Qed.

(** Without a database, an evaluation sets the tenant's quota to the one of its body, whatever the roles of the caller,
    and leaves no audit record, while the route that configures quotas demands an administrator and is audited. *)
Theorem admission_resets_quota fromisoformat str_container node_digest topology_etag d c
    (st : api_state (components mem_ledger Topology.mem_registry Registry.mem_registry mem_policies) unit) job snap v q :
  (j ← item "job" d; parse_job fromisoformat str_container j (ctx_tenant c)) = Ok job →
  parse_snapshot fromisoformat str_container node_digest (VDict d) (ctx_tenant c) = Ok snap →
  item "quota" d = Ok v → parse_quota str_container v = Ok q →
  (mem_configure (ctx_tenant c) q (co_quota (st_store st))).2 = Ok tt →
  let st' := (evaluate_admission fromisoformat str_container (memory_ops topology_etag) node_digest true d c st).1 in
  mem_quotas (co_quota (st_store st')) !! ctx_tenant c = Some q ∧ st_audit st' = st_audit st.
Proof.
  intros Hj Hs Hv Hq Hc. unfold evaluate_admission, py_item. rewrite Hj, Hs, Hv. unfold mbind, M_bind, mlift, result_bind. rewrite Hq. unfold on_quota, on_store.
  destruct (mem_configure _ _ _) as [m [[]|]] eqn:Em; [|done].
  assert (mem_quotas m !! ctx_tenant c = Some q) as Hm.
  { unfold mem_configure, mbind, M_bind, mguard, mget, mput, raise_if in Em. destruct (quota_negative q); [done|].
    destruct (mem_usage _ _) as [[g hh] j]. destruct (_ || _); [done|]. injection Em as <-. cbn. by rewrite lookup_insert_eq. }
  cbn [op_configure memory_ops]. rewrite Em. cbn [st_store co_quota].
  set (n := match text_item _ _ _ with Ok a => _ | Err e => _ end). destruct n as [t|]; [|done].
  pose proof (evaluated_quotas job snap t m) as He. destruct (Admission.evaluate job snap t m) as [m' x]. cbn in *. by rewrite He.
Qed.

Example quota_raised_by_operator :
  let ops := memory_ops (λ _ _ _, "etag") in
  let st := MkState (MkComponents (mem_configure "acme" (MkQuota 8 (dint 100) 2) mem_init).1 (MkMemRegistry ∅ ∅) empty_registry []) tt [] ∅ in
  let st' := (evaluate_admission aware_clock (λ _, "") ops (λ _, "d") true sample_admission_body (sample_ctx "eve" {["operator"]} "k9") st).1 in
  max_gpus <$> mem_quotas (co_quota (st_store st')) !! "acme" = Some 400.
Proof. vm_compute. reflexivity. Qed.
