(* ===== verification/Routes.v ===== *)
(** * Tariffs, simulations, controllers and studies through the API: [apps/api/main.py]

    The handlers that publish a tariff, create and operate simulations, run a controller cycle, plan a recovery, and
    store benchmarks, replays, what-if studies and forecasts; the compute and audit views; the readiness probe.  Proved
    against [StoreLaws].  The documents of stored results whose fields have no JSON form of their own are parameters. *)
From S2P Require Import Prelude PyDecimal PyFloat PyValue PyText Settings Domain Access Workloads Scheduling PlanDocument Optimizer Energy Tariffs Insight Evaluation Forecast.
From S2P Require Import Engine Mpc Approval AuditLog Versions Store MpcRepository Sessions Actions Connectors Requests Operations Api Governance.
Local Open Scope Z_scope.

Section routes.
Context {S A : Type} (api : store_api pyval S).
Context (fromisoformat : string → result datetime) (date_fromisoformat time_fromisoformat : string → result Z) (dt_text : datetime → string).
Context (str_container : pyval → string) (audit_digest : audit_source → string) (intent_digest : pyval → string).

#[local] Abbreviation state := (api_state S A).
#[local] Abbreviation operate := (audited_operation (S := S) (A := A) audit_digest intent_digest).
#[local] Abbreviation text := (py_str str_container).
#[local] Abbreviation text_item := (Requests.text_item str_container).
#[local] Abbreviation decimal_item := (Requests.decimal_item str_container).
#[local] Abbreviation decimal_get := (Requests.decimal_get str_container).
#[local] Abbreviation parse_input := (parse_schedule_input fromisoformat str_container).

(** ** Tariffs *)

(** The tariff plan of a stored body *)
Definition stored_tariff (id : string) (current : StoredResource pyval) : result TariffPlan :=
  let get k := body current !! k in
  v ← py_int (default (VInt (version current)) (get "tariff_version"));
  parse_tariff date_fromisoformat str_container get id v
    (ps ← of_option (KeyError "periods") (get "periods"); parse_periods time_fromisoformat str_container ps).

Definition tariff_put (now : Z) (id : string) (current : StoredResource pyval) (c : ApiContext) : put_request pyval :=
  MkPut "tariff" id (ctx_tenant c)
    (<["published_at" := VStr (dt_text (DT now true))]> (<["status" := VStr "published"]> (without_id (body current))))
    (opt_text (ctx_key c) +:+ ":tariff") (ctx_if_match c).
Definition tariff_callback (now : Z) (id : string) (current : StoredResource pyval) (c : ApiContext) : M state response :=
  mlift (require_if_match c current);;
  mlift (stored_tariff id current);;
  r ← on_store (api_put api now (tariff_put now id current c));
  mret (RResource (serialize r)).
Definition publish_tariff (now : Z) (id : string) (c : ApiContext) : M state response :=
  current ← store_get api "tariff" id (ctx_tenant c);
  operate now c "tariff.publish" id (version_intent current) (tariff_callback now id current c).

(** ** Simulations *)

Section simulations.
Context {R : Type} (rng_seed : Z → R) (rng_next : R → bin * R).
Context (sin : bin → bin) (float_repr : bin → string) (float_dec : bin → dec) (iso : datetime → string) (event_hash : list document → string).
Context (rng_state : R → pyval) (rng_set : pyval → result R) (body_digest : gmap string pyval → string).

Definition int_get (k : string) (fallback : Z) (d : document) : result Z := py_int (default (VInt fallback) (od_get k d)).
Definition requested_config (d : document) : result SimulationConfig :=
  s ← int_get "seed" 7 d; h ← int_get "duration_hours" 24 d; m ← int_get "step_minutes" 15 d; g ← int_get "gpu_count" 16 d;
  simulation_config (MkConfig s h m g (dint 100) (dint 200) "simulator" []).
Definition create_simulation (now : Z) (b : ResourceRequest) (c : ApiContext) : M state response :=
  operate now c "simulation.create" (body_id b) (VDict (body_data b))
    (config ← mlift (requested_config (body_data b));
     d ← on_store (session_create rng_seed iso event_hash rng_state api now (body_id b) (ctx_tenant c) (key_or "missing-idempotency-key" c) config);
     mret (RResource (list_to_map d))).
Definition operate_simulation (now : Z) (id operation : string) (d : document) (c : ApiContext) : M state response :=
  operate now c ("simulation." +:+ operation) id (VDict d)
    (d ← on_store (session_operate rng_next sin float_repr float_dec iso event_hash rng_state rng_set fromisoformat str_container body_digest api
           now id (ctx_tenant c) operation (key_or "missing-idempotency-key" c) d);
     mret (RResource (list_to_map d))).
End simulations.

(** ** Controllers and recovery *)

Section controllers.
Context (expired : nat → bool) (content_hash : ScheduleInput → string) (cycle_document : MpcCycle → gmap string pyval).

Definition parse_progress (kv : string * pyval) : result (string * dec) := x ← PyText.py_decimal str_container kv.2; Ok (kv.1, x).
Definition parse_observed (v : pyval) : result ObservedState :=
  done_ ← get_of "completed_jobs" (VList []) v; done_ ← parse_strings str_container done_;
  p ← get_of "running_progress" (VDict []) v; p ← dict_of p; p ← mapM_result parse_progress p;
  g ← int_item "available_gpus" v; soc ← decimal_item "battery_soc" v; grid ← decimal_item "grid_limit_kw" v;
  q ← decimal_item "data_quality" v; ver ← text_item "version" v;
  Ok (Mpc.MkObserved (list_to_set done_) (list_to_map p) g soc grid q ver).

Definition cycle_callback (now : Z) (id : string) (data : document) (observed : ObservedState) (c : ApiContext) : M state response :=
  sv ← mlift (item "schedule" data); rq ← mlift (parse_input sv (ctx_tenant c));
  t ← mlift (t ← text_item "started_at" (VDict data); fromisoformat t);
  mlift (float_of_val (default (VInt 5) (od_get "timeout_seconds" data)));;
  cy ← on_store (repo_cycle api content_hash str_container cycle_document expired now id (ctx_tenant c) rq observed t (key_or "missing-idempotency-key" c));
  mret (RResource (cycle_document cy)).
Definition create_mpc_cycle (now : Z) (id : string) (b : ResourceRequest) (c : ApiContext) : M state response :=
  ov ← mlift (item "observed" (body_data b)); observed ← mlift (parse_observed ov);
  operate now c "mpc.cycle" id (VDict (body_data b)) (cycle_callback now id (body_data b) observed c).
End controllers.

Definition degraded_document (p : DegradedPlan) : document :=
  [("served", strings_value (served p)); ("shed", strings_value (shed p)); ("used_power_kw", VDec (used_power_kw p));
   ("hard_violations", strings_value (Energy.hard_violations p))].
Definition recovery_plan (now : Z) (b : ResourceRequest) (c : ApiContext) : M state response :=
  operate now c "recovery.plan" (body_id b) (VDict (body_data b))
    (p ← mlift (recovery_callback str_container b); mret (RResource (list_to_map (degraded_document p)))).

(** ** Stored studies *)

Section studies.
Context (content_hash : ScheduleInput → string) (expired : nat → bool) (event_digest : list document → result string) (isoformat : datetime → string).
Context (benchmark_document : BenchmarkResult → document) (replay_document : ReplayResult → document) (what_if_document : WhatIfResult → document)
  (bundle_document : ForecastBundle → document).

Definition create_benchmark (now : Z) (b : ResourceRequest) (c : ApiContext) : M state rbody :=
  rq ← mlift (parse_input (VDict (body_data b)) (ctx_tenant c)); s ← mlift (int_get "seed" 0 (body_data b));
  r ← mlift (benchmark content_hash rq s);
  mutate api audit_digest now "benchmark" (MkResourceRequest (body_id b) (benchmark_document r)) c.
(** an event is read by its keys *)
Definition event_of (v : pyval) : result document := match v with VDict d => Ok d | _ => Err TypeError end.
Definition create_replay (now : Z) (b : ResourceRequest) (c : ApiContext) : M state rbody :=
  ev ← mlift (v ← item "events" (body_data b); l ← py_iter v; mapM_result event_of l);
  r ← mlift (replay str_container event_digest ev);
  mutate api audit_digest now "evaluation" (MkResourceRequest (body_id b) (replay_document r)) c.
Definition create_what_if (now : Z) (b : ResourceRequest) (c : ApiContext) : M state rbody :=
  rq ← mlift (v ← item "schedule" (body_data b); parse_input v (ctx_tenant c));
  m ← mlift (decimal_get "capacity_multiplier" (VInt 1) (VDict (body_data b)));
  r ← mlift (run_what_if content_hash expired rq m);
  mutate api audit_digest now "what_if" (MkResourceRequest (body_id b) (what_if_document r)) c.

Definition parse_observation (v : pyval) : result ObservedValue :=
  t ← text_item "timestamp" v; t ← fromisoformat t; x ← decimal_item "value" v; Ok (Forecast.MkObserved t x).
Definition generate_forecast (now : Z) (b : ResourceRequest) (c : ApiContext) : M state rbody :=
  let data := VDict (body_data b) in
  h ← mlift (v ← item "history" (body_data b); l ← py_iter v; mapM_result parse_observation l);
  start ← mlift (t ← text_item "start" data; fromisoformat t);
  periods ← mlift (int_item "periods" data);
  step ← mlift (int_get "step_minutes" 60 (body_data b));
  let ver := text (default (VStr "persistence-1") (od_get "model_version" (body_data b))) in
  sig ← mlift (text_item "signal" data);
  r ← mlift (persistence_forecast isoformat h start periods (step * 60000000) ver sig);
  mutate api audit_digest now "forecast" (MkResourceRequest (body_id b) (bundle_document r)) c.
End studies.

(** ** Views *)

(** The dicts of a list-valued field of the compute snapshots *)
Definition as_dict (v : pyval) : option document := match v with VDict d => Some d | _ => None end.
Definition dicts_of (v : pyval) : result (list document) := l ← py_iter v; Ok (omap as_dict (l : list pyval)).
Definition snapshot_field (k : string) (snapshots : list (StoredResource pyval)) : result (list document) :=
  ls ← mapM_result (λ r, dicts_of (default (VList []) (body r !! k))) snapshots;
  Ok (concat ls).
Definition compute_nodes (snapshots : list (StoredResource pyval)) : result (list document) := snapshot_field "nodes" snapshots.
Definition compute_reservations (snapshots : list (StoredResource pyval)) : result (list document) := snapshot_field "reservations" snapshots.
Definition compute_gpus (snapshots : list (StoredResource pyval)) : result (list document) :=
  ns ← compute_nodes snapshots;
  ls ← mapM_result (λ n, dicts_of (default (VList []) (od_get "gpus" n))) ns;
  Ok (concat ls).

(** The routes that read one resource of a kind *)
Definition read_resource (kd id : string) (c : ApiContext) : M state rbody := r ← store_get api kd id (ctx_tenant c); mret (serialize r).
Definition get_admin_config : string → ApiContext → M state rbody := read_resource "admin_config".
Definition compute_snapshot : string → ApiContext → M state rbody := read_resource "compute_snapshot".
Definition get_job : string → ApiContext → M state rbody := read_resource "job".
Definition get_forecast : string → ApiContext → M state rbody := read_resource "forecast".
Definition benchmark_result : string → ApiContext → M state rbody := read_resource "benchmark".
Definition optimization_result : string → ApiContext → M state rbody := read_resource "optimization_run".
Definition mpc_cycle (id cycle : string) : ApiContext → M state rbody := read_resource "mpc_cycle" (id +:+ "-" +:+ cycle).
Definition plan_explanation : string → ApiContext → M state rbody := read_resource "explanation".
Definition get_report : string → ApiContext → M state rbody := read_resource "report".
Definition get_evaluation : string → ApiContext → M state rbody := read_resource "evaluation".
Definition admin_config_versions (id : string) (c : ApiContext) (st : state) : list rbody :=
  map serialize (api_history api (ctx_tenant c, "admin_config", id) (st_store st)).
Definition cancel_job (now : Z) (id : string) (b : ResourceRequest) (c : ApiContext) : M state rbody :=
  mutate api audit_digest now "job_cancel" (MkResourceRequest id (body_data b)) c.

Definition AUDIT_ROLES : gset string := {["admin"; "auditor"]}.
Definition audit_records (c : ApiContext) : M state (list AuditRecord) := λ st,
  (st, raise_if (bool_decide (ctx_roles c ∩ AUDIT_ROLES = ∅)) (PermissionError "audit records require auditor role");;
       Ok (mem_records (ctx_tenant c) (st_audit st))).
Record integrity := MkIntegrity { ig_valid : bool; ig_count : Z; ig_head : string }.
Definition audit_integrity (c : ApiContext) : M state integrity := λ st,
  (st, raise_if (bool_decide (ctx_roles c ∩ AUDIT_ROLES = ∅)) (PermissionError "audit integrity requires auditor role");;
       let records := mem_records (ctx_tenant c) (st_audit st) in
       Ok (MkIntegrity (mem_verify_tenant audit_digest (ctx_tenant c) (st_audit st)) (Z.of_nat (length records))
             (match last records with Some r => record_hash r | None => "GENESIS" end))).

(** The readiness probe: the status and what it reports; [object_store] is the health of the backend, when there is one *)
Record readiness := MkReadiness { rd_code : Z; rd_status : string; rd_database : string; rd_objects : string }.
Definition health_ready (is_file : string → bool) (sslmode_of : string → result string) (s : Settings) (database : bool) (object_store : option bool) : result readiness :=
  match Settings.validate is_file sslmode_of s with
  | Err (ValueError _) => Ok (MkReadiness 503 "not_ready" "" "")
  | Err e => Err e
  | Ok _ =>
      let objects := default (mem (Settings.environment s) ["test"; "simulator"; "development"]) object_store in
      let ready := database && objects in
      Ok (MkReadiness (if ready then 200 else 503) (if ready then "ready" else "not_ready")
            (if database then "ready" else "unavailable") (if objects then "ready" else "unavailable"))
  end.
End routes.

(** ** Tariffs in the store *)

Inductive tariff_request :=
| ReqCreate (now : Z) (b : ResourceRequest) (c : ApiContext)
| ReqPublish (now : Z) (id : string) (c : ApiContext)
| ReqOther (now : Z) (q : put_request pyval).

Section tariffs.
Context {S A : Type} (api : store_api pyval S) (inv : S → Prop) `{!StoreLaws api inv}.
Context (date_fromisoformat time_fromisoformat : string → result Z) (dt_text : datetime → string).
Context (str_container : pyval → string) (audit_digest : audit_source → string) (intent_digest : pyval → string).
Context (tr : pyval → pyval) (Htr : transport tr).
Context (Hstored : ∀ q, api_stored api q = <["id" := VStr (put_id q)]> (tr <$> put_body q)).

#[local] Abbreviation state := (api_state S A).
#[local] Abbreviation history t id s := (api_history api (t, "tariff", id) s).

Definition tariff_serve (q : tariff_request) (st : state) : state :=
  match q with
  | ReqCreate now b c => (collection_create api audit_digest now "tariff" b c st).1
  | ReqPublish now id c => (publish_tariff api date_fromisoformat time_fromisoformat dt_text str_container audit_digest intent_digest now id c st).1
  | ReqOther now q => if bool_decide (put_kind q = "tariff") then st else (on_store (api_put api now q) st).1
  end.
Definition tariffs_served (a : A) (h : list tariff_request) : state := foldl (λ st q, tariff_serve q st) (MkState (api_init api) a [] ∅) h.

Definition is_published (r : StoredResource pyval) : Prop := body r !! "status" = Some (VStr "published").
(** The terms of a tariff: its body without the time of its publication *)
Definition terms (r : StoredResource pyval) : rbody := delete "published_at" (body r).
Definition keeps_terms (r0 r1 : StoredResource pyval) : Prop := is_published r0 → is_published r1 ∧ terms r1 = terms r0.

Definition terms_kept (s : S) : Prop := ∀ t id i r0 r1, history t id s !! i = Some r0 → history t id s !! (i + 1)%nat = Some r1 → keeps_terms r0 r1.

(** A change of the store that keeps the terms of the tariffs *)
Record tariff_ok (s : S) : Prop := { to_inv : inv s; to_documents : documents_ok api tr s; to_terms : terms_kept s }.

Lemma put_tariff now q s : tariff_ok s →
  (∀ t id p r, put_target q = (t, "tariff", id) → last (history t id s) = Some p → appended api q s (api_put api now q s).1 r → keeps_terms p r) →
  tariff_ok (api_put api now q s).1.
Proof using StoreLaws0 Htr Hstored.
  intros [Hi Hd Ht] Hnew. destruct (put_cases api inv now q s Hi) as [Hi' Hp]. split; [done|by eapply put_documents|].
  intros t id i r0 r1. destruct Hp as [H|[r H]]; [rewrite H; apply Ht|]. rewrite (ap_history _ _ _ _ _ H). case_decide as Hk; [|rewrite app_nil_r; apply Ht].
  intros H0 H1. destruct (decide (i + 1 < length (history t id s))%nat) as [Hl|Hl].
  - rewrite lookup_app_l in H0, H1 by lia. by eapply Ht.
  - pose proof (lookup_lt_Some _ _ _ H1) as Hlt. rewrite length_app in Hlt. cbn in Hlt. rewrite lookup_app_r in H1 by lia.
    replace (i + 1 - length (history t id s))%nat with 0%nat in H1 by lia. injection H1 as <-. rewrite lookup_app_l in H0 by lia.
    eapply Hnew; [by symmetry| |exact H]. rewrite last_lookup. replace (pred (length (history t id s))) with i by lia. exact H0.
Qed.

Lemma stored_publication now id r c : tr <$> body r = body r → body r !! "id" = Some (VStr id) → is_published r →
  let b := api_stored api (tariff_put dt_text now id r c) in b !! "status" = Some (VStr "published") ∧ delete "published_at" b = terms r.
Proof using Htr Hstored.
  intros Hb Hid Hs. cbn zeta. rewrite Hstored. cbn [put_id put_body tariff_put]. unfold without_id. split.
  - rewrite lookup_insert_ne, lookup_fmap, lookup_insert_ne, lookup_insert_eq by done. cbn. by rewrite (transport_str tr _ Htr).
  - unfold terms. apply map_eq. intros k. destruct (decide (k = "published_at")) as [->|Hk]; [by rewrite !lookup_delete_eq|].
    rewrite !lookup_delete_ne by done. destruct (decide (k = "id")) as [->|Hi]; [by rewrite lookup_insert_eq|].
    rewrite lookup_insert_ne, lookup_fmap, lookup_insert_ne by done. destruct (decide (k = "status")) as [->|Hst].
    + rewrite lookup_insert_eq. cbn. rewrite (transport_str tr _ Htr). by symmetry.
    + rewrite lookup_insert_ne, lookup_delete_ne by done. rewrite <-lookup_fmap. by rewrite Hb.
Qed.

Lemma publish_tariff_step now id c (st : state) : tariff_ok (st_store st) → tariff_ok (st_store (tariff_serve (ReqPublish now id c) st)).
Proof using StoreLaws0 Htr Hstored.
  intros Hok. cbn [tariff_serve]. unfold publish_tariff. unfold mbind at 1, M_bind at 1, store_get. destruct (api_get _ _ _) as [r|] eqn:Eg; [|done].
  apply audited_store; [done|]. unfold tariff_callback, mbind, M_bind, mlift. destruct (require_if_match c r) as [[]|]; [|done]. destruct (stored_tariff _ _ _ _ _) as [plan|]; [|done].
  unfold on_store. assert (tariff_ok (api_put api now (tariff_put dt_text now id r c) (st_store st)).1) as Hput.
  { apply put_tariff; [done|]. intros t id' p x Htg Hl Hap. injection Htg as <- <-. destruct Hok as [Hi Hd _].
    destruct (sl_reads (st_store st) (ctx_tenant c, "tariff", id) Hi) as [_ _ Hget _]. rewrite Hget, Hl in Eg. cbn in Eg. injection Eg as ->.
    specialize (Hd (ctx_tenant c, "tariff", id)). rewrite Forall_forall in Hd. destruct (Hd r) as [Hb Hid]; [by apply last_Some_elem_of|].
    intros Hs. destruct (stored_publication now id r c Hb Hid Hs) as [H1 H2]. unfold is_published, terms. rewrite (ap_body _ _ _ _ _ Hap). done. }
  destruct (api_put _ _ _ _) as [s' [x|e]]; exact Hput.
Qed.

Lemma create_step now b c (st : state) : tariff_ok (st_store st) → tariff_ok (st_store (tariff_serve (ReqCreate now b c) st)).
Proof using StoreLaws0 Htr Hstored.
  intros Hok. cbn [tariff_serve]. unfold collection_create. rewrite bool_decide_true by done.
  assert ((∀ r, last (history (ctx_tenant c) (body_id b) (st_store st)) = Some r → ¬ is_published r) →
    tariff_ok (st_store (mutate api audit_digest now "tariff" b c st).1)) as Hm.
  { intros Hnot. apply mutate_store; [done|]. apply put_tariff; [done|]. intros t id p x Htg Hl _ Hp. injection Htg as <- <-. by destruct (Hnot p Hl). }
  destruct (sl_reads (st_store st) (ctx_tenant c, "tariff", body_id b) (to_inv _ Hok)) as [_ _ Hget _]. rewrite Hget.
  destruct (last (history (ctx_tenant c) (body_id b) (st_store st))) as [r|]; cbn [of_option]; [|by apply Hm].
  destruct (py_eq _ _) eqn:Ep; [done|]. apply Hm. intros r' [= <-] Hp. rewrite Hp in Ep. by vm_compute in Ep.
Qed.

Lemma served_ok a h : tariff_ok (st_store (tariffs_served a h)).
Proof using StoreLaws0 Htr Hstored.
  induction h as [|q h IH] using rev_ind.
  - split; cbn; [apply sl_init|intros k; rewrite sl_empty; constructor|]. intros t id i r0 r1. by rewrite sl_empty.
  - unfold tariffs_served. rewrite foldl_snoc. fold (tariffs_served a h). destruct q as [now b c|now id c|now q]; [by apply create_step|by apply publish_tariff_step|].
    cbn [tariff_serve]. case_bool_decide as Hk; [done|]. unfold on_store.
    assert (tariff_ok (api_put api now q (st_store (tariffs_served a h))).1) as Hput.
    { apply put_tariff; [done|]. intros t id p x Htg. exfalso. apply Hk. by injection Htg. }
    destruct (api_put _ _ _ _) as [s' x]. exact Hput.
Qed.
End tariffs.

Lemma kept_forever {S} (api : store_api pyval S) s t id i r0 : terms_kept api s → api_history api (t, "tariff", id) s !! i = Some r0 → is_published r0 →
  ∀ n r1, api_history api (t, "tariff", id) s !! (i + n)%nat = Some r1 → is_published r1 ∧ terms r1 = terms r0.
Proof.
  intros Hk H0 Hp. induction n as [|n IH]; intros r1 H1.
  - rewrite Nat.add_0_r, H0 in H1. by injection H1 as <-.
  - destruct (api_history api (t, "tariff", id) s !! (i + n)%nat) as [r|] eqn:Er.
    + destruct (IH r eq_refl) as [Hpr Ht]. destruct (Hk t id (i + n)%nat r r1 Er) as [? Ht']; [|done|split; [done|by rewrite Ht']].
      by replace (i + n + 1)%nat with (i + Datatypes.S n)%nat by lia.
    + apply lookup_ge_None in Er. apply lookup_lt_Some in H1. lia.
Qed.

(** C37: A published tariff keeps its terms.  In any store that keeps its promises, after any history of requests that
    create or publish tariffs, and of writes of other kinds, every version of a tariff after a published one is
    published too and differs from it at most in the time of publication. *)
Theorem published_tariffs_keep_terms {S A : Type} (api : store_api pyval S) (inv : S → Prop) (Hlaws : StoreLaws api inv)
    (date_fromisoformat time_fromisoformat : string → result Z) (dt_text : datetime → string) (str_container : pyval → string)
    (audit_digest : audit_source → string) (intent_digest : pyval → string) (tr : pyval → pyval) (Htr : transport tr)
    (Hstored : ∀ q, api_stored api q = <["id" := VStr (put_id q)]> (tr <$> put_body q))
    (a : A) (h : list tariff_request) (t id : string) (i j : nat) (r0 r1 : StoredResource pyval) :
  let s := st_store (tariffs_served api date_fromisoformat time_fromisoformat dt_text str_container audit_digest intent_digest a h) in
  api_history api (t, "tariff", id) s !! i = Some r0 → api_history api (t, "tariff", id) s !! j = Some r1 → (i <= j)%nat →
  body r0 !! "status" = Some (VStr "published") →
  body r1 !! "status" = Some (VStr "published") ∧ delete "published_at" (body r1) = delete "published_at" (body r0).
Proof.
  intros s H0 H1 Hij Hp. pose proof (served_ok api inv date_fromisoformat time_fromisoformat dt_text str_container audit_digest intent_digest tr Htr Hstored a h) as Hok.
  apply (kept_forever api s t id i r0 (to_terms _ _ _ _ Hok) H0 Hp (j - i) r1). by replace (i + (j - i))%nat with j by lia.
Qed.

(** ** A sample tariff *)

Definition minutes_of (t : string) : result Z := u ← py_int (VStr t); Ok (u * 60000000).
Definition day_of (t : string) : result Z := py_int (VStr t).
Definition tariff_ctx (key : string) (m : option string) : ApiContext := MkContext "acme" "ann" {["operator"]} "corr" (Some ("request-" +:+ key)) m.
Definition tariff_body (price : string) : document :=
  [("timezone", VStr "UTC"); ("effective_from", VStr "739000");
   ("periods", VList [VDict [("name", VStr "flat"); ("start_local", VStr "0"); ("end_local", VStr "0"); ("price_per_kwh", VStr price)]])].
Definition sample_tariff_requests : list tariff_request :=
  [ReqCreate 1 (MkResourceRequest "tou" (tariff_body "0.20")) (tariff_ctx "k1" None); ReqPublish 2 "tou" (tariff_ctx "k2" (Some "1"));
   ReqCreate 3 (MkResourceRequest "tou" (tariff_body "0.90")) (tariff_ctx "k3" (Some "2")); ReqPublish 4 "tou" (tariff_ctx "k4" (Some "2"))].
Definition sample_tariffs (n : nat) : list (StoredResource pyval) :=
  api_history toy_store ("acme", "tariff", "tou")
    (st_store (tariffs_served toy_store day_of minutes_of (λ t, int_str (us t)) (λ _, "") (λ _, "hash") (λ _, "digest") tt (take n sample_tariff_requests))).

Example sample_tariff_history :
  map (λ n, map (λ r, (body r !! "status", body r !! "published_at")) (sample_tariffs n)) [1; 2; 3; 4]%nat
  = let draft := (None, None) in let published (t : string) := (Some (VStr "published"), Some (VStr t)) in
    [[draft]; [draft; published "2"]; [draft; published "2"]; [draft; published "2"; published "4"]].
Proof. vm_compute. reflexivity. Qed.

Lemma published_tariffs_keep_terms_witness : ∃ r0 r1, sample_tariffs 4 !! 1%nat = Some r0 ∧ sample_tariffs 4 !! 2%nat = Some r1 ∧
  body r0 !! "published_at" ≠ body r1 !! "published_at" ∧ delete "published_at" (body r1) = delete "published_at" (body r0).
Proof.
  destruct (sample_tariffs 4 !! 1%nat) as [r0|] eqn:E0; [|vm_compute in E0; discriminate].
  destruct (sample_tariffs 4 !! 2%nat) as [r1|] eqn:E1; [|vm_compute in E1; discriminate].
  exists r0, r1. split; [reflexivity|]. split; [reflexivity|].
  pose proof (published_tariffs_keep_terms toy_store mem_inv _ day_of minutes_of (λ t, int_str (us t)) (λ _, "") (λ _, "hash") (λ _, "digest") id direct toy_stored tt
    (take 4 sample_tariff_requests) "acme" "tou" 1 2 r0 r1 E0 E1 ltac:(lia)) as H.
  assert (body r0 !! "status" = Some (VStr "published")) as Hs by (vm_compute in E0; injection E0 as <-; vm_compute; reflexivity).
  split; [|exact (proj2 (H Hs))]. vm_compute in E0, E1. injection E0 as <-. injection E1 as <-. vm_compute. discriminate.
Defined.

(** Creation does not look at the status of the body: a tariff can be born published, without the checks of
    [publish_tariff], which its body would not pass. *)
Example published_unchecked :
  let st := tariffs_served toy_store day_of minutes_of (λ t, int_str (us t)) (λ _, "") (λ _, "hash") (λ _, "digest") tt
    [ReqCreate 1 (MkResourceRequest "raw" [("status", VStr "published")]) (tariff_ctx "k1" None)] in
  (λ r, body r !! "status") <$> api_get toy_store ("acme", "tariff", "raw") (st_store st) = Ok (Some (VStr "published")) ∧
  (r ← api_get toy_store ("acme", "tariff", "raw") (st_store st); stored_tariff day_of minutes_of (λ _, "") "raw" r) = Err (KeyError "timezone").
Proof. split; vm_compute; reflexivity. Qed.

(** A tariff that the route publishes now has passed the checks of a tariff plan, under the If-Match of the version read. *)
Theorem published_tariff_checked {S A : Type} (api : store_api pyval S) date_fromisoformat time_fromisoformat dt_text str_container audit_digest intent_digest
    now id c (st st' : api_state S A) v r : api_get api (ctx_tenant c, "tariff", id) (st_store st) = Ok r →
  publish_tariff api date_fromisoformat time_fromisoformat dt_text str_container audit_digest intent_digest now id c st = (st', Ok v) →
  st' = st ∨ ctx_if_match c = Some (etag r) ∧ ∃ plan, stored_tariff date_fromisoformat time_fromisoformat str_container id r = Ok plan ∧
    periods plan ≠ [] ∧ tariff_id plan = id.
Proof.
  intros Hg. unfold publish_tariff. unfold mbind at 1, M_bind at 1, store_get. rewrite Hg. intros H%audited_run. destruct H as [_ [->|(st1 & Hcb & _)]]; [by left|right].
  unfold tariff_callback, mbind, M_bind, mlift in Hcb. destruct (require_if_match c r) as [[]|] eqn:Em; [|done].
  destruct (stored_tariff _ _ _ _ _) as [plan|] eqn:Es; [|done]. split.
  - unfold require_if_match in Em. apply bind_ok in Em as (? & _ & Hx%guard_last). by apply negb_false_iff, bool_decide_eq_true in Hx.
  - exists plan. split; [done|]. unfold stored_tariff, parse_tariff in Es. do 10 apply bind_ok in Es as (? & _ & Es).
    unfold tariff_check in Es. apply bind_ok in Es as ([] & Hp%guard_last & Es). apply bind_ok in Es as (? & _ & [= <-]). cbn in *. split; [|done]. by intros ->.
Qed.
