(* ===== verification/Runs.v ===== *)
(** * Optimization runs and reports: [apps/api/main.py], [apps/worker/optimizer.py]

    The handlers that solve a schedule with HiGHS: [create_optimization_run] stores the result and its explanation,
    [create_report] compares it with the FIFO baseline, and the worker's [optimization_handler] returns it.  The solver and
    the run time it reports are arguments, as are the text of a tuple and the digest of a report.  Proved against
    [StoreLaws]. *)
From S2P Require Import Prelude PyDecimal PyValue PyText Domain Access Workloads Scheduling PlanDocument Optimizer Evaluation Highs.
From S2P Require Import Approval Jobs AuditLog Versions Store Connectors Requests Operations Api Governance Actions Worker.
Local Open Scope Z_scope.

(** [asdict(result)], with the run time *)
Definition breakdown_value (l : list (string * dec)) : pyval := VDict (map (λ kd, (kd.1, VDec kd.2)) l).
Definition optimization_document (runtime : pyval) (o : OptimizationResult) : document :=
  [("status", VStr (opt_status o)); ("plan", match opt_plan o with Some p => VDict (plan_document p) | None => VNone end);
   ("objective_breakdown", breakdown_value (opt_breakdown o)); ("solver", VStr (opt_solver o)); ("gap", VDec (opt_gap o));
   ("runtime_seconds", runtime); ("assumptions", strings_value (opt_assumptions o)); ("diagnostics", strings_value (opt_diagnostics o))].

(** [asdict(explanation)] *)
Definition texts_value (l : list (string * string)) : pyval := VDict (map (λ kv, (kv.1, VStr kv.2)) l).
Definition explanation_document (e : Explanation) : document :=
  [("primary_reason", VStr (primary_reason e)); ("supporting_factors", strings_value (supporting_factors e));
   ("conflicting_factors", strings_value (conflicting_factors e)); ("binding_constraints", strings_value (ex_binding e));
   ("objective_impact", breakdown_value (objective_impact e)); ("uncertainty", strings_value (uncertainty e)); ("provenance", texts_value (provenance e))].

(** [asdict(report)] *)
Definition report_document (r : SavingsReport) : document :=
  [("baseline_name", VStr (baseline_name_ r)); ("baseline_cost", VDec (baseline_cost r)); ("candidate_cost", VDec (candidate_cost r));
   ("savings", VDec (savings r)); ("savings_percent", VDec (savings_percent r)); ("assumptions", strings_value (rep_assumptions r));
   ("uncertainty", strings_value (rep_uncertainty r)); ("provenance", texts_value (rep_provenance r)); ("content_hash", VStr (content_hash_ r))].

(** A solver with the run time it reports; a request without a window for some job is answered without it, at run time 0. *)
Record solver_run := MkRun { run_solver : option (milp → answer); run_time : pyval }.
Definition reported_time (x : solver_run) (o : OptimizationResult) : pyval := if bool_decide (opt_solver o = "highs") then VInt 0 else run_time x.

Section runs.
Context {S A : Type} (api : store_api pyval S).
Context (fromisoformat : string → result datetime) (str_container : pyval → string) (tuple_text : list string → string).
Context (audit_digest : audit_source → string) (content_hash : ScheduleInput → string) (report_digest : list (string * string) → string).

#[local] Abbreviation state := (api_state S A).
#[local] Abbreviation parse_input := (parse_schedule_input fromisoformat str_container).
#[local] Abbreviation text := (py_str str_container).

(** [float(data.get("timeout_seconds", 10))] *)
Definition timeout_seconds (d : document) : result pyfloat := float_of_val (default (VInt 10) (od_get "timeout_seconds" d)).

Definition solve_request (x : solver_run) (d : document) (rq : ScheduleInput) : result OptimizationResult :=
  _ ← timeout_seconds d; highs_solve content_hash (run_solver x) rq.

Definition run_put (x : solver_run) (o : OptimizationResult) (b : ResourceRequest) : ResourceRequest :=
  MkResourceRequest (body_id b) (optimization_document (reported_time x o) o).
Definition explanation_put (rq : ScheduleInput) (o : OptimizationResult) (quality : dec) (b : ResourceRequest) (c : ApiContext) : put_request pyval :=
  MkPut "explanation" (body_id b) (ctx_tenant c)
    (list_to_map (explanation_document (explain_plan o (content_hash rq) (forecast_version rq) quality)))
    (default "None" (ctx_key c) +:+ ":explanation") None.

Definition create_optimization_run (now : Z) (x : solver_run) (b : ResourceRequest) (c : ApiContext) : M state rbody :=
  rq ← mlift (parse_input (VDict (body_data b)) (ctx_tenant c));
  o ← mlift (solve_request x (body_data b) rq);
  stored ← mutate api audit_digest now "optimization_run" (run_put x o b) c;
  quality ← mlift (PyText.py_decimal str_container (default (VInt 1) (od_get "forecast_quality" (body_data b))));
  on_store (api_put api now (explanation_put rq o quality b c));;
  mret stored.

Definition create_report (now : Z) (x : solver_run) (b : ResourceRequest) (c : ApiContext) : M state rbody :=
  rq ← mlift (v ← item "schedule" (body_data b); parse_input v (ctx_tenant c));
  baseline ← mlift (schedule_fifo content_hash rq);
  o ← mlift (highs_solve content_hash (run_solver x) rq);
  plan ← mlift (of_option (ValueError ("cannot report an infeasible plan: " +:+ tuple_text (opt_diagnostics o))) (opt_plan o));
  tariff ← mlift (item "tariff_version" (body_data b));
  unc ← mlift (py_iter (default (VList []) (od_get "uncertainty" (body_data b))));
  report ← mlift (build_savings_report report_digest baseline plan (text tariff) (body_id b) (map text unc));
  mutate api audit_digest now "report" (MkResourceRequest (body_id b) (report_document report)) c.

(** The worker's handler: a job that yields no plan fails *)
Definition optimization_handler (x : solver_run) (job : DurableJob) : result pyval :=
  p ← payload_of job;
  d ← item "schedule" p ≫= dict_of;
  rq ← parse_input (VDict d) (dj_tenant_id job);
  o ← solve_request x p rq;
  match opt_plan o with
  | None => Err (RuntimeError ("optimization did not produce a safe plan: " +:+ opt_status o +:+ " " +:+ tuple_text (opt_diagnostics o)))
  | Some _ => Ok (VDict (optimization_document (reported_time x o) o))
  end.

(** ** The requests of a history *)

Inductive run_request :=
| ReqOptimize (now : Z) (x : solver_run) (b : ResourceRequest) (c : ApiContext)
| ReqReport (now : Z) (x : solver_run) (b : ResourceRequest) (c : ApiContext)
| ReqWrite (now : Z) (q : put_request pyval).

Definition run_serve (q : run_request) (st : state) : state :=
  match q with
  | ReqOptimize now x b c => (create_optimization_run now x b c st).1
  | ReqReport now x b c => (create_report now x b c st).1
  | ReqWrite now q => if mem (put_kind q) ["optimization_run"; "report"] then st else (on_store (api_put api now q) st).1
  end.
Definition runs_served (a : A) (h : list run_request) : state := foldl (λ st q, run_serve q st) (MkState (api_init api) a [] ∅) h.

(** A result is sound for a request: on a request of the kind the solver is made for, its plan is feasible and validated. *)
Definition plan_backed (rq : ScheduleInput) (p : SchedulePlan) : Prop :=
  well_formed rq → priceable rq → ∃ choices, feasible rq choices ∧ allocations p = allocations_of rq choices ∧ validate_plan rq p = Ok tt.

Definition run_backed (t id : string) (r : StoredResource pyval) : Prop :=
  ∃ d rq x o key m, parse_input (VDict d) t = Ok rq ∧ highs_solve content_hash (run_solver x) rq = Ok o ∧
    body r = api_stored api (MkPut "optimization_run" id t (list_to_map (optimization_document (reported_time x o) o)) key m) ∧
    ∀ p, opt_plan o = Some p → plan_backed rq p.

Definition report_backed (t id : string) (r : StoredResource pyval) : Prop :=
  ∃ v rq x o p baseline tariff unc report key m, parse_input v t = Ok rq ∧ highs_solve content_hash (run_solver x) rq = Ok o ∧
    opt_plan o = Some p ∧ plan_backed rq p ∧ schedule_fifo content_hash rq = Ok baseline ∧
    build_savings_report report_digest baseline p tariff id unc = Ok report ∧
    body r = api_stored api (MkPut "report" id t (list_to_map (report_document report)) key m).
End runs.

Section served.
Context {S A : Type} (api : store_api pyval S) (inv : S → Prop) `{!StoreLaws api inv}.
Context (fromisoformat : string → result datetime) (str_container : pyval → string) (tuple_text : list string → string).
Context (audit_digest : audit_source → string) (content_hash : ScheduleInput → string) (report_digest : list (string * string) → string).

#[local] Abbreviation state := (api_state S A).
#[local] Abbreviation run_ok := (run_backed api fromisoformat str_container content_hash).
#[local] Abbreviation report_ok := (report_backed api fromisoformat str_container content_hash report_digest).

Record runs_ok (s : S) : Prop := {
  ro_inv : inv s;
  ro_runs : ∀ t id r, r ∈ api_history api (t, "optimization_run", id) s → run_ok t id r;
  ro_reports : ∀ t id r, r ∈ api_history api (t, "report", id) s → report_ok t id r
}.

(** What a write may store *)
Definition write_ok (q : put_request pyval) : Prop := ∀ r, body r = api_stored api q →
  (put_kind q = "optimization_run" → run_ok (put_tenant q) (put_id q) r) ∧ (put_kind q = "report" → report_ok (put_tenant q) (put_id q) r).

Lemma put_runs now q s : runs_ok s → write_ok q → runs_ok (api_put api now q s).1.
Proof using StoreLaws0.
  intros [Hi Hr Hp] Hq. destruct (put_cases api inv now q s Hi) as [Hi' [H|[x H]]].
  - split; [done|intros t id r; rewrite H; apply Hr|intros t id r; rewrite H; apply Hp].
  - destruct (Hq x (ap_body _ _ _ _ _ H)) as [Hrun Hrep]. unfold put_target in *.
    split; [done|intros t id r|intros t id r]; rewrite (ap_history _ _ _ _ _ H), elem_of_app; (intros [Hin|Hin]; [by eauto|]); unfold put_target in Hin;
      (case_decide as Hk; [|by apply elem_of_nil in Hin]); apply list_elem_of_singleton in Hin as ->; injection Hk as -> Hkd ->; [by apply Hrun|by apply Hrep].
Qed.

Lemma on_store_runs now q (st : state) : runs_ok (st_store st) → write_ok q → runs_ok (st_store (on_store (api_put api now q) st).1).
Proof using StoreLaws0. intros Hs Hq. pose proof (put_runs now q (st_store st) Hs Hq) as H. unfold on_store. destruct (api_put _ _ _ _) as [s' x]. exact H. Qed.

Lemma mutate_runs now kd b c (st : state) : runs_ok (st_store st) → write_ok (mutate_put kd b c) →
  runs_ok (st_store (mutate api audit_digest now kd b c st).1).
Proof using StoreLaws0.
  intros Hs Hq. apply mutate_store; [done|by apply put_runs].
Qed.

Lemma plan_backed_ok solver rq o p : highs_solve content_hash solver rq = Ok o → opt_plan o = Some p → plan_backed rq p.
Proof using. intros Hs Hp Hwf Hpr. by eapply highs_plan_feasible. Qed.

Lemma optimize_step now x b c (st : state) : runs_ok (st_store st) →
  runs_ok (st_store (create_optimization_run api fromisoformat str_container audit_digest content_hash now x b c st).1).
Proof using StoreLaws0.
  intros Hs. unfold create_optimization_run, mbind, M_bind, mlift. destruct (parse_schedule_input _ _ _ _) as [rq|] eqn:Ep; [|done].
  destruct (solve_request _ _ _ _) as [o|] eqn:Eo; [|done]. apply bind_ok in Eo as (? & _ & Eo).
  assert (runs_ok (st_store (mutate api audit_digest now "optimization_run" (run_put x o b) c st).1)) as Hm.
  { apply mutate_runs; [done|]. intros r Hb. split; [|done]. intros _. exists (body_data b), rq, x, o. eexists _, _. split_and!; [exact Ep|exact Eo|exact Hb|].
    intros p. by eapply plan_backed_ok. }
  destruct (mutate _ _ _ _ _ _ _) as [st1 [v|]]; [|exact Hm]. destruct (PyText.py_decimal _ _) as [q|]; [|exact Hm].
  pose proof (on_store_runs now (explanation_put content_hash rq o q b c) st1 Hm) as H. destruct (on_store _ st1) as [st2 [y|]]; apply H; intros r _; by split.
Qed.

Lemma report_step now x b c (st : state) : runs_ok (st_store st) →
  runs_ok (st_store (create_report api fromisoformat str_container tuple_text audit_digest content_hash report_digest now x b c st).1).
Proof using StoreLaws0.
  intros Hs. unfold create_report, mbind, M_bind, mlift.
  destruct (item "schedule" (body_data b)) as [v|]; [|done]. cbn [result_bind]. destruct (parse_schedule_input _ _ _ _) as [rq|] eqn:Ep; [|done].
  destruct (schedule_fifo _ _) as [baseline|] eqn:Eb; [|done]. destruct (highs_solve _ _ _) as [o|] eqn:Eo; [|done].
  destruct (opt_plan o) as [p|] eqn:Epl; [|done]. cbn [of_option]. destruct (item "tariff_version" _) as [tariff|]; [|done].
  destruct (py_iter _) as [unc|]; [|done]. destruct (build_savings_report _ _ _ _ _ _) as [report|] eqn:Er; [|done].
  apply mutate_runs; [done|]. intros r Hb. split; [done|]. intros _. exists v, rq, x, o, p, baseline. eexists _, _, report, _, _.
  split_and!; [exact Ep|exact Eo|exact Epl|by eapply plan_backed_ok|exact Eb|exact Er|exact Hb].
Qed.

Lemma served_runs (a : A) h : runs_ok (st_store (runs_served api fromisoformat str_container tuple_text audit_digest content_hash report_digest a h)).
Proof using StoreLaws0.
  induction h as [|q h IH] using rev_ind.
  - split; cbn; [apply sl_init| |]; intros t id r; rewrite sl_empty; by intros ?%elem_of_nil.
  - unfold runs_served. rewrite foldl_snoc. fold (runs_served api fromisoformat str_container tuple_text audit_digest content_hash report_digest a h).
    destruct q as [now x b c|now x b c|now q]; [by apply optimize_step|by apply report_step|]. cbn [run_serve].
    destruct (mem _ _) eqn:Em; [done|]. apply mem_false in Em. apply on_store_runs; [done|]. intros r _. split; intros Hk; destruct Em; rewrite Hk; [left|right; left].
Qed.
End served.

(** C34: What is stored as an optimization run is backed.  In any store that keeps its promises, after any history of
    optimization and report requests, with any solvers, and of writes of other kinds, every version of an optimization run
    is the document of what its solver made of a schedule request of that tenant, and every version of a report compares
    the FIFO plan of such a request with the plan of a solver; and a plan of either is a feasible assignment of the request
    that passes [validate_plan], if the request is well formed and its prices are not negative. *)
Theorem stored_runs_backed {S A : Type} (api : store_api pyval S) (inv : S → Prop) (Hlaws : StoreLaws api inv)
    (fromisoformat : string → result datetime) (str_container : pyval → string) (tuple_text : list string → string)
    (audit_digest : audit_source → string) (content_hash : ScheduleInput → string) (report_digest : list (string * string) → string)
    (a : A) (h : list run_request) (t id : string) (r : StoredResource pyval) :
  let s := st_store (runs_served api fromisoformat str_container tuple_text audit_digest content_hash report_digest a h) in
  (r ∈ api_history api (t, "optimization_run", id) s → run_backed api fromisoformat str_container content_hash t id r) ∧
  (r ∈ api_history api (t, "report", id) s → report_backed api fromisoformat str_container content_hash report_digest t id r).
Proof.
  intros s. destruct (served_runs api inv fromisoformat str_container tuple_text audit_digest content_hash report_digest a h) as [_ Hr Hp].
  split; [apply Hr|apply Hp].
Qed.

(** The worker's result is that of a validated plan for a schedule of the job's tenant. *)
Theorem optimization_job_backed fromisoformat str_container tuple_text content_hash x job v :
  optimization_handler fromisoformat str_container tuple_text content_hash x job = Ok v →
  ∃ d rq o p, parse_schedule_input fromisoformat str_container (VDict d) (dj_tenant_id job) = Ok rq ∧ opt_plan o = Some p ∧ plan_backed rq p ∧
    v = VDict (optimization_document (reported_time x o) o).
Proof.
  intros H. unfold optimization_handler in H. apply bind_ok in H as (p & _ & H). apply bind_ok in H as (d & _ & H). apply bind_ok in H as (rq & Hrq & H).
  apply bind_ok in H as (o & Ho & H). apply bind_ok in Ho as (? & _ & Ho). destruct (opt_plan o) as [q|] eqn:Eq; [|done]. injection H as <-.
  exists d, rq, o, q. split_and!; [done|done|by eapply plan_backed_ok|done].
Qed.

(** ** Sample runs over the in-process store *)

(** The digest of a request sees its run time, as that of the JSON text does. *)
Definition toy_request_digest (kd id : string) (b : gmap string pyval) : string :=
  kd +:+ id +:+ match b !! "runtime_seconds" with Some (VFloat _ t) => t | _ => "" end.
Definition toy_runs : store_api pyval (mem_store pyval) := mem_api VStr toy_request_digest (λ _ _ v _, int_str v).
Definition toy_time (t : string) : pyval := VFloat (Dec 5 (-1)) t.
Definition toy_create_run (time key : string) (m : option string) (st : api_state (mem_store pyval) unit) :=
  create_optimization_run toy_runs aware_clock (λ _, "") (λ _, "hash") (λ _, "h") 1 (MkRun (Some exhaustive) (toy_time time)) sample_body
    (MkContext "ten_acme" "ann" {["operator"]} "corr" (Some key) m) st.
Definition toy_history (kd : string) (st : api_state (mem_store pyval) unit) : list (option pyval) :=
  map (λ r, body r !! "runtime_seconds") (api_history toy_runs ("ten_acme", kd, "run") (st_store st)).
Definition sample_runs : list run_request := [ReqOptimize 1 (MkRun (Some exhaustive) (toy_time "0.5")) sample_body sample_caller].

Lemma stored_runs_backed_witness : ∃ r,
  api_history toy_runs ("ten_acme", "optimization_run", "run")
    (st_store (runs_served toy_runs aware_clock (λ _, "") (λ _, "") (λ _, "hash") (λ _, "h") (λ _, "") tt sample_runs)) = [r] ∧
  body r !! "status" = Some (VStr "optimal") ∧ run_backed toy_runs aware_clock (λ _, "") (λ _, "h") "ten_acme" "run" r.
Proof.
  destruct (api_history toy_runs ("ten_acme", "optimization_run", "run")
    (st_store (runs_served toy_runs aware_clock (λ _, "") (λ _, "") (λ _, "hash") (λ _, "h") (λ _, "") tt sample_runs))) as [|r [|? ?]] eqn:E;
    [vm_compute in E; discriminate| |vm_compute in E; discriminate].
  exists r. split; [reflexivity|]. split; [vm_compute in E; injection E as <-; vm_compute; reflexivity|].
  apply (proj1 (stored_runs_backed toy_runs mem_inv _ aware_clock (λ _, "") (λ _, "") (λ _, "hash") (λ _, "h") (λ _, "") tt sample_runs "ten_acme" "run" r)).
  rewrite E. left.
Defined.

Definition toy_empty : api_state (mem_store pyval) unit := MkState (api_init toy_runs) tt [] ∅.

(** The run time is part of what is stored, so that the same request under the same key, solved again, is another
    request to the store: a client that retries gets a conflict. *)
Example retried_run_conflicts :
  let st := (toy_create_run "0.5" "k1" None toy_empty).1 in
  is_ok (toy_create_run "0.5" "k1" None toy_empty).2 = true ∧
  (toy_create_run "0.6" "k1" None st).2 = Err (ValueError "idempotency key reused with different request").
Proof. split; vm_compute; reflexivity. Qed.

(** The explanation is written without If-Match: a second run of an id, under a new key and the right If-Match, is
    stored, but its explanation is not, and the request fails. *)
Example second_run_unexplained :
  let st := (toy_create_run "0.5" "k1" None toy_empty).1 in
  let '(st', r) := toy_create_run "0.6" "k2" (Some "1") st in
  r = Err (RuntimeError "If-Match optimistic concurrency conflict") ∧
  toy_history "optimization_run" st' = [Some (toy_time "0.5"); Some (toy_time "0.6")] ∧ length (toy_history "explanation" st') = 1%nat.
Proof. vm_compute. split_and!; reflexivity. Qed.
