(* ===== verification/Artifacts.v ===== *)
(** * Artifacts: [packages/objectstore/s3.py] and the artifact routes of [apps/api/main.py]

    [S3ObjectStore]: object keys under a prefix of the tenant, uploads and verified downloads; [put_artifact] uploads
    and records the digest as a resource, [get_artifact] reads it back.  The S3 service is the interface [bucket_api]
    with the laws of a consistent store ([BucketLaws]); contents are byte strings and their SHA-256 the parameter [sha].
    The process state holds the resource store and the bucket side by side.  TLS, credentials and health are left out. *)
From S2P Require Import Prelude PyValue PyText Settings Domain Access Certification Lifecycle Evidence Connectors.
From S2P Require Import Approval AuditLog Versions Store PlanDocument Operations Api.
Local Open Scope Z_scope.

(** ** s3.py *)

Record ObjectInfo := MkObjectInfo {
  oi_bucket : string; oi_key : string; oi_etag : string; oi_version_id : option string; oi_sha256 : string; oi_size : Z
}.

(** [s.strip("/")] *)
Fixpoint drop_slashes (l : list Ascii.ascii) : list Ascii.ascii :=
  match l with c :: l' => if ord c =? 47 then drop_slashes l' else l | [] => [] end.
Definition strip_slashes (s : string) : string := rstrip_slash (String.string_of_list_ascii (drop_slashes (String.list_ascii_of_string s))).

(** [S3ObjectStore._key]; the pattern of a tenant id is that of a release id *)
Definition object_key (tenant_id key : string) : result string :=
  raise_if (negb (release_id_ok tenant_id)) (ValueError "invalid tenant ID for object key");;
  let normalized := strip_slashes key in
  raise_if (bool_decide (normalized = "") || mem ".." (split_on 47 normalized)) (ValueError "invalid object key");;
  Ok ("tenants/" +:+ tenant_id +:+ "/" +:+ normalized).

(** [S3ObjectStore.__init__]; a URL as its scheme and network location *)
Definition object_store_init (urlparse : string → string * string) (bucket_url endpoint : string) : result (string * bool) :=
  let '(bucket_scheme, bucket) := urlparse bucket_url in
  let '(scheme, netloc) := urlparse endpoint in
  raise_if (negb (bool_decide (bucket_scheme = "s3")) || bool_decide (bucket = "")) (ValueError "object store bucket must use s3://bucket");;
  raise_if (negb (mem scheme ["http"; "https"]) || bool_decide (netloc = "")) (ValueError "object store endpoint must be an HTTP(S) URL");;
  Ok (bucket, bool_decide (scheme = "https")).

(** The service: an upload gives an etag and perhaps a version, a download the content *)
Record bucket_api (B : Type) := MkBucket {
  bk_put : string → string → M B (string * option string);
  bk_get : string → B → result string
}.
Arguments bk_put {B} _ _ _ _.
Arguments bk_get {B} _ _ _.

(** An upload, failed or not, changes no other object, and what was uploaded is what is downloaded. *)
Class BucketLaws {B} (bucket : bucket_api B) : Prop := {
  bl_other : ∀ k k' c b, k' ≠ k → bk_get bucket k' (bk_put bucket k c b).1 = bk_get bucket k' b;
  bl_put : ∀ k c b b' x, bk_put bucket k c b = (b', Ok x) → bk_get bucket k b' = Ok c
}.

Section objects.
Context {B : Type} (bucket : bucket_api B) (bucket_name : string) (sha : string → string).

Definition object_put (tenant_id key content : string) : M B ObjectInfo :=
  mguard (bool_decide (content = "")) (ValueError "empty objects are not accepted");;
  full_key ← mlift (object_key tenant_id key);
  x ← bk_put bucket full_key content;
  mguard (bool_decide (x.1 = "")) (RuntimeError "object store returned no ETag");;
  mret (MkObjectInfo bucket_name full_key x.1 x.2 (sha content) (Z.of_nat (String.length content))).

Definition object_get (tenant_id key expected_sha256 : string) (b : B) : result string :=
  full_key ← object_key tenant_id key;
  content ← bk_get bucket full_key b;
  raise_if (negb (bool_decide (sha content = expected_sha256))) (RuntimeError "object digest verification failed");;
  Ok content.
End objects.

(** ** The resource store beside the bucket *)

Definition beside {S : Type} (B : Type) (api : store_api pyval S) (b0 : B) : store_api pyval (S * B) :=
  MkApi pyval (S * B) (api_init api, b0) (λ now q sb, let '(s', r) := api_put api now q sb.1 in ((s', sb.2), r))
    (λ k sb, api_get api k sb.1) (λ k v sb, api_get_version api k v sb.1) (λ k sb, api_history api k sb.1) (api_stored api) (api_tag api).

#[global] Instance beside_laws {S B : Type} (api : store_api pyval S) (inv : S → Prop) (b0 : B) `{!StoreLaws api inv} :
  StoreLaws (beside B api b0) (λ sb, inv sb.1).
Proof.
  split; cbn.
  - apply sl_init.
  - apply sl_empty.
  - intros [s b] k Hi. destruct (sl_reads s k Hi) as [H1 H2 H3 H4]. by split.
  - intros now q [s b] Hi. pose proof (sl_put now q s Hi) as H. cbn in *. destruct (api_put api now q s) as [s' [r|e]]; cbn; [|done].
    destruct H as [Hi' [H|[H1 H2 H3 H4 H5]]]; (split; [done|]); [by left|right]. by split.
Qed.

(** ** The routes *)

Record artifact := MkArtifact { ar_content : string; ar_media_type : string; ar_etag : string; ar_sha256 : string }.

Section routes.
Context {S B A : Type} (api : store_api pyval S) (b0 : B) (configured : bool) (bucket : bucket_api B) (bucket_name : string) (sha : string → string).
Context (str_container : pyval → string) (audit_digest : audit_source → string) (intent_digest : pyval → string).

#[local] Abbreviation state := (api_state (S * B) A).
#[local] Abbreviation pair_api := (beside B api b0).
#[local] Abbreviation text := (py_str str_container).

Definition on_bucket {X} (m : M B X) : M state X := on_store (λ sb, let '(b', r) := m sb.2 in ((sb.1, b'), r)).

Definition artifact_data (info : ObjectInfo) (content_type : string) : document :=
  [("bucket", VStr (oi_bucket info)); ("key", VStr (oi_key info)); ("etag", VStr (oi_etag info));
   ("version_id", match oi_version_id info with Some v => VStr v | None => VNone end); ("sha256", VStr (oi_sha256 info));
   ("size", VInt (oi_size info)); ("content_type", VStr content_type)].

Definition persist (now : Z) (key content content_type : string) (c : ApiContext) : M state response :=
  info ← on_bucket (object_put bucket bucket_name sha (ctx_tenant c) key content);
  d ← mutate pair_api audit_digest now "artifact" (MkResourceRequest key (artifact_data info content_type)) c;
  mret (RResource d).

Definition put_artifact (now : Z) (key content content_type : string) (c : ApiContext) : M state response :=
  mguard (negb configured) (RuntimeError "object storage is not configured");;
  audited_operation audit_digest intent_digest now c "artifact.put" key
    (VDict [("sha256", VStr (sha content)); ("content_type", VStr content_type)]) (persist now key content content_type c).

Definition metadata_item (k : string) (b : rbody) : result pyval := of_option (KeyError k) (b !! k).

Definition get_artifact (key : string) (c : ApiContext) (st : state) : result artifact :=
  raise_if (negb configured) (RuntimeError "object storage is not configured");;
  r ← api_get pair_api (ctx_tenant c, "artifact", key) (st_store st);
  digest ← metadata_item "sha256" (body r);
  content ← object_get bucket sha (ctx_tenant c) key (text digest) (st_store st).2;
  media ← metadata_item "content_type" (body r);
  tag ← metadata_item "etag" (body r);
  Ok (MkArtifact content (text media) (text tag) (text digest)).
End routes.

(** ** Keys *)

Lemma split_at_slash (a a' b b' : list Ascii.ascii) : Forall (λ c, ord c ≠ 47) a → Forall (λ c, ord c ≠ 47) a' →
  a ++ chr 47 :: b = a' ++ chr 47 :: b' → a = a' ∧ b = b'.
Proof.
  intros Ha. revert a'. induction Ha as [|c a Hc _ IH]; intros a' Ha' H; destruct Ha' as [|c' a' Hc' Ha'].
  - by injection H.
  - injection H as <- _. by destruct Hc'.
  - injection H as -> _. by destruct Hc.
  - injection H as -> H. destruct (IH a' Ha' H) as [-> ->]. done.
Qed.

Lemma tenant_no_slash t : release_id_ok t = true → Forall (λ c, ord c ≠ 47) (String.list_ascii_of_string t).
Proof.
  unfold release_id_ok. destruct (String.list_ascii_of_string t) as [|c l]; [done|]. intros [[Hc Hl]%andb_true_iff _]%andb_true_iff.
  assert (∀ c, is_release_char c = true → ord c ≠ 47) as Hs.
  { intros x Hx E. unfold is_release_char, is_alnum, is_lower, is_digit in Hx. rewrite E in Hx. by vm_compute in Hx. }
  constructor; [apply Hs; unfold is_release_char; by rewrite Hc|]. apply forallb_true_iff in Hl. eapply Forall_impl; [exact Hl|]. exact Hs.
Qed.

Lemma object_key_ok t k p : object_key t k = Ok p →
  release_id_ok t = true ∧ (".." ∉ split_on 47 (strip_slashes k)) ∧ p = "tenants/" +:+ t +:+ "/" +:+ strip_slashes k.
Proof.
  unfold object_key. intros H. apply bind_ok in H as ([] & H1%guard_last & H). apply bind_ok in H as ([] & H2%guard_last & H). injection H as <-.
  apply negb_false_iff in H1. apply orb_false_iff in H2 as [_ H2]. apply mem_false in H2. done.
Qed.

(** No two tenants share an object. *)
Lemma object_key_inj t t' k k' p : object_key t k = Ok p → object_key t' k' = Ok p → t = t' ∧ strip_slashes k = strip_slashes k'.
Proof.
  intros (Ht & _ & ->)%object_key_ok (Ht' & _ & He)%object_key_ok. apply (f_equal String.list_ascii_of_string) in He.
  rewrite !chars_app in He. apply app_inv_head in He.
  destruct (split_at_slash _ _ _ _ (tenant_no_slash t Ht) (tenant_no_slash t' Ht') He) as [H1 H2].
  split; [rewrite <- (String.string_of_list_ascii_of_string t), H1|rewrite <- (String.string_of_list_ascii_of_string (strip_slashes k)), H2]; apply String.string_of_list_ascii_of_string.
Qed.

(** ** What is stored stays *)

Record artifact_request := MkPutArtifact { pa_now : Z; pa_key : string; pa_content : string; pa_type : string; pa_ctx : ApiContext }.

Section kept.
Context {S B A : Type} (api : store_api pyval S) (inv : S → Prop) `{!StoreLaws api inv} (b0 : B) (bucket : bucket_api B) `{!BucketLaws bucket}.
Context (bucket_name : string) (sha : string → string) (str_container : pyval → string) (audit_digest : audit_source → string) (intent_digest : pyval → string).
Context (tr : pyval → pyval) (Htr : transport tr).
Context (Hstored : ∀ q, api_stored api q = <["id" := VStr (put_id q)]> (tr <$> put_body q)).

#[local] Abbreviation state := (api_state (S * B) A).
#[local] Abbreviation pair_api := (beside B api b0).
#[local] Abbreviation upload := (put_artifact (A := A) api b0 true bucket bucket_name sha audit_digest intent_digest).

Definition artifact_serve (st : state) (q : artifact_request) : state :=
  (upload (pa_now q) (pa_key q) (pa_content q) (pa_type q) (pa_ctx q) st).1.
Definition artifacts_served (st : state) (h : list artifact_request) : state := foldl artifact_serve st h.

(** The artifact at [key] of tenant [t]: its latest record and its object [p] *)
Record holds (t key p content : string) (r : StoredResource pyval) (sb : S * B) : Prop := {
  ho_inv : inv sb.1;
  ho_record : last (api_history api (t, "artifact", key) sb.1) = Some r;
  ho_object : bk_get bucket p sb.2 = Ok content
}.

Lemma put_keeps t key p content r now q s b : holds t key p content r (s, b) → put_target q ≠ (t, "artifact", key) →
  holds t key p content r (api_put pair_api now q (s, b)).1.
Proof using StoreLaws0.
  intros [Hi Hr Ho] Hne. cbn in *. pose proof (put_cases api inv now q s Hi) as Hc. destruct (api_put api now q s) as [s' x]. cbn in *.
  destruct Hc as [Hi' Hc]. split; [done| |done]. cbn. destruct Hc as [H|[y H]]; [by rewrite H|]. rewrite (ap_history _ _ _ _ _ H), decide_False by done.
  by rewrite app_nil_r.
Qed.

Lemma upload_keeps t key p content r now key' content' ct c (st : state) : object_key t key = Ok p → object_key (ctx_tenant c) key' ≠ Ok p →
  holds t key p content r (st_store st) → holds t key p content r (st_store (upload now key' content' ct c st).1).
Proof using StoreLaws0 BucketLaws0.
  intros Hk Hne Hh. unfold put_artifact. cbn [negb]. unfold mbind at 1, M_bind at 1, mguard at 1, raise_if at 1. apply audited_store; [done|].
  unfold persist, on_bucket, object_put. unfold mbind at 1, M_bind at 1. unfold on_store at 1. unfold mbind, M_bind, mguard, mlift, mret, M_ret.
  destruct st as [[s b] a au ops]. cbn in *. destruct (bool_decide (content' = "")); [done|].
  destruct (object_key (ctx_tenant c) key') as [p'|] eqn:Ek; [|done].
  assert (holds t key p content r (s, (bk_put bucket p' content' b).1)) as Hb.
  { destruct Hh as [Hi Hr Ho]. split; [done|done|]. cbn in *. rewrite bl_other; [done|]. intros ->. by apply Hne. }
  destruct (bk_put bucket p' content' b) as [b' [x|e]]; [|done]. destruct (bool_decide (x.1 = "")); [done|]. cbn in *.
  set (st1 := MkState (s, b') a au ops). assert (holds t key p content r (st_store (mutate pair_api audit_digest now "artifact"
    (MkResourceRequest key' (artifact_data (MkObjectInfo bucket_name p' x.1 x.2 (sha content') (Z.of_nat (String.length content'))) ct)) c st1).1)) as Hm.
  { apply mutate_store; [done|]. apply put_keeps; [done|]. intros He. injection He as H1 H2. apply Hne. rewrite <- Ek, H1, H2. exact Hk. }
  destruct (mutate _ _ _ _ _ _ st1) as [st2 [d|e]]; exact Hm.
Qed.

Definition recorded_body (key ct : string) (info : ObjectInfo) : rbody :=
  <["id" := VStr key]> (tr <$> list_to_map (artifact_data info ct)).

Lemma upload_holds now key content ct c (st st' : state) v : inv (st_store st).1 → upload now key content ct c st = (st', Ok v) →
  api_history api (ctx_tenant c, "artifact", key) (st_store st').1 ≠ api_history api (ctx_tenant c, "artifact", key) (st_store st).1 →
  ∃ p r etag_ vid, object_key (ctx_tenant c) key = Ok p ∧ holds (ctx_tenant c) key p content r (st_store st') ∧
    body r = recorded_body key ct (MkObjectInfo bucket_name p etag_ vid (sha content) (Z.of_nat (String.length content))).
Proof using StoreLaws0 BucketLaws0 Hstored.
  intros Hi H Hnew. unfold put_artifact in H. cbn [negb] in H. unfold mbind at 1, M_bind at 1, mguard at 1, raise_if at 1 in H.
  apply audited_run in H as (_ & [->|(st1 & Hcb & Hst & _)]); [done|]. rewrite Hst in *. clear Hst st'.
  unfold persist, on_bucket, object_put in Hcb. unfold mbind at 1, M_bind at 1 in Hcb. unfold on_store at 1 in Hcb. unfold mbind, M_bind, mguard, mlift, mret, M_ret in Hcb.
  destruct st as [[s b] a au ops]. cbn in Hcb, Hi, Hnew. destruct (bool_decide (content = "")); [done|].
  destruct (object_key (ctx_tenant c) key) as [p|] eqn:Ek; [|done]. destruct (bk_put bucket p content b) as [b' [x|e]] eqn:Eb; [|done].
  destruct (bool_decide (x.1 = "")); [done|]. cbn in Hcb. set (info := MkObjectInfo _ _ _ _ _ _) in Hcb. exists p.
  unfold mutate, mbind, M_bind, mlift in Hcb. destruct (reject_inline_secrets _ _) as [[]|]; [|done]. unfold on_store in Hcb. cbn in Hcb.
  set (q := mutate_put _ _ _) in Hcb. pose proof (sl_put now q s Hi) as Hp. destruct (api_put api now q s) as [s' [r|e]]; [|done].
  destruct Hp as [Hi' Hp]. cbn in Hcb. assert (st_store st1 = (s', b')) as Hs1.
  { unfold audit_success, AuditLog.mem_append in Hcb. cbn in Hcb. by injection Hcb as <- _. }
  rewrite Hs1 in *. cbn in Hnew. destruct Hp as [Hsame|Hap]; [by destruct Hnew; apply Hsame|].
  exists r, x.1, x.2. split_and!; [done| |].
  - split; [done| |by eapply bl_put]. cbn. rewrite (ap_history _ _ _ _ _ Hap), decide_True by done. by rewrite last_snoc.
  - rewrite (ap_body _ _ _ _ _ Hap), Hstored. done.
Qed.

Lemma holds_read t key p content r ct info (st : state) (c : ApiContext) : object_key t key = Ok p → holds t key p content r (st_store st) →
  body r = recorded_body key ct info → oi_sha256 info = sha content → ctx_tenant c = t →
  get_artifact (A := A) api b0 true bucket sha str_container key c st = Ok (MkArtifact content ct (oi_etag info) (sha content)).
Proof using StoreLaws0 Htr.
  intros Hk [Hi Hr Ho] Hb Hsha <-. unfold get_artifact. cbn [negb raise_if mbind result_bind].
  destruct (sl_reads (st_store st).1 (ctx_tenant c, "artifact", key) Hi) as [_ _ Hget _]. cbn. rewrite Hget, Hr. cbn.
  assert (∀ k x, k ≠ "id" → (list_to_map (artifact_data info ct) : rbody) !! k = Some (VStr x) → metadata_item k (body r) = Ok (VStr x)) as Hm.
  { intros k x Hne Hx. unfold metadata_item. rewrite Hb. unfold recorded_body. rewrite lookup_insert_ne, lookup_fmap, Hx by done. cbn. by rewrite (transport_str tr _ Htr). }
  rewrite (Hm "sha256" (oi_sha256 info)), (Hm "content_type" ct), (Hm "etag" (oi_etag info)) by done. cbn. unfold object_get. rewrite Hk. cbn. rewrite Ho. cbn.
  rewrite Hsha, bool_decide_true by done. done.
Qed.

Lemma served_keeps t key p content r h : object_key t key = Ok p → Forall (λ q, object_key (ctx_tenant (pa_ctx q)) (pa_key q) ≠ Ok p) h →
  ∀ st : state, holds t key p content r (st_store st) → holds t key p content r (st_store (artifacts_served st h)).
Proof using StoreLaws0 BucketLaws0.
  intros Hk Hh. induction Hh as [|q h Hq _ IH]; intros st Hst; [done|]. apply IH. by apply upload_keeps.
Qed.
End kept.

(** C21: An artifact that was stored is what is read.  With a resource store and an S3 service that keep their promises:
    once an upload has succeeded and recorded a new version, the tenant reads back exactly its content, media type and
    digest, after any history of uploads by anyone, successful or not, to other object keys; and the object keys of two
    tenants are never the same, nor are those of two keys of a tenant unless they differ in outer slashes only. *)
Theorem artifacts_kept {S B A : Type} (api : store_api pyval S) (inv : S → Prop) (Hlaws : StoreLaws api inv) (b0 : B)
    (bucket : bucket_api B) (Hbucket : BucketLaws bucket) (bucket_name : string) (sha : string → string) (str_container : pyval → string)
    (audit_digest : audit_source → string) (intent_digest : pyval → string) (tr : pyval → pyval) (Htr : transport tr)
    (Hstored : ∀ q, api_stored api q = <["id" := VStr (put_id q)]> (tr <$> put_body q))
    (now : Z) (key content ct : string) (c : ApiContext) (st st' : api_state (S * B) A) (v : response) (h : list artifact_request) :
  inv (st_store st).1 →
  put_artifact api b0 true bucket bucket_name sha audit_digest intent_digest now key content ct c st = (st', Ok v) →
  api_history api (ctx_tenant c, "artifact", key) (st_store st').1 ≠ api_history api (ctx_tenant c, "artifact", key) (st_store st).1 →
  Forall (λ q, object_key (ctx_tenant (pa_ctx q)) (pa_key q) ≠ object_key (ctx_tenant c) key) h →
  (∀ c', ctx_tenant c' = ctx_tenant c → ∃ tag,
     get_artifact api b0 true bucket sha str_container key c' (artifacts_served api b0 bucket bucket_name sha audit_digest intent_digest st' h) =
       Ok (MkArtifact content ct tag (sha content))) ∧
  ∀ t' key', object_key t' key' = object_key (ctx_tenant c) key → t' = ctx_tenant c ∧ strip_slashes key' = strip_slashes key.
Proof.
  intros Hi Hput Hnew Hh. destruct (upload_holds api inv b0 bucket bucket_name sha audit_digest intent_digest tr Hstored now key content ct c st st' v Hi Hput Hnew)
    as (p & r & tag & vid & Hk & Hhold & Hb). rewrite Hk in *. split.
  - intros c' Hc. exists tag. refine (holds_read api inv b0 bucket sha str_container tr Htr _ key p content r ct _ _ c' Hk _ Hb eq_refl Hc).
    by apply served_keeps.
  - intros t' key' Hk'. by apply (object_key_inj t' _ key' key p).
Qed.

(** ** A sample bucket *)

Definition map_bucket : bucket_api (gmap string string) :=
  MkBucket (gmap string string) (λ k c b, (<[k := c]> b, Ok ("etag-" +:+ k, None))) (λ k b, of_option (KeyError k) (b !! k)).
#[global] Instance map_bucket_laws : BucketLaws map_bucket.
Proof.
  split; cbn.
  - intros k k' c b Hne. by rewrite lookup_insert_ne.
  - intros k c b b' x [= <- _]. by rewrite lookup_insert_eq.
Qed.

Definition toy_resources : store_api pyval (mem_store pyval) :=
  mem_api VStr (λ k i b, k +:+ i +:+ match b !! "sha256" with Some (VStr t) => t | _ => "" end) (λ _ _ v _, int_str v).
Definition toy_upload (key content : string) (tenant request_key : string) (m : option string) (st : api_state (mem_store pyval * gmap string string) unit) :=
  put_artifact toy_resources ∅ true map_bucket "bkt" (λ s, "sha:" +:+ s) (λ _, "hash") (λ _, "digest") 1 key content "text/plain"
    (MkContext tenant "ann" {["operator"]} "corr" (Some request_key) m) st.
Definition toy_download (key tenant : string) (st : api_state (mem_store pyval * gmap string string) unit) : result artifact :=
  get_artifact toy_resources ∅ true map_bucket (λ s, "sha:" +:+ s) (λ _, "") key (MkContext tenant "ann" {["operator"]} "corr" None None) st.
Definition toy_bucket_state : api_state (mem_store pyval * gmap string string) unit := MkState (api_init toy_resources, ∅) tt [] ∅.

Lemma toy_resources_stored q : api_stored toy_resources q = <["id" := VStr (put_id q)]> (id <$> put_body q).
Proof. cbn. unfold normalized. by rewrite map_fmap_id. Qed.

Lemma artifacts_kept_witness :
  let st1 := (toy_upload "models/a.bin" "weights" "acme" "upload-1" None toy_bucket_state).1 in
  let h := [MkPutArtifact 2 "models/a.bin" "other" "text/plain" (MkContext "rival" "eve" {["operator"]} "corr" (Some "upload-2") None)] in
  ∃ tag, get_artifact toy_resources ∅ true map_bucket (λ s, "sha:" +:+ s) (λ _, "") "models/a.bin" (MkContext "acme" "bob" ∅ "corr" None None)
    (artifacts_served toy_resources ∅ map_bucket "bkt" (λ s, "sha:" +:+ s) (λ _, "hash") (λ _, "digest") st1 h)
    = Ok (MkArtifact "weights" "text/plain" tag "sha:weights").
Proof.
  intros st1 h. destruct (toy_upload "models/a.bin" "weights" "acme" "upload-1" None toy_bucket_state) as [st' [v|e]] eqn:E;
    [|vm_compute in E; discriminate E].
  refine (proj1 (artifacts_kept toy_resources mem_inv _ ∅ map_bucket _ "bkt" (λ s, "sha:" +:+ s) (λ _, "") (λ _, "hash") (λ _, "digest") id direct
    toy_resources_stored 1 "models/a.bin" "weights" "text/plain" (MkContext "acme" "ann" {["operator"]} "corr" (Some "upload-1") None) toy_bucket_state st' v h
    _ E _ _) (MkContext "acme" "bob" ∅ "corr" None None) eq_refl).
  - apply (sl_init (api := toy_resources)).
  - vm_compute in E. injection E as <- _. vm_compute. discriminate.
  - constructor; [|constructor]. vm_compute. discriminate.
Defined.

(** The object is written before the record is checked: a second upload without the right If-Match fails, but it has
    replaced the object, whose digest no longer is the recorded one: the artifact cannot be read any more. *)
Example refused_upload_destroys :
  let st1 := (toy_upload "a" "one" "acme" "upload-1" None toy_bucket_state).1 in
  let '(st2, r) := toy_upload "a" "two" "acme" "upload-2" None st1 in
  ar_content <$> toy_download "a" "acme" st1 = Ok "one" ∧ r = Err (RuntimeError "If-Match optimistic concurrency conflict") ∧
  toy_download "a" "acme" st2 = Err (RuntimeError "object digest verification failed").
Proof. vm_compute. split_and!; reflexivity. Qed.

(** Two artifacts whose keys differ in outer slashes only have two records and one object. *)
Example slashes_collide :
  let st1 := (toy_upload "a" "one" "acme" "upload-1" None toy_bucket_state).1 in
  let '(st2, r) := toy_upload "a/" "two" "acme" "upload-2" None st1 in
  is_ok r = true ∧ toy_download "a" "acme" st2 = Err (RuntimeError "object digest verification failed").
Proof. vm_compute. split_and!; reflexivity. Qed.

Example keys_confined :
  object_key "acme" "models/../../rival/x" = Err (ValueError "invalid object key") ∧ object_key "../rival" "x" = Err (ValueError "invalid tenant ID for object key") ∧
  object_key "acme" "/models//x/" = Ok "tenants/acme/models//x".
Proof. vm_compute. split_and!; reflexivity. Qed.
