(* ===== verification/Web.v ===== *)
(** * The web console: [apps/web/main.py]

    [WebSettings]: the settings of the console and their checks; [WebHandler]: static files, the public configuration
    and the proxy to the API.  A request is its method, request target, headers and body; a response its status, headers
    and content.  The file system is a map from resolved paths to contents.  Parameters: the parts of a URL
    ([urlsplit]), [unquote], the resolution of a path, the media type of a name, the text of a JSON document, and the
    HTTP client [send] (none when it raises).  Sockets and logging are left out. *)
From S2P Require Import Prelude PyValue PyText Settings Domain Certification Attestation Evidence Material Connectors.
Local Open Scope Z_scope.

Definition MAX_PROXY_BODY_BYTES : Z := 2 * 1024 * 1024.
Definition PROXY_PREFIXES : list string := ["/health/"; "/version"; "/v1/"; "/openapi.json"].
Definition HOP_BY_HOP : list string :=
  ["connection"; "keep-alive"; "proxy-authenticate"; "proxy-authorization"; "te"; "trailers"; "transfer-encoding"; "upgrade"; "host"; "content-length"].

Record dev_identity := MkDevIdentity { dev_tenant : string; dev_actor : string; dev_roles : string }.

Record WebSettings := MkWebSettings {
  web_environment : string; web_host : string; web_port : Z; static_root : string; api_upstream : string;
  web_issuer : option string; web_client_id : option string; web_audience : option string; web_scopes : string;
  web_dev_identity : option dev_identity; release_id : string; web_release_commit : option string
}.

Section settings.
Context (scheme_of : string → string) (resolve_path : string → string) (fs : files) (is_dir : string → bool) (packaged_root : string) (env : gmap string string).

(** [re.fullmatch(r"[0-9a-f]{40}|[0-9a-f]{64}", s)] *)
Definition full_revision (s : string) : bool :=
  ((String.length s =? 40)%nat || (String.length s =? 64)%nat) && forallb is_hex (String.list_ascii_of_string s).

Definition web_validate (s : WebSettings) : result unit :=
  raise_if (negb (mem (web_environment s) ["development"; "simulator"; "test"; "staging"; "production"])) (ValueError "unknown web environment");;
  raise_if (negb ((1 <=? web_port s) && (web_port s <=? 65535))) (ValueError "web port is invalid");;
  raise_if (negb (mem (scheme_of (api_upstream s)) ["http"; "https"])) (ValueError "web API upstream must use HTTP or HTTPS");;
  raise_if (negb (is_file fs (in_dir (static_root s) "index.html"))) (ValueError "web static build is unavailable");;
  if negb (bool_decide (web_environment s = "production")) then Ok tt
  else
    raise_if (negb (String.prefix "https://" (default "" (web_issuer s)))) (ValueError "production web console requires an HTTPS OIDC issuer");;
    raise_if (negb (given (web_client_id s))) (ValueError "production web console requires an OIDC client ID");;
    raise_if (bool_decide (py_strip (release_id s) = "") || bool_decide (release_id s = "local-candidate") || String.prefix "REPLACE_" (upper (release_id s)))
      (ValueError "production web console requires a unique release ID");;
    raise_if (negb (full_revision (default "" (web_release_commit s)))) (ValueError "production web console requires a full immutable Git revision").

Definition web_from_env : result WebSettings :=
  let e := str_lower (getenv env "COMPUTEWEAVER_ENV" "development") in
  let default_root := if is_dir "/app/web" then "/app/web" else packaged_root in
  port ← getenv_int env "COMPUTEWEAVER_WEB_PORT" "8080";
  let s := MkWebSettings e (getenv env "COMPUTEWEAVER_WEB_HOST" "0.0.0.0") port
    (resolve_path (getenv env "COMPUTEWEAVER_WEB_STATIC_ROOT" default_root))
    (rstrip_slash (getenv env "COMPUTEWEAVER_WEB_API_UPSTREAM" "http://127.0.0.1:8000"))
    (env !! "COMPUTEWEAVER_OIDC_ISSUER") (env !! "COMPUTEWEAVER_WEB_OIDC_CLIENT_ID") (env !! "COMPUTEWEAVER_OIDC_AUDIENCE")
    (getenv env "COMPUTEWEAVER_WEB_OIDC_SCOPES" "openid profile email")
    (if mem e ["development"; "simulator"; "test"]
     then Some (MkDevIdentity (getenv env "COMPUTEWEAVER_WEB_DEV_TENANT" "tenant-local") (getenv env "COMPUTEWEAVER_WEB_DEV_ACTOR" "operator-local")
       (getenv env "COMPUTEWEAVER_WEB_DEV_ROLES" "admin,operator"))
     else None)
    (getenv env "COMPUTEWEAVER_RELEASE_ID" "local-candidate") (getenv_or_none env "COMPUTEWEAVER_RELEASE_COMMIT") in
  web_validate s;; Ok s.
End settings.

Definition optional_text (o : option string) : pyval := match o with Some s => VStr s | None => VNone end.
Definition public_config (s : WebSettings) : pyval :=
  VDict [("environment", VStr (web_environment s));
    ("oidc", VDict [("issuer", optional_text (web_issuer s)); ("client_id", optional_text (web_client_id s)); ("audience", optional_text (web_audience s)); ("scopes", VStr (web_scopes s))]);
    ("dev_identity", match web_dev_identity s with
       | Some d => VDict [("tenant_id", VStr (dev_tenant d)); ("actor_id", VStr (dev_actor d)); ("roles", VStr (dev_roles d))] | None => VNone end);
    ("release_id", VStr (release_id s)); ("release_commit", optional_text (web_release_commit s))].

(** ** The handler *)

Abbreviation headers := (list (string * string)).
Record web_request := MkWebRequest { command : string; target : string; web_headers : headers; web_input : string }.
Record web_response := MkWebResponse { status : Z; out_headers : headers; content : string }.

Section handler.
Context (s : WebSettings) (fs : files).
Context (url_path : string → string) (url_origin : string → string * string) (unquote : string → string) (resolve_path : string → string).
Context (media_type : string → option string) (json_text : pyval → string).
Context (send : string → string → string → headers → option string → option web_response).

Definition security_headers : headers :=
  let origin := match nonempty (web_issuer s) with
    | Some i => let '(scheme, netloc) := url_origin i in " " +:+ scheme +:+ "://" +:+ netloc | None => "" end in
  [("Content-Security-Policy", "default-src 'self'; connect-src 'self'" +:+ origin +:+
      "; img-src 'self' data:; style-src 'self'; script-src 'self'; font-src 'self'; frame-ancestors 'none'; base-uri 'self'; form-action 'self'");
   ("Referrer-Policy", "no-referrer"); ("X-Content-Type-Options", "nosniff"); ("X-Frame-Options", "DENY");
   ("Permissions-Policy", "camera=(), microphone=(), geolocation=()")].

Definition content_length (c : string) : string * string := ("Content-Length", int_str (Z.of_nat (String.length c))).

Definition web_json (st : Z) (body : pyval) : web_response :=
  let c := json_text body in
  MkWebResponse st ([("Content-Type", "application/json"); ("Cache-Control", "no-store")] ++ security_headers ++ [content_length c]) c.
Definition web_error (st : Z) (e : string) : web_response := web_json st (VDict [("error", VStr e)]).

Definition is_proxy_path (path : string) : bool :=
  existsb (λ p, bool_decide (path = rstrip_slash p) || String.prefix p path) PROXY_PREFIXES.

Definition hop_by_hop (k : string) : bool := mem (str_lower k) HOP_BY_HOP.
Definition end_to_end (h : headers) : headers := base.filter (λ kv : string * string, hop_by_hop kv.1 = false) h.

(** [self.headers.get(name, default)]: the first header of that name, in any case *)
Definition header_or (name fallback : string) (h : headers) : string :=
  match base.filter (λ kv : string * string, str_lower kv.1 = str_lower name) h with kv :: _ => kv.2 | [] => fallback end.

(** [{key: value for key, value in headers.items() if ...}] *)
Definition forwarded_headers (h : headers) : headers := foldl (λ d kv, od_set kv.1 kv.2 d) [] (end_to_end h).

Definition proxy (q : web_request) : web_response :=
  match py_int (VStr (header_or "Content-Length" "0" (web_headers q))) with
  | Err _ => web_error 400 "invalid_content_length"
  | Ok length_ =>
      if (length_ <? 0) || (MAX_PROXY_BODY_BYTES <? length_) then web_error 413 "request_too_large"
      else
        let body := if length_ =? 0 then None else Some (String.substring 0 (Z.to_nat length_) (web_input q)) in
        match send (api_upstream s) (command q) (target q) (forwarded_headers (web_headers q)) body with
        | None => web_error 502 "api_unavailable"
        | Some r => MkWebResponse (status r) (end_to_end (out_headers r) ++ security_headers ++ [content_length (content r)]) (content r)
        end
  end.

Definition proxy_or_reject (q : web_request) : web_response :=
  if is_proxy_path (url_path (target q)) then proxy q else web_error 404 "route_not_found".

(** [s.lstrip("/")] *)
Fixpoint lstrip_slash (x : string) : string :=
  match x with String.String c x' => if ord c =? 47 then lstrip_slash x' else x | EmptyString => EmptyString end.

Definition serve_file (path : string) : option web_response :=
  c ← fs !! path;
  let name := path_name path in
  Some (MkWebResponse 200 ([("Content-Type", default "application/octet-stream" (media_type name));
      ("Cache-Control", if bool_decide (name = "index.html") then "no-cache" else "public, max-age=31536000, immutable")]
      ++ security_headers ++ [content_length c]) c).

Definition static_file (path : string) : web_response :=
  let relative := lstrip_slash (unquote path) in
  let relative := if bool_decide (relative = "") then "index.html" else relative in
  let candidate := resolve_path (in_dir (static_root s) relative) in
  if negb (is_under (static_root s) candidate) then web_error 404 "asset_not_found"
  else
    let candidate := if is_file fs candidate then candidate else in_dir (static_root s) "index.html" in
    match serve_file candidate with Some r => r | None => web_error 503 "web_build_unavailable" end.

Definition do_GET (q : web_request) : web_response :=
  let path := url_path (target q) in
  if bool_decide (path = "/web-health/live") then web_json 200 (VDict [("status", VStr "live")])
  else if bool_decide (path = "/web-config.json") then web_json 200 (public_config s)
  else if is_proxy_path path then proxy q
  else static_file path.

(** The methods that the handler has; the server answers 501 to any other *)
Definition web_handle (q : web_request) : option web_response :=
  if bool_decide (command q = "GET") then Some (do_GET q)
  else if mem (command q) ["POST"; "PUT"; "PATCH"; "DELETE"] then Some (proxy_or_reject q)
  else None.
End handler.

(** ** Properties *)

(** A production console has an HTTPS identity provider, a named release of a full revision, and no built-in identity. *)
Theorem production_web_settings scheme_of resolve_path fs is_dir packaged_root env s :
  web_from_env scheme_of resolve_path fs is_dir packaged_root env = Ok s → web_environment s = "production" →
  String.prefix "https://" (default "" (web_issuer s)) = true ∧ given (web_client_id s) = true ∧ web_dev_identity s = None ∧
  release_id s ≠ "local-candidate" ∧ full_revision (default "" (web_release_commit s)) = true ∧ is_Some (fs !! in_dir (static_root s) "index.html").
Proof.
  unfold web_from_env. intros H Hp. apply bind_ok in H as (port & _ & H). apply bind_ok in H as ([] & Hv & H). injection H as <-. cbn in Hp.
  unfold web_validate in Hv. cbn [web_environment web_port api_upstream static_root web_issuer web_client_id release_id web_release_commit] in Hv. rewrite Hp in Hv.
  do 3 apply bind_ok in Hv as ([] & _ & Hv). apply bind_ok in Hv as ([] & H4%guard_last & Hv). rewrite bool_decide_true in Hv by done. cbn [negb] in Hv.
  apply bind_ok in Hv as ([] & H5%guard_last & Hv). apply bind_ok in Hv as ([] & H6%guard_last & Hv). apply bind_ok in Hv as ([] & H7%guard_last & H8%guard_last).
  apply negb_false_iff in H4, H5, H6, H8. bprop. cbn. rewrite Hp. split_and!; try done; by apply bool_decide_eq_true in H4.
Qed.

Lemma substring_length n s : (String.length (String.substring 0 n s) <= n)%nat.
Proof. revert n. induction s as [|c s IH]; intros [|n]; cbn; try lia. specialize (IH n). lia. Qed.

Lemma forwarded_end_to_end h : Forall (λ kv, hop_by_hop kv.1 = false) (forwarded_headers h).
Proof.
  unfold forwarded_headers. assert (Forall (λ kv, hop_by_hop kv.1 = false) (end_to_end h)) as He.
  { apply Forall_forall. intros kv [? _]%list_elem_of_filter. done. }
  revert He. generalize (end_to_end h) as l. intros l Hl.
  assert (∀ d : headers, NoDup d.*1 → Forall (λ kv, hop_by_hop kv.1 = false) d → Forall (λ kv, hop_by_hop kv.1 = false) (foldl (λ d kv, od_set kv.1 kv.2 d) d l)) as H;
    [|apply H; constructor].
  induction Hl as [|kv l Hkv _ IH]; intros d Hnd Hd; [done|]. cbn. apply IH; [by apply od_set_NoDup|].
  rewrite Forall_forall in Hd |- *. intros x [->|[Hx _]]%elem_of_od_set; [done|by apply Hd|done].
Qed.

Section confined.
Context (s : WebSettings) (fs : files).
Context (url_path : string → string) (url_origin : string → string * string) (unquote : string → string) (resolve_path : string → string).
Context (media_type : string → option string) (json_text : pyval → string).
Context (send : string → string → string → headers → option string → option web_response).

(** A response of the console itself, a file of the build, or the API's *)
Inductive served (q : web_request) (r : web_response) : Prop :=
| OwnDocument st d : r = web_json s url_origin json_text st d → served q r
| BuildFile p : command q = "GET" → is_under (static_root s) p = true ∨ p = in_dir (static_root s) "index.html" → fs !! p = Some (content r) →
    status r = 200 → served q r
| Proxied up body : is_proxy_path (url_path (target q)) = true →
    send (api_upstream s) (command q) (target q) (forwarded_headers (web_headers q)) body = Some up →
    (∀ b, body = Some b → Z.of_nat (String.length b) <= MAX_PROXY_BODY_BYTES) →
    status r = status up → content r = content up →
    (∀ k v, (k, v) ∈ out_headers r → hop_by_hop k = false ∨ (k, v) = content_length (content up)) → served q r.

Definition hardened (r : web_response) : Prop := Forall (.∈ out_headers r) (security_headers s url_origin).

Lemma hardened_middle st a c x : hardened (MkWebResponse st (a ++ security_headers s url_origin ++ c) x).
Proof using. apply Forall_forall. intros h Hh. apply elem_of_app. right. apply elem_of_app. by left. Qed.

Lemma json_served q st d : served q (web_json s url_origin json_text st d) ∧ hardened (web_json s url_origin json_text st d).
Proof using. split; [by eapply OwnDocument|]. apply hardened_middle. Qed.

Lemma security_end_to_end k v : (k, v) ∈ security_headers s url_origin → hop_by_hop k = false.
Proof using.
  unfold security_headers. intros H. repeat (apply elem_of_cons in H as [[= -> _]|H]; [by vm_compute|]). by apply elem_of_nil in H.
Qed.

Lemma proxy_served q : is_proxy_path (url_path (target q)) = true →
  served q (proxy s url_origin json_text send q) ∧ hardened (proxy s url_origin json_text send q).
Proof using.
  intros Hp. unfold proxy. destruct (py_int _) as [n|]; [|apply json_served]. destruct ((n <? 0) || _) eqn:En; [apply json_served|].
  set (b := if n =? 0 then None else _). destruct (send _ _ _ _ _) as [up|] eqn:Es; [|apply json_served]. split.
  - eapply Proxied; [done|exact Es| |done|done|].
    + intros x Hx. unfold b in Hx. destruct (n =? 0); [done|]. injection Hx as <-. apply orb_false_iff in En as [H1%Z.ltb_ge H2%Z.ltb_ge].
      pose proof (substring_length (Z.to_nat n) (web_input q)). lia.
    + cbn [out_headers]. intros k v [[Hk _]%list_elem_of_filter|[Hk|Hk%list_elem_of_singleton]%elem_of_app]%elem_of_app; [by left|left; by eapply security_end_to_end|by right].
  - apply hardened_middle.
Qed.

Lemma static_served q path : command q = "GET" →
  served q (static_file s fs url_origin unquote resolve_path media_type json_text path) ∧
  hardened (static_file s fs url_origin unquote resolve_path media_type json_text path).
Proof using.
  intros Hc. unfold static_file. set (rel := if bool_decide _ then _ else _). destruct (is_under _ _) eqn:Eu; [|apply json_served]. cbn [negb].
  set (p := if is_file _ _ then _ else _). destruct (serve_file _ _ _ _ _) as [r|] eqn:Er; [|apply json_served].
  unfold serve_file in Er. destruct (fs !! p) as [c|] eqn:Ef; [|done]. injection Er as <-. split.
  - eapply (BuildFile _ _ p); [done| |exact Ef|done]. unfold p. destruct (is_file _ _); [by left|by right].
  - exact (hardened_middle 200 [_; _] [_] c).
Qed.

Lemma handled q r : web_handle s fs url_path url_origin unquote resolve_path media_type json_text send q = Some r → served q r ∧ hardened r.
Proof using.
  unfold web_handle. case_bool_decide as Hg.
  - intros [= <-]. unfold do_GET. case_bool_decide; [apply json_served|]. case_bool_decide; [apply json_served|].
    destruct (is_proxy_path _) eqn:E; [by apply proxy_served|by apply static_served].
  - destruct (mem _ _); [|done]. intros [= <-]. unfold proxy_or_reject. destruct (is_proxy_path _) eqn:E; [by apply proxy_served|apply json_served].
Qed.
End confined.


(** ** A sample console *)

Definition toy_console : WebSettings := MkWebSettings "production" "0.0.0.0" 8080 "/srv" "https://api" (Some "https://idp") (Some "web") None "openid" None "r1" None.
Definition toy_files : files := {["/srv/index.html" := "<html>"; "/srv/app.js" := "js"; "/etc/passwd" := "root"]}.
Definition toy_resolve (p : string) : string := if bool_decide (p = "/srv/../etc/passwd") then "/etc/passwd" else p.
Definition toy_send (base method url : string) (h : headers) (b : option string) : option web_response := Some (MkWebResponse 201 [("Connection", "close"); ("content-encoding", "gzip")] url).
Definition toy_web (path_of : string → string) (method url : string) (h : headers) : option web_response :=
  web_handle toy_console toy_files path_of (λ u, ("https", "idp")) id toy_resolve (λ _, None) (λ _, "{}") toy_send (MkWebRequest method url h "").


Example toy_requests :
  (status <$> toy_web id "GET" "/../etc/passwd" []) = Some 404 ∧ (content <$> toy_web id "GET" "/dashboard" []) = Some "<html>" ∧
  (status <$> toy_web id "POST" "/app.js" []) = Some 404 ∧ (status <$> toy_web id "DELETE" "/v1/jobs/j" [("content-length", "x")]) = Some 400 ∧
  (status <$> toy_web id "PUT" "/v1/artifacts/a" [("Content-Length", "2097153")]) = Some 413 ∧ toy_web id "TRACE" "/v1/jobs" [] = None.
Proof. vm_compute. split_and!; reflexivity. Qed.

(** The request target is handed to the client as it came: a target in absolute form passes the check of its path and
    names another host than the API's. *)
Example absolute_target_forwarded : (content <$> toy_web (λ _, "/v1/latest") "GET" "http://169.254.169.254/v1/latest" []) = Some "http://169.254.169.254/v1/latest".
Proof. vm_compute. reflexivity. Qed.

(** The content that the client has decoded is relayed under the encoding the API declared. *)
Example encoding_relayed : (λ r, mem "content-encoding" (map fst (out_headers r))) <$> toy_web id "GET" "/v1/jobs" [("Accept-Encoding", "gzip")] = Some true.
Proof. vm_compute. reflexivity. Qed.
