(* ===== verification/Import.v ===== *)
(** * Topology import: [packages/topology/importers.py]

    [import_csv] over the rows that [csv.DictReader] yields: dicts from the columns of the header to texts, without a text
    where a row is short ([None]).  The fields of an imported asset are what the row holds, unchecked; [exn_text] is the
    text of an exception. *)
From S2P Require Import Prelude PyDecimal PyValue PyText Domain Topology Administration.
Local Open Scope Z_scope.

Abbreviation csv_row := (list (string * option string)).
Record ImportedAsset := MkImported {
  im_id : option string; im_tenant : string; im_site : option string; im_kind : AssetType; im_name : option string; im_capacity : pynum
}.
Record ImportResult := MkImport { im_assets : list ImportedAsset; im_conflicts : list string }.

Section import.
Context (exn_text : exn → string) (tenant_id : string).

Definition column (k : string) (row : csv_row) : result (option string) := of_option (KeyError k) (od_get k row).

(** [Decimal(row.get("capacity_kw") or 0)] *)
Definition capacity_of (row : csv_row) : result pynum :=
  match mjoin (od_get "capacity_kw" row) with
  | Some t => if bool_decide (t = "") then Ok (Finite (dint 0)) else decimal_of_str t
  | None => Ok (Finite (dint 0))
  end.

Definition import_asset (row : csv_row) : result ImportedAsset :=
  id ← column "id" row;
  site ← column "site_id" row;
  k ← column "kind" row; kind ← asset_type_of (match k with Some t => VStr t | None => VNone end);
  name ← column "name" row;
  capacity ← capacity_of row;
  Ok (MkImported id tenant_id site kind name capacity).

Record import_state := MkImporting { is_assets : list ImportedAsset; is_conflicts : list string; is_seen : list (option string) }.

(** The exceptions that make a conflict of their row *)
Definition row_error (e : exn) : bool := match e with KeyError _ | ValueError _ => true | _ => false end.

Definition import_row (st : import_state) (nrow : Z * csv_row) : result import_state :=
  let conflict e seen := if row_error e then Ok (MkImporting (is_assets st) (is_conflicts st ++ ["row " +:+ int_str nrow.1 +:+ ": " +:+ exn_text e]) seen) else Err e in
  match column "id" nrow.2 with
  | Err e => conflict e (is_seen st)
  | Ok id =>
      if bool_decide (id ∈ is_seen st) then conflict (ValueError "duplicate id") (is_seen st)
      else
        let seen := is_seen st ++ [id] in
        match import_asset nrow.2 with
        | Ok a => Ok (MkImporting (is_assets st ++ [a]) (is_conflicts st) seen)
        | Err e => conflict e seen
        end
  end.

Definition import_csv (rows : list csv_row) : result ImportResult :=
  st ← foldM_result import_row (imap (λ i row, (2 + Z.of_nat i, row)) rows) (MkImporting [] [] []);
  Ok (MkImport (is_assets st) (is_conflicts st)).

(** ** Properties *)

(** After the rows [l]: the assets are those of their rows, in order and without a repeated id *)
Record imported (l : list (Z * csv_row)) (st : import_state) : Prop := {
  imp_count : (length (is_assets st) + length (is_conflicts st) = length l)%nat;
  imp_rows : Forall (λ a, ∃ nrow, nrow ∈ l ∧ import_asset nrow.2 = Ok a) (is_assets st);
  imp_seen : Forall (λ a, im_id a ∈ is_seen st) (is_assets st);
  imp_unique : NoDup (map im_id (is_assets st))
}.

Lemma import_asset_id row a : import_asset row = Ok a → column "id" row = Ok (im_id a) ∧ im_tenant a = tenant_id.
Proof.
  intros H. unfold import_asset in H. apply bind_ok in H as (id & Hid & H). do 5 apply bind_ok in H as (? & _ & H). by injection H as <-.
Qed.

Lemma import_step l st nrow st' : imported l st → import_row st nrow = Ok st' → imported (l ++ [nrow]) st'.
Proof.
  intros [Hc Hr Hs Hu] H.
  assert (Forall (λ a, ∃ x, x ∈ l ++ [nrow] ∧ import_asset x.2 = Ok a) (is_assets st)) as Hr'.
  { eapply Forall_impl; [exact Hr|]. intros a (x & Hx & Ha). exists x. split; [|done]. apply elem_of_app. by left. }
  assert (∀ e seen, (∀ i, i ∈ is_seen st → i ∈ seen) → (if row_error e then Ok (MkImporting (is_assets st)
      (is_conflicts st ++ ["row " +:+ int_str nrow.1 +:+ ": " +:+ exn_text e]) seen) else Err e) = Ok st' → imported (l ++ [nrow]) st') as Hconf.
  { intros e seen Hsub. destruct (row_error e); [|done]. intros [= <-]. split; cbn; [rewrite !length_app; cbn; lia|done| |done].
    eapply Forall_impl; [exact Hs|]. intros a Ha. by apply Hsub. }
  unfold import_row in H. destruct (column "id" nrow.2) as [id|e] eqn:Eid; [|by eapply Hconf]. case_bool_decide as Hin; [by eapply Hconf|].
  destruct (import_asset nrow.2) as [a|e] eqn:Ea; [|eapply Hconf; [|exact H]; intros i Hi; apply elem_of_app; by left].
  injection H as <-. destruct (import_asset_id _ _ Ea) as [Hid _]. rewrite Eid in Hid. injection Hid as ->. split; cbn.
  - rewrite !length_app. cbn. lia.
  - apply Forall_app. split; [done|]. constructor; [|constructor]. exists nrow. split; [|done]. apply elem_of_app. right. left.
  - apply Forall_app. split; [|constructor; [|constructor]; apply elem_of_app; right; left]. eapply Forall_impl; [exact Hs|]. intros b Hb. apply elem_of_app. by left.
  - rewrite map_app. apply NoDup_app. split_and!; [done| |apply NoDup_singleton]. intros i (b & -> & Hb)%list_elem_of_fmap Hi%list_elem_of_singleton.
    rewrite Forall_forall in Hs. apply Hin. rewrite <- Hi. by apply Hs.
Qed.

Lemma import_loop l : ∀ st, foldM_result import_row l (MkImporting [] [] []) = Ok st → imported l st.
Proof.
  induction l as [|x l IH] using rev_ind; intros st H; [injection H as <-; by split; constructor|].
  rewrite foldM_result_app in H. destruct (foldM_result import_row l _) as [st1|]; [|done]. cbn in H.
  destruct (import_row st1 x) as [st2|] eqn:E; [|done]. injection H as <-. eapply import_step; [by apply IH|exact E].
Qed.

Lemma foldM_raises {A B} (f : B → A → result B) l b e : foldM_result f l b = Err e → ∃ b' x, x ∈ l ∧ f b' x = Err e.
Proof.
  revert b. induction l as [|x l IH]; intros b H; [done|]. cbn in H. destruct (f b x) as [b1|e1] eqn:E.
  - destruct (IH b1 H) as (b' & y & Hy & He). exists b', y. split; [by right|done].
  - injection H as ->. exists b, x. split; [left|done].
Qed.

Lemma capacity_raises row e : capacity_of row = Err e → e = InvalidOperation.
Proof.
  unfold capacity_of. destruct (mjoin _) as [t|]; [|done]. case_bool_decide; [done|]. unfold decimal_of_str. destruct (take_sign _) as [neg body].
  destruct (_ || _); [done|]. destruct (_ || _).
  - destruct (take_digits _) as [? [|? ?]]; [done|]. by intros [= <-].
  - destruct (parse_finite _ _); [done|]. by intros [= <-].
Qed.

Lemma bind_raises {A B} (m : result A) (f : A → result B) e : m ≫= f = Err e → m = Err e ∨ ∃ x, m = Ok x ∧ f x = Err e.
Proof. destruct m as [x|e']; cbn; [intros H; right; by exists x|intros [= ->]; by left]. Qed.

Lemma column_raises k row e : column k row = Err e → row_error e = true.
Proof. unfold column. destruct (od_get k row); [done|]. by intros [= <-]. Qed.

Lemma import_row_raises st nrow e : import_row st nrow = Err e → e = InvalidOperation ∧ capacity_of nrow.2 = Err e.
Proof.
  unfold import_row. destruct (column "id" nrow.2) as [id|e0] eqn:Eid; [|by rewrite (column_raises _ _ _ Eid)].
  case_bool_decide; [done|]. destruct (import_asset nrow.2) as [a|e1] eqn:Ea; [done|]. destruct (row_error e1) eqn:Er; [done|]. intros [= ->].
  assert (∀ k, column k nrow.2 ≠ Err e) as Hcol by (intros k Hk%column_raises; congruence). unfold import_asset in Ea.
  apply bind_raises in Ea as [Hk|(? & _ & Ea)]; [by destruct (Hcol "id")|]. apply bind_raises in Ea as [Hk|(? & _ & Ea)]; [by destruct (Hcol "site_id")|].
  apply bind_raises in Ea as [Hk|(k & _ & Ea)]; [by destruct (Hcol "kind")|].
  apply bind_raises in Ea as [Hk|(? & _ & Ea)]; [unfold asset_type_of in Hk; destruct k as [t|]; [destruct (od_get t ASSET_TYPES)|]; try done; by injection Hk as <-|].
  apply bind_raises in Ea as [Hk|(? & _ & Ea)]; [by destruct (Hcol "name")|]. apply bind_raises in Ea as [Hk|(? & _ & Ea)]; [|done].
  split; [by eapply capacity_raises|done].
Qed.

(** Every row of the import becomes an asset of the tenant or a conflict; the assets have distinct ids and are those of
    their rows.  The import fails as a whole exactly on a capacity that is no number. *)
Theorem import_exact rows :
  match import_csv rows with
  | Ok r => (length (im_assets r) + length (im_conflicts r) = length rows)%nat ∧ NoDup (map im_id (im_assets r)) ∧
      Forall (λ a, im_tenant a = tenant_id ∧ ∃ row, row ∈ rows ∧ import_asset row = Ok a) (im_assets r)
  | Err e => e = InvalidOperation ∧ ∃ row, row ∈ rows ∧ capacity_of row = Err e
  end.
Proof.
  unfold import_csv. set (l := imap _ rows). assert (∀ x, x ∈ l → x.2 ∈ rows) as Hl.
  { intros x (i & row & -> & Hi)%elem_of_lookup_imap. by eapply list_elem_of_lookup_2. }
  destruct (foldM_result import_row l _) as [st|e] eqn:E; cbn.
  - destruct (import_loop l st E) as [Hc Hr _ Hu]. split_and!; [rewrite Hc; apply length_imap|done|].
    eapply Forall_impl; [exact Hr|]. intros a (x & Hx & Ha). split; [by apply (import_asset_id x.2)|]. eauto.
  - destruct (foldM_raises _ _ _ _ E) as (st & x & Hx & He). destruct (import_row_raises _ _ _ He) as [-> Hcap]. eauto.
Qed.
End import.

Definition toy_row (id kind capacity : string) : csv_row :=
  [("id", Some id); ("site_id", Some "s1"); ("kind", Some kind); ("name", Some id); ("capacity_kw", Some capacity)].
Definition toy_exn_text (e : exn) : string := match e with ValueError m => m | KeyError k => k | _ => "" end.

Example import_sample : import_csv toy_exn_text "acme" [toy_row "a" "rack" "12.5"; toy_row "b" "closet" ""; toy_row "a" "room" ""; [("id", Some "c"); ("kind", None)]] =
  Ok (MkImport [MkImported (Some "a") "acme" (Some "s1") RACK (Some "a") (Finite (Dec 125 (-1)))]
    ["row 3: not a valid AssetType"; "row 4: duplicate id"; "row 5: site_id"]).
Proof. vm_compute. reflexivity. Qed.

(** The exception of a malformed decimal is not a [ValueError]: one bad capacity aborts the import of all rows. *)
Example bad_capacity_aborts : import_csv toy_exn_text "acme" [toy_row "a" "rack" "12.5"; toy_row "b" "rack" "12,5"] = Err InvalidOperation.
Proof. vm_compute. reflexivity. Qed.
